(* ===== verification/_CoqProject ===== *)
-Q . S2P
Prelude.v
State.v
Locks.v
Kstring.v
Kalloc.v
Vm.v
PageTable.v
VmSpec.v
Uvm.v
UvmFree.v
UvmCopy.v
Copy.v
Spinlock.v
Sched.v
Ring.v
Uart.v
Kprintf.v
Either.v
Sleeplock.v
Bio.v
BioList.v
BioSpec.v
BlockLayer.v
Log.v
LogSpec.v
Txn.v
Boot.v
Crash.v
LogSpace.v
Fs.v
FsTxn.v
FsAlloc.v
FsRead.v
FsInode.v
FsFile.v
FsPath.v
Pipe.v
PipeSpec.v
Console.v
ConsoleSpec.v
File.v
FsWrite.v
FsDir.v
Proc.v
ProcMem.v
ForkSpec.v
SchedSpec.v
SleepWake.v
Exec.v
Syscall.v
Sysproc.v
Sysfile.v
SyscallSpec.v
Trap.v
Main.v
Virtio.v
VirtioSpec.v
Uprintf.v
Usys.v
Primes.v
PrimesSpec.v
Grep.v
Sh.v
ShSpec.v
Xargs.v
Umalloc.v
UmallocSpec.v
Mkfs.v
MkfsFiles.v
MkfsSpec.v
MkfsBoot.v
