(* ===== verification/Prelude.v ===== *)
(** * A verification of xv6 and of its user programs

    The program is xv6 for RISC-V as the sources under src/ have it: a kernel
    (src/kernel), user programs (src/user) and the tool that makes the disk
    (src/mkfs).  Its routines are translated to
    functions of Rocq, one per routine and with its name, and theorems state
    what they do.

    ** How the code is represented

    An integer of the code is a [Z]; where the width matters, the wrap-around is
    written with [u8] ... [u64], [i16] ... [i64] (this file).  Memory, a disk
    block and a buffer are finite maps from addresses to bytes.  The kernel's
    global variables are the fields of one record [kstate] (State.v), a pointer
    to an entry of one of its tables is the index of the entry.  A routine of the
    kernel is a value of [K A], a function from a state to one of four outcomes:
    [Ok] with a result and the next state, [Panic] with the message of panic(),
    [Block] when the running process gives up the CPU in sleep(), yield() or
    exit(), with the state at that moment, and [Diverge] for a loop that uses up
    its fuel.  A routine that sleeps has a definition [..._resume] or [..._loop]
    for the rest of it, which the scheduler starts later, in a state that other
    processes and interrupts have changed.  What is not under src/ (addresses of
    the linker script, the disk, the virtio device, the code of entry points in
    assembly) is an argument with its documented behaviour as hypotheses, in the
    classes [Linker] and [Symbols] and in the sections of Virtio.v.

    ** The parts of the kernel, from the bottom up

    - State.v: constants and structures of the headers, and [kstate].
    - Locks.v, Spinlock.v: kernel/spinlock.c.  Locks.v is what a routine sees of a
      spin-lock, with all checks of acquire and release.  Spinlock.v has the same
      routines as programs on any number of harts, interleaved at each access to
      the lock word; it proves mutual exclusion and that the checks are exact,
      which justifies Locks.v.
    - Kstring.v: kernel/string.c, on byte arrays.
    - Kalloc.v: kernel/kalloc.c, the free list in the free pages; a page in use is
      never handed out again.
    - Vm.v: kernel/vm.c.  PageTable.v and VmSpec.v describe a page table as a
      tree of pages; Uvm.v, UvmFree.v, UvmCopy.v and Copy.v show that user memory
      grows, is freed without a leak, is copied for fork, and is read and written
      by copyin, copyout and copyinstr exactly up to the first page that is not
      allowed.
    - Sched.v, SchedSpec.v, SleepWake.v: sleep, wakeup, kill, exit and the
      scheduler of kernel/proc.c; SleepWake.v interleaves them on several harts
      and shows that no wakeup is lost.
    - Ring.v: ring buffers, shared by Uart.v (kernel/uart.c), Pipe.v and
      PipeSpec.v (kernel/pipe.c) and Console.v and ConsoleSpec.v
      (kernel/console.c), which are bounded queues; the console refines a line
      editor.  Kprintf.v: kernel/printf.c.  Either.v: either_copyin/out.
    - Sleeplock.v, Bio.v: kernel/sleeplock.c and kernel/bio.c.  BioList.v and
      BioSpec.v show that a process sees a block as one array of bytes;
      BlockLayer.v states this as a class, which all files above use.
    - Virtio.v, VirtioSpec.v: kernel/virtio_disk.c with the device, the
      interrupts and all processes; the driver refines the disk on which Bio.v
      relies, and cannot get stuck.
    - Log.v, LogSpec.v, Txn.v, Boot.v, Crash.v, LogSpace.v: kernel/log.c.  A
      transaction is atomic whenever the machine stops, recovery can be repeated,
      and begin_op reserves enough space in the log.
    - Fs.v: kernel/fs.c.  FsTxn.v is the file system inside of a transaction,
      FsAlloc.v the block allocator, FsInode.v inodes, FsRead.v and FsWrite.v with
      FsFile.v reading and writing, FsDir.v directories, FsPath.v path names.
    - File.v, Proc.v, Exec.v, Syscall.v, Sysproc.v, Sysfile.v, SyscallSpec.v,
      Trap.v, Main.v: kernel/file.c, proc.c, exec.c, syscall.c, sysproc.c,
      sysfile.c, trap.c with plic.c, main.c.  ProcMem.v follows the page table of
      a process from proc_pagetable to proc_freepagetable, ForkSpec.v allocproc,
      freeproc and fork.

    ** The user programs

    A string of a user program is the list of its characters before the NUL, and
    a pointer into a buffer is a position.

    - Uprintf.v: user/printf.c.
    - Usys.v: processes with open files and pipes, as programs see the kernel;
      Primes.v and PrimesSpec.v: the sieve of user/primes.c on it, under every
      schedule.
    - Grep.v: user/grep.c, the matcher against the language of the pattern and
      the buffered search against the lines of the input.
    - Sh.v, ShSpec.v: the parser of user/sh.c against the grammar of commands.
    - Xargs.v: user/xargs.c.
    - Umalloc.v, UmallocSpec.v: user/umalloc.c, in every history of calls.

    ** The tool that makes the disk

    - Mkfs.v: mkfs/mkfs.c.  MkfsFiles.v follows the image through every step,
      MkfsSpec.v shows that it is a file system as the theorems on kernel/fs.c
      require it, and MkfsBoot.v runs the kernel on it: fsinit, namei, ilock and
      readi give back the files of the host.

    ** What the theorems show

    The properties are the theorems with a number C1, C2, ... in their comment.
    Atomicity and recovery of the log: Crash.v, with its space in LogSpace.v.
    Memory: Kalloc.v, Uvm.v, UvmFree.v, Copy.v.  Concurrency:
    Spinlock.v, SleepWake.v, VirtioSpec.v, PrimesSpec.v.  Files: FsAlloc.v,
    FsInode.v, FsRead.v, FsWrite.v, FsDir.v, FsPath.v; from the files of the host to
    those a booted kernel reads: MkfsSpec.v, MkfsBoot.v.  Devices and queues: Uart.v,
    PipeSpec.v, ConsoleSpec.v, Kprintf.v, VirtioSpec.v.  Processes: ForkSpec.v,
    SchedSpec.v.
    User programs: PrimesSpec.v, Grep.v, ShSpec.v, Xargs.v, UmallocSpec.v.  Some
    theorems show a fault of the code: the log of mkfs is too small
    (LogSpace.v), printint overruns its array (Kprintf.v), piperead loses a
    byte (PipeSpec.v), primes does not check pipe() (PrimesSpec.v), grep gives up
    at a long line (Grep.v), xargs overruns its array (Xargs.v).

    ** Fuel

    A loop without a bound in its head has a fuel argument.  The routine gives
    it a number that the loop cannot reach: a bound on the number of blocks or pages
    that the range touches (copyin and copyout, readi and writei, loadseg), the
    number of bytes plus a constant (strlen, skipelem, namex, piperead, pipewrite, grep),
    the number of list nodes plus one (the cache, the allocator of user
    programs), 64 for the digits of a number, four times the length of the line
    plus a constant for the parser of the shell.  The theorems on these routines
    conclude that they return [Ok] (or [Some]), never [Diverge], so the fuel is
    enough; the sieve and the systems of Spinlock.v, SleepWake.v and VirtioSpec.v
    are step relations without fuel.

    ** Not modelled

    - Assembly (entry.S, swtch.S, trampoline.S, kernelvec.S, usys.pl) and
      start.c, which set up registers; the boundaries of the routines stand for
      them.
    - The device registers that uartinit, plicinit and plicinithart write once,
      beyond the state they leave behind; the other harts in main(), which wait
      for hart 0 and repeat its per-hart steps.
    - The output of panic(): a panic ends the run.
    - Of the shell runcmd() and main(), which only make system calls.
    - The remaining user programs, which pass their arguments to a system call
      (echo, kill, ln, mkdir, rm, sleep, ...), and the tests (usertests, grind,
      stressfs, forktest).
    - What mkfs prints, and hosts that are not little-endian. *)
From stdpp Require Export gmap list strings fin_maps relations.
From Stdlib Require Export ZArith Lia.

#[global] Open Scope Z_scope.

(** * Machine integers

    A C integer of width [w] is a [Z] together with the wrap-around that the
    source performs when it is assigned: unsigned types reduce modulo [2^w],
    signed types are two's complement. *)

Definition u8 (x : Z) : Z := x mod 2 ^ 8.
Definition u16 (x : Z) : Z := x mod 2 ^ 16.
Definition u32 (x : Z) : Z := x mod 2 ^ 32.
Definition u64 (x : Z) : Z := x mod 2 ^ 64.
Definition i16 (x : Z) : Z := (x + 2 ^ 15) mod 2 ^ 16 - 2 ^ 15.
Definition i32 (x : Z) : Z := (x + 2 ^ 31) mod 2 ^ 32 - 2 ^ 31.
Definition i64 (x : Z) : Z := (x + 2 ^ 63) mod 2 ^ 64 - 2 ^ 63.

(** * Byte arrays

    Physical memory, a disk block and a character buffer are all finite maps
    from addresses (or offsets) to bytes; a byte that was never written reads
    as 0.  Multi-byte accesses are little-endian, as on RISC-V. *)

Abbreviation bytes := (gmap Z Z).

Definition load8 (m : bytes) (a : Z) : Z := default 0 (m !! a).
Definition store8 (m : bytes) (a v : Z) : bytes := <[a := v]> m.

Fixpoint le_load (n : nat) (m : bytes) (a : Z) : Z :=
  match n with
  | O => 0
  | S n => load8 m a + 256 * le_load n m (a + 1)
  end.

Fixpoint le_store (n : nat) (m : bytes) (a v : Z) : bytes :=
  match n with
  | O => m
  | S n => store8 (le_store n m (a + 1) (v / 256)) a (v mod 256)
  end.

Definition load16 := le_load 2.
Definition load32 := le_load 4.
Definition load64 := le_load 8.
Definition store16 := le_store 2.
Definition store32 := le_store 4.
Definition store64 := le_store 8.

(** The bytes at [a .. a+n-1], and the array obtained by storing a list. *)
Fixpoint load_list (n : nat) (m : bytes) (a : Z) : list Z :=
  match n with
  | O => []
  | S n => load8 m a :: load_list n m (a + 1)
  end.

Fixpoint store_list (l : list Z) (m : bytes) (a : Z) : bytes :=
  match l with
  | [] => m
  | b :: l => store_list l (store8 m a b) (a + 1)
  end.

(** The character codes of a string. *)
Definition chars (s : string) : list Z := (fun a => Z.of_nat (Ascii.nat_of_ascii a)) <$> String.list_ascii_of_string s.

(** Byte arrays whose cells hold bytes. *)
Definition bytes_ok (m : bytes) : Prop := forall a, 0 <= load8 m a < 256.

(** * Outcomes of kernel code

    A kernel routine runs to completion, stops the machine in [panic], or puts
    the running process to sleep; [Diverge] is a loop that used up its fuel. *)

Inductive res (C S A : Type) : Type :=
| Ok (a : A) (s : S)
| Panic (msg : string)
| Block (ch : C) (s : S)
| Diverge.
Arguments Ok {C S A}.
Arguments Panic {C S A}.
Arguments Block {C S A}.
Arguments Diverge {C S A}.

Definition M (C S A : Type) : Type := S -> res C S A.

Definition ret {C S A} (a : A) : M C S A := fun s => Ok a s.
Definition bind {C S A B} (m : M C S A) (f : A -> M C S B) : M C S B := fun s =>
  match m s with
  | Ok a s => f a s
  | Panic msg => Panic msg
  | Block ch s => Block ch s
  | Diverge => Diverge
  end.
Definition panic {C S A} (msg : string) : M C S A := fun _ => Panic msg.
(** An access outside of an array, which C leaves undefined. *)
Definition ub {C S A} : M C S A := fun _ => Panic "undefined behaviour".
Definition gets {C S A} (f : S -> A) : M C S A := fun s => Ok (f s) s.
Definition modify {C S} (f : S -> S) : M C S unit := fun s => Ok tt (f s).
Definition when {C S} (b : bool) (m : M C S unit) : M C S unit :=
  if b then m else ret tt.

Declare Scope kernel_scope.
Delimit Scope kernel_scope with K.
Notation "x <- c ;; k" := (bind c (fun x => k))
  (at level 100, c at next level, right associativity) : kernel_scope.
Notation "c ;;; k" := (bind c (fun _ => k))
  (at level 100, right associativity) : kernel_scope.
Notation "'let*' p := c 'in' k" := (bind c (fun y => match y with p => k end))
  (at level 100, p pattern, c at next level, right associativity) : kernel_scope.
#[global] Open Scope kernel_scope.

(** A counted loop [for(i = 0; i < n; i++) body i] whose body may leave it
    early with a value ([Some]). *)
Fixpoint for_loop {C S A} (n : nat) (i : Z) (body : Z -> M C S (option A)) : M C S (option A) :=
  match n with
  | O => ret None
  | S n => r <- body i ;;
           match r with
           | Some a => ret (Some a)
           | None => for_loop n (i + 1) body
           end
  end.

(** * Tactics *)

(** Linear arithmetic with divisions and remainders by constants. *)
Ltac div_lia := Z.to_euclidean_division_equations; lia.

(** Split on the boolean tests of integer comparisons in the goal. *)
Ltac bool_case :=
  repeat match goal with
  | |- context [ Z.eqb ?a ?b ] => destruct (Z.eqb_spec a b)
  | |- context [ Z.ltb ?a ?b ] => destruct (Z.ltb_spec a b)
  | |- context [ Z.leb ?a ?b ] => destruct (Z.leb_spec a b)
  end; cbn [andb orb negb].

(** Membership and inclusion of explicit lists. *)
Ltac elem_tac :=
  try (intros ?); rewrite ?elem_of_app, ?elem_of_cons, ?list_elem_of_singleton, ?elem_of_nil; tauto.

(** Run a bind whose first computation is known. *)
Lemma bind_Ok {C S A B} (m : M C S A) (f : A -> M C S B) s a s' :
  m s = Ok a s' -> bind m f s = f a s'.
Proof. intros H. unfold bind. by rewrite H. Qed.

Lemma bind_gets {C S A B} (f : S -> A) (k : A -> M C S B) s : bind (gets f) k s = k (f s) s.
Proof. done. Qed.
Lemma bind_modify {C S B} (f : S -> S) (k : unit -> M C S B) s : bind (modify f) k s = k tt (f s).
Proof. done. Qed.
Lemma bind_ret {C S A B} (a : A) (k : A -> M C S B) s : bind (ret a) k s = k a s.
Proof. done. Qed.
Lemma bind_panic {C S A B} msg (k : A -> M C S B) s : bind (panic msg) k s = Panic msg.
Proof. done. Qed.

(** Equations that run one step of a kernel routine. *)
Create HintDb kernel.
#[export] Hint Rewrite @bind_gets @bind_modify @bind_ret @bind_panic : kernel.

(** Run the steps whose effect is known. *)
Ltac krun := repeat (autorewrite with kernel; cbn [when negb andb orb]).

Lemma bind_inv {C S A B} (m : M C S A) (f : A -> M C S B) s b s' :
  bind m f s = Ok b s' -> exists a s1, m s = Ok a s1 /\ f a s1 = Ok b s'.
Proof. unfold bind. destruct (m s); naive_solver. Qed.

Lemma bind_assoc {C S A B D} (m : M C S A) (f : A -> M C S B) (g : B -> M C S D) s :
  bind (bind m f) g s = bind m (fun a => bind (f a) g) s.
Proof. unfold bind. by destruct (m s). Qed.

(** Decompose a successful run of a sequence into its steps. *)
Ltac inv_bind :=
  repeat match goal with
  | H : bind _ _ _ = Ok _ _ |- _ =>
      let a := fresh "a" in let s := fresh "s" in
      let E := fresh "E" in let E' := fresh "E" in
      apply bind_inv in H as (a & s & E & E')
  | H : ret _ _ = Ok _ _ |- _ => injection H as H; subst
  | H : gets _ _ = Ok _ _ |- _ => injection H as H; subst
  | H : modify _ _ = Ok _ _ |- _ => injection H as H; subst
  | H : panic _ _ = Ok _ _ |- _ => discriminate H
  | H : Ok _ _ = Ok _ _ |- _ => injection H as H; subst
  end.

(** A counted loop whose body keeps an invariant and never leaves early. *)
Lemma for_loop_inv {C S A} n : forall i (body : Z -> M C S (option A)) (I : Z -> S -> Prop) s,
  (forall j s, i <= j < i + Z.of_nat n -> I j s -> exists s', body j s = Ok None s' /\ I (j + 1) s') ->
  I i s -> exists s', for_loop n i body s = Ok None s' /\ I (i + Z.of_nat n) s'.
Proof.
  induction n as [|n IH]; intros i body I s Hb Hi.
  - exists s. split; [done|]. by replace (i + Z.of_nat 0) with i by lia.
  - destruct (Hb i s ltac:(lia) Hi) as (s1 & E & H1). cbn [for_loop]. rewrite (bind_Ok _ _ _ _ _ E).
    destruct (IH (i + 1) body I s1) as (s' & E' & H'); [|done|].
    + intros j t Hj. apply Hb. lia.
    + exists s'. split; [done|]. by replace (i + Z.of_nat (Datatypes.S n)) with (i + 1 + Z.of_nat n) by lia.
Qed.

(** A loop that may leave early with a value. *)
Lemma for_loop_exit {C S A} n : forall i (body : Z -> M C S (option A)) (I : Z -> S -> Prop) (Q : A -> S -> Prop) s,
  (forall j s, i <= j < i + Z.of_nat n -> I j s ->
     exists s', (body j s = Ok None s' /\ I (j + 1) s') \/ (exists a, body j s = Ok (Some a) s' /\ Q a s')) ->
  I i s ->
  exists s', (for_loop n i body s = Ok None s' /\ I (i + Z.of_nat n) s') \/
             (exists a, for_loop n i body s = Ok (Some a) s' /\ Q a s').
Proof.
  induction n as [|n IH]; intros i body I Q s Hb Hi.
  - exists s. left. split; [done|]. by replace (i + Z.of_nat 0) with i by lia.
  - destruct (Hb i s ltac:(lia) Hi) as (s1 & [[E H1]|(a & E & HQ)]); cbn [for_loop].
    + rewrite (bind_Ok _ _ _ _ _ E). replace (i + Z.of_nat (Datatypes.S n)) with (i + 1 + Z.of_nat n) by lia.
      apply IH; [|done]. intros j t Hj. apply Hb. lia.
    + exists s1. right. exists a. by rewrite (bind_Ok _ _ _ _ _ E).
Qed.

(** * Invariants of routines

    [maintains I m]: run from a state with [I], the routine [m] leaves a state
    with [I], whether it returns or goes to sleep. *)
Definition leaves {C S A} (P : S -> Prop) (r : res C S A) : Prop :=
  match r with Ok _ s | Block _ s => P s | Panic _ | Diverge => True end.

Definition maintains {C S A} (I : S -> Prop) (m : M C S A) : Prop := forall s, I s -> leaves I (m s).

(** [keeps f m]: the part [f] of the state is not changed by [m]. *)
Definition keeps {C S A B} (f : S -> B) (m : M C S A) : Prop := forall v, maintains (fun s => f s = v) m.

Section Maintains.
Context {C S : Type} (I : S -> Prop).

Lemma maintains_ret {A} (a : A) : maintains (C:=C) I (ret a).
Proof. by intros s H. Qed.
Lemma maintains_gets {A} (f : S -> A) : maintains (C:=C) I (gets f).
Proof. by intros s H. Qed.
Lemma maintains_panic {A} msg : maintains (C:=C) I (panic (A:=A) msg).
Proof. by intros s H. Qed.
Lemma maintains_ub {A} : maintains (C:=C) I (ub (A:=A)).
Proof. by intros s H. Qed.
Lemma maintains_bind {A B} (m : M C S A) (k : A -> M C S B) :
  maintains I m -> (forall a, maintains I (k a)) -> maintains I (bind m k).
Proof.
  intros Hm Hk s Hs. specialize (Hm s Hs). unfold bind. destruct (m s) as [a s'|msg|ch s'|]; cbn in *; try done.
  by apply Hk.
Qed.
Lemma maintains_when b (m : M C S unit) : maintains I m -> maintains I (when b m).
Proof. intros Hm. destruct b; [done|apply maintains_ret]. Qed.
Lemma maintains_modify f : (forall s, I s -> I (f s)) -> maintains (C:=C) I (modify f).
Proof. intros H s Hs. by apply H. Qed.
Lemma maintains_for_loop {A} n i (body : Z -> M C S (option A)) :
  (forall j, maintains I (body j)) -> maintains I (for_loop n i body).
Proof.
  intros Hb. revert i. induction n as [|n IH]; intros i; cbn [for_loop]; [apply maintains_ret|].
  apply maintains_bind; [apply Hb|]. intros [a|]; [apply maintains_ret|apply IH].
Qed.
End Maintains.

(** The routines known to maintain an invariant. *)
Create HintDb maintains.
(** Structural steps of a proof of [maintains]: sequences, branches and loops. *)
Ltac maintain :=
  repeat (intros;
    lazymatch goal with
    | |- maintains _ (ret _) => apply maintains_ret
    | |- maintains _ (gets _) => apply maintains_gets
    | |- maintains _ (panic _) => apply maintains_panic
    | |- maintains _ ub => apply maintains_ub
    | |- maintains _ (bind _ _) => apply maintains_bind
    | |- maintains _ (when _ _) => apply maintains_when
    | |- maintains _ (for_loop _ _ _) => apply maintains_for_loop
    | |- maintains _ (match ?x with _ => _ end) => destruct x
    | |- maintains _ _ => solve [auto 1 with maintains nocore]
    end); intros.

Lemma maintains_Ok {C S A} (I : S -> Prop) (m : M C S A) s a s' : maintains I m -> I s -> m s = Ok a s' -> I s'.
Proof. intros Hm Hs E. specialize (Hm s Hs). by rewrite E in Hm. Qed.

Lemma keeps_Ok {C S A B} (f : S -> B) (m : M C S A) s a s' : keeps f m -> m s = Ok a s' -> f s' = f s.
Proof. intros Hk E. exact (maintains_Ok _ _ s a s' (Hk (f s)) eq_refl E). Qed.

Lemma alter_compose_list {A} (f g : A -> A) i (l : list A) : alter f i (alter g i l) = alter (f ∘ g) i l.
Proof.
  apply list_eq. intros j. destruct (decide (j = i)) as [->|Hne].
  - rewrite !list_lookup_alter_eq. by destruct (l !! i).
  - by rewrite !list_lookup_alter_ne.
Qed.

Lemma filter_ne_notin `{EqDecision A} (x : A) (l : list A) : x ∉ l -> filter (.≠ x) l = l.
Proof.
  induction l as [|y l IH]; [done|]. intros [H1 H2]%not_elem_of_cons.
  rewrite filter_cons_True by done. by rewrite IH.
Qed.

(** An invariant of a step relation holds in every reachable state. *)
Lemma rtc_invariant {A} (R : relation A) (P : A -> Prop) x y :
  (forall a b, R a b -> P a -> P b) -> rtc R x y -> P x -> P y.
Proof. intros H. induction 1; eauto. Qed.

(** * Lemmas on machine integers *)

Lemma u64_small x : 0 <= x < 2 ^ 64 -> u64 x = x.
Proof. apply Z.mod_small. Qed.
Lemma u32_small x : 0 <= x < 2 ^ 32 -> u32 x = x.
Proof. apply Z.mod_small. Qed.
Lemma u8_small x : 0 <= x < 2 ^ 8 -> u8 x = x.
Proof. apply Z.mod_small. Qed.
Lemma u64_bound x : 0 <= u64 x < 2 ^ 64.
Proof. apply Z.mod_pos_bound. lia. Qed.
Lemma u32_bound x : 0 <= u32 x < 2 ^ 32.
Proof. apply Z.mod_pos_bound. lia. Qed.
Lemma i32_small x : - 2 ^ 31 <= x < 2 ^ 31 -> i32 x = x.
Proof. intros. unfold i32. rewrite Z.mod_small; lia. Qed.
Lemma i32_bound x : - 2 ^ 31 <= i32 x < 2 ^ 31.
Proof. unfold i32. pose proof (Z.mod_pos_bound (x + 2 ^ 31) (2 ^ 32)). lia. Qed.
Lemma u32_u32 x : u32 (u32 x) = u32 x.
Proof. apply u32_small, u32_bound. Qed.
Lemma u32_add_l x y : u32 (u32 x + y) = u32 (x + y).
Proof. unfold u32. by rewrite Zplus_mod_idemp_l. Qed.
Lemma u32_add_r x y : u32 (x + u32 y) = u32 (x + y).
Proof. unfold u32. by rewrite Zplus_mod_idemp_r. Qed.
Lemma u32_sub_l x y : u32 (u32 x - y) = u32 (x - y).
Proof. unfold u32. by rewrite Zminus_mod_idemp_l. Qed.
Lemma u32_sub_r x y : u32 (x - u32 y) = u32 (x - y).
Proof. unfold u32. by rewrite Zminus_mod_idemp_r. Qed.

(** * Lemmas on byte arrays *)

Lemma load8_store8 m a v b :
  load8 (store8 m a v) b = if Z.eqb a b then v else load8 m b.
Proof.
  unfold load8, store8. destruct (Z.eqb_spec a b) as [->|Hne].
  - by rewrite lookup_insert_eq.
  - by rewrite lookup_insert_ne.
Qed.

Lemma load8_le_store n m a v b :
  load8 (le_store n m a v) b =
  if (a <=? b) && (b <? a + Z.of_nat n) then (v / 256 ^ (b - a)) mod 256 else load8 m b.
Proof.
  revert m a v. induction n as [|n IH]; intros m a v; cbn [le_store].
  - bool_case; try done; lia.
  - rewrite load8_store8, IH. bool_case; subst; try lia; try done.
    + by rewrite Z.sub_diag, Z.div_1_r.
    + rewrite Z.div_div by lia. do 2 f_equal.
      replace (b - a) with (Z.succ (b - (a + 1))) by lia. rewrite Z.pow_succ_r; lia.
Qed.

Lemma le_load_ext n m m' a :
  (forall i, a <= i < a + Z.of_nat n -> load8 m i = load8 m' i) ->
  le_load n m a = le_load n m' a.
Proof.
  revert a. induction n as [|n IH]; intros a H; cbn [le_load]; [done|].
  rewrite H by lia. rewrite (IH (a + 1)); [done|]. intros i Hi. apply H. lia.
Qed.

Lemma le_load_store_disj n k m a b v :
  b + Z.of_nat k <= a \/ a + Z.of_nat n <= b ->
  le_load n (le_store k m b v) a = le_load n m a.
Proof.
  intros H. apply le_load_ext. intros i Hi. rewrite load8_le_store. bool_case; lia || done.
Qed.

Lemma le_load_store_same n m a v :
  le_load n (le_store n m a v) a = v mod 256 ^ Z.of_nat n.
Proof.
  revert m a v. induction n as [|n IH]; intros m a v; cbn [le_load le_store].
  - by rewrite Z.mod_1_r.
  - rewrite load8_store8, Z.eqb_refl.
    rewrite (le_load_ext _ _ (le_store n m (a + 1) (v / 256))).
    2:{ intros i Hi. rewrite load8_store8. bool_case; lia || done. }
    rewrite IH, Nat2Z.inj_succ, Z.pow_succ_r by lia.
    rewrite Z.rem_mul_r by (apply Z.pow_nonzero || idtac; lia). done.
Qed.

Lemma le_load_bound n m a :
  (forall i, a <= i < a + Z.of_nat n -> 0 <= load8 m i < 256) ->
  0 <= le_load n m a < 256 ^ Z.of_nat n.
Proof.
  revert a. induction n as [|n IH]; intros a H; cbn [le_load]; [lia|].
  rewrite Nat2Z.inj_succ, Z.pow_succ_r by lia.
  pose proof (H a ltac:(lia)). specialize (IH (a + 1) ltac:(intros; apply H; lia)). lia.
Qed.

Lemma bytes_ok_store8 m a v : 0 <= v < 256 -> bytes_ok m -> bytes_ok (store8 m a v).
Proof. intros Hv H b. rewrite load8_store8. by destruct (Z.eqb a b). Qed.

Lemma bytes_ok_le_store n m a v : bytes_ok m -> bytes_ok (le_store n m a v).
Proof.
  intros H b. rewrite load8_le_store. destruct (_ && _); [|apply H].
  apply Z.mod_pos_bound. lia.
Qed.

Lemma length_load_list n m a : length (load_list n m a) = n.
Proof. revert a. induction n; intros; simpl; [done|]. by rewrite IHn. Qed.

Lemma load_list_lookup n m a i :
  (i < n)%nat -> load_list n m a !! i = Some (load8 m (a + Z.of_nat i)).
Proof.
  revert a i. induction n as [|n IH]; intros a i Hi; [lia|].
  destruct i; simpl; [by rewrite Z.add_0_r|].
  rewrite IH by lia. do 2 f_equal. lia.
Qed.

Lemma load_list_ext n m m' a :
  (forall i, a <= i < a + Z.of_nat n -> load8 m i = load8 m' i) ->
  load_list n m a = load_list n m' a.
Proof.
  revert a. induction n as [|n IH]; intros a H; simpl; [done|].
  f_equal; [apply H; lia|]. apply IH. intros. apply H. lia.
Qed.

Lemma load_list_app n k m a :
  load_list (n + k) m a = load_list n m a ++ load_list k m (a + Z.of_nat n).
Proof.
  revert a. induction n as [|n IH]; intros a; simpl; [by rewrite Z.add_0_r|].
  rewrite IH. do 3 f_equal. lia.
Qed.

Lemma load8_store_list l m a b :
  load8 (store_list l m a) b =
  if (a <=? b) && (b <? a + Z.of_nat (length l)) then default 0 (l !! Z.to_nat (b - a))
  else load8 m b.
Proof.
  revert m a. induction l as [|x l IH]; intros m a; simpl.
  - bool_case; lia || done.
  - rewrite IH, load8_store8. bool_case; try lia; try done.
    + subst. by rewrite Z.sub_diag.
    + replace (Z.to_nat (b - a)) with (S (Z.to_nat (b - (a + 1)))) by lia. done.
Qed.

Lemma load_store_list l m a : load_list (length l) (store_list l m a) a = l.
Proof.
  apply list_eq. intros i. destruct (decide (i < length l)%nat) as [Hi|Hi].
  - rewrite load_list_lookup, load8_store_list by done. bool_case; try lia.
    destruct (lookup_lt_is_Some_2 l i Hi) as [x Hx]. rewrite Hx.
    replace (Z.to_nat (a + Z.of_nat i - a)) with i by lia. by rewrite Hx.
  - rewrite !lookup_ge_None_2; rewrite ?length_load_list; lia || done.
Qed.

(** * Lemmas on lists of lists *)

Lemma NoDup_concat_lookup {A} (Q : list (list A)) i Pi :
  NoDup (concat Q) -> Q !! i = Some Pi -> NoDup Pi.
Proof.
  revert i. induction Q as [|P Q IH]; intros i; simpl; [done|].
  rewrite NoDup_app. intros (H1 & _ & H2). destruct i; simpl; [naive_solver|by apply IH].
Qed.

Lemma elem_of_concat {A} (Q : list (list A)) x :
  x ∈ concat Q <-> exists i Pi, Q !! i = Some Pi /\ x ∈ Pi.
Proof.
  induction Q as [|P Q IH]; simpl; [set_solver|].
  rewrite elem_of_app, IH. split.
  - intros [Hx|(i & Pi & Hi & Hx)]; [by exists 0%nat, P|by exists (S i), Pi].
  - intros ([|i] & Pi & Hi & Hx); simpl in Hi; [naive_solver|eauto 10].
Qed.

Lemma NoDup_concat_disjoint {A} (Q : list (list A)) i j Pi Pj x :
  NoDup (concat Q) -> Q !! i = Some Pi -> Q !! j = Some Pj -> i <> j -> x ∈ Pi -> x ∉ Pj.
Proof.
  revert i j. induction Q as [|P Q IH]; intros i j; simpl; [done|].
  rewrite NoDup_app. intros (H1 & Hd & H2) Hi Hj Hne Hx Hx'.
  destruct i as [|i], j as [|j]; simpl in *; simplify_eq.
  - apply (Hd x); [done|]. apply elem_of_concat. eauto.
  - apply (Hd x); [done|]. apply elem_of_concat. eauto.
  - eapply (IH i j); eauto with lia.
Qed.

Lemma concat_insert_perm {A} (Q : list (list A)) i Pi Pi' N :
  Q !! i = Some Pi -> Pi' ≡ₚ N ++ Pi -> concat (<[i := Pi']> Q) ≡ₚ N ++ concat Q.
Proof.
  revert i. induction Q as [|P Q IH]; intros i; simpl; [done|].
  destruct i as [|i]; simpl; intros Hi HP.
  - simplify_eq. by rewrite HP, app_assoc.
  - rewrite (IH i) by done. rewrite !app_assoc. by rewrite (Permutation_app_comm P N).
Qed.
