(* ===== verification/State.v ===== *)
(** The state of the kernel: the constants of [param.h], [memlayout.h],
    [riscv.h] and [fs.h], the structures of the kernel's headers, and the
    record of all the kernel's global variables, on which every routine of the
    following files runs. *)
From S2P Require Import Prelude.

(** * Constants (kernel/param.h, kernel/fs.h, kernel/riscv.h, kernel/memlayout.h) *)

Definition NPROC : Z := 64.
Definition NOFILE : Z := 16.
Definition NFILE : Z := 100.
Definition NINODE : Z := 50.
Definition NDEV : Z := 10.
Definition ROOTDEV : Z := 1.
Definition MAXARG : Z := 32.
Definition MAXOPBLOCKS : Z := 10.
Definition LOGSIZE : Z := MAXOPBLOCKS * 3.
Definition NBUF : Z := MAXOPBLOCKS * 3.
Definition FSSIZE : Z := 2000.
Definition MAXPATH : Z := 128.
Definition USERSTACK : Z := 2.

Definition ROOTINO : Z := 1.
Definition BSIZE : Z := 1024.
Definition FSMAGIC : Z := 0x10203040.
Definition NDIRECT : Z := 12.
Definition NINDIRECT : Z := BSIZE / 4.
Definition MAXFILE : Z := NDIRECT + NINDIRECT.
Definition IPB : Z := BSIZE / 64.
Definition BPB : Z := BSIZE * 8.
Definition DIRSIZ : Z := 14.

Definition PGSIZE : Z := 4096.
Definition PGSHIFT : Z := 12.
Definition PTE_V : Z := 1.
Definition PTE_R : Z := 2.
Definition PTE_W : Z := 4.
Definition PTE_X : Z := 8.
Definition PTE_U : Z := 16.
Definition MAXVA : Z := Z.shiftl 1 (9 + 9 + 9 + 12 - 1).

Definition UART0 : Z := 0x10000000.
Definition VIRTIO0 : Z := 0x10001000.
Definition PLIC : Z := 0x0c000000.
Definition KERNBASE : Z := 0x80000000.
Definition PHYSTOP : Z := KERNBASE + 128 * 1024 * 1024.
Definition TRAMPOLINE : Z := MAXVA - PGSIZE.
Definition KSTACK (p : Z) : Z := TRAMPOLINE - (p + 1) * 2 * PGSIZE.
Definition TRAPFRAME : Z := TRAMPOLINE - PGSIZE.

(** [~(PGSIZE-1)] is a 32-bit int that the macros sign-extend to 64 bits. *)
Definition PGMASK : Z := 2 ^ 64 - PGSIZE.
Definition PGROUNDUP (sz : Z) : Z := Z.land (u64 (sz + PGSIZE - 1)) PGMASK.
Definition PGROUNDDOWN (a : Z) : Z := Z.land a PGMASK.

(** Addresses the linker assigns (kernel.ld); the kernel relies on [end] being
    inside RAM and on the trampoline being a page of its own. *)
Class Linker : Type := {
  kend : Z;
  etext : Z;
  trampoline : Z;
  kend_range : KERNBASE <= kend <= PHYSTOP;
  etext_range : KERNBASE < etext < kend;
  etext_aligned : etext mod PGSIZE = 0;
  trampoline_range : KERNBASE <= trampoline < etext;
  trampoline_aligned : trampoline mod PGSIZE = 0
}.

(** * Names of shared objects

    C uses the address of an object as the name of a sleep channel or of a
    lock; here each object has a constructor. *)

Inductive chan : Type :=
| ChProc (i : nat)          (* a struct proc, in wait() *)
| ChLog                     (* &log *)
| ChBuf (i : nat)           (* the sleep-lock of a buffer *)
| ChDiskBuf (i : nat)       (* a buffer the disk owns *)
| ChInode (i : nat)         (* the sleep-lock of an inode *)
| ChPipeRead (pi : Z)       (* &pi->nread *)
| ChPipeWrite (pi : Z)      (* &pi->nwrite *)
| ChTicks                   (* &ticks *)
| ChCons                    (* &cons.r *)
| ChUart                    (* &uart_tx_r *)
| ChDesc                    (* &disk.free[0] *)
| ChRun.                    (* no channel: the process stays RUNNABLE *)

Inductive lockid : Type :=
| LkKmem | LkPid | LkWait | LkProc (i : nat) | LkBcache | LkLog | LkItable
| LkFtable | LkPipe (pi : Z) | LkTicks | LkCons | LkUart | LkPr | LkDisk
| LkSleepBuf (i : nat) | LkSleepInode (i : nat).

#[export] Instance chan_eq_dec : EqDecision chan.
Proof. solve_decision. Defined.
#[export] Instance lockid_eq_dec : EqDecision lockid.
Proof. solve_decision. Defined.

(** * Structures of the kernel headers *)

(** enum procstate (kernel/proc.h) *)
Inductive procstate : Type := UNUSED | USED | SLEEPING | RUNNABLE | RUNNING | ZOMBIE.
#[export] Instance procstate_eq_dec : EqDecision procstate.
Proof. solve_decision. Defined.

(** the type field of struct file (kernel/file.h) *)
Inductive ftype : Type := FD_NONE | FD_PIPE | FD_INODE | FD_DEVICE.
#[export] Instance ftype_eq_dec : EqDecision ftype.
Proof. solve_decision. Defined.

(** struct sleeplock (kernel/sleeplock.h); its spin-lock is a [lockid] *)
Record sleeplock : Type := mk_sleeplock {
  slk_locked : bool ;
  slk_pid : Z
}.

(** struct context (kernel/proc.h): [c_s] holds s0 to s11 *)
Record context : Type := mk_context {
  c_ra : Z ;
  c_sp : Z ;
  c_s : list Z
}.

(** struct proc (kernel/proc.h); pointers into the tables are indices *)
Record proc : Type := mk_proc {
  p_state : procstate ;
  p_chan : option chan ;
  p_killed : Z ;
  p_xstate : Z ;
  p_pid : Z ;
  p_parent : option nat ;
  p_kstack : Z ;
  p_sz : Z ;
  p_pagetable : Z ;
  p_trapframe : Z ;
  p_context : context ;
  p_ofile : list (option nat) ;
  p_cwd : option nat ;
  p_name : bytes
}.

(** struct file (kernel/file.h) *)
Record file : Type := mk_file {
  f_type : ftype ;
  f_ref : Z ;
  f_readable : bool ;
  f_writable : bool ;
  f_pipe : Z ;
  f_ip : nat ;
  f_off : Z ;
  f_major : Z
}.

(** struct inode (kernel/file.h) *)
Record inode : Type := mk_inode {
  i_dev : Z ;
  i_inum : Z ;
  i_ref : Z ;
  i_lock : sleeplock ;
  i_valid : bool ;
  i_type : Z ;
  i_major : Z ;
  i_minor : Z ;
  i_nlink : Z ;
  i_size : Z ;
  i_addrs : list Z
}.

(** struct pipe (kernel/pipe.c), living in the page of its address *)
Record pipe : Type := mk_pipe {
  pi_data : bytes ;
  pi_nread : Z ;
  pi_nwrite : Z ;
  pi_readopen : bool ;
  pi_writeopen : bool
}.

(** struct buf (kernel/buf.h); [b_prev] and [b_next] are indices into the buffer array *)
Record buf : Type := mk_buf {
  b_valid : bool ;
  b_disk : bool ;
  b_dev : Z ;
  b_blockno : Z ;
  b_lock : sleeplock ;
  b_refcnt : Z ;
  b_prev : nat ;
  b_next : nat ;
  b_data : bytes
}.

(** struct superblock (kernel/fs.h) *)
Record superblock : Type := mk_superblock {
  sb_magic : Z ;
  sb_size : Z ;
  sb_nblocks : Z ;
  sb_ninodes : Z ;
  sb_nlog : Z ;
  sb_logstart : Z ;
  sb_inodestart : Z ;
  sb_bmapstart : Z
}.

(** struct log with its struct logheader (kernel/log.c) *)
Record log : Type := mk_log {
  l_start : Z ;
  l_size : Z ;
  l_outstanding : Z ;
  l_committing : bool ;
  l_dev : Z ;
  lh_n : Z ;
  lh_block : list Z
}.

(** the anonymous struct cons (kernel/console.c) *)
Record consbuf : Type := mk_consbuf {
  cons_buf : bytes ;
  cons_r : Z ;
  cons_w : Z ;
  cons_e : Z
}.

(** the disk: its blocks, and the writes made so far in order *)
Record disk : Type := mk_disk {
  d_blocks : gmap Z bytes ;
  d_writes : list (Z * bytes)
}.

(** The transmit buffer [uart_tx_buf] with its indices (kernel/uart.c), and the
    device: how many characters THR takes before LSR_TX_IDLE clears, and the
    received characters that RHR will deliver *)
Record uartdev : Type := mk_uartdev {
  ut_buf : bytes ;
  ut_w : Z ;
  ut_r : Z ;
  ut_room : nat ;
  ut_rx : list Z
}.

(** The kernel: physical memory and the allocator's list head, the spin-locks
    the running hart holds, the current process, the process, file, pipe,
    inode and buffer tables, the log, the disk, the console buffer, the clock,
    the characters sent to the UART, the UART, and the flags [first] of forkret
    and [pr.locking] of printf.  [k_bufs] has NBUF buffers followed by the list
    head [bcache.head]. *)
Record kstate : Type := mk_kstate {
  k_mem : bytes ;
  k_freelist : Z ;
  k_held : list lockid ;
  k_cur : option nat ;
  k_procs : list proc ;
  k_nextpid : Z ;
  k_initproc : option nat ;
  k_ftable : list file ;
  k_pipes : gmap Z pipe ;
  k_disk : disk ;
  k_bufs : list buf ;
  k_log : log ;
  k_sb : superblock ;
  k_itable : list inode ;
  k_cons : consbuf ;
  k_ticks : Z ;
  k_out : list Z ;
  k_uart : uartdev ;
  k_first : bool ;
  k_locking : bool
}.

(** * Field updates *)

Definition set_slk_locked (v : bool) (x : sleeplock) : sleeplock :=
  mk_sleeplock v (slk_pid x).
Definition set_slk_pid (v : Z) (x : sleeplock) : sleeplock :=
  mk_sleeplock (slk_locked x) v.

Definition set_p_state (v : procstate) (x : proc) : proc :=
  mk_proc v (p_chan x) (p_killed x) (p_xstate x) (p_pid x) (p_parent x) (p_kstack x) (p_sz x) (p_pagetable x) (p_trapframe x) (p_context x) (p_ofile x) (p_cwd x) (p_name x).
Definition set_p_chan (v : option chan) (x : proc) : proc :=
  mk_proc (p_state x) v (p_killed x) (p_xstate x) (p_pid x) (p_parent x) (p_kstack x) (p_sz x) (p_pagetable x) (p_trapframe x) (p_context x) (p_ofile x) (p_cwd x) (p_name x).
Definition set_p_killed (v : Z) (x : proc) : proc :=
  mk_proc (p_state x) (p_chan x) v (p_xstate x) (p_pid x) (p_parent x) (p_kstack x) (p_sz x) (p_pagetable x) (p_trapframe x) (p_context x) (p_ofile x) (p_cwd x) (p_name x).
Definition set_p_xstate (v : Z) (x : proc) : proc :=
  mk_proc (p_state x) (p_chan x) (p_killed x) v (p_pid x) (p_parent x) (p_kstack x) (p_sz x) (p_pagetable x) (p_trapframe x) (p_context x) (p_ofile x) (p_cwd x) (p_name x).
Definition set_p_pid (v : Z) (x : proc) : proc :=
  mk_proc (p_state x) (p_chan x) (p_killed x) (p_xstate x) v (p_parent x) (p_kstack x) (p_sz x) (p_pagetable x) (p_trapframe x) (p_context x) (p_ofile x) (p_cwd x) (p_name x).
Definition set_p_parent (v : option nat) (x : proc) : proc :=
  mk_proc (p_state x) (p_chan x) (p_killed x) (p_xstate x) (p_pid x) v (p_kstack x) (p_sz x) (p_pagetable x) (p_trapframe x) (p_context x) (p_ofile x) (p_cwd x) (p_name x).
Definition set_p_kstack (v : Z) (x : proc) : proc :=
  mk_proc (p_state x) (p_chan x) (p_killed x) (p_xstate x) (p_pid x) (p_parent x) v (p_sz x) (p_pagetable x) (p_trapframe x) (p_context x) (p_ofile x) (p_cwd x) (p_name x).
Definition set_p_sz (v : Z) (x : proc) : proc :=
  mk_proc (p_state x) (p_chan x) (p_killed x) (p_xstate x) (p_pid x) (p_parent x) (p_kstack x) v (p_pagetable x) (p_trapframe x) (p_context x) (p_ofile x) (p_cwd x) (p_name x).
Definition set_p_pagetable (v : Z) (x : proc) : proc :=
  mk_proc (p_state x) (p_chan x) (p_killed x) (p_xstate x) (p_pid x) (p_parent x) (p_kstack x) (p_sz x) v (p_trapframe x) (p_context x) (p_ofile x) (p_cwd x) (p_name x).
Definition set_p_trapframe (v : Z) (x : proc) : proc :=
  mk_proc (p_state x) (p_chan x) (p_killed x) (p_xstate x) (p_pid x) (p_parent x) (p_kstack x) (p_sz x) (p_pagetable x) v (p_context x) (p_ofile x) (p_cwd x) (p_name x).
Definition set_p_context (v : context) (x : proc) : proc :=
  mk_proc (p_state x) (p_chan x) (p_killed x) (p_xstate x) (p_pid x) (p_parent x) (p_kstack x) (p_sz x) (p_pagetable x) (p_trapframe x) v (p_ofile x) (p_cwd x) (p_name x).
Definition set_p_ofile (v : list (option nat)) (x : proc) : proc :=
  mk_proc (p_state x) (p_chan x) (p_killed x) (p_xstate x) (p_pid x) (p_parent x) (p_kstack x) (p_sz x) (p_pagetable x) (p_trapframe x) (p_context x) v (p_cwd x) (p_name x).
Definition set_p_cwd (v : option nat) (x : proc) : proc :=
  mk_proc (p_state x) (p_chan x) (p_killed x) (p_xstate x) (p_pid x) (p_parent x) (p_kstack x) (p_sz x) (p_pagetable x) (p_trapframe x) (p_context x) (p_ofile x) v (p_name x).
Definition set_p_name (v : bytes) (x : proc) : proc :=
  mk_proc (p_state x) (p_chan x) (p_killed x) (p_xstate x) (p_pid x) (p_parent x) (p_kstack x) (p_sz x) (p_pagetable x) (p_trapframe x) (p_context x) (p_ofile x) (p_cwd x) v.

Definition set_f_type (v : ftype) (x : file) : file :=
  mk_file v (f_ref x) (f_readable x) (f_writable x) (f_pipe x) (f_ip x) (f_off x) (f_major x).
Definition set_f_ref (v : Z) (x : file) : file :=
  mk_file (f_type x) v (f_readable x) (f_writable x) (f_pipe x) (f_ip x) (f_off x) (f_major x).
Definition set_f_readable (v : bool) (x : file) : file :=
  mk_file (f_type x) (f_ref x) v (f_writable x) (f_pipe x) (f_ip x) (f_off x) (f_major x).
Definition set_f_writable (v : bool) (x : file) : file :=
  mk_file (f_type x) (f_ref x) (f_readable x) v (f_pipe x) (f_ip x) (f_off x) (f_major x).
Definition set_f_pipe (v : Z) (x : file) : file :=
  mk_file (f_type x) (f_ref x) (f_readable x) (f_writable x) v (f_ip x) (f_off x) (f_major x).
Definition set_f_ip (v : nat) (x : file) : file :=
  mk_file (f_type x) (f_ref x) (f_readable x) (f_writable x) (f_pipe x) v (f_off x) (f_major x).
Definition set_f_off (v : Z) (x : file) : file :=
  mk_file (f_type x) (f_ref x) (f_readable x) (f_writable x) (f_pipe x) (f_ip x) v (f_major x).
Definition set_f_major (v : Z) (x : file) : file :=
  mk_file (f_type x) (f_ref x) (f_readable x) (f_writable x) (f_pipe x) (f_ip x) (f_off x) v.

Definition set_i_dev (v : Z) (x : inode) : inode :=
  mk_inode v (i_inum x) (i_ref x) (i_lock x) (i_valid x) (i_type x) (i_major x) (i_minor x) (i_nlink x) (i_size x) (i_addrs x).
Definition set_i_inum (v : Z) (x : inode) : inode :=
  mk_inode (i_dev x) v (i_ref x) (i_lock x) (i_valid x) (i_type x) (i_major x) (i_minor x) (i_nlink x) (i_size x) (i_addrs x).
Definition set_i_ref (v : Z) (x : inode) : inode :=
  mk_inode (i_dev x) (i_inum x) v (i_lock x) (i_valid x) (i_type x) (i_major x) (i_minor x) (i_nlink x) (i_size x) (i_addrs x).
Definition set_i_lock (v : sleeplock) (x : inode) : inode :=
  mk_inode (i_dev x) (i_inum x) (i_ref x) v (i_valid x) (i_type x) (i_major x) (i_minor x) (i_nlink x) (i_size x) (i_addrs x).
Definition set_i_valid (v : bool) (x : inode) : inode :=
  mk_inode (i_dev x) (i_inum x) (i_ref x) (i_lock x) v (i_type x) (i_major x) (i_minor x) (i_nlink x) (i_size x) (i_addrs x).
Definition set_i_type (v : Z) (x : inode) : inode :=
  mk_inode (i_dev x) (i_inum x) (i_ref x) (i_lock x) (i_valid x) v (i_major x) (i_minor x) (i_nlink x) (i_size x) (i_addrs x).
Definition set_i_major (v : Z) (x : inode) : inode :=
  mk_inode (i_dev x) (i_inum x) (i_ref x) (i_lock x) (i_valid x) (i_type x) v (i_minor x) (i_nlink x) (i_size x) (i_addrs x).
Definition set_i_minor (v : Z) (x : inode) : inode :=
  mk_inode (i_dev x) (i_inum x) (i_ref x) (i_lock x) (i_valid x) (i_type x) (i_major x) v (i_nlink x) (i_size x) (i_addrs x).
Definition set_i_nlink (v : Z) (x : inode) : inode :=
  mk_inode (i_dev x) (i_inum x) (i_ref x) (i_lock x) (i_valid x) (i_type x) (i_major x) (i_minor x) v (i_size x) (i_addrs x).
Definition set_i_size (v : Z) (x : inode) : inode :=
  mk_inode (i_dev x) (i_inum x) (i_ref x) (i_lock x) (i_valid x) (i_type x) (i_major x) (i_minor x) (i_nlink x) v (i_addrs x).
Definition set_i_addrs (v : list Z) (x : inode) : inode :=
  mk_inode (i_dev x) (i_inum x) (i_ref x) (i_lock x) (i_valid x) (i_type x) (i_major x) (i_minor x) (i_nlink x) (i_size x) v.

Definition set_pi_data (v : bytes) (x : pipe) : pipe :=
  mk_pipe v (pi_nread x) (pi_nwrite x) (pi_readopen x) (pi_writeopen x).
Definition set_pi_nread (v : Z) (x : pipe) : pipe :=
  mk_pipe (pi_data x) v (pi_nwrite x) (pi_readopen x) (pi_writeopen x).
Definition set_pi_nwrite (v : Z) (x : pipe) : pipe :=
  mk_pipe (pi_data x) (pi_nread x) v (pi_readopen x) (pi_writeopen x).
Definition set_pi_readopen (v : bool) (x : pipe) : pipe :=
  mk_pipe (pi_data x) (pi_nread x) (pi_nwrite x) v (pi_writeopen x).
Definition set_pi_writeopen (v : bool) (x : pipe) : pipe :=
  mk_pipe (pi_data x) (pi_nread x) (pi_nwrite x) (pi_readopen x) v.

Definition set_b_valid (v : bool) (x : buf) : buf :=
  mk_buf v (b_disk x) (b_dev x) (b_blockno x) (b_lock x) (b_refcnt x) (b_prev x) (b_next x) (b_data x).
Definition set_b_disk (v : bool) (x : buf) : buf :=
  mk_buf (b_valid x) v (b_dev x) (b_blockno x) (b_lock x) (b_refcnt x) (b_prev x) (b_next x) (b_data x).
Definition set_b_dev (v : Z) (x : buf) : buf :=
  mk_buf (b_valid x) (b_disk x) v (b_blockno x) (b_lock x) (b_refcnt x) (b_prev x) (b_next x) (b_data x).
Definition set_b_blockno (v : Z) (x : buf) : buf :=
  mk_buf (b_valid x) (b_disk x) (b_dev x) v (b_lock x) (b_refcnt x) (b_prev x) (b_next x) (b_data x).
Definition set_b_lock (v : sleeplock) (x : buf) : buf :=
  mk_buf (b_valid x) (b_disk x) (b_dev x) (b_blockno x) v (b_refcnt x) (b_prev x) (b_next x) (b_data x).
Definition set_b_refcnt (v : Z) (x : buf) : buf :=
  mk_buf (b_valid x) (b_disk x) (b_dev x) (b_blockno x) (b_lock x) v (b_prev x) (b_next x) (b_data x).
Definition set_b_prev (v : nat) (x : buf) : buf :=
  mk_buf (b_valid x) (b_disk x) (b_dev x) (b_blockno x) (b_lock x) (b_refcnt x) v (b_next x) (b_data x).
Definition set_b_next (v : nat) (x : buf) : buf :=
  mk_buf (b_valid x) (b_disk x) (b_dev x) (b_blockno x) (b_lock x) (b_refcnt x) (b_prev x) v (b_data x).
Definition set_b_data (v : bytes) (x : buf) : buf :=
  mk_buf (b_valid x) (b_disk x) (b_dev x) (b_blockno x) (b_lock x) (b_refcnt x) (b_prev x) (b_next x) v.

Definition set_l_start (v : Z) (x : log) : log :=
  mk_log v (l_size x) (l_outstanding x) (l_committing x) (l_dev x) (lh_n x) (lh_block x).
Definition set_l_size (v : Z) (x : log) : log :=
  mk_log (l_start x) v (l_outstanding x) (l_committing x) (l_dev x) (lh_n x) (lh_block x).
Definition set_l_outstanding (v : Z) (x : log) : log :=
  mk_log (l_start x) (l_size x) v (l_committing x) (l_dev x) (lh_n x) (lh_block x).
Definition set_l_committing (v : bool) (x : log) : log :=
  mk_log (l_start x) (l_size x) (l_outstanding x) v (l_dev x) (lh_n x) (lh_block x).
Definition set_l_dev (v : Z) (x : log) : log :=
  mk_log (l_start x) (l_size x) (l_outstanding x) (l_committing x) v (lh_n x) (lh_block x).
Definition set_lh_n (v : Z) (x : log) : log :=
  mk_log (l_start x) (l_size x) (l_outstanding x) (l_committing x) (l_dev x) v (lh_block x).
Definition set_lh_block (v : list Z) (x : log) : log :=
  mk_log (l_start x) (l_size x) (l_outstanding x) (l_committing x) (l_dev x) (lh_n x) v.

Definition set_cons_buf (v : bytes) (x : consbuf) : consbuf :=
  mk_consbuf v (cons_r x) (cons_w x) (cons_e x).
Definition set_cons_r (v : Z) (x : consbuf) : consbuf :=
  mk_consbuf (cons_buf x) v (cons_w x) (cons_e x).
Definition set_cons_w (v : Z) (x : consbuf) : consbuf :=
  mk_consbuf (cons_buf x) (cons_r x) v (cons_e x).
Definition set_cons_e (v : Z) (x : consbuf) : consbuf :=
  mk_consbuf (cons_buf x) (cons_r x) (cons_w x) v.

Definition set_d_blocks (v : gmap Z bytes) (x : disk) : disk :=
  mk_disk v (d_writes x).
Definition set_d_writes (v : list (Z * bytes)) (x : disk) : disk :=
  mk_disk (d_blocks x) v.

Definition set_ut_buf (v : bytes) (x : uartdev) : uartdev :=
  mk_uartdev v (ut_w x) (ut_r x) (ut_room x) (ut_rx x).
Definition set_ut_w (v : Z) (x : uartdev) : uartdev :=
  mk_uartdev (ut_buf x) v (ut_r x) (ut_room x) (ut_rx x).
Definition set_ut_r (v : Z) (x : uartdev) : uartdev :=
  mk_uartdev (ut_buf x) (ut_w x) v (ut_room x) (ut_rx x).
Definition set_ut_room (v : nat) (x : uartdev) : uartdev :=
  mk_uartdev (ut_buf x) (ut_w x) (ut_r x) v (ut_rx x).
Definition set_ut_rx (v : list Z) (x : uartdev) : uartdev :=
  mk_uartdev (ut_buf x) (ut_w x) (ut_r x) (ut_room x) v.

Definition set_k_mem (v : bytes) (x : kstate) : kstate :=
  mk_kstate v (k_freelist x) (k_held x) (k_cur x) (k_procs x) (k_nextpid x) (k_initproc x) (k_ftable x) (k_pipes x) (k_disk x) (k_bufs x) (k_log x) (k_sb x) (k_itable x) (k_cons x) (k_ticks x) (k_out x) (k_uart x) (k_first x) (k_locking x).
Definition set_k_freelist (v : Z) (x : kstate) : kstate :=
  mk_kstate (k_mem x) v (k_held x) (k_cur x) (k_procs x) (k_nextpid x) (k_initproc x) (k_ftable x) (k_pipes x) (k_disk x) (k_bufs x) (k_log x) (k_sb x) (k_itable x) (k_cons x) (k_ticks x) (k_out x) (k_uart x) (k_first x) (k_locking x).
Definition set_k_held (v : list lockid) (x : kstate) : kstate :=
  mk_kstate (k_mem x) (k_freelist x) v (k_cur x) (k_procs x) (k_nextpid x) (k_initproc x) (k_ftable x) (k_pipes x) (k_disk x) (k_bufs x) (k_log x) (k_sb x) (k_itable x) (k_cons x) (k_ticks x) (k_out x) (k_uart x) (k_first x) (k_locking x).
Definition set_k_cur (v : option nat) (x : kstate) : kstate :=
  mk_kstate (k_mem x) (k_freelist x) (k_held x) v (k_procs x) (k_nextpid x) (k_initproc x) (k_ftable x) (k_pipes x) (k_disk x) (k_bufs x) (k_log x) (k_sb x) (k_itable x) (k_cons x) (k_ticks x) (k_out x) (k_uart x) (k_first x) (k_locking x).
Definition set_k_procs (v : list proc) (x : kstate) : kstate :=
  mk_kstate (k_mem x) (k_freelist x) (k_held x) (k_cur x) v (k_nextpid x) (k_initproc x) (k_ftable x) (k_pipes x) (k_disk x) (k_bufs x) (k_log x) (k_sb x) (k_itable x) (k_cons x) (k_ticks x) (k_out x) (k_uart x) (k_first x) (k_locking x).
Definition set_k_nextpid (v : Z) (x : kstate) : kstate :=
  mk_kstate (k_mem x) (k_freelist x) (k_held x) (k_cur x) (k_procs x) v (k_initproc x) (k_ftable x) (k_pipes x) (k_disk x) (k_bufs x) (k_log x) (k_sb x) (k_itable x) (k_cons x) (k_ticks x) (k_out x) (k_uart x) (k_first x) (k_locking x).
Definition set_k_initproc (v : option nat) (x : kstate) : kstate :=
  mk_kstate (k_mem x) (k_freelist x) (k_held x) (k_cur x) (k_procs x) (k_nextpid x) v (k_ftable x) (k_pipes x) (k_disk x) (k_bufs x) (k_log x) (k_sb x) (k_itable x) (k_cons x) (k_ticks x) (k_out x) (k_uart x) (k_first x) (k_locking x).
Definition set_k_ftable (v : list file) (x : kstate) : kstate :=
  mk_kstate (k_mem x) (k_freelist x) (k_held x) (k_cur x) (k_procs x) (k_nextpid x) (k_initproc x) v (k_pipes x) (k_disk x) (k_bufs x) (k_log x) (k_sb x) (k_itable x) (k_cons x) (k_ticks x) (k_out x) (k_uart x) (k_first x) (k_locking x).
Definition set_k_pipes (v : gmap Z pipe) (x : kstate) : kstate :=
  mk_kstate (k_mem x) (k_freelist x) (k_held x) (k_cur x) (k_procs x) (k_nextpid x) (k_initproc x) (k_ftable x) v (k_disk x) (k_bufs x) (k_log x) (k_sb x) (k_itable x) (k_cons x) (k_ticks x) (k_out x) (k_uart x) (k_first x) (k_locking x).
Definition set_k_disk (v : disk) (x : kstate) : kstate :=
  mk_kstate (k_mem x) (k_freelist x) (k_held x) (k_cur x) (k_procs x) (k_nextpid x) (k_initproc x) (k_ftable x) (k_pipes x) v (k_bufs x) (k_log x) (k_sb x) (k_itable x) (k_cons x) (k_ticks x) (k_out x) (k_uart x) (k_first x) (k_locking x).
Definition set_k_bufs (v : list buf) (x : kstate) : kstate :=
  mk_kstate (k_mem x) (k_freelist x) (k_held x) (k_cur x) (k_procs x) (k_nextpid x) (k_initproc x) (k_ftable x) (k_pipes x) (k_disk x) v (k_log x) (k_sb x) (k_itable x) (k_cons x) (k_ticks x) (k_out x) (k_uart x) (k_first x) (k_locking x).
Definition set_k_log (v : log) (x : kstate) : kstate :=
  mk_kstate (k_mem x) (k_freelist x) (k_held x) (k_cur x) (k_procs x) (k_nextpid x) (k_initproc x) (k_ftable x) (k_pipes x) (k_disk x) (k_bufs x) v (k_sb x) (k_itable x) (k_cons x) (k_ticks x) (k_out x) (k_uart x) (k_first x) (k_locking x).
Definition set_k_sb (v : superblock) (x : kstate) : kstate :=
  mk_kstate (k_mem x) (k_freelist x) (k_held x) (k_cur x) (k_procs x) (k_nextpid x) (k_initproc x) (k_ftable x) (k_pipes x) (k_disk x) (k_bufs x) (k_log x) v (k_itable x) (k_cons x) (k_ticks x) (k_out x) (k_uart x) (k_first x) (k_locking x).
Definition set_k_itable (v : list inode) (x : kstate) : kstate :=
  mk_kstate (k_mem x) (k_freelist x) (k_held x) (k_cur x) (k_procs x) (k_nextpid x) (k_initproc x) (k_ftable x) (k_pipes x) (k_disk x) (k_bufs x) (k_log x) (k_sb x) v (k_cons x) (k_ticks x) (k_out x) (k_uart x) (k_first x) (k_locking x).
Definition set_k_cons (v : consbuf) (x : kstate) : kstate :=
  mk_kstate (k_mem x) (k_freelist x) (k_held x) (k_cur x) (k_procs x) (k_nextpid x) (k_initproc x) (k_ftable x) (k_pipes x) (k_disk x) (k_bufs x) (k_log x) (k_sb x) (k_itable x) v (k_ticks x) (k_out x) (k_uart x) (k_first x) (k_locking x).
Definition set_k_ticks (v : Z) (x : kstate) : kstate :=
  mk_kstate (k_mem x) (k_freelist x) (k_held x) (k_cur x) (k_procs x) (k_nextpid x) (k_initproc x) (k_ftable x) (k_pipes x) (k_disk x) (k_bufs x) (k_log x) (k_sb x) (k_itable x) (k_cons x) v (k_out x) (k_uart x) (k_first x) (k_locking x).
Definition set_k_out (v : list Z) (x : kstate) : kstate :=
  mk_kstate (k_mem x) (k_freelist x) (k_held x) (k_cur x) (k_procs x) (k_nextpid x) (k_initproc x) (k_ftable x) (k_pipes x) (k_disk x) (k_bufs x) (k_log x) (k_sb x) (k_itable x) (k_cons x) (k_ticks x) v (k_uart x) (k_first x) (k_locking x).
Definition set_k_uart (v : uartdev) (x : kstate) : kstate :=
  mk_kstate (k_mem x) (k_freelist x) (k_held x) (k_cur x) (k_procs x) (k_nextpid x) (k_initproc x) (k_ftable x) (k_pipes x) (k_disk x) (k_bufs x) (k_log x) (k_sb x) (k_itable x) (k_cons x) (k_ticks x) (k_out x) v (k_first x) (k_locking x).
Definition set_k_first (v : bool) (x : kstate) : kstate :=
  mk_kstate (k_mem x) (k_freelist x) (k_held x) (k_cur x) (k_procs x) (k_nextpid x) (k_initproc x) (k_ftable x) (k_pipes x) (k_disk x) (k_bufs x) (k_log x) (k_sb x) (k_itable x) (k_cons x) (k_ticks x) (k_out x) (k_uart x) v (k_locking x).
Definition set_k_locking (v : bool) (x : kstate) : kstate :=
  mk_kstate (k_mem x) (k_freelist x) (k_held x) (k_cur x) (k_procs x) (k_nextpid x) (k_initproc x) (k_ftable x) (k_pipes x) (k_disk x) (k_bufs x) (k_log x) (k_sb x) (k_itable x) (k_cons x) (k_ticks x) (k_out x) (k_uart x) (k_first x) v.

(** A kernel routine. *)
Abbreviation K := (M chan kstate).

(** * The kernel at boot: every global variable is zero (.bss),
    but [nextpid] and [first], which start at 1 *)

Definition sleeplock0 : sleeplock := mk_sleeplock false 0.
Definition context0 : context := mk_context 0 0 (replicate 12 0).
Definition proc0 : proc :=
  mk_proc UNUSED None 0 0 0 None 0 0 0 0 context0 (replicate (Z.to_nat NOFILE) None) None ∅.
Definition file0 : file := mk_file FD_NONE 0 false false 0 0 0 0.
Definition inode0 : inode :=
  mk_inode 0 0 0 sleeplock0 false 0 0 0 0 0 (replicate (Z.to_nat (NDIRECT + 1)) 0).
Definition buf0 : buf := mk_buf false false 0 0 sleeplock0 0 0 0 ∅.
Definition log0 : log := mk_log 0 0 0 false 0 0 (replicate (Z.to_nat LOGSIZE) 0).
Definition kstate0 : kstate :=
  mk_kstate ∅ 0 [] None (replicate (Z.to_nat NPROC) proc0) 1 None
    (replicate (Z.to_nat NFILE) file0) ∅ (mk_disk ∅ []) (replicate (Z.to_nat (NBUF + 1)) buf0)
    log0 (mk_superblock 0 0 0 0 0 0 0 0) (replicate (Z.to_nat NINODE) inode0)
    (mk_consbuf ∅ 0 0 0) 0 [] (mk_uartdev ∅ 0 0 0 []) true false.

(** * Page rounding *)

Lemma PGROUNDDOWN_eq a : 0 <= a < 2 ^ 64 -> PGROUNDDOWN a = a / PGSIZE * PGSIZE.
Proof.
  intros Ha. unfold PGROUNDDOWN. change PGMASK with (Z.shiftl (Z.ones 52) 12).
  change PGSIZE with (2 ^ 12). rewrite <- Z.shiftr_div_pow2, <- Z.shiftl_mul_pow2 by lia.
  apply Z.bits_inj'. intros n Hn. rewrite Z.land_spec, !Z.shiftl_spec by lia.
  destruct (Z.ltb_spec n 12).
  - rewrite !(Z.testbit_neg_r _ (n - 12)) by lia. apply andb_false_r.
  - rewrite Z.shiftr_spec by lia. replace (n - 12 + 12) with n by lia.
    destruct (Z.ltb_spec n 64).
    + rewrite Z.ones_spec_low by lia. apply andb_true_r.
    + rewrite Z.ones_spec_high by lia. rewrite andb_false_r. symmetry.
      rewrite Z.testbit_odd, Z.shiftr_div_pow2, Z.div_small by
        (first [lia | split; [lia|]; apply Z.lt_le_trans with (2 ^ 64); [lia|apply Z.pow_le_mono_r; lia]]).
      done.
Qed.

Lemma PGROUNDUP_eq a :
  0 <= a -> a + PGSIZE - 1 < 2 ^ 64 -> PGROUNDUP a = (a + PGSIZE - 1) / PGSIZE * PGSIZE.
Proof.
  intros. unfold PGROUNDUP. rewrite u64_small by (unfold PGSIZE in *; lia).
  apply PGROUNDDOWN_eq. unfold PGSIZE in *. lia.
Qed.

Lemma PGROUNDUP_spec a :
  0 <= a -> a + PGSIZE - 1 < 2 ^ 64 ->
  a <= PGROUNDUP a < a + PGSIZE /\ PGROUNDUP a mod PGSIZE = 0.
Proof. intros. rewrite PGROUNDUP_eq by done. unfold PGSIZE in *. div_lia. Qed.

Lemma PGROUNDDOWN_spec a :
  0 <= a < 2 ^ 64 ->
  PGROUNDDOWN a <= a < PGROUNDDOWN a + PGSIZE /\ PGROUNDDOWN a mod PGSIZE = 0 /\ 0 <= PGROUNDDOWN a.
Proof. intros. rewrite PGROUNDDOWN_eq by done. unfold PGSIZE in *. div_lia. Qed.

(** * A small machine, for evaluating the routines: eight free pages *)

Definition demo_linker : Linker.
Proof.
  refine {| kend := PHYSTOP - 8 * PGSIZE; etext := KERNBASE + 2 * PGSIZE;
            trampoline := KERNBASE + PGSIZE |}; abstract (unfold PHYSTOP, KERNBASE, PGSIZE; done || lia).
Defined.
