(* ===== verification/Locks.v ===== *)
(** Spin-locks as the code that uses them sees them.  A routine runs on one
    hart; [k_held] lists the spin-locks this hart holds, and its length is the
    nesting depth [mycpu()->noff] of interrupt disabling.  Waiting for another
    hart is invisible to the waiter, so [acquire] here only has the check for a
    lock the hart holds already.  Spinlock.v models kernel/spinlock.c itself on
    several harts. *)
From S2P Require Import Prelude State.

Definition holding (lk : lockid) (s : kstate) : bool := bool_decide (lk ∈ k_held s).

Definition acquire (lk : lockid) : K unit := fun s =>
  if holding lk s then Panic "acquire" else Ok tt (set_k_held (lk :: k_held s) s).

Definition release (lk : lockid) : K unit := fun s =>
  if holding lk s then Ok tt (set_k_held (filter (.≠ lk) (k_held s)) s) else Panic "release".

Lemma holding_false lk s : lk ∉ k_held s -> holding lk s = false.
Proof. apply bool_decide_eq_false_2. Qed.

Lemma acquire_Ok lk s :
  lk ∉ k_held s -> acquire lk s = Ok tt (set_k_held (lk :: k_held s) s).
Proof. intros H. unfold acquire. by rewrite holding_false. Qed.

Lemma filter_ne_head (lk : lockid) h : lk ∉ h -> filter (.≠ lk) (lk :: h) = h.
Proof.
  intros H. rewrite filter_cons_False by naive_solver. by apply filter_ne_notin.
Qed.

Lemma release_Ok lk s h :
  k_held s = lk :: h -> lk ∉ h -> release lk s = Ok tt (set_k_held h s).
Proof.
  intros E H. unfold release, holding. rewrite E, bool_decide_eq_true_2 by set_solver.
  by rewrite filter_ne_head.
Qed.

Lemma release_not_held lk s : lk ∉ k_held s -> release lk s = Panic "release".
Proof. intros H. unfold release. by rewrite holding_false. Qed.

Lemma set_k_held_id s h : k_held s = h -> set_k_held h s = s.
Proof. intros <-. by destruct s. Qed.
Lemma set_k_mem_id s : set_k_mem (k_mem s) s = s.
Proof. by destruct s. Qed.

(** A critical section of one lock around a state change that does not touch
    the set of held locks. *)
Lemma critical_section {A} lk (body : K A) s a s' :
  lk ∉ k_held s ->
  body (set_k_held (lk :: k_held s) s) = Ok a s' ->
  k_held s' = lk :: k_held s ->
  (acquire lk ;;; r <- body ;; release lk ;;; ret r) s = Ok a (set_k_held (k_held s) s').
Proof.
  intros H E Eh. rewrite (bind_Ok _ _ _ _ _ (acquire_Ok _ _ H)), (bind_Ok _ _ _ _ _ E).
  by rewrite (bind_Ok _ _ _ _ _ (release_Ok _ _ _ Eh H)).
Qed.

(** Run an [acquire] or [release] at the head of the goal. *)
Ltac lock_side := cbn; first [ done | set_solver ].
Ltac kacquire := erewrite (bind_Ok (acquire _)) by (apply acquire_Ok; lock_side).
Ltac krelease :=
  first [ erewrite (bind_Ok (release _)) by (apply release_Ok; lock_side)
        | erewrite release_Ok by lock_side ].
