(* ===== verification/Kstring.v ===== *)
(** The kernel's memory and string routines (kernel/string.c), as functions on
    a byte array; a pointer is an address in the array.  [uint] arguments are
    taken modulo 2^32 at the call, as C does. *)
From S2P Require Import Prelude.

(** for(i = 0; i < n; i++) cdst[i] = c; *)
Fixpoint memset_loop (n : nat) (m : bytes) (cdst c : Z) : bytes :=
  match n with
  | O => m
  | S n => memset_loop n (store8 m cdst c) (cdst + 1) c
  end.

Definition memset (m : bytes) (dst c n : Z) : bytes :=
  memset_loop (Z.to_nat (u32 n)) m dst (u8 c).

Fixpoint memcmp_loop (n : nat) (m : bytes) (s1 s2 : Z) : Z :=
  match n with
  | O => 0
  | S n => if negb (load8 m s1 =? load8 m s2) then load8 m s1 - load8 m s2
           else memcmp_loop n m (s1 + 1) (s2 + 1)
  end.

Definition memcmp (m : bytes) (v1 v2 n : Z) : Z :=
  memcmp_loop (Z.to_nat (u32 n)) m v1 v2.

(** while(n-- > 0) *d++ = *s++; between two arrays, which may be the same *)
Fixpoint copy_fwd (n : nat) (m : bytes) (d s : Z) : bytes :=
  match n with
  | O => m
  | S n => copy_fwd n (store8 m d (load8 m s)) (d + 1) (s + 1)
  end.

(** while(n-- > 0) *--d = *--s; *)
Fixpoint copy_bwd (n : nat) (m : bytes) (d s : Z) : bytes :=
  match n with
  | O => m
  | S n => copy_bwd n (store8 m (d - 1) (load8 m (s - 1))) (d - 1) (s - 1)
  end.

Definition memmove (m : bytes) (dst src n : Z) : bytes :=
  let n := u32 n in
  if n =? 0 then m
  else if (src <? dst) && (dst <? src + n)
  then copy_bwd (Z.to_nat n) m (dst + n) (src + n)
  else copy_fwd (Z.to_nat n) m dst src.

Definition memcpy (m : bytes) (dst src n : Z) : bytes := memmove m dst src n.

(** memmove from an array into a different one: the ranges cannot overlap. *)
Fixpoint copy_into (n : nat) (src : bytes) (s : Z) (dst : bytes) (d : Z) : bytes :=
  match n with
  | O => dst
  | S n => copy_into n src (s + 1) (store8 dst d (load8 src s)) (d + 1)
  end.

(** while(n > 0 && *p && *p == *q) n--, p++, q++;
    if(n == 0) return 0;  return ( uchar)*p - (uchar)*q; *)
Fixpoint strncmp_loop (n : nat) (m : bytes) (p q : Z) : Z :=
  match n with
  | O => 0
  | S n' => if negb (load8 m p =? 0) && (load8 m p =? load8 m q)
            then strncmp_loop n' m (p + 1) (q + 1)
            else load8 m p - load8 m q
  end.

Definition strncmp (m : bytes) (p q n : Z) : Z := strncmp_loop (Z.to_nat (u32 n)) m p q.

(** while(n-- > 0 && ( *s++ = *t++) != 0);  while(n-- > 0) *s++ = 0; *)
Fixpoint strncpy_loop (n : nat) (m : bytes) (s t : Z) : bytes :=
  match n with
  | O => m
  | S n => let c := load8 m t in
           let m := store8 m s c in
           if c =? 0 then memset_loop n m (s + 1) 0
           else strncpy_loop n m (s + 1) (t + 1)
  end.

Definition strncpy (m : bytes) (s t n : Z) : bytes := strncpy_loop (Z.to_nat n) m s t.

(** strncmp and strncpy on two different arrays. *)
Fixpoint strncmp_arr (n : nat) (m : bytes) (p : Z) (m' : bytes) (q : Z) : Z :=
  match n with
  | O => 0
  | S n => if negb (load8 m p =? 0) && (load8 m p =? load8 m' q)
           then strncmp_arr n m (p + 1) m' (q + 1)
           else load8 m p - load8 m' q
  end.

Fixpoint strncpy_arr (n : nat) (dst : bytes) (s : Z) (src : bytes) (t : Z) : bytes :=
  match n with
  | O => dst
  | S n => let c := load8 src t in
           let dst := store8 dst s c in
           if c =? 0 then memset_loop n dst (s + 1) 0
           else strncpy_arr n dst (s + 1) src (t + 1)
  end.

(** while(--n > 0 && ( *s++ = *t++) != 0);  *s = 0; *)
Fixpoint safestrcpy_loop (n : nat) (m : bytes) (s t : Z) : bytes :=
  match n with
  | O => store8 m s 0
  | S n => let c := load8 m t in
           let m := store8 m s c in
           if c =? 0 then store8 m (s + 1) 0
           else safestrcpy_loop n m (s + 1) (t + 1)
  end.

Definition safestrcpy (m : bytes) (s t n : Z) : bytes :=
  if n <=? 0 then m else safestrcpy_loop (Z.to_nat (n - 1)) m s t.

(** safestrcpy to another array. *)
Fixpoint safestrcpy_arr_loop (n : nat) (dst : bytes) (s : Z) (src : bytes) (t : Z) : bytes :=
  match n with
  | O => store8 dst s 0
  | S n => let c := load8 src t in
           let dst := store8 dst s c in
           if c =? 0 then store8 dst (s + 1) 0
           else safestrcpy_arr_loop n dst (s + 1) src (t + 1)
  end.

Definition safestrcpy_arr (n : Z) (dst : bytes) (s : Z) (src : bytes) (t : Z) : bytes :=
  if n <=? 0 then dst else safestrcpy_arr_loop (Z.to_nat (n - 1)) dst s src t.

(** for(n = 0; s[n]; n++);  An array has finitely many non-zero bytes, so
    [size m] iterations are enough to find a zero. *)
Fixpoint strlen_loop (fuel : nat) (m : bytes) (s n : Z) : Z :=
  match fuel with
  | O => n
  | S fuel => if load8 m (s + n) =? 0 then n else strlen_loop fuel m s (n + 1)
  end.

Definition strlen (m : bytes) (s : Z) : Z := strlen_loop (size m) m s 0.

(** * Specifications *)

(** The characters of the string at [a], at most [n] of them, without the NUL. *)
Fixpoint cstr (n : nat) (m : bytes) (a : Z) : list Z :=
  match n with
  | O => []
  | S n => if load8 m a =? 0 then [] else load8 m a :: cstr n m (a + 1)
  end.

Lemma load8_memset_loop n m d c a :
  load8 (memset_loop n m d c) a =
  if (d <=? a) && (a <? d + Z.of_nat n) then c else load8 m a.
Proof.
  revert m d. induction n as [|n IH]; intros m d; cbn [memset_loop].
  - bool_case; lia || done.
  - rewrite IH, load8_store8. bool_case; lia || done.
Qed.

Lemma load8_memset m d c n a :
  0 <= n < 2 ^ 32 ->
  load8 (memset m d c n) a = if (d <=? a) && (a <? d + n) then u8 c else load8 m a.
Proof.
  intros. unfold memset. rewrite load8_memset_loop, u32_small, Z2Nat.id by lia. done.
Qed.

Lemma load8_copy_into n src s dst d a :
  load8 (copy_into n src s dst d) a =
  if (d <=? a) && (a <? d + Z.of_nat n) then load8 src (s + (a - d)) else load8 dst a.
Proof.
  revert s dst d. induction n as [|n IH]; intros s dst d; cbn [copy_into].
  - bool_case; lia || done.
  - rewrite IH, load8_store8. bool_case; try lia; try done; f_equal; lia.
Qed.

Lemma load8_copy_fwd n m d s a :
  d <= s \/ s + Z.of_nat n <= d ->
  load8 (copy_fwd n m d s) a =
  if (d <=? a) && (a <? d + Z.of_nat n) then load8 m (s + (a - d)) else load8 m a.
Proof.
  revert m s d. induction n as [|n IH]; intros m s d H; cbn [copy_fwd].
  - bool_case; lia || done.
  - rewrite IH by lia. rewrite !load8_store8. bool_case; try lia; try done; f_equal; lia.
Qed.

Lemma load8_copy_bwd n m d s a :
  s <= d ->
  load8 (copy_bwd n m d s) a =
  if (d - Z.of_nat n <=? a) && (a <? d) then load8 m (s - (d - a)) else load8 m a.
Proof.
  revert m s d. induction n as [|n IH]; intros m s d H; cbn [copy_bwd].
  - bool_case; lia || done.
  - rewrite IH by lia. rewrite !load8_store8. bool_case; try lia; try done; f_equal; lia.
Qed.

(** memmove behaves as if the source were first copied aside: every byte of the
    destination range gets the original byte of the source range, also when the
    two overlap, and no other byte changes. *)
Lemma memmove_spec m d s n a :
  0 <= n < 2 ^ 32 ->
  load8 (memmove m d s n) a = if (d <=? a) && (a <? d + n) then load8 m (s + (a - d)) else load8 m a.
Proof.
  intros Hn. unfold memmove. rewrite u32_small by lia. cbv zeta.
  destruct (Z.eqb_spec n 0) as [->|H0]; [bool_case; lia || done|].
  destruct (_ && _) eqn:E.
  - rewrite load8_copy_bwd by lia. rewrite Z2Nat.id by lia.
    bool_case; try lia; try done; f_equal; lia.
  - rewrite load8_copy_fwd by lia. rewrite Z2Nat.id by lia. done.
Qed.

(** strncmp returns 0 exactly on strings that agree on their first n characters. *)
Lemma strncmp_spec m p q n :
  0 <= n < 2 ^ 32 ->
  strncmp m p q n = 0 <-> cstr (Z.to_nat n) m p = cstr (Z.to_nat n) m q.
Proof.
  intros Hn. unfold strncmp. rewrite u32_small by lia.
  generalize (Z.to_nat n) as k. clear n Hn. intros k. revert p q.
  induction k as [|k IH]; intros p q; cbn [strncmp_loop cstr]; [done|].
  bool_case; split; intros; try lia; try congruence; try done.
  - apply IH in H. congruence.
  - apply IH. congruence.
Qed.

Lemma memcmp_spec m p q n :
  0 <= n < 2 ^ 32 ->
  memcmp m p q n = 0 <-> load_list (Z.to_nat n) m p = load_list (Z.to_nat n) m q.
Proof.
  intros Hn. unfold memcmp. rewrite u32_small by lia.
  generalize (Z.to_nat n) as k. clear n Hn. intros k. revert p q.
  induction k as [|k IH]; intros p q; cbn [memcmp_loop load_list]; [done|].
  bool_case; split; intros; try lia; try congruence; try done.
  - apply IH in H. congruence.
  - apply IH. congruence.
Qed.

Lemma length_cstr n m a : (length (cstr n m a) <= n)%nat.
Proof.
  revert a. induction n as [|n IH]; intros a; simpl; [lia|].
  destruct (_ =? 0); simpl; [lia|]. specialize (IH (a + 1)). lia.
Qed.

Lemma cstr_ext n m m' a :
  (forall i, a <= i < a + Z.of_nat n -> load8 m i = load8 m' i) -> cstr n m a = cstr n m' a.
Proof.
  revert a. induction n as [|n IH]; intros a H; simpl; [done|].
  rewrite H by lia. destruct (_ =? 0); [done|]. f_equal. apply IH. intros. apply H. lia.
Qed.

Lemma load8_strncpy_loop n m s t a :
  t + Z.of_nat n <= s \/ s + Z.of_nat n <= t ->
  load8 (strncpy_loop n m s t) a =
  if (s <=? a) && (a <? s + Z.of_nat n) then default 0 (cstr n m t !! Z.to_nat (a - s))
  else load8 m a.
Proof.
  revert m s t. induction n as [|n IH]; intros m s t H; cbn [strncpy_loop cstr].
  - bool_case; lia || done.
  - cbv zeta. destruct (Z.eqb_spec (load8 m t) 0) as [E|E].
    + rewrite load8_memset_loop, load8_store8, E. bool_case; lia || done.
    + rewrite IH by lia.
      rewrite (cstr_ext n _ m) by
        (intros; rewrite load8_store8; destruct (Z.eqb_spec s i); lia || done).
      rewrite load8_store8. bool_case; try lia; try done.
      * subst. by rewrite Z.sub_diag.
      * by replace (Z.to_nat (a - s)) with (S (Z.to_nat (a - (s + 1)))) by lia.
Qed.

(** strncpy fills exactly n bytes: the characters of the source, then zeros. *)
Lemma strncpy_spec m s t n :
  0 <= n -> t + n <= s \/ s + n <= t ->
  let src := cstr (Z.to_nat n) m t in
  load_list (Z.to_nat n) (strncpy m s t n) s = src ++ replicate (Z.to_nat n - length src) 0 /\
  forall a, a < s \/ s + n <= a -> load8 (strncpy m s t n) a = load8 m a.
Proof.
  intros Hn Hd src. unfold strncpy. pose proof (length_cstr (Z.to_nat n) m t). fold src in H. split.
  - apply list_eq. intros i. destruct (decide (i < Z.to_nat n)%nat).
    + rewrite load_list_lookup, load8_strncpy_loop by lia. bool_case; try lia.
      replace (Z.to_nat (s + Z.of_nat i - s)) with i by lia.
      destruct (src !! i) as [x|] eqn:E; fold src; rewrite E.
      * symmetry. by apply lookup_app_l_Some.
      * apply lookup_ge_None in E. simpl. symmetry.
        rewrite lookup_app_r by lia. apply lookup_replicate_2. lia.
    + rewrite !lookup_ge_None_2; [done| |]; rewrite ?length_app, ?length_replicate, ?length_load_list; lia.
  - intros a Ha. rewrite load8_strncpy_loop by lia. bool_case; lia || done.
Qed.

Lemma load8_safestrcpy_loop n m s t a :
  t + Z.of_nat n <= s \/ s + Z.of_nat n < t ->
  load8 (safestrcpy_loop n m s t) a =
  if (s <=? a) && (a <=? s + Z.of_nat (length (cstr n m t)))
  then default 0 (cstr n m t !! Z.to_nat (a - s))
  else if (a =? s + Z.of_nat (length (cstr n m t)) + 1) &&
          (Z.of_nat (length (cstr n m t)) <? Z.of_nat n) then 0
  else load8 m a.
Proof.
  revert m s t. induction n as [|n IH]; intros m s t H; cbn [safestrcpy_loop cstr].
  - rewrite load8_store8. simpl. bool_case; lia || done.
  - cbv zeta. destruct (Z.eqb_spec (load8 m t) 0) as [E|E].
    + rewrite !load8_store8, E. cbn [length]. bool_case; try lia; done.
    + rewrite IH by lia.
      rewrite (cstr_ext n _ m) by
        (intros; rewrite load8_store8; destruct (Z.eqb_spec s i); lia || done).
      rewrite load8_store8. cbn [length]. bool_case; try lia; try done.
      all: first [ by replace (Z.to_nat (a - s)) with (S (Z.to_nat (a - (s + 1)))) by lia
                 | subst; by rewrite Z.sub_diag ].
Qed.

(** safestrcpy always leaves a NUL-terminated string, the source cut to n - 1
    characters, and writes nothing outside the n bytes of the destination. *)
Lemma safestrcpy_spec m s t n :
  0 < n -> t + n <= s \/ s + n <= t ->
  let src := cstr (Z.to_nat (n - 1)) m t in
  load_list (length src) (safestrcpy m s t n) s = src /\
  load8 (safestrcpy m s t n) (s + Z.of_nat (length src)) = 0 /\
  forall a, a < s \/ s + n <= a -> load8 (safestrcpy m s t n) a = load8 m a.
Proof.
  intros Hn Hd src. unfold safestrcpy. destruct (Z.leb_spec n 0); [lia|].
  pose proof (length_cstr (Z.to_nat (n - 1)) m t). fold src in H0.
  split; [|split].
  - apply list_eq. intros i. destruct (decide (i < length src)%nat).
    + rewrite load_list_lookup, load8_safestrcpy_loop by lia. fold src.
      replace (Z.to_nat (s + Z.of_nat i - s)) with i by lia.
      destruct (lookup_lt_is_Some_2 src i l) as [x ->]. bool_case; lia || done.
    + rewrite !lookup_ge_None_2; [done| |]; rewrite ?length_load_list; lia.
  - rewrite load8_safestrcpy_loop by lia. fold src.
    replace (Z.to_nat (s + Z.of_nat (length src) - s)) with (length src) by lia.
    rewrite lookup_ge_None_2 by done. bool_case; lia || done.
  - intros a Ha. rewrite load8_safestrcpy_loop by lia. fold src. bool_case; try lia; done.
Qed.

(** The addresses s .. s+n-1 all hold non-zero bytes, hence are in the array. *)
Lemma nonzero_run_size m s n :
  (forall i, 0 <= i < Z.of_nat n -> load8 m (s + i) <> 0) -> (n <= size m)%nat.
Proof.
  intros H. set (X := (list_to_set ((fun i => s + Z.of_nat i) <$> seq 0 n) : gset Z)).
  assert (Hsz : size X = n).
  { unfold X. rewrite size_list_to_set, length_fmap, length_seq; [done|].
    apply NoDup_fmap_2; [intros ??; lia|]. apply NoDup_seq. }
  rewrite <- Hsz, <- size_dom. apply subseteq_size. intros x.
  unfold X. rewrite elem_of_list_to_set, list_elem_of_fmap.
  intros (i & -> & Hi%elem_of_seq). specialize (H (Z.of_nat i) ltac:(lia)).
  apply elem_of_dom. unfold load8 in H. destruct (m !! (s + Z.of_nat i)); naive_solver.
Qed.

Lemma strlen_loop_spec fuel m s n :
  0 <= n -> Z.of_nat (size m) <= n + Z.of_nat fuel ->
  (forall i, 0 <= i < n -> load8 m (s + i) <> 0) ->
  let r := strlen_loop fuel m s n in
  n <= r /\ load8 m (s + r) = 0 /\ forall i, 0 <= i < r -> load8 m (s + i) <> 0.
Proof.
  revert n. induction fuel as [|fuel IH]; intros n Hn Hsz Hnz; cbn [strlen_loop].
  - split; [lia|]. split; [|done].
    destruct (decide (load8 m (s + n) = 0)) as [|E]; [done|].
    pose proof (nonzero_run_size m s (S (Z.to_nat n))) as Hrun. exfalso.
    enough (S (Z.to_nat n) <= size m)%nat by lia. apply Hrun. intros i Hi.
    destruct (decide (i = n)) as [->|]; [done|]. apply Hnz. lia.
  - cbv zeta. destruct (Z.eqb_spec (load8 m (s + n)) 0) as [E|E]; [done || (split; [lia|done])|].
    destruct (IH (n + 1)) as (H1 & H2 & H3); [lia|lia| |].
    + intros i Hi. destruct (decide (i = n)) as [->|]; [done|]. apply Hnz. lia.
    + split; [lia|done].
Qed.

(** strlen terminates on every array, at the first NUL. *)
Lemma strlen_spec m s :
  let n := strlen m s in
  0 <= n /\ load8 m (s + n) = 0 /\ forall i, 0 <= i < n -> load8 m (s + i) <> 0.
Proof. apply strlen_loop_spec; intros; lia. Qed.

(** From here on the loops are used through the lemmas above. *)
#[global] Opaque memset memmove copy_into strncpy safestrcpy.
