(* ===== verification/Kalloc.v ===== *)
(** The physical page allocator (kernel/kalloc.c).  The free list is threaded
    through the free pages: the first eight bytes of a free page hold the
    address of the next one. *)
From S2P Require Import Prelude State Locks Kstring.

Section Kalloc.
Context `{Linker}.

Definition kfree (pa : Z) : K unit :=
  if negb (pa mod PGSIZE =? 0) || (pa <? kend) || (PHYSTOP <=? pa) then panic "kfree"
  else
    modify (fun s => set_k_mem (memset (k_mem s) pa 1 PGSIZE) s) ;;;
    acquire LkKmem ;;;
    modify (fun s => set_k_mem (store64 (k_mem s) pa (k_freelist s)) s) ;;;
    modify (set_k_freelist pa) ;;;
    release LkKmem.

Definition kalloc : K Z :=
  acquire LkKmem ;;;
  r <- gets k_freelist ;;
  when (negb (r =? 0)) (modify (fun s => set_k_freelist (load64 (k_mem s) r) s)) ;;;
  release LkKmem ;;;
  when (negb (r =? 0)) (modify (fun s => set_k_mem (memset (k_mem s) r 5 PGSIZE) s)) ;;;
  ret r.

(** for(; p + PGSIZE <= pa_end; p += PGSIZE) kfree(p); *)
Fixpoint freerange_loop (fuel : nat) (p pa_end : Z) : K unit :=
  match fuel with
  | O => fun _ => Diverge
  | S fuel => if p + PGSIZE <=? pa_end
              then kfree p ;;; freerange_loop fuel (p + PGSIZE) pa_end
              else ret tt
  end.

Definition freerange (pa_start pa_end : Z) : K unit :=
  let p := PGROUNDUP pa_start in
  freerange_loop (S (Z.to_nat ((pa_end - p) / PGSIZE))) p pa_end.

Definition kinit : K unit := freerange kend PHYSTOP.

(** * The abstract allocator: the list of free pages *)

Definition page_ok (p : Z) : Prop := p mod PGSIZE = 0 /\ kend <= p < PHYSTOP.

Fixpoint freelist_rep (m : bytes) (head : Z) (fl : list Z) : Prop :=
  match fl with
  | [] => head = 0
  | p :: fl => head = p /\ freelist_rep m (load64 m p) fl
  end.

(** [kmem_inv s fl]: the allocator's list is [fl], a list of distinct pages. *)
Definition kmem_inv (s : kstate) (fl : list Z) : Prop :=
  freelist_rep (k_mem s) (k_freelist s) fl /\ NoDup fl /\ Forall page_ok fl.

(** Memory that differs at most inside the page at [p]. *)
Definition same_outside (p : Z) (m m' : bytes) : Prop :=
  forall a, a < p \/ p + PGSIZE <= a -> load8 m' a = load8 m a.

Lemma page_ok_pos p : page_ok p -> KERNBASE <= p < PHYSTOP.
Proof. intros [_ ?]. pose proof kend_range. lia. Qed.

Lemma pages_disjoint p q a :
  p mod PGSIZE = 0 -> q mod PGSIZE = 0 -> p <> q ->
  p <= a < p + PGSIZE -> a < q \/ q + PGSIZE <= a.
Proof. unfold PGSIZE. intros. div_lia. Qed.

Lemma freelist_rep_ext m m' head fl :
  (forall p a, p ∈ fl -> p <= a < p + PGSIZE -> load8 m' a = load8 m a) ->
  freelist_rep m head fl -> freelist_rep m' head fl.
Proof.
  revert head. induction fl as [|p fl IH]; intros head E; simpl; [done|].
  intros [-> Hr]. split; [done|].
  unfold load64 in *. rewrite (le_load_ext 8 m' m).
  - apply IH; [|done]. intros q a Hq. apply E. set_solver.
  - intros i Hi. apply (E p); [set_solver|]. unfold PGSIZE. lia.
Qed.

Lemma freelist_rep_outside m m' p head fl :
  same_outside p m m' -> p mod PGSIZE = 0 -> p ∉ fl -> Forall page_ok fl ->
  freelist_rep m head fl -> freelist_rep m' head fl.
Proof.
  intros Ho Hp Hnp Hok. apply freelist_rep_ext. intros q a Hq Ha. apply Ho.
  rewrite Forall_forall in Hok. destruct (Hok q Hq) as [Hq' _].
  apply (pages_disjoint q); [done..| |done]. set_solver.
Qed.

Lemma memset_page_outside m p c : same_outside p m (memset m p c PGSIZE).
Proof.
  intros a Ha. rewrite load8_memset by (unfold PGSIZE; lia). bool_case; unfold PGSIZE in *; lia || done.
Qed.

Lemma store64_page_outside m p v : same_outside p m (store64 m p v).
Proof.
  intros a Ha. unfold store64. rewrite load8_le_store. unfold PGSIZE in *. bool_case; lia || done.
Qed.

(** kalloc pops the list: on an empty list it returns 0 and changes nothing,
    otherwise the first page, filled with 5. *)
Lemma kalloc_spec s fl :
  LkKmem ∉ k_held s -> kmem_inv s fl ->
  match fl with
  | [] => kalloc s = Ok 0 s
  | p :: rest => exists head,
      kalloc s = Ok p (set_k_freelist head (set_k_mem (memset (k_mem s) p 5 PGSIZE) s)) /\
      kmem_inv (set_k_freelist head (set_k_mem (memset (k_mem s) p 5 PGSIZE) s)) rest
  end.
Proof.
  intros Hl (Hr & Hnd & Hok). unfold kalloc.
  kacquire. krun. cbn [k_freelist set_k_held].
  destruct fl as [|p rest]; simpl in Hr.
  - rewrite Hr. cbn [Z.eqb]. krun.
    krelease. krun. unfold ret. f_equal. by destruct s.
  - destruct Hr as [-> Hr]. pose proof (page_ok_pos p) as Hp.
    apply Forall_cons in Hok as [Hok1 Hok2]. specialize (Hp Hok1).
    apply NoDup_cons in Hnd as [Hn1 Hn2].
    destruct (Z.eqb_spec p 0) as [->|_]; [unfold KERNBASE in Hp; lia|]. krun.
    krelease. krun. exists (load64 (k_mem s) p). split.
    + done.
    + split; [|done]. cbn.
      apply (freelist_rep_outside (k_mem s) _ p); [apply memset_page_outside|apply Hok1|done..].
Qed.

(** kfree pushes the page, or panics on an address no page can have. *)
Lemma kfree_spec s fl p :
  LkKmem ∉ k_held s -> kmem_inv s fl -> page_ok p -> p ∉ fl ->
  let m := store64 (memset (k_mem s) p 1 PGSIZE) p (k_freelist s) in
  kfree p s = Ok tt (set_k_freelist p (set_k_mem m s)) /\
  kmem_inv (set_k_freelist p (set_k_mem m s)) (p :: fl).
Proof.
  intros Hl (Hr & Hnd & Hok) [Hpm Hpr] Hnp m. unfold kfree.
  rewrite Hpm. destruct (Z.ltb_spec p kend); [lia|]. destruct (Z.leb_spec PHYSTOP p); [lia|].
  cbn [Z.eqb]. krun.
  kacquire. krun. krelease. split; [done|].
  split; [|split].
  - simpl. split; [done|]. unfold m, load64, store64.
    rewrite le_load_store_same. change (256 ^ Z.of_nat 8) with (2 ^ 64).
    assert (Hh : 0 <= k_freelist s < 2 ^ 64).
    { destruct fl as [|q fl]; simpl in Hr; [lia|]. destruct Hr as [-> _].
      apply Forall_cons in Hok as [Hq _]. apply page_ok_pos in Hq.
      unfold PHYSTOP, KERNBASE in *. lia. }
    rewrite Z.mod_small by done.
    apply (freelist_rep_outside (k_mem s) _ p); [|done..].
    intros a Ha. rewrite (store64_page_outside _ p) by done. by apply memset_page_outside.
  - by constructor.
  - by constructor.
Qed.

Lemma kfree_panics s p :
  ~ page_ok p -> kfree p s = Panic "kfree".
Proof.
  intros Hp. unfold kfree.
  destruct (negb (p mod PGSIZE =? 0) || (p <? kend) || (PHYSTOP <=? p)) eqn:E; [done|].
  exfalso. apply Hp. unfold page_ok. lia.
Qed.

Lemma freerange_loop_spec n p s fl :
  LkKmem ∉ k_held s -> kmem_inv s fl -> p mod PGSIZE = 0 -> kend <= p ->
  p + Z.of_nat n * PGSIZE <= PHYSTOP < p + Z.of_nat n * PGSIZE + PGSIZE ->
  Forall (fun q => q < p) fl ->
  exists s' fl', freerange_loop (S n) p PHYSTOP s = Ok tt s' /\ kmem_inv s' fl' /\
    k_held s' = k_held s /\ forall q, q ∈ fl' <-> q ∈ fl \/ (page_ok q /\ p <= q).
Proof.
  revert p s fl. induction n as [|n IH]; intros p s fl Hl Hinv Hp Hpk Hn Hlt.
  - cbn [freerange_loop]. destruct (Z.leb_spec (p + PGSIZE) PHYSTOP); [unfold PGSIZE in *; lia|].
    exists s, fl. split_and!; try done. intros q. split; [by left|].
    intros [?|[[Hq1 Hq2] Hq3]]; [done|]. exfalso.
    unfold PGSIZE, PHYSTOP, KERNBASE in *. div_lia.
  - remember (S n) as k eqn:Ek. cbn [freerange_loop]. subst k.
    destruct (Z.leb_spec (p + PGSIZE) PHYSTOP) as [Hle|]; [|unfold PGSIZE in *; lia].
    assert (Hok : page_ok p) by (split; unfold PGSIZE in *; lia).
    assert (Hnp : p ∉ fl).
    { intros Hin. rewrite Forall_forall in Hlt. specialize (Hlt p Hin). simpl in Hlt. lia. }
    destruct (kfree_spec s fl p Hl Hinv Hok Hnp) as [E Hinv'].
    rewrite (bind_Ok _ _ _ _ _ E).
    edestruct (IH (p + PGSIZE)) as (s' & fl' & E' & Hinv2 & Hh & Hin);
      [|exact Hinv'|..]; [exact Hl|..].
    + unfold PGSIZE in *. div_lia.
    + unfold PGSIZE. lia.
    + unfold PGSIZE in *. lia.
    + constructor; [unfold PGSIZE; lia|]. eapply Forall_impl; [done|].
      simpl. unfold PGSIZE. lia.
    + exists s', fl'. split_and!; try done. intros q. rewrite Hin, elem_of_cons.
      split; intros [Hq|Hq]; [| |tauto|]; [naive_solver lia| |].
      * right. unfold PGSIZE in *. naive_solver lia.
      * destruct Hq as [Hq1 Hq2]. destruct (decide (q = p)) as [->|]; [tauto|].
        right. split; [done|]. destruct Hq1 as [Hq1 _]. unfold PGSIZE in *. div_lia.
Qed.

(** * Histories of the allocator

    The rest of the kernel takes pages with [kalloc], writes into the pages it
    has, and gives them back with [kfree]. *)

Inductive alloc_step : kstate * gset Z -> kstate * gset Z -> Prop :=
| step_kalloc s used p s' :
    kalloc s = Ok p s' -> p <> 0 -> alloc_step (s, used) (s', {[p]} ∪ used)
| step_kalloc_fail s used s' :
    kalloc s = Ok 0 s' -> alloc_step (s, used) (s', used)
| step_kfree s used p s' :
    p ∈ used -> kfree p s = Ok tt s' -> alloc_step (s, used) (s', used ∖ {[p]})
| step_write s used p a v :
    p ∈ used -> p <= a < p + PGSIZE ->
    alloc_step (s, used) (set_k_mem (store8 (k_mem s) a v) s, used).

(** Every page of RAM is either free or in use, never both. *)
Definition alloc_inv (c : kstate * gset Z) : Prop :=
  LkKmem ∉ k_held c.1 /\
  exists fl, kmem_inv c.1 fl /\ (forall p, p ∈ fl -> p ∉ c.2) /\
    forall p, page_ok p <-> p ∈ fl \/ p ∈ c.2.

Lemma kalloc_inv_cases s fl r s' :
  LkKmem ∉ k_held s -> kmem_inv s fl -> kalloc s = Ok r s' ->
  k_held s' = k_held s /\
  ((fl = [] /\ r = 0 /\ s' = s) \/
   (exists rest, fl = r :: rest /\ page_ok r /\ r ∉ rest /\ kmem_inv s' rest /\
      (forall a, r <= a < r + PGSIZE -> load8 (k_mem s') a = 5) /\
      same_outside r (k_mem s) (k_mem s'))).
Proof.
  intros Hl Hinv E. pose proof (kalloc_spec s fl Hl Hinv) as Hs.
  destruct fl as [|p rest].
  - rewrite Hs in E. injection E as <- <-. split; [done|]. by left.
  - destruct Hs as (head & E' & Hinv'). rewrite E' in E. injection E as <- <-.
    split; [done|]. right. destruct Hinv as (_ & Hnd & Hok).
    apply NoDup_cons in Hnd as [Hnd _]. apply Forall_cons in Hok as [Hok _].
    exists rest. split_and!; try done; [|apply memset_page_outside].
    intros a Ha. cbn. rewrite load8_memset by (unfold PGSIZE; lia). bool_case; lia || done.
Qed.

Lemma kalloc_total s fl :
  LkKmem ∉ k_held s -> kmem_inv s fl -> exists r s', kalloc s = Ok r s'.
Proof.
  intros Hl Hinv. pose proof (kalloc_spec s fl Hl Hinv) as Hs.
  destruct fl; [eauto|]. destruct Hs as (? & ? & _). eauto.
Qed.

Lemma alloc_step_inv c c' : alloc_step c c' -> alloc_inv c -> alloc_inv c'.
Proof.
  intros Hstep (Hl & fl & Hinv & Hdis & Hall).
  destruct Hstep as [s used p s' E Hp|s used s' E|s used p s' Hp E|s used p a v Hp Ha];
    simpl in *.
  - destruct (kalloc_inv_cases _ _ _ _ Hl Hinv E) as (Hh & [(-> & ? & _)|(rest & -> & Hok & Hn & Hinv' & _)]); [done|].
    split; [simpl; congruence|]. exists rest. split_and!; [done|set_solver|].
    intros q. rewrite Hall. set_solver.
  - destruct (kalloc_inv_cases _ _ _ _ Hl Hinv E) as (Hh & [(-> & ? & ->)|(rest & -> & Hok & _)]).
    + split; [done|]. by exists [].
    + apply page_ok_pos in Hok. unfold KERNBASE in Hok. lia.
  - assert (Hpf : p ∉ fl) by set_solver.
    destruct (kfree_spec s fl p Hl Hinv (proj2 (Hall p) (or_intror Hp)) Hpf) as [E' Hinv'].
    rewrite E' in E. injection E as <-. split; [done|]. exists (p :: fl).
    split_and!; [done|set_solver|]. intros q. rewrite Hall.
    destruct (decide (q = p)); set_solver.
  - split; [done|]. exists fl. split_and!; try done. destruct Hinv as (Hr & Hnd & Hok).
    split; [|done]. cbn. eapply (freelist_rep_outside (k_mem s) _ p); try done; [|apply Hall; tauto|set_solver].
    intros b Hb. rewrite load8_store8. bool_case; lia || done.
Qed.

Lemma kinit_spec s :
  LkKmem ∉ k_held s -> k_freelist s = 0 ->
  exists s', kinit s = Ok tt s' /\ alloc_inv (s', ∅).
Proof.
  intros Hl H0. pose proof kend_range as Hk. unfold kinit, freerange.
  assert (Hb : 0 <= kend /\ kend + PGSIZE - 1 < 2 ^ 64) by (unfold PHYSTOP, KERNBASE, PGSIZE in *; lia).
  destruct (PGROUNDUP_spec kend) as [Hr Hm]; [lia..|].
  assert (Hle : PGROUNDUP kend <= PHYSTOP).
  { rewrite PGROUNDUP_eq by lia. unfold PHYSTOP, KERNBASE, PGSIZE in *. div_lia. }
  edestruct (freerange_loop_spec (Z.to_nat ((PHYSTOP - PGROUNDUP kend) / PGSIZE)) (PGROUNDUP kend) s [])
    as (s' & fl & E & Hinv & Hh & Hin).
  - done.
  - split; [done|]. split; constructor.
  - done.
  - lia.
  - rewrite Z2Nat.id by (unfold PGSIZE in *; div_lia). unfold PGSIZE in *. div_lia.
  - constructor.
  - exists s'. split; [done|]. split; [simpl; congruence|]. exists fl.
    split_and!; [done|set_solver|]. simpl. intros p. rewrite Hin.
    split; [|set_solver]. intros Hp. left. right. split; [done|].
    destruct Hp as [Hp1 Hp2]. unfold PGSIZE in *. div_lia.
Qed.

(** C8: after [kinit], in every history of [kalloc], [kfree] and writes into
    allocated pages, [kalloc] runs without panicking, returns 0 only when every
    page between [end] and PHYSTOP is in use, and otherwise returns a page
    that is not in use. *)
Theorem kalloc_never_reuses s0 :
  LkKmem ∉ k_held s0 -> k_freelist s0 = 0 ->
  exists s1, kinit s0 = Ok tt s1 /\
    forall s used, rtc alloc_step (s1, ∅) (s, used) ->
      exists r s', kalloc s = Ok r s' /\
        (r = 0 <-> forall p, page_ok p -> p ∈ used) /\
        (r <> 0 -> page_ok r /\ r ∉ used).
Proof.
  intros Hl H0. destruct (kinit_spec s0 Hl H0) as (s1 & E & Hinv).
  exists s1. split; [done|]. intros s used Hsteps.
  assert (Hinv' : alloc_inv (s, used)).
  { eapply (rtc_invariant alloc_step); eauto using alloc_step_inv. }
  destruct Hinv' as (Hl' & fl & Hk & Hdis & Hall). simpl in *.
  destruct (kalloc_total s fl Hl' Hk) as (r & s' & Er). exists r, s'. split; [done|].
  destruct (kalloc_inv_cases _ _ _ _ Hl' Hk Er) as (_ & [(-> & -> & _)|(rest & -> & Hok & _)]).
  - split; [|done]. split; [|done]. intros _ p Hp. apply Hall in Hp. set_solver.
  - assert (r <> 0) by (apply page_ok_pos in Hok; unfold KERNBASE in Hok; lia).
    split; [|set_solver]. split; [done|]. intros Hu. specialize (Hu r Hok). set_solver.
Qed.

End Kalloc.

Lemma kalloc_never_reuses_witness :
  exists s1, @kinit demo_linker kstate0 = Ok tt s1 /\
    exists r s', kalloc s1 = Ok r s' /\ (r <> 0 -> @page_ok demo_linker r /\ r ∉ (∅ : gset Z)).
Proof.
  destruct (@kalloc_never_reuses demo_linker kstate0) as (s1 & E & H).
  - apply not_elem_of_nil.
  - reflexivity.
  - exists s1. split; [exact E|].
    destruct (H s1 ∅ (rtc_refl _ _)) as (r & s' & E' & _ & Hr). by exists r, s'.
Defined.
