(* ===== verification/Vm.v ===== *)
(** Page tables and user memory (kernel/vm.c) in the Sv39 format: three levels
    of 512 entries of eight bytes, stored in physical memory. *)
From S2P Require Import Prelude State Locks Kstring Kalloc.

(** * Page-table entries (kernel/riscv.h) *)

Definition PA2PTE (pa : Z) : Z := u64 (Z.shiftl (Z.shiftr pa 12) 10).
Definition PTE2PA (pte : Z) : Z := u64 (Z.shiftl (Z.shiftr pte 10) 12).
Definition PTE_FLAGS (pte : Z) : Z := Z.land pte 0x3FF.
Definition PXSHIFT (level : Z) : Z := PGSHIFT + 9 * level.
Definition PX (level va : Z) : Z := Z.land (Z.shiftr va (PXSHIFT level)) 0x1FF.

Definition has (flags bit : Z) : bool := negb (Z.land flags bit =? 0).

Section Vm.
Context `{Linker}.

(** The loop of [walk] from level [level] down. *)
Fixpoint walk_loop (level : nat) (pagetable va : Z) (alloc : bool) : K Z :=
  match level with
  | O => ret (pagetable + 8 * PX 0 va)
  | S l =>
      let pte := pagetable + 8 * PX (Z.of_nat level) va in
      v <- gets (fun s => load64 (k_mem s) pte) ;;
      if has v PTE_V then walk_loop l (PTE2PA v) va alloc
      else if negb alloc then ret 0
      else
        pagetable <- kalloc ;;
        if pagetable =? 0 then ret 0
        else
          modify (fun s => set_k_mem (memset (k_mem s) pagetable 0 PGSIZE) s) ;;;
          modify (fun s => set_k_mem (store64 (k_mem s) pte (Z.lor (PA2PTE pagetable) PTE_V)) s) ;;;
          walk_loop l pagetable va alloc
  end.

Definition walk (pagetable va : Z) (alloc : bool) : K Z :=
  if MAXVA <=? va then panic "walk" else walk_loop 2 pagetable va alloc.

Definition walkaddr (pagetable va : Z) : K Z :=
  if MAXVA <=? va then ret 0
  else
    pte <- walk pagetable va false ;;
    if pte =? 0 then ret 0
    else
      v <- gets (fun s => load64 (k_mem s) pte) ;;
      if negb (has v PTE_V) then ret 0
      else if negb (has v PTE_U) then ret 0
      else ret (PTE2PA v).

Fixpoint mappages_loop (fuel : nat) (pagetable a last pa perm : Z) : K Z :=
  match fuel with
  | O => fun _ => Diverge
  | S fuel =>
      pte <- walk pagetable a true ;;
      if pte =? 0 then ret (-1)
      else
        v <- gets (fun s => load64 (k_mem s) pte) ;;
        if has v PTE_V then panic "mappages: remap"
        else
          modify (fun s => set_k_mem (store64 (k_mem s) pte
                                        (Z.lor (Z.lor (PA2PTE pa) perm) PTE_V)) s) ;;;
          if a =? last then ret 0
          else mappages_loop fuel pagetable (u64 (a + PGSIZE)) last (u64 (pa + PGSIZE)) perm
  end.

Definition mappages (pagetable va size pa perm : Z) : K Z :=
  if negb (va mod PGSIZE =? 0) then panic "mappages: va not aligned"
  else if negb (size mod PGSIZE =? 0) then panic "mappages: size not aligned"
  else if size =? 0 then panic "mappages: size"
  else mappages_loop (Z.to_nat (size / PGSIZE)) pagetable va (u64 (va + size - PGSIZE)) pa perm.

Definition kvmmap (kpgtbl va pa sz perm : Z) : K unit :=
  r <- mappages kpgtbl va sz pa perm ;;
  if negb (r =? 0) then panic "kvmmap" else ret tt.

(** for(a = va; a < va + npages*PGSIZE; a += PGSIZE) *)
Fixpoint uvmunmap_loop (fuel : nat) (pagetable a lim : Z) (do_free : bool) : K unit :=
  match fuel with
  | O => fun _ => Diverge
  | S fuel =>
      if a <? lim then
        pte <- walk pagetable a false ;;
        if pte =? 0 then panic "uvmunmap: walk"
        else
          v <- gets (fun s => load64 (k_mem s) pte) ;;
          if negb (has v PTE_V) then panic "uvmunmap: not mapped"
          else if PTE_FLAGS v =? PTE_V then panic "uvmunmap: not a leaf"
          else
            when do_free (kfree (PTE2PA v)) ;;;
            modify (fun s => set_k_mem (store64 (k_mem s) pte 0) s) ;;;
            uvmunmap_loop fuel pagetable (u64 (a + PGSIZE)) lim do_free
      else ret tt
  end.

Definition uvmunmap (pagetable va npages : Z) (do_free : bool) : K unit :=
  if negb (va mod PGSIZE =? 0) then panic "uvmunmap: not aligned"
  else uvmunmap_loop (S (Z.to_nat npages)) pagetable va (u64 (va + npages * PGSIZE)) do_free.

Definition uvmcreate : K Z :=
  pagetable <- kalloc ;;
  if pagetable =? 0 then ret 0
  else
    modify (fun s => set_k_mem (memset (k_mem s) pagetable 0 PGSIZE) s) ;;;
    ret pagetable.

Definition uvmfirst (pagetable : Z) (src : bytes) (sz : Z) : K unit :=
  if PGSIZE <=? sz then panic "uvmfirst: more than a page"
  else
    mem <- kalloc ;;
    modify (fun s => set_k_mem (memset (k_mem s) mem 0 PGSIZE) s) ;;;
    mappages pagetable 0 PGSIZE mem (Z.lor (Z.lor (Z.lor PTE_W PTE_R) PTE_X) PTE_U) ;;;
    modify (fun s => set_k_mem (copy_into (Z.to_nat sz) src 0 (k_mem s) mem) s).

Definition uvmdealloc (pagetable oldsz newsz : Z) : K Z :=
  if oldsz <=? newsz then ret oldsz
  else
    when (PGROUNDUP newsz <? PGROUNDUP oldsz)
      (let npages := i32 ((PGROUNDUP oldsz - PGROUNDUP newsz) / PGSIZE) in
       uvmunmap pagetable (PGROUNDUP newsz) (u64 npages) true) ;;;
    ret newsz.

(** for(a = oldsz; a < newsz; a += PGSIZE); [start] is the rounded [oldsz]. *)
Fixpoint uvmalloc_loop (fuel : nat) (pagetable a start newsz xperm : Z) : K Z :=
  match fuel with
  | O => fun _ => Diverge
  | S fuel =>
      if a <? newsz then
        mem <- kalloc ;;
        if mem =? 0 then uvmdealloc pagetable a start ;;; ret 0
        else
          modify (fun s => set_k_mem (memset (k_mem s) mem 0 PGSIZE) s) ;;;
          r <- mappages pagetable a PGSIZE mem (Z.lor (Z.lor PTE_R PTE_U) xperm) ;;
          if negb (r =? 0) then
            kfree mem ;;; uvmdealloc pagetable a start ;;; ret 0
          else uvmalloc_loop fuel pagetable (u64 (a + PGSIZE)) start newsz xperm
      else ret newsz
  end.

Definition uvmalloc (pagetable oldsz newsz xperm : Z) : K Z :=
  if newsz <? oldsz then ret oldsz
  else
    let oldsz := PGROUNDUP oldsz in
    uvmalloc_loop (S (Z.to_nat ((newsz - oldsz + PGSIZE - 1) / PGSIZE)))
      pagetable oldsz oldsz newsz xperm.

(** [depth] bounds the recursion: a page table has three levels. *)
Fixpoint freewalk_depth (depth : nat) (pagetable : Z) : K unit :=
  match depth with
  | O => fun _ => Diverge
  | S depth =>
      for_loop 512 0 (fun i =>
        pte <- gets (fun s => load64 (k_mem s) (pagetable + 8 * i)) ;;
        (if has pte PTE_V && (Z.land pte (Z.lor (Z.lor PTE_R PTE_W) PTE_X) =? 0) then
           freewalk_depth depth (PTE2PA pte) ;;;
           modify (fun s => set_k_mem (store64 (k_mem s) (pagetable + 8 * i) 0) s)
         else if has pte PTE_V then panic "freewalk: leaf"
         else ret tt) ;;;
        ret (@None unit)) ;;;
      kfree pagetable
  end.

Definition freewalk (pagetable : Z) : K unit := freewalk_depth 3 pagetable.

Definition uvmfree (pagetable sz : Z) : K unit :=
  when (0 <? sz) (uvmunmap pagetable 0 (PGROUNDUP sz / PGSIZE) true) ;;;
  freewalk pagetable.

Fixpoint uvmcopy_loop (fuel : nat) (old new i sz : Z) : K Z :=
  match fuel with
  | O => fun _ => Diverge
  | S fuel =>
      if i <? sz then
        pte <- walk old i false ;;
        if pte =? 0 then panic "uvmcopy: pte should exist"
        else
          v <- gets (fun s => load64 (k_mem s) pte) ;;
          if negb (has v PTE_V) then panic "uvmcopy: page not present"
          else
            mem <- kalloc ;;
            if mem =? 0 then uvmunmap new 0 (i / PGSIZE) true ;;; ret (-1)
            else
              modify (fun s => set_k_mem (memmove (k_mem s) mem (PTE2PA v) PGSIZE) s) ;;;
              r <- mappages new i PGSIZE mem (PTE_FLAGS v) ;;
              if negb (r =? 0) then
                kfree mem ;;; uvmunmap new 0 (i / PGSIZE) true ;;; ret (-1)
              else uvmcopy_loop fuel old new (u64 (i + PGSIZE)) sz
      else ret 0
  end.

Definition uvmcopy (old new sz : Z) : K Z :=
  uvmcopy_loop (S (Z.to_nat ((sz + PGSIZE - 1) / PGSIZE))) old new 0 sz.

Definition uvmclear (pagetable va : Z) : K unit :=
  pte <- walk pagetable va false ;;
  if pte =? 0 then panic "uvmclear"
  else modify (fun s => set_k_mem (store64 (k_mem s) pte
                 (Z.land (load64 (k_mem s) pte) (u64 (Z.lnot PTE_U)))) s).

(** * Copying between the kernel and user space

    The kernel side is a byte array and an offset in it. *)

Fixpoint copyout_loop (fuel : nat) (pagetable dstva : Z) (src : bytes) (o len : Z) : K Z :=
  match fuel with
  | O => fun _ => Diverge
  | S fuel =>
      if 0 <? len then
        let va0 := PGROUNDDOWN dstva in
        if MAXVA <=? va0 then ret (-1)
        else
          pte <- walk pagetable va0 false ;;
          v <- gets (fun s => load64 (k_mem s) pte) ;;
          if (pte =? 0) || negb (has v PTE_V) || negb (has v PTE_U) || negb (has v PTE_W)
          then ret (-1)
          else
            let pa0 := PTE2PA v in
            let n := PGSIZE - (dstva - va0) in
            let n := if len <? n then len else n in
            modify (fun s => set_k_mem
              (copy_into (Z.to_nat n) src o (k_mem s) (pa0 + (dstva - va0))) s) ;;;
            copyout_loop fuel pagetable (u64 (va0 + PGSIZE)) src (o + n) (len - n)
      else ret 0
  end.

Definition copyout (pagetable dstva : Z) (src : bytes) (o len : Z) : K Z :=
  copyout_loop (3 + Z.to_nat (len / PGSIZE)) pagetable dstva src o len.

Fixpoint copyin_loop (fuel : nat) (pagetable : Z) (dst : bytes) (o srcva len : Z) : K (Z * bytes) :=
  match fuel with
  | O => fun _ => Diverge
  | S fuel =>
      if 0 <? len then
        let va0 := PGROUNDDOWN srcva in
        pa0 <- walkaddr pagetable va0 ;;
        if pa0 =? 0 then ret (-1, dst)
        else
          let n := PGSIZE - (srcva - va0) in
          let n := if len <? n then len else n in
          dst <- gets (fun s => copy_into (Z.to_nat n) (k_mem s) (pa0 + (srcva - va0)) dst o) ;;
          copyin_loop fuel pagetable dst (o + n) (u64 (va0 + PGSIZE)) (len - n)
      else ret (0, dst)
  end.

Definition copyin (pagetable : Z) (dst : bytes) (o srcva len : Z) : K (Z * bytes) :=
  copyin_loop (3 + Z.to_nat (len / PGSIZE)) pagetable dst o srcva len.

(** The inner loop of [copyinstr] over at most [n] bytes of one page; it
    returns whether it met a NUL. *)
Fixpoint copyinstr_page (n : nat) (m : bytes) (p : Z) (dst : bytes) (o : Z) : bool * bytes :=
  match n with
  | O => (false, dst)
  | S n => if load8 m p =? 0 then (true, store8 dst o 0)
           else copyinstr_page n m (p + 1) (store8 dst o (load8 m p)) (o + 1)
  end.

Fixpoint copyinstr_loop (fuel : nat) (pagetable : Z) (dst : bytes) (o srcva max : Z) : K (Z * bytes) :=
  match fuel with
  | O => fun _ => Diverge
  | S fuel =>
      if 0 <? max then
        let va0 := PGROUNDDOWN srcva in
        pa0 <- walkaddr pagetable va0 ;;
        if pa0 =? 0 then ret (-1, dst)
        else
          let n := PGSIZE - (srcva - va0) in
          let n := if max <? n then max else n in
          r <- gets (fun s => copyinstr_page (Z.to_nat n) (k_mem s) (pa0 + (srcva - va0)) dst o) ;;
          let '(got_null, dst) := r in
          if got_null then ret (0, dst)
          else copyinstr_loop fuel pagetable dst (o + n) (u64 (va0 + PGSIZE)) (max - n)
      else ret (-1, dst)
  end.

Definition copyinstr (pagetable : Z) (dst : bytes) (o srcva max : Z) : K (Z * bytes) :=
  copyinstr_loop (3 + Z.to_nat (max / PGSIZE)) pagetable dst o srcva max.

End Vm.
