(* ===== verification/PageTable.v ===== *)
(** The page table as a tree of pages in memory, and what [walk] does to it.

    [pt_rep l m root P] says that the table of level [l] at [root] consists of
    the pages [P] of the memory [m]; [pte_of l m root va] is the entry that
    maps [va], or 0 when a table on the way to it is missing: the abstract page
    table of [root] is the function [pte_of 2 m root]. *)
From S2P Require Import Prelude State Locks Kstring Kalloc Vm.

(** * Entries and indices *)

Lemma has_V_lor x : has (Z.lor x PTE_V) PTE_V = true.
Proof.
  unfold has, PTE_V. destruct (Z.eqb_spec (Z.land (Z.lor x 1) 1) 0) as [E|]; [|done].
  apply (f_equal (fun z => Z.testbit z 0)) in E.
  rewrite Z.land_spec, Z.lor_spec, Z.bits_0 in E. simpl in E.
  by rewrite orb_true_r in E.
Qed.

Lemma has_lor_l x y b : has y b = true -> has (Z.lor x y) b = true.
Proof.
  unfold has. rewrite Z.land_lor_distr_l. intros Hy.
  destruct (Z.eqb_spec (Z.land y b) 0) as [|Hne]; [done|].
  destruct (Z.eqb_spec (Z.lor (Z.land x b) (Z.land y b)) 0) as [E|]; [|done].
  apply Z.lor_eq_0_iff in E. naive_solver.
Qed.

Lemma has_0 b : has 0 b = false.
Proof. unfold has. by rewrite Z.land_0_l. Qed.

Lemma PX_eq l va : 0 <= l -> PX l va = (va / 2 ^ (12 + 9 * l)) mod 512.
Proof.
  intros. unfold PX, PXSHIFT, PGSHIFT. change 0x1FF with (Z.ones 9).
  rewrite Z.land_ones, Z.shiftr_div_pow2 by lia. done.
Qed.

Lemma PX_range l va : 0 <= PX l va < 512.
Proof.
  unfold PX. change 0x1FF with (Z.ones 9). rewrite Z.land_ones by lia.
  apply Z.mod_pos_bound. lia.
Qed.

(** The three indices of a 39-bit address determine its page. *)
Lemma PX_inj va va' :
  0 <= va < 2 * MAXVA -> 0 <= va' < 2 * MAXVA ->
  PX 0 va = PX 0 va' -> PX 1 va = PX 1 va' -> PX 2 va = PX 2 va' ->
  va / PGSIZE = va' / PGSIZE.
Proof.
  rewrite !PX_eq by lia. change MAXVA with (2 ^ 38). unfold PGSIZE.
  change (2 ^ (12 + 9 * 0)) with 4096. change (2 ^ (12 + 9 * 1)) with (4096 * 512).
  change (2 ^ (12 + 9 * 2)) with (4096 * 512 * 512).
  rewrite <- !Z.div_div by lia. intros. div_lia.
Qed.

Lemma PX_page l va va' : 0 <= l -> va / PGSIZE = va' / PGSIZE -> PX l va = PX l va'.
Proof.
  intros Hl E. rewrite !PX_eq by done. rewrite Z.pow_add_r by lia.
  change (2 ^ 12) with PGSIZE. rewrite <- !Z.div_div by (unfold PGSIZE; lia). by rewrite E.
Qed.

Lemma PTE2PA_lor pa flags :
  pa mod PGSIZE = 0 -> 0 <= pa < 2 ^ 56 -> 0 <= flags < 1024 ->
  PTE2PA (Z.lor (PA2PTE pa) flags) = pa.
Proof.
  intros Hm Hr Hf. unfold PTE2PA, PA2PTE.
  rewrite (Z.shiftr_div_pow2 pa), (Z.shiftl_mul_pow2 (pa / _)) by lia.
  change (2 ^ 12) with 4096. change (2 ^ 10) with 1024. unfold PGSIZE in Hm.
  rewrite (u64_small (pa / 4096 * 1024)) by div_lia.
  rewrite Z.shiftr_lor, !Z.shiftr_div_pow2 by lia. change (2 ^ 10) with 1024.
  rewrite Z.div_mul, (Z.div_small flags) by lia. rewrite Z.lor_0_r, Z.shiftl_mul_pow2 by lia.
  change (2 ^ 12) with 4096. rewrite u64_small; div_lia.
Qed.

Lemma PTE_FLAGS_lor pa flags : 0 <= flags < 1024 -> PTE_FLAGS (Z.lor (PA2PTE pa) flags) = flags.
Proof.
  intros Hf. unfold PTE_FLAGS. rewrite Z.land_lor_distr_l. change 0x3FF with (Z.ones 10).
  rewrite !Z.land_ones, (Z.mod_small flags) by lia.
  replace (PA2PTE pa mod 2 ^ 10) with 0; [apply Z.lor_0_l|].
  unfold PA2PTE, u64. rewrite Z.shiftl_mul_pow2 by lia. generalize (Z.shiftr pa 12). intros x.
  change (2 ^ 10) with 1024. div_lia.
Qed.

Lemma PA2PTE_bound pa : 0 <= PA2PTE pa < 2 ^ 64.
Proof. apply u64_bound. Qed.

Lemma PTE2PA_aligned pte : PTE2PA pte mod PGSIZE = 0.
Proof.
  unfold PTE2PA, u64, PGSIZE. rewrite Z.shiftl_mul_pow2 by lia.
  change (2 ^ 12) with 4096. generalize (Z.shiftr pte 10). intros. div_lia.
Qed.

Lemma lor_bound x y n : 0 <= n -> 0 <= x < 2 ^ n -> 0 <= y < 2 ^ n -> 0 <= Z.lor x y < 2 ^ n.
Proof.
  intros Hn [Hx1 Hx2] [Hy1 Hy2]. split; [apply Z.lor_nonneg; lia|].
  destruct (decide (Z.lor x y = 0)) as [->|]; [lia|].
  assert (0 <= Z.lor x y) by (apply Z.lor_nonneg; lia).
  apply Z.log2_lt_pow2; [lia|]. rewrite Z.log2_lor by lia.
  apply Z.max_lub_lt.
  - destruct (decide (x = 0)) as [->|].
    + simpl. destruct (decide (n = 0)); [|lia]. subst. assert (y = 0) by lia. subst. done.
    + apply Z.log2_lt_pow2; lia.
  - destruct (decide (y = 0)) as [->|].
    + simpl. destruct (decide (n = 0)); [|lia]. subst. assert (x = 0) by lia. subst. done.
    + apply Z.log2_lt_pow2; lia.
Qed.

(** * The tree of pages *)

Fixpoint pt_rep (l : nat) (m : bytes) (root : Z) (P : list Z) : Prop :=
  match l with
  | O => P = [root]
  | S l => exists Q : list (list Z),
      length Q = 512%nat /\ P = root :: concat Q /\
      forall (i : nat) Pi, Q !! i = Some Pi ->
        let pte := load64 m (root + 8 * Z.of_nat i) in
        if has pte PTE_V then PTE_FLAGS pte = PTE_V /\ pt_rep l m (PTE2PA pte) Pi else Pi = []
  end.

Fixpoint pte_of (l : nat) (m : bytes) (root va : Z) : Z :=
  let pte := load64 m (root + 8 * PX (Z.of_nat l) va) in
  match l with
  | O => pte
  | S l => if has pte PTE_V then pte_of l m (PTE2PA pte) va else 0
  end.

(** The address of the entry for [va]. *)
Fixpoint slot_of (l : nat) (m : bytes) (root va : Z) : option Z :=
  match l with
  | O => Some (root + 8 * PX 0 va)
  | S l' => let pte := load64 m (root + 8 * PX (Z.of_nat l) va) in
            if has pte PTE_V then slot_of l' m (PTE2PA pte) va else None
  end.

Fixpoint same_idx (l : nat) (va va' : Z) : bool :=
  (PX (Z.of_nat l) va =? PX (Z.of_nat l) va') &&
  match l with O => true | S l => same_idx l va va' end.

Definition in_pages (P : list Z) (a : Z) : Prop := exists p, p ∈ P /\ p <= a < p + PGSIZE.
Definition agree_on (P : list Z) (m m' : bytes) : Prop :=
  forall a, in_pages P a -> load8 m' a = load8 m a.
Definition agree_off (P : list Z) (m m' : bytes) : Prop :=
  forall a, ~ in_pages P a -> load8 m' a = load8 m a.

Lemma in_pages_app P Q a : in_pages (P ++ Q) a <-> in_pages P a \/ in_pages Q a.
Proof. unfold in_pages. set_solver. Qed.

Lemma load64_agree m m' root i :
  (forall a, root <= a < root + PGSIZE -> load8 m' a = load8 m a) ->
  0 <= i < 512 -> load64 m' (root + 8 * i) = load64 m (root + 8 * i).
Proof. intros E Hi. apply le_load_ext. intros a Ha. apply E. unfold PGSIZE. lia. Qed.

Lemma pt_rep_root l m root P : pt_rep l m root P -> root ∈ P.
Proof. destruct l; simpl; [intros ->; set_solver|]. intros (Q & _ & -> & _). set_solver. Qed.

Lemma agree_on_sub P P' m m' : P' ⊆ P -> agree_on P m m' -> agree_on P' m m'.
Proof. intros Hs E a (p & Hp & Ha). apply E. exists p. split; [by apply Hs|done]. Qed.

Lemma agree_on_root P m m' root :
  root ∈ P -> agree_on P m m' -> forall a, root <= a < root + PGSIZE -> load8 m' a = load8 m a.
Proof. intros Hr E a Ha. apply E. by exists root. Qed.

Lemma concat_sub (Q : list (list Z)) i Pi : Q !! i = Some Pi -> Pi ⊆ concat Q.
Proof.
  intros Hi x Hx. apply list_elem_of_In, in_concat. exists Pi.
  split; apply list_elem_of_In; [by eapply list_elem_of_lookup_2|done].
Qed.

Lemma pt_rep_agree l m m' root P :
  agree_on P m m' -> pt_rep l m root P -> pt_rep l m' root P.
Proof.
  revert root P. induction l as [|l IH]; intros root P E; [done|].
  intros (Q & HQ & -> & Hi). exists Q. split; [done|]. split; [done|].
  intros i Pi HPi. pose proof (lookup_lt_Some _ _ _ HPi) as Hlt. rewrite HQ in Hlt.
  rewrite (load64_agree m m') by
    (first [lia | apply (agree_on_root (root :: concat Q)); [set_solver|done]]).
  specialize (Hi i Pi HPi). cbv zeta in *. destruct (has _ _); [|done].
  destruct Hi as [Hfl Hi]. split; [done|]. apply IH; [|done]. eapply agree_on_sub; [|done]. apply concat_sub in HPi. set_solver.
Qed.

Lemma pt_rep_child l m root Q va :
  length Q = 512%nat ->
  exists Pi, Q !! Z.to_nat (PX (Z.of_nat (S l)) va) = Some Pi /\
    root + 8 * Z.of_nat (Z.to_nat (PX (Z.of_nat (S l)) va)) = root + 8 * PX (Z.of_nat (S l)) va /\
    (forall (H : forall (i : nat) Pi, Q !! i = Some Pi ->
        let pte := load64 m (root + 8 * Z.of_nat i) in
        if has pte PTE_V then PTE_FLAGS pte = PTE_V /\ pt_rep l m (PTE2PA pte) Pi else Pi = []),
      let pte := load64 m (root + 8 * PX (Z.of_nat (S l)) va) in
      if has pte PTE_V then PTE_FLAGS pte = PTE_V /\ pt_rep l m (PTE2PA pte) Pi else Pi = []).
Proof.
  intros HQ. pose proof (PX_range (Z.of_nat (S l)) va) as Hr.
  destruct (lookup_lt_is_Some_2 Q (Z.to_nat (PX (Z.of_nat (S l)) va))) as [Pi HPi]; [lia|].
  exists Pi. split; [done|]. rewrite Z2Nat.id by lia. split; [done|].
  intros H. specialize (H _ _ HPi). rewrite Z2Nat.id in H by lia. done.
Qed.

Lemma slot_of_agree l m m' root P va :
  agree_on P m m' -> pt_rep l m root P ->
  slot_of l m' root va = slot_of l m root va /\ pte_of l m' root va = pte_of l m root va.
Proof.
  revert root P. induction l as [|l IH]; intros root P E Hrep.
  - cbn [slot_of pte_of]. split; [done|]. apply load64_agree; [|apply PX_range].
    apply (agree_on_root P); [|done]. by apply pt_rep_root in Hrep.
  - pose proof (pt_rep_root _ _ _ _ Hrep) as Hroot.
    destruct Hrep as (Q & HQ & -> & Hi).
    destruct (pt_rep_child l m root Q va HQ) as (Pi & HPi & _ & Hc). specialize (Hc Hi).
    cbn [slot_of pte_of].
    rewrite (load64_agree m m') by (first [apply PX_range | by eapply agree_on_root]).
    cbv zeta in *. destruct (has _ _); [|done]. destruct Hc as [_ Hc].
    eapply IH; [|done]. eapply agree_on_sub; [|done]. apply concat_sub in HPi. set_solver.
Qed.

Lemma slot_of_in l m root P va r :
  pt_rep l m root P -> slot_of l m root va = Some r ->
  exists q, q ∈ P /\ q <= r /\ r + 8 <= q + PGSIZE.
Proof.
  revert root P. induction l as [|l IH]; intros root P Hrep; cbn [slot_of].
  - injection 1 as <-. exists root. split; [by apply pt_rep_root in Hrep|].
    pose proof (PX_range 0 va). unfold PGSIZE. lia.
  - destruct Hrep as (Q & HQ & -> & Hi).
    destruct (pt_rep_child l m root Q va HQ) as (Pi & HPi & _ & Hc). specialize (Hc Hi).
    cbv zeta in *. destruct (has _ _); [|done]. intros Hs.
    destruct (IH _ _ (proj2 Hc) Hs) as (q & Hq & ?). exists q. split; [|done].
    apply concat_sub in HPi. set_solver.
Qed.

Lemma pte_of_slot l m root va :
  pte_of l m root va = match slot_of l m root va with Some r => load64 m r | None => 0 end.
Proof.
  revert root. induction l as [|l IH]; intros root; cbn [pte_of slot_of]; [done|].
  cbv zeta. destruct (has _ _); [apply IH|done].
Qed.

Lemma pte_of_zero_page l m pg :
  (forall a, pg <= a < pg + PGSIZE -> load8 m a = 0) ->
  pt_rep l m pg [pg] /\ forall va, pte_of l m pg va = 0.
Proof.
  intros Hz.
  assert (Hl : forall i, 0 <= i < 512 -> load64 m (pg + 8 * i) = 0).
  { intros i Hi. rewrite (load64_agree ∅ m) by
      (first [lia | intros a Ha; rewrite Hz by done; by unfold load8; rewrite lookup_empty]).
    unfold load64. cbn [le_load]. unfold load8. by rewrite !lookup_empty. }
  destruct l; simpl.
  - split; [done|]. intros va. apply Hl, PX_range.
  - split.
    + exists (replicate 512 []). split; [by rewrite length_replicate|].
      split; [by vm_compute|]. intros i Pi [-> Hi]%lookup_replicate.
      rewrite Hl by lia. by rewrite has_0.
    + intros va. rewrite Hl by apply PX_range. by rewrite has_0.
Qed.

Section Tables.
Context `{Linker}.

Lemma page_of_unique P q q' a :
  Forall page_ok P -> q ∈ P -> q' ∈ P ->
  q <= a < q + PGSIZE -> q' <= a < q' + PGSIZE -> q = q'.
Proof.
  rewrite Forall_forall. intros Hok Hq Hq' Ha Ha'.
  destruct (Hok q Hq) as [Hm _], (Hok q' Hq') as [Hm' _].
  destruct (decide (q = q')) as [|Hne]; [done|].
  pose proof (pages_disjoint q q' a Hm Hm' Hne Ha). lia.
Qed.

Lemma not_in_pages P q a :
  Forall page_ok P -> page_ok q -> q ∉ P -> q <= a < q + PGSIZE -> ~ in_pages P a.
Proof.
  intros Hok Hq Hn Ha (p & Hp & Hpa).
  assert (q = p); [|naive_solver].
  apply (page_of_unique (q :: P) _ _ a); [by constructor|set_solver..].
Qed.

(** Writing one word inside page [q] leaves every other page alone. *)
Lemma store64_agree_on P q r v m :
  Forall page_ok P -> page_ok q -> q ∉ P -> q <= r -> r + 8 <= q + PGSIZE ->
  agree_on P m (store64 m r v).
Proof.
  intros Hok Hq Hn H1 H2 a Ha. unfold store64. rewrite load8_le_store.
  destruct (Z.leb_spec r a); [|done]. destruct (Z.ltb_spec a (r + Z.of_nat 8)); [|done].
  exfalso. apply (not_in_pages P q a); try done. lia.
Qed.

(** Writing an entry of the lowest level changes the entry of the addresses
    with the same indices and no other entry. *)
Lemma store_slot l m root P va r v :
  pt_rep l m root P -> NoDup P -> Forall page_ok P ->
  slot_of l m root va = Some r -> 0 <= v < 2 ^ 64 ->
  pt_rep l (store64 m r v) root P /\
  forall va', slot_of l (store64 m r v) root va' = slot_of l m root va' /\
    pte_of l (store64 m r v) root va' = if same_idx l va va' then v else pte_of l m root va'.
Proof.
  revert root P. induction l as [|l IH]; intros root P Hrep Hnd Hok Hs Hv.
  - cbn [slot_of] in Hs. injection Hs as <-. simpl in Hrep. subst P. split; [done|].
    intros va'. split; [done|]. cbn [pte_of same_idx]. rewrite andb_true_r.
    change (Z.of_nat 0) with 0. unfold load64, store64.
    destruct (Z.eqb_spec (PX 0 va) (PX 0 va')) as [->|Hne].
    + rewrite le_load_store_same. change (256 ^ Z.of_nat 8) with (2 ^ 64). by rewrite Z.mod_small.
    + apply le_load_store_disj. lia.
  - pose proof Hrep as Hrep0. destruct Hrep as (Q & HQ & -> & Hi).
    apply NoDup_cons in Hnd as [Hroot Hnd]. apply Forall_cons in Hok as [Hokr Hok].
    destruct (pt_rep_child l m root Q va HQ) as (Pi & HPi & _ & Hc). specialize (Hc Hi).
    cbn [slot_of] in Hs. cbv zeta in *.
    destruct (has (load64 m (root + 8 * PX (Z.of_nat (S l)) va)) PTE_V) eqn:EV; [|done].
    destruct Hc as [Hfl Hc].
    assert (HokPi : Forall page_ok Pi).
    { rewrite Forall_forall in Hok |- *. intros x Hx. apply Hok. by eapply concat_sub. }
    destruct (slot_of_in _ _ _ _ _ _ Hc Hs) as (q & Hq & Hq1 & Hq2).
    assert (Hqok : page_ok q) by (rewrite Forall_forall in HokPi; auto).
    assert (Hother : forall P', (forall x, x ∈ P' -> x ∈ root :: concat Q) -> q ∉ P' ->
              agree_on P' m (store64 m r v)).
    { intros P' Hsub Hn. apply (store64_agree_on P' q); try done.
      rewrite Forall_forall in Hok |- *. intros x Hx. apply Hsub in Hx.
      apply elem_of_cons in Hx as [->|Hx]; auto. }
    assert (Hrootagree : forall i, 0 <= i < 512 ->
              load64 (store64 m r v) (root + 8 * i) = load64 m (root + 8 * i)).
    { intros i Hb. apply load64_agree; [|done]. intros a Ha. apply (Hother [root]).
      - set_solver.
      - intros ->%list_elem_of_singleton. apply Hroot. by eapply concat_sub.
      - exists root. set_solver. }
    destruct (IH _ _ Hc (NoDup_concat_lookup _ _ _ Hnd HPi) HokPi Hs Hv) as [IHrep IHpte].
    assert (Hdis : forall j Pj, Q !! j = Some Pj -> j <> Z.to_nat (PX (Z.of_nat (S l)) va) ->
              agree_on Pj m (store64 m r v)).
    { intros j Pj Hj Hne. apply Hother; [intros x Hx; apply elem_of_cons; right; by eapply concat_sub|].
      intros Hx. by eapply (NoDup_concat_disjoint Q _ j Pi Pj q). }
    split.
    + exists Q. split; [done|]. split; [done|]. intros j Pj Hj.
      pose proof (lookup_lt_Some _ _ _ Hj) as Hlt. rewrite Hrootagree by lia.
      destruct (decide (j = Z.to_nat (PX (Z.of_nat (S l)) va))) as [->|Hne].
      * rewrite HPi in Hj. injection Hj as <-. pose proof (PX_range (Z.of_nat (S l)) va).
        rewrite Z2Nat.id by lia. cbv zeta. by rewrite EV.
      * specialize (Hi j Pj Hj). cbv zeta in *. destruct (has _ _); [|done].
        destruct Hi. split; [done|]. eapply pt_rep_agree; [by eapply Hdis|done].
    + intros va'. cbn [slot_of pte_of same_idx]. rewrite Hrootagree by apply PX_range. cbv zeta.
      destruct (Z.eqb_spec (PX (Z.of_nat (S l)) va) (PX (Z.of_nat (S l)) va')) as [Ei|Ei]; cbn [andb].
      * rewrite <- Ei, EV. apply IHpte.
      * destruct (pt_rep_child l m root Q va' HQ) as (Pj & HPj & _ & Hcj). specialize (Hcj Hi).
        cbv zeta in *.
        destruct (has (load64 m (root + 8 * PX (Z.of_nat (S l)) va')) PTE_V); [|done].
        eapply slot_of_agree; [|apply Hcj]. eapply Hdis; [done|].
        pose proof (PX_range (Z.of_nat (S l)) va). pose proof (PX_range (Z.of_nat (S l)) va'). lia.
Qed.

(** * Running [walk] *)

(** A state change confined to memory and the head of the free list. *)
Definition pm_only (s s' : kstate) : Prop :=
  s' = set_k_freelist (k_freelist s') (set_k_mem (k_mem s') s).

Lemma pm_only_refl s : pm_only s s.
Proof. by destruct s. Qed.
Lemma pm_only_trans s1 s2 s3 : pm_only s1 s2 -> pm_only s2 s3 -> pm_only s1 s3.
Proof. unfold pm_only. intros -> ->. by destruct s1. Qed.
Lemma pm_only_mem s m : pm_only s (set_k_mem m s).
Proof. by destruct s. Qed.
Lemma pm_only_held s s' : pm_only s s' -> k_held s' = k_held s.
Proof. intros ->. done. Qed.

Lemma kalloc_pm_only s fl r s' :
  LkKmem ∉ k_held s -> kmem_inv s fl -> kalloc s = Ok r s' -> pm_only s s'.
Proof.
  intros Hl Hinv E. pose proof (kalloc_spec s fl Hl Hinv) as Hs. destruct fl.
  - rewrite Hs in E. injection E as _ <-. apply pm_only_refl.
  - destruct Hs as (head & E' & _). rewrite E' in E. by injection E as _ <-.
Qed.

Lemma walk_loop_lookup l root va s :
  walk_loop l root va false s = Ok (default 0 (slot_of l (k_mem s) root va)) s.
Proof.
  revert root. induction l as [|l IH]; intros root; cbn [walk_loop slot_of]; [done|].
  krun. destruct (has _ _); [apply IH|done].
Qed.

(** Replacing one subtree of a table. *)
Lemma pt_graft l m m' root Q i Pi' va :
  length Q = 512%nat -> i = Z.to_nat (PX (Z.of_nat (S l)) va) ->
  (forall (j : nat) Pj, Q !! j = Some Pj ->
     let pte := load64 m (root + 8 * Z.of_nat j) in
     if has pte PTE_V then PTE_FLAGS pte = PTE_V /\ pt_rep l m (PTE2PA pte) Pj else Pj = []) ->
  (forall (j : nat) Pj, j <> i -> Q !! j = Some Pj ->
     load64 m' (root + 8 * Z.of_nat j) = load64 m (root + 8 * Z.of_nat j) /\ agree_on Pj m m') ->
  has (load64 m' (root + 8 * Z.of_nat i)) PTE_V = true ->
  PTE_FLAGS (load64 m' (root + 8 * Z.of_nat i)) = PTE_V ->
  pt_rep l m' (PTE2PA (load64 m' (root + 8 * Z.of_nat i))) Pi' ->
  (forall (j : nat) Pj, <[i := Pi']> Q !! j = Some Pj ->
     let pte := load64 m' (root + 8 * Z.of_nat j) in
     if has pte PTE_V then PTE_FLAGS pte = PTE_V /\ pt_rep l m' (PTE2PA pte) Pj else Pj = []) /\
  slot_of (S l) m' root va = slot_of l m' (PTE2PA (load64 m' (root + 8 * Z.of_nat i))) va /\
  forall va', pte_of (S l) m' root va' =
    if PX (Z.of_nat (S l)) va =? PX (Z.of_nat (S l)) va'
    then pte_of l m' (PTE2PA (load64 m' (root + 8 * Z.of_nat i))) va'
    else pte_of (S l) m root va'.
Proof.
  intros HQ Hi Hm Hoth HV Hfl Hrep. pose proof (PX_range (Z.of_nat (S l)) va) as Hr.
  assert (Hi' : Z.of_nat i = PX (Z.of_nat (S l)) va) by lia. split; [|split].
  - intros j Pj Hj. destruct (decide (j = i)) as [->|Hne].
    + rewrite list_lookup_insert_eq in Hj by lia. injection Hj as <-. cbv zeta. by rewrite HV.
    + rewrite list_lookup_insert_ne in Hj by done. destruct (Hoth j Pj Hne Hj) as [-> Hag].
      specialize (Hm j Pj Hj). cbv zeta in *. destruct (has _ _); [|done].
      destruct Hm. split; [done|]. by eapply pt_rep_agree.
  - cbn [slot_of]. rewrite <- Hi'. cbv zeta. by rewrite HV.
  - intros va'. cbn [pte_of]. cbv zeta.
    destruct (Z.eqb_spec (PX (Z.of_nat (S l)) va) (PX (Z.of_nat (S l)) va')) as [Ei|Ei].
    + rewrite <- Ei, <- Hi'. by rewrite HV.
    + destruct (pt_rep_child l m root Q va' HQ) as (Pj & HPj & Ej & Hcj). specialize (Hcj Hm).
      pose proof (PX_range (Z.of_nat (S l)) va') as Hr'.
      destruct (Hoth (Z.to_nat (PX (Z.of_nat (S l)) va')) Pj) as [Eload Hag]; [lia|done|].
      rewrite Ej in Eload. rewrite Eload. cbv zeta in Hcj.
      destruct (has (load64 m (root + 8 * PX (Z.of_nat (S l)) va')) PTE_V); [|done].
      eapply slot_of_agree; [done|apply Hcj].
Qed.

(** Memory that changed only inside the pages [P] agrees on other pages. *)
Lemma agree_off_agree_on P P' m m' :
  agree_off P m m' -> Forall page_ok P -> Forall page_ok P' ->
  (forall x, x ∈ P' -> x ∉ P) -> agree_on P' m m'.
Proof.
  intros Ho Hok Hok' Hd a (q & Hq & Ha). apply Ho.
  rewrite Forall_forall in Hok'. eapply not_in_pages; eauto.
Qed.

Lemma agree_off_trans P1 P2 P m1 m2 m3 :
  agree_off P1 m1 m2 -> agree_off P2 m2 m3 -> P1 ⊆ P -> P2 ⊆ P -> agree_off P m1 m3.
Proof.
  intros H1 H2 S1 S2 a Ha. rewrite H2, H1; [done|intros (p & Hp & ?)..];
    apply Ha; exists p; split; auto.
Qed.

Lemma same_outside_agree_off p m m' : same_outside p m m' -> agree_off [p] m m'.
Proof.
  intros Ho a Ha. apply Ho.
  destruct (decide (p <= a < p + PGSIZE)); [|lia]. exfalso. apply Ha. exists p. set_solver.
Qed.

Lemma kmem_inv_agree s s' fl :
  k_freelist s' = k_freelist s -> agree_on fl (k_mem s) (k_mem s') ->
  kmem_inv s fl -> kmem_inv s' fl.
Proof.
  intros Hf Hag (Hr & Hnd & Hok). split; [|done]. rewrite Hf.
  eapply freelist_rep_ext; [|done]. intros p a Hp Ha. apply Hag. by exists p.
Qed.

(** What [walk] with [alloc] promises: it takes the table pages [N] it needs
    (at most [b]) from the front of the free list and adds them to the table, changes no
    entry of the abstract page table, and returns the address of the entry for
    [va], or 0 when the free list ran out. *)
Definition walk_post (l b : nat) (root va : Z) (s : kstate) (P fl : list Z) (r : Z) (s' : kstate) : Prop :=
  exists N fl' P',
    pm_only s s' /\ (length N <= b)%nat /\ fl = N ++ fl' /\ kmem_inv s' fl' /\
    P' ≡ₚ N ++ P /\ pt_rep l (k_mem s') root P' /\
    agree_off (P ++ N) (k_mem s) (k_mem s') /\
    (forall va', pte_of l (k_mem s') root va' = pte_of l (k_mem s) root va') /\
    (r = 0 /\ fl' = [] \/ slot_of l (k_mem s') root va = Some r).

(** The step of [walk] that links a fresh table page [pg] into [root]. *)
Lemma walk_link l m root Q va pg P fl :
  length Q = 512%nat -> P = root :: concat Q ->
  NoDup (P ++ pg :: fl) -> Forall page_ok P -> page_ok pg -> Forall page_ok fl ->
  let m1 := memset (memset m pg 5 PGSIZE) pg 0 PGSIZE in
  let m2 := store64 m1 (root + 8 * PX (Z.of_nat (S l)) va) (Z.lor (PA2PTE pg) PTE_V) in
  pt_rep l m2 pg [pg] /\ (forall va', pte_of l m2 pg va' = 0) /\
  has (load64 m2 (root + 8 * PX (Z.of_nat (S l)) va)) PTE_V = true /\
  PTE_FLAGS (load64 m2 (root + 8 * PX (Z.of_nat (S l)) va)) = PTE_V /\
  PTE2PA (load64 m2 (root + 8 * PX (Z.of_nat (S l)) va)) = pg /\
  agree_off [root; pg] m m2 /\
  (forall i, 0 <= i < 512 -> i <> PX (Z.of_nat (S l)) va ->
     load64 m2 (root + 8 * i) = load64 m (root + 8 * i)).
Proof.
  intros HQ -> Hnd Hok Hpg Hfl m1 m2.
  apply Forall_cons in Hok as [Hroot Hok].
  assert (Hne : root <> pg) by (intros ->; apply NoDup_cons in Hnd; set_solver).
  pose proof (PX_range (Z.of_nat (S l)) va) as Hr.
  assert (Hin : page_ok root -> root <= root + 8 * PX (Z.of_nat (S l)) va /\
     root + 8 * PX (Z.of_nat (S l)) va + 8 <= root + PGSIZE) by (unfold PGSIZE; lia).
  assert (Hzero : forall a, pg <= a < pg + PGSIZE -> load8 m2 a = 0).
  { intros a Ha. unfold m2. rewrite (store64_agree_on [pg] root).
    - unfold m1. rewrite load8_memset by (unfold PGSIZE; lia). bool_case; lia || done.
    - by constructor.
    - done.
    - set_solver.
    - apply Hin, Hroot.
    - apply Hin, Hroot.
    - exists pg. set_solver. }
  destruct (pte_of_zero_page l m2 pg Hzero) as [Hrep Hpte].
  assert (Hload : load64 m2 (root + 8 * PX (Z.of_nat (S l)) va) = Z.lor (PA2PTE pg) PTE_V).
  { unfold m2, load64, store64. rewrite le_load_store_same. change (256 ^ Z.of_nat 8) with (2 ^ 64).
    apply Z.mod_small, lor_bound; [lia|apply PA2PTE_bound|unfold PTE_V; lia]. }
  split; [done|]. split; [done|]. rewrite Hload. split; [apply has_V_lor|].
  split; [apply PTE_FLAGS_lor; unfold PTE_V; lia|]. split.
  { apply page_ok_pos in Hpg as Hpos. apply PTE2PA_lor; [apply Hpg|unfold KERNBASE, PHYSTOP, KERNBASE in *; lia|unfold PTE_V; lia]. }
  assert (Ho1 : agree_off [pg] m m1).
  { apply same_outside_agree_off. intros a Ha. unfold m1.
    rewrite memset_page_outside by done. by apply memset_page_outside. }
  split.
  - apply (agree_off_trans [pg] [root] _ _ m1); [done| |elem_tac..].
    intros a Ha. unfold m2, store64. rewrite load8_le_store.
    destruct (_ && _) eqn:E; [|done]. exfalso. apply Ha. exists root. split; [elem_tac|].
    apply andb_true_iff in E as [E1%Z.leb_le E2%Z.ltb_lt]. specialize (Hin Hroot). lia.
  - intros i Hi Hne'. unfold m2, load64, store64. rewrite le_load_store_disj by lia.
    apply le_load_ext. intros a Ha. apply Ho1. intros (q & ->%list_elem_of_singleton & Hq).
    apply Hne. apply (page_of_unique [root; pg] _ _ a); [auto|elem_tac|elem_tac| |done].
    unfold PGSIZE. lia.
Qed.

Lemma walk_post_nil l b root va s P fl r :
  kmem_inv s fl -> pt_rep l (k_mem s) root P ->
  (r = 0 /\ fl = [] \/ slot_of l (k_mem s) root va = Some r) ->
  walk_post l b root va s P fl r s.
Proof.
  intros. exists [], fl, P. split_and!; try done; [apply pm_only_refl|simpl; lia].
Qed.

Lemma Forall_page_ok_sub P P' : Forall page_ok P -> P' ⊆ P -> Forall page_ok P'.
Proof. rewrite !Forall_forall. intros HP Hs x Hx. by apply HP, Hs. Qed.

Lemma walk_post_mono l b b' root va s P fl r s' :
  (b <= b')%nat -> walk_post l b root va s P fl r s' -> walk_post l b' root va s P fl r s'.
Proof.
  intros Hb (N & fl' & P' & ? & ? & ?). exists N, fl', P'. split_and!; try tauto. lia.
Qed.

(** The subtree of [va] was extended with the pages [N]: the whole table is. *)
Lemma walk_descend l b root va s fl Q Pi r s' :
  length Q = 512%nat ->
  (forall (j : nat) Pj, Q !! j = Some Pj ->
     let pte := load64 (k_mem s) (root + 8 * Z.of_nat j) in
     if has pte PTE_V then PTE_FLAGS pte = PTE_V /\ pt_rep l (k_mem s) (PTE2PA pte) Pj else Pj = []) ->
  Q !! Z.to_nat (PX (Z.of_nat (S l)) va) = Some Pi ->
  NoDup ((root :: concat Q) ++ fl) -> Forall page_ok (root :: concat Q) -> Forall page_ok fl ->
  has (load64 (k_mem s) (root + 8 * PX (Z.of_nat (S l)) va)) PTE_V = true ->
  walk_post l b (PTE2PA (load64 (k_mem s) (root + 8 * PX (Z.of_nat (S l)) va))) va s Pi fl r s' ->
  walk_post (S l) b root va s (root :: concat Q) fl r s'.
Proof.
  intros HQ Hm HPi Hnd Hok Hfl HV (N & fl' & Pi' & Hpm & HN & -> & Hinv & HP' & Hrep & Hoff & Hpte & Hr).
  pose proof (PX_range (Z.of_nat (S l)) va) as Hrg.
  apply NoDup_app in Hnd as (Hnd & Hd & Hndfl).
  apply NoDup_cons in Hnd as [Hroot Hnd]. apply Forall_cons in Hok as [Hokr Hok].
  apply Forall_app in Hfl as [HokN _].
  assert (HPisub : Pi ⊆ concat Q) by (by eapply concat_sub).
  assert (HokPiN : Forall page_ok (Pi ++ N)) by (apply Forall_app; eauto using Forall_page_ok_sub).
  assert (Hag : forall P', Forall page_ok P' -> (forall x, x ∈ P' -> x ∈ root :: concat Q /\ x ∉ Pi) ->
            agree_on P' (k_mem s) (k_mem s')).
  { intros P' HP'ok Hsub. apply (agree_off_agree_on (Pi ++ N)); try done.
    intros x Hx. destruct (Hsub x Hx) as [Hx1 Hx2]. rewrite elem_of_app. intros [?|Hx3]; [done|].
    apply (Hd x Hx1). apply elem_of_app. by left. }
  assert (Hroots : forall a, root <= a < root + PGSIZE -> load8 (k_mem s') a = load8 (k_mem s) a).
  { intros a Ha. apply (Hag [root]); [auto| |exists root; split; [elem_tac|done]].
    intros x ->%list_elem_of_singleton. split; [elem_tac|]. intros Hx. apply Hroot. by apply HPisub. }
  destruct (pt_graft l (k_mem s) (k_mem s') root Q (Z.to_nat (PX (Z.of_nat (S l)) va)) Pi' va)
    as (Hrep' & Hslot & Hpte'); [done|done|done| | | | |].
  - intros j Pj Hne Hj. split; [apply load64_agree; [done|]; apply lookup_lt_Some in Hj; lia|].
    apply Hag; [eapply Forall_page_ok_sub; [exact Hok|by eapply concat_sub]|].
    intros x Hx. split; [apply elem_of_cons; right; by eapply concat_sub|].
    by eapply (NoDup_concat_disjoint Q j).
  - rewrite Z2Nat.id, (load64_agree (k_mem s)) by (done || lia). done.
  - rewrite Z2Nat.id, (load64_agree (k_mem s)) by (done || lia).
    specialize (Hm _ _ HPi). cbv zeta in Hm. rewrite Z2Nat.id, HV in Hm by lia. apply Hm.
  - rewrite Z2Nat.id, (load64_agree (k_mem s)) by (done || lia). done.
  - rewrite Z2Nat.id in Hslot, Hpte' by lia.
    rewrite (load64_agree (k_mem s)) in Hslot by (done || lia).
    setoid_rewrite (load64_agree (k_mem s)) in Hpte'; [|done|lia].
    exists N, fl', (root :: concat (<[Z.to_nat (PX (Z.of_nat (S l)) va) := Pi']> Q)).
    split_and!; try done.
    + rewrite (concat_insert_perm Q _ Pi Pi' N) by done. by rewrite Permutation_middle.
    + eexists. split; [|split; [done|exact Hrep']]. by rewrite length_insert.
    + intros a Ha. apply Hoff. intros (q & Hq & Hqa). apply Ha. exists q. split; [|done].
      rewrite !elem_of_app, elem_of_cons in *. destruct Hq as [Hq|]; [left; right; by apply HPisub|by right].
    + intros va'. rewrite Hpte'.
      destruct (Z.eqb_spec (PX (Z.of_nat (S l)) va) (PX (Z.of_nat (S l)) va')) as [Ei|]; [|done].
      rewrite Hpte. cbn [pte_of]. cbv zeta. rewrite <- Ei. by rewrite HV.
    + destruct Hr as [?|Hr]; [by left|right]. by rewrite Hslot.
Qed.

Lemma link_agree_rest m m2 root pg rest :
  agree_off [root; pg] m m2 -> page_ok root -> page_ok pg -> Forall page_ok rest ->
  NoDup (root :: pg :: rest) -> agree_on rest (memset m pg 5 PGSIZE) m2.
Proof.
  intros Hoff Hroot Hpg Hrest Hnd. apply (agree_off_agree_on [root; pg]); [|auto..|].
  - intros a Ha. rewrite Hoff by done. symmetry. apply memset_page_outside.
    destruct (decide (pg <= a < pg + PGSIZE)); [|lia]. exfalso. apply Ha. exists pg.
    split; [elem_tac|done].
  - apply NoDup_cons in Hnd as [H1 Hnd]. apply NoDup_cons in Hnd as [H2 _].
    intros x Hx. rewrite !elem_of_cons in *. intros [->|[->|Hx']]; [tauto|tauto|].
    by apply elem_of_nil in Hx'.
Qed.

(** The table after a fresh page [pg] was linked into [root] by the step above,
    and then extended below [pg]. *)
Lemma walk_fresh l b root va s s3 Q pg rest r s' :
  length Q = 512%nat ->
  (forall (j : nat) Pj, Q !! j = Some Pj ->
     let pte := load64 (k_mem s) (root + 8 * Z.of_nat j) in
     if has pte PTE_V then PTE_FLAGS pte = PTE_V /\ pt_rep l (k_mem s) (PTE2PA pte) Pj else Pj = []) ->
  Q !! Z.to_nat (PX (Z.of_nat (S l)) va) = Some [] ->
  NoDup (pg :: (root :: concat Q) ++ rest) ->
  Forall page_ok (pg :: root :: concat Q) -> Forall page_ok rest ->
  has (load64 (k_mem s) (root + 8 * PX (Z.of_nat (S l)) va)) PTE_V = false ->
  (forall va', pte_of l (k_mem s3) pg va' = 0) -> pt_rep l (k_mem s3) pg [pg] ->
  has (load64 (k_mem s3) (root + 8 * PX (Z.of_nat (S l)) va)) PTE_V = true ->
  PTE_FLAGS (load64 (k_mem s3) (root + 8 * PX (Z.of_nat (S l)) va)) = PTE_V ->
  PTE2PA (load64 (k_mem s3) (root + 8 * PX (Z.of_nat (S l)) va)) = pg ->
  agree_off [root; pg] (k_mem s) (k_mem s3) ->
  (forall i, 0 <= i < 512 -> i <> PX (Z.of_nat (S l)) va ->
     load64 (k_mem s3) (root + 8 * i) = load64 (k_mem s) (root + 8 * i)) ->
  pm_only s s3 ->
  walk_post l b pg va s3 [pg] rest r s' ->
  walk_post (S l) (S b) root va s (root :: concat Q) (pg :: rest) r s'.
Proof.
  intros HQ Hm HPi Hnd Hok Hrest EV Hpte3 Hrep3 HV3 Hfl3 Hpa3 Hoff3 Hoth3 Hpm1 Hpost.
  pose proof (PX_range (Z.of_nat (S l)) va) as Hrg.
  apply NoDup_cons in Hnd as [Hpgn Hnd]. apply Forall_cons in Hok as [Hpg Hok].
  assert (HokP := Hok). apply Forall_cons in HokP as [Hokr HokQ].
  assert (Ei : root + 8 * Z.of_nat (Z.to_nat (PX (Z.of_nat (S l)) va)) =
               root + 8 * PX (Z.of_nat (S l)) va) by (rewrite Z2Nat.id by lia; reflexivity).
  destruct (pt_graft l (k_mem s) (k_mem s3) root Q (Z.to_nat (PX (Z.of_nat (S l)) va)) [pg] va)
    as (Hm3 & _ & Hpteall); [exact HQ|reflexivity|exact Hm| |by rewrite Ei|by rewrite Ei|by rewrite Ei, Hpa3|].
  { intros j Pj Hne Hj. pose proof (lookup_lt_Some _ _ _ Hj). split; [apply Hoth3; lia|].
    apply (agree_off_agree_on [root; pg]);
      [exact Hoff3|auto|eapply Forall_page_ok_sub; [exact HokQ|by eapply concat_sub]|].
    intros x Hx Hx'. assert (x ∈ concat Q) by (by eapply concat_sub).
    apply elem_of_cons in Hx' as [->|Hx'].
    - apply NoDup_app in Hnd as (Hnd & _). apply NoDup_cons in Hnd as [? _]. done.
    - apply list_elem_of_singleton in Hx' as ->. apply Hpgn. elem_tac. }
  rewrite Ei, Hpa3 in Hpteall.
  set (Q3 := <[Z.to_nat (PX (Z.of_nat (S l)) va) := [pg]]> Q) in *.
  assert (HcQ3 : concat Q3 ≡ₚ pg :: concat Q) by (by apply (concat_insert_perm Q _ [] [pg] [pg])).
  assert (Hp3 : walk_post (S l) b root va s3 (root :: concat Q3) rest r s').
  { eapply (walk_descend l b root va s3 rest Q3 [pg]).
    - unfold Q3. by rewrite length_insert.
    - exact Hm3.
    - unfold Q3. rewrite list_lookup_insert_eq by lia. reflexivity.
    - rewrite HcQ3, Permutation_swap. apply NoDup_cons. by split.
    - rewrite HcQ3. auto.
    - exact Hrest.
    - exact HV3.
    - by rewrite Hpa3. }
  destruct Hp3 as (N & fl' & P' & Hpm3 & HN & -> & Hinv' & HP' & Hrep' & Hoff' & Hpte' & Hr).
  exists (pg :: N), fl', P'.
  split; [by eapply pm_only_trans|]. split; [simpl; lia|]. split; [reflexivity|]. split; [exact Hinv'|].
  split; [rewrite HP', HcQ3, Permutation_swap; simpl; by rewrite <- Permutation_middle|].
  split; [exact Hrep'|]. split; [|split; [|exact Hr]].
  - intros a Ha. rewrite Hoff', Hoff3; [reflexivity| |];
      intros (q & Hq & Hqa); apply Ha; exists q; (split; [|exact Hqa]); revert Hq;
      rewrite ?elem_of_app, ?elem_of_cons, ?HcQ3, ?elem_of_cons, ?elem_of_nil; tauto.
  - intros va'. rewrite Hpte', Hpteall.
    destruct (Z.eqb_spec (PX (Z.of_nat (S l)) va) (PX (Z.of_nat (S l)) va')) as [Eq|]; [|reflexivity].
    rewrite Hpte3. cbn [pte_of]. cbv zeta. rewrite <- Eq. by rewrite EV.
Qed.

Lemma walk_link_state head m pg v a w s :
  let s1 := set_k_freelist head (set_k_mem m s) in
  let s2 := set_k_mem (memset (k_mem s1) pg v PGSIZE) s1 in
  set_k_mem (store64 (k_mem s2) a w) s2 =
  set_k_mem (store64 (memset m pg v PGSIZE) a w) (set_k_freelist head s).
Proof.
  cbv zeta. change (k_mem (set_k_freelist head (set_k_mem m s))) with m.
  generalize (memset m pg v PGSIZE). intros m'.
  change (k_mem (set_k_mem m' (set_k_freelist head (set_k_mem m s)))) with m'.
  generalize (store64 m' a w). by destruct s.
Qed.

Lemma link_kmem_inv s head m3 root pg rest :
  kmem_inv (set_k_freelist head (set_k_mem (memset (k_mem s) pg 5 PGSIZE) s)) rest ->
  agree_off [root; pg] (k_mem s) m3 -> page_ok root -> page_ok pg -> Forall page_ok rest ->
  NoDup (root :: pg :: rest) -> kmem_inv (set_k_mem m3 (set_k_freelist head s)) rest.
Proof.
  intros Hinv Hoff Hr Hpg Hrest Hnd. eapply kmem_inv_agree; [| |exact Hinv]; [reflexivity|].
  cbn [k_mem set_k_mem set_k_freelist]. exact (link_agree_rest _ _ _ _ _ Hoff Hr Hpg Hrest Hnd).
Qed.

Lemma walk_loop_alloc l root va s fl P :
  LkKmem ∉ k_held s -> kmem_inv s fl -> pt_rep l (k_mem s) root P ->
  NoDup (P ++ fl) -> Forall page_ok P ->
  exists r s', walk_loop l root va true s = Ok r s' /\ walk_post l l root va s P fl r s'.
Proof.
  revert root s fl P. induction l as [|l IH]; intros root s fl P Hl Hinv Hrep Hnd Hok.
  { cbn [walk_loop]. eexists _, s. split; [done|]. apply walk_post_nil; [done..|]. by right. }
  destruct Hrep as (Q & HQ & -> & Hm).
  destruct (pt_rep_child l (k_mem s) root Q va HQ) as (Pi & HPi & Ei & Hc). specialize (Hc Hm).
  pose proof Hinv as (_ & _ & Hfl).
  cbn [walk_loop]. cbv zeta in *. krun.
  destruct (has (load64 (k_mem s) (root + 8 * PX (Z.of_nat (S l)) va)) PTE_V) eqn:EV.
  - assert (HPisub : Pi ⊆ concat Q) by (by eapply concat_sub).
    destruct (IH _ s fl Pi Hl Hinv (proj2 Hc)) as (r & s' & E & Hpost).
    + apply NoDup_app in Hnd as (Hnd & Hd & Hndfl). apply NoDup_cons in Hnd as [Hroot Hnd].
      apply NoDup_app. split_and!; [by eapply NoDup_concat_lookup| |done].
      intros x Hx. apply Hd, elem_of_cons. right. by apply HPisub.
    + apply Forall_cons in Hok as [_ Hok]. eapply Forall_page_ok_sub; [exact Hok|done].
    + exists r, s'. split; [done|]. apply (walk_post_mono (S l) l); [lia|].
      eapply (walk_descend l l root va s fl Q Pi); eauto.
  - subst Pi. destruct (kalloc_total s fl Hl Hinv) as (pg & s1 & E1).
    rewrite (bind_Ok _ _ _ _ _ E1).
    pose proof (kalloc_spec s fl Hl Hinv) as Hspec. destruct fl as [|pg' rest].
    { rewrite Hspec in E1. injection E1 as <- <-. cbn [Z.eqb]. exists 0, s. split; [done|].
      apply walk_post_nil; [done|by exists Q|by left]. }
    destruct Hspec as (head & E1' & Hinv1). rewrite E1' in E1. injection E1 as <- <-.
    apply Forall_cons in Hfl as [Hpg Hrest]. pose proof (page_ok_pos _ Hpg) as Hpos.
    destruct (Z.eqb_spec pg' 0) as [->|_]; [unfold KERNBASE in Hpos; lia|]. krun.
    rewrite walk_link_state.
    destruct (walk_link l (k_mem s) root Q va pg' (root :: concat Q) rest)
      as (Hrep3 & Hpte3 & HV3 & Hfl3 & Hpa3 & Hoff3 & Hoth3); [assumption || reflexivity..|].
    revert Hrep3 Hpte3 HV3 Hfl3 Hpa3 Hoff3 Hoth3. cbv zeta.
    generalize (store64 (memset (memset (k_mem s) pg' 5 PGSIZE) pg' 0 PGSIZE)
      (root + 8 * PX (Z.of_nat (S l)) va) (Z.lor (PA2PTE pg') PTE_V)).
    intros m3 Hrep3 Hpte3 HV3 Hfl3 Hpa3 Hoff3 Hoth3.
    assert (Hnd' : NoDup (pg' :: (root :: concat Q) ++ rest)) by (by rewrite Permutation_middle).
    apply Forall_cons in Hok as Hok'. destruct Hok' as [Hokr _].
    assert (Hnd3 : NoDup (root :: pg' :: rest)).
    { eapply sublist_NoDup; [exact Hnd|]. simpl. apply sublist_skip, sublist_inserts_l. reflexivity. }
    pose proof (link_kmem_inv _ _ _ _ _ _ Hinv1 Hoff3 Hokr Hpg Hrest Hnd3) as Hinv3.
    destruct (IH pg' (set_k_mem m3 (set_k_freelist head s)) rest [pg'] Hl Hinv3 Hrep3)
      as (r & s' & E & Hpost); [|auto|].
    { eapply sublist_NoDup; [exact Hnd3|]. apply sublist_cons. reflexivity. }
    exists r, s'. split; [exact E|].
    eapply (walk_fresh l l root va s (set_k_mem m3 (set_k_freelist head s)) Q pg' rest);
      try assumption; [auto|reflexivity].
Qed.

End Tables.
