(* ===== verification/VmSpec.v ===== *)
(** Page tables under [mappages], [uvmunmap] and their callers. *)
From S2P Require Import Prelude State Locks Kstring Kalloc Vm PageTable.

Lemma MAXVA_val : MAXVA = 2 ^ 38.
Proof. reflexivity. Qed.

(** Arithmetic of virtual addresses. *)
Ltac va_lia :=
  unfold TRAPFRAME, TRAMPOLINE in *; rewrite ?MAXVA_val in *; unfold PGSIZE in *; first [lia | div_lia].

Lemma same_idx_page va va' :
  0 <= va < 2 * MAXVA -> 0 <= va' < 2 * MAXVA ->
  same_idx 2 va va' = bool_decide (va / PGSIZE = va' / PGSIZE).
Proof.
  intros Hva Hva'. cbn [same_idx]. rewrite andb_true_r.
  destruct (bool_decide_reflect (va / PGSIZE = va' / PGSIZE)) as [E|E].
  - rewrite !(PX_page _ va va') by (done || lia). by rewrite !Z.eqb_refl.
  - apply not_true_is_false. rewrite !andb_true_iff, !Z.eqb_eq.
    intros (H2 & H1 & H0). apply E. by apply PX_inj.
Qed.

Lemma pte_of_page l m root va va' :
  va / PGSIZE = va' / PGSIZE -> pte_of l m root va = pte_of l m root va'.
Proof.
  intros E. revert root. induction l as [|l IH]; intros root; cbn [pte_of];
    rewrite (PX_page _ va va') by (done || lia); [done|].
  cbv zeta. by destruct (has _ _).
Qed.

Section VmSpec.
Context `{Linker}.

(** * Well-formed page tables

    The table at [root] consists of the pages [P], none of which is on the
    free list [fl]. *)
Record pt_wf (s : kstate) (root : Z) (P fl : list Z) : Prop := {
  wf_lock : LkKmem ∉ k_held s;
  wf_free : kmem_inv s fl;
  wf_rep : pt_rep 2 (k_mem s) root P;
  wf_nodup : NoDup (P ++ fl);
  wf_ok : Forall page_ok P
}.

Definition pte (s : kstate) (root va : Z) : Z := pte_of 2 (k_mem s) root va.

(** [s'] is [s] with table pages taken from the front of the free list; memory
    outside the table is unchanged. *)
Record pt_ext (s : kstate) (root : Z) (P fl : list Z) (s' : kstate) (P' fl' : list Z) : Prop := {
  ext_only : pm_only s s';
  ext_wf : pt_wf s' root P' fl';
  ext_pages : exists N, fl = N ++ fl' /\ P' ≡ₚ N ++ P;
  ext_mem : agree_off P' (k_mem s) (k_mem s')
}.

Lemma pt_ext_refl s root P fl : pt_wf s root P fl -> pt_ext s root P fl s P fl.
Proof. intros Hw. split; [apply pm_only_refl|done|by exists []|done]. Qed.

Lemma pt_ext_sub s root P fl s' P' fl' : pt_ext s root P fl s' P' fl' -> P ⊆ P'.
Proof. intros Hx. destruct (ext_pages _ _ _ _ _ _ _ Hx) as (N & _ & E). intros x. rewrite E. elem_tac. Qed.

Lemma pt_ext_trans s1 s2 s3 root P1 P2 P3 fl1 fl2 fl3 :
  pt_ext s1 root P1 fl1 s2 P2 fl2 -> pt_ext s2 root P2 fl2 s3 P3 fl3 ->
  pt_ext s1 root P1 fl1 s3 P3 fl3.
Proof.
  intros H1 H2. split.
  - eapply pm_only_trans; [apply H1|apply H2].
  - apply H2.
  - destruct H1 as [_ _ (N1 & -> & E1) _], H2 as [_ _ (N2 & -> & E2) _].
    exists (N1 ++ N2). rewrite <- app_assoc. split; [done|].
    rewrite E2, E1, !app_assoc. by rewrite (Permutation_app_comm N2 N1).
  - eapply agree_off_trans; [apply H1|apply H2| |done]. by eapply pt_ext_sub.
Qed.

(** ** walk *)

Lemma walk_lookup s root va :
  0 <= va < MAXVA -> walk root va false s = Ok (default 0 (slot_of 2 (k_mem s) root va)) s.
Proof.
  intros Hva. unfold walk. destruct (Z.leb_spec MAXVA va); [lia|]. apply walk_loop_lookup.
Qed.

Lemma walk_alloc s root va P fl :
  pt_wf s root P fl -> 0 <= va < MAXVA ->
  exists r s' P' fl', walk root va true s = Ok r s' /\ pt_ext s root P fl s' P' fl' /\
    (forall va', pte s' root va' = pte s root va') /\
    (length fl <= 2 + length fl')%nat /\
    (r = 0 /\ fl' = [] \/ slot_of 2 (k_mem s') root va = Some r).
Proof.
  intros [Hl Hinv Hrep Hnd Hok] Hva. unfold walk. destruct (Z.leb_spec MAXVA va); [lia|].
  destruct (walk_loop_alloc 2 root va s fl P Hl Hinv Hrep Hnd Hok) as (r & s' & E & Hpost).
  destruct Hpost as (N & fl' & P' & Hpm & HN & -> & Hinv' & HP' & Hrep' & Hoff & Hpte & Hr).
  exists r, s', P', fl'. split_and!; [exact E| |exact Hpte|rewrite length_app; lia|exact Hr].
  split; [exact Hpm| |by exists N|].
  - split; [by rewrite (pm_only_held _ _ Hpm)|done|done| |].
    + rewrite HP', (Permutation_app_comm N P), <- app_assoc. exact Hnd.
    + rewrite HP'. apply Forall_app. split; [|done]. by destruct Hinv as (_ & _ & [? ?]%Forall_app).
  - intros a Ha. apply Hoff. intros (p & Hp & Hpa). apply Ha. exists p. split; [|done].
    rewrite HP'. revert Hp. rewrite !elem_of_app. tauto.
Qed.

(** Writing the entry of [va]. *)
Lemma set_pte s root P fl va r v :
  pt_wf s root P fl -> slot_of 2 (k_mem s) root va = Some r -> 0 <= v < 2 ^ 64 ->
  0 <= va < MAXVA ->
  let s' := set_k_mem (store64 (k_mem s) r v) s in
  pt_ext s root P fl s' P fl /\
  forall va', 0 <= va' < 2 * MAXVA ->
    pte s' root va' = if bool_decide (va / PGSIZE = va' / PGSIZE) then v else pte s root va'.
Proof.
  intros [Hl Hinv Hrep Hnd Hok] Hs Hv Hva s'.
  destruct (slot_of_in _ _ _ _ _ _ Hrep Hs) as (q & Hq & Hq1 & Hq2).
  pose proof Hnd as (HndP & Hd & _)%NoDup_app.
  destruct (store_slot 2 (k_mem s) root P va r v Hrep HndP Hok Hs Hv) as [Hrep' Hpte].
  assert (Hpq : page_ok q) by (by rewrite Forall_forall in Hok; apply Hok).
  assert (Hag : agree_on fl (k_mem s) (store64 (k_mem s) r v)).
  { eapply store64_agree_on; [apply Hinv|exact Hpq|by apply Hd|done..]. }
  split; [split|].
  - apply pm_only_mem.
  - split; [exact Hl| |exact Hrep'|exact Hnd|exact Hok].
    eapply kmem_inv_agree; [|exact Hag|exact Hinv]. reflexivity.
  - by exists [].
  - intros a Ha. unfold s'. cbn [k_mem set_k_mem]. unfold store64. rewrite load8_le_store.
    destruct (Z.leb_spec r a); [|done]. destruct (Z.ltb_spec a (r + Z.of_nat 8)); [|done].
    exfalso. apply Ha. exists q. split; [done|lia].
  - intros va' Hva'. destruct (Hpte va') as [_ E]. unfold pte, s'. cbn [k_mem set_k_mem].
    by rewrite E, same_idx_page by lia.
Qed.

Lemma slot_pos s root P fl va r :
  pt_wf s root P fl -> slot_of 2 (k_mem s) root va = Some r -> 0 < r.
Proof.
  intros [_ _ Hrep _ Hok] Hs. destruct (slot_of_in _ _ _ _ _ _ Hrep Hs) as (q & Hq & Hq1 & _).
  rewrite Forall_forall in Hok. pose proof (page_ok_pos q (Hok q Hq)) as Hp. unfold KERNBASE in Hp. lia.
Qed.

Lemma pte_slot s root va r : slot_of 2 (k_mem s) root va = Some r -> pte s root va = load64 (k_mem s) r.
Proof. intros E. unfold pte. by rewrite pte_of_slot, E. Qed.

(** ** mappages *)

Definition leaf (pa perm : Z) : Z := Z.lor (Z.lor (PA2PTE pa) perm) PTE_V.

Lemma leaf_bound pa perm : 0 <= perm < 1024 -> 0 <= leaf pa perm < 2 ^ 64.
Proof.
  intros Hp. unfold leaf. apply lor_bound; [lia| |unfold PTE_V; lia].
  apply lor_bound; [lia|apply PA2PTE_bound|lia].
Qed.

(** The page table after [k] pages at [a] were mapped to the pages at [pa]. *)
Definition mapped_range (s s' : kstate) (root a pa perm k : Z) : Prop :=
  forall va, 0 <= va < 2 * MAXVA -> pte s' root va =
    if (a <=? va) && (va <? a + k * PGSIZE)
    then leaf (pa + (va / PGSIZE * PGSIZE - a)) perm else pte s root va.

Lemma mapped_range_0 s s' root a pa perm :
  (forall va, pte s' root va = pte s root va) -> mapped_range s s' root a pa perm 0.
Proof. intros E va Hva. rewrite E. destruct (Z.leb_spec a va), (Z.ltb_spec va (a + 0 * PGSIZE)); (lia || done). Qed.

Lemma mapped_range_S s s1 s' root a pa perm k :
  0 <= k -> a mod PGSIZE = 0 -> 0 <= a < MAXVA ->
  (forall va, 0 <= va < 2 * MAXVA -> pte s1 root va =
     if bool_decide (a / PGSIZE = va / PGSIZE) then leaf pa perm else pte s root va) ->
  mapped_range s1 s' root (a + PGSIZE) (pa + PGSIZE) perm k ->
  mapped_range s s' root a pa perm (1 + k).
Proof.
  intros Hk Ha HaM H1 H2 va Hva. rewrite H2, H1 by done. unfold PGSIZE in *.
  case_bool_decide as E;
  destruct (Z.leb_spec (a + 4096) va), (Z.ltb_spec va (a + 4096 + k * 4096)),
    (Z.leb_spec a va), (Z.ltb_spec va (a + (1 + k) * 4096)); cbn [andb];
    try reflexivity; try (exfalso; div_lia); f_equal; div_lia.
Qed.

(** One iteration of the loop of [mappages]: the entry of [a] is written, or
    the pages for the table ran out. *)
Lemma mappages_loop_step fuel s root P fl a last pa perm :
  pt_wf s root P fl -> 0 <= a < MAXVA -> has (pte s root a) PTE_V = false -> 0 <= perm < 1024 ->
  exists s1 P1 fl1, pt_ext s root P fl s1 P1 fl1 /\ (length fl <= 2 + length fl1)%nat /\
    let run := mappages_loop (S fuel) root a last pa perm s in
    let rest := if a =? last then ret 0
                else mappages_loop fuel root (u64 (a + PGSIZE)) last (u64 (pa + PGSIZE)) perm in
    (run = Ok (-1) s1 /\ fl1 = [] /\ (forall va, pte s1 root va = pte s root va)) \/
    (run = rest s1 /\ forall va, 0 <= va < 2 * MAXVA -> pte s1 root va =
       if bool_decide (a / PGSIZE = va / PGSIZE) then leaf pa perm else pte s root va).
Proof.
  intros Hwf Ha Hun Hperm. cbn [mappages_loop]. fold (leaf pa perm).
  pose proof (leaf_bound pa perm Hperm) as Hv.
  destruct (walk_alloc s root a P fl Hwf Ha) as (r & s1 & P1 & fl1 & E1 & Hx1 & Hpte1 & Hlen & Hr).
  rewrite (bind_Ok _ _ _ _ _ E1). destruct Hr as [[-> ->]|Hr].
  { exists s1, P1, []. split; [exact Hx1|]. split; [done|]. by left. }
  pose proof (ext_wf _ _ _ _ _ _ _ Hx1) as Hwf1. pose proof (slot_pos _ _ _ _ _ _ Hwf1 Hr) as Hpos.
  destruct (Z.eqb_spec r 0) as [->|_]; [lia|].
  destruct (set_pte s1 root P1 fl1 a r _ Hwf1 Hr Hv Ha) as [Hx2 Hpte2].
  exists (set_k_mem (store64 (k_mem s1) r (leaf pa perm)) s1), P1, fl1.
  split; [by eapply pt_ext_trans|]. split; [done|]. right. split.
  - by rewrite bind_gets, <- (pte_slot _ _ _ _ Hr), Hpte1, Hun, bind_modify.
  - intros va Hva. by rewrite Hpte2, Hpte1.
Qed.

Lemma mappages_loop_spec n : forall s root P fl a pa perm,
  pt_wf s root P fl -> a mod PGSIZE = 0 -> 0 <= a -> a + Z.of_nat (S n) * PGSIZE <= MAXVA ->
  0 <= pa -> pa + Z.of_nat (S n) * PGSIZE <= 2 ^ 56 -> 0 <= perm < 1024 ->
  (forall va, a <= va < a + Z.of_nat (S n) * PGSIZE -> has (pte s root va) PTE_V = false) ->
  exists r s' P' fl' k,
    mappages_loop (S n) root a (a + Z.of_nat n * PGSIZE) pa perm s = Ok r s' /\
    pt_ext s root P fl s' P' fl' /\ mapped_range s s' root a pa perm k /\
    (length fl <= 2 * S n + length fl')%nat /\
    (r = 0 /\ k = Z.of_nat (S n) \/ r = -1 /\ 0 <= k < Z.of_nat (S n) /\ fl' = []).
Proof.
  induction n as [|n IH]; intros s root P fl a pa perm Hwf Ham Ha0 HaM Hpa HpaM Hperm Hun.
  all: assert (Hva : 0 <= a < MAXVA) by (unfold PGSIZE in *; lia).
  all: match goal with |- context [mappages_loop (S ?f) _ _ ?last] =>
    pose proof (mappages_loop_step f s root P fl a last pa perm
      Hwf Hva (Hun a ltac:(unfold PGSIZE; lia)) Hperm) as HS end;
    destruct HS as (s1 & P1 & fl1 & Hx1 & Hlen1 & [(E & -> & Hpte)|(E & Hpte)]); cbv zeta in E; rewrite E; clear E.
  1, 3: exists (-1), s1, P1, [], 0; split_and!;
    [done|done|by apply mapped_range_0|simpl in *; lia|right; split_and!; [done|lia..|done]].
  - destruct (Z.eqb_spec a (a + Z.of_nat 0 * PGSIZE)) as [_|]; [|lia].
    exists 0, s1, P1, fl1, 1. split_and!; [done|done| |lia|by left].
    apply (mapped_range_S s s1 s1 _ _ _ _ 0); [done..|]. by apply mapped_range_0.
  - destruct (Z.eqb_spec a (a + Z.of_nat (S n) * PGSIZE)) as [|_]; [unfold PGSIZE in *; lia|].
    rewrite MAXVA_val in *. rewrite !u64_small by (unfold PGSIZE in *; lia).
    destruct (IH s1 root P1 fl1 (a + PGSIZE) (pa + PGSIZE) perm)
      as (r & s' & P' & fl' & k & E & Hx & Hmr & Hlen & Hr).
    1-7: first [apply Hx1 | unfold PGSIZE in *; div_lia].
    { intros va Hva'. rewrite Hpte by (unfold PGSIZE in *; lia).
      rewrite bool_decide_eq_false_2 by (unfold PGSIZE in *; div_lia).
      apply Hun. unfold PGSIZE in *. lia. }
    exists r, s', P', fl', (1 + k). split_and!.
    + rewrite <- E. f_equal. unfold PGSIZE. lia.
    + by eapply pt_ext_trans.
    + apply (mapped_range_S s s1); try done; destruct Hr; lia.
    + lia.
    + destruct Hr as [(-> & ->)|(-> & Hk & ->)]; [left|right]; split_and!; (lia || done).
Qed.

(** ** Giving back a page that the table does not contain *)

Lemma pt_rep_pte_agree s s' root P :
  agree_on P (k_mem s) (k_mem s') -> pt_rep 2 (k_mem s) root P ->
  pt_rep 2 (k_mem s') root P /\ (forall va, pte s' root va = pte s root va).
Proof.
  intros Hag Hrep. split; [by eapply pt_rep_agree|]. intros va.
  unfold pte. by destruct (slot_of_agree 2 _ _ root P va Hag Hrep).
Qed.

Lemma kfree_mem_outside m p v : same_outside p m (store64 (memset m p 1 PGSIZE) p v).
Proof.
  intros a Ha. rewrite (store64_page_outside _ p) by done. by apply memset_page_outside.
Qed.

Lemma kfree_pt s root P fl p :
  pt_wf s root P fl -> page_ok p -> p ∉ P ++ fl ->
  exists s', kfree p s = Ok tt s' /\ pm_only s s' /\ pt_wf s' root P (p :: fl) /\
    (forall va, pte s' root va = pte s root va) /\ agree_off [p] (k_mem s) (k_mem s').
Proof.
  intros [Hl Hinv Hrep Hnd Hok] Hp [HnP Hnfl]%not_elem_of_app.
  destruct (kfree_spec s fl p Hl Hinv Hp Hnfl) as [E Hinv'].
  assert (Hoff : agree_off [p] (k_mem s) (store64 (memset (k_mem s) p 1 PGSIZE) p (k_freelist s)))
    by apply same_outside_agree_off, kfree_mem_outside.
  revert E Hinv' Hoff. generalize (store64 (memset (k_mem s) p 1 PGSIZE) p (k_freelist s)).
  intros m' E Hinv' Hoff. exists (set_k_freelist p (set_k_mem m' s)).
  destruct (pt_rep_pte_agree s (set_k_freelist p (set_k_mem m' s)) root P) as [Hrep' Hpte]; [|done|].
  { cbn [k_mem set_k_mem set_k_freelist].
    apply (agree_off_agree_on [p]); [exact Hoff|auto|exact Hok|]. intros x Hx ->%list_elem_of_singleton. done. }
  split; [exact E|]. split; [by destruct s|]. split; [|done].
  split; [done|done|done| |done]. rewrite <- Permutation_middle. apply NoDup_cons.
  split; [|done]. by apply not_elem_of_app.
Qed.

(** ** uvmunmap *)

(** The [n] pages at [a] are mapped, by leaf entries, to the frames [F]. *)
Definition frames_at (s : kstate) (root a : Z) (F : list Z) : Prop :=
  forall i p, F !! i = Some p ->
    let v := pte s root (a + Z.of_nat i * PGSIZE) in
    has v PTE_V = true /\ PTE_FLAGS v <> PTE_V /\ PTE2PA v = p.

Lemma has_slot s root va :
  has (pte s root va) PTE_V = true -> exists r, slot_of 2 (k_mem s) root va = Some r.
Proof.
  unfold pte. rewrite pte_of_slot. destruct (slot_of _ _ _ _); [eauto|]. by rewrite has_0.
Qed.

Definition freed (do_free : bool) (F : list Z) : list Z := if do_free then F else [].

(** One iteration of the loop of [uvmunmap]. *)
Lemma uvmunmap_loop_step fuel s root P fl a lim (do_free : bool) p :
  pt_wf s root P fl -> 0 <= a < MAXVA -> a < lim ->
  has (pte s root a) PTE_V = true -> PTE_FLAGS (pte s root a) <> PTE_V -> PTE2PA (pte s root a) = p ->
  (do_free = true -> page_ok p /\ p ∉ P ++ fl) ->
  exists s1,
    uvmunmap_loop (S fuel) root a lim do_free s =
      uvmunmap_loop fuel root (u64 (a + PGSIZE)) lim do_free s1 /\
    pm_only s s1 /\ pt_wf s1 root P (freed do_free [p] ++ fl) /\
    (forall va, 0 <= va < 2 * MAXVA -> pte s1 root va =
       if bool_decide (a / PGSIZE = va / PGSIZE) then 0 else pte s root va) /\
    agree_off (P ++ freed do_free [p]) (k_mem s) (k_mem s1).
Proof.
  intros Hwf Ha Hlim HV Hfl Hpa Hfree. cbn [uvmunmap_loop].
  destruct (Z.ltb_spec a lim); [|lia]. destruct (has_slot _ _ _ HV) as (r & Hr).
  rewrite (bind_Ok _ _ _ _ _ (walk_lookup s root a Ha)), Hr. cbn [default from_option id].
  pose proof (slot_pos _ _ _ _ _ _ Hwf Hr) as Hpos. destruct (Z.eqb_spec r 0) as [->|_]; [lia|].
  rewrite bind_gets, <- (pte_slot _ _ _ _ Hr), HV. cbn [negb].
  destruct (Z.eqb_spec (PTE_FLAGS (pte s root a)) PTE_V) as [|_]; [done|]. rewrite Hpa.
  assert (exists s0, when do_free (kfree p) s = Ok tt s0 /\ pm_only s s0 /\
    pt_wf s0 root P (freed do_free [p] ++ fl) /\ slot_of 2 (k_mem s0) root a = Some r /\
    (forall va, pte s0 root va = pte s root va) /\ agree_off (freed do_free [p]) (k_mem s) (k_mem s0))
    as (s0 & E0 & Hpm0 & Hwf0 & Hr0 & Hpte0 & Hoff0).
  { destruct do_free; cbn [when freed].
    - destruct Hfree as [Hp Hn]; [done|].
      destruct (kfree_pt s root P fl p Hwf Hp Hn) as (s0 & E0 & Hpm & Hwf0 & Hpte & Hoff).
      exists s0. split_and!; try done. rewrite <- Hr.
      apply not_elem_of_app in Hn as [Hn _].
      apply (slot_of_agree 2 _ _ root P a); [|apply Hwf].
      apply (agree_off_agree_on [p]); [done|auto|apply Hwf|]. by intros x Hx ->%list_elem_of_singleton.
    - exists s. split_and!; try done. apply pm_only_refl. }
  rewrite (bind_Ok _ _ _ _ _ E0), bind_modify.
  destruct (set_pte s0 root P _ a r 0 Hwf0 Hr0 ltac:(lia) Ha) as [Hx Hpte].
  exists (set_k_mem (store64 (k_mem s0) r 0) s0). split; [done|].
  split; [eapply pm_only_trans; [exact Hpm0|apply Hx]|]. split; [apply Hx|]. split.
  - intros va Hva. by rewrite Hpte, Hpte0.
  - eapply agree_off_trans; [exact Hoff0|apply Hx|elem_tac|elem_tac].
Qed.

Definition unmapped_range (s s' : kstate) (root a n : Z) : Prop :=
  forall va, 0 <= va < 2 * MAXVA -> pte s' root va =
    if (a <=? va) && (va <? a + n * PGSIZE) then 0 else pte s root va.

Lemma unmapped_range_S s s1 s' root a n :
  0 <= n -> a mod PGSIZE = 0 ->
  (forall va, 0 <= va < 2 * MAXVA -> pte s1 root va =
     if bool_decide (a / PGSIZE = va / PGSIZE) then 0 else pte s root va) ->
  unmapped_range s1 s' root (a + PGSIZE) n -> unmapped_range s s' root a (1 + n).
Proof.
  intros Hk Ha H1 H2 va Hva. rewrite H2, H1 by done. unfold PGSIZE in *.
  case_bool_decide as E;
  destruct (Z.leb_spec (a + 4096) va), (Z.ltb_spec va (a + 4096 + n * 4096)),
    (Z.leb_spec a va), (Z.ltb_spec va (a + (1 + n) * 4096)); cbn [andb];
    try reflexivity; exfalso; div_lia.
Qed.

Lemma frames_at_tail s s1 root a p F :
  a mod PGSIZE = 0 -> 0 <= a -> a + Z.of_nat (S (length F)) * PGSIZE <= MAXVA ->
  (forall va, 0 <= va < 2 * MAXVA -> pte s1 root va =
     if bool_decide (a / PGSIZE = va / PGSIZE) then 0 else pte s root va) ->
  frames_at s root a (p :: F) -> frames_at s1 root (a + PGSIZE) F.
Proof.
  intros Ha H0 HM Hpte HF i q Hq. pose proof (lookup_lt_Some _ _ _ Hq) as Hi.
  specialize (HF (S i) q Hq). cbv zeta.
  replace (a + PGSIZE + Z.of_nat i * PGSIZE) with (a + Z.of_nat (S i) * PGSIZE)
    by (unfold PGSIZE; lia).
  rewrite Hpte by (unfold PGSIZE in *; lia).
  by rewrite bool_decide_eq_false_2 by (unfold PGSIZE in *; div_lia).
Qed.

Lemma uvmunmap_loop_spec (do_free : bool) F : forall fuel s root P fl a,
  pt_wf s root P fl -> a mod PGSIZE = 0 -> 0 <= a ->
  a + Z.of_nat (length F) * PGSIZE <= MAXVA -> (length F < fuel)%nat ->
  frames_at s root a F ->
  (do_free = true -> Forall page_ok F /\ NoDup (F ++ P ++ fl)) ->
  exists s',
    uvmunmap_loop fuel root a (a + Z.of_nat (length F) * PGSIZE) do_free s = Ok tt s' /\
    pm_only s s' /\ pt_wf s' root P (rev (freed do_free F) ++ fl) /\
    unmapped_range s s' root a (Z.of_nat (length F)) /\
    agree_off (P ++ freed do_free F) (k_mem s) (k_mem s').
Proof.
  induction F as [|p F IH]; intros fuel s root P fl a Hwf Ham Ha0 HaM Hfuel HF Hfree;
    (destruct fuel as [|fuel]; [simpl in Hfuel; lia|]).
  - exists s. cbn [uvmunmap_loop length]. destruct (Z.ltb_spec a (a + Z.of_nat 0 * PGSIZE)); [lia|].
    replace (freed do_free []) with (@nil Z) by (by destruct do_free).
    split_and!; [done|apply pm_only_refl|done| |done].
    intros va Hva. destruct (Z.leb_spec a va), (Z.ltb_spec va (a + Z.of_nat 0 * PGSIZE)); (lia || done).
  - cbn [length] in *. destruct (HF 0%nat p eq_refl) as (HV & Hleaf & Hpa).
    rewrite Z.mul_0_l, Z.add_0_r in HV, Hleaf, Hpa.
    destruct (uvmunmap_loop_step fuel s root P fl a (a + Z.of_nat (S (length F)) * PGSIZE) do_free p Hwf)
      as (s1 & E1 & Hpm1 & Hwf1 & Hpte1 & Hoff1); [unfold PGSIZE in *; lia..|done|done|done| |].
    { intros ->. destruct Hfree as [Hok Hnd]; [done|]. apply Forall_cons in Hok as [Hok _].
      simpl in Hnd. apply NoDup_cons in Hnd as [Hn _]. split; [done|].
      intros Hx. apply Hn. rewrite elem_of_app. by right. }
    rewrite MAXVA_val in *. rewrite E1, u64_small by (unfold PGSIZE in *; lia).
    destruct (IH fuel s1 root P (freed do_free [p] ++ fl) (a + PGSIZE) Hwf1)
      as (s' & E & Hpm & Hwf' & Hun & Hoff).
    1-4: unfold PGSIZE in *; rewrite ?MAXVA_val; div_lia || lia.
    { eapply frames_at_tail; [done..|exact Hpte1|exact HF]. }
    { intros ->. destruct Hfree as [Hok Hnd]; [done|]. apply Forall_cons in Hok as [_ Hok].
      split; [done|]. simpl in *. by rewrite app_assoc, <- Permutation_middle, <- app_assoc. }
    exists s'. split_and!.
    + rewrite <- E. f_equal. unfold PGSIZE. lia.
    + by eapply pm_only_trans.
    + destruct do_free; simpl in *; [|done]. by rewrite <- app_assoc.
    + replace (Z.of_nat (S (length F))) with (1 + Z.of_nat (length F)) by lia.
      eapply unmapped_range_S; [lia|done|exact Hpte1|exact Hun].
    + eapply agree_off_trans; [exact Hoff1|exact Hoff|..]; destruct do_free; simpl; elem_tac.
Qed.
End VmSpec.
