(* ===== verification/Uvm.v ===== *)
(** User address spaces (the uvm functions of kernel/vm.c): a space is the page
    table's pages [P] and the frames [D] of its pages 0, 1, 2, ... *)
From S2P Require Import Prelude State Locks Kstring Kalloc Vm PageTable VmSpec.

(** The number of pages of [sz] bytes. *)
Definition pgs (sz : Z) : nat := Z.to_nat ((sz + PGSIZE - 1) / PGSIZE).

Lemma PGROUNDUP_pgs sz : 0 <= sz <= MAXVA -> PGROUNDUP sz = Z.of_nat (pgs sz) * PGSIZE.
Proof.
  rewrite MAXVA_val. intros Hsz. unfold pgs. rewrite PGROUNDUP_eq by (unfold PGSIZE; lia).
  rewrite Z2Nat.id; [|unfold PGSIZE; div_lia]. done.
Qed.

Lemma pgs_mul n : 0 <= n -> pgs (n * PGSIZE) = Z.to_nat n.
Proof. intros. unfold pgs. f_equal. unfold PGSIZE. div_lia. Qed.

Lemma pgs_mono a b : a <= b -> (pgs a <= pgs b)%nat.
Proof.
  intros. unfold pgs. assert ((a + PGSIZE - 1) / PGSIZE <= (b + PGSIZE - 1) / PGSIZE); [|lia].
  apply Z.div_le_mono; unfold PGSIZE; lia.
Qed.

Section Uvm.
Context `{Linker}.

Record uvm (s : kstate) (root : Z) (P D fl : list Z) : Prop := {
  uvm_wf : pt_wf s root P fl;
  uvm_ok : Forall page_ok D;
  uvm_nodup : NoDup (D ++ P ++ fl);
  uvm_size : Z.of_nat (length D) * PGSIZE <= TRAPFRAME;
  uvm_frames : frames_at s root 0 D;
  uvm_rest : forall va, Z.of_nat (length D) * PGSIZE <= va < TRAPFRAME -> has (pte s root va) PTE_V = false
}.

(** The entries of the pages below [lim] and from TRAPFRAME on agree. *)
Definition same_ptes (lim : Z) (s s' : kstate) (root : Z) : Prop :=
  forall va, 0 <= va < lim \/ TRAPFRAME <= va < 2 * MAXVA -> pte s' root va = pte s root va.

Lemma TRAPFRAME_MAXVA : TRAPFRAME = MAXVA - 2 * PGSIZE.
Proof. reflexivity. Qed.

(** ** kalloc and writes to frames, seen by a page table *)

Lemma frame_write s root P fl p m' :
  pt_wf s root P fl -> page_ok p -> p ∉ P ++ fl -> agree_off [p] (k_mem s) m' ->
  pt_wf (set_k_mem m' s) root P fl /\ (forall va, pte (set_k_mem m' s) root va = pte s root va).
Proof.
  intros [Hl Hinv Hrep Hnd Hok] Hp [HnP Hnfl]%not_elem_of_app Hoff.
  assert (Hag : forall L, Forall page_ok L -> p ∉ L -> agree_on L (k_mem s) (k_mem (set_k_mem m' s))).
  { intros L HL Hn. apply (agree_off_agree_on [p]); [exact Hoff|auto|exact HL|].
    by intros x Hx ->%list_elem_of_singleton. }
  destruct (pt_rep_pte_agree s (set_k_mem m' s) root P (Hag P Hok HnP) Hrep) as [Hrep' Hpte].
  split; [|exact Hpte]. split; [exact Hl| |exact Hrep'|exact Hnd|exact Hok].
  apply (kmem_inv_agree s); [reflexivity|apply Hag; [apply Hinv|exact Hnfl]|exact Hinv].
Qed.

Lemma kalloc_pt s root P fl :
  pt_wf s root P fl ->
  match fl with
  | [] => kalloc s = Ok 0 s
  | p :: rest => exists s1, kalloc s = Ok p s1 /\ pm_only s s1 /\ page_ok p /\ p ∉ P ++ rest /\
      pt_wf s1 root P rest /\ (forall va, pte s1 root va = pte s root va) /\
      agree_off [p] (k_mem s) (k_mem s1)
  end.
Proof.
  intros [Hl Hinv Hrep Hnd Hok]. pose proof (kalloc_spec s fl Hl Hinv) as Hs.
  destruct fl as [|p rest]; [done|]. destruct Hs as (head & E & Hinv').
  destruct Hinv as (_ & _ & [Hp _]%Forall_cons).
  rewrite <- Permutation_middle in Hnd. apply NoDup_cons in Hnd as [Hn Hnd].
  assert (Hoff : agree_off [p] (k_mem s) (memset (k_mem s) p 5 PGSIZE))
    by apply same_outside_agree_off, memset_page_outside.
  revert E Hinv' Hoff. generalize (memset (k_mem s) p 5 PGSIZE). intros m1 E Hinv' Hoff.
  exists (set_k_freelist head (set_k_mem m1 s)). split; [exact E|]. split; [by destruct s|].
  split; [exact Hp|]. split; [exact Hn|].
  destruct (pt_rep_pte_agree s (set_k_freelist head (set_k_mem m1 s)) root P) as [Hrep' Hpte]; [|done|].
  { apply (agree_off_agree_on [p]); [exact Hoff|auto|exact Hok|].
    intros x Hx ->%list_elem_of_singleton. apply Hn, elem_of_app. by left. }
  split; [|split; [exact Hpte|exact Hoff]].
  split; [exact Hl|exact Hinv'|exact Hrep'|exact Hnd|exact Hok].
Qed.

(** ** uvmdealloc *)

Lemma uvm_same_ptes s s' root P P' D fl fl' :
  uvm s root P D fl -> pt_wf s' root P' fl' -> NoDup (D ++ P' ++ fl') ->
  (forall va, 0 <= va < TRAPFRAME -> pte s' root va = pte s root va) -> uvm s' root P' D fl'.
Proof.
  intros Hu Hwf Hnd Hpte. pose proof (uvm_size _ _ _ _ _ Hu) as Hsz.
  split; [done|exact (uvm_ok _ _ _ _ _ Hu)|done|done| |].
  - intros i p Hi. cbv zeta. pose proof (lookup_lt_Some _ _ _ Hi).
    rewrite Hpte by (unfold PGSIZE in *; lia). by apply (uvm_frames _ _ _ _ _ Hu).
  - intros va Hva. rewrite Hpte by (unfold PGSIZE in *; lia). by apply (uvm_rest _ _ _ _ _ Hu).
Qed.

Lemma frames_at_drop s root D k :
  frames_at s root 0 D -> frames_at s root (Z.of_nat k * PGSIZE) (drop k D).
Proof.
  intros HF i p. rewrite lookup_drop. intros Hi. specialize (HF _ _ Hi). cbv zeta in *.
  by replace (Z.of_nat k * PGSIZE + Z.of_nat i * PGSIZE) with (0 + Z.of_nat (k + i) * PGSIZE) by lia.
Qed.

(** Unmapping and freeing all pages from the [k]-th on. *)
Lemma uvm_truncate s root P D fl k n :
  uvm s root P D fl -> (k <= length D)%nat -> n = Z.of_nat (length D) - Z.of_nat k ->
  exists s', uvmunmap root (Z.of_nat k * PGSIZE) n true s = Ok tt s' /\ pm_only s s' /\
    uvm s' root P (take k D) (rev (drop k D) ++ fl) /\
    unmapped_range s s' root (Z.of_nat k * PGSIZE) n /\
    agree_off (P ++ drop k D) (k_mem s) (k_mem s').
Proof.
  intros Hu Hk Hn. pose proof (uvm_size _ _ _ _ _ Hu) as Hsz. rewrite TRAPFRAME_MAXVA in Hsz.
  assert (Elen : Z.of_nat (length (drop k D)) = n) by (rewrite length_drop; lia).
  assert (Hnd : NoDup (take k D ++ drop k D ++ P ++ fl)) by (rewrite app_assoc, take_drop; exact (uvm_nodup _ _ _ _ _ Hu)).
  unfold uvmunmap. rewrite Z.mod_mul by (unfold PGSIZE; lia). cbn [Z.eqb negb].
  destruct (uvmunmap_loop_spec true (drop k D) (S (Z.to_nat n)) s root P fl (Z.of_nat k * PGSIZE))
    as (s' & E & Hpm & Hwf & Hun & Hoff).
  - exact (uvm_wf _ _ _ _ _ Hu).
  - apply Z.mod_mul. unfold PGSIZE. lia.
  - unfold PGSIZE. lia.
  - rewrite Elen. unfold PGSIZE in *. lia.
  - lia.
  - apply frames_at_drop, (uvm_frames _ _ _ _ _ Hu).
  - intros _. split; [apply Forall_drop, (uvm_ok _ _ _ _ _ Hu)|]. by apply NoDup_app in Hnd as (_ & _ & ?).
  - cbn [freed] in *. rewrite Elen in *. exists s'. rewrite MAXVA_val in *.
    rewrite u64_small by (unfold PGSIZE in *; lia). split_and!; [done|done| |done|done].
    split; [done|apply Forall_take, (uvm_ok _ _ _ _ _ Hu)| | | |].
    + rewrite <- Permutation_rev. by rewrite (Permutation_app_swap_app P).
    + rewrite length_take, TRAPFRAME_MAXVA, MAXVA_val. unfold PGSIZE in *. lia.
    + intros i p [Hi Hik]%lookup_take_Some. cbv zeta. pose proof (lookup_lt_Some _ _ _ Hi).
      rewrite Hun by (rewrite MAXVA_val; unfold PGSIZE in *; lia).
      destruct (Z.leb_spec (Z.of_nat k * PGSIZE) (0 + Z.of_nat i * PGSIZE)); [unfold PGSIZE in *; lia|].
      by apply (uvm_frames _ _ _ _ _ Hu).
    + intros va. rewrite length_take, TRAPFRAME_MAXVA. intros Hva. rewrite Hun by (unfold PGSIZE in *; lia).
      destruct ((_ <=? va) && _) eqn:Ein; [apply has_0|]. apply (uvm_rest _ _ _ _ _ Hu). rewrite TRAPFRAME_MAXVA.
      unfold PGSIZE in *. lia.
Qed.

Lemma uvm_pgs s root P D fl sz :
  uvm s root P D fl -> 0 <= sz -> pgs sz = length D -> sz <= TRAPFRAME.
Proof.
  intros Hu Hsz E. pose proof (uvm_size _ _ _ _ _ Hu). unfold pgs in E. unfold PGSIZE in *. div_lia.
Qed.

(** uvmdealloc cuts the space to [newsz] and gives the frames back. *)
Lemma uvmdealloc_spec s root P D fl oldsz newsz :
  uvm s root P D fl -> 0 <= newsz <= oldsz -> pgs oldsz = length D ->
  exists s', uvmdealloc root oldsz newsz s = Ok newsz s' /\ pm_only s s' /\
    uvm s' root P (take (pgs newsz) D) (rev (drop (pgs newsz) D) ++ fl) /\
    same_ptes (Z.of_nat (pgs newsz) * PGSIZE) s s' root /\
    agree_off (P ++ drop (pgs newsz) D) (k_mem s) (k_mem s').
Proof.
  intros Hu Hsz Hpg. pose proof (uvm_pgs _ _ _ _ _ oldsz Hu ltac:(lia) Hpg) as Hmax.
  pose proof (uvm_size _ _ _ _ _ Hu) as HD.
  rewrite TRAPFRAME_MAXVA in *. pose proof (pgs_mono newsz oldsz ltac:(lia)) as Hmono.
  assert (Hsame : forall n, pgs newsz = length D -> n = newsz ->
    exists s', (ret n : K Z) s = Ok newsz s' /\ pm_only s s' /\
    uvm s' root P (take (pgs newsz) D) (rev (drop (pgs newsz) D) ++ fl) /\
    same_ptes (Z.of_nat (pgs newsz) * PGSIZE) s s' root /\
    agree_off (P ++ drop (pgs newsz) D) (k_mem s) (k_mem s')).
  { intros n E ->. exists s. rewrite E, firstn_all, drop_all.
    split_and!; [done|apply pm_only_refl|exact Hu|done|done]. }
  unfold uvmdealloc. destruct (Z.leb_spec oldsz newsz) as [Hle|Hlt].
  { assert (oldsz = newsz) by lia. subst. by apply Hsame. }
  rewrite !PGROUNDUP_pgs, <- Z.mul_sub_distr_r, Z.div_mul by (unfold PGSIZE in *; lia).
  destruct (Z.ltb_spec (Z.of_nat (pgs newsz) * PGSIZE) (Z.of_nat (pgs oldsz) * PGSIZE)) as [Hlt2|Hge].
  - rewrite i32_small, u64_small by (rewrite MAXVA_val in *; unfold PGSIZE in *; lia). cbn [when].
    destruct (uvm_truncate s root P D fl (pgs newsz) (Z.of_nat (pgs oldsz) - Z.of_nat (pgs newsz)) Hu)
      as (s' & E & Hpm & Hu' & Hun & Hoff); [unfold PGSIZE in *; lia..|].
    rewrite (bind_Ok _ _ _ _ _ E). exists s'. split_and!; try done.
    intros va Hva. rewrite Hun by va_lia.
    destruct (Z.leb_spec (Z.of_nat (pgs newsz) * PGSIZE) va); [|done].
    destruct (Z.ltb_spec va (Z.of_nat (pgs newsz) * PGSIZE + (Z.of_nat (pgs oldsz) - Z.of_nat (pgs newsz)) * PGSIZE));
      [va_lia|done].
  - cbn [when]. rewrite bind_ret. apply Hsame; [|done]. unfold PGSIZE in *. lia.
Qed.

(** ** uvmalloc *)

(** The space of [s] grown by the frames [E]: frames and table pages come from
    the free list, nothing outside the table and the free list is written, and
    the entries of the old pages are unchanged. *)
Record grown (s : kstate) (root : Z) (P D fl : list Z) (s' : kstate) (P' E fl' : list Z) : Prop := {
  gr_only : pm_only s s';
  gr_uvm : uvm s' root P' (D ++ E) fl';
  gr_pages : P' ++ E ++ fl' ≡ₚ P ++ fl;
  gr_mem : agree_off (P ++ fl) (k_mem s) (k_mem s');
  gr_ptes : same_ptes (Z.of_nat (length D) * PGSIZE) s s' root
}.

(** The frames [E] at page [n] are mapped with [perm] and are full of zeros. *)
Definition zero_frames (s : kstate) (root n perm : Z) (E : list Z) : Prop :=
  forall i p, E !! i = Some p ->
    pte s root ((n + Z.of_nat i) * PGSIZE) = leaf p perm /\
    forall a, p <= a < p + PGSIZE -> load8 (k_mem s) a = 0.

Lemma pt_ext_Permutation s root P fl s' P' fl' :
  pt_ext s root P fl s' P' fl' -> P' ++ fl' ≡ₚ P ++ fl.
Proof.
  intros Hx. destruct (ext_pages _ _ _ _ _ _ _ Hx) as (N & -> & ->).
  by rewrite (Permutation_app_comm N P), <- app_assoc.
Qed.

(** Mapping the page [p] at [a]. *)
Lemma mappages_one s root P fl a p perm :
  pt_wf s root P fl -> a mod PGSIZE = 0 -> 0 <= a -> a + PGSIZE <= MAXVA ->
  0 <= p -> p + PGSIZE <= 2 ^ 56 -> 0 <= perm < 1024 -> has (pte s root a) PTE_V = false ->
  exists r s' P' fl', mappages root a PGSIZE p perm s = Ok r s' /\
    pt_ext s root P fl s' P' fl' /\ (length fl <= 2 + length fl')%nat /\
    (r = 0 /\ (forall va, 0 <= va < 2 * MAXVA -> pte s' root va =
        if bool_decide (a / PGSIZE = va / PGSIZE) then leaf p perm else pte s root va) \/
     r = -1 /\ fl' = [] /\ (forall va, 0 <= va < 2 * MAXVA -> pte s' root va = pte s root va)).
Proof.
  intros Hwf Ha Ha0 HaM Hp HpM Hperm Hun.
  destruct (mappages_loop_spec 0 s root P fl a p perm)
    as (r & s' & P' & fl' & k & E & Hx & Hmr & Hlen & Hr); try done.
  - intros va Hva. rewrite <- Hun. f_equal. apply pte_of_page. unfold PGSIZE in *. div_lia.
  - exists r, s', P', fl'. split_and!; [|done|lia|].
    + unfold mappages. rewrite Ha. change (PGSIZE mod PGSIZE) with 0. change (PGSIZE =? 0) with false.
      cbn [Z.eqb negb]. change (Z.to_nat (PGSIZE / PGSIZE)) with 1%nat.
      rewrite u64_small by (rewrite MAXVA_val in *; unfold PGSIZE in *; lia). rewrite <- E. f_equal. lia.
    + destruct Hr as [[-> ->]|(-> & Hk & ->)]; [left|right].
      * split; [done|]. intros va Hva. rewrite Hmr by done. unfold PGSIZE in *.
        case_bool_decide; destruct (Z.leb_spec a va), (Z.ltb_spec va (a + Z.of_nat 1 * 4096));
          cbn [andb]; try reflexivity; try (exfalso; div_lia). f_equal. div_lia.
      * split; [done|]. split; [done|]. intros va Hva. rewrite Hmr by done.
        assert (k = 0) as -> by lia. destruct (Z.leb_spec a va), (Z.ltb_spec va (a + 0 * PGSIZE)); (lia || done).
Qed.

Lemma leaf_has_V pa perm : has (leaf pa perm) PTE_V = true.
Proof. apply has_V_lor. Qed.

Lemma leaf_PA p perm : page_ok p -> 0 <= perm < 1024 -> PTE2PA (leaf p perm) = p.
Proof.
  intros Hp Hperm. pose proof (page_ok_pos p Hp) as Hpos. unfold leaf. rewrite <- Z.lor_assoc.
  apply PTE2PA_lor; [apply Hp|unfold KERNBASE, PHYSTOP in *; unfold KERNBASE in *; lia|].
  apply (lor_bound _ _ 10); [lia..|unfold PTE_V; lia].
Qed.

Lemma leaf_flags p perm : 0 <= perm < 1024 -> PTE_FLAGS (leaf p perm) = Z.lor perm PTE_V.
Proof.
  intros Hperm. unfold leaf. rewrite <- Z.lor_assoc. apply PTE_FLAGS_lor.
  apply (lor_bound _ _ 10); [lia..|unfold PTE_V; lia].
Qed.

(** The user part of the table after page [n] was mapped to the frame [p]. *)
Lemma uvm_snoc s s' root P P' D fl fl' p perm :
  uvm s root P D fl -> pt_wf s' root P' fl' -> NoDup (D ++ p :: P' ++ fl') -> page_ok p ->
  Z.of_nat (S (length D)) * PGSIZE <= TRAPFRAME -> 0 <= perm < 1024 -> Z.lor perm PTE_V <> PTE_V ->
  (forall va, 0 <= va < 2 * MAXVA -> pte s' root va =
     if bool_decide (Z.of_nat (length D) = va / PGSIZE) then leaf p perm else pte s root va) ->
  uvm s' root P' (D ++ [p]) fl'.
Proof.
  intros Hu Hwf Hnd Hp Hsz Hperm Hfl Hpte. rewrite TRAPFRAME_MAXVA in Hsz. split.
  - exact Hwf.
  - apply Forall_app. split; [exact (uvm_ok _ _ _ _ _ Hu)|auto].
  - rewrite <- app_assoc. exact Hnd.
  - rewrite length_app, TRAPFRAME_MAXVA. simpl. lia.
  - intros i q Hi. cbv zeta. pose proof (lookup_lt_Some _ _ _ Hi) as Hlt.
    rewrite length_app in Hlt. simpl in Hlt. rewrite Hpte by (unfold PGSIZE in *; lia).
    apply lookup_snoc_Some in Hi as [[Hi Hq]|[-> ->]].
    + rewrite bool_decide_eq_false_2 by (unfold PGSIZE; div_lia).
      by apply (uvm_frames _ _ _ _ _ Hu).
    + rewrite bool_decide_eq_true_2 by (unfold PGSIZE; div_lia).
      by rewrite leaf_has_V, leaf_flags, leaf_PA.
  - intros va. rewrite length_app, TRAPFRAME_MAXVA. simpl. intros Hva. rewrite Hpte by (unfold PGSIZE in *; lia).
    rewrite bool_decide_eq_false_2 by (unfold PGSIZE in *; div_lia).
    apply (uvm_rest _ _ _ _ _ Hu). rewrite TRAPFRAME_MAXVA. unfold PGSIZE in *. lia.
Qed.

(** One iteration of the loops of [uvmalloc] and [uvmcopy]: take a frame, fill
    it, map it after the last page; on either failure nothing is kept but the
    table pages. *)
Section AddPage.
Variables (fill : bytes -> Z -> bytes) (content : Z -> Z) (perm : Z) (fail next : K Z).
Hypothesis fill_outside : forall m p, same_outside p m (fill m p).
Hypothesis perm_range : 0 <= perm < 1024.
Hypothesis perm_leaf : Z.lor perm PTE_V <> PTE_V.

Definition add_page (root a : Z) : K Z :=
  mem <- kalloc ;;
  if mem =? 0 then fail
  else
    modify (fun s => set_k_mem (fill (k_mem s) mem) s) ;;;
    r <- mappages root a PGSIZE mem perm ;;
    if negb (r =? 0) then kfree mem ;;; fail else next.

Definition added (s : kstate) (root : Z) (P D fl : list Z) : Prop :=
  let a := Z.of_nat (length D) * PGSIZE in
  exists s1 P1 fl1,
    (exists p, add_page root a s = next s1 /\ grown s root P D fl s1 P1 [p] fl1 /\
       (length fl <= 3 + length fl1)%nat /\ pte s1 root a = leaf p perm /\
       forall i, 0 <= i < PGSIZE -> load8 (k_mem s1) (p + i) = content i) \/
    (add_page root a s = fail s1 /\ grown s root P D fl s1 P1 [] fl1 /\ (length fl <= 3)%nat).

Lemma grown_nil s root P D fl s' P' fl' :
  uvm s root P D fl -> pm_only s s' -> pt_wf s' root P' fl' -> P' ++ fl' ≡ₚ P ++ fl ->
  agree_off (P ++ fl) (k_mem s) (k_mem s') ->
  (forall va, 0 <= va < 2 * MAXVA -> pte s' root va = pte s root va) ->
  grown s root P D fl s' P' [] fl'.
Proof.
  intros Hu Hpm Hwf HP Hoff Hpte. split; [done| |done|done|].
  - rewrite app_nil_r. eapply uvm_same_ptes; [exact Hu|exact Hwf| |].
    + rewrite HP. exact (uvm_nodup _ _ _ _ _ Hu).
    + intros va Hva. apply Hpte. va_lia.
  - pose proof (uvm_size _ _ _ _ _ Hu) as Hsz. intros va Hva. apply Hpte. va_lia.
Qed.

Lemma NoDup_frame (D P fl : list Z) p : NoDup (D ++ P ++ p :: fl) -> NoDup (D ++ p :: P ++ fl).
Proof. by rewrite (Permutation_middle P fl p). Qed.

(** The filled frame [p] is mapped, or given back. *)
Lemma map_frame s s2 root P D p rest :
  uvm s root P D (p :: rest) -> Z.of_nat (S (length D)) * PGSIZE <= TRAPFRAME ->
  page_ok p -> p ∉ P ++ rest ->
  (forall i, 0 <= i < PGSIZE -> load8 (k_mem s2) (p + i) = content i) ->
  agree_off [p] (k_mem s) (k_mem s2) -> pm_only s s2 ->
  (forall va, pte s2 root va = pte s root va) -> pt_wf s2 root P rest ->
  let a := Z.of_nat (length D) * PGSIZE in
  let run := r <- mappages root a PGSIZE p perm ;; if negb (r =? 0) then kfree p ;;; fail else next in
  exists s1 P1 fl1,
    (exists p', run s2 = next s1 /\ grown s root P D (p :: rest) s1 P1 [p'] fl1 /\
       (length (p :: rest) <= 3 + length fl1)%nat /\ pte s1 root a = leaf p' perm /\
       forall i, 0 <= i < PGSIZE -> load8 (k_mem s1) (p' + i) = content i) \/
    (run s2 = fail s1 /\ grown s root P D (p :: rest) s1 P1 [] fl1 /\ (length (p :: rest) <= 3)%nat).
Proof.
  intros Hu Hsz Hp Hn Hc Hoff Hpm Hpte Hwf a run. rewrite TRAPFRAME_MAXVA in Hsz.
  assert (Hun : has (pte s2 root a) PTE_V = false).
  { rewrite Hpte. apply (uvm_rest _ _ _ _ _ Hu). rewrite TRAPFRAME_MAXVA. unfold a, PGSIZE in *. lia. }
  pose proof (page_ok_pos p Hp) as Hpos. unfold PHYSTOP, KERNBASE in Hpos.
  destruct (mappages_one s2 root P rest a p perm Hwf)
    as (r & s3 & P3 & fl3 & E3 & Hx & Hlen & Hr); try done; [apply Z.mod_mul; done|unfold a, PGSIZE in *; lia..|].
  unfold run. rewrite (bind_Ok _ _ _ _ _ E3). pose proof (pt_ext_Permutation _ _ _ _ _ _ _ Hx) as HPerm.
  assert (Hn3 : p ∉ P3 ++ fl3) by (by rewrite HPerm).
  assert (HP3 : P3 ⊆ P ++ p :: rest).
  { intros x Hx3. rewrite <- (Permutation_middle P rest p). apply elem_of_cons. right.
    rewrite <- HPerm. apply elem_of_app. by left. }
  assert (Hoff3 : agree_off (P ++ p :: rest) (k_mem s) (k_mem s3)).
  { eapply agree_off_trans; [exact Hoff|exact (ext_mem _ _ _ _ _ _ _ Hx)|elem_tac|exact HP3]. }
  assert (Hpm3 : pm_only s s3) by (eapply pm_only_trans; [exact Hpm|apply Hx]).
  pose proof (ext_wf _ _ _ _ _ _ _ Hx) as Hwf3.
  destruct Hr as [(-> & Hpte3)|(-> & -> & Hpte3)]; cbn [Z.eqb negb].
  - exists s3, P3, fl3. left. exists p. split; [reflexivity|].
    assert (Hpte3' : forall va, 0 <= va < 2 * MAXVA -> pte s3 root va =
      if bool_decide (Z.of_nat (length D) = va / PGSIZE) then leaf p perm else pte s root va).
    { intros va Hva. rewrite Hpte3, Hpte by done. unfold a. by rewrite Z.div_mul. }
    assert (Hu3 : uvm s3 root P3 (D ++ [p]) fl3).
    { eapply uvm_snoc; [exact Hu|exact Hwf3| |done|rewrite TRAPFRAME_MAXVA; lia|done|done|exact Hpte3'].
      rewrite HPerm. apply NoDup_frame. exact (uvm_nodup _ _ _ _ _ Hu). }
    split; [split; [done|exact Hu3| |done|]|split_and!].
    + simpl. by rewrite <- (Permutation_middle P3 fl3), <- (Permutation_middle P rest), HPerm.
    + intros va Hva. rewrite Hpte3' by va_lia.
      by rewrite bool_decide_eq_false_2 by va_lia.
    + simpl. lia.
    + rewrite Hpte3' by (unfold a, PGSIZE in *; lia).
      by rewrite bool_decide_eq_true_2 by (unfold a, PGSIZE; div_lia).
    + intros i Hi. rewrite <- Hc by done. apply (ext_mem _ _ _ _ _ _ _ Hx).
      apply (not_in_pages P3 p); [apply Hwf3|done| |lia]. intros Hx3. apply Hn3, elem_of_app. by left.
  - destruct (kfree_pt s3 root P3 [] p Hwf3 Hp Hn3) as (s4 & E4 & Hpm4 & Hwf4 & Hpte4 & Hoff4).
    exists s4, P3, [p]. right. rewrite (bind_Ok _ _ _ _ _ E4). split; [reflexivity|].
    split; [|simpl in *; lia]. apply grown_nil; [exact Hu| |exact Hwf4| | |].
    + by eapply pm_only_trans.
    + by rewrite <- (Permutation_middle P rest), <- (Permutation_middle P3 []), HPerm.
    + eapply agree_off_trans; [exact Hoff3|exact Hoff4|done|elem_tac].
    + intros va Hva. by rewrite Hpte4, Hpte3, Hpte.
Qed.

Lemma add_page_spec s root P D fl :
  uvm s root P D fl -> Z.of_nat (S (length D)) * PGSIZE <= TRAPFRAME ->
  (forall m p i, p ∈ fl -> agree_off [p] (k_mem s) m -> 0 <= i < PGSIZE ->
     load8 (fill m p) (p + i) = content i) ->
  added s root P D fl.
Proof.
  intros Hu Hsz Hcont. unfold added, add_page. pose proof (uvm_wf _ _ _ _ _ Hu) as Hwf.
  pose proof (kalloc_pt s root P fl Hwf) as Hk. destruct fl as [|p rest].
  { exists s, P, []. right. rewrite (bind_Ok _ _ _ _ _ Hk). cbn [Z.eqb]. split; [done|].
    split; [|simpl; lia]. by apply grown_nil; [..|apply pm_only_refl| | | |]. }
  destruct Hk as (s1 & E1 & Hpm1 & Hp & Hn & Hwf1 & Hpte1 & Hoff1).
  rewrite (bind_Ok _ _ _ _ _ E1). pose proof (page_ok_pos p Hp) as Hpos.
  destruct (Z.eqb_spec p 0) as [->|_]; [unfold KERNBASE in Hpos; lia|]. rewrite bind_modify.
  destruct (frame_write s1 root P rest p (fill (k_mem s1) p) Hwf1 Hp Hn) as [Hwf2 Hpte2];
    [apply same_outside_agree_off, fill_outside|].
  assert (Hc : forall i, 0 <= i < PGSIZE -> load8 (fill (k_mem s1) p) (p + i) = content i)
    by (intros i; apply Hcont; [elem_tac|exact Hoff1]).
  assert (Hoff2 : agree_off [p] (k_mem s) (fill (k_mem s1) p)).
  { eapply agree_off_trans; [exact Hoff1|apply same_outside_agree_off, fill_outside|done|done]. }
  assert (Hpm2 : pm_only s (set_k_mem (fill (k_mem s1) p) s1))
    by (eapply pm_only_trans; [exact Hpm1|apply pm_only_mem]).
  change (fill (k_mem s1) p) with (k_mem (set_k_mem (fill (k_mem s1) p) s1)) in Hc, Hoff2.
  assert (Hpte : forall va, pte (set_k_mem (fill (k_mem s1) p) s1) root va = pte s root va)
    by (intros va; by rewrite Hpte2, Hpte1).
  revert Hc Hoff2 Hpm2 Hpte Hwf2. generalize (set_k_mem (fill (k_mem s1) p) s1).
  intros s2 Hc Hoff2 Hpm2 Hpte Hwf2. by apply map_frame.
Qed.

End AddPage.

Lemma grown_trans s s1 s' root P P1 P' D E1 E fl fl1 fl' :
  grown s root P D fl s1 P1 E1 fl1 -> grown s1 root P1 (D ++ E1) fl1 s' P' E fl' ->
  grown s root P D fl s' P' (E1 ++ E) fl'.
Proof.
  intros [Hpm Hu HP Hoff Hpte] [Hpm' Hu' HP' Hoff' Hpte']. split.
  - by eapply pm_only_trans.
  - by rewrite app_assoc.
  - rewrite <- HP, (Permutation_app_swap_app P1 E1), <- HP', <- app_assoc.
    apply Permutation_app_swap_app.
  - eapply agree_off_trans; [exact Hoff|exact Hoff'|done|]. intros x Hx. rewrite <- HP.
    rewrite !elem_of_app in *. tauto.
  - intros va Hva. rewrite Hpte', Hpte; [done|done|]. rewrite length_app. unfold PGSIZE in *. lia.
Qed.

(** A frame of the space keeps its contents while the space grows. *)
Lemma grown_frame s root P D fl s' P' E fl' p a :
  uvm s root P D fl -> grown s root P D fl s' P' E fl' -> p ∈ D -> p <= a < p + PGSIZE ->
  load8 (k_mem s') a = load8 (k_mem s) a.
Proof.
  intros Hu Hg Hp Ha. apply (gr_mem _ _ _ _ _ _ _ _ _ Hg).
  pose proof (uvm_ok _ _ _ _ _ Hu) as Hok. rewrite Forall_forall in Hok.
  apply (not_in_pages _ p); [|by apply Hok| |done].
  - apply Forall_app. split; [apply (uvm_wf _ _ _ _ _ Hu)|apply (uvm_wf _ _ _ _ _ Hu)].
  - pose proof (uvm_nodup _ _ _ _ _ Hu) as (_ & Hd & _)%NoDup_app. by apply Hd.
Qed.

(** What is left when the growth from [k0] pages fails. *)
Record undone (k0 : nat) (s : kstate) (root : Z) (P D fl : list Z) (s' : kstate) (P' fl' : list Z) : Prop := {
  un_only : pm_only s s';
  un_uvm : uvm s' root P' (take k0 D) fl';
  un_pages : P' ++ fl' ≡ₚ P ++ drop k0 D ++ fl;
  un_mem : agree_off (P ++ drop k0 D ++ fl) (k_mem s) (k_mem s');
  un_ptes : same_ptes (Z.of_nat k0 * PGSIZE) s s' root
}.

Lemma undone_grown k0 s s1 s' root P P1 P' D E fl fl1 fl' :
  (k0 <= length D)%nat -> grown s root P D fl s1 P1 E fl1 ->
  undone k0 s1 root P1 (D ++ E) fl1 s' P' fl' -> undone k0 s root P D fl s' P' fl'.
Proof.
  intros Hk [Hpm Hu HP Hoff Hpte] [Hpm' Hu' HP' Hoff' Hpte'].
  rewrite take_app_le in Hu' by done. rewrite drop_app_le, <- app_assoc in HP', Hoff' by done.
  assert (EP : P1 ++ drop k0 D ++ E ++ fl1 ≡ₚ P ++ drop k0 D ++ fl).
  { by rewrite (Permutation_app_swap_app P1), HP, (Permutation_app_swap_app (drop k0 D)). }
  split; [by eapply pm_only_trans|done|by rewrite HP'| |].
  - eapply agree_off_trans; [exact Hoff|exact Hoff'| |].
    + intros x. rewrite !elem_of_app. tauto.
    + intros x. by rewrite EP.
  - intros va Hva. rewrite Hpte', Hpte; [done| |done]. unfold PGSIZE in *. lia.
Qed.

Lemma undone_dealloc k0 s root P D fl s1 P1 fl1 :
  grown s root P D fl s1 P1 [] fl1 -> (k0 <= length D)%nat ->
  exists s' P' fl', uvmdealloc root (Z.of_nat (length D) * PGSIZE) (Z.of_nat k0 * PGSIZE) s1
      = Ok (Z.of_nat k0 * PGSIZE) s' /\ undone k0 s root P D fl s' P' fl'.
Proof.
  intros Hg Hk. pose proof (gr_uvm _ _ _ _ _ _ _ _ _ Hg) as Hu. rewrite app_nil_r in Hu.
  destruct (uvmdealloc_spec s1 root P1 D fl1 (Z.of_nat (length D) * PGSIZE) (Z.of_nat k0 * PGSIZE) Hu)
    as (s' & E & Hpm & Hu' & Hpte & Hoff); [unfold PGSIZE; lia|rewrite pgs_mul; lia|].
  rewrite pgs_mul, Nat2Z.id in * by lia.
  exists s', P1, (rev (drop k0 D) ++ fl1). split; [exact E|].
  eapply undone_grown; [done|exact Hg|]. rewrite app_nil_r.
  split; [done|done|by rewrite <- Permutation_rev| |done].
  eapply agree_off_trans; [exact Hoff|done| |done]. elem_tac.
Qed.

Lemma zero_frames_cons s s' root D P1 fl1 p P' E fl' perm :
  uvm s root P1 (D ++ [p]) fl1 -> grown s root P1 (D ++ [p]) fl1 s' P' E fl' ->
  pte s root (Z.of_nat (length D) * PGSIZE) = leaf p perm ->
  (forall i, 0 <= i < PGSIZE -> load8 (k_mem s) (p + i) = 0) ->
  zero_frames s' root (Z.of_nat (length (D ++ [p]))) perm E ->
  zero_frames s' root (Z.of_nat (length D)) perm (p :: E).
Proof.
  intros Hu Hg Hpte Hz Hzf [|i] q Hq.
  - injection Hq as <-. rewrite Z.add_0_r. split.
    + rewrite <- Hpte. apply (gr_ptes _ _ _ _ _ _ _ _ _ Hg). rewrite length_app. unfold PGSIZE. simpl. lia.
    + intros a Ha. rewrite (grown_frame _ _ _ _ _ _ _ _ _ p a Hu Hg) by (elem_tac || done).
      replace a with (p + (a - p)) by lia. apply Hz. lia.
  - destruct (Hzf i q Hq) as [Hp Hzi]. split; [|done]. rewrite <- Hp. f_equal.
    rewrite length_app. simpl. lia.
Qed.

Lemma uvmalloc_loop_eq fuel root a start newsz xperm s :
  a < newsz ->
  uvmalloc_loop (S fuel) root a start newsz xperm s =
  add_page (fun m p => memset m p 0 PGSIZE) (Z.lor (Z.lor PTE_R PTE_U) xperm)
    (uvmdealloc root a start ;;; ret 0)
    (uvmalloc_loop fuel root (u64 (a + PGSIZE)) start newsz xperm) root a s.
Proof. intros Ha. cbn [uvmalloc_loop]. by destruct (Z.ltb_spec a newsz); [|lia]. Qed.

Lemma xperm_leaf xperm : 0 <= xperm < 1024 ->
  0 <= Z.lor (Z.lor PTE_R PTE_U) xperm < 1024 /\
  Z.lor (Z.lor (Z.lor PTE_R PTE_U) xperm) PTE_V <> PTE_V.
Proof.
  intros Hx. split; [apply (lor_bound _ _ 10); [lia|by split|lia]|].
  intros E. apply (f_equal (fun z => Z.testbit z 1)) in E.
  by rewrite !Z.lor_spec in E.
Qed.

Lemma uvmalloc_loop_spec n : forall s root P D fl k0 newsz xperm,
  uvm s root P D fl -> (k0 <= length D)%nat -> newsz <= TRAPFRAME ->
  pgs newsz = (n + length D)%nat -> 0 <= xperm < 1024 ->
  exists r s' P' fl',
    uvmalloc_loop (S n) root (Z.of_nat (length D) * PGSIZE) (Z.of_nat k0 * PGSIZE) newsz xperm s = Ok r s' /\
    ((exists E, r = newsz /\ grown s root P D fl s' P' E fl' /\ length (D ++ E) = pgs newsz /\
        zero_frames s' root (Z.of_nat (length D)) (Z.lor (Z.lor PTE_R PTE_U) xperm) E) \/
     (r = 0 /\ undone k0 s root P D fl s' P' fl' /\ (length fl <= 3 * n)%nat)).
Proof.
  induction n as [|n IH]; intros s root P D fl k0 newsz xperm Hu Hk Hnew Hpg Hx.
  - cbn [uvmalloc_loop]. destruct (Z.ltb_spec (Z.of_nat (length D) * PGSIZE) newsz).
    { unfold pgs, PGSIZE in *. div_lia. }
    exists newsz, s, P, fl. split; [done|]. left. exists []. rewrite app_nil_r.
    split_and!; [done| |done|intros i q; by rewrite lookup_nil].
    apply grown_nil; [done|apply pm_only_refl|exact (uvm_wf _ _ _ _ _ Hu)|done..].
  - assert (Hlt : Z.of_nat (length D) * PGSIZE < newsz) by (unfold pgs, PGSIZE in *; div_lia).
    assert (Hsz : Z.of_nat (S (length D)) * PGSIZE <= TRAPFRAME).
    { unfold TRAPFRAME, TRAMPOLINE in *. rewrite MAXVA_val in *. unfold PGSIZE in *. lia. }
    rewrite uvmalloc_loop_eq by done. destruct (xperm_leaf xperm Hx) as [Hperm Hleaf].
    destruct (add_page_spec (fun m p => memset m p 0 PGSIZE) (fun _ => 0)
      (Z.lor (Z.lor PTE_R PTE_U) xperm)
      (uvmdealloc root (Z.of_nat (length D) * PGSIZE) (Z.of_nat k0 * PGSIZE) ;;; ret 0)
      (uvmalloc_loop (S n) root (u64 (Z.of_nat (length D) * PGSIZE + PGSIZE)) (Z.of_nat k0 * PGSIZE) newsz xperm)
      ltac:(intros; apply memset_page_outside) Hperm Hleaf s root P D fl Hu Hsz)
      as (s1 & P1 & fl1 & [(p & E & Hg & Hlen & Hpte & Hz)|(E & Hg & Hlen)]).
    { intros m p i _ _ Hi. rewrite load8_memset by (unfold PGSIZE; lia). bool_case; lia || done. }
    + rewrite E. pose proof (gr_uvm _ _ _ _ _ _ _ _ _ Hg) as Hu1.
      assert (El : Z.of_nat (length (D ++ [p])) * PGSIZE = Z.of_nat (length D) * PGSIZE + PGSIZE).
      { rewrite length_app. simpl. lia. }
      rewrite u64_small by (unfold TRAPFRAME, TRAMPOLINE in *; rewrite MAXVA_val in *; unfold PGSIZE in *; lia).
      rewrite <- El. destruct (IH s1 root P1 (D ++ [p]) fl1 k0 newsz xperm Hu1)
        as (r & s' & P' & fl' & E' & Hres); [rewrite ?length_app; simpl; lia || done..|].
      exists r, s', P', fl'. split; [exact E'|].
      destruct Hres as [(F & -> & Hg' & HlenF & Hzf)|(-> & Hun & HlenF)]; [left|right].
      * exists (p :: F). rewrite cons_middle, app_assoc. split_and!; [done| |done|].
        -- by apply (grown_trans _ _ _ _ _ _ _ _ [p] F _ _ _ Hg).
        -- eapply zero_frames_cons; [exact Hu1|exact Hg'|exact Hpte|exact Hz|exact Hzf].
      * split_and!; [done|by eapply undone_grown|lia].
    + rewrite E. destruct (undone_dealloc k0 s root P D fl s1 P1 fl1 Hg Hk) as (s' & P' & fl' & E' & Hun).
      exists 0, s', P', fl'. rewrite (bind_Ok _ _ _ _ _ E'). split; [done|]. right. split_and!; [done..|lia].
Qed.

(** ** uvmcreate *)

(** An empty page table, or 0 when there is no page for its root. *)
Lemma uvmcreate_spec s fl :
  LkKmem ∉ k_held s -> kmem_inv s fl ->
  match fl with
  | [] => uvmcreate s = Ok 0 s
  | p :: rest => exists s', uvmcreate s = Ok p s' /\ pm_only s s' /\ uvm s' p [p] [] rest /\
      (forall va, pte s' p va = 0) /\ agree_off [p] (k_mem s) (k_mem s')
  end.
Proof.
  intros Hl Hinv. pose proof (kalloc_spec s fl Hl Hinv) as Hs. unfold uvmcreate.
  destruct fl as [|p rest]; [by rewrite (bind_Ok _ _ _ _ _ Hs)|].
  destruct Hs as (head & E & Hinv'). rewrite (bind_Ok _ _ _ _ _ E).
  destruct Hinv as (_ & Hnd & [Hp Hrest]%Forall_cons). pose proof (page_ok_pos p Hp) as Hpos.
  destruct (Z.eqb_spec p 0) as [->|_]; [unfold KERNBASE in Hpos; lia|]. rewrite bind_modify.
  change (k_mem (set_k_freelist head (set_k_mem (memset (k_mem s) p 5 PGSIZE) s)))
    with (memset (k_mem s) p 5 PGSIZE).
  pose proof (memset_page_outside (k_mem s) p 5) as Ho1.
  assert (Hz : forall a, p <= a < p + PGSIZE -> load8 (memset (memset (k_mem s) p 5 PGSIZE) p 0 PGSIZE) a = 0).
  { intros a Ha. rewrite load8_memset by (unfold PGSIZE; lia). bool_case; lia || done. }
  pose proof (memset_page_outside (memset (k_mem s) p 5 PGSIZE) p 0) as Ho2.
  revert Hinv' Ho1 Ho2 Hz. generalize (memset (memset (k_mem s) p 5 PGSIZE) p 0 PGSIZE).
  generalize (memset (k_mem s) p 5 PGSIZE). intros m1 m2 Hinv' Ho1 Ho2 Hz.
  exists (set_k_mem m2 (set_k_freelist head (set_k_mem m1 s))).
  destruct (pte_of_zero_page 2 m2 p Hz) as [Hrep Hpte].
  apply NoDup_cons in Hnd as [Hn Hnd]. split; [reflexivity|]. split; [by destruct s|]. split_and!.
  - split; [split| | | | |].
    + exact Hl.
    + apply (kmem_inv_agree (set_k_freelist head (set_k_mem m1 s))); [reflexivity| |exact Hinv'].
      apply (agree_off_agree_on [p]); [by apply same_outside_agree_off|auto|done|].
      by intros x Hx ->%list_elem_of_singleton.
    + exact Hrep.
    + by apply NoDup_cons.
    + auto.
    + constructor.
    + by apply NoDup_cons.
    + done.
    + intros i q Hi. by rewrite lookup_nil in Hi.
    + intros va _. unfold pte. cbn [k_mem set_k_mem]. rewrite Hpte. apply has_0.
  - exact Hpte.
  - eapply agree_off_trans; apply same_outside_agree_off || done; [exact Ho1|exact Ho2].
Qed.

(** C6: [uvmalloc] from [oldsz] to [newsz] never panics.  Either it returns
    [newsz] and the space has fresh frames [E], full of zeros and mapped with
    the asked permission, after its old pages, whose entries and contents are
    unchanged; or it returns 0, the free list had at most three pages per page
    asked for, and the space is as before: the frames taken were given back. *)
Theorem uvmalloc_correct s root P D fl oldsz newsz xperm :
  uvm s root P D fl -> 0 <= oldsz <= newsz -> newsz <= TRAPFRAME ->
  pgs oldsz = length D -> 0 <= xperm < 1024 ->
  exists r s' P' E fl', uvmalloc root oldsz newsz xperm s = Ok r s' /\
    grown s root P D fl s' P' E fl' /\
    ((r = newsz /\ length (D ++ E) = pgs newsz /\
      zero_frames s' root (Z.of_nat (length D)) (Z.lor (Z.lor PTE_R PTE_U) xperm) E) \/
     (r = 0 /\ E = [] /\ (length fl <= 3 * (pgs newsz - length D))%nat)).
Proof.
  intros Hu Hsz Hnew Hpg Hx. pose proof (pgs_mono oldsz newsz ltac:(lia)) as Hmono.
  unfold uvmalloc. destruct (Z.ltb_spec newsz oldsz); [lia|]. cbv zeta.
  rewrite PGROUNDUP_pgs by va_lia. rewrite Hpg in *.
  replace (Z.to_nat ((newsz - Z.of_nat (length D) * PGSIZE + PGSIZE - 1) / PGSIZE))
    with (pgs newsz - length D)%nat by (unfold pgs, PGSIZE in *; div_lia).
  destruct (uvmalloc_loop_spec (pgs newsz - length D) s root P D fl (length D) newsz xperm)
    as (r & s' & P' & fl' & E & Hres); [done..|lia|done|].
  destruct Hres as [(F & -> & Hg & Hlen & Hz)|(-> & Hun & Hlen)].
  - exists newsz, s', P', F, fl'. split; [done|]. split; [done|]. by left.
  - exists 0, s', P', [], fl'. split; [done|]. split; [|by right].
    destruct Hun as [Hpm Hu' HP Hoff Hpte]. rewrite firstn_all, drop_all in *.
    split; [done|by rewrite app_nil_r|done|done|done].
Qed.

End Uvm.

(** An empty space on the small machine. *)
Lemma boot_space `{Linker} n :
  kend <= PHYSTOP - Z.of_nat (S n) * PGSIZE ->
  exists s root fl, uvm s root [root] [] fl /\ (forall va, pte s root va = 0) /\ (n <= length fl)%nat.
Proof.
  intros Hend. pose proof kend_range as Hk.
  destruct (kinit_spec kstate0) as (s1 & _ & Hl & fl & Hinv & _ & Hall); [apply not_elem_of_nil|done|]. simpl in Hl, Hinv, Hall.
  assert (Hlen : (S n <= length fl)%nat).
  { replace (S n) with (length ((fun i => PHYSTOP - i * PGSIZE) <$> seqZ 1 (Z.of_nat (S n)))) by (rewrite length_fmap, length_seqZ; lia).
    apply submseteq_length, NoDup_submseteq.
    - apply NoDup_fmap_2; [intros i j; unfold PGSIZE; lia|apply NoDup_seqZ].
    - intros p Hp. destruct (proj1 (Hall p)) as [?|Hx]; [|done|set_solver].
      apply list_elem_of_fmap in Hp as (i & -> & Hi%elem_of_seqZ). unfold page_ok.
      unfold PHYSTOP, KERNBASE, PGSIZE in *. split; [div_lia|lia]. }
  pose proof (uvmcreate_spec s1 fl Hl Hinv) as Hc. destruct fl as [|p rest]; [simpl in Hlen; lia|].
  destruct Hc as (s' & _ & _ & Hu & Hz & _). exists s', p, rest. simpl in Hlen. by split_and!; [..|lia].
Qed.

Lemma demo_space :
  exists s root fl, @uvm demo_linker s root [root] [] fl /\ (forall va, pte s root va = 0) /\
    (7 <= length fl)%nat.
Proof. apply (@boot_space demo_linker 7). cbn [kend demo_linker]. lia. Qed.

Lemma uvmalloc_correct_witness :
  exists s root s' E, @uvmalloc demo_linker root 0 PGSIZE PTE_W s = Ok PGSIZE s' /\
    length E = 1%nat /\ zero_frames s' root 0 (Z.lor (Z.lor PTE_R PTE_U) PTE_W) E.
Proof.
  destruct demo_space as (s & root & fl & Hu & _ & Hlen). exists s, root.
  destruct (@uvmalloc_correct demo_linker s root [root] [] fl 0 PGSIZE PTE_W Hu)
    as (r & s' & P' & E & fl' & Er & _ & Hres); [by split|done|done|by split|].
  destruct Hres as [(-> & HE & Hz)|(_ & _ & Hfew)]; [exists s', E; by split_and!|].
  exfalso. change (length fl <= 3)%nat in Hfew. lia.
Defined.
