(* ===== verification/UvmFree.v ===== *)
(** Giving back an address space: [freewalk] and [uvmfree] return every page of
    the table and every frame to the free list. *)
From S2P Require Import Prelude State Locks Kstring Kalloc Vm PageTable VmSpec Uvm.

(** No entry of the lowest level is valid. *)
Fixpoint no_leaf (l : nat) (m : bytes) (root : Z) : Prop :=
  match l with
  | O => forall i, 0 <= i < 512 -> has (load64 m (root + 8 * i)) PTE_V = false
  | S l => forall i, 0 <= i < 512 -> has (load64 m (root + 8 * i)) PTE_V = true ->
             no_leaf l m (PTE2PA (load64 m (root + 8 * i)))
  end.

Lemma PX_add l l' i va :
  (l <= l')%nat -> 0 <= va -> PX (Z.of_nat l) (i * 2 ^ (12 + 9 * Z.of_nat (S l')) + va) = PX (Z.of_nat l) va.
Proof.
  intros Hl Hva. rewrite !PX_eq by lia.
  replace (2 ^ (12 + 9 * Z.of_nat (S l'))) with
    (2 ^ (9 * (Z.of_nat l' - Z.of_nat l)) * 512 * 2 ^ (12 + 9 * Z.of_nat l)).
  - rewrite Z.mul_assoc, Z.div_add_l by lia. rewrite Z.mul_assoc. rewrite Z.add_comm.
    apply Z.mod_add. lia.
  - change 512 with (2 ^ 9). rewrite <- !Z.pow_add_r by lia. f_equal. lia.
Qed.

Lemma PX_top l i va :
  0 <= i < 512 -> 0 <= va < 2 ^ (12 + 9 * Z.of_nat l) ->
  PX (Z.of_nat l) (i * 2 ^ (12 + 9 * Z.of_nat l) + va) = i.
Proof.
  intros Hi Hva. rewrite PX_eq, Z.div_add_l, Z.div_small by lia.
  rewrite Z.mod_small by lia. lia.
Qed.

Lemma pte_of_add l l' m root i va :
  (l <= l')%nat -> 0 <= va ->
  pte_of l m root (i * 2 ^ (12 + 9 * Z.of_nat (S l')) + va) = pte_of l m root va.
Proof.
  revert root. induction l as [|l IH]; intros root Hl Hva; cbn [pte_of]; cbv zeta.
  - by rewrite PX_add by lia.
  - rewrite PX_add by lia. destruct (has _ _); [|done]. apply IH; lia.
Qed.

(** The invalid entries of the abstract table are those of its pages. *)
Lemma no_leaf_ptes l m root :
  (forall va, 0 <= va < 2 ^ (12 + 9 * Z.of_nat (S l)) -> has (pte_of l m root va) PTE_V = false) ->
  no_leaf l m root.
Proof.
  revert root. induction l as [|l IH]; intros root Hno; cbn [no_leaf]; intros i Hi.
  - specialize (Hno (i * 2 ^ (12 + 9 * Z.of_nat 0) + 0)). cbn [pte_of] in Hno.
    rewrite PX_top in Hno by (lia || done). apply Hno.
    change (2 ^ (12 + 9 * Z.of_nat 0)) with 4096. change (2 ^ (12 + 9 * Z.of_nat 1)) with (4096 * 512). lia.
  - intros HV. apply IH. intros va Hva.
    assert (Hp : 2 ^ (12 + 9 * Z.of_nat (S (S l))) = 512 * 2 ^ (12 + 9 * Z.of_nat (S l))).
    { change 512 with (2 ^ 9). rewrite <- Z.pow_add_r by lia. f_equal. lia. }
    specialize (Hno (i * 2 ^ (12 + 9 * Z.of_nat (S l)) + va)). cbn [pte_of] in Hno. cbv zeta in Hno.
    rewrite PX_top, HV, pte_of_add in Hno by (lia || done). apply Hno. nia.
Qed.

Lemma no_leaf_agree l m m' root P :
  agree_on P m m' -> pt_rep l m root P -> no_leaf l m root -> no_leaf l m' root.
Proof.
  revert root P. induction l as [|l IH]; intros root P Hag Hrep Hno; cbn [no_leaf] in *.
  - intros i Hi. rewrite (load64_agree m) 
      by (first [done | apply (agree_on_root P); [by apply pt_rep_root in Hrep|done]]).
    by apply Hno.
  - pose proof (pt_rep_root _ _ _ _ Hrep) as Hroot. destruct Hrep as (Q & HQ & -> & Hm). intros i Hi.
    rewrite (load64_agree m) by (first [done | by apply (agree_on_root (root :: concat Q))]).
    intros HV. destruct (lookup_lt_is_Some_2 Q (Z.to_nat i)) as [Pi HPi]; [lia|].
    specialize (Hm _ _ HPi). cbv zeta in Hm. rewrite Z2Nat.id, HV in Hm by lia.
    apply (IH _ Pi); [|apply Hm|by apply Hno]. eapply agree_on_sub; [|done].
    intros x Hx. apply elem_of_cons. right. by eapply concat_sub.
Qed.

Lemma flags_V_inner v : PTE_FLAGS v = PTE_V -> Z.land v (Z.lor (Z.lor PTE_R PTE_W) PTE_X) = 0.
Proof.
  unfold PTE_FLAGS. intros E. change (Z.lor (Z.lor PTE_R PTE_W) PTE_X) with (Z.land 0x3FF 14).
  rewrite Z.land_assoc, E. done.
Qed.

Section UvmFree.
Context `{Linker}.

Lemma kfree_free s fl p :
  LkKmem ∉ k_held s -> kmem_inv s fl -> page_ok p -> p ∉ fl ->
  exists s', kfree p s = Ok tt s' /\ pm_only s s' /\ kmem_inv s' (p :: fl) /\
    agree_off [p] (k_mem s) (k_mem s').
Proof.
  intros Hl Hinv Hp Hn. destruct (kfree_spec s fl p Hl Hinv Hp Hn) as [E Hinv'].
  pose proof (kfree_mem_outside (k_mem s) p (k_freelist s)) as Ho.
  revert E Hinv' Ho. generalize (store64 (memset (k_mem s) p 1 PGSIZE) p (k_freelist s)).
  intros m' E Hinv' Ho. eexists. split; [exact E|]. split; [by destruct s|].
  split; [exact Hinv'|]. by apply same_outside_agree_off.
Qed.

(** All the pages [P] were freed. *)
Definition all_freed (s : kstate) (P fl : list Z) (s' : kstate) : Prop :=
  exists fl', pm_only s s' /\ kmem_inv s' fl' /\ fl' ≡ₚ P ++ fl /\ agree_off P (k_mem s) (k_mem s').

(** The loop of [freewalk] at [root] before iteration [j]. *)
Definition freewalk_inv (s : kstate) (root : Z) (Q : list (list Z)) (fl : list Z) (j : Z) (s' : kstate) : Prop :=
  exists flj, pm_only s s' /\ kmem_inv s' flj /\
    flj ≡ₚ concat (take (Z.to_nat j) Q) ++ fl /\
    agree_off (root :: concat (take (Z.to_nat j) Q)) (k_mem s) (k_mem s') /\
    forall i, j <= i < 512 -> load64 (k_mem s') (root + 8 * i) = load64 (k_mem s) (root + 8 * i).

(** Clearing the entry [j] of [root], after its subtree was freed. *)
Lemma freewalk_clear s s1 s2 root Q Pj fl flj j :
  page_ok root -> root ∉ concat Q ++ fl -> Forall page_ok (concat Q) -> Forall page_ok fl ->
  Q !! Z.to_nat j = Some Pj -> 0 <= j < 512 -> length Q = 512%nat ->
  pm_only s s1 -> flj ≡ₚ concat (take (Z.to_nat j) Q) ++ fl ->
  agree_off (root :: concat (take (Z.to_nat j) Q)) (k_mem s) (k_mem s1) ->
  (forall i, j <= i < 512 -> load64 (k_mem s1) (root + 8 * i) = load64 (k_mem s) (root + 8 * i)) ->
  all_freed s1 Pj flj s2 ->
  freewalk_inv s root Q fl (j + 1) (set_k_mem (store64 (k_mem s2) (root + 8 * j) 0) s2).
Proof.
  intros Hr Hrn HokQ Hokfl HPj Hj HQ Hpm HPerm Hoff Hent (fl2 & Hpm2 & Hinv2 & HPerm2 & Hoff2).
  assert (Etake : concat (take (Z.to_nat (j + 1)) Q) = concat (take (Z.to_nat j) Q) ++ Pj).
  { replace (Z.to_nat (j + 1)) with (S (Z.to_nat j)) by lia.
    by rewrite (take_S_r _ _ _ HPj), concat_app, concat_cons, app_nil_r. }
  assert (HrP : root ∉ Pj).
  { intros Hx. apply Hrn, elem_of_app. left. by eapply concat_sub. }
  assert (Hrfl2 : root ∉ fl2).
  { rewrite HPerm2, HPerm, !elem_of_app. intros [?|[Hx|?]]; [done| |apply Hrn, elem_of_app; tauto].
    apply Hrn, elem_of_app. left. rewrite <- (take_drop (Z.to_nat j) Q), concat_app. apply elem_of_app. tauto. }
  exists fl2. rewrite Etake. split_and!.
  - eapply pm_only_trans; [eapply pm_only_trans; [exact Hpm|exact Hpm2]|apply pm_only_mem].
  - apply (kmem_inv_agree s2); [reflexivity| |done].
    apply (store64_agree_on _ root); [apply Hinv2|done|done|unfold PGSIZE; lia..].
  - rewrite HPerm2, HPerm, <- app_assoc. apply Permutation_app_swap_app.
  - apply (agree_off_trans (root :: concat (take (Z.to_nat j) Q)) (root :: Pj) _ _ (k_mem s1));
      [exact Hoff| |intros x; rewrite !elem_of_cons, !elem_of_app; tauto..].
    intros a Ha. cbn [k_mem set_k_mem]. unfold store64. rewrite load8_le_store.
    destruct (Z.leb_spec (root + 8 * j) a), (Z.ltb_spec a (root + 8 * j + Z.of_nat 8)); cbn [andb];
      first [exfalso; apply Ha; exists root; split; [elem_tac|unfold PGSIZE; lia]
            | apply Hoff2; intros (q & Hq & ?); apply Ha; exists q; split; [|done]; rewrite elem_of_cons; tauto].
  - intros i Hi. cbn [k_mem set_k_mem]. unfold load64, store64. rewrite le_load_store_disj by lia.
    fold load64. rewrite <- Hent by lia. apply (load64_agree (k_mem s1)); [|lia].
    intros a Ha. apply Hoff2. apply (not_in_pages _ root); [|done..].
    eapply Forall_page_ok_sub; [exact HokQ|by eapply concat_sub].
Qed.

Lemma freewalk_inv_pages s root Q fl j s' Pj :
  freewalk_inv s root Q fl j s' -> Q !! Z.to_nat j = Some Pj ->
  NoDup ((root :: concat Q) ++ fl) -> Forall page_ok (root :: concat Q) ->
  agree_on Pj (k_mem s) (k_mem s').
Proof.
  intros (flj & _ & _ & _ & Hoff & _) HPj (Hnd & _)%NoDup_app Hok.
  apply NoDup_cons in Hnd as [Hr Hnd].
  assert (Hsub : concat (take (Z.to_nat j) Q) ⊆ concat Q).
  { intros x Hx. rewrite <- (take_drop (Z.to_nat j) Q), concat_app. apply elem_of_app. by left. }
  apply Forall_cons in Hok as Hok'. destruct Hok' as [Hokr HokQ].
  apply (agree_off_agree_on (root :: concat (take (Z.to_nat j) Q))); [exact Hoff| | |].
  - constructor; [done|]. by eapply Forall_page_ok_sub.
  - eapply Forall_page_ok_sub; [exact HokQ|by eapply concat_sub].
  - intros x Hx [->|Hx']%elem_of_cons; [by eapply Hr, concat_sub|].
    rewrite <- (take_drop_middle Q _ _ HPj), concat_app, concat_cons in Hnd.
    apply NoDup_app in Hnd as (_ & Hd & _). apply (Hd x Hx'), elem_of_app. by left.
Qed.

Lemma freewalk_inv_0 s root Q fl : kmem_inv s fl -> freewalk_inv s root Q fl 0 s.
Proof. intros Hinv. exists fl. split_and!; [apply pm_only_refl|done|done|done|done]. Qed.

Lemma freewalk_inv_skip s root Q fl j s' :
  Q !! Z.to_nat j = Some [] -> 0 <= j ->
  freewalk_inv s root Q fl j s' -> freewalk_inv s root Q fl (j + 1) s'.
Proof.
  intros HPj Hj (flj & ? & ? & ? & ? & He). exists flj.
  replace (Z.to_nat (j + 1)) with (S (Z.to_nat j)) by lia.
  rewrite (take_S_r _ _ _ HPj), concat_app. simpl. rewrite app_nil_r.
  split_and!; try done. intros i Hi. apply He. lia.
Qed.

(** After the loop, the table page itself is freed. *)
Lemma freewalk_finish s root Q fl s' :
  LkKmem ∉ k_held s -> length Q = 512%nat -> NoDup ((root :: concat Q) ++ fl) -> page_ok root ->
  freewalk_inv s root Q fl 512 s' ->
  exists s'', kfree root s' = Ok tt s'' /\ all_freed s (root :: concat Q) fl s''.
Proof.
  intros Hl HQ Hnd Hr (flj & Hpm & Hinv & HPerm & Hoff & _).
  rewrite take_ge in HPerm, Hoff by lia. simpl in Hnd. apply NoDup_cons in Hnd as [Hn _].
  destruct (kfree_free s' flj root) as (s'' & E & Hpm' & Hinv' & Hoff');
    [by rewrite (pm_only_held _ _ Hpm)|done|done|by rewrite HPerm|].
  exists s''. split; [done|]. exists (root :: flj). split_and!; [by eapply pm_only_trans|done| |].
  - simpl. by rewrite HPerm.
  - eapply agree_off_trans; [exact Hoff|exact Hoff'|done|elem_tac].
Qed.

Lemma freewalk_depth_spec l : forall s root P fl,
  LkKmem ∉ k_held s -> kmem_inv s fl -> pt_rep l (k_mem s) root P ->
  NoDup (P ++ fl) -> Forall page_ok P -> no_leaf l (k_mem s) root ->
  exists s', freewalk_depth (S l) root s = Ok tt s' /\ all_freed s P fl s'.
Proof.
  induction l as [|l IH]; intros s root P fl Hl Hinv Hrep Hnd Hok Hno.
  { simpl in Hrep. subst P. cbn [freewalk_depth].
    match goal with |- context [for_loop 512 0 ?b] =>
      destruct (for_loop_inv 512 0 b (fun _ t => t = s) s) as (s1 & E & ->);
        [|done|rewrite (bind_Ok _ _ _ _ _ E)] end.
    - intros j t Hj ->. exists s. split; [|done]. rewrite bind_gets, !Hno by lia. done.
    - destruct (kfree_free s fl root) as (s' & E' & Hpm & Hinv' & Hoff);
        [done..|by apply Forall_inv in Hok|by apply NoDup_cons in Hnd as [? _]|].
      exists s'. split; [done|]. by exists (root :: fl). }
  destruct Hrep as (Q & HQ & -> & Hm). apply Forall_cons in Hok as Hok'. destruct Hok' as [Hokr HokQ].
  remember (S l) as l1. cbn [freewalk_depth]. subst l1.
  match goal with |- context [for_loop 512 0 ?b] =>
    destruct (for_loop_inv 512 0 b (freewalk_inv s root Q fl) s) as (s1 & E & Hinv1);
      [|by apply freewalk_inv_0|rewrite (bind_Ok _ _ _ _ _ E)] end.
  2: by apply (freewalk_finish s root Q fl s1).
  intros j t Hj Ht. destruct (lookup_lt_is_Some_2 Q (Z.to_nat j)) as [Pj HPj]; [lia|].
  specialize (Hm _ _ HPj) as Hmj. cbv zeta in Hmj. rewrite Z2Nat.id in Hmj by lia.
  pose proof (freewalk_inv_pages _ _ _ _ _ _ _ Ht HPj Hnd Hok) as Hag.
  rewrite bind_gets. pose proof Ht as (flj & Hpm & Hinvj & HPerm & Hoff & Hent).
  rewrite Hent by lia.
  destruct (has (load64 (k_mem s) (root + 8 * j)) PTE_V) eqn:EV.
  - destruct Hmj as [Hfl Hrepj]. rewrite flags_V_inner by done. cbn [andb Z.eqb].
    rewrite bind_assoc.
    destruct (IH t (PTE2PA (load64 (k_mem s) (root + 8 * j))) Pj flj) as (s2 & E2 & Hfr).
    + by rewrite (pm_only_held _ _ Hpm).
    + done.
    + by eapply pt_rep_agree.
    + rewrite HPerm, app_assoc, (Permutation_app_comm Pj), <- app_assoc. eapply sublist_NoDup; [exact Hnd|].
      rewrite <- (take_drop_middle Q _ _ HPj) at 2. rewrite concat_app, concat_cons. simpl.
      rewrite <- !app_assoc. apply sublist_cons, sublist_app; [done|].
      apply sublist_app; [done|]. by apply sublist_inserts_l.
    + eapply Forall_page_ok_sub; [exact HokQ|by eapply concat_sub].
    + eapply no_leaf_agree; [exact Hag|done|]. apply Hno; [lia|done].
    + rewrite (bind_Ok _ _ _ _ _ E2), bind_modify. eexists. split; [reflexivity|].
      simpl in Hnd. apply NoDup_cons in Hnd as [Hnr _].
      eapply (freewalk_clear s t s2); try done. apply Hinv.
  - exists t. split; [done|]. apply freewalk_inv_skip; [by rewrite HPj, Hmj|lia|done].
Qed.

Lemma freewalk_spec s root P fl :
  pt_wf s root P fl -> (forall va, 0 <= va < 2 * MAXVA -> has (pte s root va) PTE_V = false) ->
  exists s', freewalk root s = Ok tt s' /\ all_freed s P fl s'.
Proof.
  intros [Hl Hinv Hrep Hnd Hok] Hno. apply freewalk_depth_spec; [done..|].
  apply no_leaf_ptes. exact Hno.
Qed.

(** The pages of a space are unmapped before the table is freed. *)
Lemma uvmfree_unmap s root P D fl sz :
  uvm s root P D fl -> 0 <= sz -> pgs sz = length D ->
  exists s', when (0 <? sz) (uvmunmap root 0 (PGROUNDUP sz / PGSIZE) true) s = Ok tt s' /\
    pm_only s s' /\ uvm s' root P [] (rev D ++ fl) /\ same_ptes 0 s s' root /\
    agree_off (P ++ D) (k_mem s) (k_mem s').
Proof.
  intros Hu Hsz Hpg. pose proof (uvm_pgs _ _ _ _ _ _ Hu Hsz Hpg) as Hmax.
  destruct (Z.ltb_spec 0 sz) as [Hlt|Hge]; cbn [when].
  - rewrite PGROUNDUP_pgs, Z.div_mul by va_lia.
    destruct (uvm_truncate s root P D fl 0 (Z.of_nat (pgs sz)) Hu) as (s' & E & Hpm & Hu' & Hun & Hoff); [lia..|].
    exists s'. split; [exact E|]. split; [done|]. split; [exact Hu'|]. split; [|exact Hoff].
    intros va Hva. rewrite Hun by va_lia. pose proof (uvm_size _ _ _ _ _ Hu) as HD.
    destruct (Z.ltb_spec va (Z.of_nat 0 * PGSIZE + Z.of_nat (pgs sz) * PGSIZE)); [va_lia|].
    by rewrite andb_false_r.
  - assert (sz = 0) as -> by lia. change (pgs 0) with 0%nat in Hpg.
    symmetry in Hpg. apply nil_length_inv in Hpg as ->. exists s.
    split_and!; [done|apply pm_only_refl|done|done|done].
Qed.

Lemma uvmfree_spec s root P D fl sz :
  uvm s root P D fl -> 0 <= sz -> pgs sz = length D ->
  (forall va, TRAPFRAME <= va < 2 * MAXVA -> has (pte s root va) PTE_V = false) ->
  exists s' fl', uvmfree root sz s = Ok tt s' /\ pm_only s s' /\
    kmem_inv s' fl' /\ fl' ≡ₚ P ++ D ++ fl /\ agree_off (P ++ D) (k_mem s) (k_mem s').
Proof.
  intros Hu Hsz Hpg Htop.
  destruct (uvmfree_unmap s root P D fl sz Hu Hsz Hpg) as (s1 & E1 & Hpm1 & Hu1 & Hsame & Hoff1).
  unfold uvmfree. rewrite (bind_Ok _ _ _ _ _ E1).
  destruct (freewalk_spec s1 root P (rev D ++ fl)) as (s' & E & fl' & Hpm & Hinv & HPerm & Hoff).
  - exact (uvm_wf _ _ _ _ _ Hu1).
  - intros va Hva. destruct (Z.ltb_spec va TRAPFRAME) as [Hlt|Hge].
    + apply (uvm_rest _ _ _ _ _ Hu1). simpl. lia.
    + rewrite Hsame by lia. apply Htop. lia.
  - exists s', fl'. split_and!; [done|by eapply pm_only_trans|done| |].
    + by rewrite HPerm, <- Permutation_rev.
    + eapply agree_off_trans; [exact Hoff1|exact Hoff|done|elem_tac].
Qed.

(** C7: [uvmfree] of an address space whose trampoline and trapframe are
    already unmapped never panics and returns every page of it, the frames and
    the pages of the page table alike, to the free list: no page leaks. *)
Theorem uvmfree_returns_all s root P D fl sz :
  uvm s root P D fl -> 0 <= sz -> pgs sz = length D ->
  (forall va, TRAPFRAME <= va < 2 * MAXVA -> has (pte s root va) PTE_V = false) ->
  exists s' fl', uvmfree root sz s = Ok tt s' /\ pm_only s s' /\
    kmem_inv s' fl' /\ fl' ≡ₚ P ++ D ++ fl /\ agree_off (P ++ D) (k_mem s) (k_mem s').
Proof. apply uvmfree_spec. Qed.

End UvmFree.

Lemma uvmfree_returns_all_witness :
  exists s root fl s' fl', @uvmfree demo_linker root 0 s = Ok tt s' /\
    @kmem_inv demo_linker s' fl' /\ fl' ≡ₚ [root] ++ [] ++ fl.
Proof.
  destruct demo_space as (s & root & fl & Hu & Hz & _). exists s, root, fl.
  destruct (@uvmfree_returns_all demo_linker s root [root] [] fl 0 Hu)
    as (s' & fl' & E & _ & Hinv & HP & _); [done|done| |by exists s', fl'].
  intros va _. rewrite Hz. apply has_0.
Defined.
