(* ===== verification/UvmCopy.v ===== *)
(** [uvmcopy]: the child's address space is a copy of the parent's. *)
From S2P Require Import Prelude State Locks Kstring Kalloc Vm PageTable VmSpec Uvm.

(** The byte a user program sees at [va]. *)
Definition umem (s : kstate) (root va : Z) : option Z :=
  if has (pte s root va) PTE_V
  then Some (load8 (k_mem s) (PTE2PA (pte s root va) + va mod PGSIZE)) else None.

Lemma flags_range v : 0 <= PTE_FLAGS v < 1024.
Proof.
  unfold PTE_FLAGS. change 0x3FF with (Z.ones 10). rewrite Z.land_ones by lia.
  apply Z.mod_pos_bound. done.
Qed.

Lemma flags_lor_V v : has v PTE_V = true -> Z.lor (PTE_FLAGS v) PTE_V = PTE_FLAGS v.
Proof.
  intros HV. unfold has, PTE_V, PTE_FLAGS in *. apply Z.bits_inj'. intros n Hn.
  rewrite Z.lor_spec, Z.land_spec. destruct (decide (n = 0)) as [->|].
  - change 1 with (Z.ones 1) in HV. rewrite Z.land_ones in HV by lia.
    rewrite Z.bit0_odd, Zodd_mod. change (2 ^ 1) with 2 in HV.
    destruct (Z.eqb_spec (v mod 2) 0); [done|]. assert (v mod 2 = 1) as -> by div_lia. done.
  - replace (Z.testbit 1 n) with false; [by rewrite orb_false_r|].
    symmetry. change 1 with (2 ^ 0). apply Z.pow2_bits_false. lia.
Qed.

Section UvmCopy.
Context `{Linker}.

Lemma memmove_outside m p src : same_outside p m (memmove m p src PGSIZE).
Proof.
  intros a Ha. rewrite memmove_spec by (unfold PGSIZE; lia).
  bool_case; unfold PGSIZE in *; lia || done.
Qed.

Lemma undone_unmap s root P D fl s1 P1 fl1 :
  grown s root P D fl s1 P1 [] fl1 ->
  exists s' P' fl', uvmunmap root 0 (Z.of_nat (length D)) true s1 = Ok tt s' /\
    undone 0 s root P D fl s' P' fl'.
Proof.
  intros Hg. pose proof (gr_uvm _ _ _ _ _ _ _ _ _ Hg) as Hu. rewrite app_nil_r in Hu.
  destruct (uvm_truncate s1 root P1 D fl1 0 (Z.of_nat (length D)) Hu)
    as (s' & E & Hpm & Hu' & Hun & Hoff); [lia..|].
  pose proof (uvm_size _ _ _ _ _ Hu) as Hsz.
  exists s', P1, (rev (drop 0 D) ++ fl1). split; [exact E|].
  eapply undone_grown; [lia|exact Hg|]. rewrite app_nil_r.
  split; [done|done|by rewrite <- Permutation_rev| |].
  - eapply agree_off_trans; [exact Hoff|done| |done]. elem_tac.
  - intros va Hva. rewrite Hun by va_lia.
    destruct (Z.ltb_spec va (Z.of_nat 0 * PGSIZE + Z.of_nat (length D) * PGSIZE)); [va_lia|].
    by rewrite andb_false_r.
Qed.

(** * The loop

    The parent's table [P] and frames [D] are not touched while the child's
    space grows. *)
Section Loop.
Context (s0 : kstate) (old new : Z) (P D : list Z).
Hypothesis old_rep : pt_rep 2 (k_mem s0) old P.
Hypothesis old_frames : frames_at s0 old 0 D.
Hypothesis old_ok : Forall page_ok (P ++ D).
Hypothesis old_size : Z.of_nat (length D) * PGSIZE <= TRAPFRAME.

(** The frames [D2] of the child hold copies of the parent's first pages. *)
Definition copied (s : kstate) (D2 : list Z) : Prop :=
  forall i p, D2 !! i = Some p ->
    let v := pte s0 old (Z.of_nat i * PGSIZE) in
    pte s new (Z.of_nat i * PGSIZE) = leaf p (PTE_FLAGS v) /\
    forall j, 0 <= j < PGSIZE -> load8 (k_mem s) (p + j) = load8 (k_mem s0) (PTE2PA v + j).

Lemma copied_grown s P2 D2 fl s' P2' p fl' :
  uvm s new P2 D2 fl -> grown s new P2 D2 fl s' P2' [p] fl' -> copied s D2 ->
  pte s' new (Z.of_nat (length D2) * PGSIZE) =
    leaf p (PTE_FLAGS (pte s0 old (Z.of_nat (length D2) * PGSIZE))) ->
  (forall j, 0 <= j < PGSIZE -> load8 (k_mem s') (p + j) =
     load8 (k_mem s0) (PTE2PA (pte s0 old (Z.of_nat (length D2) * PGSIZE)) + j)) ->
  copied s' (D2 ++ [p]).
Proof.
  intros Hu Hg Hc Hpte Hmem i q Hi. apply lookup_snoc_Some in Hi as [[Hi Hq]|[-> ->]]; [|done].
  destruct (Hc i q Hq) as [Hp Hm]. cbv zeta. split.
  - rewrite <- Hp. apply (gr_ptes _ _ _ _ _ _ _ _ _ Hg). unfold PGSIZE. lia.
  - intros j Hj. rewrite <- Hm by done. apply (grown_frame _ _ _ _ _ _ _ _ _ q _ Hu Hg); [|lia].
    by eapply list_elem_of_lookup_2.
Qed.

(** The source of an iteration: the parent's entry, and its frame. *)
Lemma source_page s n p :
  agree_on (P ++ D) (k_mem s0) (k_mem s) -> D !! n = Some p ->
  let va := Z.of_nat n * PGSIZE in
  exists r, slot_of 2 (k_mem s) old va = Some r /\ 0 < r /\
    load64 (k_mem s) r = pte s0 old va /\ has (pte s0 old va) PTE_V = true /\
    PTE_FLAGS (pte s0 old va) <> PTE_V /\ PTE2PA (pte s0 old va) = p.
Proof.
  intros Hag Hn va. destruct (old_frames n p Hn) as (HV & Hfl & Hpa). rewrite Z.add_0_l in *. fold va in HV, Hfl, Hpa.
  assert (HagP : agree_on P (k_mem s0) (k_mem s)) by (eapply agree_on_sub; [|exact Hag]; elem_tac).
  destruct (pt_rep_pte_agree s0 s old P HagP old_rep) as [Hrep Hpte].
  assert (HV' : has (pte s old va) PTE_V = true) by (by rewrite Hpte).
  destruct (has_slot s old va HV') as (r & Hr). exists r.
  split; [done|]. split; [|rewrite <- (pte_slot _ _ _ _ Hr), Hpte; done].
  destruct (slot_of_in _ _ _ _ _ _ Hrep Hr) as (q & Hq & Hq1 & _).
  rewrite Forall_forall in old_ok. pose proof (page_ok_pos q (old_ok q ltac:(elem_tac))) as Hp.
  unfold KERNBASE in Hp. lia.
Qed.

Lemma uvmcopy_loop_eq fuel s n p sz :
  agree_on (P ++ D) (k_mem s0) (k_mem s) -> D !! n = Some p -> Z.of_nat n * PGSIZE < sz ->
  uvmcopy_loop (S fuel) old new (Z.of_nat n * PGSIZE) sz s =
  add_page (fun m mem => memmove m mem p PGSIZE) (PTE_FLAGS (pte s0 old (Z.of_nat n * PGSIZE)))
    (uvmunmap new 0 (Z.of_nat n) true ;;; ret (-1))
    (uvmcopy_loop fuel old new (u64 (Z.of_nat n * PGSIZE + PGSIZE)) sz) new (Z.of_nat n * PGSIZE) s.
Proof.
  intros Hag Hn Hlt. destruct (source_page s n p Hag Hn) as (r & Hr & Hpos & Hload & HV & _ & Hpa).
  pose proof (lookup_lt_Some _ _ _ Hn) as Hlen. cbv zeta in *. cbn [uvmcopy_loop].
  destruct (Z.ltb_spec (Z.of_nat n * PGSIZE) sz); [|lia].
  rewrite (bind_Ok _ _ _ _ _ (walk_lookup s old (Z.of_nat n * PGSIZE) ltac:(va_lia))), Hr.
  cbn [default from_option id]. destruct (Z.eqb_spec r 0); [lia|].
  rewrite bind_gets, Hload, HV. cbn [negb]. rewrite Z.div_mul by done. by rewrite Hpa.
Qed.

Lemma untouched s P2 D2 fl s' P2' E fl' :
  Forall page_ok (P2 ++ fl) -> (forall x, x ∈ P ++ D -> x ∉ P2 ++ fl) ->
  grown s new P2 D2 fl s' P2' E fl' -> agree_on (P ++ D) (k_mem s0) (k_mem s) ->
  agree_on (P ++ D) (k_mem s0) (k_mem s') /\ (forall x, x ∈ P ++ D -> x ∉ P2' ++ fl').
Proof.
  intros Hok Hd Hg Hag. split.
  - intros a Ha. rewrite <- Hag by done. revert a Ha. fold (agree_on (P ++ D) (k_mem s) (k_mem s')).
    apply (agree_off_agree_on (P2 ++ fl)); [exact (gr_mem _ _ _ _ _ _ _ _ _ Hg)|done|done|done].
  - intros x Hx. rewrite elem_of_app. intros Hx'. apply (Hd x Hx).
    rewrite <- (gr_pages _ _ _ _ _ _ _ _ _ Hg), !elem_of_app. tauto.
Qed.

(** What [memmove] copies is the parent's page. *)
Lemma source_content s P2 fl src m p j :
  Forall page_ok (P2 ++ fl) -> agree_on (P ++ D) (k_mem s0) (k_mem s) ->
  (forall x, x ∈ P ++ D -> x ∉ P2 ++ fl) -> src ∈ D -> p ∈ fl ->
  agree_off [p] (k_mem s) m -> 0 <= j < PGSIZE ->
  load8 (memmove m p src PGSIZE) (p + j) = load8 (k_mem s0) (src + j).
Proof.
  intros Hok Hag Hd Hsrc Hp Hoff Hj. rewrite memmove_spec by (unfold PGSIZE; lia).
  replace ((p <=? p + j) && (p + j <? p + PGSIZE)) with true by lia.
  replace (src + (p + j - p)) with (src + j) by lia.
  assert (Hps : src ∈ P ++ D) by elem_tac.
  rewrite <- Hag by (exists src; split; [done|lia]). apply Hoff.
  rewrite Forall_forall in old_ok, Hok.
  apply (not_in_pages _ src); [constructor; [apply Hok; elem_tac|done]|by apply old_ok| |lia].
  intros ->%list_elem_of_singleton. apply (Hd p Hps). elem_tac.
Qed.

Lemma uvmcopy_loop_spec n : forall s P2 D2 fl sz,
  uvm s new P2 D2 fl -> agree_on (P ++ D) (k_mem s0) (k_mem s) ->
  (forall x, x ∈ P ++ D -> x ∉ P2 ++ fl) ->
  length D = (n + length D2)%nat -> pgs sz = length D -> copied s D2 ->
  exists r s' P2' fl',
    uvmcopy_loop (S n) old new (Z.of_nat (length D2) * PGSIZE) sz s = Ok r s' /\
    ((exists E, r = 0 /\ grown s new P2 D2 fl s' P2' E fl' /\
        length (D2 ++ E) = length D /\ copied s' (D2 ++ E)) \/
     (r = -1 /\ undone 0 s new P2 D2 fl s' P2' fl' /\ (length fl <= 3 * n)%nat)).
Proof.
  induction n as [|n IH]; intros s P2 D2 fl sz Hu Hag Hd Hlen Hpg Hc.
  { cbn [uvmcopy_loop]. destruct (Z.ltb_spec (Z.of_nat (length D2) * PGSIZE) sz) as [Hlt|_].
    - exfalso. unfold pgs in Hpg. va_lia.
    - exists 0, s, P2, fl. split; [done|]. left. exists []. rewrite app_nil_r. split_and!; [done| |done|done].
      apply grown_nil; [done|apply pm_only_refl|exact (uvm_wf _ _ _ _ _ Hu)|done..]. }
  assert (Hlt : Z.of_nat (length D2) * PGSIZE < sz) by (unfold pgs in Hpg; va_lia).
  destruct (lookup_lt_is_Some_2 D (length D2)) as [src Hsrc]; [lia|].
  destruct (source_page s _ src Hag Hsrc) as (_ & _ & _ & _ & HV & Hfl & Hpa). cbv zeta in *.
  rewrite (uvmcopy_loop_eq _ s _ src sz Hag Hsrc Hlt).
  assert (Hok : Forall page_ok (P2 ++ fl)).
  { pose proof (uvm_wf _ _ _ _ _ Hu) as Hwf. apply Forall_app. split; apply Hwf. }
  destruct (add_page_spec (fun m mem => memmove m mem src PGSIZE) (fun j => load8 (k_mem s0) (src + j))
    (PTE_FLAGS (pte s0 old (Z.of_nat (length D2) * PGSIZE)))
    (uvmunmap new 0 (Z.of_nat (length D2)) true ;;; ret (-1))
    (uvmcopy_loop (S n) old new (u64 (Z.of_nat (length D2) * PGSIZE + PGSIZE)) sz)
    ltac:(intros; apply memmove_outside) (flags_range _) ltac:(by rewrite flags_lor_V) s new P2 D2 fl Hu ltac:(va_lia))
    as (s1 & P1 & fl1 & [(p & E & Hg & Hl1 & Hpte & Hmem)|(E & Hg & Hl1)]).
  { intros m p j Hp Hoff Hj. apply (source_content s P2 fl); try done.
    by eapply list_elem_of_lookup_2. }
  - rewrite E. pose proof (gr_uvm _ _ _ _ _ _ _ _ _ Hg) as Hu1.
    assert (El : Z.of_nat (length (D2 ++ [p])) * PGSIZE = Z.of_nat (length D2) * PGSIZE + PGSIZE).
    { rewrite length_app. simpl. lia. }
    rewrite u64_small by va_lia. rewrite <- El.
    destruct (untouched _ _ _ _ _ _ _ _ Hok Hd Hg Hag) as [Hag1 Hd1].
    destruct (IH s1 P1 (D2 ++ [p]) fl1 sz Hu1 Hag1 Hd1) as (r & s' & P' & fl' & E' & Hres);
      [rewrite length_app; simpl; lia|done| |].
    { eapply copied_grown; [exact Hu|exact Hg|exact Hc|exact Hpte|]. by rewrite Hpa. }
    exists r, s', P', fl'. split; [exact E'|].
    destruct Hres as [(F & -> & Hg' & HlenF & Hcp)|(-> & Hun & HlenF)]; [left|right].
    + exists (p :: F). rewrite cons_middle, app_assoc. split_and!; [done| |done|done].
      by apply (grown_trans _ _ _ _ _ _ _ _ [p] F _ _ _ Hg).
    + split_and!; [done| |lia]. eapply undone_grown; [lia|exact Hg|exact Hun].
  - rewrite E. destruct (undone_unmap s new P2 D2 fl s1 P1 fl1 Hg) as (s' & P' & fl' & E' & Hun).
    exists (-1), s', P', fl'. rewrite (bind_Ok _ _ _ _ _ E'). split; [done|]. right. split_and!; [done..|lia].
Qed.
End Loop.

Lemma frames_umem s root D va p :
  frames_at s root 0 D -> 0 <= va -> D !! Z.to_nat (va / PGSIZE) = Some p ->
  umem s root va = Some (load8 (k_mem s) (p + va mod PGSIZE)).
Proof.
  intros HF Hva Hp. destruct (HF _ _ Hp) as (HV & _ & Hpa).
  rewrite Z2Nat.id in HV, Hpa by (unfold PGSIZE; div_lia).
  unfold umem, pte in *. rewrite (pte_of_page 2 _ root va (0 + va / PGSIZE * PGSIZE)) by (unfold PGSIZE; div_lia).
  by rewrite HV, Hpa.
Qed.

Lemma uvm_agree s s' root P D fl fl' :
  uvm s root P D fl -> agree_on P (k_mem s) (k_mem s') -> LkKmem ∉ k_held s' ->
  kmem_inv s' fl' -> NoDup (D ++ P ++ fl') -> uvm s' root P D fl'.
Proof.
  intros Hu Hag Hl Hinv Hnd. pose proof (uvm_wf _ _ _ _ _ Hu) as Hwf.
  destruct (pt_rep_pte_agree s s' root P Hag (wf_rep _ _ _ _ Hwf)) as [Hrep Hpte].
  eapply uvm_same_ptes; [exact Hu| |done|intros va _; apply Hpte].
  split; [done|done|done| |apply Hwf]. by apply NoDup_app in Hnd as (_ & _ & ?).
Qed.

Lemma copied_umem s s' old new P D D2 fl fl' P2 va :
  uvm s old P D fl -> uvm s' new P2 D2 fl' -> length D2 = length D -> copied s old new s' D2 ->
  0 <= va < Z.of_nat (length D) * PGSIZE ->
  umem s' new va = umem s old va /\ PTE_FLAGS (pte s' new va) = PTE_FLAGS (pte s old va).
Proof.
  intros Hu Hu2 Hlen Hc Hva. set (n := Z.to_nat (va / PGSIZE)).
  assert (Hn : (n < length D)%nat) by (unfold n, PGSIZE in *; div_lia).
  destruct (lookup_lt_is_Some_2 D n Hn) as [p Hp].
  destruct (lookup_lt_is_Some_2 D2 n) as [q Hq]; [lia|].
  destruct (Hc n q Hq) as [Hpte Hmem]. destruct (uvm_frames _ _ _ _ _ Hu n p Hp) as (HV & _ & Hpa).
  rewrite Z.add_0_l in HV, Hpa.
  assert (Epg : Z.of_nat n * PGSIZE / PGSIZE = va / PGSIZE) by (unfold n, PGSIZE in *; div_lia).
  split.
  - rewrite (frames_umem s' new D2 va q), (frames_umem s old D va p); [|apply Hu|lia|done|apply Hu2|lia|done].
    f_equal. rewrite Hmem, Hpa by (unfold PGSIZE; div_lia). done.
  - unfold pte in *. rewrite <- !(pte_of_page 2 _ _ _ va Epg), Hpte.
    by rewrite leaf_flags, flags_lor_V by (done || apply flags_range).
Qed.

(** [uvmcopy] never panics and leaves the parent's address space and every
    page outside the child's table and the free list alone; the child's
    trapframe and trampoline stay mapped.  Either it returns
    0 and the child has its own frames, in which a user program sees the
    parent's bytes with the parent's permissions; or it returns -1, only when
    the free list was too short, and the child's space is empty again. *)
Lemma uvmcopy_spec s old new P D P2 fl sz :
  uvm s old P D fl -> uvm s new P2 [] fl -> NoDup (P ++ D ++ P2 ++ fl) ->
  0 <= sz -> pgs sz = length D ->
  exists r s' P2' D2 fl', uvmcopy old new sz s = Ok r s' /\ pm_only s s' /\
    agree_off (P2 ++ fl) (k_mem s) (k_mem s') /\
    uvm s' old P D fl' /\ uvm s' new P2' D2 fl' /\ P2' ++ D2 ++ fl' ≡ₚ P2 ++ fl /\
    same_ptes 0 s s' new /\
    ((r = 0 /\ length D2 = length D /\ forall va, 0 <= va < Z.of_nat (length D) * PGSIZE ->
        umem s' new va = umem s old va /\ PTE_FLAGS (pte s' new va) = PTE_FLAGS (pte s old va)) \/
     (r = -1 /\ D2 = [] /\ (length fl <= 3 * length D)%nat)).
Proof.
  intros Hu Hu2 Hnd Hsz Hpg. pose proof (uvm_wf _ _ _ _ _ Hu) as Hwf.
  assert (Hok : Forall page_ok (P ++ D)) by (apply Forall_app; split; [apply Hwf|exact (uvm_ok _ _ _ _ _ Hu)]).
  assert (Hok2 : Forall page_ok (P2 ++ fl)).
  { pose proof (uvm_wf _ _ _ _ _ Hu2) as Hwf2. apply Forall_app. split; apply Hwf2. }
  assert (Hd : forall x, x ∈ P ++ D -> x ∉ P2 ++ fl).
  { rewrite app_assoc in Hnd. by apply NoDup_app in Hnd as (_ & Hd & _). }
  destruct (uvmcopy_loop_spec s old new P D (wf_rep _ _ _ _ Hwf) (uvm_frames _ _ _ _ _ Hu) Hok
    (uvm_size _ _ _ _ _ Hu) (length D) s P2 [] fl sz Hu2) as (r & s' & P2' & fl' & E & Hres);
    [done|done|simpl; lia|done|done|].
  assert (Ec : uvmcopy old new sz s = Ok r s').
  { rewrite <- E. unfold uvmcopy. f_equal. fold (pgs sz). by rewrite Hpg. }
  assert (Hold : forall D2, pm_only s s' -> agree_off (P2 ++ fl) (k_mem s) (k_mem s') ->
    uvm s' new P2' D2 fl' -> P2' ++ D2 ++ fl' ≡ₚ P2 ++ fl -> uvm s' old P D fl').
  { intros D2 Hpm Hoff Hu' HP. eapply uvm_agree; [exact Hu| |rewrite (pm_only_held _ _ Hpm); apply Hwf| |].
    - apply (agree_off_agree_on (P2 ++ fl)); [exact Hoff|done|apply Hwf|]. intros x Hx. apply Hd. elem_tac.
    - exact (wf_free _ _ _ _ (uvm_wf _ _ _ _ _ Hu')).
    - rewrite Permutation_app_swap_app. rewrite <- HP in Hnd. eapply sublist_NoDup; [exact Hnd|].
      apply sublist_app; [done|]. apply sublist_app; [done|]. by do 2 apply sublist_inserts_l. }
  destruct Hres as [(D2 & -> & Hg & Hlen & Hc)|(-> & Hun & Hlen)].
  - destruct Hg as [Hpm Hu' HP Hoff Hsm]. exists 0, s', P2', D2, fl'. simpl in *.
    split_and!; try done; [by eapply Hold|]. left. split_and!; [done..|].
    intros va Hva. by apply (copied_umem s s' old new P D D2 fl fl' P2').
  - destruct Hun as [Hpm Hu' HP Hoff Hsm]. exists (-1), s', P2', [], fl'. simpl in *.
    split_and!; try done; [by eapply (Hold [])|]. right. split_and!; done.
Qed.

End UvmCopy.
