(* ===== verification/Copy.v ===== *)
(** Copying between kernel and user memory ([copyout], [copyin] and [copyinstr]
    of kernel/vm.c), stated on the bytes a user program sees. *)
From S2P Require Import Prelude State Locks Kstring Kalloc Vm PageTable VmSpec Uvm UvmCopy.

Section Copy.
Context `{Linker}.

(** Pages the user can read, and can write. *)
Definition readable (s : kstate) (root va : Z) : bool :=
  (va <? MAXVA) && has (pte s root va) PTE_V && has (pte s root va) PTE_U.
Definition writable (s : kstate) (root va : Z) : bool :=
  readable s root va && has (pte s root va) PTE_W.

(** A user space whose trampoline and trapframe pages are not for the user. *)
Record uspace (s : kstate) (root : Z) (P D fl : list Z) : Prop := {
  us_uvm : uvm s root P D fl;
  us_top : forall va, TRAPFRAME <= va < MAXVA -> has (pte s root va) PTE_U = false
}.

Lemma readable_frame s root P D fl va :
  uspace s root P D fl -> 0 <= va -> readable s root va = true ->
  va < Z.of_nat (length D) * PGSIZE /\
  exists p, D !! Z.to_nat (va / PGSIZE) = Some p /\ PTE2PA (pte s root va) = p.
Proof.
  intros [Hu Htop] Hva [[Hmax%Z.ltb_lt HV]%andb_true_iff HU]%andb_true_iff.
  assert (Hlt : va < Z.of_nat (length D) * PGSIZE).
  { destruct (Z.ltb_spec va (Z.of_nat (length D) * PGSIZE)) as [|Hge]; [done|].
    destruct (Z.ltb_spec va TRAPFRAME).
    - by rewrite (uvm_rest _ _ _ _ _ Hu) in HV.
    - by rewrite Htop in HU. }
  split; [done|]. destruct (lookup_lt_is_Some_2 D (Z.to_nat (va / PGSIZE))) as [p Hp]; [unfold PGSIZE in *; div_lia|].
  exists p. split; [done|]. destruct (uvm_frames _ _ _ _ _ Hu _ _ Hp) as (_ & _ & Hpa).
  rewrite <- Hpa. f_equal. apply pte_of_page. rewrite Z2Nat.id by (unfold PGSIZE; div_lia). unfold PGSIZE; div_lia.
Qed.

Lemma readable_page s root va va' :
  va / PGSIZE = va' / PGSIZE -> readable s root va = readable s root va'.
Proof.
  intros E. unfold readable, pte. rewrite (pte_of_page 2 _ root _ _ E). do 2 f_equal.
  destruct (Z.ltb_spec va MAXVA), (Z.ltb_spec va' MAXVA); (done || va_lia).
Qed.

Lemma writable_page s root va va' :
  va / PGSIZE = va' / PGSIZE -> writable s root va = writable s root va'.
Proof.
  intros E. unfold writable, pte. by rewrite (readable_page s root va va' E), (pte_of_page 2 _ root _ _ E).
Qed.

(** A change confined to one frame of the space. *)
Lemma frame_change s root P D fl n p m' :
  uspace s root P D fl -> D !! n = Some p -> agree_off [p] (k_mem s) m' ->
  uspace (set_k_mem m' s) root P D fl /\
  (forall va, pte (set_k_mem m' s) root va = pte s root va) /\
  (forall va, 0 <= va < Z.of_nat (length D) * PGSIZE ->
     umem (set_k_mem m' s) root va =
     if bool_decide (va / PGSIZE = Z.of_nat n) then Some (load8 m' (p + va mod PGSIZE)) else umem s root va).
Proof.
  intros [Hu Htop] Hp Hoff. pose proof (uvm_wf _ _ _ _ _ Hu) as Hwf.
  pose proof (uvm_nodup _ _ _ _ _ Hu) as Hnd. pose proof (uvm_ok _ _ _ _ _ Hu) as Hok.
  assert (HpD : p ∈ D) by (by eapply list_elem_of_lookup_2).
  assert (Hpok : page_ok p) by (by rewrite Forall_forall in Hok; apply Hok).
  destruct (frame_write s root P fl p m' Hwf Hpok) as [Hwf' Hpte]; [|done|].
  { by apply NoDup_app in Hnd as (_ & Hd & _); apply Hd. }
  assert (Hu' : uvm (set_k_mem m' s) root P D fl).
  { eapply uvm_same_ptes; [exact Hu|exact Hwf'|done|]. intros va _. apply Hpte. }
  split; [split; [exact Hu'|intros va Hva; rewrite Hpte; by apply Htop]|]. split; [exact Hpte|].
  intros va Hva. destruct (lookup_lt_is_Some_2 D (Z.to_nat (va / PGSIZE))) as [q Hq]; [unfold PGSIZE in *; div_lia|].
  rewrite (frames_umem (set_k_mem m' s) root D va q), (frames_umem s root D va q);
    [|apply Hu|lia|done|apply Hu'|lia|done]. cbn [k_mem set_k_mem].
  case_bool_decide as E.
  - assert (Z.to_nat (va / PGSIZE) = n) as En by lia. rewrite En, Hp in Hq. by injection Hq as <-.
  - f_equal. apply Hoff. assert (Hqp : q <> p).
    { intros ->. apply NoDup_app in Hnd as (HndD & _). apply E.
      pose proof (NoDup_lookup _ _ _ _ HndD Hq Hp). unfold PGSIZE in *. div_lia. }
    apply (not_in_pages _ q); [auto| |by intros ->%list_elem_of_singleton|unfold PGSIZE; div_lia].
    rewrite Forall_forall in Hok. apply Hok. by eapply list_elem_of_lookup_2.
Qed.

(** The space of [s'] is that of [s] with the bytes of [src] from [o] stored at
    [va .. va+len-1]. *)
Record stored (s : kstate) (root : Z) (P D fl : list Z) (va len : Z) (src : bytes) (o : Z) (s' : kstate) : Prop := {
  st_only : exists m, s' = set_k_mem m s;
  st_space : uspace s' root P D fl;
  st_ptes : forall v, pte s' root v = pte s root v;
  st_mem : forall v, 0 <= v < Z.of_nat (length D) * PGSIZE -> umem s' root v =
    if (va <=? v) && (v <? va + len) then Some (load8 src (o + (v - va))) else umem s root v
}.

Lemma stored_0 s root P D fl va src o : uspace s root P D fl -> stored s root P D fl va 0 src o s.
Proof.
  intros Hu. split; [exists (k_mem s); by destruct s|done|done|].
  intros v Hv. destruct (Z.leb_spec va v), (Z.ltb_spec v (va + 0)); (lia || done).
Qed.

Lemma stored_trans s root P D fl va n n' src o s1 s2 :
  0 <= n -> 0 <= n' -> stored s root P D fl va n src o s1 -> stored s1 root P D fl (va + n) n' src (o + n) s2 ->
  stored s root P D fl va (n + n') src o s2.
Proof.
  intros Hn Hn' [(m1 & ->) Hu1 Hp1 Hm1] [(m2 & ->) Hu2 Hp2 Hm2].
  split; [by exists m2|done|intros v; by rewrite Hp2, Hp1|].
  intros v Hv. rewrite Hm2, Hm1 by done.
  destruct (Z.leb_spec (va + n) v), (Z.ltb_spec v (va + n + n')), (Z.leb_spec va v),
    (Z.ltb_spec v (va + n)), (Z.ltb_spec v (va + (n + n'))); cbn [andb]; try lia; try done.
  do 2 f_equal. lia.
Qed.

(** One chunk of [copyout], inside one page. *)
Lemma store_chunk s root P D fl va p n src o :
  uspace s root P D fl -> 0 <= va -> D !! Z.to_nat (va / PGSIZE) = Some p ->
  0 <= n -> va mod PGSIZE + n <= PGSIZE ->
  stored s root P D fl va n src o
    (set_k_mem (copy_into (Z.to_nat n) src o (k_mem s) (p + va mod PGSIZE)) s).
Proof.
  intros Hu Hva Hp Hn Hfit.
  destruct (frame_change s root P D fl _ p (copy_into (Z.to_nat n) src o (k_mem s) (p + va mod PGSIZE)) Hu Hp)
    as (Hu' & Hpte & Hmem).
  { apply same_outside_agree_off. intros a Ha. rewrite load8_copy_into, Z2Nat.id by lia.
    pose proof (Z.mod_pos_bound va PGSIZE ltac:(done)). bool_case; (lia || done). }
  split; [by eexists|done|done|]. intros v Hv. rewrite Hmem by done.
  rewrite Z2Nat.id by (unfold PGSIZE; div_lia). rewrite load8_copy_into, Z2Nat.id by lia.
  destruct (lookup_lt_is_Some_2 D (Z.to_nat (v / PGSIZE))) as [q Hq]; [unfold PGSIZE in *; div_lia|].
  pose proof (us_uvm _ _ _ _ _ Hu) as Hu0.
  rewrite (frames_umem s root D v q) by (done || lia || apply Hu0).
  case_bool_decide as E.
  - rewrite E, Hp in Hq. injection Hq as <-.
    destruct (Z.leb_spec va v), (Z.ltb_spec v (va + n)),
      (Z.leb_spec (p + va mod PGSIZE) (p + v mod PGSIZE)),
      (Z.ltb_spec (p + v mod PGSIZE) (p + va mod PGSIZE + n)); cbn [andb];
      try (exfalso; unfold PGSIZE in *; div_lia); try done.
    do 2 f_equal. unfold PGSIZE in *. div_lia.
  - destruct (Z.leb_spec va v), (Z.ltb_spec v (va + n)); cbn [andb]; try done.
    exfalso. unfold PGSIZE in *. div_lia.
Qed.

(** ** copyout *)

(** The test of [copyout] on the entry of the page. *)
Lemma writable_check s root P fl va :
  pt_wf s root P fl -> 0 <= va < MAXVA ->
  let a := default 0 (slot_of 2 (k_mem s) root va) in
  let v := load64 (k_mem s) a in
  (a =? 0) || negb (has v PTE_V) || negb (has v PTE_U) || negb (has v PTE_W) = negb (writable s root va) /\
  (writable s root va = true -> v = pte s root va).
Proof.
  intros Hwf Hva. unfold writable, readable. destruct (Z.ltb_spec va MAXVA); [|lia].
  unfold pte. rewrite pte_of_slot. destruct (slot_of _ _ _ _) as [r|] eqn:Er; cbn [default from_option id].
  - pose proof (slot_pos _ _ _ _ _ _ Hwf Er). destruct (Z.eqb_spec r 0); [lia|]. cbn [orb andb].
    split; [|done]. by rewrite !negb_andb.
  - rewrite !has_0. done.
Qed.

(** One iteration of [copyout]. *)
Lemma copyout_step fuel s root P D fl dstva src o len :
  uspace s root P D fl -> 0 <= dstva < 2 ^ 64 -> 0 < len ->
  let n := Z.min len (PGSIZE - dstva mod PGSIZE) in
  if writable s root dstva
  then exists s1, copyout_loop (S fuel) root dstva src o len s =
         copyout_loop fuel root (dstva - dstva mod PGSIZE + PGSIZE) src (o + n) (len - n) s1 /\
         stored s root P D fl dstva n src o s1
  else copyout_loop (S fuel) root dstva src o len s = Ok (-1) s.
Proof.
  intros Hu Hva Hlen n. cbn [copyout_loop]. destruct (Z.ltb_spec 0 len); [|lia]. cbv zeta.
  rewrite PGROUNDDOWN_eq by done. set (va0 := dstva / PGSIZE * PGSIZE).
  assert (Epg : dstva / PGSIZE = va0 / PGSIZE) by (unfold va0, PGSIZE; div_lia).
  rewrite (writable_page s root dstva va0 Epg).
  destruct (Z.leb_spec MAXVA va0) as [Hbig|Hsmall].
  { unfold writable, readable. by destruct (Z.ltb_spec va0 MAXVA); [lia|]. }
  assert (Hva0 : 0 <= va0 < MAXVA) by (unfold va0, PGSIZE in *; div_lia).
  rewrite (bind_Ok _ _ _ _ _ (walk_lookup s root va0 Hva0)), bind_gets.
  destruct (writable_check s root P fl va0 (uvm_wf _ _ _ _ _ (us_uvm _ _ _ _ _ Hu)) Hva0) as [Hck Hv].
  cbv zeta in Hck, Hv. rewrite Hck. destruct (writable s root va0) eqn:EW; cbn [negb]; [|done].
  rewrite Hv by done. rewrite bind_modify.
  assert (Hrd : readable s root dstva = true).
  { rewrite (readable_page s root dstva va0 Epg). unfold writable in EW. by apply andb_true_iff in EW as [? _]. }
  destruct (readable_frame s root P D fl dstva Hu ltac:(lia) Hrd) as (Hin & p & Hp & Hpa).
  assert (Hpa0 : PTE2PA (pte s root va0) = p) by (rewrite <- Hpa; f_equal; by apply pte_of_page).
  assert (Eoff : dstva - va0 = dstva mod PGSIZE) by (unfold va0, PGSIZE; div_lia). rewrite Eoff, Hpa0.
  assert (En : (if len <? PGSIZE - dstva mod PGSIZE then len else PGSIZE - dstva mod PGSIZE) = n).
  { unfold n. bool_case; lia. }
  rewrite En. eexists. split.
  - rewrite u64_small by (unfold va0 in *; va_lia). f_equal. unfold va0, PGSIZE. div_lia.
  - apply store_chunk; [done|lia|done|unfold n, PGSIZE; div_lia|unfold n; lia].
Qed.

Lemma writable_stored s root P D fl va n src o s' v :
  stored s root P D fl va n src o s' -> writable s' root v = writable s root v.
Proof. intros Hs. unfold writable, readable. by rewrite !(st_ptes _ _ _ _ _ _ _ _ _ _ Hs). Qed.

(** The number of pages touched by [len] bytes at [va]. *)
Definition span (va len : Z) : Z := (va mod PGSIZE + len + PGSIZE - 1) / PGSIZE.

Lemma copyout_loop_spec fuel : forall s root P D fl dstva src o len,
  uspace s root P D fl -> 0 <= dstva < 2 ^ 64 -> 0 <= len -> span dstva len < Z.of_nat fuel ->
  exists r s' k, copyout_loop fuel root dstva src o len s = Ok r s' /\
    stored s root P D fl dstva k src o s' /\ 0 <= k <= len /\
    (r = 0 /\ k = len /\ (forall i, 0 <= i < len -> writable s root (dstva + i) = true) \/
     r = -1 /\ k < len /\ writable s root (dstva + k) = false).
Proof.
  induction fuel as [|fuel IH]; intros s root P D fl dstva src o len Hu Hva Hlen Hf.
  { unfold span, PGSIZE in Hf. div_lia. }
  destruct (Z.ltb_spec 0 len) as [Hpos|Hneg].
  2: { exists 0, s, 0. assert (len = 0) as -> by lia.
       split; [done|]. split; [by apply stored_0|]. split; [lia|]. left. split_and!; [done..|lia]. }
  pose proof (copyout_step fuel s root P D fl dstva src o len Hu Hva Hpos) as Hstep. cbv zeta in Hstep.
  set (n := Z.min len (PGSIZE - dstva mod PGSIZE)) in *.
  assert (Hn : 0 < n <= len) by (unfold n, PGSIZE in *; div_lia).
  destruct (writable s root dstva) eqn:EW.
  2: { exists (-1), s, 0. split; [done|]. split; [by apply stored_0|]. split; [lia|]. right.
       rewrite Z.add_0_r. split_and!; [done|lia|done]. }
  destruct Hstep as (s1 & E & Hst). rewrite E.
  assert (HW : forall i, 0 <= i < n -> writable s root (dstva + i) = true).
  { intros i Hi. rewrite <- EW. apply writable_page. unfold n, PGSIZE in *. div_lia. }
  destruct (Z.eqb_spec n len) as [En|Hne].
  { exists 0, s1, len. rewrite En, Z.sub_diag in *. split; [by destruct fuel; [unfold span, PGSIZE in Hf; div_lia|]|].
    split; [done|]. split; [lia|]. left. done. }
  assert (Enext : dstva - dstva mod PGSIZE + PGSIZE = dstva + n) by (unfold n; lia).
  assert (Hsmall : dstva + n < 2 ^ 64).
  { destruct (readable_frame s root P D fl dstva Hu ltac:(lia)) as [Hin _].
    - unfold writable in EW. by apply andb_true_iff in EW as [? _].
    - pose proof (uvm_size _ _ _ _ _ (us_uvm _ _ _ _ _ Hu)). unfold n. va_lia. }
  destruct (IH s1 root P D fl (dstva + n) src (o + n) (len - n) (st_space _ _ _ _ _ _ _ _ _ _ Hst))
    as (r & s' & k & E' & Hst' & Hk & Hr); [lia|lia|unfold span, n, PGSIZE in *; div_lia|].
  exists r, s', (n + k). rewrite Enext. split; [exact E'|].
  split; [eapply stored_trans; [lia|lia|exact Hst|exact Hst']|]. split; [lia|].
  setoid_rewrite (writable_stored _ _ _ _ _ _ _ _ _ _ _ Hst) in Hr.
  destruct Hr as [(-> & -> & HW')|(-> & Hk' & HW')]; [left|right].
  - split_and!; [done|lia|]. intros i Hi. destruct (Z.ltb_spec i n); [by apply HW; lia|].
    replace (dstva + i) with (dstva + n + (i - n)) by lia. apply HW'. lia.
  - split_and!; [done|lia|]. by replace (dstva + (n + k)) with (dstva + n + k) by lia.
Qed.

(** ** copyin *)

Lemma walkaddr_spec s root P D fl va :
  uspace s root P D fl -> 0 <= va ->
  walkaddr root va s = Ok (if readable s root va then PTE2PA (pte s root va) else 0) s.
Proof.
  intros Hu Hva. unfold walkaddr, readable.
  destruct (Z.leb_spec MAXVA va), (Z.ltb_spec va MAXVA); try lia; [done|]. cbn [andb].
  rewrite (bind_Ok _ _ _ _ _ (walk_lookup s root va ltac:(lia))).
  unfold pte. rewrite pte_of_slot. destruct (slot_of _ _ _ _) as [r|] eqn:Er; cbn [default from_option id].
  - pose proof (slot_pos _ _ _ _ _ _ (uvm_wf _ _ _ _ _ (us_uvm _ _ _ _ _ Hu)) Er).
    destruct (Z.eqb_spec r 0); [lia|]. rewrite bind_gets.
    by destruct (has (load64 (k_mem s) r) PTE_V), (has (load64 (k_mem s) r) PTE_U).
  - by rewrite has_0.
Qed.

Lemma readable_pa s root P D fl va :
  uspace s root P D fl -> 0 <= va -> readable s root va = true -> 0 < PTE2PA (pte s root va).
Proof.
  intros Hu Hva Hr. destruct (readable_frame s root P D fl va Hu Hva Hr) as (_ & p & Hp & ->).
  pose proof (uvm_ok _ _ _ _ _ (us_uvm _ _ _ _ _ Hu)) as Hok. rewrite Forall_forall in Hok.
  pose proof (page_ok_pos p (Hok p ltac:(by eapply list_elem_of_lookup_2))) as Hpos. unfold KERNBASE in Hpos. lia.
Qed.

Lemma readable_umem s root va :
  readable s root va = true -> umem s root va = Some (load8 (k_mem s) (PTE2PA (pte s root va) + va mod PGSIZE)).
Proof. intros [[_ HV]%andb_true_iff _]%andb_true_iff. unfold umem. by rewrite HV. Qed.

(** [dst'] is [dst] with the user's bytes at [va .. va+len-1] stored from [o]. *)
Definition fetched (s : kstate) (root va len : Z) (dst : bytes) (o : Z) (dst' : bytes) : Prop :=
  forall a, if (o <=? a) && (a <? o + len) then Some (load8 dst' a) = umem s root (va + (a - o))
            else load8 dst' a = load8 dst a.

Lemma fetched_0 s root va dst o : fetched s root va 0 dst o dst.
Proof. intros a. destruct (Z.leb_spec o a), (Z.ltb_spec a (o + 0)); (lia || done). Qed.

Lemma fetched_trans s root va n n' dst o d1 d2 :
  0 <= n -> 0 <= n' -> fetched s root va n dst o d1 -> fetched s root (va + n) n' d1 (o + n) d2 ->
  fetched s root va (n + n') dst o d2.
Proof.
  intros Hn Hn' H1 H2 a. specialize (H1 a). specialize (H2 a).
  destruct (Z.leb_spec (o + n) a), (Z.ltb_spec a (o + n + n')), (Z.leb_spec o a),
    (Z.ltb_spec a (o + n)), (Z.ltb_spec a (o + (n + n'))); cbn [andb] in *; try lia; try congruence.
  rewrite H2. f_equal. lia.
Qed.

Lemma fetch_chunk s root va n dst o :
  readable s root va = true -> 0 <= n -> va mod PGSIZE + n <= PGSIZE ->
  fetched s root va n dst o
    (copy_into (Z.to_nat n) (k_mem s) (PTE2PA (pte s root va) + va mod PGSIZE) dst o).
Proof.
  intros Hr Hn Hfit a. rewrite load8_copy_into, Z2Nat.id by lia.
  destruct (Z.leb_spec o a), (Z.ltb_spec a (o + n)); cbn [andb]; try done.
  assert (Epg : (va + (a - o)) / PGSIZE = va / PGSIZE) by (unfold PGSIZE in *; div_lia).
  rewrite readable_umem by (by rewrite (readable_page s root _ va Epg)).
  unfold pte. rewrite (pte_of_page 2 _ root _ va Epg). do 2 f_equal. unfold PGSIZE in *. div_lia.
Qed.

(** The part of an iteration that [copyin] and [copyinstr] share. *)
Lemma copy_page s root P D fl srcva (len : Z) :
  uspace s root P D fl -> 0 <= srcva < 2 ^ 64 -> 0 < len ->
  let va0 := PGROUNDDOWN srcva in
  let n := Z.min len (PGSIZE - srcva mod PGSIZE) in
  0 < n <= len /\ srcva mod PGSIZE + n <= PGSIZE /\ srcva - va0 = srcva mod PGSIZE /\
  (if len <? PGSIZE - srcva mod PGSIZE then len else PGSIZE - srcva mod PGSIZE) = n /\
  walkaddr root va0 s = Ok (if readable s root srcva then PTE2PA (pte s root srcva) else 0) s /\
  (readable s root srcva = true ->
     0 < PTE2PA (pte s root srcva) /\ srcva + PGSIZE < 2 ^ 64 /\ u64 (va0 + PGSIZE) = va0 + PGSIZE) /\
  (n < len -> va0 + PGSIZE = srcva + n) /\
  (forall i, 0 <= i < n -> readable s root (srcva + i) = readable s root srcva).
Proof.
  intros Hu Hva Hlen va0 n. unfold va0. rewrite PGROUNDDOWN_eq by done.
  assert (Epg : srcva / PGSIZE * PGSIZE / PGSIZE = srcva / PGSIZE) by (unfold PGSIZE; div_lia).
  split; [unfold n, PGSIZE in *; div_lia|]. split; [unfold n; lia|]. split; [unfold PGSIZE; div_lia|].
  split; [unfold n; bool_case; lia|]. split_and!.
  - rewrite (walkaddr_spec s root P D fl) by (done || unfold PGSIZE; div_lia).
    rewrite (readable_page s root _ srcva Epg). unfold pte. by rewrite (pte_of_page 2 _ root _ srcva Epg).
  - intros Hr. split; [by eapply readable_pa; [exact Hu|lia|]|].
    destruct (readable_frame s root P D fl srcva Hu ltac:(lia) Hr) as [Hin _].
    pose proof (uvm_size _ _ _ _ _ (us_uvm _ _ _ _ _ Hu)). split; [va_lia|].
    apply u64_small. va_lia.
  - intros Hn. unfold n, PGSIZE in *. div_lia.
  - intros i Hi. apply readable_page. unfold n, PGSIZE in *. div_lia.
Qed.

Lemma copyin_loop_spec fuel : forall s root P D fl dst o srcva len,
  uspace s root P D fl -> 0 <= srcva < 2 ^ 64 -> 0 <= len -> span srcva len < Z.of_nat fuel ->
  exists r dst' k, copyin_loop fuel root dst o srcva len s = Ok (r, dst') s /\
    fetched s root srcva k dst o dst' /\ 0 <= k <= len /\
    (r = 0 /\ k = len /\ (forall i, 0 <= i < len -> readable s root (srcva + i) = true) \/
     r = -1 /\ k < len /\ readable s root (srcva + k) = false).
Proof.
  induction fuel as [|fuel IH]; intros s root P D fl dst o srcva len Hu Hva Hlen Hf.
  { unfold span, PGSIZE in Hf. div_lia. }
  cbn [copyin_loop]. destruct (Z.ltb_spec 0 len) as [Hpos|Hneg].
  2: { exists 0, dst, 0. assert (len = 0) as -> by lia. split; [done|]. split; [apply fetched_0|].
       split; [lia|]. left. split_and!; [done..|lia]. }
  destruct (copy_page s root P D fl srcva len Hu Hva Hpos)
    as (Hn & Hfit & Eoff & En & Ewa & Hrd & Enext & Hsame). cbv zeta in *.
  set (n := Z.min len (PGSIZE - srcva mod PGSIZE)) in *.
  rewrite (bind_Ok _ _ _ _ _ Ewa), Eoff, En.
  destruct (readable s root srcva) eqn:ER.
  2: { exists (-1), dst, 0. split; [done|]. split; [apply fetched_0|]. split; [lia|]. right.
       rewrite Z.add_0_r. split_and!; [done|lia|done]. }
  destruct (Hrd eq_refl) as (Hpa & Hbig & Hu64). destruct (Z.eqb_spec (PTE2PA (pte s root srcva)) 0); [lia|].
  rewrite bind_gets, Hu64. pose proof (fetch_chunk s root srcva n dst o ER ltac:(lia) Hfit) as Hfc.
  destruct (Z.eqb_spec n len) as [E|Hne].
  { eexists 0, _, len. rewrite E, Z.sub_diag in *.
    split; [by destruct fuel; [unfold span, PGSIZE in Hf; div_lia|]|]. split; [done|]. split; [lia|]. left. done. }
  rewrite Enext by lia.
  edestruct (IH s root P D fl) as (r & dst' & k & E' & Hft & Hk & Hr);
    [exact Hu| | | |exists r, dst', (n + k); split; [exact E'|]].
  1-3: unfold span, n, PGSIZE in *; div_lia.
  split; [eapply fetched_trans; [lia|lia|exact Hfc|exact Hft]|]. split; [lia|].
  destruct Hr as [(-> & -> & HW')|(-> & Hk' & HW')]; [left|right].
  - split_and!; [done|lia|]. intros i Hi. destruct (Z.ltb_spec i n); [by apply Hsame; lia|].
    replace (srcva + i) with (srcva + n + (i - n)) by lia. apply HW'. lia.
  - split_and!; [done|lia|]. by replace (srcva + (n + k)) with (srcva + n + k) by lia.
Qed.

(** ** copyinstr *)

Lemma copyinstr_page_spec n : forall m p dst o,
  exists k, (k <= n)%nat /\ (forall i, 0 <= i < Z.of_nat k -> load8 m (p + i) <> 0) /\
    if (copyinstr_page n m p dst o).1
    then (k < n)%nat /\ load8 m (p + Z.of_nat k) = 0 /\
      forall a, load8 (copyinstr_page n m p dst o).2 a = load8 (copy_into (S k) m p dst o) a
    else k = n /\ forall a, load8 (copyinstr_page n m p dst o).2 a = load8 (copy_into n m p dst o) a.
Proof.
  induction n as [|n IH]; intros m p dst o; cbn [copyinstr_page].
  { exists 0%nat. split; [lia|]. split; [lia|]. done. }
  destruct (Z.eqb_spec (load8 m p) 0) as [E0|Hne].
  - exists 0%nat. split; [lia|]. split; [lia|]. cbn [fst snd]. rewrite Z.add_0_r.
    split; [lia|]. split; [done|]. intros a. rewrite load8_store8, load8_copy_into.
    bool_case; try lia; try done. by replace (p + (a - o)) with p by lia.
  - destruct (IH m (p + 1) (store8 dst o (load8 m p)) (o + 1)) as (k & Hk & Hnz & Hres).
    exists (S k). split; [lia|]. split.
    + intros i Hi. destruct (decide (i = 0)) as [->|]; [by rewrite Z.add_0_r|].
      replace (p + i) with (p + 1 + (i - 1)) by lia. apply Hnz. lia.
    + destruct (copyinstr_page n m (p + 1) _ (o + 1)) as [g d]. cbn [fst snd] in *. destruct g.
      * destruct Hres as (Hlt & Hz & Hd). split; [lia|]. split.
        -- by replace (p + Z.of_nat (S k)) with (p + 1 + Z.of_nat k) by lia.
        -- intros a. rewrite Hd. rewrite !load8_copy_into, load8_store8.
           bool_case; try lia; try done; f_equal; lia.
      * destruct Hres as [-> Hd]. split; [done|]. intros a. rewrite Hd, !load8_copy_into, load8_store8.
        bool_case; try lia; try done; f_equal; lia.
Qed.

Lemma fetched_ext s root va n dst o d1 d2 :
  (forall a, load8 d2 a = load8 d1 a) -> fetched s root va n dst o d1 -> fetched s root va n dst o d2.
Proof. intros E H1 a. specialize (H1 a). by rewrite E. Qed.

(** The first [k] bytes at [va] are readable and none is NUL. *)
Definition no_nul (s : kstate) (root va k : Z) : Prop :=
  forall i, 0 <= i < k -> readable s root (va + i) = true /\ umem s root (va + i) <> Some 0.

Definition got_string (s : kstate) (root srcva max : Z) (dst : bytes) (o r : Z) (dst' : bytes) : Prop :=
  exists k, 0 <= k <= max /\ no_nul s root srcva k /\
    (r = 0 /\ k < max /\ umem s root (srcva + k) = Some 0 /\ fetched s root srcva (k + 1) dst o dst' \/
     r = -1 /\ (k < max -> readable s root (srcva + k) = false) /\ fetched s root srcva k dst o dst').

Lemma got_string_page s root va n dst o :
  readable s root va = true -> 0 <= n -> va mod PGSIZE + n <= PGSIZE ->
  let p := PTE2PA (pte s root va) + va mod PGSIZE in
  let '(g, d) := copyinstr_page (Z.to_nat n) (k_mem s) p dst o in
  exists k, 0 <= k <= n /\ no_nul s root va k /\
    if g then k < n /\ umem s root (va + k) = Some 0 /\ fetched s root va (k + 1) dst o d
    else k = n /\ fetched s root va n dst o d.
Proof.
  intros Hr Hn Hfit p. pose proof (copyinstr_page_spec (Z.to_nat n) (k_mem s) p dst o) as (k & Hk & Hnz & Hres).
  assert (Hu : forall i, 0 <= i < n -> readable s root (va + i) = true /\
                 umem s root (va + i) = Some (load8 (k_mem s) (p + i))).
  { intros i Hi. assert (Epg : (va + i) / PGSIZE = va / PGSIZE) by (unfold PGSIZE in *; div_lia).
    assert (Hri : readable s root (va + i) = true) by (by rewrite (readable_page s root _ va Epg)).
    split; [done|]. rewrite readable_umem by done. unfold pte. rewrite (pte_of_page 2 _ root _ va Epg).
    unfold p, pte. do 2 f_equal. unfold PGSIZE in *. div_lia. }
  destruct (copyinstr_page (Z.to_nat n) (k_mem s) p dst o) as [g d]. cbn [fst snd] in Hres.
  exists (Z.of_nat k). split; [lia|]. split.
  { intros i Hi. destruct (Hu i) as [? ->]; [lia|]. split; [done|]. intros [= E]. by apply (Hnz i). }
  destruct g.
  - destruct Hres as (Hlt & Hz & Hd). split; [lia|]. split.
    + destruct (Hu (Z.of_nat k)) as [_ ->]; [lia|]. by rewrite Hz.
    + eapply fetched_ext; [exact Hd|]. replace (S k) with (Z.to_nat (Z.of_nat k + 1)) by lia.
      by apply fetch_chunk; [|lia|lia].
  - destruct Hres as [-> Hd]. split; [lia|]. eapply fetched_ext; [exact Hd|]. by apply fetch_chunk.
Qed.

Lemma got_string_trans s root va n max dst o d1 r d2 :
  0 <= n <= max -> no_nul s root va n -> fetched s root va n dst o d1 ->
  got_string s root (va + n) (max - n) d1 (o + n) r d2 -> got_string s root va max dst o r d2.
Proof.
  intros Hn Hnn Hf (k & Hk & Hnn' & Hres). exists (n + k). split; [lia|]. split.
  - intros i Hi. destruct (Z.ltb_spec i n); [apply Hnn; lia|].
    replace (va + i) with (va + n + (i - n)) by lia. apply Hnn'. lia.
  - rewrite !Z.add_assoc. destruct Hres as [(-> & Hlt & Hz & Hf')|(-> & Hr & Hf')]; [left|right].
    + split_and!; [done|lia|done|]. replace (n + k + 1) with (n + (k + 1)) by lia.
      eapply fetched_trans; [lia|lia|exact Hf|exact Hf'].
    + split_and!; [done|intros; apply Hr; lia|]. eapply fetched_trans; [lia|lia|exact Hf|exact Hf'].
Qed.

Lemma copyinstr_loop_spec fuel : forall s root P D fl dst o srcva max,
  uspace s root P D fl -> 0 <= srcva < 2 ^ 64 -> 0 <= max -> span srcva max < Z.of_nat fuel ->
  exists r dst', copyinstr_loop fuel root dst o srcva max s = Ok (r, dst') s /\
    got_string s root srcva max dst o r dst'.
Proof.
  induction fuel as [|fuel IH]; intros s root P D fl dst o srcva max Hu Hva Hmax Hf.
  { unfold span, PGSIZE in Hf. div_lia. }
  cbn [copyinstr_loop]. destruct (Z.ltb_spec 0 max) as [Hpos|Hneg].
  2: { exists (-1), dst. split; [done|]. exists 0. split; [lia|]. split; [intros i Hi; lia|].
       right. split_and!; [done|lia|apply fetched_0]. }
  destruct (copy_page s root P D fl srcva max Hu Hva Hpos)
    as (Hn & Hfit & Eoff & En & Ewa & Hrd & Enext & Hsame). cbv zeta in *.
  set (n := Z.min max (PGSIZE - srcva mod PGSIZE)) in *.
  rewrite (bind_Ok _ _ _ _ _ Ewa), Eoff, En.
  destruct (readable s root srcva) eqn:ER.
  2: { exists (-1), dst. split; [done|]. exists 0. split; [lia|]. split; [intros i Hi; lia|].
       right. rewrite Z.add_0_r. split_and!; [done..|apply fetched_0]. }
  destruct (Hrd eq_refl) as (Hpa & Hbig & Hu64). destruct (Z.eqb_spec (PTE2PA (pte s root srcva)) 0); [lia|].
  rewrite bind_gets, Hu64. pose proof (got_string_page s root srcva n dst o ER ltac:(lia) Hfit) as Hpage.
  cbv zeta in Hpage. destruct (copyinstr_page _ _ _ _ _) as [g d].
  destruct Hpage as (k & Hk & Hnn & Hg). destruct g.
  { exists 0, d. split; [done|]. exists k. split; [lia|]. split; [done|]. left. split_and!; [done|lia|tauto..]. }
  destruct Hg as [-> Hft]. destruct (Z.eqb_spec n max) as [E|Hne].
  { exists (-1), d. rewrite E, Z.sub_diag in *. split; [by destruct fuel; [unfold span, PGSIZE in Hf; div_lia|]|].
    exists max. split; [lia|]. split; [done|]. right. split_and!; [done|lia|done]. }
  rewrite Enext by lia.
  edestruct (IH s root P D fl) as (r & dst' & E' & Hgs); [exact Hu| | | |exists r, dst'; split; [exact E'|]].
  1-3: unfold span, n, PGSIZE in *; div_lia.
  eapply got_string_trans; [|exact Hnn|exact Hft|exact Hgs]. lia.
Qed.

(** ** The three functions *)

Lemma span_fuel va len : 0 <= len -> span va len < Z.of_nat (3 + Z.to_nat (len / PGSIZE)).
Proof. intros. unfold span, PGSIZE. div_lia. Qed.


(** Bytes that [copyout] wrote to a user space are the bytes that [copyin]
    reads back from the same address. *)
Theorem copyout_copyin s root P D fl va src o len s' dst o' :
  uspace s root P D fl -> 0 <= va < 2 ^ 64 -> 0 <= len ->
  copyout root va src o len s = Ok 0 s' ->
  exists dst', copyin root dst o' va len s' = Ok (0, dst') s' /\
    forall a, load8 dst' a = if (o' <=? a) && (a <? o' + len) then load8 src (o + (a - o')) else load8 dst a.
Proof.
  intros Hu Hva Hlen E.
  destruct (copyout_loop_spec (3 + Z.to_nat (len / PGSIZE)) s root P D fl va src o len Hu Hva Hlen)
    as (r & s1 & k & E1 & Hst & Hk & Hr); [by apply span_fuel|].
  unfold copyout in E. rewrite E in E1. injection E1 as <- <-.
  destruct Hr as [(_ & -> & HW)|(? & _)]; [|done].
  assert (HR : forall i, 0 <= i < len -> readable s' root (va + i) = true).
  { intros i Hi. unfold readable. rewrite !(st_ptes _ _ _ _ _ _ _ _ _ _ Hst).
    specialize (HW i Hi). unfold writable, readable in HW. by apply andb_true_iff in HW as [? _]. }
  destruct (copyin_loop_spec (3 + Z.to_nat (len / PGSIZE)) s' root P D fl dst o' va len)
    as (r & dst' & k & E2 & Hft & Hk2 & Hr); [exact (st_space _ _ _ _ _ _ _ _ _ _ Hst)|done|done|by apply span_fuel|].
  destruct Hr as [(-> & -> & _)|(-> & Hk' & HF)]; [|by rewrite HR in HF by lia].
  exists dst'. split; [done|]. intros a. specialize (Hft a).
  destruct (Z.leb_spec o' a), (Z.ltb_spec a (o' + len)); cbn [andb] in *; try done.
  destruct (readable_frame s' root P D fl (va + (a - o')) (st_space _ _ _ _ _ _ _ _ _ _ Hst)) as [Hin _];
    [lia|apply HR; lia|].
  rewrite (st_mem _ _ _ _ _ _ _ _ _ _ Hst) in Hft by lia.
  replace ((va <=? va + (a - o')) && (va + (a - o') <? va + len)) with true in Hft by lia.
  injection Hft as ->. f_equal. lia.
Qed.

(** [copyin] returns the user's bytes, or -1 at the first page the user
    may not read. *)
Lemma copyin_correct s root P D fl dst o srcva len :
  uspace s root P D fl -> 0 <= srcva < 2 ^ 64 -> 0 <= len ->
  exists r dst' k, copyin root dst o srcva len s = Ok (r, dst') s /\
    fetched s root srcva k dst o dst' /\ 0 <= k <= len /\
    (r = 0 /\ k = len /\ (forall i, 0 <= i < len -> readable s root (srcva + i) = true) \/
     r = -1 /\ k < len /\ readable s root (srcva + k) = false).
Proof. intros. eapply copyin_loop_spec; [done..|by apply span_fuel]. Qed.

(** C15: [copyinstr] returns 0 exactly when the user's memory at [srcva] has a
    NUL among the first [max] bytes with only readable bytes before it, and
    then the bytes up to and including the NUL were copied; otherwise it
    returns -1. *)
Theorem copyinstr_correct s root P D fl dst o srcva max :
  uspace s root P D fl -> 0 <= srcva < 2 ^ 64 -> 0 <= max ->
  exists r dst', copyinstr root dst o srcva max s = Ok (r, dst') s /\
    got_string s root srcva max dst o r dst'.
Proof. intros. eapply copyinstr_loop_spec; [done..|by apply span_fuel]. Qed.

Lemma readable_lt s root va : readable s root va = true -> va < MAXVA.
Proof. intros [[Hm _]%andb_true_iff _]%andb_true_iff. by apply Z.ltb_lt. Qed.

Lemma writable_lt s root va : writable s root va = true -> va < MAXVA.
Proof. intros [Hr _]%andb_true_iff. by eapply readable_lt. Qed.

Lemma uspace_ext s s' root P D fl :
  k_mem s' = k_mem s -> k_freelist s' = k_freelist s -> LkKmem ∉ k_held s' ->
  uspace s root P D fl -> uspace s' root P D fl.
Proof.
  intros Em Ef Hl [[[_ [Hf [Hnd Hpo]] Hrep Hnp Hok] Hokd Hndp Hsz Hfr Hrest] Htop].
  assert (Ep : forall va, pte s' root va = pte s root va) by (intros; unfold pte; by rewrite Em).
  split; [split; [split| | | | |]|]; try done.
  - split; [by rewrite Em, Ef|done].
  - by rewrite Em.
  - intros i p Hi. specialize (Hfr i p Hi). by rewrite !Ep.
  - intros va Hva. rewrite Ep. by apply Hrest.
  - intros va Hva. rewrite Ep. by apply Htop.
Qed.

(** One byte of user memory. *)
Lemma copyin_byte s root P D fl va :
  uspace s root P D fl -> 0 <= va < 2 ^ 64 ->
  exists b, copyin root ∅ 0 va 1 s =
      Ok (if readable s root va then (0, b) else (-1, b)) s /\
    (readable s root va = true -> umem s root va = Some (load8 b 0)).
Proof.
  intros Hu Hva. destruct (copyin_correct s root P D fl ∅ 0 va 1 Hu Hva ltac:(lia)) as (r & b & k & E & Hf & Hk & Hr).
  exists b. destruct Hr as [(-> & -> & HR)|(-> & Hk1 & HR)].
  - specialize (HR 0 ltac:(lia)). rewrite Z.add_0_r in HR. rewrite HR. split; [done|]. intros _.
    specialize (Hf 0). change ((0 <=? 0) && (0 <? 0 + 1)) with true in Hf. cbv iota in Hf.
    rewrite Hf. f_equal. lia.
  - assert (k = 0) as -> by lia. rewrite Z.add_0_r in HR. rewrite HR. split; [done|]. discriminate.
Qed.

(** The bytes [w] are what the user has at [va]. *)
Definition ubytes (s : kstate) (root va : Z) (w : list Z) : Prop :=
  forall k b, w !! k = Some b -> umem s root (va + Z.of_nat k) = Some b.

Lemma ubytes_nil s root va : ubytes s root va [].
Proof. intros k b Hk. done. Qed.

Lemma ubytes_cons s root va b w :
  umem s root va = Some b -> ubytes s root (va + 1) w -> ubytes s root va (b :: w).
Proof.
  intros Hb Hw [|k] c Hk; cbn in Hk.
  - injection Hk as <-. by rewrite Z.add_0_r.
  - rewrite <- (Hw k c Hk). f_equal. lia.
Qed.

End Copy.

(** A space with one writable page of zeros on the small machine. *)
Lemma demo_uspace :
  exists s root P D fl, @uspace demo_linker s root P D fl /\
    forall va, 0 <= va < PGSIZE -> writable s root va = true /\ umem s root va = Some 0.
Proof.
  destruct demo_space as (s & root & fl & Hu & Hz & Hlen).
  destruct (@uvmalloc_loop_spec demo_linker 1 s root [root] [] fl 0 PGSIZE PTE_W Hu)
    as (r & s1 & P & fl1 & _ & Hres); [simpl; lia|done|done|by split|].
  destruct Hres as [(D & _ & Hg & HD & Hzf)|(_ & _ & Hfew)]; [|simpl in Hfew; lia].
  destruct Hg as [_ Hu1 _ _ Hpte]. simpl in Hu1, HD. change (length D = 1%nat) in HD.
  destruct D as [|p [|]]; try done. exists s1, root, P, [p], fl1. split.
  - split; [done|]. intros va Hva. rewrite Hpte, Hz, has_0; [done|]. right. va_lia.
  - intros va Hva. destruct (Hzf 0%nat p eq_refl) as [Hp Hmem].
    assert (Epg : va / PGSIZE = (Z.of_nat (@length Z []) + Z.of_nat 0) * PGSIZE / PGSIZE)
      by (unfold PGSIZE in *; simpl; div_lia).
    split.
    + rewrite (writable_page s1 root _ _ Epg). unfold writable, readable. rewrite Hp.
      apply andb_true_iff. split; [apply andb_true_iff; split; [apply andb_true_iff; split|]|].
      * reflexivity.
      * apply has_V_lor.
      * unfold leaf. rewrite <- Z.lor_assoc. by apply has_lor_l.
      * unfold leaf. rewrite <- Z.lor_assoc. by apply has_lor_l.
    + rewrite (frames_umem s1 root [p] va p); [|exact (uvm_frames _ _ _ _ _ Hu1)|lia|].
      * f_equal. apply Hmem. pose proof (Z.mod_pos_bound va PGSIZE). unfold PGSIZE in *. lia.
      * assert (Z.to_nat (va / PGSIZE) = 0%nat) as -> by (unfold PGSIZE in *; div_lia). done.
Qed.


Lemma copyout_copyin_witness :
  exists s root s' dst', copyout root 10 {[ 0 := 7 ]} 0 1 s = Ok 0 s' /\
    copyin root ∅ 0 10 1 s' = Ok (0, dst') s' /\ load8 dst' 0 = 7.
Proof.
  destruct demo_uspace as (s & root & P & D & fl & Hu & HW). exists s, root.
  destruct (@copyout_loop_spec demo_linker 3 s root P D fl 10 {[ 0 := 7 ]} 0 1 Hu)
    as (r & s' & k & E & _ & Hk & Hr); [by split|done|reflexivity|].
  destruct Hr as [(-> & -> & _)|(_ & Hk' & HF)].
  - destruct (@copyout_copyin demo_linker s root P D fl 10 {[ 0 := 7 ]} 0 1 s' ∅ 0 Hu)
      as (dst' & E' & Hd); [by split|done|exact E|].
    exists s', dst'. split; [exact E|]. split; [exact E'|]. by rewrite Hd.
  - exfalso. assert (k = 0) as -> by lia. destruct (HW 10) as [HW10 _]; [by split|]. change (writable s root 10 = false) in HF. congruence.
Defined.

Lemma copyinstr_correct_witness :
  exists s root dst', copyinstr root ∅ 0 0 16 s = Ok (0, dst') s /\ load8 dst' 0 = 0.
Proof.
  destruct demo_uspace as (s & root & P & D & fl & Hu & HW). exists s, root.
  destruct (@copyinstr_correct demo_linker s root P D fl ∅ 0 0 16 Hu) as (r & dst' & E & Hgs); [by split|done|].
  destruct Hgs as (k & Hk & Hnn & Hr). assert (k = 0) as ->.
  { destruct (decide (k = 0)) as [|Hne]; [done|]. exfalso.
    destruct (Hnn 0) as [_ Hn0]; [lia|]. apply Hn0. by apply HW. }
  destruct Hr as [(-> & _ & _ & Hf)|(_ & Hr & _)].
  - exists dst'. split; [exact E|]. specialize (Hf 0). change (Some (load8 dst' 0) = umem s root 0) in Hf.
    destruct (HW 0) as [_ Hm0]; [by split|]. rewrite Hm0 in Hf. by injection Hf.
  - exfalso. destruct (HW 0) as [HW0 _]; [by split|]. apply andb_true_iff in HW0 as [HR0 _].
    change (0 < 16 -> readable s root 0 = false) in Hr. rewrite Hr in HR0 by lia. done.
Defined.
