(* ===== verification/Spinlock.v ===== *)
(** Spin-locks (kernel/spinlock.c) on several harts.

    Every hart runs kernel code that calls [acquire], [release], [push_off] and
    [pop_off] in any order.  The calls are interleaved at the granularity of
    single accesses to a lock: [acquire] and [release] are cut where they read
    or write [lk->locked] or [lk->cpu].  What belongs to one hart only (its
    interrupt flag and its struct cpu) is updated within a step. *)
From S2P Require Import Prelude.

(** struct spinlock (kernel/spinlock.h), without the debugging name *)
Record spinlock : Type := mk_spinlock { lk_locked : Z; lk_cpu : option nat }.

Definition initlock : spinlock := mk_spinlock 0 None.

(** The interrupt flag of a hart (sstatus.SIE), and [noff] and [intena] of its
    struct cpu (kernel/proc.h). *)
Record cpu : Type := mk_cpu { c_intr : bool; c_noff : Z; c_intena : bool }.

Definition push_off (c : cpu) : cpu :=
  let old := c_intr c in
  mk_cpu false (c_noff c + 1) (if c_noff c =? 0 then old else c_intena c).

Definition pop_off (c : cpu) : cpu + string :=
  if c_intr c then inr "pop_off - interruptible"
  else if c_noff c <? 1 then inr "pop_off"
  else
    let noff := c_noff c - 1 in
    inl (mk_cpu ((noff =? 0) && c_intena c) noff (c_intena c)).

(** Where a hart is: outside the lock code, or before one of its accesses. *)
Inductive pc : Type :=
| Idle
| AcqLocked (l : nat)    (* acquire: holding() reads lk->locked *)
| AcqCpu (l : nat)       (* acquire: holding() reads lk->cpu *)
| AcqSwap (l : nat)      (* acquire: the test-and-set of lk->locked *)
| AcqSetCpu (l : nat)    (* acquire: lk->cpu = mycpu() *)
| RelLocked (l : nat)    (* release: holding() reads lk->locked *)
| RelCpu (l : nat)       (* release: holding() reads lk->cpu *)
| RelClearCpu (l : nat)  (* release: lk->cpu = 0 *)
| RelSwap (l : nat)      (* release: the store to lk->locked *)
| RelPop                 (* release: pop_off() *)
| Panicked (msg : string).

(** A hart.  [h_held] are the locks it has acquired and not begun to release,
    [h_pushes] the number of its own unmatched [push_off]s, and [h_chosen] the
    interrupt flag its code chose while no [push_off] was pending: these three
    describe what its code did and are not read by the lock code. *)
Record hart : Type := mk_hart {
  h_cpu : cpu; h_pc : pc; h_held : list nat; h_pushes : nat; h_chosen : bool }.

Record machine : Type := mk_machine { m_locks : list spinlock; m_harts : list hart }.

(** The next access of hart [h], which is inside [acquire] or [release]. *)
Definition lock_code (h : nat) (locks : list spinlock) (x : hart) : list spinlock * hart :=
  let goto p := mk_hart (h_cpu x) p (h_held x) (h_pushes x) (h_chosen x) in
  match h_pc x with
  | Idle | Panicked _ => (locks, x)
  | AcqLocked l =>
      match locks !! l with
      | None => (locks, x)
      | Some lk => (locks, goto (if lk_locked lk =? 0 then AcqSwap l else AcqCpu l))
      end
  | AcqCpu l =>
      match locks !! l with
      | None => (locks, x)
      | Some lk => (locks, goto (if bool_decide (lk_cpu lk = Some h) then Panicked "acquire" else AcqSwap l))
      end
  | AcqSwap l =>
      match locks !! l with
      | None => (locks, x)
      | Some lk => (<[l := mk_spinlock 1 (lk_cpu lk)]> locks,
                    goto (if lk_locked lk =? 0 then AcqSetCpu l else AcqSwap l))
      end
  | AcqSetCpu l =>
      match locks !! l with
      | None => (locks, x)
      | Some lk => (<[l := mk_spinlock (lk_locked lk) (Some h)]> locks,
                    mk_hart (h_cpu x) Idle (l :: h_held x) (h_pushes x) (h_chosen x))
      end
  | RelLocked l =>
      match locks !! l with
      | None => (locks, x)
      | Some lk => (locks, goto (if lk_locked lk =? 0 then Panicked "release" else RelCpu l))
      end
  | RelCpu l =>
      match locks !! l with
      | None => (locks, x)
      | Some lk => (locks,
          if bool_decide (lk_cpu lk = Some h)
          then mk_hart (h_cpu x) (RelClearCpu l) (filter (.≠ l) (h_held x)) (h_pushes x) (h_chosen x)
          else goto (Panicked "release"))
      end
  | RelClearCpu l =>
      match locks !! l with
      | None => (locks, x)
      | Some lk => (<[l := mk_spinlock (lk_locked lk) None]> locks, goto (RelSwap l))
      end
  | RelSwap l =>
      match locks !! l with
      | None => (locks, x)
      | Some lk => (<[l := mk_spinlock 0 (lk_cpu lk)]> locks, goto RelPop)
      end
  | RelPop =>
      match pop_off (h_cpu x) with
      | inl c => (locks, mk_hart c Idle (h_held x) (h_pushes x) (h_chosen x))
      | inr msg => (locks, goto (Panicked msg))
      end
  end.

(** The calls the code of a hart can make while it is outside the lock code. *)
Inductive call (locks : list spinlock) (x : hart) : hart -> Prop :=
| call_acquire l : (l < length locks)%nat ->
    call locks x (mk_hart (push_off (h_cpu x)) (AcqLocked l) (h_held x) (h_pushes x) (h_chosen x))
| call_release l : (l < length locks)%nat ->
    call locks x (mk_hart (h_cpu x) (RelLocked l) (h_held x) (h_pushes x) (h_chosen x))
| call_push_off :
    call locks x (mk_hart (push_off (h_cpu x)) Idle (h_held x) (S (h_pushes x)) (h_chosen x))
| call_pop_off c n : h_pushes x = S n -> pop_off (h_cpu x) = inl c ->
    call locks x (mk_hart c Idle (h_held x) n (h_chosen x))
| call_intr b : c_noff (h_cpu x) = 0 ->
    call locks x (mk_hart (mk_cpu b (c_noff (h_cpu x)) (c_intena (h_cpu x))) Idle (h_held x) (h_pushes x) b).

Inductive step : machine -> machine -> Prop :=
| step_code m h x locks x' :
    m_harts m !! h = Some x -> lock_code h (m_locks m) x = (locks, x') ->
    step m (mk_machine locks (<[h := x']> (m_harts m)))
| step_call m h x x' :
    m_harts m !! h = Some x -> h_pc x = Idle -> call (m_locks m) x x' ->
    step m (mk_machine (m_locks m) (<[h := x']> (m_harts m))).

(** The machine after boot: [n] harts with interrupts off, [k] free locks. *)
Definition boot (n k : nat) : machine :=
  mk_machine (replicate k initlock) (replicate n (mk_hart (mk_cpu false 0 false) Idle [] 0 false)).

(** * The invariant *)

(** Hart [x] owns lock [l]: from its successful test-and-set to its store of 0. *)
Definition inside (x : hart) (l : nat) : Prop :=
  l ∈ h_held x \/ h_pc x = AcqSetCpu l \/ h_pc x = RelClearCpu l \/ h_pc x = RelSwap l.

(** Hart [x] is recorded in [lk->cpu]. *)
Definition recorded (x : hart) (l : nat) : Prop := l ∈ h_held x \/ h_pc x = RelClearCpu l.

(** [push_off]s of [acquire] and [release] calls in progress. *)
Definition pending (p : pc) : Z :=
  match p with
  | AcqLocked _ | AcqCpu _ | AcqSwap _ | AcqSetCpu _ | RelClearCpu _ | RelSwap _ | RelPop => 1
  | _ => 0
  end.

(** The interrupt state of a hart: off while a [push_off] is pending, and
    otherwise as its code chose. *)
Definition hart_ok (x : hart) : Prop :=
  (forall msg, h_pc x = Panicked msg -> msg = "acquire" \/ msg = "release") /\
  NoDup (h_held x) /\
  (forall l, h_pc x = AcqSetCpu l \/ h_pc x = RelClearCpu l \/ h_pc x = RelSwap l -> l ∉ h_held x) /\
  match h_pc x with
  | Panicked _ => Z.of_nat (length (h_held x)) <= c_noff (h_cpu x)
  | p => c_noff (h_cpu x) = Z.of_nat (length (h_held x)) + Z.of_nat (h_pushes x) + pending p
  end /\
  0 <= c_noff (h_cpu x) /\
  if c_noff (h_cpu x) =? 0 then c_intr (h_cpu x) = h_chosen x
  else c_intr (h_cpu x) = false /\ c_intena (h_cpu x) = h_chosen x.

Record inv (m : machine) : Prop := {
  inv_hart : forall h x, m_harts m !! h = Some x -> hart_ok x;
  inv_lock : forall h x l, m_harts m !! h = Some x -> inside x l ->
    exists lk, m_locks m !! l = Some lk /\ lk_locked lk = 1;
  inv_unique : forall h h' x x' l, m_harts m !! h = Some x -> m_harts m !! h' = Some x' ->
    inside x l -> inside x' l -> h = h';
  inv_cpu : forall l lk h, m_locks m !! l = Some lk ->
    (lk_cpu lk = Some h <-> exists x, m_harts m !! h = Some x /\ recorded x l);
  inv_free : forall l lk, m_locks m !! l = Some lk -> lk_locked lk <> 0 ->
    exists h x, m_harts m !! h = Some x /\ inside x l
}.

Lemma upd_lookup (harts : list hart) h x x' i y :
  harts !! h = Some x -> <[h := x']> harts !! i = Some y ->
  (i = h /\ y = x') \/ (i <> h /\ harts !! i = Some y).
Proof.
  intros Hx. pose proof (lookup_lt_Some _ _ _ Hx). destruct (decide (i = h)) as [->|Hne].
  - rewrite list_lookup_insert_eq by done. intros [= <-]. by left.
  - rewrite list_lookup_insert_ne by done. by right.
Qed.

Lemma upd_same (harts : list hart) h x x' : harts !! h = Some x -> <[h := x']> harts !! h = Some x'.
Proof. intros Hx. apply list_lookup_insert_eq. by eapply lookup_lt_Some. Qed.

(** A step that changes no lock and not what the hart owns. *)
Lemma inv_local m h x x' :
  inv m -> m_harts m !! h = Some x -> hart_ok x' ->
  (forall l, inside x' l <-> inside x l) -> (forall l, recorded x' l <-> recorded x l) ->
  inv (mk_machine (m_locks m) (<[h := x']> (m_harts m))).
Proof.
  intros [Hh Hl Hu Hc Hf] Hx Hok Hi Hr. split; cbn [m_locks m_harts].
  - intros i y Hy. destruct (upd_lookup _ _ _ _ _ _ Hx Hy) as [[-> ->]|[_ Hy']]; eauto.
  - intros i y l Hy Hin. destruct (upd_lookup _ _ _ _ _ _ Hx Hy) as [[-> ->]|[_ Hy']]; [|eauto].
    apply (Hl h x); [done|by apply Hi].
  - intros i j y z l Hy Hz Hin Hjn.
    destruct (upd_lookup _ _ _ _ _ _ Hx Hy) as [[-> ->]|[_ Hy']],
      (upd_lookup _ _ _ _ _ _ Hx Hz) as [[-> ->]|[_ Hz']]; rewrite ?Hi in *; eauto.
  - intros l lk j Hlk. rewrite (Hc l lk j Hlk). split.
    + intros (y & Hy & Hrec). destruct (decide (j = h)) as [->|Hne].
      * rewrite Hx in Hy. injection Hy as <-. exists x'. split; [by eapply upd_same|by apply Hr].
      * exists y. by rewrite list_lookup_insert_ne.
    + intros (y & Hy & Hrec). destruct (upd_lookup _ _ _ _ _ _ Hx Hy) as [[-> ->]|[_ Hy']]; [|eauto].
      exists x. split; [done|by apply Hr].
  - intros l lk Hlk Hne. destruct (Hf l lk Hlk Hne) as (j & y & Hy & Hin). destruct (decide (j = h)) as [->|Hjh].
    + rewrite Hx in Hy. injection Hy as <-. exists h, x'. split; [by eapply upd_same|by apply Hi].
    + exists j, y. by rewrite list_lookup_insert_ne.
Qed.

(** A step that updates lock [l], for a hart that owns [l] before or after. *)
Lemma inv_update m h x x' l lk lk' :
  inv m -> m_harts m !! h = Some x -> m_locks m !! l = Some lk -> hart_ok x' ->
  (forall l', l' <> l -> (inside x' l' <-> inside x l') /\ (recorded x' l' <-> recorded x l')) ->
  (forall j y, j <> h -> m_harts m !! j = Some y -> ~ inside y l) ->
  (lk_locked lk' = 1 /\ inside x' l \/ lk_locked lk' = 0 /\ ~ inside x' l) ->
  (lk_cpu lk' = Some h /\ recorded x' l \/ lk_cpu lk' = None /\ ~ recorded x' l) ->
  inv (mk_machine (<[l := lk']> (m_locks m)) (<[h := x']> (m_harts m))).
Proof.
  intros [Hh Hl Hu Hc Hf] Hx Hlk Hok Hoth Hexcl Hlock Hcpu.
  assert (Hrec : forall y l0, recorded y l0 -> inside y l0) by (unfold recorded, inside; tauto).
  pose proof (lookup_lt_Some _ _ _ Hlk) as Hlt. split; cbn [m_locks m_harts].
  - intros i y Hy. destruct (upd_lookup _ _ _ _ _ _ Hx Hy) as [[-> ->]|[_ Hy']]; eauto.
  - intros i y l0 Hy Hin. destruct (decide (l0 = l)) as [->|Hne].
    + rewrite list_lookup_insert_eq by done. exists lk'. split; [done|].
      destruct (upd_lookup _ _ _ _ _ _ Hx Hy) as [[-> ->]|[Hi Hy']]; [tauto|exfalso; eapply Hexcl; eauto].
    + rewrite list_lookup_insert_ne by done.
      destruct (upd_lookup _ _ _ _ _ _ Hx Hy) as [[-> ->]|[_ Hy']]; [|eauto].
      apply (Hl h x); [done|by apply Hoth].
  - intros i j y z l0 Hy Hz Hin Hjn.
    destruct (upd_lookup _ _ _ _ _ _ Hx Hy) as [[-> ->]|[Hi Hy']],
      (upd_lookup _ _ _ _ _ _ Hx Hz) as [[-> ->]|[Hj Hz']]; [done| | |eauto];
      destruct (decide (l0 = l)) as [->|Hne]; try (by exfalso; eapply Hexcl; eauto).
    + apply (Hu h j x z l0); [done..|by apply Hoth|done].
    + apply (Hu i h y x l0); [done..|by apply Hoth].
  - intros l0 lk0 j Hlk0. destruct (decide (l0 = l)) as [->|Hne].
    + rewrite list_lookup_insert_eq in Hlk0 by done. injection Hlk0 as <-. split.
      * intros E. destruct Hcpu as [[E' Hr]|[E' _]]; [|congruence].
        assert (j = h) as -> by congruence. exists x'. split; [by eapply upd_same|done].
      * intros (y & Hy & Hr). destruct (upd_lookup _ _ _ _ _ _ Hx Hy) as [[-> ->]|[Hi Hy']]; [tauto|].
        exfalso. eapply Hexcl; eauto.
    + rewrite list_lookup_insert_ne in Hlk0 by done. rewrite (Hc l0 lk0 j Hlk0). split.
      * intros (y & Hy & Hr). destruct (decide (j = h)) as [->|Hjh].
        -- rewrite Hx in Hy. injection Hy as <-. exists x'. split; [by eapply upd_same|by apply Hoth].
        -- exists y. by rewrite list_lookup_insert_ne.
      * intros (y & Hy & Hr). destruct (upd_lookup _ _ _ _ _ _ Hx Hy) as [[-> ->]|[_ Hy']]; [|eauto].
        exists x. split; [done|by apply Hoth].
  - intros l0 lk0 Hlk0 Hne0. destruct (decide (l0 = l)) as [->|Hne].
    + rewrite list_lookup_insert_eq in Hlk0 by done. injection Hlk0 as <-.
      exists h, x'. split; [by eapply upd_same|]. destruct Hlock as [[_ ?]|[? _]]; [done|congruence].
    + rewrite list_lookup_insert_ne in Hlk0 by done.
      destruct (Hf l0 lk0 Hlk0 Hne0) as (j & y & Hy & Hin). destruct (decide (j = h)) as [->|Hjh].
      * rewrite Hx in Hy. injection Hy as <-. exists h, x'. split; [by eapply upd_same|by apply Hoth].
      * exists j, y. by rewrite list_lookup_insert_ne.
Qed.

Ltac hart_tac := unfold hart_ok; cbn in *; split_and!; try done; first [lia | naive_solver].

(** [push_off] and [pop_off] keep the interrupt discipline. *)
Definition cpu_ok (c : cpu) (chosen : bool) : Prop :=
  0 <= c_noff c /\
  if c_noff c =? 0 then c_intr c = chosen else c_intr c = false /\ c_intena c = chosen.

Lemma push_off_ok c b : cpu_ok c b -> cpu_ok (push_off c) b /\ c_noff (push_off c) = c_noff c + 1.
Proof.
  intros [Hn Hi]. split; [|done]. unfold cpu_ok, push_off. cbn. split; [lia|].
  destruct (Z.eqb_spec (c_noff c) 0), (Z.eqb_spec (c_noff c + 1) 0); try lia; tauto.
Qed.

Lemma pop_off_ok c b :
  cpu_ok c b -> 0 < c_noff c ->
  exists c', pop_off c = inl c' /\ cpu_ok c' b /\ c_noff c' = c_noff c - 1.
Proof.
  intros [Hn Hi] Hpos. unfold pop_off. destruct (Z.eqb_spec (c_noff c) 0); [lia|]. destruct Hi as [-> Hi].
  destruct (Z.ltb_spec (c_noff c) 1); [lia|]. eexists. split; [done|]. split; [|done].
  unfold cpu_ok. cbn. split; [lia|]. by destruct (Z.eqb_spec (c_noff c - 1) 0).
Qed.

Lemma hart_ok_cpu x : hart_ok x -> cpu_ok (h_cpu x) (h_chosen x).
Proof. intros (_ & _ & _ & _ & ? & ?). by split. Qed.

Lemma call_inv m h x x' :
  inv m -> m_harts m !! h = Some x -> h_pc x = Idle -> call (m_locks m) x x' ->
  inv (mk_machine (m_locks m) (<[h := x']> (m_harts m))).
Proof.
  intros Hinv Hx Hidle Hcall. pose proof (inv_hart _ Hinv h x Hx) as Hok.
  pose proof (hart_ok_cpu x Hok) as Hcpu. destruct Hok as (_ & Hnd & _ & Hn & _). rewrite Hidle in Hn. cbn [pending] in Hn.
  apply (inv_local m h x x' Hinv Hx).
  - destruct Hcall as [l _|l _| |c n Hp E|b E]; unfold hart_ok; cbn.
    + destruct (push_off_ok _ _ Hcpu) as [[? ?] En]. split_and!; try done; (lia || naive_solver).
    + destruct Hcpu. split_and!; try done; (lia || naive_solver).
    + destruct (push_off_ok _ _ Hcpu) as [[? ?] En]. split_and!; try done; (lia || naive_solver).
    + destruct (pop_off_ok _ _ Hcpu) as (c' & E' & [? ?] & En); [lia|].
      rewrite E in E'. injection E' as <-. split_and!; try done; (lia || naive_solver).
    + rewrite E. split_and!; try done; (lia || naive_solver).
  - destruct Hcall; intros l0; unfold inside; rewrite Hidle; cbn; naive_solver.
  - destruct Hcall; intros l0; unfold recorded; rewrite Hidle; cbn; naive_solver.
Qed.

(** No other hart owns a lock that [x] owns. *)
Lemma inside_excl m h x l :
  inv m -> m_harts m !! h = Some x -> inside x l ->
  forall j y, j <> h -> m_harts m !! j = Some y -> ~ inside y l.
Proof. intros Hinv Hx Hin j y Hj Hy Hyin. apply Hj. by eapply (inv_unique _ Hinv j h y x l). Qed.

Lemma inside_locked m h x l lk :
  inv m -> m_harts m !! h = Some x -> inside x l -> m_locks m !! l = Some lk -> lk_locked lk = 1.
Proof.
  intros Hinv Hx Hin Hlk. destruct (inv_lock _ Hinv h x l Hx Hin) as (lk' & Hlk' & ?). congruence.
Qed.

(** A free lock has no owner, recorded or not. *)
Lemma free_lock m l lk :
  inv m -> m_locks m !! l = Some lk -> lk_locked lk = 0 ->
  lk_cpu lk = None /\ forall j y, m_harts m !! j = Some y -> ~ inside y l.
Proof.
  intros Hinv Hlk H0. assert (Hno : forall j y, m_harts m !! j = Some y -> ~ inside y l).
  { intros j y Hy Hin. pose proof (inside_locked _ _ _ _ _ Hinv Hy Hin Hlk). lia. }
  split; [|done]. destruct (lk_cpu lk) as [j|] eqn:E; [|done].
  apply (inv_cpu _ Hinv l lk j Hlk) in E as (y & Hy & Hr). exfalso. apply (Hno j y Hy).
  unfold recorded, inside in *. tauto.
Qed.

Lemma locked_one m l lk :
  inv m -> m_locks m !! l = Some lk -> lk_locked lk <> 0 -> lk_locked lk = 1.
Proof.
  intros Hinv Hlk Hne. destruct (inv_free _ Hinv l lk Hlk Hne) as (j & y & Hy & Hin).
  by eapply inside_locked.
Qed.

Lemma swap_inv m h x l lk :
  inv m -> m_harts m !! h = Some x -> h_pc x = AcqSwap l -> m_locks m !! l = Some lk ->
  inv (mk_machine (<[l := mk_spinlock 1 (lk_cpu lk)]> (m_locks m))
        (<[h := mk_hart (h_cpu x) (if lk_locked lk =? 0 then AcqSetCpu l else AcqSwap l)
                  (h_held x) (h_pushes x) (h_chosen x)]> (m_harts m))).
Proof.
  intros Hinv Hx Hpc Hlk. pose proof (inv_hart _ Hinv h x Hx) as (_ & Hnd & _ & Hn & Hp & Hc).
  rewrite Hpc in Hn. destruct (Z.eqb_spec (lk_locked lk) 0) as [E0|Hne].
  - destruct (free_lock m l lk Hinv Hlk E0) as [Ecpu Hno].
    assert (Hnh : l ∉ h_held x) by (intros Hl; apply (Hno h x Hx); by left).
    apply (inv_update m h x _ l lk); try done.
    + hart_tac.
    + intros l' Hl'. unfold inside, recorded. rewrite Hpc. cbn. naive_solver.
    + intros j y _. apply Hno.
    + left. split; [done|]. right. by left.
    + right. split; [done|]. unfold recorded. cbn. naive_solver.
  - rewrite list_insert_id by (rewrite Hlk; f_equal; destruct lk; cbn in *; f_equal;
      by apply (locked_one m l _ Hinv Hlk)).
    apply (inv_local m h x); [done|done| |..].
    + hart_tac.
    + intros l'. unfold inside. rewrite Hpc. cbn. naive_solver.
    + intros l'. unfold recorded. rewrite Hpc. cbn. naive_solver.
Qed.

Lemma set_cpu_inv m h x l lk :
  inv m -> m_harts m !! h = Some x -> h_pc x = AcqSetCpu l -> m_locks m !! l = Some lk ->
  inv (mk_machine (<[l := mk_spinlock (lk_locked lk) (Some h)]> (m_locks m))
        (<[h := mk_hart (h_cpu x) Idle (l :: h_held x) (h_pushes x) (h_chosen x)]> (m_harts m))).
Proof.
  intros Hinv Hx Hpc Hlk. pose proof (inv_hart _ Hinv h x Hx) as (_ & Hnd & Hnh & Hn & Hp & Hc).
  rewrite Hpc in Hn. assert (Hin : inside x l) by (right; by left).
  apply (inv_update m h x _ l lk); try done.
  - assert (NoDup (l :: h_held x)) by (apply NoDup_cons; split; [apply Hnh; by left|done]). hart_tac.
  - intros l' Hl'. unfold inside, recorded. rewrite Hpc. cbn. rewrite elem_of_cons. naive_solver.
  - by eapply inside_excl.
  - left. split; [exact (inside_locked _ _ _ _ _ Hinv Hx Hin Hlk)|]. left. cbn. apply elem_of_cons. by left.
  - left. split; [done|]. left. cbn. apply elem_of_cons. by left.
Qed.

Lemma clear_cpu_inv m h x l lk :
  inv m -> m_harts m !! h = Some x -> h_pc x = RelClearCpu l -> m_locks m !! l = Some lk ->
  inv (mk_machine (<[l := mk_spinlock (lk_locked lk) None]> (m_locks m))
        (<[h := mk_hart (h_cpu x) (RelSwap l) (h_held x) (h_pushes x) (h_chosen x)]> (m_harts m))).
Proof.
  intros Hinv Hx Hpc Hlk. pose proof (inv_hart _ Hinv h x Hx) as (_ & Hnd & Hnh & Hn & Hp & Hc).
  rewrite Hpc in Hn. assert (Hin : inside x l) by (right; right; by left).
  assert (Hl : l ∉ h_held x) by (apply Hnh; auto).
  apply (inv_update m h x _ l lk); try done.
  - hart_tac.
  - intros l' Hl'. unfold inside, recorded. rewrite Hpc. cbn. naive_solver.
  - by eapply inside_excl.
  - left. split; [exact (inside_locked _ _ _ _ _ Hinv Hx Hin Hlk)|]. right. right. by right.
  - right. split; [done|]. unfold recorded. cbn. naive_solver.
Qed.

Lemma unlock_inv m h x l lk :
  inv m -> m_harts m !! h = Some x -> h_pc x = RelSwap l -> m_locks m !! l = Some lk ->
  inv (mk_machine (<[l := mk_spinlock 0 (lk_cpu lk)]> (m_locks m))
        (<[h := mk_hart (h_cpu x) RelPop (h_held x) (h_pushes x) (h_chosen x)]> (m_harts m))).
Proof.
  intros Hinv Hx Hpc Hlk. pose proof (inv_hart _ Hinv h x Hx) as (_ & Hnd & Hnh & Hn & Hp & Hc).
  rewrite Hpc in Hn. assert (Hin : inside x l) by (right; right; by right).
  assert (Hl : l ∉ h_held x) by (apply Hnh; auto).
  assert (Ecpu : lk_cpu lk = None).
  { destruct (lk_cpu lk) as [j|] eqn:E; [|done].
    apply (inv_cpu _ Hinv l lk j Hlk) in E as (y & Hy & Hr).
    assert (j = h) as ->. { apply (inv_unique _ Hinv j h y x l); try done. unfold recorded, inside in *. tauto. }
    rewrite Hx in Hy. injection Hy as <-. unfold recorded in Hr. rewrite Hpc in Hr. naive_solver. }
  apply (inv_update m h x _ l lk); try done.
  - hart_tac.
  - intros l' Hl'. unfold inside, recorded. rewrite Hpc. cbn. naive_solver.
  - by eapply inside_excl.
  - right. split; [done|]. unfold inside. cbn. naive_solver.
  - right. split; [done|]. unfold recorded. cbn. naive_solver.
Qed.

Lemma check_release_inv m h x l lk :
  inv m -> m_harts m !! h = Some x -> h_pc x = RelCpu l -> m_locks m !! l = Some lk ->
  lk_cpu lk = Some h ->
  inv (mk_machine (m_locks m) (<[h := mk_hart (h_cpu x) (RelClearCpu l) (filter (.≠ l) (h_held x))
                                       (h_pushes x) (h_chosen x)]> (m_harts m))).
Proof.
  intros Hinv Hx Hpc Hlk Ecpu. pose proof (inv_hart _ Hinv h x Hx) as (_ & Hnd & Hnh & Hn & Hp & Hc).
  rewrite Hpc in Hn. apply (inv_cpu _ Hinv l lk h Hlk) in Ecpu as (y & Hy & Hr).
  rewrite Hx in Hy. injection Hy as <-. unfold recorded in Hr. rewrite Hpc in Hr.
  destruct Hr as [Hl|?]; [|done].
  assert (Hlen : Z.of_nat (length (h_held x)) = Z.of_nat (length (filter (.≠ l) (h_held x))) + 1).
  { apply list_elem_of_split in Hl as (l1 & l2 & E). rewrite E in Hnd |- *.
    apply NoDup_app in Hnd as (_ & Hd & Hnd2). apply NoDup_cons in Hnd2 as [Hl2 _].
    rewrite filter_app, filter_cons_False by naive_solver.
    rewrite !filter_ne_notin; [rewrite !length_app; simpl; lia|done|].
    intros Hz. apply (Hd l Hz). apply elem_of_cons. by left. }
  apply (inv_local m h x); [done|done| |..].
  - assert (NoDup (filter (.≠ l) (h_held x))) by (by apply NoDup_filter).
    unfold hart_ok. cbn in *. split_and!; try done; try lia.
    intros l0 [?|[E|?]]; try done. injection E as <-. rewrite list_elem_of_filter. naive_solver.
  - intros l'. unfold inside. rewrite Hpc. cbn. rewrite list_elem_of_filter.
    destruct (decide (l' = l)) as [->|]; naive_solver.
  - intros l'. unfold recorded. rewrite Hpc. cbn. rewrite list_elem_of_filter.
    destruct (decide (l' = l)) as [->|]; naive_solver.
Qed.

(** A step that only moves the program counter between places where the hart
    owns the same locks. *)
Lemma goto_inv m h x p :
  inv m -> m_harts m !! h = Some x -> pending (h_pc x) = pending p \/ (exists msg, p = Panicked msg) ->
  (forall msg, p = Panicked msg -> msg = "acquire" \/ msg = "release") ->
  (forall l, h_pc x <> AcqSetCpu l /\ h_pc x <> RelClearCpu l /\ h_pc x <> RelSwap l) ->
  (forall l, p <> AcqSetCpu l /\ p <> RelClearCpu l /\ p <> RelSwap l) ->
  (forall msg, h_pc x <> Panicked msg) ->
  inv (mk_machine (m_locks m) (<[h := mk_hart (h_cpu x) p (h_held x) (h_pushes x) (h_chosen x)]> (m_harts m))).
Proof.
  intros Hinv Hx Hpend Hmsg Hpc Hp Hnp. pose proof (inv_hart _ Hinv h x Hx) as (_ & Hnd & Hnh & Hn & H0 & Hc).
  apply (inv_local m h x); [done|done| |..].
  - unfold hart_ok. cbn. split_and!; try done; [intros l; specialize (Hp l); tauto|].
    assert (Hle : Z.of_nat (length (h_held x)) <= c_noff (h_cpu x)) by (destruct (h_pc x); cbn in *; lia).
    destruct Hpend as [Hpend|[msg ->]]; [|done].
    destruct p; try done; cbn in Hpend; destruct (h_pc x); cbn in *; try done; naive_solver.
  - intros l. specialize (Hpc l). specialize (Hp l). unfold inside. cbn. tauto.
  - intros l. specialize (Hpc l). specialize (Hp l). unfold recorded. cbn. tauto.
Qed.

Lemma step_inv m m' : step m m' -> inv m -> inv m'.
Proof.
  intros [m0 h x locks x' Hx E|m0 h x x' Hx Hidle Hcall] Hinv; [|by eapply call_inv].
  assert (Hstay : inv (mk_machine (m_locks m0) (<[h := x]> (m_harts m0)))).
  { rewrite list_insert_id by done. by destruct m0. }
  unfold lock_code in E. destruct (h_pc x) as [|l|l|l|l|l|l|l|l| |msg] eqn:Hpc.
  all: try (injection E as <- <-; exact Hstay).
  all: try (destruct (m_locks m0 !! l) as [lk|] eqn:Hlk; [|injection E as <- <-; exact Hstay]).
  all: try (injection E as <- <-).
  - destruct (lk_locked lk =? 0); apply goto_inv; try done; rewrite ?Hpc; cbn; naive_solver.
  - case_bool_decide; apply goto_inv; try done; rewrite ?Hpc; cbn; naive_solver.
  - by apply swap_inv.
  - by apply set_cpu_inv.
  - destruct (lk_locked lk =? 0); apply goto_inv; try done; rewrite ?Hpc; cbn; naive_solver.
  - case_bool_decide as Ecpu; [by eapply check_release_inv|].
    apply goto_inv; try done; rewrite ?Hpc; cbn; naive_solver.
  - by apply clear_cpu_inv.
  - by apply unlock_inv.
  - pose proof (inv_hart _ Hinv h x Hx) as Hok. pose proof (hart_ok_cpu x Hok) as Hcpu.
    destruct Hok as (_ & Hnd & _ & Hn & _). rewrite Hpc in Hn. cbn [pending] in Hn.
    destruct (pop_off_ok _ _ Hcpu) as (c & E' & [? ?] & En); [lia|]. rewrite E' in E. injection E as <- <-.
    apply (inv_local m0 h x); [done|done| |..].
    + hart_tac.
    + intros l. unfold inside. rewrite Hpc. cbn. naive_solver.
    + intros l. unfold recorded. rewrite Hpc. cbn. naive_solver.
Qed.

Lemma boot_inv n k : inv (boot n k).
Proof.
  assert (Hx : forall h x, m_harts (boot n k) !! h = Some x -> x = mk_hart (mk_cpu false 0 false) Idle [] 0 false).
  { intros h x E. by apply lookup_replicate in E as [-> _]. }
  assert (Hni : forall h x l, m_harts (boot n k) !! h = Some x -> ~ inside x l).
  { intros h x l ->%Hx [Hl|[?|[?|?]]]; try done. by apply elem_of_nil in Hl. }
  assert (Hlk : forall l lk, m_locks (boot n k) !! l = Some lk -> lk = initlock).
  { intros l lk E. by apply lookup_replicate in E as [-> _]. }
  split.
  - intros h x ->%Hx. unfold hart_ok. cbn. split_and!; try done; [constructor|naive_solver].
  - intros h x l E Hin. by apply (Hni h) in Hin.
  - intros h h' x x' l E E' Hin. by apply (Hni h) in Hin.
  - intros l lk h ->%Hlk. split; [done|]. intros (x & E & Hr). exfalso. apply (Hni h x l E).
    unfold recorded, inside in *. tauto.
  - intros l lk ->%Hlk. done.
Qed.

Lemma reach_inv n k m : rtc step (boot n k) m -> inv m.
Proof. intros Hr. eapply (rtc_invariant step inv); eauto using step_inv, boot_inv. Qed.

Lemma held_noff x : hart_ok x -> Z.of_nat (length (h_held x)) <= c_noff (h_cpu x).
Proof. intros (_ & _ & _ & Hn & _). destruct (h_pc x); cbn in *; lia. Qed.

(** C5: on any number of harts that interleave arbitrary calls of the lock
    code, two harts never hold the same lock, and a hart that holds a lock runs
    with interrupts off. *)
Theorem spinlock_mutual_exclusion n k m h h' x x' l :
  rtc step (boot n k) m -> m_harts m !! h = Some x -> m_harts m !! h' = Some x' ->
  l ∈ h_held x -> l ∈ h_held x' -> h = h' /\ c_intr (h_cpu x) = false.
Proof.
  intros Hr Hx Hx' Hl Hl'. pose proof (reach_inv n k m Hr) as Hinv.
  split; [apply (inv_unique _ Hinv h h' x x' l); by (done || left)|].
  pose proof (inv_hart _ Hinv h x Hx) as Hok. pose proof (held_noff x Hok) as Hle.
  destruct Hok as (_ & _ & _ & _ & _ & Hc).
  destruct (Z.eqb_spec (c_noff (h_cpu x)) 0) as [E|]; [|apply Hc].
  destruct (h_held x); [by apply elem_of_nil in Hl|]. simpl in Hle. lia.
Qed.


(** Two harts contend for one lock: hart 0 has it, hart 1 spins. *)
Definition demo_machine : machine :=
  let acq h m := match m_harts m !! h with
    | Some x => mk_machine (m_locks m) (<[h := mk_hart (push_off (h_cpu x)) (AcqLocked 0) [] 0 false]> (m_harts m))
    | None => m end in
  let run h m := match m_harts m !! h with
    | Some x => let '(locks, x') := lock_code h (m_locks m) x in mk_machine locks (<[h := x']> (m_harts m))
    | None => m end in
  run 1%nat (run 1%nat (run 1%nat (acq 1%nat (run 0%nat (run 0%nat (run 0%nat (acq 0%nat (boot 2 1)))))))).

Lemma demo_machine_reachable : rtc step (boot 2 1) demo_machine.
Proof.
  eapply rtc_l; [eapply (step_call _ 0); [reflexivity|reflexivity|apply (call_acquire _ _ 0); simpl; lia]|].
  do 3 (eapply rtc_l; [eapply (step_code _ 0); reflexivity|]).
  eapply rtc_l; [eapply (step_call _ 1); [reflexivity|reflexivity|apply (call_acquire _ _ 0); simpl; lia]|].
  do 3 (eapply rtc_l; [eapply (step_code _ 1); reflexivity|]).
  apply rtc_refl.
Qed.

Lemma spinlock_mutual_exclusion_witness :
  exists x, m_harts demo_machine !! 0%nat = Some x /\ c_intr (h_cpu x) = false.
Proof.
  eexists. split; [reflexivity|].
  refine (proj2 (spinlock_mutual_exclusion 2 1 demo_machine 0 0 _ _ 0 demo_machine_reachable _ _ _ _));
    [reflexivity|reflexivity|apply elem_of_cons; by left|apply elem_of_cons; by left].
Defined.

