(* ===== verification/Sched.v ===== *)
(** Giving up the CPU and being woken up: [sched], [yield], [sleep], [wakeup],
    [kill] and the scheduler's dispatch (kernel/proc.c).

    A routine that calls [sleep] or [yield] ends in [Block]: the state is the
    one the other processes see until the process runs again.  Every loop that
    sleeps re-checks its condition from the start when it is woken, so running
    the routine again models the rest of the call. *)
From S2P Require Import Prelude State Locks.

Definition get_proc (i : nat) (s : kstate) : proc := default proc0 (k_procs s !! i).
Definition upd_proc (i : nat) (f : proc -> proc) (s : kstate) : kstate :=
  set_k_procs (alter f i (k_procs s)) s.

Definition myproc : K (option nat) := gets k_cur.

(** myproc() where the code dereferences the result; a null pointer traps. *)
Definition curproc : K nat :=
  p <- myproc ;;
  match p with Some i => ret i | None => panic "kerneltrap" end.

(** The switch to the scheduler, which clears [c->proc] and releases the
    process's lock. *)
Definition sched (ch : chan) : K unit :=
  i <- curproc ;;
  h <- gets (holding (LkProc i)) ;;
  if negb h then panic "sched p->lock"
  else
    noff <- gets (fun s => Z.of_nat (length (k_held s))) ;;
    if negb (noff =? 1) then panic "sched locks"
    else
      st <- gets (fun s => p_state (get_proc i s)) ;;
      if bool_decide (st = RUNNING) then panic "sched running"
      else fun s => Block ch (set_k_cur None (set_k_held [] s)).

(** One iteration of the scheduler's loop: run process [i] if it is RUNNABLE.
    The process goes on with its lock held. *)
Definition dispatch (i : nat) : K bool :=
  acquire (LkProc i) ;;;
  st <- gets (fun s => p_state (get_proc i s)) ;;
  if bool_decide (st = RUNNABLE) then
    modify (upd_proc i (set_p_state RUNNING)) ;;;
    modify (set_k_cur (Some i)) ;;;
    ret true
  else release (LkProc i) ;;; ret false.

Definition yield : K unit :=
  i <- curproc ;;
  acquire (LkProc i) ;;;
  modify (upd_proc i (set_p_state RUNNABLE)) ;;;
  sched ChRun.

(** yield() after the scheduler chose the process again. *)
Definition yield_resume : K unit := i <- curproc ;; release (LkProc i).

Definition sleep (ch : chan) (lk : lockid) : K unit :=
  i <- curproc ;;
  acquire (LkProc i) ;;;
  release lk ;;;
  modify (upd_proc i (set_p_chan (Some ch))) ;;;
  modify (upd_proc i (set_p_state SLEEPING)) ;;;
  sched ch.

(** sleep() after the scheduler chose the process again. *)
Definition sleep_resume (lk : lockid) : K unit :=
  i <- curproc ;;
  modify (upd_proc i (set_p_chan None)) ;;;
  release (LkProc i) ;;;
  acquire lk.

Definition wakeup (ch : chan) : K unit :=
  for_loop (Z.to_nat NPROC) 0 (fun j =>
    let i := Z.to_nat j in
    cur <- myproc ;;
    when (negb (bool_decide (cur = Some i)))
      (acquire (LkProc i) ;;;
       p <- gets (get_proc i) ;;
       when (bool_decide (p_state p = SLEEPING) && bool_decide (p_chan p = Some ch))
         (modify (upd_proc i (set_p_state RUNNABLE))) ;;;
       release (LkProc i)) ;;;
    ret (@None unit)) ;;;
  ret tt.

Definition kill (pid : Z) : K Z :=
  r <- for_loop (Z.to_nat NPROC) 0 (fun j =>
    let i := Z.to_nat j in
    acquire (LkProc i) ;;;
    p <- gets (get_proc i) ;;
    if p_pid p =? pid then
      modify (upd_proc i (set_p_killed 1)) ;;;
      when (bool_decide (p_state p = SLEEPING)) (modify (upd_proc i (set_p_state RUNNABLE))) ;;;
      release (LkProc i) ;;;
      ret (Some 0)
    else release (LkProc i) ;;; ret None) ;;
  ret (default (-1) r).

Definition setkilled (i : nat) : K unit :=
  acquire (LkProc i) ;;;
  modify (upd_proc i (set_p_killed 1)) ;;;
  release (LkProc i).

Definition killed (i : nat) : K Z :=
  acquire (LkProc i) ;;;
  k <- gets (fun s => p_killed (get_proc i s)) ;;
  release (LkProc i) ;;;
  ret k.

(** * What the routines do to the process table *)

Lemma curproc_Ok s c : k_cur s = Some c -> curproc s = Ok c s.
Proof. intros E. unfold curproc, myproc. by rewrite bind_gets, E. Qed.

Lemma killed_Ok s c : LkProc c ∉ k_held s -> killed c s = Ok (p_killed (get_proc c s)) s.
Proof.
  intros Hl. unfold killed. rewrite (bind_Ok _ _ _ _ _ (acquire_Ok _ _ Hl)), bind_gets.
  rewrite (bind_Ok (release _) _ _ tt s); [done|]. erewrite release_Ok; [|reflexivity|done].
  by destruct s.
Qed.

Definition woken (cur : option nat) (ch : chan) (i : nat) (p : proc) : proc :=
  if negb (bool_decide (cur = Some i)) && bool_decide (p_state p = SLEEPING) && bool_decide (p_chan p = Some ch)
  then set_p_state RUNNABLE p else p.

Lemma woken_idem cur ch i p : woken cur ch i (woken cur ch i p) = woken cur ch i p.
Proof.
  unfold woken. destruct (negb (bool_decide (cur = Some i)) && bool_decide (p_state p = SLEEPING) &&
    bool_decide (p_chan p = Some ch)) eqn:E; [|by rewrite E].
  replace (bool_decide (p_state (set_p_state RUNNABLE p) = SLEEPING)) with false
    by (symmetry; by apply bool_decide_eq_false_2).
  by rewrite andb_false_r.
Qed.

Lemma woken_twice cur ch ps : imap (woken cur ch) (imap (woken cur ch) ps) = imap (woken cur ch) ps.
Proof.
  apply list_eq. intros i. rewrite !list_lookup_imap. destruct (ps !! i) as [p|]; [|done].
  cbn. f_equal. apply woken_idem.
Qed.

Lemma alter_imap_prefix (g : nat -> proc -> proc) ps j :
  alter (g j) j (imap (fun i p => if (i <? j)%nat then g i p else p) ps) =
  imap (fun i p => if (i <? S j)%nat then g i p else p) ps.
Proof.
  apply list_eq. intros i. destruct (decide (i = j)) as [->|Hne].
  - rewrite list_lookup_alter_eq, !list_lookup_imap. destruct (ps !! j); [|done].
    rewrite (proj2 (Nat.ltb_ge j j)), (proj2 (Nat.ltb_lt j (S j))) by lia. done.
  - rewrite list_lookup_alter_ne, !list_lookup_imap by done. destruct (ps !! i); [|done].
    destruct (Nat.ltb_spec i j).
    + by rewrite (proj2 (Nat.ltb_lt i (S j))) by lia.
    + by rewrite (proj2 (Nat.ltb_ge i (S j))) by lia.
Qed.

Lemma imap_prefix_all (g : nat -> proc -> proc) ps n :
  (length ps <= n)%nat -> imap (fun i p => if (i <? n)%nat then g i p else p) ps = imap g ps.
Proof.
  intros Hn. apply list_eq. intros i. rewrite !list_lookup_imap.
  destruct (ps !! i) eqn:E; [|done]. apply lookup_lt_Some in E.
  by rewrite (proj2 (Nat.ltb_lt i n)) by lia.
Qed.

Lemma lookup_imap_prefix (g : nat -> proc -> proc) ps j :
  imap (fun i p => if (i <? j)%nat then g i p else p) ps !! j = ps !! j.
Proof.
  rewrite list_lookup_imap. destruct (ps !! j); [|done]. by rewrite Nat.ltb_irrefl.
Qed.

Lemma set_k_procs_id s : set_k_procs (k_procs s) s = s.
Proof. by destruct s. Qed.

(** A loop over the process table whose body changes entry [i] by [g i]. *)
Lemma for_procs (body : Z -> K (option unit)) (g : nat -> proc -> proc) s :
  length (k_procs s) = Z.to_nat NPROC ->
  (forall ps i p, (i < Z.to_nat NPROC)%nat -> ps !! i = Some p -> length ps = Z.to_nat NPROC ->
     body (Z.of_nat i) (set_k_procs ps s) = Ok None (set_k_procs (alter (g i) i ps) s)) ->
  for_loop (Z.to_nat NPROC) 0 body s = Ok None (set_k_procs (imap g (k_procs s)) s).
Proof.
  intros Hlen Hb. set (pre := fun j : nat => imap (fun i p => if (i <? j)%nat then g i p else p) (k_procs s)).
  destruct (for_loop_inv (Z.to_nat NPROC) 0 body
    (fun j t => t = set_k_procs (pre (Z.to_nat j)) s) s) as (s' & E & ->).
  - intros j t Hj ->. eexists. split; [|reflexivity].
    destruct (lookup_lt_is_Some_2 (k_procs s) (Z.to_nat j)) as [p Hp]; [rewrite Hlen; lia|].
    replace j with (Z.of_nat (Z.to_nat j)) at 1 by lia.
    rewrite (Hb (pre (Z.to_nat j)) _ p); [|lia|unfold pre; by rewrite lookup_imap_prefix|unfold pre; by rewrite length_imap].
    unfold pre. rewrite alter_imap_prefix. do 3 f_equal. replace (Z.to_nat (j + 1)) with (S (Z.to_nat j)) by lia. done.
  - unfold pre. cbn [Z.to_nat]. rewrite <- (set_k_procs_id s) at 1. f_equal. symmetry.
    apply list_eq. intros i. rewrite list_lookup_imap. by destruct (k_procs s !! i).
  - rewrite E. do 2 f_equal. unfold pre. apply imap_prefix_all. lia.
Qed.

Lemma procs_section s ps ps' h :
  set_k_held (k_held s) (set_k_procs ps' (set_k_held h (set_k_procs ps s))) = set_k_procs ps' s.
Proof. by destruct s. Qed.
Lemma procs_section0 s ps h :
  set_k_held (k_held s) (set_k_held h (set_k_procs ps s)) = set_k_procs ps s.
Proof. by destruct s. Qed.

(** wakeup makes every other process that sleeps on [ch] RUNNABLE. *)
Lemma wakeup_spec ch s :
  (forall i, LkProc i ∉ k_held s) -> length (k_procs s) = Z.to_nat NPROC ->
  wakeup ch s = Ok tt (set_k_procs (imap (woken (k_cur s) ch) (k_procs s)) s).
Proof.
  intros Hl Hlen. unfold wakeup. erewrite bind_Ok; [reflexivity|].
  apply for_procs; [done|]. intros ps i p Hi Hp _. rewrite Nat2Z.id.
  unfold myproc. rewrite bind_gets. cbn [k_cur set_k_procs]. unfold woken.
  destruct (bool_decide (k_cur s = Some i)); cbn [negb when andb].
  - rewrite bind_ret. unfold ret. do 2 f_equal. symmetry. by apply list_alter_id.
  - rewrite bind_assoc. erewrite (bind_Ok (acquire _)) by (apply acquire_Ok; apply Hl).
    rewrite bind_assoc, bind_gets.
    assert (Eg : get_proc i (set_k_held (LkProc i :: k_held (set_k_procs ps s)) (set_k_procs ps s)) = p)
      by (unfold get_proc; cbn; by rewrite Hp).
    rewrite Eg, bind_assoc.
    destruct (bool_decide (p_state p = SLEEPING) && bool_decide (p_chan p = Some ch)) eqn:E; cbn [when].
    + rewrite bind_modify. erewrite (bind_Ok (release _)) by (apply release_Ok; [reflexivity|apply Hl]).
      unfold ret. f_equal. unfold upd_proc. cbn [k_procs k_held set_k_held set_k_procs].
      rewrite procs_section. f_equal. apply list_alter_ext; [|done]. intros q. rewrite Hp. intros [= <-]. by rewrite E.
    + rewrite bind_ret. erewrite (bind_Ok (release _)) by (apply release_Ok; [reflexivity|apply Hl]).
      unfold ret. f_equal. cbn [k_held set_k_procs]. rewrite procs_section0. f_equal. symmetry. etrans; [|apply (list_alter_id (fun p => p)); done].
      apply list_alter_ext; [|done]. intros q. rewrite Hp. intros [= <-]. by rewrite E.
Qed.

(** sleep: the process is SLEEPING on [ch] before [lk] is available to others. *)
Definition asleep (ch : chan) (p : proc) : proc := set_p_state SLEEPING (set_p_chan (Some ch) p).

Lemma get_upd_proc i f s : (i < length (k_procs s))%nat -> get_proc i (upd_proc i f s) = f (get_proc i s).
Proof.
  intros Hi. unfold get_proc, upd_proc. cbn. rewrite list_lookup_alter_eq.
  by destruct (lookup_lt_is_Some_2 _ _ Hi) as [p ->].
Qed.

Lemma upd_proc_twice i f g s : upd_proc i f (upd_proc i g s) = upd_proc i (f ∘ g) s.
Proof.
  unfold upd_proc. cbn. rewrite (alter_compose_list f g). by destruct s.
Qed.

Lemma sleep_spec ch lk s i :
  k_cur s = Some i -> k_held s = [lk] -> lk <> LkProc i -> (i < length (k_procs s))%nat ->
  sleep ch lk s = Block ch (set_k_cur None (set_k_held [] (upd_proc i (asleep ch) s))).
Proof.
  intros Ec Eh Hne Hi. unfold sleep.
  rewrite (bind_Ok _ _ _ _ _ (curproc_Ok _ _ Ec)).
  erewrite (bind_Ok (acquire _)) by (apply acquire_Ok; rewrite Eh; set_solver).
  assert (Er : release lk (set_k_held (LkProc i :: k_held s) s) = Ok tt (set_k_held [LkProc i] s)).
  { unfold release, holding. rewrite Eh. cbn [k_held set_k_held]. rewrite bool_decide_eq_true_2 by set_solver.
    rewrite filter_cons_True, filter_cons_False by (done || congruence). by destruct s. }
  rewrite (bind_Ok _ _ _ _ _ Er), !bind_modify, upd_proc_twice.
  change (upd_proc i (set_p_state SLEEPING ∘ set_p_chan (Some ch))) with (upd_proc i (asleep ch)).
  unfold sched. erewrite (bind_Ok curproc) by (by apply curproc_Ok). rewrite bind_gets. unfold holding.
  rewrite bool_decide_eq_true_2 by (cbn; set_solver). cbn [negb]. rewrite bind_gets. cbn [k_held length upd_proc set_k_procs set_k_held].
  change (Z.of_nat 1 =? 1) with true. cbn [negb]. rewrite bind_gets.
  rewrite (get_upd_proc i (asleep ch) (set_k_held [LkProc i] s)) by done.
  rewrite bool_decide_eq_false_2 by done. by destruct s.
Qed.
