(* ===== verification/Ring.v ===== *)
(** Ring buffers with free-running indices: the pipe (kernel/pipe.c), the
    console's input (kernel/console.c) and the UART's output (kernel/uart.c)
    all keep a read and a write index that wrap around at the width of the C
    type, and use them modulo the size of the array.  A ring represents the
    list of the bytes between the two indices. *)
From S2P Require Import Prelude.

(** The array's size divides the range of the indices. *)
Class RingSize (N B : Z) : Prop := {
  ring_pos : 0 < N;
  ring_lt : N < B;
  ring_div : B mod N = 0
}.

Section Ring.
Context (N B : Z) `{Hsize : !RingSize N B}.
#[local] Ltac sizes := pose proof ring_pos; pose proof ring_lt; pose proof ring_div.

(** [data[(r + i) % N]] is the [i]th element of [q]; [r] and [w] are modulo [B]. *)
Record ring (data : bytes) (r w : Z) (q : list Z) : Prop := {
  rg_r : 0 <= r < B;
  rg_w : w = (r + Z.of_nat (length q)) mod B;
  rg_len : Z.of_nat (length q) <= N;
  rg_data : forall i c, q !! i = Some c -> load8 data ((r + Z.of_nat i) mod N) = c
}.

Lemma ring_mod x : (x mod B) mod N = x mod N.
Proof.
  sizes. rewrite (Z.div_mod x B) at 2 by lia. assert (E : B = N * (B / N)) by (apply Z_div_exact_full_2; lia).
  rewrite E at 2. rewrite <- Z.mul_assoc, Z.add_comm, Z.mul_comm, Z_mod_plus_full. done.
Qed.

Lemma ring_init data r : 0 <= r < B -> ring data r r [].
Proof. sizes. intros Hr. split; [done| |cbn; lia|done]. cbn. rewrite Z.add_0_r, Z.mod_small; lia. Qed.

(** The tests of the code: empty is r == w, full is w == r + N. *)
Lemma ring_empty data r w q : ring data r w q -> r = w <-> q = [].
Proof.
  sizes; intros [Hr Hw Hl _]. split; [|intros ->; cbn in Hw; rewrite Z.add_0_r, Z.mod_small in Hw; lia].
  intros E. destruct q as [|c q]; [done|]. exfalso. set (n := Z.of_nat (length (c :: q))) in *.
  assert (0 < n) by (subst n; cbn; lia). rewrite E in Hw at 1. destruct (Z_lt_dec (r + n) B).
  - rewrite Z.mod_small in Hw by lia. lia.
  - rewrite <- (Z_mod_plus_full _ (-1)), Z.mod_small in Hw by lia. lia.
Qed.

Lemma ring_full data r w q : ring data r w q -> w = (r + N) mod B <-> Z.of_nat (length q) = N.
Proof.
  sizes; intros [Hr Hw Hl _]. split; [|by intros <-].
  intros E. rewrite Hw in E. assert (E' : (N - Z.of_nat (length q)) mod B = 0).
  { replace (N - Z.of_nat (length q)) with ((r + N) - (r + Z.of_nat (length q))) by lia.
    rewrite Zminus_mod, E, Z.sub_diag. apply Z.mod_0_l. lia. }
  rewrite Z.mod_small in E' by lia. lia.
Qed.

Lemma ring_count data r w q : ring data r w q -> (w - r) mod B = Z.of_nat (length q).
Proof.
  sizes; intros [Hr -> Hl _]. rewrite Zminus_mod_idemp_l. replace (r + Z.of_nat (length q) - r) with (Z.of_nat (length q)) by lia.
  apply Z.mod_small. lia.
Qed.

Lemma ring_push data r w q c :
  ring data r w q -> Z.of_nat (length q) < N -> ring (store8 data (w mod N) c) r ((w + 1) mod B) (q ++ [c]).
Proof.
  sizes. intros [Hr Hw Hl Hd] Hlt. split; [done| | |].
  - rewrite length_app, Hw, Zplus_mod_idemp_l. cbn. f_equal. lia.
  - rewrite length_app. cbn. lia.
  - intros i x Hi. rewrite Hw, ring_mod, load8_store8. apply lookup_app_Some in Hi as [Hi|[Hge Hi]].
    + pose proof (lookup_lt_Some _ _ _ Hi). destruct (Z.eqb_spec ((r + Z.of_nat (length q)) mod N) ((r + Z.of_nat i) mod N)) as [E|_]; [|by apply Hd].
      exfalso. assert (E' : (Z.of_nat (length q) - Z.of_nat i) mod N = 0).
      { replace (Z.of_nat (length q) - Z.of_nat i) with ((r + Z.of_nat (length q)) - (r + Z.of_nat i)) by lia.
        rewrite Zminus_mod, E, Z.sub_diag. apply Z.mod_0_l. lia. }
      rewrite Z.mod_small in E' by lia. lia.
    + apply list_lookup_singleton_Some in Hi as [Ei <-]. assert (i = length q) as -> by lia. by rewrite Z.eqb_refl.
Qed.

Lemma ring_pop data r w c q :
  ring data r w (c :: q) -> load8 data (r mod N) = c /\ ring data ((r + 1) mod B) w q.
Proof.
  sizes. intros [Hr Hw Hl Hd]. split; [rewrite <- (Hd 0%nat c) by done; f_equal; f_equal; lia|]. split.
  - apply Z.mod_pos_bound. lia.
  - rewrite Hw, Zplus_mod_idemp_l. f_equal. cbn. lia.
  - cbn in Hl. lia.
  - intros i x Hi. rewrite <- (Hd (S i) x) by done. f_equal.
    rewrite <- (ring_mod ((r + 1) mod B + Z.of_nat i)), Zplus_mod_idemp_l, ring_mod. f_equal. lia.
Qed.

Lemma ring_unpush data r w q c :
  ring data r w (q ++ [c]) -> load8 data (((w - 1) mod B) mod N) = c /\ ring data r ((w - 1) mod B) q.
Proof.
  sizes. intros [Hr Hw Hl Hd]. rewrite length_app in Hw, Hl. cbn in Hw, Hl.
  assert (Ew : (w - 1) mod B = (r + Z.of_nat (length q)) mod B) by (rewrite Hw, Zminus_mod_idemp_l; f_equal; lia).
  split.
  - rewrite Ew, ring_mod. apply (Hd (length q)). rewrite lookup_app_r, Nat.sub_diag by lia. done.
  - split; [done|done|lia|]. intros i x Hi. apply Hd. by apply lookup_app_l_Some.
Qed.

(** Only the array's own positions matter. *)
Lemma ring_ext data data' r w q :
  (forall i, 0 <= i < N -> load8 data' i = load8 data i) -> ring data r w q -> ring data' r w q.
Proof.
  sizes. intros E [Hr Hw Hl Hd]. split; [done..|]. intros i c Hi. rewrite E by (apply Z.mod_pos_bound; lia). by apply Hd.
Qed.
End Ring.
