(* ===== verification/Uart.v ===== *)
(** The 16550 UART driver (kernel/uart.c).  The device takes [ut_room] more
    characters before its LSR_TX_IDLE bit clears, and holds the received
    characters [ut_rx]; both change between calls as the device works.  A
    character written to THR is appended to [k_out]. *)
From S2P Require Import Prelude State Locks Sched Ring.

Definition UART_TX_BUF_SIZE : Z := 32.

Definition upd_uart (f : uartdev -> uartdev) (s : kstate) : kstate := set_k_uart (f (k_uart s)) s.

(** WriteReg(THR, c) *)
Definition write_thr (c : Z) : K unit :=
  modify (fun s => set_k_out (k_out s ++ [u8 c]) (upd_uart (fun u => set_ut_room (pred (ut_room u)) u) s)).

(** ReadReg(LSR) & LSR_TX_IDLE *)
Definition tx_idle : K bool := gets (fun s => negb (ut_room (k_uart s) =? 0)%nat).

Definition uartputc_sync (c : Z) : K unit :=
  (* while((ReadReg(LSR) & LSR_TX_IDLE) == 0): the device becomes ready *)
  modify (upd_uart (fun u => set_ut_room (Nat.max 1 (ut_room u)) u)) ;;;
  write_thr c.

(** One pass of the while(1) of uartstart per character sent. *)
Fixpoint uartstart_loop (fuel : nat) : K unit :=
  match fuel with
  | O => fun _ => Diverge
  | S fuel =>
      u <- gets k_uart ;;
      if ut_w u =? ut_r u then ret tt
      else
        idle <- tx_idle ;;
        if negb idle then ret tt
        else
          let c := load8 (ut_buf u) (ut_r u mod UART_TX_BUF_SIZE) in
          modify (upd_uart (set_ut_r (u64 (ut_r u + 1)))) ;;;
          wakeup ChUart ;;;
          write_thr c ;;;
          uartstart_loop fuel
  end.

Definition uartstart : K unit :=
  room <- gets (fun s => ut_room (k_uart s)) ;;
  uartstart_loop (S room).

Definition uartputc (c : Z) : K unit :=
  acquire LkUart ;;;
  u <- gets k_uart ;;
  if ut_w u =? u64 (ut_r u + UART_TX_BUF_SIZE) then sleep ChUart LkUart
  else
    modify (upd_uart (fun u => set_ut_buf (store8 (ut_buf u) (ut_w u mod UART_TX_BUF_SIZE) (u8 c)) u)) ;;;
    modify (upd_uart (fun u => set_ut_w (u64 (ut_w u + 1)) u)) ;;;
    uartstart ;;;
    release LkUart.

Definition uartgetc : K Z :=
  rx <- gets (fun s => ut_rx (k_uart s)) ;;
  match rx with
  | c :: rest => modify (upd_uart (set_ut_rx rest)) ;;; ret (u8 c)
  | [] => ret (-1)
  end.

(** * The transmit buffer is a queue *)

#[export] Instance uart_ring_size : RingSize UART_TX_BUF_SIZE (2 ^ 64).
Proof. split; unfold UART_TX_BUF_SIZE; [lia..|done]. Qed.

Abbreviation uart_ring u q := (ring UART_TX_BUF_SIZE (2 ^ 64) (ut_buf u) (ut_r u) (ut_w u) q).

(** What [uartstart] sends: the longest prefix the device has room for. *)
Definition sent (q : list Z) (s : kstate) : nat := Nat.min (length q) (ut_room (k_uart s)).

Record uart_ok (s : kstate) (q : list Z) : Prop := {
  uo_ring : uart_ring (k_uart s) q;
  uo_bytes : Forall (fun c => 0 <= c < 256) q;
  uo_procs : length (k_procs s) = Z.to_nat NPROC;
  uo_locks : forall i, LkProc i ∉ k_held s
}.

Lemma uart_wake s ch q : uart_ok s q -> uart_ok (set_k_procs (imap (woken (k_cur s) ch) (k_procs s)) s) q.
Proof. intros [? ? ? ?]. split; cbn; try done. by rewrite length_imap. Qed.

Lemma uartstart_loop_spec fuel s q :
  uart_ok s q -> (ut_room (k_uart s) < fuel)%nat ->
  exists s', uartstart_loop fuel s = Ok tt s' /\ uart_ok s' (drop (sent q s) q) /\
    k_out s' = k_out s ++ take (sent q s) q /\ k_held s' = k_held s /\ k_cur s' = k_cur s /\
    ut_room (k_uart s') = (ut_room (k_uart s) - sent q s)%nat.
Proof.
  revert s q. induction fuel as [|fuel IH]; intros s q Hok Hf; [lia|]. cbn [uartstart_loop]. rewrite bind_gets.
  pose proof (ring_empty UART_TX_BUF_SIZE (2 ^ 64) _ _ _ _ (uo_ring _ _ Hok)) as He.
  destruct (Z.eqb_spec (ut_w (k_uart s)) (ut_r (k_uart s))) as [E|Hne].
  { assert (q = []) as -> by (apply He; done). exists s. unfold sent. cbn [length]. rewrite Nat.min_0_l, app_nil_r, Nat.sub_0_r. by split_and!. }
  destruct q as [|c q]; [exfalso; apply Hne; symmetry; by apply He|].
  unfold tx_idle. rewrite bind_gets, negb_involutive. destruct (Nat.eqb_spec (ut_room (k_uart s)) 0) as [E0|Hroom].
  { exists s. unfold sent. rewrite E0, Nat.min_0_r. cbn [take drop]. rewrite app_nil_r. by split_and!. }
  destruct (ring_pop UART_TX_BUF_SIZE (2 ^ 64) _ _ _ _ _ (uo_ring _ _ Hok)) as [Ec Hring].
  rewrite bind_modify, Ec. erewrite (bind_Ok (wakeup _)).
  2: { apply wakeup_spec; [cbn; apply Hok|apply (uo_procs _ _ Hok)]. }
  unfold write_thr at 1. rewrite bind_modify. pose proof (Forall_cons_1 _ _ _ (uo_bytes _ _ Hok)) as [Hc Hq].
  rewrite u8_small by lia.
  match goal with |- context [uartstart_loop fuel ?t] => set (s1 := t) end.
  destruct (IH s1 q) as (s' & E & Hok' & Eo & Eh & Ecur & Er).
  { split; cbn; [exact Hring|done|by rewrite length_imap; apply Hok|apply Hok]. }
  { change (ut_room (k_uart s1)) with (pred (ut_room (k_uart s))). lia. }
  assert (Es : sent (c :: q) s = S (sent q s1))
    by (unfold sent; change (ut_room (k_uart s1)) with (pred (ut_room (k_uart s))); cbn [length]; lia).
  exists s'. rewrite Es. split; [done|]. split; [done|]. split; [rewrite Eo; cbn; by rewrite <- app_assoc|].
  split; [done|]. split; [done|]. rewrite Er. change (ut_room (k_uart s1)) with (pred (ut_room (k_uart s))). lia.
Qed.

Lemma uartstart_spec s q :
  uart_ok s q ->
  exists s' q', uartstart s = Ok tt s' /\ uart_ok s' q' /\ k_out s' ++ q' = k_out s ++ q /\ k_held s' = k_held s /\
    (q' = [] \/ ut_room (k_uart s') = 0%nat).
Proof.
  intros Hok. unfold uartstart. rewrite bind_gets.
  destruct (uartstart_loop_spec (S (ut_room (k_uart s))) s q Hok ltac:(lia)) as (s' & E & Hok' & Eo & Eh & _ & Er).
  exists s', (drop (sent q s) q). split_and!; [done|done| |done|].
  - rewrite Eo, <- app_assoc. by rewrite take_drop.
  - unfold sent in *. destruct (Nat.le_gt_cases (length q) (ut_room (k_uart s))).
    + left. rewrite Nat.min_l by lia. apply drop_all.
    + right. rewrite Er. lia.
Qed.

Lemma uartputc_full c s :
  LkUart ∉ k_held s -> ut_w (k_uart s) = (ut_r (k_uart s) + UART_TX_BUF_SIZE) mod 2 ^ 64 ->
  uartputc c s = sleep ChUart LkUart (set_k_held (LkUart :: k_held s) s).
Proof.
  intros Hh E. unfold uartputc. erewrite (bind_Ok (acquire _)) by (by apply acquire_Ok). rewrite bind_gets.
  cbn [k_uart set_k_held]. unfold u64. by rewrite E, Z.eqb_refl.
Qed.

Lemma uartputc_room c s :
  LkUart ∉ k_held s -> ut_w (k_uart s) <> (ut_r (k_uart s) + UART_TX_BUF_SIZE) mod 2 ^ 64 -> 0 <= c < 256 ->
  uartputc c s = (uartstart ;;; release LkUart)
    (upd_uart (fun u => set_ut_w (u64 (ut_w u + 1)) (set_ut_buf (store8 (ut_buf u) (ut_w u mod UART_TX_BUF_SIZE) c) u))
       (set_k_held (LkUart :: k_held s) s)).
Proof.
  intros Hh E Hc. unfold uartputc. erewrite (bind_Ok (acquire _)) by (by apply acquire_Ok). rewrite bind_gets.
  cbn [k_uart set_k_held]. unfold u64 at 1. rewrite (proj2 (Z.eqb_neq _ _)) by done.
  by rewrite !bind_modify, u8_small by lia.
Qed.

(** C26: the UART's transmit buffer is a bounded first-in first-out queue.
    [uartputc] on a full buffer puts the process to sleep and changes nothing
    else; otherwise it returns, and the characters sent so far followed by those
    in the buffer are the old ones followed by the new one: none is lost,
    duplicated or reordered, also when the 64-bit indices wrap around. *)
Theorem uartputc_fifo s q c i :
  uart_ok s q -> k_held s = [] -> k_cur s = Some i -> (i < length (k_procs s))%nat -> 0 <= c < 256 ->
  if bool_decide (Z.of_nat (length q) = UART_TX_BUF_SIZE)
  then uartputc c s = Block ChUart (set_k_cur None (upd_proc i (asleep ChUart) s))
  else exists s' q', uartputc c s = Ok tt s' /\ uart_ok s' q' /\ k_out s' ++ q' = (k_out s ++ q) ++ [c] /\
         k_held s' = [] /\ (q' = [] \/ ut_room (k_uart s') = 0%nat).
Proof.
  intros Hok Hh Hcur Hi Hc. pose proof (ring_full UART_TX_BUF_SIZE (2 ^ 64) _ _ _ _ (uo_ring _ _ Hok)) as Hf.
  assert (Hnd : LkUart ∉ k_held s) by (rewrite Hh; apply not_elem_of_nil).
  case_bool_decide as Hlen.
  - rewrite uartputc_full by (done || by apply Hf). rewrite (sleep_spec ChUart LkUart _ i); [|done|by rewrite Hh|done|done].
    f_equal. destruct s; cbn in *. by subst.
  - assert (Hlt : Z.of_nat (length q) < UART_TX_BUF_SIZE) by (destruct (uo_ring _ _ Hok); lia).
    rewrite uartputc_room; [|done|by rewrite Hf|done]. set (s1 := upd_uart _ _).
    destruct (uartstart_spec s1 (q ++ [c])) as (s2 & q' & E2 & Hok2 & Eo & Eh & Hdone).
    { destruct Hok as [Hr Hb Hp Hl]. split; cbn.
      - apply (ring_push UART_TX_BUF_SIZE (2 ^ 64) _ _ _ _ _ Hr Hlt).
      - apply Forall_app. split; [done|]. by constructor.
      - done.
      - intros j. rewrite elem_of_cons. intros [?|Hj]; [done|by eapply Hl]. }
    rewrite (bind_Ok _ _ _ _ _ E2). rewrite (release_Ok LkUart s2 []); [|by rewrite Eh, <- Hh|apply not_elem_of_nil].
    exists (set_k_held [] s2), q'. split; [done|]. split; [|split; [cbn; by rewrite Eo, app_assoc|by split]].
    destruct Hok2 as [? ? ? ?]. split; cbn; try done. intros j. apply not_elem_of_nil.
Qed.

(** A buffer about to wrap around, on a device with room for one character. *)
Definition demo_uart : kstate :=
  set_k_uart (mk_uartdev (store8 ∅ 31 65) 0 (2 ^ 64 - 1) 1 []) (set_k_cur (Some 0%nat) kstate0).

Lemma uartputc_fifo_witness :
  exists s' q', uartputc 66 demo_uart = Ok tt s' /\ k_out s' ++ q' = [65; 66].
Proof.
  pose proof (uartputc_fifo demo_uart [65] 66 0) as H.
  rewrite bool_decide_eq_false_2 in H by (unfold UART_TX_BUF_SIZE; cbn; lia).
  destruct H as (s' & q' & E & _ & Eo & _).
  - split; [|repeat constructor; lia|reflexivity|intros j; apply not_elem_of_nil].
    split; [cbn; lia|reflexivity|cbn; unfold UART_TX_BUF_SIZE; lia|].
    intros [|i] c Hi; [injection Hi as <-; reflexivity|destruct i; discriminate].
  - reflexivity.
  - reflexivity.
  - vm_compute. lia.
  - lia.
  - exists s', q'. split; [exact E|exact Eo].
Defined.
