(* ===== verification/Kprintf.v ===== *)
(** Formatted console output (kernel/printf.c) and [consputc]
    (kernel/console.c).  A format string is the list of its characters before
    the NUL; the variable arguments are a list of integers and strings.
    Writing past the end of the array [buf] of [printint] is undefined. *)
From S2P Require Import Prelude State Locks Sched Uart.

Definition BACKSPACE : Z := 0x100.

Definition consputc (c : Z) : K unit :=
  if c =? BACKSPACE then uartputc_sync 8 ;;; uartputc_sync 32 ;;; uartputc_sync 8
  else uartputc_sync c.

Fixpoint putchars (l : list Z) : K unit :=
  match l with [] => ret tt | c :: l => consputc c ;;; putchars l end.

(** digits[d] *)
Definition digit (d : Z) : Z := if d <? 10 then 48 + d else 97 + (d - 10).

(** do { buf[i++] = digits[x % base]; } while((x /= base) != 0); *)
Fixpoint digits_rev (fuel : nat) (x base : Z) : list Z :=
  match fuel with
  | O => []
  | S fuel => digit (x mod base) :: (if x / base =? 0 then [] else digits_rev fuel (x / base) base)
  end.

(** An unsigned 64-bit number has at most 64 digits. *)
Definition printint (xx base : Z) (sign : bool) : K unit :=
  let neg := sign && (xx <? 0) in
  let x := if neg then u64 (- xx) else u64 xx in
  let buf := digits_rev 64 x base ++ (if neg then [45] else []) in
  if (16 <? length buf)%nat then ub
  else
    putchars (rev buf).

Fixpoint printptr_loop (n : nat) (x : Z) : K unit :=
  match n with
  | O => ret tt
  | S n => consputc (digit (Z.shiftr x (64 - 4))) ;;; printptr_loop n (u64 (Z.shiftl x 4))
  end.
Definition printptr (x : Z) : K unit :=
  consputc 48 ;;; consputc 120 ;;; printptr_loop 16 x.

Inductive parg : Type := AInt (x : Z) | AStr (s : option (list Z)).

(** va_arg(ap, int), va_arg(ap, uint64) read as long long, va_arg(ap, char star) *)
Definition arg_int (args : list parg) (k : Z -> list parg -> K unit) : K unit :=
  match args with AInt x :: rest => k (i32 x) rest | _ => ub end.
Definition arg_long (args : list parg) (k : Z -> list parg -> K unit) : K unit :=
  match args with AInt x :: rest => k (i64 x) rest | _ => ub end.
Definition arg_str (args : list parg) (k : option (list Z) -> list parg -> K unit) : K unit :=
  match args with AStr s :: rest => k s rest | _ => ub end.

Fixpoint printf_loop (fmt : list Z) (args : list parg) : K unit :=
  match fmt with
  | [] => ret tt
  | 37 :: fmt =>                                            (* '%' *)
      match fmt with
      | 100 :: fmt => arg_int args (fun x args => printint x 10 true ;;; printf_loop fmt args)
      | 108 :: 100 :: fmt => arg_long args (fun x args => printint x 10 true ;;; printf_loop fmt args)
      | 108 :: 108 :: 100 :: fmt => arg_long args (fun x args => printint x 10 true ;;; printf_loop fmt args)
      | 117 :: fmt => arg_int args (fun x args => printint x 10 false ;;; printf_loop fmt args)
      | 108 :: 117 :: fmt => arg_long args (fun x args => printint x 10 false ;;; printf_loop fmt args)
      | 108 :: 108 :: 117 :: fmt => arg_long args (fun x args => printint x 10 false ;;; printf_loop fmt args)
      | 120 :: fmt => arg_int args (fun x args => printint x 16 false ;;; printf_loop fmt args)
      | 108 :: 120 :: fmt => arg_long args (fun x args => printint x 16 false ;;; printf_loop fmt args)
      | 108 :: 108 :: 120 :: fmt => arg_long args (fun x args => printint x 16 false ;;; printf_loop fmt args)
      | 112 :: fmt => arg_long args (fun x args => printptr (u64 x) ;;; printf_loop fmt args)
      | 115 :: fmt => arg_str args (fun s args => putchars (default (chars "(null)") s) ;;; printf_loop fmt args)
      | 37 :: fmt => consputc 37 ;;; printf_loop fmt args
      | [] => ret tt
      | c0 :: fmt => consputc 37 ;;; consputc c0 ;;; printf_loop fmt args
      end
  | cx :: fmt => consputc cx ;;; printf_loop fmt args
  end.

Definition printf (fmt : string) (args : list parg) : K unit :=
  locking <- gets k_locking ;;
  when locking (acquire LkPr) ;;;
  printf_loop (chars fmt) args ;;;
  when locking (release LkPr).

Definition printfinit : K unit := modify (set_k_locking true).

(** * What is printed *)

(** The state after [txt] was sent to the UART, which has room for [room] more. *)
Definition printed (txt : list Z) (room : nat) (s : kstate) : kstate :=
  set_k_uart (set_ut_room room (k_uart s)) (set_k_out (k_out s ++ txt) s).

(** The routine prints [txt] and changes nothing else. *)
Definition outputs (m : K unit) (txt : list Z) : Prop :=
  forall s, exists room, m s = Ok tt (printed txt room s).

Lemma outputs_bind m1 m2 t1 t2 : outputs m1 t1 -> outputs m2 t2 -> outputs (m1 ;;; m2) (t1 ++ t2).
Proof.
  intros H1 H2 s. destruct (H1 s) as [u1 E1]. rewrite (bind_Ok _ _ _ _ _ E1).
  destruct (H2 (printed t1 u1 s)) as [u2 ->]. exists u2. unfold printed. cbn. by rewrite <- app_assoc.
Qed.

Lemma consputc_outputs c : 0 <= c < 256 -> outputs (consputc c) [c].
Proof.
  intros Hc s. unfold consputc. rewrite (proj2 (Z.eqb_neq _ _)) by (unfold BACKSPACE; lia).
  unfold uartputc_sync, write_thr. rewrite bind_modify, u8_small by lia.
  exists (pred (Nat.max 1 (ut_room (k_uart s)))). by destruct s.
Qed.

Lemma putchars_outputs l : Forall (fun c => 0 <= c < 256) l -> outputs (putchars l) l.
Proof.
  induction 1 as [|c l Hc _ IH]; cbn [putchars].
  - intros s. exists (ut_room (k_uart s)). unfold printed. rewrite app_nil_r. by destruct s as [? ? ? ? ? ? ? ? ? ? ? ? ? ? ? ? ? [] ? ?].
  - apply (outputs_bind _ _ [c] l); [by apply consputc_outputs|done].
Qed.

(** A format without conversions is printed as it is. *)
Lemma printf_loop_char c fmt args : c <> 37 -> printf_loop (c :: fmt) args = (consputc c ;;; printf_loop fmt args).
Proof. intros Hc. destruct c as [|p|p]; try done. do 6 (destruct p as [p|p|]; try done). Qed.

Lemma printf_loop_text l : Forall (fun c => 0 <= c < 256 /\ c <> 37) l -> outputs (printf_loop l []) l.
Proof.
  induction 1 as [|c l [Hc Hp] _ IH].
  - apply (putchars_outputs []). constructor.
  - rewrite printf_loop_char by done. apply (outputs_bind _ _ [c] l); [by apply consputc_outputs|done].
Qed.

Lemma printf_text fmt s :
  Forall (fun c => 0 <= c < 256 /\ c <> 37) (chars fmt) -> LkPr ∉ k_held s ->
  exists room, printf fmt [] s = Ok tt (printed (chars fmt) room s).
Proof.
  intros Hf Hl. unfold printf. rewrite bind_gets. destruct (k_locking s); cbn [when].
  - rewrite (bind_Ok _ _ _ _ _ (acquire_Ok _ _ Hl)).
    destruct (printf_loop_text _ Hf (set_k_held (LkPr :: k_held s) s)) as [room E]. exists room.
    rewrite (bind_Ok _ _ _ _ _ E). rewrite (release_Ok _ _ (k_held s)) by done. by destruct s.
  - rewrite bind_ret. destruct (printf_loop_text _ Hf s) as [room E]. exists room. by rewrite (bind_Ok _ _ _ _ _ E).
Qed.

(** ** Numbers *)

Definition digit_value (c : Z) : Z := if c <? 97 then c - 48 else c - 87.
Definition read_digits (base : Z) (l : list Z) : Z := foldl (fun a c => a * base + digit_value c) 0 l.

(** Reading back a printed number. *)
Definition read_number (base : Z) (l : list Z) : Z :=
  match l with
  | c :: l' => if c =? 45 then - read_digits base l' else read_digits base l
  | [] => 0
  end.

Lemma digit_value_digit d : 0 <= d < 16 -> digit_value (digit d) = d.
Proof. intros H. unfold digit_value, digit. bool_case; lia. Qed.
Lemma digit_range d : 0 <= d < 16 -> 48 <= digit d < 103.
Proof. intros H. unfold digit. bool_case; lia. Qed.

Section Digits.
Context (base : Z) (Hbase : 2 <= base <= 16).

Lemma digits_rev_value fuel x :
  0 <= x < base ^ Z.of_nat fuel -> read_digits base (rev (digits_rev fuel x base)) = x.
Proof.
  revert x. induction fuel as [|fuel IH]; intros x Hx; cbn [digits_rev].
  - cbn in *. lia.
  - pose proof (Z.mod_pos_bound x base ltac:(lia)). pose proof (Z.div_mod x base ltac:(lia)).
    destruct (Z.eqb_spec (x / base) 0) as [E|Hne]; cbn [rev]; unfold read_digits; rewrite ?foldl_app; cbn [foldl app].
    + rewrite digit_value_digit by lia. lia.
    + fold (read_digits base (rev (digits_rev fuel (x / base) base))). rewrite IH, digit_value_digit; [lia|lia|].
      rewrite Nat2Z.inj_succ, Z.pow_succ_r in Hx by lia. split; [apply Z.div_pos; lia|apply Z.div_lt_upper_bound; lia].
Qed.

Lemma digits_rev_range fuel x : 0 <= x -> Forall (fun c => 48 <= c < 103) (digits_rev fuel x base).
Proof.
  revert x. induction fuel as [|fuel IH]; intros x Hx; cbn [digits_rev]; [constructor|].
  pose proof (Z.mod_pos_bound x base ltac:(lia)). constructor; [apply digit_range; lia|].
  destruct (_ =? _); [constructor|]. apply IH. apply Z.div_pos; lia.
Qed.

Lemma digits_rev_nonempty fuel x : digits_rev (S fuel) x base <> [].
Proof. done. Qed.

(** The number of digits. *)
Lemma digits_rev_length fuel x k :
  0 <= x < base ^ Z.of_nat fuel -> (0 < k <= fuel)%nat ->
  (length (digits_rev fuel x base) <= k)%nat <-> x < base ^ Z.of_nat k.
Proof.
  revert x k. induction fuel as [|fuel IH]; intros x k Hx Hk; [lia|]. cbn [digits_rev length].
  rewrite Nat2Z.inj_succ, Z.pow_succ_r in Hx by lia. pose proof (Z.mod_pos_bound x base ltac:(lia)).
  pose proof (Z.div_mod x base ltac:(lia)).
  assert (Hq : 0 <= x / base < base ^ Z.of_nat fuel) by (split; [apply Z.div_pos; lia|apply Z.div_lt_upper_bound; lia]).
  destruct k as [|k]; [lia|]. rewrite Nat2Z.inj_succ, Z.pow_succ_r by lia.
  assert (Hpos : 0 < base ^ Z.of_nat k) by (apply Z.pow_pos_nonneg; lia).
  destruct (Z.eqb_spec (x / base) 0) as [E|Hne]; cbn [length].
  - split; [intros _|lia]. rewrite E in *. nia.
  - assert (1 <= x / base) by lia. destruct k as [|k].
    + split; [|nia]. intros Hl. exfalso. destruct fuel; [cbn in Hq; lia|]. cbn in Hl. lia.
    + rewrite <- Nat.succ_le_mono, (IH (x / base) (S k)) by (done || lia). split; [|intros; apply Z.div_lt_upper_bound; lia].
      intros Hlt. nia.
Qed.
End Digits.

(** The characters of [printint xx base sign]. *)
Definition int_text (xx base : Z) (sign : bool) : list Z :=
  let neg := sign && (xx <? 0) in
  (if neg then [45] else []) ++ rev (digits_rev 64 (if neg then u64 (- xx) else u64 xx) base).

Lemma printint_text xx base sign :
  2 <= base <= 16 ->
  if (16 <? length (int_text xx base sign))%nat then printint xx base sign = ub
  else outputs (printint xx base sign) (int_text xx base sign).
Proof.
  intros Hb. unfold printint, int_text. set (neg := sign && (xx <? 0)). cbv zeta. set (x := if neg then u64 (- xx) else u64 xx).
  assert (E : rev (digits_rev 64 x base ++ (if neg then [45] else [])) = (if neg then [45] else []) ++ rev (digits_rev 64 x base)).
  { rewrite rev_app_distr. by destruct neg. }
  assert (El : length (digits_rev 64 x base ++ (if neg then [45] else [])) = length ((if neg then [45] else []) ++ rev (digits_rev 64 x base)))
    by (rewrite <- E; symmetry; apply length_rev).
  rewrite El. destruct (_ <? _)%nat; [done|]. rewrite E. apply putchars_outputs. apply Forall_app. split.
  - destruct neg; repeat constructor; lia.
  - apply Forall_rev. assert (Hx : 0 <= x) by (unfold x; destruct neg; apply u64_bound).
    eapply Forall_impl; [by apply digits_rev_range|]. cbn. intros c Hc. lia.
Qed.

Lemma int_text_read xx base sign :
  2 <= base <= 16 -> - 2 ^ 63 <= xx < 2 ^ 63 ->
  read_number base (int_text xx base sign) = if sign then xx else u64 xx.
Proof.
  intros Hb Hx. unfold int_text. set (neg := sign && (xx <? 0)). cbv zeta. set (x := if neg then u64 (- xx) else u64 xx).
  assert (Hx64 : 0 <= x < base ^ Z.of_nat 64).
  { assert (0 <= x < 2 ^ 64) by (unfold x; destruct neg; apply u64_bound).
    split; [lia|]. apply Z.lt_le_trans with (2 ^ 64); [lia|]. apply Z.pow_le_mono_l. lia. }
  pose proof (digits_rev_value base Hb 64 x Hx64) as Hv. pose proof (digits_rev_range base Hb 64 x ltac:(lia)) as Hr.
  destruct neg eqn:En; cbn [app].
  - unfold read_number. rewrite Z.eqb_refl, Hv. unfold neg in En. apply andb_true_iff in En as [-> En]. apply Z.ltb_lt in En.
    unfold x. rewrite u64_small; lia.
  - assert (Hn : read_number base (rev (digits_rev 64 x base)) = x).
    { rewrite <- Hv at 2. unfold read_number. apply Forall_rev in Hr.
      destruct (rev (digits_rev 64 x base)) as [|c l]; [done|]. apply Forall_cons in Hr as [Hc _].
      by rewrite (proj2 (Z.eqb_neq c 45)) by lia. }
    rewrite Hn. unfold x. destruct sign; [|done]. unfold neg in En. cbn in En. apply Z.ltb_ge in En. apply u64_small. lia.
Qed.

(** C27: [printint] with %d or %ld.  A number that fits the 16-character array
    is printed, and reading the printed characters gives it back; every other
    64-bit number overruns the array [buf] on the stack. *)
Theorem printint_decimal xx s :
  - 2 ^ 63 <= xx < 2 ^ 63 ->
  if bool_decide (- 10 ^ 15 < xx < 10 ^ 16)
  then exists s' txt, printint xx 10 true s = Ok tt s' /\ k_out s' = k_out s ++ txt /\ read_number 10 txt = xx
  else printint xx 10 true s = Panic "undefined behaviour".
Proof.
  intros Hx. pose proof (printint_text xx 10 true ltac:(lia)) as Ht. pose proof (int_text_read xx 10 true ltac:(lia) Hx) as Hr.
  assert (Hlen : (length (int_text xx 10 true) <= 16)%nat <-> - 10 ^ 15 < xx < 10 ^ 16).
  { unfold int_text. cbn [andb]. destruct (Z.ltb_spec xx 0); rewrite length_app, length_rev; cbn [length].
    - assert (E : u64 (- xx) = - xx) by (apply u64_small; lia). rewrite E. pose proof (digits_rev_length 10 ltac:(lia) 64 (- xx) 15 ltac:(lia) ltac:(lia)). lia.
    - assert (E : u64 xx = xx) by (apply u64_small; lia). rewrite E. pose proof (digits_rev_length 10 ltac:(lia) 64 xx 16 ltac:(lia) ltac:(lia)). lia. }
  destruct (Nat.ltb_spec 16 (length (int_text xx 10 true))).
  - rewrite bool_decide_eq_false_2 by (rewrite <- Hlen; lia). by rewrite Ht.
  - rewrite bool_decide_eq_true_2 by (apply Hlen; lia). destruct (Ht s) as [u E].
    eexists _, (int_text xx 10 true). split; [exact E|]. done.
Qed.

Lemma printint_decimal_witness :
  (exists s' txt, printint (-42) 10 true kstate0 = Ok tt s' /\ k_out s' = [] ++ txt /\ read_number 10 txt = -42) /\
  printint (10 ^ 16) 10 true kstate0 = Panic "undefined behaviour".
Proof.
  split.
  - pose proof (printint_decimal (-42) kstate0 ltac:(lia)) as H. rewrite bool_decide_eq_true_2 in H by lia. exact H.
  - pose proof (printint_decimal (10 ^ 16) kstate0 ltac:(lia)) as H. rewrite bool_decide_eq_false_2 in H by lia. exact H.
Defined.
