(* ===== verification/Either.v ===== *)
(** Copying to or from a user address or a kernel address (kernel/proc.c:
    either_copyout, either_copyin).  A kernel address points into physical
    memory or to an object of the caller, given by its bytes and an offset. *)
From S2P Require Import Prelude State Locks Kstring Kalloc Vm Sched.

Inductive place : Type := User (va : Z) | Phys (pa : Z) | Local (b : bytes) (o : Z).

(** dst += m *)
Definition shift (p : place) (m : Z) : place :=
  match p with
  | User va => User (u64 (va + m))
  | Phys pa => Phys (u64 (pa + m))
  | Local b o => Local b (o + m)
  end.

Definition curpagetable : K Z := i <- curproc ;; gets (fun s => p_pagetable (get_proc i s)).

Lemma curpagetable_Ok s c : k_cur s = Some c -> curpagetable s = Ok (p_pagetable (get_proc c s)) s.
Proof. intros E. unfold curpagetable. by rewrite (bind_Ok _ _ _ _ _ (curproc_Ok s c E)). Qed.

(** The bytes [src[o], ...] go to [dst]; the result has the bytes of a local object. *)
Definition either_copyout (dst : place) (src : bytes) (o len : Z) : K (Z * place) :=
  match dst with
  | User va => pt <- curpagetable ;; r <- copyout pt va src o len ;; ret (r, dst)
  | Phys pa => modify (fun s => set_k_mem (copy_into (Z.to_nat (u32 len)) src o (k_mem s) pa) s) ;;; ret (0, dst)
  | Local b p => ret (0, Local (copy_into (Z.to_nat (u32 len)) src o b p) p)
  end.

Definition either_copyin (dst : bytes) (o : Z) (src : place) (len : Z) : K (Z * bytes) :=
  match src with
  | User va => pt <- curpagetable ;; copyin pt dst o va len
  | Phys pa => m <- gets k_mem ;; ret (0, copy_into (Z.to_nat (u32 len)) m pa dst o)
  | Local b p => ret (0, copy_into (Z.to_nat (u32 len)) b p dst o)
  end.
