(* ===== verification/Sleeplock.v ===== *)
(** Sleep-locks (kernel/sleeplock.c).  A sleep-lock lives inside a buffer or an
    inode; [slref] names one: its spin-lock, its sleep channel, and the field
    of the state that holds it. *)
From S2P Require Import Prelude State Locks Sched.

Record slref : Type := mk_slref {
  sl_lock : lockid;
  sl_chan : chan;
  sl_get : kstate -> sleeplock;
  sl_set : sleeplock -> kstate -> kstate
}.

Definition initsleeplock (r : slref) : K unit := modify (sl_set r (mk_sleeplock false 0)).

Definition mypid (s : kstate) : Z :=
  match k_cur s with Some i => p_pid (get_proc i s) | None => 0 end.

Definition acquiresleep (r : slref) : K unit :=
  acquire (sl_lock r) ;;;
  l <- gets (sl_get r) ;;
  if slk_locked l then sleep (sl_chan r) (sl_lock r)
  else
    curproc ;;;
    pid <- gets mypid ;;
    modify (sl_set r (mk_sleeplock true pid)) ;;;
    release (sl_lock r).

Definition releasesleep (r : slref) : K unit :=
  acquire (sl_lock r) ;;;
  modify (sl_set r (mk_sleeplock false 0)) ;;;
  wakeup (sl_chan r) ;;;
  release (sl_lock r).

Definition holdingsleep (r : slref) : K bool :=
  acquire (sl_lock r) ;;;
  l <- gets (sl_get r) ;;
  curproc ;;;
  pid <- gets mypid ;;
  release (sl_lock r) ;;;
  ret (slk_locked l && (slk_pid l =? pid)).

(** * What a sleep-lock promises

    A sleep-lock is a field of its own: reading and writing it commutes with
    the spin-locks, and writing it leaves the processes alone. *)
Class SleepLock (r : slref) : Prop := {
  sl_not_proc i : sl_lock r <> LkProc i;
  sl_get_held h s : sl_get r (set_k_held h s) = sl_get r s;
  sl_set_held l h s : sl_set r l (set_k_held h s) = set_k_held h (sl_set r l s);
  sl_held l s : k_held (sl_set r l s) = k_held s;
  sl_cur l s : k_cur (sl_set r l s) = k_cur s;
  sl_procs l s : k_procs (sl_set r l s) = k_procs s
}.

Section SleepLock.
Context (r : slref) `{!SleepLock r} (s : kstate) (i : nat).
Hypothesis (Hh : k_held s = []) (Hc : k_cur s = Some i).

Lemma mypid_held h : mypid (set_k_held h s) = p_pid (get_proc i s).
Proof. unfold mypid. cbn. by rewrite Hc. Qed.

Lemma acquiresleep_free :
  slk_locked (sl_get r s) = false -> acquiresleep r s = Ok tt (sl_set r (mk_sleeplock true (p_pid (get_proc i s))) s).
Proof.
  intros Hl. unfold acquiresleep. erewrite (bind_Ok (acquire _)) by (apply acquire_Ok; rewrite Hh; apply not_elem_of_nil).
  rewrite bind_gets, sl_get_held, Hl. rewrite (bind_Ok _ _ _ _ _ (curproc_Ok (set_k_held _ s) i Hc)), bind_gets, bind_modify.
  rewrite mypid_held, sl_set_held. erewrite release_Ok; [|by rewrite Hh|apply not_elem_of_nil].
  f_equal. set (t := sl_set r _ s). assert (Ht : k_held t = []) by (unfold t; by rewrite sl_held). by destruct t; cbn in *; subst.
Qed.

Lemma acquiresleep_busy :
  slk_locked (sl_get r s) = true -> (i < length (k_procs s))%nat ->
  acquiresleep r s = Block (sl_chan r) (set_k_cur None (upd_proc i (asleep (sl_chan r)) s)).
Proof.
  intros Hl Hi. unfold acquiresleep. erewrite (bind_Ok (acquire _)) by (apply acquire_Ok; rewrite Hh; apply not_elem_of_nil).
  rewrite bind_gets, sl_get_held, Hl. rewrite (sleep_spec _ _ _ i); [|done|by rewrite Hh|apply sl_not_proc|done].
  f_equal. destruct s; cbn in *. by subst.
Qed.

Lemma holdingsleep_Ok :
  holdingsleep r s = Ok (slk_locked (sl_get r s) && (slk_pid (sl_get r s) =? p_pid (get_proc i s))) s.
Proof.
  unfold holdingsleep. erewrite (bind_Ok (acquire _)) by (apply acquire_Ok; rewrite Hh; apply not_elem_of_nil).
  rewrite bind_gets, sl_get_held. rewrite (bind_Ok _ _ _ _ _ (curproc_Ok (set_k_held _ s) i Hc)), bind_gets, mypid_held.
  erewrite (bind_Ok (release _)); [|eapply release_Ok; [by rewrite Hh|apply not_elem_of_nil]].
  unfold ret. f_equal. destruct s; cbn in *. by subst.
Qed.

Lemma releasesleep_Ok :
  length (k_procs s) = Z.to_nat NPROC ->
  releasesleep r s = Ok tt (set_k_procs (imap (woken (Some i) (sl_chan r)) (k_procs s)) (sl_set r (mk_sleeplock false 0) s)).
Proof.
  intros Hn. unfold releasesleep. erewrite (bind_Ok (acquire _)) by (apply acquire_Ok; rewrite Hh; apply not_elem_of_nil).
  rewrite bind_modify, sl_set_held. set (t := sl_set r _ s).
  assert (Ht : k_held t = [] /\ k_cur t = Some i /\ k_procs t = k_procs s) by (unfold t; by rewrite sl_held, sl_cur, sl_procs).
  destruct Ht as (Hth & Htc & Htp). erewrite (bind_Ok (wakeup _)).
  2: { apply wakeup_spec; [|cbn; by rewrite Htp]. intros j. cbn. rewrite Hh. intros Hj%list_elem_of_singleton. by apply (sl_not_proc (r := r) j). }
  erewrite release_Ok; [|cbn; by rewrite Hh|apply not_elem_of_nil]. f_equal. cbn. rewrite Htc, Htp. destruct t; cbn in *. by subst.
Qed.
End SleepLock.
