(* ===== verification/Bio.v ===== *)
(** The buffer cache (kernel/bio.c).  [k_bufs] holds the NBUF buffers and, at
    index NBUF, the head of the list that links all of them in the order of
    their last use. *)
From S2P Require Import Prelude State Locks Sched Sleeplock.

Definition bhead : nat := Z.to_nat NBUF.

Definition get_buf (i : nat) (s : kstate) : buf := default buf0 (k_bufs s !! i).
Definition upd_buf (i : nat) (f : buf -> buf) (s : kstate) : kstate :=
  set_k_bufs (alter f i (k_bufs s)) s.

Definition buf_lock (i : nat) : slref :=
  mk_slref (LkSleepBuf i) (ChBuf i) (fun s => b_lock (get_buf i s))
    (fun l => upd_buf i (set_b_lock l)).

(** The disk seen by the cache: [virtio_disk_rw] moves one block and returns
    when the device is done.  Blocks that were never written read as zeros. *)
Definition disk_block (bn : Z) (s : kstate) : bytes := default ∅ (d_blocks (k_disk s) !! bn).

Definition virtio_disk_rw (b : nat) (write : bool) : K unit :=
  x <- gets (get_buf b) ;;
  if write then
    modify (fun s => set_k_disk (mk_disk (<[b_blockno x := b_data x]> (d_blocks (k_disk s)))
                                   (d_writes (k_disk s) ++ [(b_blockno x, b_data x)])) s)
  else modify (fun s => upd_buf b (set_b_data (disk_block (b_blockno x) s)) s).

(** Insert [b] after the list head. *)
Definition link_front (b : nat) : K unit :=
  h <- gets (get_buf bhead) ;;
  modify (upd_buf b (set_b_next (b_next h))) ;;;
  modify (upd_buf b (set_b_prev bhead)) ;;;
  h <- gets (get_buf bhead) ;;
  modify (upd_buf (b_next h) (set_b_prev b)) ;;;
  modify (upd_buf bhead (set_b_next b)).

Definition binit : K unit :=
  modify (upd_buf bhead (set_b_prev bhead)) ;;;
  modify (upd_buf bhead (set_b_next bhead)) ;;;
  for_loop (Z.to_nat NBUF) 0 (fun i =>
    let b := Z.to_nat i in
    h <- gets (get_buf bhead) ;;
    modify (upd_buf b (set_b_next (b_next h))) ;;;
    modify (upd_buf b (set_b_prev bhead)) ;;;
    initsleeplock (buf_lock b) ;;;
    h <- gets (get_buf bhead) ;;
    modify (upd_buf (b_next h) (set_b_prev b)) ;;;
    modify (upd_buf bhead (set_b_next b)) ;;;
    ret (@None unit)) ;;;
  ret tt.

(** for(b = head.next; b != &head; b = b->next): the first buffer of the block. *)
Fixpoint find_cached (fuel : nat) (bufs : list buf) (b : nat) (dev blockno : Z) : option nat :=
  match fuel with
  | O => None
  | S fuel =>
      if (b =? bhead)%nat then None
      else
        let x := default buf0 (bufs !! b) in
        if (b_dev x =? dev) && (b_blockno x =? blockno) then Some b
        else find_cached fuel bufs (b_next x) dev blockno
  end.

(** for(b = head.prev; b != &head; b = b->prev): the first unused buffer. *)
Fixpoint find_unused (fuel : nat) (bufs : list buf) (b : nat) : option nat :=
  match fuel with
  | O => None
  | S fuel =>
      if (b =? bhead)%nat then None
      else
        let x := default buf0 (bufs !! b) in
        if b_refcnt x =? 0 then Some b else find_unused fuel bufs (b_prev x)
  end.

Definition bget (dev blockno : Z) : K nat :=
  acquire LkBcache ;;;
  bufs <- gets k_bufs ;;
  h <- gets (get_buf bhead) ;;
  match find_cached (S bhead) bufs (b_next h) dev blockno with
  | Some b =>
      modify (upd_buf b (fun x => set_b_refcnt (u32 (b_refcnt x + 1)) x)) ;;;
      release LkBcache ;;;
      acquiresleep (buf_lock b) ;;;
      ret b
  | None =>
      match find_unused (S bhead) bufs (b_prev h) with
      | Some b =>
          modify (upd_buf b (set_b_dev dev)) ;;;
          modify (upd_buf b (set_b_blockno blockno)) ;;;
          modify (upd_buf b (set_b_valid false)) ;;;
          modify (upd_buf b (set_b_refcnt 1)) ;;;
          release LkBcache ;;;
          acquiresleep (buf_lock b) ;;;
          ret b
      | None => panic "bget: no buffers"
      end
  end.

Definition bread (dev blockno : Z) : K nat :=
  b <- bget dev blockno ;;
  v <- gets (fun s => b_valid (get_buf b s)) ;;
  when (negb v)
    (virtio_disk_rw b false ;;;
     modify (upd_buf b (set_b_valid true))) ;;;
  ret b.

Definition bwrite (b : nat) : K unit :=
  h <- holdingsleep (buf_lock b) ;;
  if negb h then panic "bwrite" else virtio_disk_rw b true.

Definition brelse (b : nat) : K unit :=
  h <- holdingsleep (buf_lock b) ;;
  if negb h then panic "brelse"
  else
    releasesleep (buf_lock b) ;;;
    acquire LkBcache ;;;
    modify (upd_buf b (fun x => set_b_refcnt (u32 (b_refcnt x - 1)) x)) ;;;
    x <- gets (get_buf b) ;;
    when (b_refcnt x =? 0)
      (modify (upd_buf (b_next x) (set_b_prev (b_prev x))) ;;;
       x <- gets (get_buf b) ;;
       modify (upd_buf (b_prev x) (set_b_next (b_next x))) ;;;
       link_front b) ;;;
    release LkBcache.

Definition bpin (b : nat) : K unit :=
  acquire LkBcache ;;;
  modify (upd_buf b (fun x => set_b_refcnt (u32 (b_refcnt x + 1)) x)) ;;;
  release LkBcache.

Definition bunpin (b : nat) : K unit :=
  acquire LkBcache ;;;
  modify (upd_buf b (fun x => set_b_refcnt (u32 (b_refcnt x - 1)) x)) ;;;
  release LkBcache.
