(* ===== verification/BioList.v ===== *)
(** The list of buffers: [brelse] moves a buffer to the front, [bget] finds the
    buffer of a block or the least recently used free one. *)
From S2P Require Import Prelude State Locks Sched Sleeplock Bio.

Definition buf_at (bufs : list buf) (i : nat) : buf := default buf0 (bufs !! i).
Definition nxt (bufs : list buf) (i : nat) : nat := b_next (buf_at bufs i).
Definition prv (bufs : list buf) (i : nat) : nat := b_prev (buf_at bufs i).

(** Following [f] from [a] visits [l] and then [z]. *)
Fixpoint chain (f : nat -> nat) (a : nat) (l : list nat) (z : nat) : Prop :=
  match l with
  | [] => f a = z
  | x :: l => f a = x /\ chain f x l z
  end.

Lemma chain_ext f g a l z :
  (forall x, x ∈ a :: l -> g x = f x) -> chain f a l z -> chain g a l z.
Proof.
  revert a. induction l as [|x l IH]; intros a E; simpl.
  - rewrite E; [done|]. apply elem_of_cons. by left.
  - intros [<- Hc]. split; [apply E, elem_of_cons; by left|].
    apply IH; [|done]. intros y Hy. apply E. by apply elem_of_cons; right.
Qed.

Lemma chain_app f a l1 x l2 z : chain f a (l1 ++ x :: l2) z <-> chain f a l1 x /\ chain f x l2 z.
Proof.
  revert a. induction l1 as [|y l1 IH]; intros a; simpl; [done|]. rewrite IH. tauto.
Qed.

Definition fupd (f : nat -> nat) (x v : nat) : nat -> nat := fun y => if (y =? x)%nat then v else f y.

Lemma fupd_eq f x v : fupd f x v x = v.
Proof. unfold fupd. by rewrite Nat.eqb_refl. Qed.
Lemma fupd_ne f x v y : y <> x -> fupd f x v y = f y.
Proof. intros Hne. unfold fupd. by rewrite (proj2 (Nat.eqb_neq y x)). Qed.

Lemma fupd_ext f g x v y : f y = g y -> fupd f x v y = fupd g x v y.
Proof. unfold fupd. by destruct (y =? x)%nat. Qed.

Lemma chain_fupd f a l z x v : x ∉ a :: l -> chain f a l z -> chain (fupd f x v) a l z.
Proof. intros Hn. apply chain_ext. intros y Hy. apply fupd_ne. intros ->. done. Qed.

(** The last element of [a :: l]. *)
Fixpoint lastof (a : nat) (l : list nat) : nat :=
  match l with [] => a | x :: l => lastof x l end.

Lemma lastof_in a l : lastof a l ∈ a :: l.
Proof.
  revert a. induction l as [|x l IH]; intros a; simpl; [apply elem_of_cons; by left|].
  apply elem_of_cons. right. apply IH.
Qed.

Lemma lastof_snoc a l x : lastof a (l ++ [x]) = x.
Proof. revert a. induction l; intros b; simpl; [done|auto]. Qed.

Lemma lastof_rev a l : lastof a (rev l) = List.hd a l.
Proof. destruct l as [|x l]; simpl; [done|apply lastof_snoc]. Qed.

Lemma chain_hd f a l z : chain f a l z -> f a = List.hd z l.
Proof. destruct l; simpl; [done|]. by intros [? _]. Qed.

(** Bypassing [b] in a chain. *)
Lemma chain_bypass f a l1 b l2 z :
  NoDup (a :: l1 ++ b :: l2) -> chain f a (l1 ++ b :: l2) z ->
  chain (fupd f (lastof a l1) (f b)) a (l1 ++ l2) z.
Proof.
  revert a. induction l1 as [|y l1 IH]; intros a Hnd Hc; simpl in *.
  - destruct Hc as [Ea Hc]. apply NoDup_cons in Hnd as [Hna _].
    destruct l2 as [|x l2]; simpl in *; [by rewrite fupd_eq|].
    destruct Hc as [-> Hc]. split; [by rewrite fupd_eq|]. apply chain_fupd; [|done].
    intros Hx. apply Hna, elem_of_cons. by right.
  - destruct Hc as [Ea Hc]. apply NoDup_cons in Hnd as [Hna Hnd].
    split; [|by apply IH]. rewrite fupd_ne; [done|]. intros ->. apply Hna.
    pose proof (lastof_in y l1) as Hl. rewrite app_comm_cons. apply elem_of_app. by left.
Qed.

(** Putting [b] after the start, and before the end, of a chain. *)
Lemma chain_push f a l z b :
  b ∉ a :: l -> a ∉ l -> chain f a l z -> chain (fupd (fupd f b (f a)) a b) a (b :: l) z.
Proof.
  intros [Hba Hbl]%not_elem_of_cons Hal Hc. simpl. split; [by rewrite fupd_eq|].
  destruct l as [|x l]; simpl in *.
  - by rewrite fupd_ne, fupd_eq.
  - destruct Hc as [Ea Hc]. split; [by rewrite fupd_ne, fupd_eq|].
    by apply chain_fupd, chain_fupd.
Qed.

Lemma chain_snoc f a l z b :
  b ∉ a :: l -> NoDup (a :: l) -> chain f a l z ->
  chain (fupd (fupd f b z) (lastof a l) b) a (l ++ [b]) z.
Proof.
  revert a. induction l as [|x l IH]; intros a [Hba Hbl]%not_elem_of_cons Hnd Hc; simpl in *.
  - split; [by rewrite fupd_eq|]. by rewrite fupd_ne, fupd_eq.
  - destruct Hc as [Ea Hc]. apply NoDup_cons in Hnd as [Hna Hnd]. split; [|by apply IH].
    rewrite !fupd_ne; [done|done|]. intros ->. apply Hna, lastof_in.
Qed.

(** The cache's list: it links all buffers, both ways. *)
Record blist (bufs : list buf) (order : list nat) : Prop := {
  bl_len : length bufs = S bhead;
  bl_perm : order ≡ₚ seq 0 bhead;
  bl_next : chain (nxt bufs) bhead order bhead;
  bl_prev : chain (prv bufs) bhead (rev order) bhead
}.

Lemma blist_nodup bufs order : blist bufs order -> NoDup (bhead :: order).
Proof.
  intros Hb. apply NoDup_cons. rewrite (bl_perm _ _ Hb). split; [|apply NoDup_seq].
  rewrite elem_of_seq. lia.
Qed.

Lemma blist_in bufs order b : blist bufs order -> b ∈ order <-> (b < bhead)%nat.
Proof. intros Hb. rewrite (bl_perm _ _ Hb), elem_of_seq. lia. Qed.

(** ** Finding a buffer *)

Lemma find_cached_chain fuel bufs a l dev bn :
  chain (nxt bufs) a l bhead -> (length l < fuel)%nat -> bhead ∉ l ->
  find_cached fuel bufs (nxt bufs a) dev bn =
  List.find (fun i => (b_dev (buf_at bufs i) =? dev) && (b_blockno (buf_at bufs i) =? bn)) l.
Proof.
  revert a l. induction fuel as [|fuel IH]; intros a l Hc Hf Hn; [lia|].
  destruct l as [|x l]; simpl in Hc.
  - rewrite Hc. cbn [find_cached List.find]. by rewrite Nat.eqb_refl.
  - destruct Hc as [-> Hc]. apply not_elem_of_cons in Hn as [Hne Hn]. cbn [find_cached List.find].
    rewrite (proj2 (Nat.eqb_neq x bhead)) by done. fold (buf_at bufs x).
    destruct (_ && _); [done|]. apply IH; [done|simpl in Hf; lia|done].
Qed.

Lemma find_unused_chain fuel bufs a l :
  chain (prv bufs) a l bhead -> (length l < fuel)%nat -> bhead ∉ l ->
  find_unused fuel bufs (prv bufs a) = List.find (fun i => b_refcnt (buf_at bufs i) =? 0) l.
Proof.
  revert a l. induction fuel as [|fuel IH]; intros a l Hc Hf Hn; [lia|].
  destruct l as [|x l]; simpl in Hc.
  - rewrite Hc. cbn [find_unused List.find]. by rewrite Nat.eqb_refl.
  - destruct Hc as [-> Hc]. apply not_elem_of_cons in Hn as [Hne Hn]. cbn [find_unused List.find].
    rewrite (proj2 (Nat.eqb_neq x bhead)) by done. fold (buf_at bufs x).
    destruct (_ =? 0); [done|]. apply IH; [done|simpl in Hf; lia|done].
Qed.

Lemma blist_length bufs order : blist bufs order -> length order = bhead.
Proof. intros Hb. by rewrite (bl_perm _ _ Hb), length_seq. Qed.

(** The forward scan finds the buffer of the block, if there is one. *)
Lemma find_cached_spec bufs order dev bn :
  blist bufs order ->
  match find_cached (S bhead) bufs (nxt bufs bhead) dev bn with
  | Some b => (b < bhead)%nat /\ b_dev (buf_at bufs b) = dev /\ b_blockno (buf_at bufs b) = bn
  | None => forall b, (b < bhead)%nat -> ~ (b_dev (buf_at bufs b) = dev /\ b_blockno (buf_at bufs b) = bn)
  end.
Proof.
  intros Hb. pose proof (blist_nodup _ _ Hb) as [Hn _]%NoDup_cons.
  rewrite (find_cached_chain _ _ _ order) by
    (first [apply Hb | rewrite (blist_length _ _ Hb); lia | done]).
  destruct (List.find _ order) as [b|] eqn:E.
  - apply List.find_some in E as [Hin Hk]. apply list_elem_of_In, (blist_in _ _ b Hb) in Hin.
    apply andb_true_iff in Hk as [?%Z.eqb_eq ?%Z.eqb_eq]. done.
  - intros b Hlt [Hd Hbn]. apply (blist_in _ _ b Hb), list_elem_of_In in Hlt.
    pose proof (List.find_none _ _ E b Hlt) as Hk. cbn in Hk. lia.
Qed.

Lemma list_find_last_split {A} (P : A -> bool) l b :
  List.find P l = Some b -> exists l1 l2, l = l1 ++ b :: l2 /\ P b = true /\ Forall (fun x => P x = false) l1.
Proof.
  induction l as [|x l IH]; simpl; [done|]. destruct (P x) eqn:E.
  - intros [= <-]. by exists [], l.
  - intros (l1 & l2 & -> & HP & Hl1)%IH. exists (x :: l1), l2. split_and!; [done|done|by constructor].
Qed.

(** The backward scan finds the least recently used buffer nobody refers to. *)
Lemma find_unused_spec bufs order :
  blist bufs order ->
  match find_unused (S bhead) bufs (prv bufs bhead) with
  | Some b => (b < bhead)%nat /\ b_refcnt (buf_at bufs b) = 0 /\
      exists l1 l2, order = l1 ++ b :: l2 /\ Forall (fun i => b_refcnt (buf_at bufs i) <> 0) l2
  | None => forall b, (b < bhead)%nat -> b_refcnt (buf_at bufs b) <> 0
  end.
Proof.
  intros Hb. pose proof (blist_nodup _ _ Hb) as [Hn _]%NoDup_cons.
  rewrite (find_unused_chain _ _ _ (rev order)) by
    (first [apply Hb | rewrite length_rev, (blist_length _ _ Hb); lia | by rewrite <- Permutation_rev]).
  destruct (List.find _ (rev order)) as [b|] eqn:E.
  - apply list_find_last_split in E as (l1 & l2 & E & Hz%Z.eqb_eq & Hl1).
    assert (Eo : order = rev l2 ++ b :: rev l1).
    { rewrite <- (rev_involutive order), E, rev_app_distr. simpl. by rewrite <- app_assoc. }
    split; [apply (blist_in _ _ b Hb); rewrite Eo; set_solver|]. split; [done|].
    exists (rev l2), (rev l1). split; [done|]. rewrite <- Permutation_rev.
    eapply Forall_impl; [exact Hl1|]. cbn. intros. lia.
  - intros b Hlt. apply (blist_in _ _ b Hb) in Hlt.
    pose proof (List.find_none _ _ E b) as Hk. cbn in Hk. rewrite <- in_rev, <- list_elem_of_In in Hk.
    specialize (Hk Hlt). lia.
Qed.

(** ** Moving a buffer to the front *)

Lemma buf_at_alter f i bufs j :
  (i < length bufs)%nat ->
  buf_at (alter f i bufs) j = if (j =? i)%nat then f (buf_at bufs j) else buf_at bufs j.
Proof.
  intros Hi. unfold buf_at. destruct (Nat.eqb_spec j i) as [->|Hne].
  - rewrite list_lookup_alter_eq. destruct (lookup_lt_is_Some_2 bufs i Hi) as [x ->]. done.
  - by rewrite list_lookup_alter_ne.
Qed.

(** The effect of the updates on the links. *)
Lemma nxt_set_next v i bufs j :
  (i < length bufs)%nat -> nxt (alter (set_b_next v) i bufs) j = fupd (nxt bufs) i v j.
Proof.
  intros Hi. unfold nxt, fupd. rewrite buf_at_alter by done. by destruct (j =? i)%nat.
Qed.
Lemma nxt_set_prev v i bufs j :
  (i < length bufs)%nat -> nxt (alter (set_b_prev v) i bufs) j = nxt bufs j.
Proof. intros Hi. unfold nxt. rewrite buf_at_alter by done. by destruct (j =? i)%nat. Qed.
Lemma prv_set_prev v i bufs j :
  (i < length bufs)%nat -> prv (alter (set_b_prev v) i bufs) j = fupd (prv bufs) i v j.
Proof.
  intros Hi. unfold prv, fupd. rewrite buf_at_alter by done. by destruct (j =? i)%nat.
Qed.
Lemma prv_set_next v i bufs j :
  (i < length bufs)%nat -> prv (alter (set_b_next v) i bufs) j = prv bufs j.
Proof. intros Hi. unfold prv. rewrite buf_at_alter by done. by destruct (j =? i)%nat. Qed.

(** Buffers that differ at most in their links. *)
Definition relinked (bufs bufs' : list buf) : Prop :=
  length bufs' = length bufs /\
  forall i, exists n p, buf_at bufs' i = set_b_prev p (set_b_next n (buf_at bufs i)).

Lemma relinked_trans b1 b2 b3 : relinked b1 b2 -> relinked b2 b3 -> relinked b1 b3.
Proof.
  intros [L1 H1] [L2 H2]. split; [congruence|]. intros i.
  destruct (H1 i) as (n1 & p1 & E1), (H2 i) as (n2 & p2 & E2). exists n2, p2. by rewrite E2, E1.
Qed.
Lemma relinked_next v i bufs : (i < length bufs)%nat -> relinked bufs (alter (set_b_next v) i bufs).
Proof.
  intros Hi. split; [apply length_alter|]. intros j. rewrite buf_at_alter by done.
  destruct (j =? i)%nat; [exists v, (b_prev (buf_at bufs j))|exists (b_next (buf_at bufs j)), (b_prev (buf_at bufs j))];
    by destruct (buf_at bufs j).
Qed.
Lemma relinked_prev v i bufs : (i < length bufs)%nat -> relinked bufs (alter (set_b_prev v) i bufs).
Proof.
  intros Hi. split; [apply length_alter|]. intros j. rewrite buf_at_alter by done.
  destruct (j =? i)%nat; [exists (b_next (buf_at bufs j)), v|exists (b_next (buf_at bufs j)), (b_prev (buf_at bufs j))];
    by destruct (buf_at bufs j).
Qed.

Definition unlinked (b : nat) (bufs : list buf) : list buf :=
  let bufs1 := alter (set_b_prev (prv bufs b)) (nxt bufs b) bufs in
  alter (set_b_next (nxt bufs1 b)) (prv bufs1 b) bufs1.

Definition linked (b : nat) (bufs : list buf) : list buf :=
  let bufs1 := alter (set_b_next (nxt bufs bhead)) b bufs in
  let bufs2 := alter (set_b_prev bhead) b bufs1 in
  let bufs3 := alter (set_b_prev b) (nxt bufs2 bhead) bufs2 in
  alter (set_b_next b) bhead bufs3.

(** A doubly linked list through some of the buffers. *)
Record dlist (bufs : list buf) (l : list nat) : Prop := {
  dl_len : length bufs = S bhead;
  dl_nodup : NoDup (bhead :: l);
  dl_range : Forall (fun i => (i < bhead)%nat) l;
  dl_next : chain (nxt bufs) bhead l bhead;
  dl_prev : chain (prv bufs) bhead (rev l) bhead
}.

Lemma blist_dlist bufs order : blist bufs order <-> dlist bufs order /\ order ≡ₚ seq 0 bhead.
Proof.
  split.
  - intros Hb. split; [|apply Hb]. split; [apply Hb|by eapply blist_nodup| |apply Hb|apply Hb].
    apply Forall_forall. intros x. by apply (blist_in _ _ x Hb).
  - intros [[] ?]. by split.
Qed.

Lemma dlist_hd bufs l : dlist bufs l -> (List.hd bhead l < S bhead)%nat.
Proof. intros Hd. destruct l as [|x l]; simpl; [lia|]. pose proof (Forall_inv (dl_range _ _ Hd)) as Hx. cbn in Hx. lia. Qed.

Lemma dlist_unlink bufs l1 b l2 :
  dlist bufs (l1 ++ b :: l2) ->
  dlist (unlinked b bufs) (l1 ++ l2) /\ relinked bufs (unlinked b bufs).
Proof.
  intros [Hlen Hnd Hrg Hn Hp].
  assert (Enb : nxt bufs b = List.hd bhead l2) by (apply chain_app in Hn as [_ Hn']; by apply chain_hd in Hn').
  rewrite rev_app_distr in Hp. simpl in Hp. rewrite <- app_assoc in Hp. simpl in Hp.
  assert (Epb : prv bufs b = List.hd bhead (rev l1)) by (apply chain_app in Hp as [_ Hp']; by apply chain_hd in Hp').
  apply Forall_app in Hrg as [Hr1 Hr2]. apply Forall_cons in Hr2 as [Hrb Hr2].
  assert (Hnb : (nxt bufs b < length bufs)%nat) by (rewrite Enb, Hlen; destruct Hr2; simpl; lia).
  assert (Hpb : (prv bufs b < length bufs)%nat).
  { rewrite Epb, Hlen. rewrite (Permutation_rev l1) in Hr1. destruct Hr1; simpl; lia. }
  assert (Epb1 : prv (alter (set_b_prev (prv bufs b)) (nxt bufs b) bufs) b = prv bufs b).
  { rewrite prv_set_prev by done. unfold fupd. by destruct (b =? nxt bufs b)%nat. }
  unfold unlinked. rewrite Epb1, nxt_set_prev by done. split.
  - split.
    + by rewrite !length_alter.
    + by rewrite <- Permutation_middle, Permutation_swap, NoDup_cons in Hnd; destruct Hnd.
    + apply Forall_app. by split.
    + eapply chain_ext; [|apply (chain_bypass (nxt bufs) bhead l1 b l2); [done|exact Hn]].
      intros x _. rewrite nxt_set_next by (by rewrite length_alter). unfold fupd.
      rewrite nxt_set_prev by done. rewrite Epb. by rewrite <- (rev_involutive l1) at 2; rewrite lastof_rev.
    + rewrite rev_app_distr. eapply chain_ext; [|apply (chain_bypass (prv bufs) bhead (rev l2) b (rev l1)); [|exact Hp]].
      * intros x _. rewrite prv_set_next by (by rewrite length_alter). rewrite prv_set_prev by done.
        by rewrite Enb, lastof_rev.
      * rewrite <- !Permutation_rev. rewrite <- Permutation_middle in Hnd |- *. by rewrite (Permutation_app_comm l2).
  - eapply relinked_trans; [by apply (relinked_prev (prv bufs b) (nxt bufs b))|]. apply relinked_next. by rewrite length_alter.
Qed.

Lemma dlist_link bufs l b :
  dlist bufs l -> b ∉ bhead :: l -> (b < bhead)%nat ->
  dlist (linked b bufs) (b :: l) /\ relinked bufs (linked b bufs).
Proof.
  intros Hd Hb Hlt. pose proof (dlist_hd _ _ Hd) as Hhd. destruct Hd as [Hlen Hnd Hrg Hn Hp].
  pose proof (chain_hd _ _ _ _ Hn) as Ehd.
  set (bufs1 := alter (set_b_next (nxt bufs bhead)) b bufs).
  set (bufs2 := alter (set_b_prev bhead) b bufs1).
  assert (Hb0 : (b < length bufs)%nat) by lia.
  assert (Hl1 : length bufs1 = S bhead) by (unfold bufs1; by rewrite length_alter).
  assert (Hl2 : length bufs2 = S bhead) by (unfold bufs2; by rewrite length_alter).
  assert (Hbh : b <> bhead) by lia.
  assert (En2 : nxt bufs2 bhead = nxt bufs bhead).
  { unfold bufs2, bufs1. rewrite nxt_set_prev, nxt_set_next by (rewrite ?length_alter; lia). by apply fupd_ne. }
  unfold linked. fold bufs1. fold bufs2. rewrite En2.
  assert (Hnh : (nxt bufs bhead < length bufs2)%nat) by (rewrite Ehd; lia). split.
  - split.
    + by rewrite !length_alter.
    + rewrite Permutation_swap. by apply NoDup_cons.
    + by apply Forall_cons.
    + eapply chain_ext; [|apply (chain_push (nxt bufs) bhead l bhead b); [done|by apply NoDup_cons in Hnd as [? _]|done]].
      intros x _. rewrite nxt_set_next by (rewrite length_alter; lia). apply fupd_ext.
      rewrite nxt_set_prev by done. unfold bufs2. rewrite nxt_set_prev by lia.
      unfold bufs1. by rewrite nxt_set_next.
    + simpl. eapply chain_ext; [|apply (chain_snoc (prv bufs) bhead (rev l) bhead b)].
      * intros x _. rewrite prv_set_next by (rewrite length_alter; lia). rewrite prv_set_prev by done.
        rewrite lastof_rev, Ehd. apply fupd_ext.
        unfold bufs2. rewrite prv_set_prev by lia. apply fupd_ext.
        unfold bufs1. by rewrite prv_set_next.
      * by rewrite <- Permutation_rev.
      * by rewrite <- Permutation_rev.
      * done.
  - eapply relinked_trans; [by apply (relinked_next (nxt bufs bhead) b)|]. fold bufs1.
    eapply relinked_trans; [apply (relinked_prev bhead b); lia|]. fold bufs2.
    eapply relinked_trans; [by apply (relinked_prev b (nxt bufs bhead))|]. apply relinked_next. rewrite length_alter. lia.
Qed.

(** Moving [b] to the front of the cache's list. *)
Lemma move_front bufs l1 b l2 :
  blist bufs (l1 ++ b :: l2) ->
  blist (linked b (unlinked b bufs)) (b :: l1 ++ l2) /\ relinked bufs (linked b (unlinked b bufs)).
Proof.
  intros [Hd HP]%blist_dlist. destruct (dlist_unlink _ _ _ _ Hd) as [Hd1 R1].
  pose proof (dl_nodup _ _ Hd) as Hnd. rewrite <- Permutation_middle in Hnd.
  destruct (dlist_link (unlinked b bufs) (l1 ++ l2) b Hd1) as [Hd2 R2].
  - rewrite Permutation_swap, NoDup_cons in Hnd. by destruct Hnd.
  - pose proof (dl_range _ _ Hd) as Hr. rewrite Forall_forall in Hr. apply Hr. apply elem_of_app. right.
    apply elem_of_cons. by left.
  - split; [|by eapply relinked_trans]. apply blist_dlist. split; [done|].
    by rewrite <- HP, <- Permutation_middle.
Qed.
