(* ===== verification/BioSpec.v ===== *)
(** What the buffer cache promises to the code above it: the running process
    sees every block as one array of bytes, whether it is cached or on disk. *)
From S2P Require Import Prelude State Locks Kstring Sched Sleeplock Bio BioList.

(** * Blocks with the same BSIZE bytes *)

Definition beq (d d' : bytes) : Prop := forall i, 0 <= i < BSIZE -> load8 d' i = load8 d i.

#[export] Instance beq_equiv : Equivalence beq.
Proof.
  split.
  - by intros d i.
  - intros d d' E i Hi. by rewrite E.
  - intros d d' d'' E E' i Hi. by rewrite E', E.
Qed.

(** * The processes that a call of the cache may wake *)

Record bio_only (s s' : kstate) : Prop := {
  bo_eq : s' = set_k_procs (k_procs s') (set_k_disk (k_disk s') (set_k_bufs (k_bufs s') s));
  bo_len : length (k_procs s') = length (k_procs s);
  bo_procs : forall i, exists st, get_proc i s' = set_p_state st (get_proc i s);
  bo_cur : forall i, k_cur s = Some i -> get_proc i s' = get_proc i s
}.

Lemma set_p_state_id p : set_p_state (p_state p) p = p.
Proof. by destruct p. Qed.

Lemma bio_only_refl s : bio_only s s.
Proof.
  split; [by destruct s|done| |done]. intros i. exists (p_state (get_proc i s)). by rewrite set_p_state_id.
Qed.

Lemma bio_only_trans s1 s2 s3 : bio_only s1 s2 -> bio_only s2 s3 -> bio_only s1 s3.
Proof.
  intros [E1 L1 P1 C1] [E2 L2 P2 C2]. split.
  - rewrite E2. rewrite E1. by destruct s1.
  - congruence.
  - intros i. destruct (P1 i) as [st1 H1], (P2 i) as [st2 H2]. exists st2. by rewrite H2, H1.
  - intros i Hi. rewrite C2, C1; [done|done|]. by rewrite E1.
Qed.

Lemma bio_only_bufs s bufs : bio_only s (set_k_bufs bufs s).
Proof.
  split; [by destruct s|done| |done]. intros i. exists (p_state (get_proc i s)). by rewrite set_p_state_id.
Qed.
Lemma bio_only_disk s d : bio_only s (set_k_disk d s).
Proof.
  split; [by destruct s|done| |done]. intros i. exists (p_state (get_proc i s)). by rewrite set_p_state_id.
Qed.

Lemma get_proc_imap g i s :
  get_proc i (set_k_procs (imap g (k_procs s)) s) =
  match k_procs s !! i with Some p => g i p | None => proc0 end.
Proof. unfold get_proc. cbn. rewrite list_lookup_imap. by destruct (k_procs s !! i). Qed.

Lemma bio_only_wake s ch : bio_only s (set_k_procs (imap (woken (k_cur s) ch) (k_procs s)) s).
Proof.
  split; [by destruct s|cbn; by rewrite length_imap| |].
  - intros i. rewrite get_proc_imap. unfold get_proc. destruct (k_procs s !! i) as [p|]; cbn.
    + unfold woken. destruct (_ && _); [by exists RUNNABLE|]. exists (p_state p). by rewrite set_p_state_id.
    + exists UNUSED. done.
  - intros i Hi. rewrite get_proc_imap. unfold get_proc. destruct (k_procs s !! i) as [p|]; cbn; [|done].
    unfold woken. by rewrite bool_decide_eq_true_2.
Qed.

Lemma bio_only_fields s s' :
  bio_only s s' -> k_held s' = k_held s /\ k_cur s' = k_cur s /\ k_log s' = k_log s /\ k_sb s' = k_sb s /\
    k_itable s' = k_itable s /\ k_mem s' = k_mem s.
Proof. intros [-> _ _ _]. done. Qed.

(** * The running process *)

Record running (s : kstate) (pid : Z) : Prop := {
  ru_held : k_held s = [];
  ru_len : length (k_procs s) = Z.to_nat NPROC;
  ru_cur : exists i, k_cur s = Some i /\ p_pid (get_proc i s) = pid
}.

Lemma running_pid s pid : running s pid -> mypid s = pid.
Proof. intros [_ _ (i & E & Hp)]. unfold mypid. by rewrite E. Qed.

Lemma running_bio s s' pid : bio_only s s' -> running s pid -> running s' pid.
Proof.
  intros Hb [Hh Hl (i & Ei & Hp)]. destruct (bio_only_fields _ _ Hb) as (Eh & Ec & _).
  split; [congruence|rewrite (bo_len _ _ Hb); done|]. exists i. rewrite Ec. split; [done|].
  by rewrite (bo_cur _ _ Hb i Ei).
Qed.

(** * Sleep-locks of buffers *)

Lemma get_buf_upd b f s j :
  (b < length (k_bufs s))%nat -> get_buf j (upd_buf b f s) = if (j =? b)%nat then f (get_buf j s) else get_buf j s.
Proof. intros Hb. apply (buf_at_alter f b (k_bufs s) j Hb). Qed.

Lemma curproc_running s pid : running s pid -> exists i, curproc s = Ok i s.
Proof. intros [_ _ (i & E & _)]. exists i. unfold curproc, myproc. rewrite bind_gets, E. done. Qed.

Ltac held_side := first [ assumption | done | set_solver ].

#[export] Instance buf_sleeplock b : SleepLock (buf_lock b).
Proof. split; done. Qed.

Lemma acquiresleep_buf s pid b :
  running s pid -> slk_locked (b_lock (get_buf b s)) = false ->
  acquiresleep (buf_lock b) s = Ok tt (upd_buf b (set_b_lock (mk_sleeplock true pid)) s).
Proof. intros [Hh _ (i & Hc & <-)] Hl. by apply (acquiresleep_free (buf_lock b)). Qed.

Lemma holdingsleep_buf s pid b :
  running s pid ->
  holdingsleep (buf_lock b) s =
    Ok (slk_locked (b_lock (get_buf b s)) && (slk_pid (b_lock (get_buf b s)) =? pid)) s.
Proof. intros [Hh _ (i & Hc & <-)]. by apply (holdingsleep_Ok (buf_lock b)). Qed.

Lemma releasesleep_buf s pid b :
  running s pid ->
  exists s', releasesleep (buf_lock b) s = Ok tt s' /\ bio_only s s' /\
    k_bufs s' = alter (set_b_lock (mk_sleeplock false 0)) b (k_bufs s) /\ k_disk s' = k_disk s.
Proof.
  intros [Hh Hn (i & Hc & _)]. eexists. split; [by apply (releasesleep_Ok (buf_lock b) s i)|]. split; [|done].
  eapply bio_only_trans; [apply (bio_only_bufs s (alter (set_b_lock (mk_sleeplock false 0)) b (k_bufs s)))|].
  pose proof (bio_only_wake (set_k_bufs (alter (set_b_lock (mk_sleeplock false 0)) b (k_bufs s)) s) (ChBuf b)) as H.
  cbn in H. by rewrite Hc in H.
Qed.

(** * The contents of the cache

    [cb bufs] are the buffers without their list links. *)

Definition cb (bufs : list buf) (i : nat) : buf := set_b_prev 0 (set_b_next 0 (buf_at bufs i)).
Definition cupd (c : nat -> buf) (b : nat) (x : buf) : nat -> buf := fun i => if (i =? b)%nat then x else c i.
Definition vupd (V : Z -> bytes) (bn : Z) (d : bytes) : Z -> bytes := fun x => if x =? bn then d else V x.

Lemma cupd_eq c b x : cupd c b x b = x.
Proof. unfold cupd. by rewrite Nat.eqb_refl. Qed.
Lemma cupd_ne c b x i : i <> b -> cupd c b x i = c i.
Proof. intros Hne. unfold cupd. by rewrite (proj2 (Nat.eqb_neq i b)). Qed.
Lemma vupd_eq V bn d : vupd V bn d bn = d.
Proof. unfold vupd. by rewrite Z.eqb_refl. Qed.
Lemma vupd_ne V bn d x : x <> bn -> vupd V bn d x = V x.
Proof. intros Hne. unfold vupd. by rewrite (proj2 (Z.eqb_neq x bn)). Qed.

Lemma cb_relinked bufs bufs' i : relinked bufs bufs' -> cb bufs' i = cb bufs i.
Proof. intros [_ Hr]. unfold cb. destruct (Hr i) as (n & p & ->). done. Qed.

Section Cache.
Context (dev pid : Z).

Definition holds (L : list (nat * Z)) (i : nat) : Z := if bool_decide (i ∈ L.*1) then 1 else 0.
Definition pins (pinned : gset Z) (x : buf) : Z :=
  if bool_decide (b_dev x = dev /\ b_blockno x ∈ pinned) then 1 else 0.

(** The buffers [c] hold the blocks [V] (the disk holds [D]); the process has
    the buffers and blocks [L] locked, and the blocks [pinned] are pinned. *)
Record crep (c : nat -> buf) (D V : Z -> bytes) (L : list (nat * Z)) (pinned : gset Z) : Prop := {
  cr_uniq : forall i j, (i < bhead)%nat -> (j < bhead)%nat -> b_dev (c i) = dev -> b_dev (c j) = dev ->
    b_blockno (c i) = b_blockno (c j) -> i = j;
  cr_data : forall i, (i < bhead)%nat -> b_dev (c i) = dev -> b_valid (c i) = true ->
    beq (b_data (c i)) (V (b_blockno (c i)));
  cr_clean : forall bn, bn ∉ L.*2 -> bn ∉ pinned -> beq (D bn) (V bn);
  cr_locked : forall b bn, (b, bn) ∈ L -> (b < bhead)%nat /\ b_dev (c b) = dev /\ b_blockno (c b) = bn /\
    b_valid (c b) = true /\ b_lock (c b) = mk_sleeplock true pid;
  cr_nodup : NoDup L.*2;
  cr_free : forall i, (i < bhead)%nat -> i ∉ L.*1 -> slk_locked (b_lock (c i)) = false;
  cr_ref : forall i, (i < bhead)%nat -> b_refcnt (c i) = holds L i + pins pinned (c i);
  cr_pin : forall bn, bn ∈ pinned -> exists i, (i < bhead)%nat /\ b_dev (c i) = dev /\
    b_blockno (c i) = bn /\ b_valid (c i) = true
}.

Record brep (s : kstate) (D V : Z -> bytes) (L : list (nat * Z)) (pinned : gset Z) : Prop := {
  br_run : running s pid;
  br_list : exists order, blist (k_bufs s) order;
  br_disk : forall bn, beq (disk_block bn s) (D bn);
  br_cache : crep (cb (k_bufs s)) D V L pinned
}.

Lemma crep_ext c c' D V L pinned :
  (forall i, (i < bhead)%nat -> c' i = c i) -> crep c D V L pinned -> crep c' D V L pinned.
Proof.
  intros E [H1 H2 H3 H4 H5 H6 H7 H8]. split; [| |done| |done| | |].
  - intros i j Hi Hj. rewrite !E by done. by apply H1.
  - intros i Hi. rewrite E by done. by apply H2.
  - intros b bn Hb. destruct (H4 b bn Hb) as (? & ?). rewrite E by done. done.
  - intros i Hi. rewrite E by done. by apply H6.
  - intros i Hi. rewrite E by done. by apply H7.
  - intros bn Hbn. destruct (H8 bn Hbn) as (i & Hi & ?). exists i. rewrite E by done. done.
Qed.

(** The two halves of a locked pair determine each other. *)
Lemma crep_pair c D V L pinned b bn bn' :
  crep c D V L pinned -> (b, bn) ∈ L -> (b, bn') ∈ L -> bn = bn'.
Proof.
  intros Hc H1 H2. destruct (cr_locked _ _ _ _ _ Hc b bn H1) as (_ & _ & E1 & _).
  destruct (cr_locked _ _ _ _ _ Hc b bn' H2) as (_ & _ & E2 & _). congruence.
Qed.

Lemma elem_fst (L : list (nat * Z)) b : b ∈ L.*1 <-> exists bn, (b, bn) ∈ L.
Proof. rewrite list_elem_of_fmap. split; [intros ([? bn] & -> & ?); eauto|intros (bn & ?); by exists (b, bn)]. Qed.
Lemma elem_snd (L : list (nat * Z)) bn : bn ∈ L.*2 <-> exists b, (b, bn) ∈ L.
Proof. rewrite list_elem_of_fmap. split; [intros ([b ?] & -> & ?); eauto|intros (b & ?); by exists (b, bn)]. Qed.

(** A buffer in use by nobody. *)
Lemma crep_unused c D V L pinned b :
  crep c D V L pinned -> (b < bhead)%nat -> b_refcnt (c b) = 0 ->
  b ∉ L.*1 /\ ~ (b_dev (c b) = dev /\ b_blockno (c b) ∈ pinned).
Proof.
  intros Hc Hb H0. rewrite (cr_ref _ _ _ _ _ Hc b Hb) in H0. unfold holds, pins in H0.
  repeat case_bool_decide; try lia; done.
Qed.

(** The process locks buffer [b], which now holds block [bn]. *)
Lemma crep_lock c D V L pinned b bn x :
  crep c D V L pinned -> (b < bhead)%nat -> b ∉ L.*1 -> bn ∉ L.*2 ->
  (forall j, (j < bhead)%nat -> j <> b -> b_dev (c j) = dev -> b_blockno (c j) <> bn) ->
  (b_dev (c b) = dev -> b_blockno (c b) ∈ pinned -> b_blockno (c b) = bn) ->
  b_dev x = dev -> b_blockno x = bn -> b_valid x = true -> b_lock x = mk_sleeplock true pid ->
  b_refcnt x = 1 + pins pinned x -> beq (b_data x) (V bn) ->
  crep (cupd c b x) D V ((b, bn) :: L) pinned.
Proof.
  intros [H1 H2 H3 H4 H5 H6 H7 H8] Hb HbL HbnL Hoth Hkeep Xd Xb Xv Xl Xr Xdata. split; cbn.
  - intros i j Hi Hj. unfold cupd. destruct (Nat.eqb_spec i b) as [->|Hi'], (Nat.eqb_spec j b) as [->|Hj']; intros Hdi Hdj E.
    + done.
    + exfalso. apply (Hoth j Hj Hj' Hdj). congruence.
    + exfalso. apply (Hoth i Hi Hi' Hdi). congruence.
    + by apply H1.
  - intros i Hi. unfold cupd. destruct (Nat.eqb_spec i b); subst; eauto.
  - intros bn' [_ Hn]%not_elem_of_cons. by apply H3.
  - intros b' bn' [[= -> ->]|Hin]%elem_of_cons; [by rewrite cupd_eq|].
    rewrite cupd_ne; [by apply H4|]. intros ->. apply HbL, elem_fst. eauto.
  - by apply NoDup_cons.
  - intros i Hi [Hne Hn]%not_elem_of_cons. rewrite cupd_ne by done. by apply H6.
  - intros i Hi. unfold cupd, holds. destruct (Nat.eqb_spec i b) as [->|Hne].
    + rewrite bool_decide_eq_true_2 by (apply elem_of_cons; by left). done.
    + rewrite H7 by done. f_equal. unfold holds. erewrite bool_decide_ext; [done|]. cbn. rewrite elem_of_cons. tauto.
  - intros bn' Hp. destruct (H8 bn' Hp) as (i & Hi & Hd & Hbn & Hv). destruct (decide (i = b)) as [->|Hne].
    + exists b. rewrite cupd_eq. assert (bn' = bn) as -> by (rewrite <- Hbn; apply Hkeep; congruence). done.
    + exists i. by rewrite cupd_ne.
Qed.

(** A locked buffer changes: its data, its reference count, the pins. *)
Lemma crep_data c D V L pinned b bn d :
  crep c D V L pinned -> (b, bn) ∈ L ->
  crep (cupd c b (set_b_data d (c b))) D (vupd V bn d) L pinned.
Proof.
  intros [H1 H2 H3 H4 H5 H6 H7 H8] Hin. destruct (H4 b bn Hin) as (Hb & Hd & Hbn & Hv & Hl).
  assert (Ef : forall {A} (f : buf -> A) i, (forall x, f (set_b_data d x) = f x) ->
            f (cupd c b (set_b_data d (c b)) i) = f (c i)).
  { intros A f i E. unfold cupd. destruct (Nat.eqb_spec i b) as [->|]; [by rewrite E|done]. }
  split.
  - intros i j Hi Hj. rewrite !(Ef _ b_dev), !(Ef _ b_blockno) by done. by apply H1.
  - intros i Hi. rewrite (Ef _ b_dev), (Ef _ b_valid), (Ef _ b_blockno) by done. intros Hdi Hvi.
    unfold cupd. destruct (Nat.eqb_spec i b) as [->|Hne]; [by rewrite Hbn, vupd_eq|].
    rewrite vupd_ne; [by apply H2|]. intros E. apply Hne, H1; congruence.
  - intros bn' Hn Hp. rewrite vupd_ne; [by apply H3|]. intros ->. apply Hn, elem_snd. eauto.
  - intros b' bn' Hin'. rewrite (Ef _ b_dev), (Ef _ b_valid), (Ef _ b_blockno), (Ef _ b_lock) by done. by apply H4.
  - done.
  - intros i Hi Hn. rewrite (Ef _ b_lock) by done. by apply H6.
  - intros i Hi. rewrite (Ef _ b_refcnt), (Ef _ (pins pinned)) by done. by apply H7.
  - intros bn' Hp. destruct (H8 bn' Hp) as (i & ?). exists i.
    by rewrite (Ef _ b_dev), (Ef _ b_valid), (Ef _ b_blockno) by done.
Qed.

Lemma pins_insert pinned bn x :
  pins ({[bn]} ∪ pinned) x = if bool_decide (b_dev x = dev /\ b_blockno x = bn) then 1 else pins pinned x.
Proof. unfold pins. repeat case_bool_decide; set_solver. Qed.

Lemma pins_delete pinned bn x :
  pins (pinned ∖ {[bn]}) x = if bool_decide (b_dev x = dev /\ b_blockno x = bn) then 0 else pins pinned x.
Proof. unfold pins. repeat case_bool_decide; set_solver. Qed.

(** The pins of block [bn] and the reference count of its buffer change together. *)
Lemma crep_repin c D V L pinned pinned' b bn r :
  crep c D V L pinned -> (b, bn) ∈ L ->
  (forall x, pins pinned' x = if bool_decide (b_dev x = dev /\ b_blockno x = bn) then r else pins pinned x) ->
  (forall bn', bn' ∈ pinned' -> bn' = bn \/ bn' ∈ pinned) ->
  (forall bn', bn' ∈ pinned -> bn' = bn \/ bn' ∈ pinned') ->
  crep (cupd c b (set_b_refcnt (1 + r) (c b))) D V L pinned'.
Proof.
  intros [H1 H2 H3 H4 H5 H6 H7 H8] Hin Hpins Hsub Hsub'. destruct (H4 b bn Hin) as (Hb & Hd & Hbn & Hv & Hl).
  assert (Ef : forall {A} (f : buf -> A) i, (forall x, f (set_b_refcnt (1 + r) x) = f x) ->
            f (cupd c b (set_b_refcnt (1 + r) (c b)) i) = f (c i)).
  { intros A f i E. unfold cupd. destruct (Nat.eqb_spec i b) as [->|]; [by rewrite E|done]. }
  split.
  - intros i j Hi Hj. rewrite !(Ef _ b_dev), !(Ef _ b_blockno) by done. by apply H1.
  - intros i Hi. rewrite (Ef _ b_dev), (Ef _ b_valid), (Ef _ b_blockno), (Ef _ b_data) by done. by apply H2.
  - intros bn' Hn Hp. apply H3; [done|]. intros Hp'. destruct (Hsub' _ Hp') as [->|]; [|done].
    apply Hn, elem_snd. eauto.
  - intros b' bn' Hin'. rewrite (Ef _ b_dev), (Ef _ b_valid), (Ef _ b_blockno), (Ef _ b_lock) by done. by apply H4.
  - done.
  - intros i Hi Hn. rewrite (Ef _ b_lock) by done. by apply H6.
  - intros i Hi. rewrite (Ef _ (pins pinned')), Hpins by done. unfold cupd.
    destruct (Nat.eqb_spec i b) as [->|Hne].
    + rewrite bool_decide_eq_true_2 by done. unfold holds.
      rewrite bool_decide_eq_true_2 by (apply elem_fst; eauto). done.
    + rewrite H7 by done. rewrite bool_decide_eq_false_2; [done|]. intros [E1 E2]. apply Hne, H1; congruence.
  - intros bn' Hp. destruct (Hsub bn' Hp) as [->|Hp'].
    + exists b. by rewrite (Ef _ b_dev), (Ef _ b_valid), (Ef _ b_blockno) by done.
    + destruct (H8 bn' Hp') as (i & ?). exists i. by rewrite (Ef _ b_dev), (Ef _ b_valid), (Ef _ b_blockno) by done.
Qed.

Lemma crep_write c D V L pinned b bn d :
  crep c D V L pinned -> (b, bn) ∈ L -> crep c (vupd D bn d) V L pinned.
Proof.
  intros [H1 H2 H3 H4 H5 H6 H7 H8] Hin. split; try done.
  intros bn' Hn Hp. rewrite vupd_ne; [by apply H3|]. intros ->. apply Hn, elem_snd. eauto.
Qed.

Lemma crep_unlock c D V L1 L2 pinned b bn x :
  crep c D V (L1 ++ (b, bn) :: L2) pinned -> bn ∈ pinned \/ beq (D bn) (V bn) ->
  x = set_b_refcnt (pins pinned (c b)) (set_b_lock (mk_sleeplock false 0) (c b)) ->
  crep (cupd c b x) D V (L1 ++ L2) pinned.
Proof.
  intros Hc Hclean ->. pose proof Hc as [H1 H2 H3 H4 H5 H6 H7 H8].
  assert (Hin : (b, bn) ∈ L1 ++ (b, bn) :: L2) by (apply elem_of_app; right; apply elem_of_cons; by left).
  destruct (H4 b bn Hin) as (Hb & Hd & Hbn & Hv & Hl).
  set (x := set_b_refcnt (pins pinned (c b)) (set_b_lock (mk_sleeplock false 0) (c b))).
  assert (Ef : forall {A} (f : buf -> A) i, (forall r l y, f (set_b_refcnt r (set_b_lock l y)) = f y) ->
            f (cupd c b x i) = f (c i)).
  { intros A f i E. unfold cupd. destruct (Nat.eqb_spec i b) as [->|]; [unfold x; by rewrite E|done]. }
  rewrite fmap_app, fmap_cons, <- Permutation_middle in H5. cbn in H5.
  apply NoDup_cons in H5 as [Hbn' H5]. rewrite <- fmap_app in Hbn', H5.
  assert (HbL : b ∉ (L1 ++ L2).*1).
  { intros (bn' & Hb')%elem_fst. assert (bn' = bn) as ->.
    { eapply (crep_pair c D V _ pinned b); [exact Hc| |exact Hin]. set_solver. }
    apply Hbn', elem_snd. eauto. }
  assert (HL : forall i, i ∈ (L1 ++ (b, bn) :: L2).*1 <-> i = b \/ i ∈ (L1 ++ L2).*1).
  { intros i. rewrite <- Permutation_middle. cbn. by rewrite elem_of_cons. }
  split.
  - intros i j Hi Hj. rewrite !(Ef _ b_dev), !(Ef _ b_blockno) by done. by apply H1.
  - intros i Hi. rewrite (Ef _ b_dev), (Ef _ b_valid), (Ef _ b_blockno), (Ef _ b_data) by done. by apply H2.
  - intros bn' Hn Hp. destruct (decide (bn' = bn)) as [->|Hne]; [tauto|]. apply H3; [|done].
    rewrite <- Permutation_middle. cbn. set_solver.
  - intros b' bn' Hin'. assert (b' <> b) by (intros ->; apply HbL, elem_fst; eauto).
    rewrite cupd_ne by done. apply H4. set_solver.
  - done.
  - intros i Hi Hn. unfold cupd. destruct (Nat.eqb_spec i b) as [->|Hne]; [done|]. apply H6; [done|]. rewrite HL. tauto.
  - intros i Hi. rewrite (Ef _ (pins pinned)) by done. unfold cupd. destruct (Nat.eqb_spec i b) as [->|Hne].
    + unfold holds. rewrite bool_decide_eq_false_2 by done. done.
    + rewrite H7 by done. unfold holds. erewrite bool_decide_ext; [done|]. rewrite HL. tauto.
  - intros bn' Hp. destruct (H8 bn' Hp) as (i & ?). exists i.
    by rewrite (Ef _ b_dev), (Ef _ b_valid), (Ef _ b_blockno) by done.
Qed.

(** ** The operations *)

Lemma blist_ext bufs bufs' order :
  length bufs' = length bufs -> (forall i, nxt bufs' i = nxt bufs i) -> (forall i, prv bufs' i = prv bufs i) ->
  blist bufs order -> blist bufs' order.
Proof.
  intros Hl Hn Hp [L P N R]. split; [congruence|done| |].
  - eapply chain_ext; [|exact N]. intros x _. apply Hn.
  - eapply chain_ext; [|exact R]. intros x _. apply Hp.
Qed.

(** A change of one buffer that keeps its links. *)
Lemma blist_alter f b bufs order :
  (b < length bufs)%nat ->
  (forall x, b_next (f x) = b_next x) -> (forall x, b_prev (f x) = b_prev x) ->
  blist bufs order -> blist (alter f b bufs) order.
Proof.
  intros Hb Hn Hp. apply blist_ext; [apply length_alter| |].
  - intros i. unfold nxt. rewrite buf_at_alter by done. by destruct (i =? b)%nat.
  - intros i. unfold prv. rewrite buf_at_alter by done. by destruct (i =? b)%nat.
Qed.

Lemma cb_alter f b bufs i :
  (b < length bufs)%nat ->
  cb (alter f b bufs) i = cupd (cb bufs) b (set_b_prev 0 (set_b_next 0 (f (buf_at bufs b)))) i.
Proof.
  intros Hb. unfold cb, cupd. rewrite buf_at_alter by done. by destruct (Nat.eqb_spec i b) as [->|].
Qed.

Lemma brep_len s D V L pinned : brep s D V L pinned -> length (k_bufs s) = S bhead.
Proof. intros Hr. destruct (br_list _ _ _ _ _ Hr) as [order Hb]. apply Hb. Qed.

Definition room (L : list (nat * Z)) (pinned : gset Z) (bn : Z) : Prop :=
  bn ∈ pinned \/ (length L + size pinned < bhead)%nat.

Lemma pins_01 pinned x : 0 <= pins pinned x <= 1.
Proof. unfold pins. case_bool_decide; lia. Qed.

(** With room, some buffer is not referenced. *)
Lemma room_unused c D V L pinned :
  crep c D V L pinned -> (length L + size pinned < bhead)%nat ->
  ~ (forall b, (b < bhead)%nat -> b_refcnt (c b) <> 0).
Proof.
  intros Hc Hlt Hall.
  set (key := fun i : nat => if bool_decide (i ∈ L.*1) then inl i else inr (b_blockno (c i)) : nat + Z).
  assert (Hsub : (key <$> seq 0 bhead) ⊆+ (inl <$> L.*1) ++ (inr <$> elements pinned)).
  { apply NoDup_submseteq.
    - apply NoDup_fmap_2_strong; [|apply NoDup_seq]. intros i j Hi%elem_of_seq Hj%elem_of_seq. unfold key.
      do 2 case_bool_decide; try discriminate; intros E; injection E as E; try exact E.
      assert (Hp : forall k, (k < bhead)%nat -> k ∉ L.*1 -> b_dev (c k) = dev).
      { intros k Hk Hn. specialize (Hall k Hk). rewrite (cr_ref _ _ _ _ _ Hc k Hk) in Hall.
        unfold holds, pins in Hall. repeat case_bool_decide; naive_solver. }
      apply (cr_uniq _ _ _ _ _ Hc); [lia|lia|apply Hp; (lia || done)|apply Hp; (lia || done)|exact E].
    - intros k (i & -> & Hi%elem_of_seq)%list_elem_of_fmap. unfold key. apply elem_of_app.
      specialize (Hall i ltac:(lia)). rewrite (cr_ref _ _ _ _ _ Hc i ltac:(lia)) in Hall.
      unfold holds, pins in Hall. repeat case_bool_decide; try lia.
      + left. by apply list_elem_of_fmap_2.
      + left. by apply list_elem_of_fmap_2.
      + right. apply list_elem_of_fmap_2, elem_of_elements. tauto. }
  apply submseteq_length in Hsub. rewrite length_app, !length_fmap, length_seq in Hsub.
  change (length (elements pinned)) with (size pinned) in Hsub. lia.
Qed.

(** The lock [LkBcache] around an update of the buffers. *)
Lemma bcache_section {A} s (k : K A) f :
  k_held s = [] ->
  (modify (fun s => set_k_bufs (f (k_bufs s)) s) ;;; release LkBcache ;;; k) (set_k_held [LkBcache] s) =
  k (set_k_bufs (f (k_bufs s)) s).
Proof.
  intros Hh. rewrite bind_modify.
  erewrite (bind_Ok (release _)) by (apply (release_Ok _ _ []); [reflexivity|apply not_elem_of_nil]).
  f_equal. destruct s. cbn in Hh |- *. by rewrite Hh.
Qed.

Definition recycle (dev bn : Z) (x : buf) : buf :=
  set_b_refcnt 1 (set_b_valid false (set_b_blockno bn (set_b_dev dev x))).

(** bget up to the sleep-lock. *)
Lemma bget_search s bn D V L pinned :
  brep s D V L pinned -> bn ∉ L.*2 -> room L pinned bn ->
  exists b f, (b < bhead)%nat /\
    bget dev bn s = (acquiresleep (buf_lock b) ;;; ret b) (set_k_bufs (alter f b (k_bufs s)) s) /\
    b ∉ L.*1 /\
    (f = (fun x => set_b_refcnt (u32 (b_refcnt x + 1)) x) /\
       b_dev (cb (k_bufs s) b) = dev /\ b_blockno (cb (k_bufs s) b) = bn \/
     f = recycle dev bn /\ b_refcnt (cb (k_bufs s) b) = 0 /\ bn ∉ pinned /\
       forall j, (j < bhead)%nat -> ~ (b_dev (cb (k_bufs s) j) = dev /\ b_blockno (cb (k_bufs s) j) = bn)).
Proof.
  intros Hr HbnL Hroom. destruct (br_list _ _ _ _ _ Hr) as [order Hbl].
  pose proof (br_cache _ _ _ _ _ Hr) as Hc. pose proof (ru_held _ _ (br_run _ _ _ _ _ Hr)) as Hh.
  unfold bget. erewrite (bind_Ok (acquire _)) by (apply acquire_Ok; rewrite Hh; apply not_elem_of_nil).
  rewrite Hh, !bind_gets. cbn [k_bufs set_k_held].
  change (get_buf bhead (set_k_held [LkBcache] s)) with (buf_at (k_bufs s) bhead).
  fold (nxt (k_bufs s) bhead). fold (prv (k_bufs s) bhead).
  pose proof (find_cached_spec (k_bufs s) order dev bn Hbl) as Hfc.
  destruct (find_cached _ _ _ _ _) as [b|].
  - destruct Hfc as (Hb & Hd & Hbn). exists b, (fun x => set_b_refcnt (u32 (b_refcnt x + 1)) x).
    split; [done|]. split.
    + by apply (bcache_section s _ (alter (fun x => set_b_refcnt (u32 (b_refcnt x + 1)) x) b)).
    + split; [|left; done]. intros (bn' & Hin)%elem_fst.
      destruct (cr_locked _ _ _ _ _ Hc b bn' Hin) as (_ & _ & E & _). cbn in E.
      apply HbnL, elem_snd. exists b. by rewrite <- Hbn, E.
  - pose proof (find_unused_spec (k_bufs s) order Hbl) as Hfu.
    assert (Hnp : bn ∉ pinned).
    { intros Hp. destruct (cr_pin _ _ _ _ _ Hc bn Hp) as (i & Hi & Hd & Hbn & _). by apply (Hfc i Hi). }
    destruct (find_unused _ _ _) as [b|].
    + destruct Hfu as (Hb & H0 & _). exists b, (recycle dev bn). split; [done|]. split.
      * rewrite !bind_modify. erewrite (bind_Ok (release _)) by (apply (release_Ok _ _ []); [reflexivity|apply not_elem_of_nil]).
        f_equal. unfold upd_buf. cbn [k_bufs set_k_bufs set_k_held]. rewrite !alter_compose_list.
        destruct s. cbn in Hh |- *. by rewrite Hh.
      * destruct (crep_unused _ _ _ _ _ b Hc Hb H0) as [? _]. split; [done|]. right. done.
    + exfalso. destruct Hroom as [?|Hroom]; [done|]. by apply (room_unused _ _ _ _ _ Hc Hroom).
Qed.

Lemma bread_finish s D V L pinned b bn g :
  brep s D V L pinned -> (b < bhead)%nat -> b ∉ L.*1 -> bn ∉ L.*2 ->
  (forall j, (j < bhead)%nat -> j <> b -> b_dev (cb (k_bufs s) j) = dev -> b_blockno (cb (k_bufs s) j) <> bn) ->
  (b_dev (cb (k_bufs s) b) = dev -> b_blockno (cb (k_bufs s) b) ∈ pinned -> b_blockno (cb (k_bufs s) b) = bn) ->
  (forall x, b_next (g x) = b_next x) -> (forall x, b_prev (g x) = b_prev x) ->
  let x := g (buf_at (k_bufs s) b) in
  b_dev x = dev -> b_blockno x = bn -> b_valid x = true -> b_lock x = mk_sleeplock true pid ->
  b_refcnt x = 1 + pins pinned x -> beq (b_data x) (V bn) ->
  brep (set_k_bufs (alter g b (k_bufs s)) s) D V ((b, bn) :: L) pinned /\
  beq (b_data (get_buf b (set_k_bufs (alter g b (k_bufs s)) s))) (V bn).
Proof.
  intros Hr Hb HbL HbnL Hoth Hkeep Hn Hp x Xd Xb Xv Xl Xr Xdata.
  pose proof (brep_len _ _ _ _ _ Hr) as Hlen.
  assert (Eb : get_buf b (set_k_bufs (alter g b (k_bufs s)) s) = x).
  { unfold get_buf. cbn. fold (buf_at (alter g b (k_bufs s)) b). rewrite buf_at_alter by lia.
    by rewrite Nat.eqb_refl. }
  split; [|by rewrite Eb]. split.
  - eapply running_bio; [apply bio_only_bufs|apply Hr].
  - destruct (br_list _ _ _ _ _ Hr) as [order Hbl]. exists order. apply blist_alter; (lia || done).
  - exact (br_disk _ _ _ _ _ Hr).
  - eapply crep_ext; [intros i Hi; apply cb_alter; lia|].
    apply crep_lock; try done. apply Hr.
Qed.

(** The buffer that [bget] chose. *)
Lemma bget_facts c D V L pinned b bn f :
  crep c D V L pinned -> (b < bhead)%nat -> b ∉ L.*1 ->
  (f = (fun x => set_b_refcnt (u32 (b_refcnt x + 1)) x) /\ b_dev (c b) = dev /\ b_blockno (c b) = bn \/
   f = recycle dev bn /\ b_refcnt (c b) = 0 /\ bn ∉ pinned /\
     forall j, (j < bhead)%nat -> ~ (b_dev (c j) = dev /\ b_blockno (c j) = bn)) ->
  (forall j, (j < bhead)%nat -> j <> b -> b_dev (c j) = dev -> b_blockno (c j) <> bn) /\
  (b_dev (c b) = dev -> b_blockno (c b) ∈ pinned -> b_blockno (c b) = bn) /\
  b_dev (f (c b)) = dev /\ b_blockno (f (c b)) = bn /\ b_lock (f (c b)) = b_lock (c b) /\
  b_refcnt (f (c b)) = 1 + pins pinned (f (c b)) /\
  (if b_valid (f (c b)) then beq (b_data (f (c b))) (V bn) else bn ∉ pinned).
Proof.
  intros Hc Hb HbL Hf. pose proof (cr_ref _ _ _ _ _ Hc b Hb) as Href. unfold holds in Href.
  rewrite bool_decide_eq_false_2 in Href by done. pose proof (pins_01 pinned (c b)) as H01.
  destruct Hf as [(-> & Hd & Hbn)|(-> & H0 & Hnp & Hno)].
  - split_and!; try done.
    + intros j Hj Hne Hdj E. apply Hne, (cr_uniq _ _ _ _ _ Hc j b Hj Hb); congruence.
    + cbn. change (pins pinned (set_b_refcnt _ (c b))) with (pins pinned (c b)). rewrite u32_small; lia.
    + cbn. destruct (b_valid (c b)) eqn:Ev; [rewrite <- Hbn; by apply (cr_data _ _ _ _ _ Hc)|].
      intros Hp. destruct (cr_pin _ _ _ _ _ Hc bn Hp) as (i & Hi & Hdi & Hbni & Hvi).
      assert (i = b) as -> by (apply (cr_uniq _ _ _ _ _ Hc); congruence). congruence.
  - destruct (crep_unused _ _ _ _ _ b Hc Hb H0) as [_ Hnp'].
    split_and!; try done; [|tauto|].
    + intros j Hj _ Hdj E. by apply (Hno j Hj).
    + unfold pins, recycle. cbn. rewrite bool_decide_eq_false_2 by tauto. done.
Qed.

(** bget returns a locked buffer of the block. *)
Lemma bget_spec s bn D V L pinned :
  brep s D V L pinned -> bn ∉ L.*2 -> room L pinned bn ->
  exists b f, bget dev bn s = Ok b (set_k_bufs (alter f b (k_bufs s)) s) /\ (b < bhead)%nat /\ b ∉ L.*1 /\
    (forall j, (j < bhead)%nat -> j <> b -> b_dev (cb (k_bufs s) j) = dev -> b_blockno (cb (k_bufs s) j) <> bn) /\
    (b_dev (cb (k_bufs s) b) = dev -> b_blockno (cb (k_bufs s) b) ∈ pinned -> b_blockno (cb (k_bufs s) b) = bn) /\
    (forall x, b_next (f x) = b_next x) /\ (forall x, b_prev (f x) = b_prev x) /\
    let x := f (buf_at (k_bufs s) b) in
    b_dev x = dev /\ b_blockno x = bn /\ b_lock x = mk_sleeplock true pid /\
    b_refcnt x = 1 + pins pinned x /\ (if b_valid x then beq (b_data x) (V bn) else bn ∉ pinned).
Proof.
  intros Hr HbnL Hroom. pose proof (br_cache _ _ _ _ _ Hr) as Hc. pose proof (brep_len _ _ _ _ _ Hr) as Hlen.
  destruct (bget_search s bn D V L pinned Hr HbnL Hroom) as (b & f & Hb & Eget & HbL & Hf).
  destruct (bget_facts (cb (k_bufs s)) D V L pinned b bn f Hc Hb HbL Hf) as (Hoth & Hkeep & Fd & Fb & Fl & Fr & Fv).
  assert (Hlt : (b < length (k_bufs s))%nat) by lia.
  exists b, (set_b_lock (mk_sleeplock true pid) ∘ f). split.
  { rewrite Eget. erewrite (bind_Ok (acquiresleep _)).
    2: { apply (acquiresleep_buf _ pid).
         - eapply running_bio; [apply bio_only_bufs|apply Hr].
         - unfold get_buf. cbn. fold (buf_at (alter f b (k_bufs s)) b). rewrite buf_at_alter, Nat.eqb_refl by done.
           replace (b_lock (f (buf_at (k_bufs s) b))) with (b_lock (buf_at (k_bufs s) b))
             by (destruct Hf as [(-> & _)|(-> & _)]; done).
           exact (cr_free _ _ _ _ _ Hc b Hb HbL). }
    unfold ret, upd_buf. cbn [k_bufs set_k_bufs]. by rewrite alter_compose_list. }
  destruct Hf as [(-> & _)|(-> & _)]; split_and!; try done.
Qed.

(** bread returns a locked buffer with the block's contents. *)
Lemma bread_spec s bn D V L pinned :
  brep s D V L pinned -> bn ∉ L.*2 -> room L pinned bn ->
  exists b s', bread dev bn s = Ok b s' /\ bio_only s s' /\ k_disk s' = k_disk s /\
    brep s' D V ((b, bn) :: L) pinned /\ beq (b_data (get_buf b s')) (V bn).
Proof.
  intros Hr HbnL Hroom. pose proof (brep_len _ _ _ _ _ Hr) as Hlen.
  destruct (bget_spec s bn D V L pinned Hr HbnL Hroom)
    as (b & f & Eget & Hb & HbL & Hoth & Hkeep & Hn & Hp & Fd & Fb & Fl & Fr & Fv).
  assert (Hlt : (b < length (k_bufs s))%nat) by lia.
  unfold bread. rewrite (bind_Ok _ _ _ _ _ Eget), bind_gets.
  assert (Ex : get_buf b (set_k_bufs (alter f b (k_bufs s)) s) = f (buf_at (k_bufs s) b)).
  { unfold get_buf. cbn. fold (buf_at (alter f b (k_bufs s)) b). by rewrite buf_at_alter, Nat.eqb_refl by done. }
  rewrite Ex. destruct (b_valid (f (buf_at (k_bufs s) b))) eqn:Ev; cbn [negb when].
  - rewrite bind_ret. eexists b, _. split; [reflexivity|]. split; [apply bio_only_bufs|]. split; [done|].
    by apply (bread_finish s D V L pinned b bn f).
  - unfold virtio_disk_rw. rewrite bind_assoc, bind_assoc, bind_gets, Ex, Fb, !bind_modify.
    unfold upd_buf. cbn [k_bufs set_k_bufs]. rewrite !alter_compose_list.
    set (g := _ ∘ _). eexists b, (set_k_bufs (alter g b (k_bufs s)) s).
    split; [reflexivity|]. split; [apply bio_only_bufs|]. split; [done|].
    apply (bread_finish s D V L pinned b bn g); try done.
    cbn. change (disk_block bn (set_k_bufs _ s)) with (disk_block bn s).
    rewrite (br_disk _ _ _ _ _ Hr bn). by apply (cr_clean _ _ _ _ _ (br_cache _ _ _ _ _ Hr)).
Qed.

Lemma get_buf_cb s b : b_data (get_buf b s) = b_data (cb (k_bufs s) b) /\
  b_blockno (get_buf b s) = b_blockno (cb (k_bufs s) b) /\ b_lock (get_buf b s) = b_lock (cb (k_bufs s) b) /\
  b_refcnt (get_buf b s) = b_refcnt (cb (k_bufs s) b).
Proof. done. Qed.

(** A locked buffer: its number, block and contents. *)
Lemma locked_buf s D V L pinned b bn :
  brep s D V L pinned -> (b, bn) ∈ L ->
  (b < length (k_bufs s))%nat /\ b_blockno (get_buf b s) = bn /\ beq (b_data (get_buf b s)) (V bn) /\
  holdingsleep (buf_lock b) s = Ok true s.
Proof.
  intros Hr Hin. pose proof (br_cache _ _ _ _ _ Hr) as Hc. pose proof (brep_len _ _ _ _ _ Hr) as Hlen.
  destruct (cr_locked _ _ _ _ _ Hc b bn Hin) as (Hb & Hd & Hbn & Hv & Hl). split; [lia|]. split; [done|]. split.
  - rewrite <- Hbn. by apply (cr_data _ _ _ _ _ Hc).
  - rewrite (holdingsleep_buf s pid b (br_run _ _ _ _ _ Hr)).
    change (b_lock (get_buf b s)) with (b_lock (cb (k_bufs s) b)). rewrite Hl. cbn. by rewrite Z.eqb_refl.
Qed.

(** A change of one buffer's contents, count or lock, not of its links. *)
Lemma brep_alter s D V L pinned b g D' V' L' pinned' :
  brep s D V L pinned -> (b < bhead)%nat ->
  (forall x, b_next (g x) = b_next x) -> (forall x, b_prev (g x) = b_prev x) ->
  (forall bn, beq (D bn) (D' bn)) ->
  crep (cupd (cb (k_bufs s)) b (set_b_prev 0 (set_b_next 0 (g (buf_at (k_bufs s) b))))) D' V' L' pinned' ->
  brep (set_k_bufs (alter g b (k_bufs s)) s) D' V' L' pinned'.
Proof.
  intros Hr Hb Hn Hp HD Hc. pose proof (brep_len _ _ _ _ _ Hr) as Hlen. split.
  - eapply running_bio; [apply bio_only_bufs|apply Hr].
  - destruct (br_list _ _ _ _ _ Hr) as [order Hbl]. exists order. apply blist_alter; (lia || done).
  - intros bn. rewrite <- HD. exact (br_disk _ _ _ _ _ Hr bn).
  - eapply crep_ext; [intros i Hi; apply cb_alter; lia|]. exact Hc.
Qed.

(** Writing the data of a locked buffer. *)
Lemma store_data_spec s D V L pinned b bn d :
  brep s D V L pinned -> (b, bn) ∈ L ->
  brep (upd_buf b (set_b_data d) s) D (vupd V bn d) L pinned.
Proof.
  intros Hr Hin. pose proof (br_cache _ _ _ _ _ Hr) as Hc.
  destruct (cr_locked _ _ _ _ _ Hc b bn Hin) as (Hb & _).
  eapply brep_alter; [exact Hr|done..|]. by apply (crep_data _ _ _ _ _ b bn d Hc).
Qed.

Lemma bwrite_spec s D V L pinned b bn :
  brep s D V L pinned -> (b, bn) ∈ L ->
  exists s', bwrite b s = Ok tt s' /\ bio_only s s' /\ k_bufs s' = k_bufs s /\
    d_writes (k_disk s') = d_writes (k_disk s) ++ [(bn, b_data (get_buf b s))] /\
    d_blocks (k_disk s') = <[bn := b_data (get_buf b s)]> (d_blocks (k_disk s)) /\
    brep s' (vupd D bn (V bn)) V L pinned.
Proof.
  intros Hr Hin. destruct (locked_buf _ _ _ _ _ _ _ Hr Hin) as (Hb & Ebn & Hdata & Eh).
  unfold bwrite. rewrite (bind_Ok _ _ _ _ _ Eh). cbn [negb]. unfold virtio_disk_rw.
  rewrite bind_gets, Ebn. eexists. split; [reflexivity|]. split; [apply bio_only_disk|].
  split; [done|]. split; [done|]. split; [done|]. split.
  - eapply running_bio; [apply bio_only_disk|apply Hr].
  - exact (br_list _ _ _ _ _ Hr).
  - intros bn'. unfold disk_block, vupd. cbn. destruct (Z.eqb_spec bn' bn) as [->|Hne].
    + by rewrite lookup_insert_eq.
    + rewrite lookup_insert_ne by done. apply Hr.
  - eapply crep_write; [apply Hr|exact Hin].
Qed.

(** bpin and bunpin, called with or without other locks held. *)
Lemma bufref_section s f :
  LkBcache ∉ k_held s ->
  (acquire LkBcache ;;; modify (fun s => set_k_bufs (f (k_bufs s)) s) ;;; release LkBcache) s =
  Ok tt (set_k_bufs (f (k_bufs s)) s).
Proof.
  intros Hh. erewrite (bind_Ok (acquire _)) by (by apply acquire_Ok). rewrite bind_modify.
  erewrite release_Ok; [|reflexivity|done]. by destruct s.
Qed.

Lemma locked_ref s D V L pinned b bn :
  brep s D V L pinned -> (b, bn) ∈ L ->
  b_refcnt (get_buf b s) = 1 + (if bool_decide (bn ∈ pinned) then 1 else 0).
Proof.
  intros Hr Hin. pose proof (br_cache _ _ _ _ _ Hr) as Hc.
  destruct (cr_locked _ _ _ _ _ Hc b bn Hin) as (Hb & Hd & Hbn & _).
  destruct (get_buf_cb s b) as (_ & _ & _ & ->). rewrite (cr_ref _ _ _ _ _ Hc b Hb). unfold holds, pins.
  rewrite bool_decide_eq_true_2 by (apply elem_fst; eauto). f_equal. erewrite bool_decide_ext; [done|].
  rewrite Hd, Hbn. tauto.
Qed.

Lemma bpin_spec s D V L pinned b bn h :
  brep s D V L pinned -> (b, bn) ∈ L -> bn ∉ pinned -> LkBcache ∉ h ->
  exists s', bpin b (set_k_held h s) = Ok tt (set_k_held h s') /\ bio_only s s' /\ k_disk s' = k_disk s /\
    brep s' D V L ({[bn]} ∪ pinned).
Proof.
  intros Hr Hin Hnp Hh. pose proof (br_cache _ _ _ _ _ Hr) as Hc.
  destruct (cr_locked _ _ _ _ _ Hc b bn Hin) as (Hb & _).
  set (g := fun x => set_b_refcnt (u32 (b_refcnt x + 1)) x).
  exists (set_k_bufs (alter g b (k_bufs s)) s). split; [|split; [apply bio_only_bufs|split; [done|]]].
  - exact (bufref_section (set_k_held h s) (alter g b) Hh).
  - eapply brep_alter; [exact Hr|done..|].
    assert (E : set_b_prev 0 (set_b_next 0 (g (buf_at (k_bufs s) b))) = set_b_refcnt (1 + 1) (cb (k_bufs s) b)).
    { unfold g. change (b_refcnt (buf_at (k_bufs s) b)) with (b_refcnt (get_buf b s)).
      rewrite (locked_ref _ _ _ _ _ _ _ Hr Hin), bool_decide_eq_false_2 by done. done. }
    rewrite E. apply (crep_repin _ _ _ _ pinned _ b bn); [done|done|apply pins_insert|set_solver|set_solver].
Qed.

Lemma bunpin_spec s D V L pinned b bn :
  brep s D V L pinned -> (b, bn) ∈ L -> bn ∈ pinned ->
  exists s', bunpin b s = Ok tt s' /\ bio_only s s' /\ k_disk s' = k_disk s /\
    brep s' D V L (pinned ∖ {[bn]}).
Proof.
  intros Hr Hin Hp. pose proof (br_cache _ _ _ _ _ Hr) as Hc.
  destruct (cr_locked _ _ _ _ _ Hc b bn Hin) as (Hb & _).
  set (g := fun x => set_b_refcnt (u32 (b_refcnt x - 1)) x).
  exists (set_k_bufs (alter g b (k_bufs s)) s). split; [|split; [apply bio_only_bufs|split; [done|]]].
  - apply (bufref_section s (alter g b)). rewrite (ru_held _ _ (br_run _ _ _ _ _ Hr)). apply not_elem_of_nil.
  - eapply brep_alter; [exact Hr|done..|].
    assert (E : set_b_prev 0 (set_b_next 0 (g (buf_at (k_bufs s) b))) = set_b_refcnt (1 + 0) (cb (k_bufs s) b)).
    { unfold g. change (b_refcnt (buf_at (k_bufs s) b)) with (b_refcnt (get_buf b s)).
      rewrite (locked_ref _ _ _ _ _ _ _ Hr Hin), bool_decide_eq_true_2 by done. done. }
    rewrite E. apply (crep_repin _ _ _ _ pinned _ b bn); [done|done|apply pins_delete|set_solver|].
    intros bn' Hbn'. destruct (decide (bn' = bn)); [by left|right; set_solver].
Qed.

Definition unref (x : buf) : buf := set_b_refcnt (u32 (b_refcnt x - 1)) x.

(** The part of brelse under the lock of the cache. *)
Lemma brelse_section s b :
  LkBcache ∉ k_held s ->
  (acquire LkBcache ;;;
   modify (upd_buf b unref) ;;;
   x <- gets (get_buf b) ;;
   when (b_refcnt x =? 0)
     (modify (upd_buf (b_next x) (set_b_prev (b_prev x))) ;;;
      x <- gets (get_buf b) ;;
      modify (upd_buf (b_prev x) (set_b_next (b_next x))) ;;;
      link_front b) ;;;
   release LkBcache) s =
  let bufs := alter unref b (k_bufs s) in
  Ok tt (set_k_bufs (if b_refcnt (buf_at bufs b) =? 0 then linked b (unlinked b bufs) else bufs) s).
Proof.
  intros Hh. cbv zeta. erewrite (bind_Ok (acquire _)) by (by apply acquire_Ok).
  rewrite bind_modify, bind_gets. unfold upd_buf at 2. cbn [k_bufs set_k_bufs set_k_held].
  match goal with |- context [b_refcnt ?x =? 0] =>
    change x with (buf_at (alter unref b (k_bufs s)) b) end.
  destruct (b_refcnt (buf_at (alter unref b (k_bufs s)) b) =? 0) eqn:E.
  all: erewrite bind_Ok by reflexivity; erewrite release_Ok; [|reflexivity|done]; by destruct s.
Qed.

(** Buffers moved within the list. *)
Lemma brep_relinked s s' bufs D V L pinned order' :
  brep (set_k_bufs bufs s) D V L pinned -> relinked bufs (k_bufs s') -> blist (k_bufs s') order' ->
  bio_only s s' -> k_disk s' = k_disk s -> brep s' D V L pinned.
Proof.
  intros Hr HR Hbl Hbo Hd. split.
  - eapply running_bio; [exact Hbo|]. pose proof (br_run _ _ _ _ _ Hr) as [? ? ?]. by split.
  - by exists order'.
  - intros bn. rewrite <- (br_disk _ _ _ _ _ Hr bn). unfold disk_block. by rewrite Hd.
  - eapply crep_ext; [|apply (br_cache _ _ _ _ _ Hr)]. intros i _. by apply cb_relinked.
Qed.

Lemma relinked_refl bufs : relinked bufs bufs.
Proof. split; [done|]. intros i. exists (b_next (buf_at bufs i)), (b_prev (buf_at bufs i)). by destruct (buf_at bufs i). Qed.

Lemma brelse_spec s D V L1 L2 pinned b bn :
  brep s D V (L1 ++ (b, bn) :: L2) pinned -> bn ∈ pinned \/ beq (D bn) (V bn) ->
  exists s', brelse b s = Ok tt s' /\ bio_only s s' /\ k_disk s' = k_disk s /\ brep s' D V (L1 ++ L2) pinned.
Proof.
  intros Hr Hclean. assert (Hin : (b, bn) ∈ L1 ++ (b, bn) :: L2) by set_solver.
  pose proof (br_cache _ _ _ _ _ Hr) as Hc. destruct (cr_locked _ _ _ _ _ Hc b bn Hin) as (Hb & Hd & Hbn & _).
  destruct (locked_buf _ _ _ _ _ _ _ Hr Hin) as (Hlt & _ & _ & Eh).
  unfold brelse. rewrite (bind_Ok _ _ _ _ _ Eh). cbn [negb].
  destruct (releasesleep_buf s pid b (br_run _ _ _ _ _ Hr)) as (s1 & E1 & Hbo & Ebufs & Edisk).
  rewrite (bind_Ok _ _ _ _ _ E1). destruct (bio_only_fields _ _ Hbo) as (Eheld & _).
  change (modify (upd_buf b (fun x => set_b_refcnt (u32 (b_refcnt x - 1)) x))) with (modify (upd_buf b unref) : K unit).
  rewrite brelse_section by (rewrite Eheld, (ru_held _ _ (br_run _ _ _ _ _ Hr)); apply not_elem_of_nil).
  rewrite Ebufs, alter_compose_list. cbv zeta. set (g := unref ∘ set_b_lock (mk_sleeplock false 0)).
  assert (Hb1 : brep (set_k_bufs (alter g b (k_bufs s)) s) D V (L1 ++ L2) pinned).
  { eapply brep_alter; [exact Hr|done..|]. eapply crep_unlock; [exact Hc|exact Hclean|].
    unfold g, unref. cbn. change (b_refcnt (buf_at (k_bufs s) b)) with (b_refcnt (get_buf b s)).
    rewrite (locked_ref _ _ _ _ _ _ _ Hr Hin). unfold pins. change (b_dev (cb (k_bufs s) b)) with (b_dev (buf_at (k_bufs s) b)) in *.
    change (b_blockno (cb (k_bufs s) b)) with (b_blockno (buf_at (k_bufs s) b)) in *.
    rewrite (bool_decide_ext (b_dev _ = dev /\ _) (bn ∈ pinned)) by (rewrite Hd, Hbn; tauto).
    by case_bool_decide. }
  assert (Hbl : exists order bufs', bufs' = (if b_refcnt (buf_at (alter g b (k_bufs s)) b) =? 0
      then linked b (unlinked b (alter g b (k_bufs s))) else alter g b (k_bufs s)) /\
    blist bufs' order /\ relinked (alter g b (k_bufs s)) bufs').
  { destruct (br_list _ _ _ _ _ Hb1) as [order Ho]. cbn in Ho. destruct (_ =? 0).
    - assert (b ∈ order) as (l1 & l2 & ->)%list_elem_of_split by by apply (blist_in _ _ _ Ho).
      exists (b :: l1 ++ l2). eexists. split; [done|]. by apply move_front.
    - exists order. eexists. split; [done|]. split; [done|apply relinked_refl]. }
  destruct Hbl as (order & bufs' & <- & Hbl & HR).
  eexists. split; [reflexivity|]. split; [eapply bio_only_trans; [exact Hbo|apply bio_only_bufs]|]. split; [done|].
  eapply brep_relinked; [exact Hb1|exact HR|exact Hbl| |done].
  eapply bio_only_trans; [exact Hbo|apply bio_only_bufs].
Qed.

End Cache.
