(* ===== verification/BlockLayer.v ===== *)
(** The block layer: what the buffer cache promises to the log and the file
    system, as a class, and the cache of [Bio] as its instance.

    [rep s D V L P] says that in state [s] the disk holds the blocks [D], a
    process that reads block [bn] gets [V bn], the running process has the
    buffers and blocks [L] locked, and the blocks [P] are pinned in memory. *)
From S2P Require Import Prelude State Kstring Locks Sched Sleeplock Bio BioList BioSpec.

Abbreviation blocks := (Z -> bytes).
Abbreviation bstate_rel := (kstate -> blocks -> blocks -> list (nat * Z) -> gset Z -> Prop).

(** The writes made to the disk between two states. *)
Definition wrote (s s' : kstate) (W : list (Z * bytes)) : Prop :=
  d_writes (k_disk s') = d_writes (k_disk s) ++ W.

Class BlockLayer (dev pid : Z) (rep : bstate_rel) : Prop := {
  bl_running s D V L P : rep s D V L P -> running s pid;
  bl_frame s s' D V L P :
    rep s D V L P -> k_bufs s' = k_bufs s -> k_disk s' = k_disk s -> running s' pid -> rep s' D V L P;
  bl_ext s D V D' V' L P :
    rep s D V L P -> (forall bn, beq (D bn) (D' bn)) -> (forall bn, beq (V bn) (V' bn)) -> rep s D' V' L P;
  bl_disk s D V L P bn : rep s D V L P -> beq (disk_block bn s) (D bn);
  bl_clean s D V L P bn : rep s D V L P -> bn ∉ L.*2 -> bn ∉ P -> beq (D bn) (V bn);
  bl_locked s D V L P b bn :
    rep s D V L P -> (b, bn) ∈ L ->
    b_blockno (get_buf b s) = bn /\ beq (b_data (get_buf b s)) (V bn) /\ (b < length (k_bufs s))%nat;
  bl_bread s D V L P bn :
    rep s D V L P -> bn ∉ L.*2 -> room L P bn ->
    exists b s', bread dev bn s = Ok b s' /\ bio_only s s' /\ k_disk s' = k_disk s /\
      rep s' D V ((b, bn) :: L) P;
  bl_store s D V L P b bn d :
    rep s D V L P -> (b, bn) ∈ L -> rep (upd_buf b (set_b_data d) s) D (vupd V bn d) L P;
  bl_bwrite s D V L P b bn :
    rep s D V L P -> (b, bn) ∈ L ->
    exists s' d, bwrite b s = Ok tt s' /\ bio_only s s' /\ wrote s s' [(bn, d)] /\ beq d (V bn) /\
      rep s' (vupd D bn (V bn)) V L P;
  bl_brelse s D V L1 L2 P b bn :
    rep s D V (L1 ++ (b, bn) :: L2) P -> bn ∈ P \/ beq (D bn) (V bn) ->
    exists s', brelse b s = Ok tt s' /\ bio_only s s' /\ k_disk s' = k_disk s /\ rep s' D V (L1 ++ L2) P;
  bl_bpin s D V L P b bn h :
    rep s D V L P -> (b, bn) ∈ L -> bn ∉ P -> LkBcache ∉ h ->
    exists s', bpin b (set_k_held h s) = Ok tt (set_k_held h s') /\ bio_only s s' /\ k_disk s' = k_disk s /\
      rep s' D V L ({[bn]} ∪ P);
  bl_bunpin s D V L P b bn :
    rep s D V L P -> (b, bn) ∈ L -> bn ∈ P ->
    exists s', bunpin b s = Ok tt s' /\ bio_only s s' /\ k_disk s' = k_disk s /\ rep s' D V L (P ∖ {[bn]})
}.

Lemma crep_beq dev pid c D V D' V' L P :
  crep dev pid c D V L P -> (forall bn, beq (D bn) (D' bn)) -> (forall bn, beq (V bn) (V' bn)) ->
  crep dev pid c D' V' L P.
Proof.
  intros [H1 H2 H3 H4 H5 H6 H7 H8] HD HV. split; try done.
  - intros i Hi Hd Hv. rewrite <- HV. by apply H2.
  - intros bn Hn Hp. rewrite <- HD, <- HV. by apply H3.
Qed.

#[export] Instance bio_block_layer dev pid : BlockLayer dev pid (brep dev pid).
Proof.
  split.
  - intros s D V L P Hr. apply (br_run _ _ _ _ _ _ _ Hr).
  - intros s s' D V L P [Hr Hl Hd Hc] Eb Ed Hrun. split; [done|by rewrite Eb| |by rewrite Eb].
    intros bn. rewrite <- Hd. unfold disk_block. by rewrite Ed.
  - intros s D V D' V' L P [Hr Hl Hd Hc] HD HV. split; [done|done| |by eapply crep_beq].
    intros bn. by rewrite <- HD.
  - intros s D V L P bn Hr. apply (br_disk _ _ _ _ _ _ _ Hr).
  - intros s D V L P bn Hr. apply (cr_clean _ _ _ _ _ _ _ (br_cache _ _ _ _ _ _ _ Hr)).
  - intros s D V L P b bn Hr Hin. destruct (locked_buf _ _ _ _ _ _ _ _ _ Hr Hin) as (? & ? & ? & _). done.
  - intros s D V L P bn Hr Hn Hroom. destruct (bread_spec _ _ _ _ _ _ _ _ Hr Hn Hroom) as (b & s' & ? & ? & ? & ? & _). eauto 10.
  - intros s D V L P b bn d. apply store_data_spec.
  - intros s D V L P b bn Hr Hin. pose proof (locked_buf _ _ _ _ _ _ _ _ _ Hr Hin) as (_ & _ & Hd & _).
    destruct (bwrite_spec _ _ _ _ _ _ _ _ _ Hr Hin) as (s' & ? & ? & _ & Hw & _ & ?). exists s'. eexists.
    split_and!; [done|done|exact Hw|done|done].
  - intros s D V L1 L2 P b bn. apply brelse_spec.
  - intros s D V L P b bn h. apply bpin_spec.
  - intros s D V L P b bn. apply bunpin_spec.
Qed.
