(* ===== verification/Log.v ===== *)
(** The write-ahead log (kernel/log.c).  [lh_block] is the array
    [log.lh.block] of LOGSIZE entries; the on-disk header is read and written
    in the bytes of its buffer: the count at offset 0, entry [i] at [4 + 4*i]. *)
From S2P Require Import Prelude State Kstring Locks Sched Sleeplock Bio.

Definition upd_log (f : log -> log) (s : kstate) : kstate := set_k_log (f (k_log s)) s.
Definition lh_at (i : Z) (s : kstate) : Z := default 0 (lh_block (k_log s) !! Z.to_nat i).

(** log.lh.block[i] = v; *)
Definition set_lh_at (i v : Z) : K unit :=
  if (0 <=? i) && (i <? LOGSIZE)
  then modify (upd_log (fun l => set_lh_block (<[Z.to_nat i := v]> (lh_block l)) l))
  else ub.

(** memmove(dst->data, src->data, BSIZE); *)
Definition buf_copy (dst src : nat) : K unit :=
  d <- gets (fun s => b_data (get_buf src s)) ;;
  modify (upd_buf dst (fun x => set_b_data (copy_into (Z.to_nat BSIZE) d 0 (b_data x) 0) x)).

(** The body of the loop of install_trans. *)
Definition install_block (recovering : bool) (tail : Z) : K (option unit) :=
  l <- gets k_log ;;
  lbuf <- bread (u32 (l_dev l)) (u32 (l_start l + tail + 1)) ;;
  blk <- gets (lh_at tail) ;;
  dbuf <- bread (u32 (l_dev l)) (u32 blk) ;;
  buf_copy dbuf lbuf ;;;
  bwrite dbuf ;;;
  when (negb recovering) (bunpin dbuf) ;;;
  brelse lbuf ;;;
  brelse dbuf ;;;
  ret None.

Definition install_trans (recovering : bool) : K unit :=
  n <- gets (fun s => lh_n (k_log s)) ;;
  for_loop (Z.to_nat n) 0 (install_block recovering) ;;;
  ret tt.

Definition read_head : K unit :=
  l <- gets k_log ;;
  b <- bread (u32 (l_dev l)) (u32 (l_start l)) ;;
  lh <- gets (fun s => b_data (get_buf b s)) ;;
  modify (upd_log (set_lh_n (i32 (load32 lh 0)))) ;;;
  for_loop (Z.to_nat (i32 (load32 lh 0))) 0 (fun i =>
    set_lh_at i (i32 (load32 lh (4 + 4 * i))) ;;;
    ret (@None unit)) ;;;
  brelse b.

Definition write_head : K unit :=
  l <- gets k_log ;;
  b <- bread (u32 (l_dev l)) (u32 (l_start l)) ;;
  modify (upd_buf b (fun x => set_b_data (store32 (b_data x) 0 (lh_n l)) x)) ;;;
  for_loop (Z.to_nat (lh_n l)) 0 (fun i =>
    blk <- gets (lh_at i) ;;
    modify (upd_buf b (fun x => set_b_data (store32 (b_data x) (4 + 4 * i) blk) x)) ;;;
    ret (@None unit)) ;;;
  bwrite b ;;;
  brelse b.

Definition recover_from_log : K unit :=
  read_head ;;;
  install_trans true ;;;
  modify (upd_log (set_lh_n 0)) ;;;
  write_head.

(** [sizeof(struct logheader)] *)
Definition sizeof_logheader : Z := 4 + 4 * LOGSIZE.

Definition initlog (dev : Z) (sb : superblock) : K unit :=
  if sizeof_logheader >=? BSIZE then panic "initlog: too big logheader"
  else
    modify (upd_log (set_l_start (i32 (sb_logstart sb)))) ;;;
    modify (upd_log (set_l_size (i32 (sb_nlog sb)))) ;;;
    modify (upd_log (set_l_dev dev)) ;;;
    recover_from_log.

Definition begin_op : K unit :=
  acquire LkLog ;;;
  l <- gets k_log ;;
  if l_committing l then sleep ChLog LkLog
  else if lh_n l + (l_outstanding l + 1) * MAXOPBLOCKS >? LOGSIZE then sleep ChLog LkLog
  else
    modify (upd_log (set_l_outstanding (l_outstanding l + 1))) ;;;
    release LkLog.

(** The body of the loop of write_log. *)
Definition log_block (tail : Z) : K (option unit) :=
  l <- gets k_log ;;
  to <- bread (u32 (l_dev l)) (u32 (l_start l + tail + 1)) ;;
  blk <- gets (lh_at tail) ;;
  from <- bread (u32 (l_dev l)) (u32 blk) ;;
  buf_copy to from ;;;
  bwrite to ;;;
  brelse from ;;;
  brelse to ;;;
  ret None.

Definition write_log : K unit :=
  n <- gets (fun s => lh_n (k_log s)) ;;
  for_loop (Z.to_nat n) 0 log_block ;;;
  ret tt.

Definition commit : K unit :=
  n <- gets (fun s => lh_n (k_log s)) ;;
  when (n >? 0)
    (write_log ;;;
     write_head ;;;
     install_trans false ;;;
     modify (upd_log (set_lh_n 0)) ;;;
     write_head).

Definition end_op : K unit :=
  acquire LkLog ;;;
  modify (upd_log (fun l => set_l_outstanding (l_outstanding l - 1) l)) ;;;
  l <- gets k_log ;;
  if l_committing l then panic "log.committing"
  else
    do_commit <- (if l_outstanding l =? 0
      then modify (upd_log (set_l_committing true)) ;;; ret true
      else wakeup ChLog ;;; ret false) ;;
    release LkLog ;;;
    when do_commit
      (commit ;;;
       acquire LkLog ;;;
       modify (upd_log (set_l_committing false)) ;;;
       wakeup ChLog ;;;
       release LkLog).

(** The loop of log_write: the first entry that is block [blockno], or [n]. *)
Fixpoint find_logged (n : nat) (i : Z) (blockno : Z) (s : kstate) : Z :=
  match n with
  | O => i
  | S n => if u32 (lh_at i s) =? blockno then i else find_logged n (i + 1) blockno s
  end.

Definition log_write (b : nat) : K unit :=
  acquire LkLog ;;;
  l <- gets k_log ;;
  if (lh_n l >=? LOGSIZE) || (lh_n l >=? l_size l - 1) then panic "too big a transaction"
  else if l_outstanding l <? 1 then panic "log_write outside of trans"
  else
    bn <- gets (fun s => b_blockno (get_buf b s)) ;;
    i <- gets (find_logged (Z.to_nat (lh_n l)) 0 bn) ;;
    set_lh_at i (i32 bn) ;;;
    when (i =? lh_n l)
      (bpin b ;;;
       modify (upd_log (fun l => set_lh_n (lh_n l + 1) l))) ;;;
    release LkLog.
