(* ===== verification/LogSpec.v ===== *)
(** Crash safety of the log: at every point of a commit or of a recovery, a
    crash followed by recovery gives the file system either before or after
    the transaction.  The proofs use the cache through [BlockLayer] only. *)
From S2P Require Import Prelude State Kstring Locks Sched Sleeplock Bio BioList BioSpec BlockLayer Log.

(** * Disks and sequences of writes *)

Definition deq (A B : blocks) : Prop := forall bn, beq (A bn) (B bn).

#[export] Instance deq_equiv : Equivalence deq.
Proof.
  split.
  - by intros A bn.
  - intros A B E bn. symmetry. apply E.
  - intros A B C E E' bn. etrans; [apply E|apply E'].
Qed.

#[export] Instance vupd_proper : Proper (deq ==> eq ==> beq ==> deq) vupd.
Proof. intros A B E bn ? <- d d' Ed x. unfold vupd. destruct (x =? bn); [done|apply E]. Qed.

(** The disk after the writes [W]. *)
Definition replay (W : list (Z * bytes)) (D : blocks) : blocks :=
  foldl (fun A w => vupd A w.1 w.2) D W.

Lemma replay_app W1 W2 D : replay (W1 ++ W2) D = replay W2 (replay W1 D).
Proof. apply foldl_app. Qed.

#[export] Instance replay_proper W : Proper (deq ==> deq) (replay W).
Proof.
  intros A B E. unfold replay. revert A B E. induction W as [|w W IH]; intros A B E; cbn; [done|]. apply IH. by rewrite E.
Qed.

(** Every disk that a crash during the writes [W] can leave satisfies [Q]. *)
Definition crash_safe (Q : blocks -> Prop) (D : blocks) (W : list (Z * bytes)) : Prop :=
  forall W1, W1 `prefix_of` W -> Q (replay W1 D).

(** [n] updates: [key i] gets [val i]. *)
Fixpoint upds (key : nat -> Z) (val : nat -> bytes) (n : nat) (A : blocks) : blocks :=
  match n with O => A | S n => vupd (upds key val n A) (key n) (val n) end.

Lemma upds_out key val n A bn : (forall i, (i < n)%nat -> key i <> bn) -> upds key val n A bn = A bn.
Proof.
  induction n as [|n IH]; intros H; cbn; [done|]. rewrite vupd_ne; [apply IH; intros i Hi; apply H; lia|].
  intros E. apply (H n); [lia|done].
Qed.

Lemma upds_in key val n A i :
  (i < n)%nat -> (forall j, (i < j < n)%nat -> key j <> key i) -> upds key val n A (key i) = val i.
Proof.
  induction n as [|n IH]; intros Hi Hk; [lia|]. cbn. destruct (decide (i = n)) as [->|Hne]; [apply vupd_eq|].
  rewrite vupd_ne; [apply IH; [lia|intros j Hj; apply Hk; lia]|]. intros E. apply (Hk n); [lia|done].
Qed.

(** Between [s] and [s'] the disk went from [D] to [D'] through disks in [Q]. *)
Definition steps (Q : blocks -> Prop) (s s' : kstate) (D D' : blocks) : Prop :=
  exists W, wrote s s' W /\ crash_safe Q D W /\ deq (replay W D) D'.

Lemma steps_quiet (Q : blocks -> Prop) s s' D : k_disk s' = k_disk s -> Q D -> steps Q s s' D D.
Proof.
  intros E HQ. exists []. split; [unfold wrote; by rewrite E, app_nil_r|]. split; [|done].
  intros W1 [k Hk]. symmetry in Hk. apply app_nil in Hk as [-> _]. done.
Qed.

Section Steps.
Context (Q : blocks -> Prop) `{!Proper (deq ==> iff) Q}.

Lemma steps_write s s' D bn d d' :
  wrote s s' [(bn, d)] -> beq d d' -> Q D -> Q (vupd D bn d') -> steps Q s s' D (vupd D bn d').
Proof.
  intros Hw Ed HQ HQ'. exists [(bn, d)]. assert (E : deq (vupd D bn d) (vupd D bn d')) by by rewrite Ed.
  split; [done|]. split; [|exact E]. intros W1 HW. destruct W1 as [|w W1]; [done|].
  apply prefix_cons_inv_1 in HW as Hw1. subst w. apply prefix_cons_inv_2, prefix_nil_inv in HW. subst W1.
  cbn. by rewrite E.
Qed.

Lemma steps_trans s1 s2 s3 D1 D2 D3 : steps Q s1 s2 D1 D2 -> steps Q s2 s3 D2 D3 -> steps Q s1 s3 D1 D3.
Proof.
  intros (W1 & E1 & H1 & R1) (W2 & E2 & H2 & R2). exists (W1 ++ W2). split; [unfold wrote in *; by rewrite E2, E1, app_assoc|].
  split; [|by rewrite replay_app, R1]. intros W HW. destruct (prefix_weak_total W W1 (W1 ++ W2)) as [Hp|[W' ->]]; [done|by exists W2| |].
  - by apply H1.
  - rewrite replay_app, R1. apply H2. by apply prefix_app_inv in HW.
Qed.

Lemma steps_ext s s' D D' D'' : steps Q s s' D D' -> deq D' D'' -> steps Q s s' D D''.
Proof. intros (W & ? & ? & E) E'. exists W. by rewrite <- E'. Qed.
End Steps.

Lemma steps_weaken (Q Q' : blocks -> Prop) s s' D D' :
  (forall A, Q A -> Q' A) -> steps Q s s' D D' -> steps Q' s s' D D'.
Proof. intros H (W & ? & HQ & ?). exists W. split_and!; [done| |done]. intros W1 HW. by apply H, HQ. Qed.

(** Only the cache, the disk, woken processes and the log's variables change. *)
Definition log_only (s s' : kstate) : Prop := bio_only (set_k_log (k_log s') s) s'.

Lemma bio_log_only s s' : bio_only s s' -> log_only s s'.
Proof. intros H. unfold log_only. destruct (bio_only_fields _ _ H) as (_ & _ & E & _). rewrite E. by destruct s. Qed.
Lemma upd_log_only s f : log_only s (upd_log f s).
Proof. unfold log_only. apply bio_only_refl. Qed.
Lemma log_only_trans s1 s2 s3 : log_only s1 s2 -> log_only s2 s3 -> log_only s1 s3.
Proof.
  unfold log_only. intros H1 H2.
  apply (bio_only_trans _ (set_k_log (k_log s3) s2)); [|done]. destruct H1 as [E L P C]. split.
  - rewrite E. by destruct s1.
  - done.
  - exact P.
  - exact C.
Qed.

(** * The log on disk *)

(** The block numbers in a header block. *)
Definition hdr (d : bytes) : list Z :=
  (fun i : nat => i32 (load32 d (4 + 4 * Z.of_nat i))) <$> seq 0 (Z.to_nat (i32 (load32 d 0))).

Section Log.
Context (dev pid : Z) (rep : bstate_rel) `{!BlockLayer dev pid rep} (st nlog : Z).

Definition inlog (bn : Z) : Prop := st <= bn < st + nlog.
Definition home_eq (A B : blocks) : Prop := forall bn, ~ inlog bn -> beq (A bn) (B bn).

Record log_geom : Prop := {
  lg_dev : 0 <= dev < 2 ^ 31;
  lg_start : 0 <= st;
  lg_size : 1 <= nlog <= LOGSIZE;
  lg_end : st + nlog < 2 ^ 31
}.

(** The blocks of a transaction: distinct, outside of the log, and few enough. *)
Record txn_ok (blks : list Z) : Prop := {
  tx_nodup : NoDup blks;
  tx_home : forall b, b ∈ blks -> 0 <= b < 2 ^ 31 /\ ~ inlog b;
  tx_len : Z.of_nat (length blks) < nlog
}.

(** The log's variables. *)
Record log_at (s : kstate) (blks : list Z) : Prop := {
  la_start : l_start (k_log s) = st;
  la_size : l_size (k_log s) = nlog;
  la_dev : l_dev (k_log s) = dev;
  la_n : lh_n (k_log s) = Z.of_nat (length blks);
  la_len : length (lh_block (k_log s)) = Z.to_nat LOGSIZE;
  la_blk : forall i b, blks !! i = Some b -> lh_block (k_log s) !! i = Some b
}.

(** What recovery makes of a disk: the blocks named by the header are taken
    from the log, all others stay. *)
Definition recovered (D : blocks) : blocks := fun bn =>
  match list_find (fun b => b = bn) (hdr (D st)) with
  | Some (i, _) => D (st + 1 + Z.of_nat i)
  | None => D bn
  end.

Hypothesis Hgeom : log_geom.

Ltac lg_lia := pose proof (lg_dev Hgeom); pose proof (lg_start Hgeom); pose proof (lg_size Hgeom);
  pose proof (lg_end Hgeom); unfold inlog, LOGSIZE, MAXOPBLOCKS, BSIZE in *; lia.

Lemma hdr_beq d d' : beq d d' -> (Z.of_nat (length (hdr d)) < nlog) -> hdr d' = hdr d.
Proof.
  intros E Hl. assert (E32 : forall a, 0 <= a -> a + 4 <= BSIZE -> load32 d' a = load32 d a).
  { intros a H1 H2. apply le_load_ext. intros i Hi. apply E. lg_lia. }
  unfold hdr in *. rewrite length_fmap, length_seq in Hl. rewrite E32 by (unfold BSIZE; lia).
  apply list_fmap_ext. intros i n Hn. apply lookup_seq in Hn as [-> Hn]. rewrite E32; [done|lg_lia|lg_lia].
Qed.

Lemma lh_at_blk s blks i b : log_at s blks -> blks !! i = Some b -> lh_at (Z.of_nat i) s = b.
Proof. intros Hl E. unfold lh_at. by rewrite Nat2Z.id, (la_blk _ _ Hl i b E). Qed.

Lemma log_at_bio s s' blks : bio_only s s' -> log_at s blks -> log_at s' blks.
Proof.
  intros Hb [? ? ? ? ? ?]. destruct (bio_only_fields _ _ Hb) as (_ & _ & E & _). by split; rewrite E.
Qed.

(** A loaded buffer is changed by [f]. *)
Lemma upd_data_eq b f s :
  upd_buf b (fun x => set_b_data (f (b_data x)) x) s = upd_buf b (set_b_data (f (b_data (get_buf b s)))) s.
Proof.
  unfold upd_buf. f_equal. apply list_alter_ext; [|done]. intros x Hx. unfold get_buf. by rewrite Hx.
Qed.

Lemma buf_copy_spec s D V L P dst bd src bs :
  rep s D V L P -> (dst, bd) ∈ L -> (src, bs) ∈ L ->
  exists s', buf_copy dst src s = Ok tt s' /\ bio_only s s' /\ k_disk s' = k_disk s /\
    rep s' D (vupd V bd (V bs)) L P.
Proof.
  intros Hr Hd Hs. unfold buf_copy. rewrite bind_gets. set (d := b_data (get_buf src s)).
  eexists. split; [reflexivity|]. split; [apply bio_only_bufs|]. split; [done|].
  rewrite (upd_data_eq dst (fun x => copy_into (Z.to_nat BSIZE) d 0 x 0)).
  eapply bl_ext; [apply (bl_store _ _ _ _ _ _ _ _ Hr Hd)|done|].
  destruct (bl_locked _ _ _ _ _ _ _ Hr Hs) as (_ & E & _). fold d in E.
  intros bn. unfold vupd. destruct (bn =? bd); [|done]. rewrite <- E. intros i Hi.
  rewrite load8_copy_into. replace (Z.of_nat (Z.to_nat BSIZE)) with BSIZE by done. bool_case; try lia.
  f_equal; lia.
Qed.

Lemma u32_i31 x : 0 <= x < 2 ^ 31 -> u32 x = x.
Proof. intros. apply u32_small. lia. Qed.

Lemma elem_lookup (l : list Z) i b : l !! i = Some b -> b ∈ l.
Proof. apply list_elem_of_lookup_2. Qed.
(** Reading log block [i] and the block [blk] it belongs to. *)
Lemma read_pair {A} s D V P blks i blk (k : nat -> nat -> K A) :
  rep s D V [] P -> log_at s blks -> txn_ok blks -> blks !! i = Some blk ->
  st + 1 + Z.of_nat i ∉ P -> (size P < bhead)%nat -> blk ∈ P \/ (S (size P) < bhead)%nat ->
  exists b1 b2 s', bio_only s s' /\ k_disk s' = k_disk s /\
    rep s' D V [(b2, blk); (b1, st + 1 + Z.of_nat i)] P /\
    (l <- gets k_log ;;
     b1 <- bread (u32 (l_dev l)) (u32 (l_start l + Z.of_nat i + 1)) ;;
     blk <- gets (lh_at (Z.of_nat i)) ;;
     b2 <- bread (u32 (l_dev l)) (u32 blk) ;;
     k b1 b2) s = k b1 b2 s'.
Proof.
  intros Hr Hl Ht Hi HnP Hroom Hroom'. pose proof (lookup_lt_Some _ _ _ Hi) as Hlt.
  pose proof (tx_len _ Ht) as Hlen. destruct (tx_home _ Ht blk (elem_lookup _ _ _ Hi)) as [Hb Hout].
  rewrite bind_gets, (la_dev _ _ Hl), (la_start _ _ Hl), !u32_i31 by lg_lia.
  replace (st + Z.of_nat i + 1) with (st + 1 + Z.of_nat i) by lia.
  destruct (bl_bread s D V [] P (st + 1 + Z.of_nat i) Hr) as (b1 & s1 & E1 & O1 & K1 & Hr1);
    [apply not_elem_of_nil|right; cbn; lia|].
  rewrite (bind_Ok _ _ _ _ _ E1), bind_gets, (lh_at_blk s1 blks i blk (log_at_bio _ _ _ O1 Hl) Hi), u32_i31 by lia.
  destruct (bl_bread s1 D V _ P blk Hr1) as (b2 & s2 & E2 & O2 & K2 & Hr2).
  { cbn. rewrite list_elem_of_singleton. lg_lia. }
  { destruct Hroom'; [by left|right; cbn; lia]. }
  rewrite (bind_Ok _ _ _ _ _ E2). exists b1, b2, s2. split; [by eapply bio_only_trans|]. split; [congruence|]. done.
Qed.

Lemma install_block_spec s D V P blks i blk (recovering : bool) :
  rep s D V [] P -> log_at s blks -> txn_ok blks -> blks !! i = Some blk ->
  st + 1 + Z.of_nat i ∉ P -> (size P < bhead)%nat ->
  (if recovering then (S (size P) < bhead)%nat else blk ∈ P) ->
  exists s' d, install_block recovering (Z.of_nat i) s = Ok None s' /\ bio_only s s' /\
    wrote s s' [(blk, d)] /\ beq d (V (st + 1 + Z.of_nat i)) /\
    rep s' (vupd D blk (V (st + 1 + Z.of_nat i))) (vupd V blk (V (st + 1 + Z.of_nat i))) []
      (if recovering then P else P ∖ {[blk]}).
Proof.
  intros Hr Hl Ht Hi HnP Hroom Hroom'. set (ll := st + 1 + Z.of_nat i) in *.
  assert (Hne : blk <> ll).
  { pose proof (tx_len _ Ht). pose proof (lookup_lt_Some _ _ _ Hi).
    destruct (tx_home _ Ht blk (elem_lookup _ _ _ Hi)). subst ll. lg_lia. }
  pose proof (bl_clean _ _ _ _ _ ll Hr ltac:(apply not_elem_of_nil) HnP) as Hclean.
  unfold install_block.
  edestruct (read_pair (A:=option unit) s D V P blks i blk) as (b1 & b2 & s1 & O1 & K1 & Hr1 & ->); [done..|destruct recovering; tauto|].
  destruct (buf_copy_spec s1 D V _ P b2 blk b1 ll Hr1) as (s2 & E2 & O2 & K2 & Hr2); [set_solver..|].
  rewrite (bind_Ok _ _ _ _ _ E2).
  destruct (bl_bwrite s2 D _ _ P b2 blk Hr2) as (s3 & d & E3 & O3 & W3 & Ed & Hr3); [set_solver|].
  rewrite (bind_Ok _ _ _ _ _ E3). rewrite vupd_eq in Ed, Hr3.
  assert (exists s4, (when (negb recovering) (bunpin b2)) s3 = Ok tt s4 /\ bio_only s3 s4 /\ k_disk s4 = k_disk s3 /\
    rep s4 (vupd D blk (V ll)) (vupd V blk (V ll)) [(b2, blk); (b1, ll)] (if recovering then P else P ∖ {[blk]}))
    as (s4 & E4 & O4 & K4 & Hr4).
  { destruct recovering; cbn [negb when].
    - exists s3. split_and!; [done|apply bio_only_refl|done|done].
    - apply (bl_bunpin s3 _ _ _ P b2 blk Hr3); [set_solver|done]. }
  rewrite (bind_Ok _ _ _ _ _ E4).
  destruct (bl_brelse s4 _ _ [(b2, blk)] [] _ b1 ll Hr4) as (s5 & E5 & O5 & K5 & Hr5);
    [right; by rewrite !vupd_ne by done|].
  rewrite (bind_Ok _ _ _ _ _ E5).
  destruct (bl_brelse s5 _ _ [] [] _ b2 blk Hr5) as (s6 & E6 & O6 & K6 & Hr6);
    [right; by rewrite !vupd_eq|].
  rewrite (bind_Ok _ _ _ _ _ E6). exists s6, d. split; [done|].
  split; [by do 5 (eapply bio_only_trans; [eassumption|])|].
  split; [unfold wrote in *; congruence|]. done.
Qed.

Lemma log_block_spec s D V P blks i blk :
  rep s D V [] P -> log_at s blks -> txn_ok blks -> blks !! i = Some blk ->
  st + 1 + Z.of_nat i ∉ P -> (size P < bhead)%nat -> blk ∈ P ->
  exists s' d, log_block (Z.of_nat i) s = Ok None s' /\ bio_only s s' /\
    wrote s s' [(st + 1 + Z.of_nat i, d)] /\ beq d (V blk) /\
    rep s' (vupd D (st + 1 + Z.of_nat i) (V blk)) (vupd V (st + 1 + Z.of_nat i) (V blk)) [] P.
Proof.
  intros Hr Hl Ht Hi HnP Hroom Hroom'. set (ll := st + 1 + Z.of_nat i) in *.
  assert (Hne : blk <> ll) by (intros ->; done).
  unfold log_block.
  edestruct (read_pair (A:=option unit) s D V P blks i blk) as (b1 & b2 & s1 & O1 & K1 & Hr1 & ->); [done..|tauto|].
  destruct (buf_copy_spec s1 D V _ P b1 ll b2 blk Hr1) as (s2 & E2 & O2 & K2 & Hr2); [set_solver..|].
  rewrite (bind_Ok _ _ _ _ _ E2).
  destruct (bl_bwrite s2 D _ _ P b1 ll Hr2) as (s3 & d & E3 & O3 & W3 & Ed & Hr3); [set_solver|].
  rewrite (bind_Ok _ _ _ _ _ E3). rewrite vupd_eq in Ed, Hr3.
  destruct (bl_brelse s3 _ _ [] [(b1, ll)] _ b2 blk Hr3) as (s5 & E5 & O5 & K5 & Hr5); [by left|].
  rewrite (bind_Ok _ _ _ _ _ E5).
  destruct (bl_brelse s5 _ _ [] [] _ b1 ll Hr5) as (s6 & E6 & O6 & K6 & Hr6);
    [right; by rewrite !vupd_eq|].
  rewrite (bind_Ok _ _ _ _ _ E6). exists s6, d. split; [done|].
  split; [by do 4 (eapply bio_only_trans; [eassumption|])|].
  split; [unfold wrote in *; congruence|]. done.
Qed.

(** ** The header *)

Lemma rep_log s D V L P f : rep s D V L P -> rep (upd_log f s) D V L P.
Proof.
  intros Hr. eapply bl_frame; [exact Hr|done|done|]. pose proof (bl_running _ _ _ _ _ Hr) as [? ? ?]. by split.
Qed.

Lemma hdr_intro d blks :
  Z.of_nat (length blks) < 2 ^ 31 -> load32 d 0 = Z.of_nat (length blks) ->
  (forall i b, blks !! i = Some b -> i32 (load32 d (4 + 4 * Z.of_nat i)) = b) -> hdr d = blks.
Proof.
  intros Hn E0 Eb. unfold hdr. rewrite E0, i32_small, Nat2Z.id by lia. apply list_eq. intros i.
  rewrite list_lookup_fmap. destruct (blks !! i) as [b|] eqn:E.
  - pose proof (lookup_lt_Some _ _ _ E). rewrite lookup_seq_lt by done. cbn. f_equal. by apply Eb.
  - apply lookup_ge_None in E. rewrite lookup_seq_ge by done. done.
Qed.

Lemma get_upd_data b d s : (b < length (k_bufs s))%nat -> b_data (get_buf b (upd_buf b (set_b_data d) s)) = d.
Proof.
  intros Hb. unfold get_buf, upd_buf. cbn. rewrite list_lookup_alter_eq.
  by destruct (lookup_lt_is_Some_2 (k_bufs s) b Hb) as [x ->].
Qed.

(** Changing the data of the locked header buffer. *)
Lemma store_head s D V P b d f :
  rep s D (vupd V st d) [(b, st)] P -> b_data (get_buf b s) = d ->
  let s' := upd_buf b (fun x => set_b_data (f (b_data x)) x) s in
  rep s' D (vupd V st (f d)) [(b, st)] P /\ b_data (get_buf b s') = f d.
Proof.
  intros Hr Ed. cbv zeta. rewrite upd_data_eq, Ed. assert (Hin : (b, st) ∈ [(b, st)]) by set_solver. split.
  - eapply bl_ext; [apply (bl_store _ _ _ _ _ _ _ (f d) Hr Hin)|done|]. intros bn. unfold vupd. by destruct (bn =? st).
  - apply get_upd_data. apply (bl_locked _ _ _ _ _ _ _ Hr Hin).
Qed.

Definition head_entries (blks : list Z) (n : nat) (d : bytes) : Prop :=
  load32 d 0 = Z.of_nat (length blks) /\
  forall i b, (i < n)%nat -> blks !! i = Some b -> load32 d (4 + 4 * Z.of_nat i) = b.

Lemma head_entries_step blks n d b :
  head_entries blks n d -> blks !! n = Some b -> 0 <= b < 2 ^ 31 ->
  head_entries blks (S n) (store32 d (4 + 4 * Z.of_nat n) b).
Proof.
  intros [H0 Hi] Hb Hr. split.
  - unfold load32, store32 in *. rewrite le_load_store_disj by lia. done.
  - intros i b' Hlt Hb'. destruct (decide (i = n)) as [->|Hne].
    + rewrite Hb in Hb'. injection Hb' as <-. unfold load32, store32. rewrite le_load_store_same. apply Z.mod_small. lia.
    + unfold load32, store32 in *. rewrite le_load_store_disj by lia. apply Hi; [lia|done].
Qed.

(** The header block [d] records the blocks [blks]. *)
Definition head_is (d : bytes) (blks : list Z) : Prop := i32 (load32 d 0) = Z.of_nat (length blks) /\ hdr d = blks.

Lemma write_head_loop s D V P b d blks :
  rep s D (vupd V st d) [(b, st)] P -> b_data (get_buf b s) = d -> head_entries blks 0 d ->
  log_at s blks -> (forall b, b ∈ blks -> 0 <= b < 2 ^ 31) ->
  exists s' d', for_loop (C:=chan) (S:=kstate) (length blks) 0 (fun i =>
      blk <- gets (lh_at i) ;;
      modify (upd_buf b (fun x => set_b_data (store32 (b_data x) (4 + 4 * i) blk) x)) ;;;
      ret (@None unit)) s = Ok None s' /\
    bio_only s s' /\ k_disk s' = k_disk s /\
    rep s' D (vupd V st d') [(b, st)] P /\ head_entries blks (length blks) d'.
Proof.
  intros Hr Ed He Hl Hblk.
  match goal with |- context [for_loop ?n 0 ?body] =>
    destruct (for_loop_inv n 0 body (fun i t => bio_only s t /\ k_disk t = k_disk s /\
      exists d, rep t D (vupd V st d) [(b, st)] P /\ b_data (get_buf b t) = d /\ head_entries blks (Z.to_nat i) d) s)
      as (s3 & E3 & O3 & K3 & d3 & Hr3 & Ed3 & He3) end.
  { intros j t Hj (Ot & Kt & d' & Hrt & Ed' & He'). rewrite Z.add_0_l in Hj.
    destruct (lookup_lt_is_Some_2 blks (Z.to_nat j)) as [blk Eb]; [lia|].
    rewrite bind_gets, bind_modify. replace j with (Z.of_nat (Z.to_nat j)) by lia.
    rewrite (lh_at_blk t blks (Z.to_nat j) blk (log_at_bio _ _ _ Ot Hl) Eb).
    destruct (store_head t D V P b d' (fun x => store32 x (4 + 4 * Z.of_nat (Z.to_nat j)) blk) Hrt Ed') as [Hr2 Ed2].
    eexists. split; [reflexivity|]. split; [eapply bio_only_trans; [exact Ot|apply bio_only_bufs]|]. split; [done|].
    eexists. split; [exact Hr2|]. split; [exact Ed2|].
    replace (Z.to_nat (Z.of_nat (Z.to_nat j) + 1)) with (S (Z.to_nat j)) by lia.
    apply head_entries_step; [done|done|]. apply Hblk. by eapply elem_lookup. }
  { split; [apply bio_only_refl|]. split; [done|]. by exists d. }
  rewrite Z.add_0_l, Nat2Z.id in He3. by exists s3, d3.
Qed.

Lemma write_head_spec s D V P blks :
  rep s D V [] P -> st ∉ P -> (size P < bhead)%nat -> log_at s blks ->
  Z.of_nat (length blks) < nlog -> (forall b, b ∈ blks -> 0 <= b < 2 ^ 31) ->
  exists s' d d', write_head s = Ok tt s' /\ bio_only s s' /\ wrote s s' [(st, d')] /\ beq d' d /\
    head_is d blks /\ rep s' (vupd D st d) (vupd V st d) [] P.
Proof.
  intros Hr HnP Hroom Hl Hlen Hblk. unfold write_head.
  rewrite bind_gets, (la_dev _ _ Hl), (la_start _ _ Hl), !u32_i31 by lg_lia.
  destruct (bl_bread s D V [] P st Hr) as (b & s1 & E1 & O1 & K1 & Hr1); [apply not_elem_of_nil|right; cbn; lia|].
  rewrite (bind_Ok _ _ _ _ _ E1), bind_modify, (la_n _ _ Hl), Nat2Z.id.
  assert (Hr1' : rep s1 D (vupd V st (b_data (get_buf b s1))) [(b, st)] P).
  { eapply bl_ext; [exact Hr1|done|]. intros bn. unfold vupd. destruct (Z.eqb_spec bn st) as [->|]; [|done].
    symmetry. apply (bl_locked _ _ _ _ _ b st Hr1). set_solver. }
  destruct (store_head s1 D V P b _ (fun x => store32 x 0 (Z.of_nat (length blks))) Hr1' eq_refl) as [Hr2 Ed2].
  destruct (write_head_loop _ D V P b _ blks Hr2 Ed2) as (s3 & d & E3 & O3 & K3 & Hr3 & H0 & Hi).
  { split; [|intros; lia]. unfold load32, store32. rewrite le_load_store_same. apply Z.mod_small. lg_lia. }
  { eapply log_at_bio; [apply bio_only_bufs|]. by eapply log_at_bio. }
  { done. }
  rewrite (bind_Ok _ _ _ _ _ E3).
  destruct (bl_bwrite s3 _ _ _ P b st Hr3) as (s4 & d' & E4 & O4 & W4 & Ed4 & Hr4); [set_solver|].
  rewrite (bind_Ok _ _ _ _ _ E4). rewrite vupd_eq in Ed4, Hr4.
  destruct (bl_brelse s4 _ _ [] [] _ b st Hr4) as (s5 & E5 & O5 & K5 & Hr5); [right; by rewrite !vupd_eq|].
  exists s5, d, d'. split; [done|]. split.
  { eapply bio_only_trans; [exact O1|]. eapply bio_only_trans; [apply bio_only_bufs|].
    by do 2 (eapply bio_only_trans; [eassumption|]). }
  split; [unfold wrote in *; cbn in *; congruence|]. split; [done|]. split; [|done].
  split; [rewrite H0; apply i32_small; lg_lia|].
  apply hdr_intro; [lg_lia|done|]. intros i blk Eb.
  pose proof (lookup_lt_Some _ _ _ Eb). rewrite (Hi i blk); [|lia|done].
  apply i32_small. specialize (Hblk blk ltac:(by eapply elem_lookup)). lia.
Qed.

(** ** Reading the header *)

Record head_read (s s' : kstate) (n : Z) (k : nat) (blks : list Z) : Prop := {
  hr_log : exists bl, k_log s' = set_lh_block bl (set_lh_n n (k_log s)) /\ length bl = length (lh_block (k_log s)) /\
    forall i b, (i < k)%nat -> blks !! i = Some b -> bl !! i = Some b;
  hr_only : s' = set_k_log (k_log s') s
}.

Lemma read_head_loop s lh :
  length (lh_block (k_log s)) = Z.to_nat LOGSIZE -> (length (hdr lh) <= Z.to_nat LOGSIZE)%nat ->
  exists s', for_loop (C:=chan) (S:=kstate) (length (hdr lh)) 0 (fun i =>
      set_lh_at i (i32 (load32 lh (4 + 4 * i))) ;;; ret (@None unit)) s = Ok None s' /\
    head_read s s' (lh_n (k_log s)) (length (hdr lh)) (hdr lh).
Proof.
  intros Hlen Hn.
  match goal with |- context [for_loop ?n 0 ?body] =>
    destruct (for_loop_inv n 0 body (fun i t => head_read s t (lh_n (k_log s)) (Z.to_nat i) (hdr lh)) s)
      as (s3 & E3 & H3) end.
  - intros j t Hj [(bl & El & Hl & Hb) Ho]. rewrite Z.add_0_l in Hj. unfold set_lh_at.
    assert ((0 <=? j) && (j <? LOGSIZE) = true) as -> by (apply andb_true_intro; split; [apply Z.leb_le|apply Z.ltb_lt]; lia).
    rewrite bind_modify. eexists. split; [reflexivity|]. split.
    + unfold upd_log. cbn. rewrite El. cbn. exists (<[Z.to_nat j := i32 (load32 lh (4 + 4 * j))]> bl). split; [done|].
      split; [by rewrite length_insert|]. intros i b Hi Hb'. destruct (decide (i = Z.to_nat j)) as [->|Hne].
      * rewrite list_lookup_insert_eq by lia. unfold hdr in Hb'. rewrite list_lookup_fmap in Hb'.
        destruct (seq _ _ !! Z.to_nat j) as [i|] eqn:Es; [|done]. apply lookup_seq in Es as [-> _].
        cbn in Hb'. rewrite Z2Nat.id in Hb' by lia. done.
      * rewrite list_lookup_insert_ne by done. apply Hb; [lia|done].
    + rewrite Ho. by destruct s.
  - split; [|by destruct s]. exists (lh_block (k_log s)). split; [by destruct (k_log s)|]. split; [done|]. intros; lia.
  - rewrite Z.add_0_l, Nat2Z.id in H3. by exists s3.
Qed.

Definition head_ok (d : bytes) : Prop := 0 <= i32 (load32 d 0) /\ txn_ok (hdr d).

Lemma hdr_count d : 0 <= i32 (load32 d 0) -> i32 (load32 d 0) = Z.of_nat (length (hdr d)).
Proof. intros H. unfold hdr. rewrite length_fmap, length_seq. lia. Qed.

Lemma head_ok_beq d d' : beq d d' -> head_ok d -> head_ok d'.
Proof.
  intros E [H0 Ht]. split; [|by rewrite (hdr_beq d d' E (tx_len _ Ht))].
  assert (load32 d' 0 = load32 d 0) as ->; [|done]. apply le_load_ext. intros i Hi. apply E. unfold BSIZE. lia.
Qed.

Lemma log_at_head s s1 s' (lh : bytes) :
  l_start (k_log s) = st -> l_size (k_log s) = nlog -> l_dev (k_log s) = dev ->
  length (lh_block (k_log s)) = Z.to_nat LOGSIZE ->
  k_log s1 = set_lh_n (Z.of_nat (length (hdr lh))) (k_log s) ->
  head_read s1 s' (lh_n (k_log s1)) (length (hdr lh)) (hdr lh) -> log_at s' (hdr lh).
Proof.
  intros E1 E2 E3 E4 Ek [(bl & El & Hlen & Hb) _]. rewrite Ek in El, Hlen. cbn in El, Hlen.
  split; rewrite El; cbn; try done; [congruence|]. intros i b Hi. apply Hb; [by eapply lookup_lt_Some|done].
Qed.

Lemma read_head_spec s D V P :
  rep s D V [] P -> st ∉ P -> (size P < bhead)%nat ->
  l_start (k_log s) = st -> l_size (k_log s) = nlog -> l_dev (k_log s) = dev ->
  length (lh_block (k_log s)) = Z.to_nat LOGSIZE -> head_ok (V st) ->
  exists s', read_head s = Ok tt s' /\ log_only s s' /\ k_disk s' = k_disk s /\ rep s' D V [] P /\
    log_at s' (hdr (V st)) /\ l_outstanding (k_log s') = l_outstanding (k_log s) /\
    l_committing (k_log s') = l_committing (k_log s).
Proof.
  intros Hr HnP Hroom Es Ez Edev Hlen Hok. unfold read_head.
  rewrite bind_gets, Es, Edev, !u32_i31 by lg_lia.
  destruct (bl_bread s D V [] P st Hr) as (b & s1 & E1 & O1 & K1 & Hr1); [apply not_elem_of_nil|right; cbn; lia|].
  rewrite (bind_Ok _ _ _ _ _ E1), bind_gets, bind_modify.
  destruct (bl_locked _ _ _ _ _ b st Hr1 ltac:(set_solver)) as (_ & Ed & _).
  set (lh := b_data (get_buf b s1)) in *.
  assert (Hok' : head_ok lh) by (eapply head_ok_beq; [symmetry; exact Ed|done]).
  assert (Ehdr : hdr (V st) = hdr lh) by (apply hdr_beq; [done|apply (tx_len _ (proj2 Hok'))]).
  rewrite (hdr_count lh (proj1 Hok')), Nat2Z.id.
  set (s2 := upd_log _ s1). destruct (bio_only_fields _ _ O1) as (_ & _ & El & _).
  pose proof (tx_len _ (proj2 Hok')).
  destruct (read_head_loop s2 lh) as (s3 & E3 & H3); [cbn; by rewrite El|lg_lia|].
  rewrite (bind_Ok _ _ _ _ _ E3).
  assert (Es3 : s3 = upd_log (fun _ => k_log s3) s2) by apply (hr_only _ _ _ _ _ H3).
  assert (Hr3 : rep s3 D V [(b, st)] P) 
    by (rewrite Es3; do 2 apply rep_log; exact Hr1).
  destruct (bl_brelse s3 _ _ [] [] _ b st Hr3) as (s4 & E4 & O4 & K4 & Hr4).
  { right. by apply (bl_clean _ _ _ _ _ st Hr); [apply not_elem_of_nil|]. }
  destruct (bio_only_fields _ _ O4) as (_ & _ & El4 & _).
  exists s4. split; [done|]. split.
  { eapply log_only_trans; [apply bio_log_only; exact O1|]. eapply log_only_trans; [apply upd_log_only|].
    eapply log_only_trans; [|apply bio_log_only; exact O4]. rewrite Es3. apply upd_log_only. }
  split; [rewrite K4, Es3; exact K1|]. split; [done|]. rewrite Ehdr.
  split; [|rewrite El4; destruct (hr_log _ _ _ _ _ H3) as (bl & -> & _); cbn; by rewrite El].
  eapply log_at_bio; [exact O4|]. eapply (log_at_head s s2); [done..| |exact H3]. cbn. by rewrite El.
Qed.

(** ** The loops *)

Definition slot (i : nat) : Z := st + 1 + Z.of_nat i.

Lemma txn_lookup (blks : list Z) i b : blks !! i = Some b -> blks !!! i = b.
Proof. intros E. by rewrite list_lookup_total_alt, E. Qed.

Lemma nodup_drop (l : list Z) n : NoDup l -> NoDup (drop n l).
Proof. rewrite <- (take_drop n l) at 1. rewrite NoDup_app. tauto. Qed.

Lemma txn_size blks n : txn_ok blks -> (size (list_to_set (drop n blks) : gset Z) < bhead)%nat.
Proof.
  intros Ht. pose proof (tx_len _ Ht). rewrite size_list_to_set by (apply nodup_drop, Ht). rewrite length_drop.
  change bhead with (Z.to_nat LOGSIZE). lg_lia.
Qed.

Lemma txn_slot blks i b : txn_ok blks -> (i < length blks)%nat -> b ∈ blks -> b <> slot i.
Proof. intros Ht Hi Hb. pose proof (tx_len _ Ht). destruct (tx_home _ Ht b Hb). unfold slot. lg_lia. Qed.

Lemma upds_slot blks val n A i :
  txn_ok blks -> (n <= length blks)%nat -> (i < length blks)%nat ->
  upds (fun j => blks !!! j) val n A (slot i) = A (slot i).
Proof.
  intros Ht Hn Hi. apply upds_out. intros j Hj. destruct (lookup_lt_is_Some_2 blks j) as [b Eb]; [lia|].
  rewrite (txn_lookup _ _ _ Eb). by eapply txn_slot, elem_lookup.
Qed.

Lemma drop_set (blks : list Z) i blk :
  NoDup blks -> blks !! i = Some blk ->
  (list_to_set (drop i blks) ∖ {[blk]} : gset Z) = list_to_set (drop (S i) blks).
Proof.
  intros Hnd Hi. rewrite (drop_S _ _ _ Hi). assert (Hn : NoDup (drop i blks)) by by apply nodup_drop.
  rewrite (drop_S _ _ _ Hi) in Hn. apply NoDup_cons in Hn as [Hn _]. set_solver.
Qed.

Section Loops.
Context (Q : blocks -> Prop) `{!Proper (deq ==> iff) Q}.

Lemma install_trans_spec s D V blks (recovering : bool) :
  let P : gset Z := if recovering then ∅ else list_to_set blks in
  let ins := upds (fun j => blks !!! j) (fun j => V (slot j)) in
  rep s D V [] P -> log_at s blks -> txn_ok blks ->
  (forall k, (k <= length blks)%nat -> Q (ins k D)) ->
  exists s', install_trans recovering s = Ok tt s' /\ bio_only s s' /\
    steps Q s s' D (ins (length blks) D) /\ rep s' (ins (length blks) D) (ins (length blks) V) [] ∅.
Proof.
  intros P ins Hr Hl Ht HQ. unfold install_trans. rewrite bind_gets, (la_n _ _ Hl), Nat2Z.id.
  destruct (for_loop_inv (length blks) 0 (install_block recovering)
    (fun i t => bio_only s t /\ steps Q s t D (ins (Z.to_nat i) D) /\
       rep t (ins (Z.to_nat i) D) (ins (Z.to_nat i) V) [] (if recovering then ∅ else list_to_set (drop (Z.to_nat i) blks))) s)
    as (s' & E & O & Hs & Hr').
  - intros j t Hj (Ot & Hst & Hrt). rewrite Z.add_0_l in Hj.
    set (i := Z.to_nat j) in *. replace j with (Z.of_nat i) by lia.
    replace (Z.to_nat (Z.of_nat i + 1)) with (S i) by lia.
    destruct (lookup_lt_is_Some_2 blks i) as [blk Eb]; [lia|].
    assert (Hslot : ins i V (slot i) = V (slot i)) by (apply upds_slot; [done|lia|lia]).
    destruct (install_block_spec t _ _ _ blks i blk recovering Hrt (log_at_bio _ _ _ Ot Hl) Ht Eb)
      as (t' & d & E & O & W & Ed & Hr').
    { destruct recovering; [set_solver|]. rewrite elem_of_list_to_set. intros Hin.
      apply (txn_slot blks i (slot i) Ht); [lia| |done]. by eapply subseteq_drop. }
    { destruct recovering; [rewrite size_empty; unfold bhead, NBUF, MAXOPBLOCKS; lia|]. by apply txn_size. }
    { destruct recovering; [rewrite size_empty; unfold bhead, NBUF, MAXOPBLOCKS; lia|].
      apply elem_of_list_to_set. rewrite (drop_S _ _ _ Eb). set_solver. }
    fold (slot i) in Hr', Ed. rewrite Hslot in Hr', Ed. exists t'. split; [done|]. split; [by eapply bio_only_trans|].
    
    assert (Eins : forall A, ins (S i) A = vupd (ins i A) blk (V (slot i)))
      by (intros A; unfold ins; cbn; by rewrite (txn_lookup _ _ _ Eb)).
    rewrite !Eins. split.
    + eapply steps_trans; [done|exact Hst|]. eapply steps_write; [done|exact W|done|apply HQ; lia|].
      rewrite <- Eins. apply HQ. lia.
    + destruct recovering; [done|]. by rewrite (drop_set _ _ _ (tx_nodup _ Ht) Eb) in Hr'.
  - split; [apply bio_only_refl|]. split; [apply steps_quiet; [done|apply (HQ 0%nat); lia]|]. exact Hr.
  - rewrite (bind_Ok _ _ _ _ _ E). rewrite Z.add_0_l, Nat2Z.id in Hs, Hr'. exists s'. split_and!; [done|done|done|].
    rewrite drop_all in Hr'. by destruct recovering.
Qed.

Lemma write_log_spec s D V blks :
  let log := upds slot (fun j => V (blks !!! j)) in
  rep s D V [] (list_to_set blks) -> log_at s blks -> txn_ok blks ->
  (forall k, (k <= length blks)%nat -> Q (log k D)) ->
  exists s', write_log s = Ok tt s' /\ bio_only s s' /\
    steps Q s s' D (log (length blks) D) /\ rep s' (log (length blks) D) (log (length blks) V) [] (list_to_set blks).
Proof.
  intros log Hr Hl Ht HQ. unfold write_log. rewrite bind_gets, (la_n _ _ Hl), Nat2Z.id.
  destruct (for_loop_inv (length blks) 0 log_block
    (fun i t => bio_only s t /\ steps Q s t D (log (Z.to_nat i) D) /\
       rep t (log (Z.to_nat i) D) (log (Z.to_nat i) V) [] (list_to_set blks)) s)
    as (s' & E & O & Hs & Hr').
  - intros j t Hj (Ot & Hst & Hrt). rewrite Z.add_0_l in Hj.
    set (i := Z.to_nat j) in *. replace j with (Z.of_nat i) by lia.
    replace (Z.to_nat (Z.of_nat i + 1)) with (S i) by lia.
    destruct (lookup_lt_is_Some_2 blks i) as [blk Eb]; [lia|].
    assert (Hblk : log i V blk = V blk).
    { apply upds_out. intros k Hk E. apply (txn_slot blks k blk Ht); [lia|by eapply elem_lookup|done]. }
    destruct (log_block_spec t _ _ _ blks i blk Hrt (log_at_bio _ _ _ Ot Hl) Ht Eb)
      as (t' & d & E & O & W & Ed & Hr').
    { rewrite elem_of_list_to_set. intros Hin. apply (txn_slot blks i (slot i) Ht); [lia|done|done]. }
    { by apply (txn_size blks 0). }
    { apply elem_of_list_to_set. by eapply elem_lookup. }
    fold (slot i) in Hr', Ed, W. rewrite Hblk in Hr', Ed. exists t'. split; [done|]. split; [by eapply bio_only_trans|].
    
    assert (Elog : forall A, log (S i) A = vupd (log i A) (slot i) (V blk))
      by (intros A; unfold log; cbn; by rewrite (txn_lookup _ _ _ Eb)).
    rewrite !Elog. split; [|done].
    eapply steps_trans; [done|exact Hst|]. eapply steps_write; [done|exact W|done|apply HQ; lia|].
    rewrite <- Elog. apply HQ. lia.
  - split; [apply bio_only_refl|]. split; [apply steps_quiet; [done|apply (HQ 0%nat); lia]|]. exact Hr.
  - rewrite (bind_Ok _ _ _ _ _ E). rewrite Z.add_0_l, Nat2Z.id in Hs, Hr'. by exists s'.
Qed.
End Loops.

(** ** Recovery, abstractly *)

(** Recovery turns the disk [A] into the file system [B]. *)
Definition recovers_to (A B : blocks) : Prop := head_ok (A st) /\ home_eq (recovered A) B.

Lemma head_is_ok d blks : head_is d blks -> txn_ok blks -> head_ok d.
Proof. intros [E1 E2] Ht. split; [lia|by rewrite E2]. Qed.

Lemma txn_nil : txn_ok [].
Proof. split; [constructor|intros b Hb; by apply elem_of_nil in Hb|cbn; lg_lia]. Qed.

Lemma recovered_out A bn : bn ∉ hdr (A st) -> recovered A bn = A bn.
Proof.
  intros Hn. unfold recovered. destruct (list_find _ _) as [[i b]|] eqn:E; [|done].
  apply list_find_Some in E as (E & -> & _). by apply elem_lookup in E.
Qed.

Lemma recovered_in A i bn : NoDup (hdr (A st)) -> hdr (A st) !! i = Some bn -> recovered A bn = A (slot i).
Proof.
  intros Hnd Hi. unfold recovered. destruct (list_find _ _) as [[j b]|] eqn:E.
  - apply list_find_Some in E as (E & -> & _). by rewrite (NoDup_lookup _ _ _ _ Hnd E Hi).
  - apply list_find_None in E. rewrite Forall_forall in E. destruct (E bn); [by eapply elem_lookup|done].
Qed.

Lemma inlog_slot i : Z.of_nat i + 1 < nlog -> inlog (slot i).
Proof. intros H. unfold slot. lg_lia. Qed.

Lemma recovered_beq A A' : deq A A' -> head_ok (A st) -> deq (recovered A) (recovered A').
Proof.
  intros E [H0 Ht] bn. unfold recovered. rewrite (hdr_beq (A st) (A' st)); [|apply E|apply Ht].
  destruct (list_find _ _) as [[i b]|]; apply E.
Qed.

#[global] Instance recovers_proper : Proper (deq ==> eq ==> iff) recovers_to.
Proof.
  assert (H : forall A A' B, deq A A' -> recovers_to A B -> recovers_to A' B).
  { intros A A' B E [H1 H2]. split; [eapply head_ok_beq; [apply E|done]|]. intros bn Hbn.
    rewrite <- (recovered_beq A A' E H1 bn). by apply H2. }
  intros A A' E B B' <-. split; apply H; [done|by symmetry].
Qed.

#[global] Instance recovers_proper_l B : Proper (deq ==> iff) (fun A => recovers_to A B).
Proof. intros A A' E. by rewrite E. Qed.
#[global] Instance recovers_proper_or B B' : Proper (deq ==> iff) (fun A => recovers_to A B \/ recovers_to A B').
Proof. intros A A' E. by rewrite E. Qed.

(** An empty header: the disk is the file system. *)
Lemma recovers_done A B : head_is (A st) [] -> home_eq A B -> recovers_to A B.
Proof.
  intros Hh He. split; [eapply head_is_ok; [exact Hh|apply txn_nil]|]. intros bn Hbn.
  rewrite recovered_out; [by apply He|]. rewrite (proj2 Hh). apply not_elem_of_nil.
Qed.

Lemma installed_in (blks : list Z) val A i b :
  NoDup blks -> blks !! i = Some b -> upds (fun j => blks !!! j) val (length blks) A b = val i.
Proof.
  intros Hnd Hi. rewrite <- (txn_lookup _ _ _ Hi). apply (upds_in (fun j => blks !!! j)); [by eapply lookup_lt_Some|].
  intros j Hj E. destruct (lookup_lt_is_Some_2 blks j) as [b' Hb]; [lia|].
  rewrite (txn_lookup _ _ _ Hb), (txn_lookup _ _ _ Hi) in E. subst b'.
  pose proof (NoDup_lookup _ _ _ _ Hnd Hb Hi). lia.
Qed.

Lemma installed_out (blks : list Z) val A k bn :
  bn ∉ blks -> (k <= length blks)%nat -> upds (fun j => blks !!! j) val k A bn = A bn.
Proof.
  intros Hn Hk. apply upds_out. intros j Hj E. destruct (lookup_lt_is_Some_2 blks j) as [b Hb]; [lia|].
  rewrite (txn_lookup _ _ _ Hb) in E. subst b. by apply Hn, (elem_lookup _ j).
Qed.

(** A committed header, with any number of the home blocks overwritten. *)
Lemma recovers_installing A B blks val k :
  head_is (A st) blks -> txn_ok blks -> (k <= length blks)%nat ->
  (forall i b, blks !! i = Some b -> beq (A (slot i)) (B b)) ->
  (forall bn, ~ inlog bn -> bn ∉ blks -> beq (A bn) (B bn)) ->
  recovers_to (upds (fun j => blks !!! j) val k A) B.
Proof.
  intros Hh Ht Hk Hlog Hhome. set (A' := upds _ _ _ _).
  assert (Hout : forall bn, bn ∉ blks -> A' bn = A bn).
  { intros bn Hn. by apply installed_out. }
  assert (Hl : forall bn, inlog bn -> A' bn = A bn).
  { intros bn Hbn. apply Hout. intros Hin. by destruct (tx_home _ Ht bn Hin). }
  assert (Est : A' st = A st) by (apply Hl; lg_lia).
  assert (Ehdr : hdr (A' st) = blks) by (rewrite Est; apply Hh).
  split; [rewrite Est; by eapply head_is_ok|]. intros bn Hbn. destruct (decide (bn ∈ blks)) as [Hin|Hn].
  - apply list_elem_of_lookup in Hin as [i Hi]. rewrite (recovered_in A' i); [|rewrite Ehdr; apply Ht|by rewrite Ehdr].
    rewrite Hl; [by apply Hlog|]. apply inlog_slot. pose proof (lookup_lt_Some _ _ _ Hi). pose proof (tx_len _ Ht). lia.
  - rewrite recovered_out by by rewrite Ehdr. rewrite Hout by done. by apply Hhome.
Qed.

(** ** commit and recovery *)

Lemma head_is_beq d d' blks : beq d d' -> txn_ok blks -> head_is d blks -> head_is d' blks.
Proof.
  intros E Ht [E1 E2]. pose proof (head_ok_beq d d' E) as Hok. split.
  - rewrite <- E1. f_equal. apply le_load_ext. intros i Hi. apply E. unfold BSIZE. lia.
  - rewrite (hdr_beq d d' E); [done|]. rewrite E2. apply Ht.
Qed.

Lemma log_at_clear s blks : log_at s blks -> log_at (upd_log (set_lh_n 0) s) [].
Proof. intros [? ? ? ? ? ?]. split; cbn; try done. Qed.

Lemma size_none : (size (∅ : gset Z) < bhead)%nat.
Proof. rewrite size_empty. unfold bhead, NBUF, MAXOPBLOCKS. lia. Qed.

(** The last step of both: erase the header of the log. *)
Lemma clear_head s D V B blks :
  rep s D V [] ∅ -> log_at s blks -> home_eq D B ->
  recovers_to D B ->
  exists s' D' V', write_head (upd_log (set_lh_n 0) s) = Ok tt s' /\ log_only s s' /\
    steps (fun A => recovers_to A B) s s' D D' /\ rep s' D' V' [] ∅ /\ log_at s' [] /\
    head_is (D' st) [] /\ home_eq D' B /\ (forall bn, bn <> st -> V' bn = V bn) /\
    k_log s' = set_lh_n 0 (k_log s).
Proof.
  intros Hr Hl He Hrec. pose proof (log_at_clear _ _ Hl) as Hl'.
  destruct (write_head_spec (upd_log (set_lh_n 0) s) D V ∅ []) as (s' & d & d' & E & O & W & Ed & Hd & Hr').
  { by apply rep_log. } { set_solver. } { apply size_none. } { done. }
  { cbn. lg_lia. } { intros b Hb. by apply elem_of_nil in Hb. }
  exists s', (vupd D st d), (vupd V st d). split; [done|].
  split; [eapply log_only_trans; [apply (upd_log_only s (set_lh_n 0))|by apply bio_log_only]|].
  assert (He' : home_eq (vupd D st d) B) by (intros bn Hbn; rewrite vupd_ne; [by apply He|lg_lia]).
  assert (Hd' : head_is (vupd D st d st) []) by by rewrite vupd_eq.
  split; [|split; [done|split; [by eapply log_at_bio|split; [done|split; [done|split; [intros; by apply vupd_ne|]]]]]].
  - apply (steps_write (fun A => recovers_to A B) s s' D st d' d W Ed); [done|by apply recovers_done].
  - destruct (bio_only_fields _ _ O) as (_ & _ & -> & _). done.
Qed.

(** Recovery installs the committed transaction, if there is one; a crash at
    any point leaves a disk from which recovery gives the same file system. *)
Lemma recover_spec s D V :
  rep s D V [] ∅ -> l_start (k_log s) = st -> l_size (k_log s) = nlog -> l_dev (k_log s) = dev ->
  length (lh_block (k_log s)) = Z.to_nat LOGSIZE -> head_ok (D st) ->
  exists s' D' V', recover_from_log s = Ok tt s' /\ log_only s s' /\
    steps (fun A => recovers_to A (recovered D)) s s' D D' /\ rep s' D' V' [] ∅ /\ log_at s' [] /\
    head_is (D' st) [] /\ home_eq D' (recovered D) /\
    l_outstanding (k_log s') = l_outstanding (k_log s) /\ l_committing (k_log s') = l_committing (k_log s).
Proof.
  intros Hr0 Es Ez Edev Hlen Hok. unfold recover_from_log.
  assert (Hr : rep s D D [] ∅).
  { eapply bl_ext; [exact Hr0|done|]. intros bn. symmetry. apply (bl_clean _ _ _ _ _ bn Hr0); set_solver. }
  destruct (read_head_spec s D D ∅ Hr) as (s1 & E1 & O1 & K1 & Hr1 & Hl1 & Eo & Ec); [set_solver|apply size_none|done..|].
  rewrite (bind_Ok _ _ _ _ _ E1). set (blks := hdr (D st)) in *. pose proof (proj2 Hok : txn_ok blks) as Ht.
  assert (Hh : head_is (D st) blks) by (split; [exact (hdr_count _ (proj1 Hok))|done]).
  assert (Hins : forall k, (k <= length blks)%nat ->
    recovers_to (upds (fun j => blks !!! j) (fun j => D (slot j)) k D) (recovered D)).
  { intros k Hk. apply recovers_installing; [done..| |].
    - intros i b Hi. rewrite (recovered_in D i b); [done|apply Ht|done].
    - intros bn _ Hn. by rewrite recovered_out. }
  destruct (install_trans_spec (fun A => recovers_to A (recovered D)) s1 D D blks true Hr1 Hl1 Ht Hins)
    as (s2 & E2 & O2 & S2 & Hr2).
  rewrite (bind_Ok _ _ _ _ _ E2), bind_modify. set (D2 := upds _ _ _ D) in *.
  assert (Hrec2 : recovers_to D2 (recovered D)) by by apply Hins.
  destruct (clear_head s2 D2 _ (recovered D) blks Hr2) as (s3 & D3 & V3 & E3 & O3 & S3 & Hr3 & Hl3 & Hh3 & He3 & _ & El3).
  { by eapply log_at_bio. }
  { intros bn Hbn. destruct (decide (bn ∈ blks)) as [[i Hi]%list_elem_of_lookup|Hn].
    - rewrite (recovered_in D i bn) by (apply Ht || done). unfold D2. by rewrite (installed_in _ _ _ i) by (apply Ht || done).
    - rewrite recovered_out by done. unfold D2. by rewrite installed_out. }
  { done. }
  exists s3, D3, V3. split; [done|]. split.
  { eapply log_only_trans; [exact O1|]. eapply log_only_trans; [apply bio_log_only; exact O2|exact O3]. }
  split; [|split; [done|split; [done|split; [done|split; [done|]]]]].
  - eapply steps_trans; [apply _| |exact S3]. eapply steps_trans; [apply _| |exact S2].
    apply steps_quiet; [done|]. apply (Hins 0%nat). lia.
  - rewrite El3. destruct (bio_only_fields _ _ O2) as (_ & _ & El2 & _). cbn. rewrite El2. done.
Qed.

(** Writing the log before the commit point leaves the file system as it was. *)
Lemma recovers_logging D blks val k :
  head_is (D st) [] -> txn_ok blks -> (k <= length blks)%nat -> recovers_to (upds slot val k D) D.
Proof.
  intros Hh Ht Hk. pose proof (tx_len _ Ht) as Hlen. apply recovers_done.
  - rewrite upds_out; [done|]. intros i Hi. unfold slot. lia.
  - intros bn Hbn. rewrite upds_out; [done|]. intros i Hi <-. apply Hbn, inlog_slot. lia.
Qed.

(** The first half of a commit, up to the write of the header. *)
Lemma commit_point s D V blks :
  rep s D V [] (list_to_set blks) -> log_at s blks -> txn_ok blks -> head_is (D st) [] ->
  exists s' D' V', (write_log ;;; write_head) s = Ok tt s' /\ bio_only s s' /\
    steps (fun A => recovers_to A D \/ recovers_to A V) s s' D D' /\
    rep s' D' V' [] (list_to_set blks) /\ head_is (D' st) blks /\
    (forall i b, blks !! i = Some b -> D' (slot i) = V b /\ V' (slot i) = V b) /\
    (forall bn, ~ inlog bn -> D' bn = D bn /\ V' bn = V bn).
Proof.
  intros Hr Hl Ht Hh. pose proof (tx_len _ Ht) as Hlen.
  destruct (write_log_spec (fun A => recovers_to A D \/ recovers_to A V) s D V blks Hr Hl Ht) as (s1 & E1 & O1 & S1 & Hr1).
  { intros k Hk. left. by apply recovers_logging with blks. }
  rewrite (bind_Ok _ _ _ _ _ E1). set (D1 := upds _ _ _ D) in *. set (V1 := upds _ _ _ V) in *.
  assert (Hslot : forall A i b, blks !! i = Some b -> upds slot (fun j => V (blks !!! j)) (length blks) A (slot i) = V b).
  { intros A i b Hi. rewrite upds_in; [by rewrite (txn_lookup _ _ _ Hi)|by eapply lookup_lt_Some|].
    intros j Hj. unfold slot. lia. }
  assert (Hhome : forall A bn, ~ inlog bn -> upds slot (fun j => V (blks !!! j)) (length blks) A bn = A bn).
  { intros A bn Hbn. apply upds_out. intros i Hi <-. apply Hbn, inlog_slot. lia. }
  destruct (write_head_spec s1 D1 V1 (list_to_set blks) blks Hr1) as (s2 & d & d' & E2 & O2 & W2 & Ed & Hd & Hr2).
  { rewrite elem_of_list_to_set. intros Hin. destruct (tx_home _ Ht st Hin). lg_lia. }
  { by apply (txn_size blks 0). } { by eapply log_at_bio. } { done. } { intros b Hb. apply (tx_home _ Ht b Hb). }
  exists s2, (vupd D1 st d), (vupd V1 st d). split; [done|]. split; [by eapply bio_only_trans|].
  assert (Hs : forall (A : blocks) i, vupd A st d (slot i) = A (slot i)) by (intros A i; apply vupd_ne; unfold slot; lia).
  assert (Hn : forall (A : blocks) bn, ~ inlog bn -> vupd A st d bn = A bn) by (intros A bn Hbn; apply vupd_ne; lg_lia).
  split.
  - eapply steps_trans; [apply _|exact S1|]. eapply steps_write; [apply _|exact W2|done|left; by apply recovers_logging with blks|].
    right. apply (recovers_installing (vupd D1 st d) V blks (fun _ => ∅) 0); [by rewrite vupd_eq|done|lia| |].
    + intros i b Hi. rewrite Hs. unfold D1. by rewrite (Hslot _ i b).
    + intros bn Hbn Hnb. rewrite Hn by done. unfold D1. rewrite Hhome by done.
      apply (bl_clean _ _ _ _ _ bn Hr); [apply not_elem_of_nil|by rewrite elem_of_list_to_set].
  - split; [done|]. split; [by rewrite vupd_eq|]. split.
    + intros i b Hi. rewrite !Hs. unfold D1, V1. by rewrite !(Hslot _ i b).
    + intros bn Hbn. rewrite !Hn by done. unfold D1, V1. by rewrite !Hhome.
Qed.

Lemma installed_home D V D2 V2 blks P s :
  rep s D V [] P -> P = list_to_set blks -> txn_ok blks ->
  (forall i b, blks !! i = Some b -> D2 (slot i) = V b /\ V2 (slot i) = V b) ->
  (forall bn, ~ inlog bn -> D2 bn = D bn /\ V2 bn = V bn) ->
  let ins := upds (fun j => blks !!! j) (fun j => V2 (slot j)) (length blks) in
  home_eq (ins D2) V /\ home_eq (ins V2) V.
Proof.
  intros Hr -> Ht Hs Hn ins.
  assert (Hin : forall A bn, bn ∈ blks -> beq (ins A bn) (V bn)).
  { intros A bn [i Hi]%list_elem_of_lookup. unfold ins. rewrite (installed_in _ _ _ i) by (apply Ht || done).
    by rewrite (proj2 (Hs i bn Hi)). }
  split; intros bn Hbn; destruct (decide (bn ∈ blks)) as [H|H]; try by apply Hin.
  - unfold ins. rewrite installed_out by done. rewrite (proj1 (Hn bn Hbn)).
    apply (bl_clean _ _ _ _ _ bn Hr); [apply not_elem_of_nil|by rewrite elem_of_list_to_set].
  - unfold ins. rewrite installed_out by done. by rewrite (proj2 (Hn bn Hbn)).
Qed.

(** A commit moves the file system on disk from [D] to [V] at once. *)
Lemma commit_spec s D V blks :
  rep s D V [] (list_to_set blks) -> log_at s blks -> txn_ok blks -> head_is (D st) [] ->
  exists s' D' V', commit s = Ok tt s' /\ log_only s s' /\
    steps (fun A => recovers_to A D \/ recovers_to A V) s s' D D' /\
    rep s' D' V' [] ∅ /\ log_at s' [] /\ head_is (D' st) [] /\ home_eq D' V /\ home_eq V' V /\
    k_log s' = set_lh_n 0 (k_log s).
Proof.
  intros Hr Hl Ht Hh. unfold commit. rewrite bind_gets, (la_n _ _ Hl). destruct (Z.gtb_spec (Z.of_nat (length blks)) 0) as [Hpos|Hzero]; cbn [when].
  2: { destruct blks; [|cbn in Hzero; lia]. exists s, D, V. split; [done|]. split; [apply bio_log_only, bio_only_refl|].
    assert (He : home_eq D V) by (intros bn _; apply (bl_clean _ _ _ _ _ bn Hr); [apply not_elem_of_nil|set_solver]).
    split; [apply steps_quiet; [done|left; by apply recovers_done]|]. split_and!; try done.
    pose proof (la_n _ _ Hl). cbn in *. by destruct (k_log s); cbn in *; subst. }
  destruct (commit_point s D V blks Hr Hl Ht Hh) as (s2 & D2 & V2 & E2 & O2 & S2 & Hr2 & Hh2 & Hs2 & Hn2).
  rewrite <- bind_assoc, (bind_Ok _ _ _ _ _ E2).
  assert (Hins : forall k, (k <= length blks)%nat -> recovers_to (upds (fun j => blks !!! j) (fun j => V2 (slot j)) k D2) V).
  { intros k Hk. apply recovers_installing; [done..| |].
    - intros i b Hi. by rewrite (proj1 (Hs2 i b Hi)).
    - intros bn Hbn Hn. rewrite (proj1 (Hn2 bn Hbn)).
      apply (bl_clean _ _ _ _ _ bn Hr); [apply not_elem_of_nil|by rewrite elem_of_list_to_set]. }
  destruct (install_trans_spec (fun A => recovers_to A V) s2 D2 V2 blks false Hr2 (log_at_bio _ _ _ O2 Hl) Ht Hins)
    as (s3 & E3 & O3 & S3 & Hr3).
  rewrite (bind_Ok _ _ _ _ _ E3), bind_modify. set (D3 := upds _ _ _ D2) in *. set (V3 := upds _ _ _ V2) in *.
  assert (He : home_eq D3 V /\ home_eq V3 V) by (apply (installed_home D V D2 V2 blks (list_to_set blks) s); done).
  destruct (clear_head s3 D3 V3 V blks Hr3) as (s4 & D4 & V4 & E4 & O4 & S4 & Hr4 & Hl4 & Hh4 & He4 & HV4 & El4).
  { eapply log_at_bio; [exact O3|]. by eapply log_at_bio. } { apply He. } { by apply Hins. }
  exists s4, D4, V4. split; [done|]. split.
  { do 2 (eapply log_only_trans; [apply bio_log_only; eassumption|]). done. }
  split.
  { eapply steps_trans; [apply _|exact S2|]. eapply steps_weaken; [intros A HA; right; exact HA|].
    eapply steps_trans; [apply _|exact S3|exact S4]. }
  split_and!; [done|done|done|done| |].
  - intros bn Hbn. rewrite HV4 by lg_lia. by apply He.
  - rewrite El4. destruct (bio_only_fields _ _ O3) as (_ & _ & -> & _). by destruct (bio_only_fields _ _ O2) as (_ & _ & -> & _).
Qed.
End Log.
