(* ===== verification/Txn.v ===== *)
(** Transactions: what [begin_op], [log_write] and [end_op] do, the atomicity
    of a transaction across crashes, and the reservation of log space. *)
From S2P Require Import Prelude State Kstring Locks Sched Sleeplock Bio BioList BioSpec BlockLayer Log LogSpec.

(** * begin_op *)

Definition log_full (l : log) : bool :=
  l_committing l || (lh_n l + (l_outstanding l + 1) * MAXOPBLOCKS >? LOGSIZE).

Lemma begin_op_spec s i :
  k_cur s = Some i -> k_held s = [] -> (i < length (k_procs s))%nat ->
  begin_op s = if log_full (k_log s) then Block ChLog (set_k_cur None (upd_proc i (asleep ChLog) s))
               else Ok tt (upd_log (set_l_outstanding (l_outstanding (k_log s) + 1)) s).
Proof.
  intros Ec Eh Hi. unfold begin_op, log_full.
  erewrite (bind_Ok (acquire _)) by (apply acquire_Ok; rewrite Eh; apply not_elem_of_nil).
  rewrite bind_gets. cbn [k_log set_k_held].
  assert (Es : sleep ChLog LkLog (set_k_held (LkLog :: k_held s) s) =
    Block ChLog (set_k_cur None (upd_proc i (asleep ChLog) s))).
  { rewrite (sleep_spec ChLog LkLog _ i); [|done|by rewrite Eh|done|done]. destruct s; cbn in *. by subst. }
  destruct (l_committing (k_log s)); [exact Es|]. cbn [orb].
  destruct (_ >? LOGSIZE); [exact Es|]. rewrite bind_modify.
  erewrite release_Ok; [|reflexivity|rewrite Eh; apply not_elem_of_nil]. destruct s; cbn in *. by subst.
Qed.

(** * log_write *)

Definition absorb (blks : list Z) (bn : Z) : list Z := if bool_decide (bn ∈ blks) then blks else blks ++ [bn].

(** The search loop, on the list of logged blocks. *)
Lemma find_logged_spec (s : kstate) (blks : list Z) bn :
  (forall i b, blks !! i = Some b -> lh_block (k_log s) !! i = Some b) ->
  (forall b, b ∈ blks -> 0 <= b < 2 ^ 31) ->
  match list_find (fun b => b = bn) blks with
  | Some (i, _) => find_logged (length blks) 0 bn s = Z.of_nat i
  | None => find_logged (length blks) 0 bn s = Z.of_nat (length blks)
  end.
Proof.
  intros Hblk Hr.
  assert (H : forall n k, (k + n = length blks)%nat -> bn ∉ take k blks ->
    match list_find (fun b => b = bn) blks with
    | Some (i, _) => find_logged n (Z.of_nat k) bn s = Z.of_nat i
    | None => find_logged n (Z.of_nat k) bn s = Z.of_nat (length blks)
    end); [|apply (H (length blks) 0%nat); [lia|rewrite take_0; apply not_elem_of_nil]].
  induction n as [|n IH]; intros k Hk Hn; cbn [find_logged].
  - rewrite take_ge in Hn by lia. destruct (list_find _ _) as [[i b]|] eqn:E; [|f_equal; lia].
    apply list_find_Some in E as (E & -> & _). by apply list_elem_of_lookup_2 in E.
  - destruct (lookup_lt_is_Some_2 blks k) as [b Eb]; [lia|].
    assert (Elh : lh_at (Z.of_nat k) s = b) by (unfold lh_at; by rewrite Nat2Z.id, (Hblk k b Eb)).
    rewrite Elh, u32_small by (specialize (Hr b ltac:(by eapply list_elem_of_lookup_2)); lia).
    destruct (Z.eqb_spec b bn) as [->|Hne].
    + assert (list_find (fun b => b = bn) blks = Some (k, bn)) as ->; [|done].
      apply list_find_Some. split_and!; [done|done|]. intros j y Hj Hlt ->. apply Hn.
      apply list_elem_of_lookup_2 with j. by rewrite lookup_take_lt.
    + replace (Z.of_nat k + 1) with (Z.of_nat (S k)) by lia. apply IH; [lia|].
      rewrite (take_S_r _ _ _ Eb), elem_of_app, list_elem_of_singleton. intros [?|?]; [done|congruence].
Qed.

Lemma log_write_too_big b s :
  LkLog ∉ k_held s -> lh_n (k_log s) >= LOGSIZE \/ lh_n (k_log s) >= l_size (k_log s) - 1 ->
  log_write b s = Panic "too big a transaction".
Proof.
  intros Hh Hn. unfold log_write. erewrite (bind_Ok (acquire _)) by (by apply acquire_Ok). rewrite bind_gets.
  cbn [k_log set_k_held].
  assert ((lh_n (k_log s) >=? LOGSIZE) || (lh_n (k_log s) >=? l_size (k_log s) - 1) = true) as ->; [|done].
  apply orb_true_iff. rewrite !Z.geb_le. lia.
Qed.

Section Txn.
Context (dev pid : Z) (rep : bstate_rel) `{!BlockLayer dev pid rep} (st nlog : Z).
Hypothesis Hgeom : log_geom dev st nlog.

Lemma log_at_absorb s blks bn :
  log_at dev st nlog s blks -> 0 <= bn < 2 ^ 31 -> Z.of_nat (length blks) < LOGSIZE -> bn ∉ blks ->
  let l := k_log s in
  log_at dev st nlog (set_k_log (set_lh_n (Z.of_nat (length blks) + 1) (set_lh_block (<[length blks := bn]> (lh_block l)) l)) s)
    (blks ++ [bn]).
Proof.
  intros [? ? ? ? Hlen Hb] Hbn Hlt Hn l. split; cbn; try done.
  - rewrite length_app. cbn. lia.
  - by rewrite length_insert.
  - intros i b Hi. apply lookup_app_Some in Hi as [Hi|[Hge Hi]].
    + pose proof (lookup_lt_Some _ _ _ Hi). rewrite list_lookup_insert_ne by lia. by apply Hb.
    + apply list_lookup_singleton_Some in Hi as [Ei <-]. assert (i = length blks) as -> by lia.
      apply list_lookup_insert_eq. subst l. rewrite Hlen. lia.
Qed.

Section Write.
Context (s : kstate) (D V : blocks) (L : list (nat * Z)) (blks : list Z) (b : nat) (bn : Z).
Hypothesis Hr : rep s D V L (list_to_set blks).
Hypothesis Hl : log_at dev st nlog s blks.
Hypothesis Ht : txn_ok st nlog blks.
Hypothesis Hin : (b, bn) ∈ L.
Hypothesis Hbn : 0 <= bn < 2 ^ 31.
Hypothesis Hlt : Z.of_nat (length blks) < nlog - 1.

(** log_write after its checks. *)
Lemma log_write_enter :
  1 <= l_outstanding (k_log s) ->
  log_write b s =
  (let i := default (length blks) (fst <$> list_find (fun b => b = bn) blks) in
   modify (upd_log (fun l => set_lh_block (<[i := bn]> (lh_block l)) l)) ;;;
   when (bool_decide (i = length blks)) (bpin b ;;; modify (upd_log (fun l => set_lh_n (lh_n l + 1) l))) ;;;
   release LkLog) (set_k_held [LkLog] s).
Proof.
  intros Hout. pose proof (ru_held _ _ (bl_running _ _ _ _ _ Hr)) as Hh.
  pose proof (lg_size _ _ _ Hgeom) as Hsz. unfold log_write.
  erewrite (bind_Ok (acquire _)) by (apply acquire_Ok; rewrite Hh; apply not_elem_of_nil). rewrite bind_gets, Hh.
  cbn [k_log set_k_held]. rewrite (la_n _ _ _ _ _ Hl), (la_size _ _ _ _ _ Hl).
  assert ((Z.of_nat (length blks) >=? LOGSIZE) || (Z.of_nat (length blks) >=? nlog - 1) = false) as ->
    by (apply orb_false_iff; rewrite !Z.geb_leb, !Z.leb_gt; lia).
  rewrite (proj2 (Z.ltb_ge _ _)) by lia. rewrite bind_gets.
  destruct (bl_locked _ _ _ _ _ _ _ Hr Hin) as (Ebn & _).
  change (get_buf b (set_k_held [LkLog] s)) with (get_buf b s). rewrite Ebn, bind_gets, Nat2Z.id.
  pose proof (find_logged_spec (set_k_held [LkLog] s) blks bn (la_blk _ _ _ _ _ Hl)
    (fun x Hx => proj1 (tx_home _ _ _ Ht x Hx))) as Hf.
  rewrite i32_small by lia. cbv zeta. set (i := default _ _).
  assert (Ef : find_logged (length blks) 0 bn (set_k_held [LkLog] s) = Z.of_nat i /\ (i <= length blks)%nat).
  { unfold i. destruct (list_find _ blks) as [[j x]|] eqn:E; cbn; [|done]. split; [done|].
    apply list_find_Some in E as (E & _). apply lookup_lt_Some in E. lia. }
  destruct Ef as [-> Hi]. unfold set_lh_at. rewrite (proj2 (Z.leb_le _ _)), (proj2 (Z.ltb_lt _ _)) by lia. cbn [andb]. rewrite Nat2Z.id.
  assert (Z.of_nat i =? Z.of_nat (length blks) = bool_decide (i = length blks)) as ->; [|done].
  case_bool_decide; [by apply Z.eqb_eq; f_equal|apply Z.eqb_neq; lia].
Qed.

Lemma log_write_absorbed :
  1 <= l_outstanding (k_log s) -> bn ∈ blks -> log_write b s = Ok tt s.
Proof.
  intros Hout Hb. pose proof (ru_held _ _ (bl_running _ _ _ _ _ Hr)) as Hh. rewrite log_write_enter by done.
  destruct (list_find (fun b => b = bn) blks) as [[i x]|] eqn:E.
  2: { apply list_find_None in E. rewrite Forall_forall in E. by destruct (E bn). }
  apply list_find_Some in E as (Ei & -> & _). pose proof (lookup_lt_Some _ _ _ Ei). cbv zeta. cbn [fmap option_fmap option_map from_option fst id].
  rewrite bind_modify, bool_decide_eq_false_2 by lia. cbn [when]. rewrite bind_ret.
  erewrite release_Ok; [|reflexivity|apply not_elem_of_nil].
  unfold upd_log. cbn. rewrite list_insert_id by by apply (la_blk _ _ _ _ _ Hl). f_equal.
  destruct s as [? ? ? ? ? ? ? ? ? ? ? [] ? ? ? ? ?]; cbn in *. by subst.
Qed.

Lemma log_write_new :
  1 <= l_outstanding (k_log s) -> bn ∉ blks ->
  exists s', log_write b s = Ok tt s' /\ log_only s s' /\ k_disk s' = k_disk s /\
    rep s' D V L (list_to_set (blks ++ [bn])) /\
    k_log s' = set_lh_n (Z.of_nat (length blks) + 1) (set_lh_block (<[length blks := bn]> (lh_block (k_log s))) (k_log s)).
Proof.
  intros Hout Hn. pose proof (ru_held _ _ (bl_running _ _ _ _ _ Hr)) as Hh. rewrite log_write_enter by done.
  rewrite (proj2 (list_find_None _ _)) by (apply Forall_forall; intros x Hx ->; done). cbv zeta. cbn [fmap option_fmap option_map from_option].
  rewrite bind_modify, bool_decide_eq_true_2 by done. cbn [when]. rewrite bind_assoc.
  set (s1 := upd_log (fun l => set_lh_block (<[length blks := bn]> (lh_block l)) l) s).
  destruct (bl_bpin s1 D V L (list_to_set blks) b bn [LkLog]) as (s2 & E2 & O2 & K2 & Hr2);
    [by apply (rep_log dev pid)|done|by rewrite elem_of_list_to_set|set_solver|].
  change (upd_log _ (set_k_held [LkLog] s)) with (set_k_held [LkLog] s1).
  rewrite (bind_Ok _ _ _ _ _ E2), bind_modify. erewrite release_Ok; [|reflexivity|apply not_elem_of_nil].
  destruct (bio_only_fields _ _ O2) as (Eh2 & _ & El2 & _). cbn in Eh2. rewrite Hh in Eh2.
  exists (upd_log (fun l => set_lh_n (lh_n l + 1) l) s2). split; [|split; [|split; [|split]]].
  - f_equal. destruct s2; cbn in *. by subst.
  - eapply log_only_trans; [apply (upd_log_only s)|]. eapply log_only_trans; [apply bio_log_only; exact O2|]. apply upd_log_only.
  - done.
  - assert (EP : list_to_set (blks ++ [bn]) = ({[bn]} ∪ list_to_set blks : gset Z)) by set_solver.
    rewrite EP. by apply (rep_log dev pid).
  - cbn. rewrite El2. cbn. by rewrite (la_n _ _ _ _ _ Hl).
Qed.

Lemma txn_absorb : ~ inlog st nlog bn -> txn_ok st nlog (absorb blks bn).
Proof.
  intros Hout. unfold absorb. case_bool_decide as Hb; [done|]. destruct Ht as [Hnd Hhome Hlen]. split.
  - apply NoDup_app. split; [done|]. split; [set_solver|apply NoDup_singleton].
  - intros x [Hx|Hx]%elem_of_app; [by apply Hhome|]. apply list_elem_of_singleton in Hx as ->. done.
  - rewrite length_app. cbn. lia.
Qed.

Lemma log_write_spec :
  1 <= l_outstanding (k_log s) ->
  exists s', log_write b s = Ok tt s' /\ log_only s s' /\ k_disk s' = k_disk s /\
    rep s' D V L (list_to_set (absorb blks bn)) /\ log_at dev st nlog s' (absorb blks bn) /\
    l_outstanding (k_log s') = l_outstanding (k_log s) /\ l_committing (k_log s') = l_committing (k_log s).
Proof.
  intros Hout. pose proof (lg_size _ _ _ Hgeom) as Hsz. unfold absorb. case_bool_decide as Hb.
  - exists s. split; [by apply log_write_absorbed|]. split_and!; try done. apply bio_log_only, bio_only_refl.
  - destruct (log_write_new Hout Hb) as (s' & E & O & K & Hr' & El). exists s'. split_and!; try done; [|by rewrite El..].
    assert (Hl' := log_at_absorb s blks bn Hl Hbn ltac:(lia) Hb). cbv zeta in Hl'. rewrite <- El in Hl'.
    by destruct Hl' as [? ? ? ? ? ?]; split.
Qed.
End Write.

(** The way the file system changes a block. *)
Lemma write_block_spec s D V blks bn d :
  rep s D V [] (list_to_set blks) -> log_at dev st nlog s blks -> txn_ok st nlog blks ->
  0 <= bn < 2 ^ 31 -> Z.of_nat (length blks) < nlog - 1 -> 1 <= l_outstanding (k_log s) ->
  exists s', (b <- bread dev bn ;; modify (upd_buf b (set_b_data d)) ;;; log_write b ;;; brelse b) s = Ok tt s' /\
    log_only s s' /\ k_disk s' = k_disk s /\
    rep s' D (vupd V bn d) [] (list_to_set (absorb blks bn)) /\ log_at dev st nlog s' (absorb blks bn) /\
    l_outstanding (k_log s') = l_outstanding (k_log s) /\ l_committing (k_log s') = l_committing (k_log s).
Proof.
  intros Hr Hl Ht Hbn Hlt Hout. pose proof (lg_size _ _ _ Hgeom) as Hsz. pose proof (tx_len _ _ _ Ht).
  destruct (bl_bread s D V [] _ bn Hr) as (b & s2 & E2 & O2 & K2 & Hr2); [apply not_elem_of_nil| |].
  { right. cbn [length]. rewrite size_list_to_set by apply Ht. change bhead with (Z.to_nat LOGSIZE). lia. }
  rewrite (bind_Ok _ _ _ _ _ E2), bind_modify. assert (Hin : (b, bn) ∈ [(b, bn)]) by apply list_elem_of_here.
  pose proof (bl_store s2 _ _ _ _ b bn d Hr2 Hin) as Hr3. destruct (bio_only_fields _ _ O2) as (_ & _ & El & _).
  assert (O3 : bio_only s (upd_buf b (set_b_data d) s2)) by (eapply bio_only_trans; [exact O2|apply bio_only_bufs]).
  destruct (log_write_spec _ _ _ _ blks b bn Hr3 (log_at_bio _ _ _ _ _ _ O3 Hl) Ht Hin Hbn Hlt)
    as (s4 & E4 & O4 & K4 & Hr4 & Hl4 & Eo & Ec); [cbn; by rewrite El|].
  rewrite (bind_Ok _ _ _ _ _ E4).
  destruct (bl_brelse s4 _ _ [] [] _ b bn Hr4) as (s5 & E5 & O5 & K5 & Hr5).
  { left. apply elem_of_list_to_set. unfold absorb. case_bool_decide; set_solver. }
  exists s5. split; [done|]. split.
  { eapply log_only_trans; [apply bio_log_only; exact O3|]. eapply log_only_trans; [exact O4|by apply bio_log_only]. }
  split; [rewrite K5, K4; exact K2|]. split; [exact Hr5|]. split; [by eapply log_at_bio|].
  destruct (bio_only_fields _ _ O5) as (_ & _ & El5 & _). rewrite El5, Eo, Ec. cbn. by rewrite El.
Qed.

(** * end_op *)

Definition wake_log (s : kstate) : kstate := set_k_procs (imap (woken (k_cur s) ChLog) (k_procs s)) s.

Lemma wakeup_log s h :
  k_held s = [] -> length (k_procs s) = Z.to_nat NPROC -> h = LkLog ->
  wakeup ChLog (set_k_held [h] s) = Ok tt (set_k_held [h] (wake_log s)).
Proof.
  intros Hh Hl ->. rewrite wakeup_spec; [by destruct s|cbn; intros i; set_solver|done].
Qed.

(** An operation that is not the last one only gives back its reservation. *)
Lemma end_op_not_last s :
  k_held s = [] -> length (k_procs s) = Z.to_nat NPROC ->
  l_committing (k_log s) = false -> l_outstanding (k_log s) <> 1 ->
  end_op s = Ok tt (wake_log (upd_log (fun l => set_l_outstanding (l_outstanding l - 1) l) s)).
Proof.
  intros Hh Hl Hc Ho. unfold end_op.
  erewrite (bind_Ok (acquire _)) by (apply acquire_Ok; rewrite Hh; apply not_elem_of_nil). rewrite bind_modify, bind_gets.
  cbn [k_log upd_log set_k_log set_k_held l_committing l_outstanding set_l_outstanding]. rewrite Hc, Hh.
  rewrite (proj2 (Z.eqb_neq _ _)) by lia. rewrite bind_assoc.
  change (upd_log ?f (set_k_held [LkLog] s)) with (set_k_held [LkLog] (upd_log f s)).
  rewrite (bind_Ok _ _ _ _ _ (wakeup_log (upd_log (fun l => set_l_outstanding (l_outstanding l - 1) l) s) LkLog Hh Hl eq_refl)).
  rewrite bind_ret. erewrite (bind_Ok (release _)) by (apply release_Ok; [reflexivity|apply not_elem_of_nil]).
  cbn [when]. unfold ret. f_equal. destruct s; cbn in *. by subst.
Qed.

Lemma end_op_commits s :
  k_held s = [] -> l_committing (k_log s) = false -> l_outstanding (k_log s) = 1 ->
  end_op s = (commit ;;; acquire LkLog ;;; modify (upd_log (set_l_committing false)) ;;; wakeup ChLog ;;; release LkLog)
    (upd_log (fun l => set_l_committing true (set_l_outstanding 0 l)) s).
Proof.
  intros Hh Hc Ho. unfold end_op.
  erewrite (bind_Ok (acquire _)) by (apply acquire_Ok; rewrite Hh; apply not_elem_of_nil). rewrite bind_modify, bind_gets.
  cbn [k_log upd_log set_k_log set_k_held l_committing l_outstanding set_l_outstanding]. rewrite Hc, Hh, Ho.
  change (1 - 1 =? 0) with true. cbv iota. rewrite bind_assoc, bind_modify, bind_ret.
  erewrite (bind_Ok (release _)) by (apply release_Ok; [reflexivity|apply not_elem_of_nil]). cbn [when]. f_equal.
  destruct s as [? ? ? ? ? ? ? ? ? ? ? [] ? ? ? ? ?]; cbn in *. by subst.
Qed.

(** The tail of end_op, after the commit. *)
Lemma end_op_tail s :
  k_held s = [] -> length (k_procs s) = Z.to_nat NPROC ->
  (acquire LkLog ;;; modify (upd_log (set_l_committing false)) ;;; wakeup ChLog ;;; release LkLog) s =
  Ok tt (wake_log (upd_log (set_l_committing false) s)).
Proof.
  intros Hh Hl. erewrite (bind_Ok (acquire _)) by (apply acquire_Ok; rewrite Hh; apply not_elem_of_nil).
  rewrite bind_modify, Hh. change (upd_log ?f (set_k_held [LkLog] s)) with (set_k_held [LkLog] (upd_log f s)).
  rewrite (bind_Ok _ _ _ _ _ (wakeup_log (upd_log (set_l_committing false) s) LkLog Hh Hl eq_refl)).
  erewrite release_Ok; [|reflexivity|apply not_elem_of_nil]. f_equal. destruct s; cbn in *. by subst.
Qed.

Lemma steps_frame Q s1 s2 s1' s2' D D' :
  k_disk s1' = k_disk s1 -> k_disk s2' = k_disk s2 -> steps Q s1 s2 D D' -> steps Q s1' s2' D D'.
Proof. intros E1 E2 (W & Hw & ?). exists W. split; [|done]. unfold wrote in *. by rewrite E1, E2. Qed.

Lemma end_op_last s D V blks :
  rep s D V [] (list_to_set blks) -> log_at dev st nlog s blks -> txn_ok st nlog blks -> head_is (D st) [] ->
  l_committing (k_log s) = false -> l_outstanding (k_log s) = 1 ->
  exists s' D' V', end_op s = Ok tt s' /\ log_only s s' /\
    steps (fun A => recovers_to st nlog A D \/ recovers_to st nlog A V) s s' D D' /\
    rep s' D' V' [] ∅ /\ log_at dev st nlog s' [] /\ head_is (D' st) [] /\
    home_eq st nlog D' V /\ home_eq st nlog V' V /\
    l_committing (k_log s') = false /\ l_outstanding (k_log s') = 0.
Proof.
  intros Hr Hl Ht Hh Hc Ho. pose proof (bl_running _ _ _ _ _ Hr) as [Hheld Hlen _].
  rewrite end_op_commits by done. set (s0 := upd_log _ s).
  destruct (commit_spec dev pid rep st nlog Hgeom s0 D V blks) as (s1 & D1 & V1 & E1 & O1 & S1 & Hr1 & Hl1 & Hh1 & HD & HV & El).
  { by apply (rep_log dev pid). } { by destruct Hl; split. } { done. } { done. }
  rewrite (bind_Ok _ _ _ _ _ E1). pose proof (bl_running _ _ _ _ _ Hr1) as Hrun1. destruct Hrun1 as [Hheld1 Hlen1 Hcur1].
  rewrite end_op_tail by done. set (s2 := upd_log (set_l_committing false) s1).
  assert (Ow : bio_only s2 (wake_log s2)) by apply (bio_only_wake s2).
  exists (wake_log s2), D1, V1. split; [done|]. split.
  { eapply log_only_trans; [apply (upd_log_only s)|]. eapply log_only_trans; [exact O1|].
    eapply log_only_trans; [apply (upd_log_only s1)|]. by apply bio_log_only. }
  split; [by eapply steps_frame; [| |exact S1]|]. split.
  { assert (Hr2 : rep s2 D1 V1 [] ∅) by by apply (rep_log dev pid).
    eapply bl_frame; [exact Hr2|done|done|].
    eapply running_bio; [exact Ow|]. by split. }
  split; [by destruct Hl1; split|]. split_and!; try done. cbn. rewrite El. done.
Qed.
End Txn.
