(* ===== verification/Boot.v ===== *)
(** Booting the block layer: [binit] leaves a cache that holds nothing, so the
    running process sees the disk.  A small booted machine, for evaluating the
    file system's routines. *)
From S2P Require Import Prelude State Kstring Locks Sched Sleeplock Bio BioList BioSpec BlockLayer Log LogSpec.

(** The buffers that [binit] makes of the zeroed [bcache]. *)
Definition booted_bufs : list buf :=
  match binit kstate0 with Ok _ s => k_bufs s | _ => [] end.

Lemma binit_result s : k_bufs s = k_bufs kstate0 -> binit s = Ok tt (set_k_bufs booted_bufs s).
Proof. intros E. destruct s. cbn in E. subst. vm_compute. reflexivity. Qed.

Lemma booted_list : blist booted_bufs (rev (seq 0 bhead)).
Proof.
  split; [by vm_compute|by rewrite <- Permutation_rev|vm_compute; tauto|vm_compute; tauto].
Qed.

Lemma booted_cb i : (i < bhead)%nat -> cb booted_bufs i = buf0.
Proof.
  intros Hi. assert (H : Forall (fun i => cb booted_bufs i = buf0) (seq 0 bhead)) by (vm_compute; repeat constructor).
  rewrite Forall_forall in H. apply H. apply elem_of_seq. lia.
Qed.

Definition disk_of (s : kstate) : blocks := fun bn => disk_block bn s.

(** After [binit] the process reads what is on the disk. *)
Lemma booted_brep dev pid s :
  dev <> 0 -> running s pid -> k_bufs s = booted_bufs -> brep dev pid s (disk_of s) (disk_of s) [] ∅.
Proof.
  intros Hdev Hrun Eb. split; [done|rewrite Eb; eexists; apply booted_list|done|]. rewrite Eb.
  eapply (crep_ext _ _ (fun _ => buf0)); [intros i Hi; by rewrite booted_cb|].
  split.
  - intros i j _ _ E. by destruct Hdev.
  - intros i _ E. by destruct Hdev.
  - intros bn _ _. reflexivity.
  - intros b bn Hb. exfalso. exact (proj1 (elem_of_nil _) Hb).
  - constructor.
  - intros i _ _. reflexivity.
  - intros i Hi. unfold holds, pins. rewrite bool_decide_eq_false_2 by apply not_elem_of_nil.
    rewrite bool_decide_eq_false_2 by (intros [E _]; exact (Hdev (eq_sym E))). reflexivity.
  - intros bn Hbn. exfalso. exact (proj1 (elem_of_empty bn) Hbn).
Qed.

(** * A booted machine: process 1 runs, the disk holds [d], and the log of
    [nlog] blocks starts at block 2. *)
Definition demo_proc : proc := set_p_pid 1 (set_p_state RUNNING proc0).
Definition demo_disk (d : gmap Z bytes) : kstate :=
  set_k_bufs booted_bufs (set_k_disk (mk_disk d [])
    (set_k_procs (<[0%nat := demo_proc]> (k_procs kstate0)) (set_k_cur (Some 0%nat) kstate0))).

Definition demo_sb : superblock := mk_superblock FSMAGIC FSSIZE 1954 200 LOGSIZE 2 32 45.

Lemma demo_running d : running (demo_disk d) 1.
Proof. split; [done|done|]. exists 0%nat. done. Qed.

Lemma demo_brep d : brep ROOTDEV 1 (demo_disk d) (disk_of (demo_disk d)) (disk_of (demo_disk d)) [] ∅.
Proof. apply booted_brep; [done|apply demo_running|done]. Qed.

Lemma demo_geom : log_geom ROOTDEV 2 LOGSIZE.
Proof. split; unfold ROOTDEV, LOGSIZE, MAXOPBLOCKS; lia. Qed.
