(* ===== verification/Crash.v ===== *)
(** Crashes: whenever the machine stops during a commit or a recovery, booting
    it again yields the file system before or after the transaction. *)
From S2P Require Import Prelude State Kstring Locks Sched Sleeplock Bio BioList BioSpec BlockLayer Log LogSpec Txn Boot.

Section Crash.
Context (dev pid st nlog : Z).

(** The machine [t] has just booted with the blocks [D] on its disk: [binit]
    has run, process [pid] runs and calls [fsinit]. *)
Record rebooted (D : blocks) (t : kstate) : Prop := {
  rb_running : running t pid;
  rb_bufs : k_bufs t = booted_bufs;
  rb_disk : deq (disk_of t) D;
  rb_log : k_log t = log0
}.

Definition log_sb (sb : superblock) : Prop := sb_logstart sb = st /\ sb_nlog sb = nlog.

Lemma initlog_enter sb t :
  log_geom dev st nlog -> log_sb sb ->
  initlog dev sb t = recover_from_log (upd_log (fun l => set_l_dev dev (set_l_size nlog (set_l_start st l))) t).
Proof.
  intros [H1 H2 H3 H4] [E1 E2]. unfold initlog. change (sizeof_logheader >=? BSIZE) with false. cbv iota.
  rewrite !bind_modify, E1, E2, !i32_small by (unfold LOGSIZE, MAXOPBLOCKS in *; lia). by destruct t as [? ? ? ? ? ? ? ? ? ? ? [] ? ? ? ? ?].
Qed.

(** [initlog] on a booted machine recovers the file system. *)
Lemma initlog_spec sb D t :
  dev <> 0 -> log_geom dev st nlog -> log_sb sb -> rebooted D t -> head_ok st nlog (D st) ->
  exists t', initlog dev sb t = Ok tt t' /\
    steps (fun A => recovers_to st nlog A (recovered st D)) t t' D (disk_of t') /\
    home_eq st nlog (disk_of t') (recovered st D).
Proof.
  intros Hdev Hg Hsb [Hrun Hb Hd Hl] Hok. rewrite (initlog_enter _ _ Hg Hsb). set (t1 := upd_log _ t).
  assert (Hr : brep dev pid t1 D D [] ∅).
  { eapply (bl_ext (BlockLayer := bio_block_layer dev pid)); [|exact Hd|exact Hd].
    eapply (bl_frame (BlockLayer := bio_block_layer dev pid)); [by apply booted_brep|done|done|].
    destruct Hrun. by split. }
  destruct (recover_spec dev pid (brep dev pid) st nlog Hg t1 D D Hr) as (t' & D' & V' & E & _ & S & Hr' & _ & _ & He & _);
    [done..|by unfold t1; cbn; rewrite Hl|done|].
  assert (Hdisk : deq D' (disk_of t')) by (intros bn; symmetry; apply (br_disk _ _ _ _ _ _ _ Hr')).
  exists t'. split; [done|]. split.
  - eapply steps_ext; [|exact Hdisk]. eapply steps_frame; [| |exact S]; done.
  - intros bn Hbn. rewrite <- (Hdisk bn). by apply He.
Qed.

(** A disk that recovers to [B], in the words of the machine. *)
Lemma recovers_boot sb A B t :
  dev <> 0 -> log_geom dev st nlog -> log_sb sb -> recovers_to st nlog A B -> rebooted A t ->
  exists t', initlog dev sb t = Ok tt t' /\ home_eq st nlog (disk_of t') B.
Proof.
  intros Hdev Hg Hsb [Hok He] Hrb. destruct (initlog_spec sb A t Hdev Hg Hsb Hrb Hok) as (t' & E & _ & He').
  exists t'. split; [done|]. intros bn Hbn. rewrite (He' bn Hbn). by apply He.
Qed.
End Crash.

(** C1: the end of the last operation of a transaction commits it atomically.
    [end_op] returns with the transaction's blocks on disk; and if the machine
    crashes after any number of the writes it makes, then the machine that
    boots from that disk runs [initlog] to the end and has all of the
    transaction or nothing of it in the file system. *)
Theorem end_op_atomic dev pid st nlog sb s V blks :
  dev <> 0 -> log_geom dev st nlog -> log_sb st nlog sb ->
  brep dev pid s (disk_of s) V [] (list_to_set blks) -> log_at dev st nlog s blks -> txn_ok st nlog blks ->
  head_is (disk_of s st) [] -> l_committing (k_log s) = false -> l_outstanding (k_log s) = 1 ->
  exists s' W, end_op s = Ok tt s' /\ wrote s s' W /\ home_eq st nlog (disk_of s') V /\
    brep dev pid s' (disk_of s') (disk_of s') [] ∅ /\
    forall W1 t, W1 `prefix_of` W -> rebooted pid (replay W1 (disk_of s)) t ->
      exists t', initlog dev sb t = Ok tt t' /\
        (home_eq st nlog (disk_of t') (disk_of s) \/ home_eq st nlog (disk_of t') V).
Proof.
  intros Hdev Hg Hsb Hr Hl Ht Hh Hc Ho.
  destruct (end_op_last dev pid (brep dev pid) st nlog Hg s (disk_of s) V blks Hr Hl Ht Hh Hc Ho)
    as (s' & D' & V' & E & _ & (W & Hw & HQ & HD) & Hr' & _ & _ & HDV & _).
  assert (Hdisk : deq D' (disk_of s')) by (intros bn; symmetry; apply (br_disk _ _ _ _ _ _ _ Hr')).
  exists s', W. split_and!; [done|done| | |].
  - intros bn Hbn. rewrite <- (Hdisk bn). by apply HDV.
  - eapply (bl_ext (BlockLayer := bio_block_layer dev pid)); [exact Hr'|exact Hdisk|]. intros bn.
    rewrite <- (Hdisk bn). symmetry. apply (bl_clean _ _ _ _ _ bn Hr'); [apply not_elem_of_nil|set_solver].
  - intros W1 t HW Hrb. destruct (HQ W1 HW) as [Hrec|Hrec];
      destruct (recovers_boot dev pid st nlog sb _ _ t Hdev Hg Hsb Hrec Hrb) as (t' & Et & He); exists t'; split; eauto.
Qed.

(** C2: recovery can itself be interrupted.  [initlog] on a booted machine with
    a valid log header runs to the end and leaves the file system that the log
    describes; after a crash at any of its own writes, the next boot recovers
    that same file system. *)
Theorem recovery_idempotent dev pid st nlog sb D t :
  dev <> 0 -> log_geom dev st nlog -> log_sb st nlog sb -> rebooted pid D t -> head_ok st nlog (D st) ->
  exists t' W, initlog dev sb t = Ok tt t' /\ wrote t t' W /\ home_eq st nlog (disk_of t') (recovered st D) /\
    forall W1 t1, W1 `prefix_of` W -> rebooted pid (replay W1 D) t1 ->
      exists t1', initlog dev sb t1 = Ok tt t1' /\ home_eq st nlog (disk_of t1') (recovered st D).
Proof.
  intros Hdev Hg Hsb Hrb Hok.
  destruct (initlog_spec dev pid st nlog sb D t Hdev Hg Hsb Hrb Hok) as (t' & E & (W & Hw & HQ & _) & He).
  exists t', W. split_and!; [done|done|done|]. intros W1 t1 HW Hrb1.
  exact (recovers_boot dev pid st nlog sb _ _ t1 Hdev Hg Hsb (HQ W1 HW) Hrb1).
Qed.

(** * A transaction that changes block 100 *)

Definition demo_log : kstate :=
  upd_log (fun l => set_l_dev ROOTDEV (set_l_size LOGSIZE (set_l_start 2 l))) (demo_disk ∅).

Definition demo_data : bytes := store8 ∅ 0 42.

Definition demo_write : K unit :=
  begin_op ;;;
  b <- bread ROOTDEV 100 ;;
  modify (upd_buf b (set_b_data demo_data)) ;;;
  log_write b ;;;
  brelse b.

Definition demo_txn : kstate := match demo_write demo_log with Ok _ s => s | _ => kstate0 end.
Definition demo_view : blocks := vupd (disk_of (demo_disk ∅)) 100 demo_data.

Lemma demo_txn_100 : txn_ok 2 LOGSIZE [100].
Proof.
  split; [apply NoDup_singleton| |cbn; unfold LOGSIZE, MAXOPBLOCKS; lia].
  intros b ->%list_elem_of_singleton. unfold inlog, LOGSIZE, MAXOPBLOCKS. lia.
Qed.

Lemma demo_txn_spec :
  brep ROOTDEV 1 demo_txn (disk_of demo_txn) demo_view [] (list_to_set [100]) /\ log_at ROOTDEV 2 LOGSIZE demo_txn [100] /\
  head_is (disk_of demo_txn 2) [] /\ l_committing (k_log demo_txn) = false /\ l_outstanding (k_log demo_txn) = 1.
Proof.
  assert (H : exists s, demo_write demo_log = Ok tt s /\ k_disk s = k_disk demo_log /\
    brep ROOTDEV 1 s (disk_of (demo_disk ∅)) demo_view [] (list_to_set [100]) /\ log_at ROOTDEV 2 LOGSIZE s [100] /\
    l_outstanding (k_log s) = 1 /\ l_committing (k_log s) = false).
  { unfold demo_write. 
    assert (E1 : begin_op demo_log = Ok tt (upd_log (set_l_outstanding 1) demo_log)).
    { etrans; [apply (begin_op_spec demo_log 0); [reflexivity|reflexivity|vm_compute; lia]|reflexivity]. }
    rewrite (bind_Ok _ _ _ _ _ E1).
    set (s1 := upd_log (set_l_outstanding 1) demo_log).
    assert (Hr1 : brep ROOTDEV 1 s1 (disk_of (demo_disk ∅)) (disk_of (demo_disk ∅)) [] (list_to_set []))
      by (do 2 apply (rep_log ROOTDEV 1 (brep ROOTDEV 1)); apply demo_brep).
    destruct (write_block_spec ROOTDEV 1 (brep ROOTDEV 1) 2 LOGSIZE demo_geom s1 _ _ [] 100 demo_data Hr1)
      as (s2 & E2 & _ & K2 & Hr2 & Hl2 & Eo & Ec); [by split|exact (txn_nil ROOTDEV 2 LOGSIZE demo_geom)|lia|cbn; unfold LOGSIZE, MAXOPBLOCKS; lia|cbn; lia|].
    exists s2. split; [exact E2|]. split; [exact K2|]. split; [exact Hr2|]. split; [exact Hl2|]. rewrite Eo, Ec. split; reflexivity. }
  destruct H as (s & E & Ed & Hr & Hl & Eo & Ec). unfold demo_txn. rewrite E.
  assert (Edisk : disk_of s = disk_of (demo_disk ∅)) by (unfold disk_of, disk_block; rewrite Ed; reflexivity).
  rewrite Edisk. split; [exact Hr|]. split; [exact Hl|]. split; [vm_compute; split; reflexivity|]. split; [exact Ec|exact Eo].
Qed.

Lemma demo_rebooted : rebooted 1 (replay [] (disk_of demo_txn)) (demo_disk ∅).
Proof.
  split; [apply demo_running|reflexivity| |reflexivity]. intros bn. cbn [replay foldl]. symmetry.
  etrans; [|apply (br_disk _ _ _ _ _ _ _ (demo_brep ∅))]. symmetry. unfold disk_of.
  assert (E : k_disk demo_txn = k_disk (demo_disk ∅)) by (vm_compute; reflexivity). unfold disk_block. rewrite E. reflexivity.
Qed.

Lemma end_op_atomic_witness :
  exists s' W, end_op demo_txn = Ok tt s' /\ wrote demo_txn s' W /\ home_eq 2 LOGSIZE (disk_of s') demo_view /\
    exists t', initlog ROOTDEV demo_sb (demo_disk ∅) = Ok tt t'.
Proof.
  destruct demo_txn_spec as (Hr & Hl & Hh & Hc & Ho).
  destruct (end_op_atomic ROOTDEV 1 2 LOGSIZE demo_sb demo_txn demo_view [100]) as (s' & W & E & Hw & He & _ & HW);
    [discriminate|apply demo_geom|split; reflexivity|exact Hr|exact Hl|apply demo_txn_100|exact Hh|exact Hc|exact Ho|].
  exists s', W. split; [exact E|]. split; [exact Hw|]. split; [exact He|].
  destruct (HW [] (demo_disk ∅)) as (t' & Et & _); [apply prefix_nil|exact demo_rebooted|]. exists t'. exact Et.
Defined.

(** A disk whose log holds a committed transaction: block 100 gets log block 3. *)
Definition demo_committed : gmap Z bytes :=
  <[2 := store32 (store32 ∅ 0 1) 4 100]> (<[3 := demo_data]> ∅).

Lemma recovery_idempotent_witness :
  exists t' W, initlog ROOTDEV demo_sb (demo_disk demo_committed) = Ok tt t' /\
    wrote (demo_disk demo_committed) t' W /\ beq (disk_of t' 100) demo_data.
Proof.
  destruct (recovery_idempotent ROOTDEV 1 2 LOGSIZE demo_sb (disk_of (demo_disk demo_committed)) (demo_disk demo_committed))
    as (t' & W & E & Hw & He & _); [discriminate|apply demo_geom|split; reflexivity|split; [apply demo_running|reflexivity|reflexivity|reflexivity]| |].
  { split; [vm_compute; discriminate|]. assert (E : hdr (disk_of (demo_disk demo_committed) 2) = [100]) by (vm_compute; reflexivity).
    rewrite E. apply demo_txn_100. }
  exists t', W. split; [exact E|]. split; [exact Hw|]. etrans; [apply He; unfold inlog, LOGSIZE, MAXOPBLOCKS; lia|].
  vm_compute recovered. reflexivity.
Defined.
