(* ===== verification/LogSpace.v ===== *)
(** The space of the log: what each call does to the log's variables whatever
    the rest of the kernel is, and the reservation that [begin_op] makes. *)
From S2P Require Import Prelude State Kstring Locks Sched Sleeplock Bio BioList BioSpec BlockLayer Log LogSpec Txn Boot Crash.

(** * Routines that leave the log's variables alone *)

Section Keeps.
Context (v : log).
Abbreviation kept := (fun s : kstate => k_log s = v).

Lemma log_acquire lk : maintains kept (acquire lk).
Proof. intros s Hs. unfold acquire. by destruct (holding lk s). Qed.
Lemma log_release lk : maintains kept (release lk).
Proof. intros s Hs. unfold release. by destruct (holding lk s). Qed.
Lemma log_sched ch : maintains kept (sched ch).
Proof.
  unfold sched, curproc, myproc. maintain. by intros s Hs.
Qed.
#[local] Hint Resolve log_acquire log_release log_sched : maintains.

Lemma log_modify f : (forall s, k_log (f s) = k_log s) -> maintains (C:=chan) kept (modify f).
Proof. intros H. apply maintains_modify. intros s <-. apply H. Qed.
Ltac log_frame := maintain; try (apply log_modify; by intros ?).

Lemma log_sleep ch lk : maintains kept (sleep ch lk).
Proof. unfold sleep, curproc, myproc. log_frame. Qed.
Lemma log_wakeup ch : maintains kept (wakeup ch).
Proof. unfold wakeup, myproc. log_frame. Qed.
#[local] Hint Resolve log_sleep log_wakeup : maintains.
Lemma log_acquiresleep i : maintains kept (acquiresleep (buf_lock i)).
Proof. unfold acquiresleep, curproc, myproc. log_frame. Qed.
Lemma log_releasesleep i : maintains kept (releasesleep (buf_lock i)).
Proof. unfold releasesleep. log_frame. Qed.
Lemma log_holdingsleep i : maintains kept (holdingsleep (buf_lock i)).
Proof. unfold holdingsleep, curproc, myproc. log_frame. Qed.
#[local] Hint Resolve log_acquiresleep log_releasesleep log_holdingsleep : maintains.
Lemma log_bread dev bn : maintains kept (bread dev bn).
Proof. unfold bread, bget, virtio_disk_rw. log_frame. Qed.
Lemma log_bwrite b : maintains kept (bwrite b).
Proof. unfold bwrite, virtio_disk_rw. log_frame. Qed.
Lemma log_brelse b : maintains kept (brelse b).
Proof. unfold brelse, link_front. log_frame. Qed.
Lemma log_bpin b : maintains kept (bpin b).
Proof. unfold bpin. log_frame. Qed.
Lemma log_bunpin b : maintains kept (bunpin b).
Proof. unfold bunpin. log_frame. Qed.
#[local] Hint Resolve log_bread log_bwrite log_brelse log_bpin log_bunpin : maintains.
Lemma log_write_log : maintains kept write_log.
Proof. unfold write_log, log_block, buf_copy. log_frame. Qed.
Lemma log_write_head : maintains kept write_head.
Proof. unfold write_head. log_frame. Qed.
Lemma log_install r : maintains kept (install_trans r).
Proof. unfold install_trans, install_block, buf_copy. log_frame. Qed.
End Keeps.

(** * What the three calls do to the log's variables *)

Lemma sleep_never_returns ch lk s a s' : sleep ch lk s <> Ok a s'.
Proof.
  intros E. unfold sleep, sched in E. inv_bind.
  repeat match goal with H : context [match ?b with true => _ | false => _ end] |- _ => destruct b; inv_bind end; done.
Qed.

Lemma begin_op_log s s' :
  begin_op s = Ok tt s' ->
  k_log s' = set_l_outstanding (l_outstanding (k_log s) + 1) (k_log s) /\ l_committing (k_log s) = false /\
  lh_n (k_log s) + (l_outstanding (k_log s) + 1) * MAXOPBLOCKS <= LOGSIZE.
Proof.
  intros E. unfold begin_op in E. apply bind_inv in E as ([] & s1 & E1 & E). rewrite bind_gets in E.
  assert (El : k_log s1 = k_log s) by exact (keeps_Ok k_log _ _ _ _ (fun v => log_acquire v LkLog) E1). rewrite El in E.
  destruct (l_committing (k_log s)); [by apply sleep_never_returns in E|].
  destruct (Z.gtb_spec (lh_n (k_log s) + (l_outstanding (k_log s) + 1) * MAXOPBLOCKS) LOGSIZE); [by apply sleep_never_returns in E|].
  rewrite bind_modify in E. apply (keeps_Ok k_log _ _ _ _ (fun v => log_release v LkLog)) in E. rewrite E. cbn. rewrite El. done.
Qed.

Lemma find_logged_range n i bn s : i <= find_logged n i bn s <= i + Z.of_nat n.
Proof.
  revert i. induction n as [|n IH]; intros i; cbn [find_logged]; [lia|]. destruct (_ =? _); [lia|].
  specialize (IH (i + 1)). lia.
Qed.

Lemma log_write_vars b s s' :
  log_write b s = Ok tt s' ->
  exists bl, let grown := if find_logged (Z.to_nat (lh_n (k_log s))) 0 (b_blockno (get_buf b s)) s =? lh_n (k_log s) then 1 else 0 in
    k_log s' = set_lh_n (lh_n (k_log s) + grown) (set_lh_block bl (k_log s)).
Proof.
  intros E. unfold log_write in E. apply bind_inv in E as ([] & s1 & E1 & E). rewrite bind_gets in E.
  assert (Es : s1 = set_k_held (LkLog :: k_held s) s) by (unfold acquire in E1; destruct (holding LkLog s); [done|]; by injection E1).
  subst s1. cbn [k_log set_k_held] in E. destruct (_ || _); [done|]. destruct (_ <? 1); [done|]. rewrite !bind_gets in E.
  change (get_buf b (set_k_held (LkLog :: k_held s) s)) with (get_buf b s) in E.
  assert (Ef : forall n i bn, find_logged n i bn (set_k_held (LkLog :: k_held s) s) = find_logged n i bn s)
    by (intros n; induction n as [|n IH]; intros i bn; cbn; [done|by rewrite IH]).
  rewrite Ef in E. set (i := find_logged _ _ _ _) in *. cbv zeta.
  unfold set_lh_at in E. destruct (_ && _); [|done]. rewrite bind_modify in E.
  eexists. destruct (i =? lh_n (k_log s)) eqn:Ei; cbn [when] in E.
  - rewrite bind_assoc in E. apply bind_inv in E as ([] & s2 & E2 & E). rewrite bind_modify in E.
    apply (keeps_Ok k_log _ _ _ _ (fun v => log_bpin v b)) in E2.
    apply (keeps_Ok k_log _ _ _ _ (fun v => log_release v LkLog)) in E. rewrite E. cbn. rewrite E2. cbn. reflexivity.
  - rewrite bind_ret in E. apply (keeps_Ok k_log _ _ _ _ (fun v => log_release v LkLog)) in E. rewrite E. cbn.
    rewrite Z.add_0_r. by destruct (k_log s).
Qed.

Lemma commit_log s s' :
  commit s = Ok tt s' -> 0 <= lh_n (k_log s) -> k_log s' = set_lh_n 0 (k_log s).
Proof.
  intros E Hn. unfold commit in E. rewrite bind_gets in E. destruct (Z.gtb_spec (lh_n (k_log s)) 0); cbn [when] in E.
  - apply bind_inv in E as ([] & s1 & E1 & E). apply bind_inv in E as ([] & s2 & E2 & E).
    apply bind_inv in E as ([] & s3 & E3 & E). rewrite bind_modify in E.
    apply (keeps_Ok k_log _ _ _ _ log_write_log) in E1. apply (keeps_Ok k_log _ _ _ _ log_write_head) in E2.
    apply (keeps_Ok k_log _ _ _ _ (fun v => log_install v false)) in E3. apply (keeps_Ok k_log _ _ _ _ log_write_head) in E.
    rewrite E. cbn. by rewrite E3, E2, E1.
  - injection E as <-. assert (lh_n (k_log s) = 0) by lia. by destruct (k_log s); cbn in *; subst.
Qed.

Lemma end_op_log s s' :
  end_op s = Ok tt s' -> 0 <= lh_n (k_log s) ->
  l_outstanding (k_log s') = l_outstanding (k_log s) - 1 /\
  lh_n (k_log s') = if l_outstanding (k_log s) =? 1 then 0 else lh_n (k_log s).
Proof.
  intros E Hn. unfold end_op in E. apply bind_inv in E as ([] & s1 & E1 & E).
  apply (keeps_Ok k_log _ _ _ _ (fun v => log_acquire v LkLog)) in E1. rewrite bind_modify, bind_gets in E.
  destruct (l_committing _); [done|]. apply bind_inv in E as (d & s2 & E2 & E).
  apply bind_inv in E as ([] & s3 & E3 & E). apply (keeps_Ok k_log _ _ _ _ (fun v => log_release v LkLog)) in E3.
  cbn [k_log upd_log set_k_log l_outstanding set_l_outstanding] in E2. rewrite E1 in E2.
  destruct (Z.eqb_spec (l_outstanding (k_log s)) 1) as [Ho|Ho].
  - rewrite Ho in E2. change (1 - 1 =? 0) with true in E2. cbv iota in E2. rewrite bind_modify in E2. injection E2 as <- <-.
    cbn [when] in E. apply bind_inv in E as ([] & s4 & E4 & E).
    apply commit_log in E4; [|rewrite E3; cbn; by rewrite E1].
    apply bind_inv in E as ([] & s5 & E5 & E). rewrite bind_modify in E. apply bind_inv in E as ([] & s6 & E6 & E).
    apply (keeps_Ok k_log _ _ _ _ (fun v => log_acquire v LkLog)) in E5.
    apply (keeps_Ok k_log _ _ _ _ (fun v => log_wakeup v ChLog)) in E6. apply (keeps_Ok k_log _ _ _ _ (fun v => log_release v LkLog)) in E.
    rewrite E, E6. cbn. rewrite E5, E4. cbn. rewrite E3. cbn. rewrite E1, Ho. done.
  - rewrite (proj2 (Z.eqb_neq _ 0)) in E2 by lia. apply bind_inv in E2 as ([] & s4 & E4 & E2).
    apply (keeps_Ok k_log _ _ _ _ (fun v => log_wakeup v ChLog)) in E4. injection E2 as <- <-. cbn [when] in E. injection E as <-.
    rewrite E3, E4. cbn. by rewrite E1.
Qed.

(** * The reservation

    [used] counts, for every outstanding operation, the blocks it has added to
    the log.  An operation is allowed MAXOPBLOCKS of them. *)

Inductive op_step : kstate * list Z -> kstate * list Z -> Prop :=
| op_begin s s' used : begin_op s = Ok tt s' -> op_step (s, used) (s', 0 :: used)
| op_write s s' used1 u used2 b :
    u < MAXOPBLOCKS -> log_write b s = Ok tt s' ->
    op_step (s, used1 ++ u :: used2) (s', used1 ++ (u + (lh_n (k_log s') - lh_n (k_log s))) :: used2)
| op_end s s' used1 u used2 : end_op s = Ok tt s' -> op_step (s, used1 ++ u :: used2) (s', used1 ++ used2)
| op_other s s' used : k_log s' = k_log s -> op_step (s, used) (s', used).

Definition spare (used : list Z) : Z := foldr (fun u a => MAXOPBLOCKS - u + a) 0 used.

Lemma spare_app used1 used2 : spare (used1 ++ used2) = spare used1 + spare used2.
Proof. unfold spare. induction used1 as [|u used1 IH]; cbn in *; [done|]. rewrite IH. lia. Qed.
Lemma spare_nonneg used : Forall (fun u => 0 <= u <= MAXOPBLOCKS) used -> 0 <= spare used <= Z.of_nat (length used) * MAXOPBLOCKS.
Proof. induction 1 as [|u used Hu _ IH]; cbn [spare foldr length]; [lia|]. fold (spare used). lia. Qed.

Record reserved (c : kstate * list Z) : Prop := {
  rv_out : l_outstanding (k_log c.1) = Z.of_nat (length c.2);
  rv_used : Forall (fun u => 0 <= u <= MAXOPBLOCKS) c.2;
  rv_n : 0 <= lh_n (k_log c.1);
  rv_space : lh_n (k_log c.1) + spare c.2 <= LOGSIZE
}.

Lemma reserved_step c c' : op_step c c' -> reserved c -> reserved c'.
Proof.
  intros Hs [Ho Hu Hn Hsp]. destruct Hs as [s s' used E|s s' used1 u used2 b Hlt E|s s' used1 u used2 E|s s' used E]; cbn in *.
  - apply begin_op_log in E as (El & _ & Hfit). pose proof (spare_nonneg _ Hu). split; cbn; rewrite ?El; cbn; try lia.
    + constructor; [unfold MAXOPBLOCKS; lia|done].
    + fold (spare used). rewrite Ho in Hfit. lia.
  - apply log_write_vars in E as (bl & El). cbv zeta in El. rewrite spare_app in *. cbn in *. fold (spare used2) in *.
    apply Forall_app in Hu as [Hu1 Hu2]. apply Forall_cons in Hu2 as [Hu Hu2].
    split; cbn; rewrite ?El; cbn [lh_n l_outstanding set_lh_n set_lh_block].
    + rewrite length_app in *. cbn in *. done.
    + apply Forall_app. split; [done|]. apply Forall_cons. split; [|done]. destruct (_ =? _); lia.
    + destruct (_ =? _); lia.
    + rewrite spare_app. cbn. fold (spare used2). destruct (_ =? _); lia.
  - apply end_op_log in E as [Eo En]; [|done]. apply Forall_app in Hu as [Hu1 Hu2]. apply Forall_cons in Hu2 as [Hu Hu2].
    rewrite spare_app in *. cbn in *. fold (spare used2) in *. rewrite length_app in *. cbn in *.
    split; cbn; rewrite ?Eo, ?En, ?length_app; try lia.
    + by apply Forall_app.
    + destruct (_ =? _); lia.
    + rewrite spare_app. destruct (_ =? _); lia.
  - split; cbn; by rewrite ?E.
Qed.

(** log_write with room and an outstanding operation does not panic. *)
Lemma log_write_runs b s :
  LkLog ∉ k_held s -> LkBcache ∉ k_held s -> 0 <= lh_n (k_log s) < LOGSIZE ->
  lh_n (k_log s) < l_size (k_log s) - 1 -> 1 <= l_outstanding (k_log s) -> exists s', log_write b s = Ok tt s'.
Proof.
  intros H1 H2 Hn Hsz Ho. unfold log_write. erewrite (bind_Ok (acquire _)) by (by apply acquire_Ok). rewrite bind_gets.
  cbn [k_log set_k_held]. rewrite !Z.geb_leb, (proj2 (Z.leb_gt _ _)), (proj2 (Z.leb_gt _ _)), (proj2 (Z.ltb_ge _ _)) by lia.
  cbn [orb]. rewrite !bind_gets. set (s1 := set_k_held _ s). set (bn := b_blockno _).
  pose proof (find_logged_range (Z.to_nat (lh_n (k_log s))) 0 bn s1) as Hr. set (i := find_logged _ _ _ _) in *.
  unfold set_lh_at. rewrite (proj2 (Z.leb_le _ _)), (proj2 (Z.ltb_lt _ _)) by lia. cbn [andb]. rewrite bind_modify.
  set (s2 := upd_log _ s1). destruct (i =? lh_n (k_log s)); cbn [when].
  - rewrite bind_assoc. erewrite (bind_Ok (bpin _)) by (apply (bufref_section s2); cbn; set_solver).
    rewrite bind_modify. erewrite release_Ok; [eauto|reflexivity|done].
  - rewrite bind_ret. erewrite release_Ok; [eauto|reflexivity|done].
Qed.

(** C14: the log never overflows.  In every history of [begin_op], [end_op] and
    [log_write] calls in which each operation adds at most MAXOPBLOCKS blocks,
    the log holds at most LOGSIZE blocks; and on a disk whose log has room for
    the header and LOGSIZE blocks, an operation that has not used up its
    MAXOPBLOCKS blocks can always log one more: [log_write] does not panic. *)
Theorem log_space_reserved s0 s used :
  l_outstanding (k_log s0) = 0 -> lh_n (k_log s0) = 0 -> rtc op_step (s0, []) (s, used) ->
  0 <= lh_n (k_log s) <= LOGSIZE /\
  forall u b, u ∈ used -> u < MAXOPBLOCKS -> LOGSIZE < l_size (k_log s) -> LkLog ∉ k_held s -> LkBcache ∉ k_held s ->
    exists s', log_write b s = Ok tt s'.
Proof.
  intros Ho Hn Hrtc.
  assert (Hr : reserved (s, used)).
  { eapply (rtc_invariant op_step reserved); [exact reserved_step|exact Hrtc|].
    split; cbn; rewrite ?Hn; [done|constructor|lia|done]. }
  destruct Hr as [Hout Hu Hn' Hsp]; cbn [fst snd] in *. pose proof (spare_nonneg _ Hu). split; [lia|].
  intros u b Hin Hlt Hsz H1 H2. apply list_elem_of_split in Hin as (used1 & used2 & ->).
  rewrite spare_app in Hsp. cbn in Hsp. fold (spare used2) in Hsp. apply Forall_app in Hu as [Hu1 Hu2].
  apply Forall_cons in Hu2 as [_ Hu2]. apply spare_nonneg in Hu1, Hu2. rewrite length_app in Hout. cbn in Hout.
  apply log_write_runs; [done|done|lia|lia|lia].
Qed.

(** Two operations, of which the second logs a block, on a log of 31 blocks. *)
Definition demo_wide : kstate := upd_log (set_l_size (LOGSIZE + 1)) demo_log.

Definition after_begin (s : kstate) : kstate := match begin_op s with Ok _ s => s | _ => s end.
Definition after_bread (s : kstate) : kstate := match bread ROOTDEV 100 s with Ok _ s => s | _ => s end.
Definition after_write (s : kstate) : kstate := match log_write 0 s with Ok _ s => s | _ => s end.

Lemma log_space_reserved_witness :
  let s := after_write (after_bread (after_begin (after_begin demo_wide))) in
  lh_n (k_log s) = 1 /\ 0 <= lh_n (k_log s) <= LOGSIZE /\ exists s', log_write 1 s = Ok tt s'.
Proof.
  cbv zeta. set (s1 := after_begin demo_wide). set (s2 := after_begin s1). set (s3 := after_bread s2). set (s4 := after_write s3).
  assert (H : rtc op_step (demo_wide, []) (s4, [1; 0])).
  { eapply rtc_l; [apply (op_begin demo_wide s1); vm_compute; reflexivity|].
    eapply rtc_l; [apply (op_begin s1 s2); vm_compute; reflexivity|].
    eapply rtc_l; [apply (op_other s2 s3); vm_compute; reflexivity|].
    eapply rtc_l; [|apply rtc_refl].
    replace [1; 0] with ([] ++ (0 + (lh_n (k_log s4) - lh_n (k_log s3))) :: [0]) by (vm_compute; reflexivity).
    apply (op_write s3 s4 [] 0 [0] 0); [reflexivity|vm_compute; reflexivity]. }
  destruct (log_space_reserved demo_wide s4 [1; 0]) as [Hn Hw]; [reflexivity|reflexivity|exact H|].
  split; [vm_compute; reflexivity|]. split; [exact Hn|].
  apply (Hw 0 1%nat); [apply list_elem_of_further, list_elem_of_here|reflexivity|vm_compute; reflexivity| |];
    assert (E : k_held s4 = []) by (vm_compute; reflexivity); rewrite E; apply not_elem_of_nil.
Defined.

(** * The log that mkfs makes

    mkfs gives the log LOGSIZE blocks, one of which is the header. *)

Definition log_blocks (first n : Z) : K unit :=
  for_loop (Z.to_nat n) first (fun bn =>
    b <- bread ROOTDEV bn ;;
    log_write b ;;;
    brelse b ;;;
    ret (@None unit)) ;;;
  ret tt.

