(* ===== verification/Fs.v ===== *)
(** The file system (kernel/fs.c): the block allocator, inodes, their contents,
    directories and path names.  A struct inode pointer is an index into the
    inode table; struct dinode, struct dirent and the bitmap are read and
    written in the bytes of a buffer at the offsets of kernel/fs.h. *)
From S2P Require Import Prelude State Locks Kstring Kalloc Vm Sched Sleeplock Bio Log Uart Kprintf Either.

Definition T_DIR : Z := 1.
Definition T_FILE : Z := 2.
Definition T_DEVICE : Z := 3.

Definition IBLOCK (i : Z) (sb : superblock) : Z := u32 (i / IPB + sb_inodestart sb).
Definition BBLOCK (b : Z) (sb : superblock) : Z := u32 (b / BPB + sb_bmapstart sb).

Definition buf_data (b : nat) : K bytes := gets (fun s => b_data (get_buf b s)).
Definition upd_data (b : nat) (f : bytes -> bytes) : K unit :=
  modify (upd_buf b (fun x => set_b_data (f (b_data x)) x)).

Definition get_inode (i : nat) (s : kstate) : inode := default inode0 (k_itable s !! i).
Definition upd_inode (i : nat) (f : inode -> inode) (s : kstate) : kstate :=
  set_k_itable (alter f i (k_itable s)) s.
Definition inode_lock (i : nat) : slref :=
  mk_slref (LkSleepInode i) (ChInode i) (fun s => i_lock (get_inode i s))
    (fun l => upd_inode i (set_i_lock l)).

(** memmove(sb, bp->data, sizeof( *sb)) *)
Definition sb_of_bytes (d : bytes) : superblock :=
  mk_superblock (load32 d 0) (load32 d 4) (load32 d 8) (load32 d 12)
    (load32 d 16) (load32 d 20) (load32 d 24) (load32 d 28).

Definition readsb (dev : Z) : K unit :=
  bp <- bread (u32 dev) 1 ;;
  d <- buf_data bp ;;
  modify (set_k_sb (sb_of_bytes d)) ;;;
  brelse bp.

Definition fsinit (dev : Z) : K unit :=
  readsb dev ;;;
  sb <- gets k_sb ;;
  if negb (sb_magic sb =? FSMAGIC) then panic "invalid file system"
  else initlog dev sb.

Definition bzero (dev bno : Z) : K unit :=
  bp <- bread (u32 dev) (u32 bno) ;;
  upd_data bp (fun d => memset d 0 0 BSIZE) ;;;
  log_write bp ;;;
  brelse bp.

(** * Blocks *)

(** bp->data[bi/8] & (1 << (bi % 8)) *)
Definition bit_set (d : bytes) (bi : Z) : bool := Z.testbit (load8 d (bi / 8)) (bi mod 8).
(** bp->data[bi/8] |= m  and  bp->data[bi/8] &= ~m *)
Definition mark_bit (d : bytes) (bi : Z) : bytes :=
  store8 d (bi / 8) (Z.lor (load8 d (bi / 8)) (Z.shiftl 1 (bi mod 8))).
Definition clear_bit (d : bytes) (bi : Z) : bytes :=
  store8 d (bi / 8) (Z.ldiff (load8 d (bi / 8)) (Z.shiftl 1 (bi mod 8))).

(** The inner loop of balloc: the first clear bit among the next [n]. *)
Fixpoint find_clear (n : nat) (d : bytes) (bi : Z) : option Z :=
  match n with
  | O => None
  | S n => if bit_set d bi then find_clear n d (bi + 1) else Some bi
  end.

Definition balloc (dev : Z) : K Z :=
  size <- gets (fun s => sb_size (k_sb s)) ;;
  r <- for_loop (Z.to_nat ((size + BPB - 1) / BPB)) 0 (fun k =>
    let b := k * BPB in
    sb <- gets k_sb ;;
    bp <- bread dev (BBLOCK b sb) ;;
    d <- buf_data bp ;;
    match find_clear (Z.to_nat (Z.min BPB (size - b))) d 0 with
    | Some bi =>
        upd_data bp (fun d => mark_bit d bi) ;;;
        log_write bp ;;;
        brelse bp ;;;
        bzero dev (b + bi) ;;;
        ret (Some (b + bi))
    | None => brelse bp ;;; ret None
    end) ;;
  match r with
  | Some b => ret b
  | None => printf "balloc: out of blocks
" [] ;;; ret 0
  end.

Definition bfree (dev b : Z) : K unit :=
  sb <- gets k_sb ;;
  bp <- bread (u32 dev) (BBLOCK b sb) ;;
  let bi := b mod BPB in
  d <- buf_data bp ;;
  if negb (bit_set d bi) then panic "freeing free block"
  else
    upd_data bp (fun d => clear_bit d bi) ;;;
    log_write bp ;;;
    brelse bp.

(** * Inodes *)

Definition iinit : K unit :=
  for_loop (Z.to_nat NINODE) 0 (fun i => initsleeplock (inode_lock (Z.to_nat i)) ;;; ret (@None unit)) ;;;
  ret tt.

(** The search of iget: the entry of the inode, or the first empty one. *)
Fixpoint find_inode (l : list inode) (i : nat) (empty : option nat) (dev inum : Z) : option nat * option nat :=
  match l with
  | [] => (None, empty)
  | ip :: l =>
      if (0 <? i_ref ip) && (i_dev ip =? dev) && (i_inum ip =? inum) then (Some i, empty)
      else find_inode l (S i)
             (match empty with None => if i_ref ip =? 0 then Some i else None | Some _ => empty end) dev inum
  end.

Definition iget (dev inum : Z) : K nat :=
  acquire LkItable ;;;
  l <- gets k_itable ;;
  match find_inode l 0 None dev inum with
  | (Some ip, _) =>
      modify (upd_inode ip (fun x => set_i_ref (i_ref x + 1) x)) ;;;
      release LkItable ;;;
      ret ip
  | (None, None) => panic "iget: no inodes"
  | (None, Some ip) =>
      modify (upd_inode ip (set_i_dev dev)) ;;;
      modify (upd_inode ip (set_i_inum inum)) ;;;
      modify (upd_inode ip (set_i_ref 1)) ;;;
      modify (upd_inode ip (set_i_valid false)) ;;;
      release LkItable ;;;
      ret ip
  end.

(** Offset of the dinode of [inum] in its block: struct dinode has 64 bytes. *)
Definition dinode_off (inum : Z) : Z := 64 * (inum mod IPB).

Definition ialloc (dev type : Z) : K (option nat) :=
  n <- gets (fun s => sb_ninodes (k_sb s)) ;;
  r <- for_loop (Z.to_nat (n - 1)) 1 (fun inum =>
    sb <- gets k_sb ;;
    bp <- bread dev (IBLOCK inum sb) ;;
    let o := dinode_off inum in
    d <- buf_data bp ;;
    if load16 d o =? 0 then
      upd_data bp (fun d => memset d o 0 64) ;;;
      upd_data bp (fun d => store16 d o (u16 type)) ;;;
      log_write bp ;;;
      brelse bp ;;;
      ip <- iget dev inum ;;
      ret (Some ip)
    else brelse bp ;;; ret None) ;;
  match r with
  | Some ip => ret (Some ip)
  | None => printf "ialloc: no inodes
" [] ;;; ret None
  end.

(** The stores of iupdate into a struct dinode at offset [o]. *)
Fixpoint store_addrs (addrs : list Z) (d : bytes) (o : Z) : bytes :=
  match addrs with [] => d | a :: l => store_addrs l (store32 d o a) (o + 4) end.
Definition dinode_store (d : bytes) (o : Z) (ip : inode) : bytes :=
  let d := store16 d o (u16 (i_type ip)) in
  let d := store16 d (o + 2) (u16 (i_major ip)) in
  let d := store16 d (o + 4) (u16 (i_minor ip)) in
  let d := store16 d (o + 6) (u16 (i_nlink ip)) in
  let d := store32 d (o + 8) (i_size ip) in
  store_addrs (i_addrs ip) d (o + 12).

(** The loads of ilock. *)
Definition dinode_load (d : bytes) (o : Z) (ip : inode) : inode :=
  mk_inode (i_dev ip) (i_inum ip) (i_ref ip) (i_lock ip) (i_valid ip)
    (i16 (load16 d o)) (i16 (load16 d (o + 2))) (i16 (load16 d (o + 4))) (i16 (load16 d (o + 6)))
    (load32 d (o + 8)) ((fun i => load32 d (o + 12 + 4 * i)) <$> seqZ 0 (NDIRECT + 1)).

Definition iupdate (ip : nat) : K unit :=
  x <- gets (get_inode ip) ;;
  sb <- gets k_sb ;;
  bp <- bread (i_dev x) (IBLOCK (i_inum x) sb) ;;
  upd_data bp (fun d => dinode_store d (dinode_off (i_inum x)) x) ;;;
  log_write bp ;;;
  brelse bp.

Definition idup (ip : nat) : K nat :=
  acquire LkItable ;;;
  modify (upd_inode ip (fun x => set_i_ref (i_ref x + 1) x)) ;;;
  release LkItable ;;;
  ret ip.

Definition ilock (ip : option nat) : K unit :=
  match ip with
  | None => panic "ilock"
  | Some ip =>
      x <- gets (get_inode ip) ;;
      if i_ref x <? 1 then panic "ilock"
      else
        acquiresleep (inode_lock ip) ;;;
        x <- gets (get_inode ip) ;;
        when (negb (i_valid x))
          (sb <- gets k_sb ;;
           bp <- bread (i_dev x) (IBLOCK (i_inum x) sb) ;;
           d <- buf_data bp ;;
           modify (upd_inode ip (dinode_load d (dinode_off (i_inum x)))) ;;;
           brelse bp ;;;
           modify (upd_inode ip (set_i_valid true)) ;;;
           type <- gets (fun s => i_type (get_inode ip s)) ;;
           when (type =? 0) (panic "ilock: no type"))
  end.

Definition iunlock (ip : option nat) : K unit :=
  match ip with
  | None => panic "iunlock"
  | Some ip =>
      h <- holdingsleep (inode_lock ip) ;;
      x <- gets (get_inode ip) ;;
      if negb h || (i_ref x <? 1) then panic "iunlock"
      else releasesleep (inode_lock ip)
  end.

(** ip->addrs[i] = a *)
Definition set_addr (ip : nat) (i a : Z) : K unit :=
  modify (upd_inode ip (fun x => set_i_addrs (<[Z.to_nat i := a]> (i_addrs x)) x)).
Definition addr_at (ip : nat) (i : Z) : K Z :=
  gets (fun s => default 0 (i_addrs (get_inode ip s) !! Z.to_nat i)).

Definition itrunc (ip : nat) : K unit :=
  dev <- gets (fun s => i_dev (get_inode ip s)) ;;
  for_loop (Z.to_nat NDIRECT) 0 (fun i =>
    a <- addr_at ip i ;;
    when (negb (a =? 0)) (bfree dev a ;;; set_addr ip i 0) ;;;
    ret (@None unit)) ;;;
  ind <- addr_at ip NDIRECT ;;
  when (negb (ind =? 0))
    (bp <- bread dev ind ;;
     for_loop (Z.to_nat NINDIRECT) 0 (fun j =>
       a <- gets (fun s => load32 (b_data (get_buf bp s)) (4 * j)) ;;
       when (negb (a =? 0)) (bfree dev a) ;;;
       ret (@None unit)) ;;;
     brelse bp ;;;
     bfree dev ind ;;;
     set_addr ip NDIRECT 0) ;;;
  modify (upd_inode ip (set_i_size 0)) ;;;
  iupdate ip.

Definition iput (ip : nat) : K unit :=
  acquire LkItable ;;;
  x <- gets (get_inode ip) ;;
  when ((i_ref x =? 1) && i_valid x && (i_nlink x =? 0))
    (acquiresleep (inode_lock ip) ;;;
     release LkItable ;;;
     itrunc ip ;;;
     modify (upd_inode ip (set_i_type 0)) ;;;
     iupdate ip ;;;
     modify (upd_inode ip (set_i_valid false)) ;;;
     releasesleep (inode_lock ip) ;;;
     acquire LkItable) ;;;
  modify (upd_inode ip (fun x => set_i_ref (i_ref x - 1) x)) ;;;
  release LkItable.

Definition iunlockput (ip : nat) : K unit := iunlock (Some ip) ;;; iput ip.

(** * Inode content *)

Definition bmap (ip : nat) (bn : Z) : K Z :=
  dev <- gets (fun s => i_dev (get_inode ip s)) ;;
  if bn <? NDIRECT then
    addr <- addr_at ip bn ;;
    if addr =? 0 then
      addr <- balloc dev ;;
      if addr =? 0 then ret 0 else set_addr ip bn addr ;;; ret addr
    else ret addr
  else
    let bn := bn - NDIRECT in
    if bn <? NINDIRECT then
      addr <- addr_at ip NDIRECT ;;
      addr <- (if addr =? 0 then
                 addr <- balloc dev ;;
                 if addr =? 0 then ret 0 else set_addr ip NDIRECT addr ;;; ret addr
               else ret addr) ;;
      if addr =? 0 then ret 0
      else
        bp <- bread dev addr ;;
        addr <- gets (fun s => load32 (b_data (get_buf bp s)) (4 * bn)) ;;
        addr <- (if addr =? 0 then
                   addr <- balloc dev ;;
                   when (negb (addr =? 0))
                     (upd_data bp (fun d => store32 d (4 * bn) addr) ;;; log_write bp) ;;;
                   ret addr
                 else ret addr) ;;
        brelse bp ;;;
        ret addr
    else panic "bmap: out of range".

(** struct stat: dev at 0, ino at 4, type at 8, nlink at 10, size at 16; the
    bytes 12 to 15 are padding, which [stati] leaves as they are. *)
Definition stati (ip : nat) (st : bytes) : K bytes :=
  x <- gets (get_inode ip) ;;
  ret (store64 (store16 (store16 (store32 (store32 st 0 (i_dev x)) 4 (i_inum x)) 8 (u16 (i_type x))) 10 (u16 (i_nlink x)))
         16 (i_size x)).

Section Fs.
Context `{Linker}.

(** for(tot=0; tot<n; tot+=m, off+=m, dst+=m): every pass but the first and
    the last moves a whole block. *)
Fixpoint readi_loop (fuel : nat) (ip : nat) (dst : place) (off n tot : Z) : K (Z * place) :=
  match fuel with
  | O => fun _ => Diverge
  | S fuel =>
      if tot <? n then
        addr <- bmap ip (off / BSIZE) ;;
        if addr =? 0 then ret (tot, dst)
        else
          dev <- gets (fun s => i_dev (get_inode ip s)) ;;
          bp <- bread dev addr ;;
          let m := Z.min (n - tot) (BSIZE - off mod BSIZE) in
          d <- buf_data bp ;;
          r <- either_copyout dst d (off mod BSIZE) m ;;
          let '(r, dst) := r in
          if r =? -1 then brelse bp ;;; ret (-1, dst)
          else brelse bp ;;; readi_loop fuel ip (shift dst m) (u32 (off + m)) n (tot + m)
      else ret (tot, dst)
  end.

Definition readi (ip : nat) (dst : place) (off n : Z) : K (Z * place) :=
  size <- gets (fun s => i_size (get_inode ip s)) ;;
  if (size <? off) || (u32 (off + n) <? off) then ret (0, dst)
  else
    let n := if size <? off + n then size - off else n in
    readi_loop (3 + Z.to_nat (n / BSIZE)) ip dst off n 0.

(** A failing copyin may have changed a part of the buffer. *)
Fixpoint writei_loop (fuel : nat) (ip : nat) (src : place) (off n tot : Z) : K (Z * Z) :=
  match fuel with
  | O => fun _ => Diverge
  | S fuel =>
      if tot <? n then
        addr <- bmap ip (off / BSIZE) ;;
        if addr =? 0 then ret (tot, off)
        else
          dev <- gets (fun s => i_dev (get_inode ip s)) ;;
          bp <- bread dev addr ;;
          let m := Z.min (n - tot) (BSIZE - off mod BSIZE) in
          d <- buf_data bp ;;
          r <- either_copyin d (off mod BSIZE) src m ;;
          let '(r, d) := r in
          upd_data bp (fun _ => d) ;;;
          if r =? -1 then brelse bp ;;; ret (tot, off)
          else log_write bp ;;; brelse bp ;;; writei_loop fuel ip (shift src m) (u32 (off + m)) n (tot + m)
      else ret (tot, off)
  end.

Definition writei (ip : nat) (src : place) (off n : Z) : K Z :=
  size <- gets (fun s => i_size (get_inode ip s)) ;;
  if (size <? off) || (u32 (off + n) <? off) then ret (-1)
  else if MAXFILE * BSIZE <? off + n then ret (-1)
  else
    r <- writei_loop (3 + Z.to_nat (n / BSIZE)) ip src off n 0 ;;
    let '(tot, off) := r in
    when (size <? off) (modify (upd_inode ip (set_i_size off))) ;;;
    iupdate ip ;;;
    ret tot.

(** * Directories *)

(** struct dirent: inum at 0, name at 2 *)
Definition sizeof_dirent : Z := 16.

Definition namecmp (s : bytes) (so : Z) (t : bytes) (t_o : Z) : Z :=
  strncmp_arr (Z.to_nat DIRSIZ) s so t t_o.

(** Read the directory entry at [off]; [msg] is the panic of the caller. *)
Definition read_dirent (dp : nat) (off : Z) (msg : string) : K bytes :=
  r <- readi dp (Local ∅ 0) off sizeof_dirent ;;
  match r with
  | (n, Local de _) => if negb (n =? sizeof_dirent) then panic msg else ret de
  | _ => panic msg
  end.

(** The number of entries that a loop over the directory visits. *)
Definition dirents (size : Z) : nat := Z.to_nat ((size + sizeof_dirent - 1) / sizeof_dirent).

(** The entry found, and its offset ( *poff). *)
Definition dirlookup (dp : nat) (name : bytes) : K (option (nat * Z)) :=
  x <- gets (get_inode dp) ;;
  if negb (i_type x =? T_DIR) then panic "dirlookup not DIR"
  else
    for_loop (dirents (i_size x)) 0 (fun k =>
      let off := k * sizeof_dirent in
      de <- read_dirent dp off "dirlookup read" ;;
      if load16 de 0 =? 0 then ret None
      else if namecmp name 0 de 2 =? 0 then
        ip <- iget (i_dev x) (load16 de 0) ;;
        ret (Some (ip, off))
      else ret None).

Definition dirlink (dp : nat) (name : bytes) (inum : Z) : K Z :=
  r <- dirlookup dp name ;;
  match r with
  | Some (ip, _) => iput ip ;;; ret (-1)
  | None =>
      size <- gets (fun s => i_size (get_inode dp s)) ;;
      r <- for_loop (dirents size) 0 (fun k =>
        let off := k * sizeof_dirent in
        de <- read_dirent dp off "dirlink read" ;;
        if load16 de 0 =? 0 then ret (Some off) else ret None) ;;
      let off := default (Z.of_nat (dirents size) * sizeof_dirent) r in
      let de := store16 (strncpy_arr (Z.to_nat DIRSIZ) ∅ 2 name 0) 0 (u16 inum) in
      n <- writei dp (Local de 0) off sizeof_dirent ;;
      if negb (n =? sizeof_dirent) then ret (-1) else ret 0
  end.

(** * Paths *)

(** while(cond( *path)) path++;  the bytes outside of the array read as NUL *)
Fixpoint skip_while (fuel : nat) (cond : Z -> bool) (path : bytes) (p : Z) : Z :=
  match fuel with
  | O => p
  | S fuel => if cond (load8 path p) then skip_while fuel cond path (p + 1) else p
  end.

Definition is_slash (c : Z) : bool := c =? 47.
Definition in_elem (c : Z) : bool := negb (c =? 47) && negb (c =? 0).

Definition skipelem (path : bytes) (p : Z) (name : bytes) : option (Z * bytes) :=
  let fuel := S (size path) in
  let p := skip_while fuel is_slash path p in
  if load8 path p =? 0 then None
  else
    let s := p in
    let p := skip_while fuel in_elem path p in
    let len := p - s in
    let name := if DIRSIZ <=? len then copy_into (Z.to_nat DIRSIZ) path s name 0
                else store8 (copy_into (Z.to_nat len) path s name 0) len 0 in
    Some (skip_while fuel is_slash path p, name).

Fixpoint namex_loop (fuel : nat) (ip : nat) (path : bytes) (p : Z) (nameiparent : bool) (name : bytes) :
    K (option nat * bytes) :=
  match fuel with
  | O => fun _ => Diverge
  | S fuel =>
      match skipelem path p name with
      | Some (p, name) =>
          ilock (Some ip) ;;;
          type <- gets (fun s => i_type (get_inode ip s)) ;;
          if negb (type =? T_DIR) then iunlockput ip ;;; ret (None, name)
          else if nameiparent && (load8 path p =? 0) then iunlock (Some ip) ;;; ret (Some ip, name)
          else
            next <- dirlookup ip name ;;
            match next with
            | None => iunlockput ip ;;; ret (None, name)
            | Some (next, _) => iunlockput ip ;;; namex_loop fuel next path p nameiparent name
            end
      | None => if nameiparent then iput ip ;;; ret (None, name) else ret (Some ip, name)
      end
  end.

Definition namex (path : bytes) (nameiparent : bool) (name : bytes) : K (option nat * bytes) :=
  ip <- (if load8 path 0 =? 47 then iget ROOTDEV ROOTINO
         else
           i <- curproc ;;
           cwd <- gets (fun s => p_cwd (get_proc i s)) ;;
           match cwd with Some ip => idup ip | None => ub end) ;;
  namex_loop (2 + size path) ip path 0 nameiparent name.

Definition namei (path : bytes) : K (option nat) :=
  r <- namex path false ∅ ;; ret (fst r).

Definition nameiparent (path name : bytes) : K (option nat * bytes) := namex path true name.
End Fs.
