(* ===== verification/FsTxn.v ===== *)
(** The file system inside of a transaction: reading, changing and releasing
    blocks between begin_op and end_op, against the interface of the block
    layer.  [fstxn s D V L blks]: the disk holds [D], the file system sees [V],
    the running process has the buffers [L] locked, and the blocks [blks] are in
    the log; every block that is not in the log is on disk as it is seen. *)
From S2P Require Import Prelude State Kstring Locks Sched Sleeplock Bio BioList BioSpec BlockLayer Log LogSpec Txn Uart Kprintf Either Fs.

Lemma elem_absorb blks bn x : x ∈ absorb blks bn <-> x ∈ blks \/ x = bn.
Proof. unfold absorb. case_bool_decide; set_solver. Qed.

Lemma length_absorb blks bn : (length blks <= length (absorb blks bn) <= S (length blks))%nat.
Proof. unfold absorb. case_bool_decide; rewrite ?length_app; cbn; lia. Qed.

Section FsTxn.
Context (dev pid : Z) (rep : bstate_rel) `{!BlockLayer dev pid rep} (st nlog : Z).
Hypothesis Hgeom : log_geom dev st nlog.

Record fstxn (s : kstate) (D V : blocks) (L : list (nat * Z)) (blks : list Z) : Prop := {
  ft_rep : rep s D V L (list_to_set blks);
  ft_log : log_at dev st nlog s blks;
  ft_ok : txn_ok st nlog blks;
  ft_out : 1 <= l_outstanding (k_log s);
  ft_clean : forall bn, bn ∉ blks -> beq (D bn) (V bn)
}.

(** A block of the file system proper. *)
Definition home (bn : Z) : Prop := 0 <= bn < 2 ^ 31 /\ ~ inlog st nlog bn.

(** Buffers are left for [n] more blocks, and the log has room for them. *)
Definition spare (L : list (nat * Z)) (blks : list Z) (n : nat) : Prop :=
  (length L + length blks + n <= bhead)%nat /\ Z.of_nat (length blks + n) <= nlog - 1.

Lemma fstxn_frame s s' D V L blks :
  fstxn s D V L blks -> k_bufs s' = k_bufs s -> k_disk s' = k_disk s -> k_log s' = k_log s -> running s' pid ->
  fstxn s' D V L blks.
Proof.
  intros [Hr Hl Hok Ho Hc] Eb Ed El Hrun. split; [by eapply bl_frame| |done|by rewrite El|done].
  destruct Hl. split; by rewrite El.
Qed.

Lemma fs_running s D V L blks : fstxn s D V L blks -> running s pid.
Proof. intros H. apply (bl_running _ _ _ _ _ (ft_rep _ _ _ _ _ H)). Qed.

Lemma fs_bread s D V L blks bn :
  fstxn s D V L blks -> bn ∉ L.*2 -> (length L + length blks < bhead)%nat ->
  exists b s', bread dev bn s = Ok b s' /\ log_only s s' /\ k_disk s' = k_disk s /\ fstxn s' D V ((b, bn) :: L) blks.
Proof.
  intros [Hr Hl Hok Ho Hc] Hbn Hroom. destruct (bl_bread s D V L _ bn Hr Hbn) as (b & s' & E & O & K & Hr').
  { right. by rewrite size_list_to_set by apply Hok. }
  destruct (bio_only_fields _ _ O) as (_ & _ & El & _).
  exists b, s'. split; [done|]. split; [by apply bio_log_only|]. split; [done|].
  split; [done|by eapply log_at_bio|done|by rewrite El|done].
Qed.

Lemma fs_data s D V L blks b bn :
  fstxn s D V L blks -> (b, bn) ∈ L -> beq (b_data (get_buf b s)) (V bn).
Proof. intros H Hin. by destruct (bl_locked _ _ _ _ _ _ _ (ft_rep _ _ _ _ _ H) Hin) as (_ & ? & _). Qed.

Lemma fs_brelse s D V L1 L2 blks b bn :
  fstxn s D V (L1 ++ (b, bn) :: L2) blks ->
  exists s', brelse b s = Ok tt s' /\ log_only s s' /\ k_disk s' = k_disk s /\ fstxn s' D V (L1 ++ L2) blks.
Proof.
  intros [Hr Hl Hok Ho Hc]. destruct (bl_brelse s D V L1 L2 _ b bn Hr) as (s' & E & O & K & Hr').
  { destruct (decide (bn ∈ blks)); [left; by apply elem_of_list_to_set|right; by apply Hc]. }
  destruct (bio_only_fields _ _ O) as (_ & _ & El & _).
  exists s'. split; [done|]. split; [by apply bio_log_only|]. split; [done|].
  split; [done|by eapply log_at_bio|done|by rewrite El|done].
Qed.

(** Change the contents of a locked buffer and log it. *)
Lemma fs_modify s D V L blks b bn f :
  fstxn s D V L blks -> (b, bn) ∈ L -> home bn -> Z.of_nat (length blks) < nlog - 1 ->
  exists s', (upd_data b f ;;; log_write b) s = Ok tt s' /\ log_only s s' /\ k_disk s' = k_disk s /\
    fstxn s' D (vupd V bn (f (b_data (get_buf b s)))) L (absorb blks bn).
Proof.
  intros [Hr Hl Hok Ho Hc] Hin [Hbn Hnl] Hlt. unfold upd_data. rewrite bind_modify.
  set (d := f (b_data (get_buf b s))).
  destruct (bl_locked _ _ _ _ _ _ _ Hr Hin) as (_ & _ & Hb).
  assert (Es : upd_buf b (fun x => set_b_data (f (b_data x)) x) s = upd_buf b (set_b_data d) s).
  { unfold upd_buf. f_equal. apply list_alter_ext; [|done]. intros x Hx. unfold d, get_buf. by rewrite Hx. }
  rewrite Es. pose proof (bl_store s _ _ _ _ b bn d Hr Hin) as Hr2.
  pose proof (bio_only_bufs s (alter (set_b_data d) b (k_bufs s))) as O2.
  destruct (log_write_spec dev pid rep st nlog Hgeom _ _ _ L blks b bn Hr2 (log_at_bio _ _ _ _ _ _ O2 Hl) Hok Hin Hbn Hlt Ho)
    as (s' & E & O & K & Hr' & Hl' & Eo & _).
  exists s'. split; [exact E|]. split; [eapply log_only_trans; [by apply bio_log_only|done]|]. split; [by rewrite K|].
  split; [done|done|exact (txn_absorb dev pid rep st nlog Hgeom s D V L blks b bn Hr Hl Hok Hin Hbn Hlt Hnl)|by rewrite Eo|].
  intros x Hx. rewrite elem_absorb in Hx. rewrite vupd_ne by tauto. apply Hc. tauto.
Qed.
End FsTxn.
