(* ===== verification/FsAlloc.v ===== *)
(** Allocating and freeing disk blocks (kernel/fs.c: bzero, balloc, bfree): the
    bitmap is the set of blocks in use. *)
From S2P Require Import Prelude State Kstring Locks Sched Sleeplock Bio BioList BioSpec BlockLayer Log LogSpec Txn Boot Uart Kprintf Either Fs FsTxn.

(** * Bits of a bitmap block *)

Lemma bit_set_beq d d' bi : beq d d' -> 0 <= bi < BPB -> bit_set d' bi = bit_set d bi.
Proof. intros E Hbi. unfold bit_set. rewrite E; [done|]. unfold BPB, BSIZE in *. div_lia. Qed.

Lemma bit_set_mark d bi bj : 0 <= bi -> 0 <= bj -> bit_set (mark_bit d bi) bj = (bi =? bj) || bit_set d bj.
Proof.
  intros Hi Hj. unfold bit_set, mark_bit. rewrite load8_store8.
  destruct (Z.eqb_spec (bi / 8) (bj / 8)) as [E|E].
  - rewrite Z.lor_spec, Z.shiftl_spec, <- E by div_lia. rewrite orb_comm. f_equal.
    destruct (Z.eqb_spec bi bj) as [->|Hne]; [by rewrite Z.sub_diag|].
    destruct (Z.ltb_spec (bj mod 8) (bi mod 8)); [rewrite Z.testbit_neg_r by lia; done|].
    rewrite Z.testbit_odd, Z.shiftr_div_pow2 by lia. rewrite Z.div_small; [done|]. split; [lia|].
    apply Z.pow_gt_1; div_lia.
  - destruct (Z.eqb_spec bi bj) as [->|Hne]; done.
Qed.

Lemma bit_set_clear d bi bj : 0 <= bi -> 0 <= bj -> bit_set (clear_bit d bi) bj = negb (bi =? bj) && bit_set d bj.
Proof.
  intros Hi Hj. unfold bit_set, clear_bit. rewrite load8_store8.
  destruct (Z.eqb_spec (bi / 8) (bj / 8)) as [E|E].
  - rewrite Z.ldiff_spec, Z.shiftl_spec, <- E by div_lia. rewrite andb_comm. f_equal. f_equal.
    destruct (Z.eqb_spec bi bj) as [->|Hne]; [by rewrite Z.sub_diag|].
    destruct (Z.ltb_spec (bj mod 8) (bi mod 8)); [rewrite Z.testbit_neg_r by lia; done|].
    rewrite Z.testbit_odd, Z.shiftr_div_pow2 by lia. rewrite Z.div_small; [done|]. split; [lia|].
    apply Z.pow_gt_1; div_lia.
  - destruct (Z.eqb_spec bi bj) as [->|Hne]; done.
Qed.

Lemma find_clear_spec n d : forall bi,
  match find_clear n d bi with
  | Some x => bi <= x < bi + Z.of_nat n /\ bit_set d x = false /\ forall y, bi <= y < x -> bit_set d y = true
  | None => forall y, bi <= y < bi + Z.of_nat n -> bit_set d y = true
  end.
Proof.
  induction n as [|n IH]; intros bi; cbn [find_clear]; [intros y Hy; lia|].
  destruct (bit_set d bi) eqn:E.
  - specialize (IH (bi + 1)). destruct (find_clear n d (bi + 1)) as [x|].
    + destruct IH as (Hx & Hc & Hb). split_and!; [lia|lia|done|].
      intros y Hy. destruct (decide (y = bi)) as [->|]; [done|]. apply Hb. lia.
    + intros y Hy. destruct (decide (y = bi)) as [->|]; [done|]. apply IH. lia.
  - split_and!; [lia|lia|done|]. intros y Hy. lia.
Qed.

(** Block [b] is free in the file system [V]. *)
Definition free_block (V : blocks) (sb : superblock) (b : Z) : bool :=
  negb (bit_set (V (BBLOCK b sb)) (b mod BPB)).

Section FsAlloc.
Context (dev pid : Z) (rep : bstate_rel) `{!BlockLayer dev pid rep} (st nlog : Z).
Hypothesis Hgeom : log_geom dev st nlog.

Abbreviation fstxn := (fstxn dev rep st nlog).
Abbreviation home := (home st nlog).

Definition zero_block (d : bytes) : Prop := forall i, 0 <= i < BSIZE -> load8 d i = 0.

Lemma dev_u32 : u32 dev = dev.
Proof. destruct Hgeom. apply u32_small. lia. Qed.
Lemma home_u32 bn : home bn -> u32 bn = bn.
Proof. intros [? _]. apply u32_small. lia. Qed.

(** Read a block, change and log it, and release it. *)
Lemma fs_rewrite s D V L blks bn (f : bytes -> bytes) :
  fstxn s D V L blks -> bn ∉ L.*2 -> home bn -> spare nlog L blks 1 ->
  exists d s', (bp <- bread dev bn ;; upd_data bp f ;;; log_write bp ;;; brelse bp) s = Ok tt s' /\
    beq d (V bn) /\ log_only s s' /\ k_disk s' = k_disk s /\ fstxn s' D (vupd V bn (f d)) L (absorb blks bn).
Proof.
  intros Ht Hbn Hh [Hs1 Hs2].
  destruct (fs_bread dev pid rep st nlog s D V L blks bn Ht Hbn ltac:(lia)) as (b & s1 & E1 & O1 & K1 & Ht1).
  assert (Hin : (b, bn) ∈ (b, bn) :: L) by apply list_elem_of_here.
  destruct (fs_modify dev pid rep st nlog Hgeom s1 D V _ blks b bn f Ht1 Hin Hh ltac:(lia)) as (s2 & E2 & O2 & K2 & Ht2).
  destruct (fs_brelse dev pid rep st nlog s2 D _ [] L _ b bn Ht2) as (s3 & E3 & O3 & K3 & Ht3).
  exists (b_data (get_buf b s1)), s3. split.
  { rewrite (bind_Ok _ _ _ _ _ E1), <- bind_assoc. by rewrite (bind_Ok _ _ _ _ _ E2). }
  split; [by eapply fs_data|]. split; [eapply log_only_trans; [exact O1|]; eapply log_only_trans; [exact O2|exact O3]|].
  split; [by rewrite K3, K2|exact Ht3].
Qed.

Lemma bzero_spec s D V L blks bn :
  fstxn s D V L blks -> bn ∉ L.*2 -> home bn -> spare nlog L blks 1 ->
  exists z s', bzero dev bn s = Ok tt s' /\ zero_block z /\ log_only s s' /\ k_disk s' = k_disk s /\
    fstxn s' D (vupd V bn z) L (absorb blks bn).
Proof.
  intros Ht Hbn Hh Hs. unfold bzero. rewrite dev_u32, home_u32 by done.
  destruct (fs_rewrite s D V L blks bn (fun d => memset d 0 0 BSIZE) Ht Hbn Hh Hs) as (d & s' & E & _ & O & K & Ht').
  exists (memset d 0 0 BSIZE), s'. split; [done|]. split; [|done].
  intros i Hi. rewrite load8_memset by (unfold BSIZE; lia). bool_case; (done || lia).
Qed.

(** * The bitmap *)

(** Where the bitmap is: outside of the log, and not locked by the caller. *)
Record bitmap_ok (sb : superblock) (L : list (nat * Z)) : Prop := {
  bm_size : 0 <= sb_size sb < 2 ^ 31;
  bm_start : 0 <= sb_bmapstart sb;
  bm_end : sb_bmapstart sb + sb_size sb / BPB < 2 ^ 31;
  bm_home : forall b, 0 <= b < sb_size sb -> home (BBLOCK b sb) /\ BBLOCK b sb ∉ L.*2
}.

(** Free blocks are data blocks: neither log nor bitmap, nor locked. *)
Definition free_ok (V : blocks) (sb : superblock) (L : list (nat * Z)) : Prop :=
  forall b, 0 <= b < sb_size sb -> free_block V sb b = true ->
    home b /\ b ∉ L.*2 /\ forall b', 0 <= b' < sb_size sb -> BBLOCK b' sb <> b.

Lemma BBLOCK_eq sb L b : bitmap_ok sb L -> 0 <= b < sb_size sb -> BBLOCK b sb = b / BPB + sb_bmapstart sb.
Proof. intros [Hs H0 He _] Hb. unfold BBLOCK. apply u32_small. unfold BPB, BSIZE in *. div_lia. Qed.

(** One block of the bitmap: the blocks [k * BPB ..] below the size. *)
Lemma bitmap_scan V sb L k d :
  bitmap_ok sb L -> 0 <= k -> k * BPB < sb_size sb -> beq d (V (BBLOCK (k * BPB) sb)) ->
  match find_clear (Z.to_nat (Z.min BPB (sb_size sb - k * BPB))) d 0 with
  | Some bi => 0 <= bi < BPB /\ k * BPB + bi < sb_size sb /\ free_block V sb (k * BPB + bi) = true /\
      BBLOCK (k * BPB + bi) sb = BBLOCK (k * BPB) sb /\
      forall b, k * BPB <= b < k * BPB + bi -> free_block V sb b = false
  | None => forall b, k * BPB <= b < Z.min ((k + 1) * BPB) (sb_size sb) -> free_block V sb b = false
  end.
Proof.
  intros Hbm Hk Hkb Hd. set (n := Z.to_nat (Z.min BPB (sb_size sb - k * BPB))).
  assert (Hn : Z.of_nat n = Z.min BPB (sb_size sb - k * BPB)) by (unfold n, BPB, BSIZE in *; lia).
  assert (Hfree : forall x, 0 <= x < Z.of_nat n -> free_block V sb (k * BPB + x) = negb (bit_set d x) /\
    BBLOCK (k * BPB + x) sb = BBLOCK (k * BPB) sb).
  { intros x Hx. assert (HB : 0 < BPB) by (unfold BPB, BSIZE; lia).
    assert (Ex : (k * BPB + x) / BPB = k * BPB / BPB /\ (k * BPB + x) mod BPB = x).
    { rewrite Z.div_mul, Z.div_add_l, (Z.add_comm (k * BPB)), Z_mod_plus_full, Z.mod_small, Z.div_small by lia. lia. }
    assert (EB : BBLOCK (k * BPB + x) sb = BBLOCK (k * BPB) sb) by (unfold BBLOCK; by rewrite (proj1 Ex)).
    split; [|done]. unfold free_block. rewrite EB, (proj2 Ex). f_equal. apply bit_set_beq; [done|]. unfold BPB, BSIZE in *. lia. }
  pose proof (find_clear_spec n d 0) as Hf. destruct (find_clear n d 0) as [bi|].
  - destruct Hf as (Hbi & Hc & Hbefore). destruct (Hfree bi ltac:(lia)) as [Ef EB]. rewrite Ef, Hc.
    split_and!; [lia|lia|lia|done|done|]. intros b Hb. replace b with (k * BPB + (b - k * BPB)) by lia.
    rewrite (proj1 (Hfree (b - k * BPB) ltac:(lia))), Hbefore by lia. done.
  - intros b Hb. replace b with (k * BPB + (b - k * BPB)) by lia.
    rewrite (proj1 (Hfree (b - k * BPB) ltac:(lia))), Hf by lia. done.
Qed.

(** The file system after [r] was taken: its bit is set and it is zero. *)
Definition taken (V : blocks) (sb : superblock) (r : Z) (V' : blocks) : Prop :=
  exists d z, beq d (V (BBLOCK r sb)) /\ zero_block z /\
    V' = vupd (vupd V (BBLOCK r sb) (mark_bit d (r mod BPB))) r z.

Lemma spare_absorb L blks bn n : spare nlog L blks (S n) -> spare nlog L (absorb blks bn) n.
Proof. unfold spare. pose proof (length_absorb blks bn). lia. Qed.

(** Room for the two blocks that balloc logs; the bitmap block may be in the
    log already. *)
Definition spare_take (sb : superblock) (L : list (nat * Z)) (blks : list Z) : Prop :=
  spare nlog L blks 1 /\ forall b, 0 <= b < sb_size sb -> spare nlog L (absorb blks (BBLOCK b sb)) 1.

Lemma spare_take_2 sb L blks : spare nlog L blks 2 -> spare_take sb L blks.
Proof. intros Hs. split; [unfold spare in *; lia|]. intros b _. by apply spare_absorb. Qed.

(** An iteration of balloc's loop that finds a free block. *)
Lemma balloc_take s D V L blks bp k bi :
  let sb := k_sb s in
  let r := k * BPB + bi in
  bitmap_ok sb L -> free_ok V sb L -> spare_take sb L blks ->
  fstxn s D V ((bp, BBLOCK (k * BPB) sb) :: L) blks ->
  0 <= k -> 0 <= bi < BPB -> r < sb_size sb -> free_block V sb r = true -> BBLOCK r sb = BBLOCK (k * BPB) sb ->
  exists s' V', (upd_data bp (fun d => mark_bit d bi) ;;; log_write bp ;;; brelse bp ;;; bzero dev r) s = Ok tt s' /\
    log_only s s' /\ k_disk s' = k_disk s /\ taken V sb r V' /\
    fstxn s' D V' L (absorb (absorb blks (BBLOCK r sb)) r).
Proof.
  intros sb r Hbm Hfo Hs Ht Hk Hbi Hr Hfree EB. pose proof Hs as [[Hs1 Hs2] Hs3].
  assert (Hr0 : 0 <= r) by (unfold r, BPB, BSIZE in *; lia).
  destruct (Hfo r ltac:(lia) Hfree) as (Hh & Hnl & Hnb). destruct (bm_home _ _ Hbm r ltac:(lia)) as [HhB HnB].
  assert (Hin : (bp, BBLOCK r sb) ∈ (bp, BBLOCK (k * BPB) sb) :: L) by (rewrite EB; apply list_elem_of_here).
  destruct (fs_modify dev pid rep st nlog Hgeom s D V _ blks bp (BBLOCK r sb) (fun d => mark_bit d bi) Ht Hin HhB ltac:(lia))
    as (s1 & E1 & O1 & K1 & Ht1). rewrite <- EB in Ht1.
  destruct (fs_brelse dev pid rep st nlog s1 D _ [] L _ bp _ Ht1) as (s2 & E2 & O2 & K2 & Ht2).
  destruct (bzero_spec s2 D _ L _ r Ht2 Hnl Hh (Hs3 r ltac:(lia))) as (z & s3 & E3 & Hz & O3 & K3 & Ht3).
  eexists s3, _. split; [|split; [|split; [|split; [|exact Ht3]]]].
  - rewrite <- bind_assoc, (bind_Ok _ _ _ _ _ E1), (bind_Ok _ _ _ _ _ E2). exact E3.
  - eapply log_only_trans; [exact O1|]. eapply log_only_trans; [exact O2|exact O3].
  - by rewrite K3, K2.
  - exists (b_data (get_buf bp s)), z. split; [by eapply fs_data|]. split; [done|].
    replace (r mod BPB) with bi; [done|]. unfold r. rewrite Z.add_comm, Z_mod_plus_full. symmetry. apply Z.mod_small. done.
Qed.

Lemma log_only_sb s s' : log_only s s' -> k_sb s' = k_sb s.
Proof. intros [E _ _ _]. rewrite E. done. Qed.

Lemma balloc_spec s D V L blks :
  let sb := k_sb s in
  bitmap_ok sb L -> free_ok V sb L -> spare_take sb L blks -> fstxn s D V L blks ->
  exists t, log_only s t /\ k_disk t = k_disk s /\
    ((exists V' r, balloc dev s = Ok r t /\ 0 <= r < sb_size sb /\ free_block V sb r = true /\
       (forall b, 0 <= b < r -> free_block V sb b = false) /\ taken V sb r V' /\
       fstxn t D V' L (absorb (absorb blks (BBLOCK r sb)) r)) \/
     (exists room, balloc dev s = Ok 0 (printed (chars "balloc: out of blocks
") room t) /\
       (forall b, 0 <= b < sb_size sb -> free_block V sb b = false) /\ fstxn t D V L blks)).
Proof.
  intros sb Hbm Hfo Hs Ht. unfold balloc. rewrite bind_gets. fold sb.
  assert (HB : 0 < BPB) by (unfold BPB, BSIZE; lia). pose proof (bm_size _ _ Hbm) as Hsz.
  match goal with |- context [for_loop ?n 0 ?body] => destruct (for_loop_exit n 0 body
    (fun k t => log_only s t /\ k_disk t = k_disk s /\ fstxn t D V L blks /\
       forall b, 0 <= b < Z.min (k * BPB) (sb_size sb) -> free_block V sb b = false)
    (fun r t => log_only s t /\ k_disk t = k_disk s /\ 0 <= r < sb_size sb /\ free_block V sb r = true /\
       (forall b, 0 <= b < r -> free_block V sb b = false) /\
       exists V', taken V sb r V' /\ fstxn t D V' L (absorb (absorb blks (BBLOCK r sb)) r)) s)
    as (t & [[E (O & K & Ht' & Hall)]|(r & E & O & K & Hr & Hfr & Hall & V' & Htk & Ht')]) end.
  - intros k t Hk (O & K & Ht' & Hall). assert (Hkb : 0 <= k /\ k * BPB < sb_size sb) by (unfold BPB, BSIZE in *; div_lia).
    destruct (bm_home _ _ Hbm (k * BPB) ltac:(lia)) as [_ HnB]. pose proof Hs as [[Hs1 _] _].
    destruct (fs_bread dev pid rep st nlog t D V L blks _ Ht' HnB ltac:(lia)) as (bp & t1 & E1 & O1 & K1 & Ht1).
    assert (O' : log_only s t1) by (by eapply log_only_trans).
    rewrite bind_gets, (log_only_sb _ _ O). fold sb. rewrite (bind_Ok _ _ _ _ _ E1). unfold buf_data. rewrite bind_gets.
    pose proof (bitmap_scan V sb L k _ Hbm (proj1 Hkb) (proj2 Hkb) (fs_data dev pid rep st nlog _ _ _ _ _ _ _ Ht1 (list_elem_of_here _ _))) as Hscan.
    destruct (find_clear _ _ _) as [bi|].
    + destruct Hscan as (Hbi & Hr & Hfree & EB & Hbefore).
      assert (Esb : k_sb t1 = sb) by (by rewrite (log_only_sb _ _ O')).
      destruct (balloc_take t1 D V L blks bp k bi) as (t2 & V' & E2 & O2 & K2 & Htk & Ht2); rewrite ?Esb in *; try done; [lia|].
      exists t2. right. exists (k * BPB + bi). split.
      { rewrite <- !bind_assoc in E2. rewrite <- !bind_assoc. by rewrite (bind_Ok _ _ _ _ _ E2). }
      split; [by eapply log_only_trans|]. split; [by rewrite K2, K1|]. split; [unfold BPB, BSIZE in *; lia|]. split; [done|].
      split; [|by exists V']. intros b Hb. destruct (Z.ltb_spec b (k * BPB)); [apply Hall; lia|apply Hbefore; lia].
    + destruct (fs_brelse dev pid rep st nlog t1 D V [] L blks bp _ Ht1) as (t2 & E2 & O2 & K2 & Ht2).
      exists t2. left. rewrite (bind_Ok _ _ _ _ _ E2). split; [done|].
      split; [by eapply log_only_trans|]. split; [by rewrite K2, K1|]. split; [done|].
      intros b Hb. destruct (Z.ltb_spec b (k * BPB)); [apply Hall; lia|apply Hscan; lia].
  - split; [apply bio_log_only, bio_only_refl|]. split; [done|]. split; [done|]. intros b Hb. lia.
  - exists t. split; [done|]. split; [done|]. right. rewrite (bind_Ok _ _ _ _ _ E).
    pose proof (ru_held _ _ (fs_running dev pid rep st nlog _ _ _ _ _ Ht')) as Hh.
    destruct (printf_text "balloc: out of blocks
"%string t) as [room Ep]; [refine (bool_decide_unpack _ _); vm_compute; exact I|rewrite Hh; apply not_elem_of_nil|].
    exists room. rewrite (bind_Ok _ _ _ _ _ Ep). split; [done|]. split; [|done].
    intros b Hb. apply Hall. unfold BPB, BSIZE in *. div_lia.
  - exists t. split; [done|]. split; [done|]. left. exists V', r. rewrite (bind_Ok _ _ _ _ _ E). do 5 (split; [done|]). done.
Qed.

Lemma BBLOCK_same sb L b b' :
  bitmap_ok sb L -> 0 <= b < sb_size sb -> 0 <= b' < sb_size sb -> BBLOCK b sb = BBLOCK b' sb -> b mod BPB = b' mod BPB -> b = b'.
Proof.
  intros Hbm Hb Hb' E Em. rewrite (BBLOCK_eq sb L b), (BBLOCK_eq sb L b') in E by done. unfold BPB, BSIZE in *. div_lia.
Qed.

(** A change of the bit of [r] in the bitmap changes no other bit. *)
Lemma free_block_vupd V sb L r d (f : bytes -> Z -> bytes) (g : bool -> bool) :
  bitmap_ok sb L -> 0 <= r < sb_size sb -> beq d (V (BBLOCK r sb)) ->
  (forall bi bj, 0 <= bi -> 0 <= bj -> bit_set (f d bi) bj = if bi =? bj then g (bit_set d bj) else bit_set d bj) ->
  forall b, 0 <= b < sb_size sb ->
    free_block (vupd V (BBLOCK r sb) (f d (r mod BPB))) sb b =
    if b =? r then negb (g (negb (free_block V sb b))) else free_block V sb b.
Proof.
  intros Hbm Hr Hd Hf b Hb. assert (HB : 0 < BPB) by (unfold BPB, BSIZE; lia). unfold free_block.
  assert (Hm : forall x, 0 <= x mod BPB < BPB) by (intros x; by apply Z.mod_pos_bound).
  destruct (Z.eqb_spec b r) as [->|Hne].
  - rewrite vupd_eq, Hf, Z.eqb_refl by apply Hm. rewrite negb_involutive. do 2 f_equal. symmetry. by apply bit_set_beq.
  - destruct (decide (BBLOCK b sb = BBLOCK r sb)) as [E|E]; [|by rewrite vupd_ne].
    rewrite E, vupd_eq, Hf by apply Hm. rewrite (proj2 (Z.eqb_neq _ _)).
    + f_equal. symmetry. by apply bit_set_beq.
    + intros Em. apply Hne. symmetry. by eapply BBLOCK_same.
Qed.

Lemma taken_free V sb L r V' :
  bitmap_ok sb L -> 0 <= r < sb_size sb -> (forall b, 0 <= b < sb_size sb -> BBLOCK b sb <> r) -> taken V sb r V' ->
  forall b, 0 <= b < sb_size sb -> free_block V' sb b = negb (b =? r) && free_block V sb b.
Proof.
  intros Hbm Hr Hnb (d & z & Hd & _ & ->) b Hb.
  assert (E : free_block (vupd (vupd V (BBLOCK r sb) (mark_bit d (r mod BPB))) r z) sb b =
    free_block (vupd V (BBLOCK r sb) (mark_bit d (r mod BPB))) sb b)
    by (unfold free_block; by rewrite vupd_ne by (by apply Hnb)).
  rewrite E, (free_block_vupd V sb L r d mark_bit (fun _ => true) Hbm Hr Hd); [by destruct (b =? r)| |done].
  intros bi bj Hi Hj. rewrite bit_set_mark by done. by destruct (bi =? bj).
Qed.

(** C19: balloc inside of a transaction.  It returns the lowest free block,
    which is then in use and full of zeros, with every other block's contents
    and every other bit of the bitmap unchanged, and logs at most two blocks;
    when no block is free it returns 0, having changed nothing but printed a
    message.  It never panics. *)
Theorem balloc_correct s D V L blks :
  let sb := k_sb s in
  bitmap_ok sb L -> free_ok V sb L -> spare nlog L blks 2 -> fstxn s D V L blks ->
  (exists r s' V' blks', balloc dev s = Ok r s' /\ fstxn s' D V' L blks' /\ (length blks' <= length blks + 2)%nat /\
     0 <= r < sb_size sb /\ free_block V sb r = true /\ (forall b, 0 <= b < r -> free_block V sb b = false) /\
     zero_block (V' r) /\ (forall x, x <> r -> x <> BBLOCK r sb -> V' x = V x) /\
     (forall b, 0 <= b < sb_size sb -> free_block V' sb b = negb (b =? r) && free_block V sb b)) \/
  (exists s' t room, balloc dev s = Ok 0 s' /\ s' = printed (chars "balloc: out of blocks
") room t /\ fstxn t D V L blks /\
     (forall b, 0 <= b < sb_size sb -> free_block V sb b = false)).
Proof.
  intros sb Hbm Hfo Hs Ht. destruct (balloc_spec s D V L blks Hbm Hfo (spare_take_2 _ _ _ Hs) Ht)
    as (t & _ & _ & [(V' & r & E & Hr & Hfr & Hmin & Htk & Ht')|(room & E & Hall & Ht')]).
  - left. exists r, t, V', (absorb (absorb blks (BBLOCK r sb)) r).
    destruct (Hfo r Hr Hfr) as (_ & _ & Hnb). split; [done|]. split; [done|].
    pose proof (length_absorb (absorb blks (BBLOCK r sb)) r). pose proof (length_absorb blks (BBLOCK r sb)).
    split; [lia|]. split; [done|]. split; [done|]. split; [done|].
    split; [|split; [|by eapply taken_free]].
    + destruct Htk as (d & z & _ & Hz & ->). by rewrite vupd_eq.
    + intros x Hx HxB. destruct Htk as (d & z & _ & _ & ->). by rewrite !vupd_ne.
  - right. eexists _, t, room. split; [exact E|]. by split_and!.
Qed.

(** C20: bfree inside of a transaction.  A block in use becomes free, and no
    other bit of the bitmap and no other block changes; freeing a free block
    panics.  A block that balloc returned is in use, so bfree undoes balloc. *)
Theorem bfree_correct s D V L blks b :
  let sb := k_sb s in
  bitmap_ok sb L -> spare nlog L blks 1 -> fstxn s D V L blks -> 0 <= b < sb_size sb ->
  if free_block V sb b then bfree dev b s = Panic "freeing free block"
  else exists s' V' blks', bfree dev b s = Ok tt s' /\ fstxn s' D V' L blks' /\ (length blks' <= length blks + 1)%nat /\
    (forall x, x <> BBLOCK b sb -> V' x = V x) /\
    (forall c, 0 <= c < sb_size sb -> free_block V' sb c = (c =? b) || free_block V sb c).
Proof.
  intros sb Hbm Hs Ht Hb. unfold bfree. rewrite bind_gets. fold sb. rewrite dev_u32.
  destruct (bm_home _ _ Hbm b Hb) as [HhB HnB]. pose proof Hs as [Hs1 Hs2].
  destruct (fs_bread dev pid rep st nlog s D V L blks _ Ht HnB ltac:(lia)) as (bp & s1 & E1 & O1 & K1 & Ht1).
  rewrite (bind_Ok _ _ _ _ _ E1). unfold buf_data. rewrite bind_gets.
  set (d := b_data (get_buf bp s1)).
  assert (Hin : (bp, BBLOCK b sb) ∈ (bp, BBLOCK b sb) :: L) by apply list_elem_of_here.
  assert (Hd : beq d (V (BBLOCK b sb))) by (by eapply fs_data).
  assert (Ef : free_block V sb b = negb (bit_set d (b mod BPB))).
  { unfold free_block. f_equal. apply bit_set_beq; [done|]. apply Z.mod_pos_bound. unfold BPB, BSIZE. lia. }
  rewrite <- Ef. destruct (free_block V sb b) eqn:Efree; [done|].
  destruct (fs_modify dev pid rep st nlog Hgeom s1 D V _ blks bp (BBLOCK b sb) (fun d => clear_bit d (b mod BPB)) Ht1 Hin HhB ltac:(lia))
    as (s2 & E2 & O2 & K2 & Ht2). fold d in Ht2.
  destruct (fs_brelse dev pid rep st nlog s2 D _ [] L _ bp _ Ht2) as (s3 & E3 & O3 & K3 & Ht3).
  exists s3, (vupd V (BBLOCK b sb) (clear_bit d (b mod BPB))), (absorb blks (BBLOCK b sb)).
  split; [by rewrite <- bind_assoc, (bind_Ok _ _ _ _ _ E2)|]. split; [done|].
  pose proof (length_absorb blks (BBLOCK b sb)). split; [lia|]. split; [intros x Hx; by apply vupd_ne|].
  intros c Hc. rewrite (free_block_vupd V sb L b d clear_bit (fun _ => false) Hbm Hb Hd); [by destruct (c =? b)| |done].
  intros bi bj Hi Hj. rewrite bit_set_clear by done. by destruct (bi =? bj).
Qed.
End FsAlloc.

(** * A transaction on a small file system: 100 blocks, the bitmap in block 45,
    the blocks below 46 in use *)

Definition demo_bitmap : bytes := store_list [255; 255; 255; 255; 255; 63] ∅ 0.
Definition demo_fs_sb : superblock := mk_superblock FSMAGIC 100 54 200 LOGSIZE 2 32 45.
Definition demo_fs_disk (d : gmap Z bytes) : gmap Z bytes := <[45 := demo_bitmap]> d.
Definition demo_fs (d : gmap Z bytes) : kstate :=
  upd_log (fun l => set_l_outstanding 1 (set_l_dev ROOTDEV (set_l_size LOGSIZE (set_l_start 2 l))))
    (set_k_sb demo_fs_sb (demo_disk (demo_fs_disk d))).
Definition demo_fs_view (d : gmap Z bytes) : blocks := disk_of (demo_disk (demo_fs_disk d)).

Lemma demo_fstxn d :
  FsTxn.fstxn ROOTDEV (brep ROOTDEV 1) 2 LOGSIZE (demo_fs d) (demo_fs_view d) (demo_fs_view d) [] [].
Proof.
  split; [|split; reflexivity || (intros i b Hi; discriminate)|exact (txn_nil ROOTDEV 2 LOGSIZE demo_geom)|cbn; lia|intros bn _; reflexivity].
  apply (rep_log ROOTDEV 1 (brep ROOTDEV 1)).
  apply (bl_frame (BlockLayer := bio_block_layer ROOTDEV 1) (demo_disk (demo_fs_disk d))); [apply demo_brep|reflexivity|reflexivity|].
  destruct (demo_running (demo_fs_disk d)) as [H1 H2 H3]. split; [exact H1|exact H2|exact H3].
Qed.

Lemma demo_bitmap_ok : bitmap_ok 2 LOGSIZE demo_fs_sb [].
Proof.
  split; [vm_compute; split; congruence|vm_compute; congruence|vm_compute; reflexivity|]. intros b Hb. split; [|apply not_elem_of_nil].
  change (BBLOCK b demo_fs_sb) with (u32 (b / BPB + 45)). cbn in Hb.
  replace (b / BPB) with 0 by (unfold BPB, BSIZE; symmetry; apply Z.div_small; lia).
  split; [vm_compute; split; congruence|]. unfold inlog, LOGSIZE, MAXOPBLOCKS. vm_compute. intros [_ H]. discriminate.
Qed.

Lemma demo_free d b : 0 <= b < 100 -> free_block (demo_fs_view d) demo_fs_sb b = (46 <=? b).
Proof.
  intros Hb. unfold free_block. assert (EB : BBLOCK b demo_fs_sb = 45).
  { unfold BBLOCK. replace (b / BPB) with 0 by (unfold BPB, BSIZE; symmetry; apply Z.div_small; lia). reflexivity. }
  rewrite EB. assert (Ev : demo_fs_view d 45 = demo_bitmap).
  { unfold demo_fs_view, disk_of, disk_block. cbn. unfold demo_fs_disk. by rewrite lookup_insert_eq. }
  rewrite Ev. assert (Hall : forallb (fun b => Bool.eqb (negb (bit_set demo_bitmap (b mod BPB))) (46 <=? b)) (seqZ 0 100) = true)
    by (vm_compute; reflexivity).
  rewrite forallb_forall in Hall. apply Bool.eqb_prop, Hall. apply list_elem_of_In, elem_of_seqZ. lia.
Qed.

Lemma demo_free_ok d : free_ok 2 LOGSIZE (demo_fs_view d) demo_fs_sb [].
Proof.
  intros b Hb Hf. rewrite demo_free in Hf by exact Hb. apply Z.leb_le in Hf. cbn in Hb.
  split; [split; [lia|unfold inlog, LOGSIZE, MAXOPBLOCKS; lia]|]. split; [apply not_elem_of_nil|].
  intros b' Hb'. cbn in Hb'. unfold BBLOCK.
  replace (b' / BPB) with 0 by (unfold BPB, BSIZE; symmetry; apply Z.div_small; lia).
  change (u32 (0 + sb_bmapstart demo_fs_sb)) with 45. lia.
Qed.

Lemma demo_spare n : (n <= 10)%nat -> spare LOGSIZE [] [] n.
Proof. intros Hn. split; [cbn; change bhead with 30%nat; lia|cbn; unfold LOGSIZE, MAXOPBLOCKS; lia]. Qed.

Lemma balloc_correct_witness : exists s', balloc ROOTDEV (demo_fs ∅) = Ok 46 s'.
Proof.
  destruct (balloc_correct ROOTDEV 1 (brep ROOTDEV 1) 2 LOGSIZE demo_geom (demo_fs ∅) _ _ [] []
    demo_bitmap_ok (demo_free_ok ∅) (demo_spare 2 ltac:(lia)) (demo_fstxn ∅))
    as [(r & s' & V' & blks' & E & _ & _ & Hr & Hf & Hmin & _)|(s' & t & room & _ & _ & _ & Hall)].
  - exists s'. assert (r = 46) as ->; [|exact E]. cbn in Hr. change (k_sb (demo_fs ∅)) with demo_fs_sb in *.
    rewrite demo_free in Hf by lia. apply Z.leb_le in Hf.
    destruct (Z.ltb_spec 46 r) as [Hlt|]; [|lia]. specialize (Hmin 46 ltac:(lia)). rewrite demo_free in Hmin by lia. discriminate.
  - exfalso. specialize (Hall 46 ltac:(cbn; lia)). change (k_sb (demo_fs ∅)) with demo_fs_sb in Hall. rewrite demo_free in Hall by lia. discriminate.
Defined.

Lemma bfree_correct_witness :
  (exists s', bfree ROOTDEV 40 (demo_fs ∅) = Ok tt s') /\ bfree ROOTDEV 50 (demo_fs ∅) = Panic "freeing free block".
Proof.
  pose proof (fun b Hb => bfree_correct ROOTDEV 1 (brep ROOTDEV 1) 2 LOGSIZE demo_geom (demo_fs ∅) _ _ [] [] b
    demo_bitmap_ok (demo_spare 1 ltac:(lia)) (demo_fstxn ∅) Hb) as H. change (k_sb (demo_fs ∅)) with demo_fs_sb in H. split.
  - specialize (H 40 ltac:(cbn; lia)). rewrite demo_free in H by lia. destruct H as (s' & _ & _ & E & _). exists s'. exact E.
  - specialize (H 50 ltac:(cbn; lia)). rewrite demo_free in H by lia. exact H.
Defined.
