(* ===== verification/FsRead.v ===== *)
(** Reading the contents of an inode (kernel/fs.c: bmap on a mapped block,
    readi).  A file is the sequence of the bytes of its blocks; readi delivers
    a range of it to a destination, which is a local object of the kernel or
    the memory of the process.  The destinations are instances of an interface,
    against which the loop of readi is verified once. *)
From S2P Require Import Prelude State Locks Kstring Kalloc Vm PageTable VmSpec Uvm UvmCopy Copy Sched Sleeplock Bio BioList BioSpec BlockLayer Boot Log Uart Kprintf Either Fs.

(** The address of block [bn] of the file of [x], 0 if it has none. *)
Definition iaddr (x : inode) (i : Z) : Z := default 0 (i_addrs x !! Z.to_nat i).
Definition baddr (V : blocks) (x : inode) (bn : Z) : Z :=
  if bn <? NDIRECT then iaddr x bn
  else if iaddr x NDIRECT =? 0 then 0 else load32 (V (iaddr x NDIRECT)) (4 * (bn - NDIRECT)).
(** The byte of the file at [off]. *)
Definition fbyte (V : blocks) (x : inode) (off : Z) : Z := load8 (V (baddr V x (off / BSIZE))) (off mod BSIZE).

(** Every block of the file below its size is there, and none is locked by the
    caller. *)
Record file_ok (V : blocks) (x : inode) (L : list (nat * Z)) : Prop := {
  fo_size : 0 <= i_size x <= MAXFILE * BSIZE;
  fo_blocks : forall bn, 0 <= bn -> bn * BSIZE < i_size x -> baddr V x bn <> 0 /\ baddr V x bn ∉ L.*2;
  fo_ind : NDIRECT * BSIZE < i_size x -> iaddr x NDIRECT ∉ L.*2
}.

(** A destination for the bytes [f 0, ..., f (N-1)]: [Q k pl s] holds when the first
    [k] of them were delivered and [pl] is the place of the next, [Bad s] after
    a failure. *)
Class Sink (N : Z) (f : Z -> Z) (Q : Z -> place -> kstate -> Prop) (Bad : kstate -> Prop) : Prop := {
  sink_bio k pl s s' : Q k pl s -> bio_only s s' -> Q k pl s';
  bad_bio s s' : Bad s -> bio_only s s' -> Bad s';
  sink_copy `{Linker} k pl s d o m :
    Q k pl s -> 0 <= k -> 0 < m <= BSIZE -> k + m <= N -> (forall i, 0 <= i < m -> load8 d (o + i) = f (k + i)) ->
    exists r pl' s', either_copyout pl d o m s = Ok (r, pl') s' /\ (exists mem, s' = set_k_mem mem s) /\
      (r = 0 /\ Q (k + m) (shift pl' m) s' \/ r = -1 /\ Bad s')
}.

Lemma u32_add_overflow a b : 0 <= a < 2 ^ 32 -> 0 <= b < 2 ^ 32 -> u32 (a + b) <? a = (2 ^ 32 <=? a + b).
Proof.
  intros Ha Hb. unfold u32. destruct (Z.leb_spec (2 ^ 32) (a + b)).
  - apply Z.ltb_lt. replace (a + b) with (a + b - 2 ^ 32 + 1 * 2 ^ 32) by lia. rewrite Z_mod_plus_full, Z.mod_small by lia. lia.
  - apply Z.ltb_ge. rewrite Z.mod_small by lia. lia.
Qed.

Section FsRead.
Context (dev pid : Z) (rep : bstate_rel) `{!BlockLayer dev pid rep}.

Lemma rep_mem s D V L P mem : rep s D V L P -> rep (set_k_mem mem s) D V L P.
Proof.
  intros Hr. apply (bl_frame s); [done..|]. destruct (bl_running _ _ _ _ _ Hr) as [H1 H2 H3]. by split.
Qed.

(** Releasing a buffer that was only read. *)
Lemma brelse_clean s D V L P b bn :
  rep s D V ((b, bn) :: L) P -> bn ∈ P \/ beq (D bn) (V bn) ->
  exists s', brelse b s = Ok tt s' /\ bio_only s s' /\ rep s' D V L P.
Proof.
  intros Hr Hc. destruct (bl_brelse s D V [] L P b bn Hr Hc) as (s' & E & O & _ & Hr'). by exists s'.
Qed.

Lemma bread_block s D V L P bn :
  rep s D V L P -> bn ∉ L.*2 -> (length L + size P < bhead)%nat ->
  exists b s', bread dev bn s = Ok b s' /\ bio_only s s' /\ rep s' D V ((b, bn) :: L) P /\
    beq (b_data (get_buf b s')) (V bn) /\ (bn ∈ P \/ beq (D bn) (V bn)).
Proof.
  intros Hr Hbn Hroom. destruct (bl_bread s D V L P bn Hr Hbn (or_intror Hroom)) as (b & s' & E & O & _ & Hr').
  exists b, s'. split; [done|]. split; [done|]. split; [done|].
  destruct (bl_locked _ _ _ _ _ _ _ Hr' (list_elem_of_here _ _)) as (_ & Hd & _). split; [done|].
  destruct (decide (bn ∈ P)) as [|Hp]; [by left|right]. exact (bl_clean s D V L P bn Hr Hbn Hp).
Qed.

Lemma get_inode_bio ip s s' : bio_only s s' -> get_inode ip s' = get_inode ip s.
Proof. intros O. unfold get_inode. by destruct (bio_only_fields _ _ O) as (_ & _ & _ & _ & -> & _). Qed.

Lemma load32_beq d d' o : beq d d' -> 0 <= o -> o + 4 <= BSIZE -> load32 d o = load32 d' o.
Proof. intros Hb Ho Ho'. unfold load32. apply le_load_ext. intros i Hi. symmetry. apply Hb. lia. Qed.

(** bmap on a block that is there. *)
Lemma bmap_mapped s D V L P ip x bn :
  rep s D V L P -> (length L + size P < bhead)%nat -> get_inode ip s = x -> i_dev x = dev -> file_ok V x L ->
  0 <= bn -> bn * BSIZE < i_size x ->
  exists s', bmap ip bn s = Ok (baddr V x bn) s' /\ bio_only s s' /\ rep s' D V L P.
Proof.
  intros Hr Hroom Hx Hdev Hok Hbn Hlt. destruct (fo_blocks _ _ _ Hok bn Hbn Hlt) as [Hne _].
  unfold bmap, addr_at. rewrite bind_gets, Hx, Hdev. pose proof (fo_size _ _ _ Hok) as Hsz. revert Hne.
  unfold baddr, iaddr. destruct (Z.ltb_spec bn NDIRECT) as [Hd|Hd]; intros Hne.
  - rewrite bind_gets, Hx. rewrite (proj2 (Z.eqb_neq _ _) Hne). exists s. split; [done|]. split; [apply bio_only_refl|done].
  - assert (Hin : bn - NDIRECT < NINDIRECT) by (unfold MAXFILE, NDIRECT, NINDIRECT, BSIZE in *; div_lia).
    rewrite (proj2 (Z.ltb_lt _ _) Hin), bind_gets, Hx.
    set (ind := default 0 (i_addrs x !! Z.to_nat NDIRECT)) in *. destruct (Z.eqb_spec ind 0) as [|Hi]; [done|].
    rewrite bind_ret, (proj2 (Z.eqb_neq _ _) Hi).
    assert (HindL : ind ∉ L.*2) by (apply (fo_ind _ _ _ Hok); unfold NDIRECT, BSIZE in *; lia).
    destruct (bread_block s D V L P ind Hr HindL Hroom) as (b & s1 & E1 & O1 & Hr1 & Hd1 & Hc1).
    rewrite (bind_Ok _ _ _ _ _ E1), bind_gets.
    rewrite (load32_beq _ (V ind) (4 * (bn - NDIRECT)) Hd1)
      by (unfold NINDIRECT, NDIRECT, BSIZE in *; div_lia).
    rewrite (proj2 (Z.eqb_neq _ _) Hne), bind_ret.
    destruct (brelse_clean s1 D V L P b ind Hr1 Hc1) as (s2 & E2 & O2 & Hr2).
    exists s2. rewrite (bind_Ok _ _ _ _ _ E2). split; [done|]. split; [by eapply bio_only_trans|done].
Qed.

(** The blocks that a range of [n] bytes at [off] touches. *)
Definition nblocks (off n : Z) : Z := if 0 <? n then (off + n - 1) / BSIZE - off / BSIZE + 1 else 0.

Lemma nblocks_step off n m :
  0 <= off -> 0 < n -> m = Z.min n (BSIZE - off mod BSIZE) -> 0 < m <= n /\ nblocks (off + m) (n - m) = nblocks off n - 1.
Proof.
  intros Ho Hn ->. unfold nblocks, BSIZE in *.
  destruct (Z.ltb_spec 0 n), (Z.ltb_spec 0 (n - Z.min n (1024 - off mod 1024))); div_lia.
Qed.
Lemma nblocks_fuel off n : 0 <= off -> 0 <= n -> nblocks off n < Z.of_nat (3 + Z.to_nat (n / BSIZE)).
Proof. intros Ho Hn. unfold nblocks, BSIZE. destruct (Z.ltb_spec 0 n); div_lia. Qed.

Context `{Linker} (n : Z) (f : Z -> Z) (Q : Z -> place -> kstate -> Prop) (Bad : kstate -> Prop) `{!Sink n f Q Bad}.

(** What readi leaves alone: everything but the cache and the destination. *)
Definition read_only (s s' : kstate) : Prop := exists mem, bio_only (set_k_mem mem s) s'.

Lemma read_only_bio s s' : bio_only s s' -> read_only s s'.
Proof. intros O. exists (k_mem s). by destruct s. Qed.
Lemma read_only_bio_l s1 s2 s3 : bio_only s1 s2 -> read_only s2 s3 -> read_only s1 s3.
Proof.
  intros O [mem O']. exists mem. eapply bio_only_trans; [|exact O']. 
  destruct O as [E H1 H2 H3]. split; [rewrite E; done|done|exact H2|exact H3].
Qed.
Lemma read_only_mem s1 s2 mem : read_only (set_k_mem mem s1) s2 -> read_only s1 s2.
Proof. intros [m O]. exists m. by destruct s1. Qed.

Lemma readi_loop_spec fuel : forall s D V L P ip x off tot pl,
  rep s D V L P -> (length L + size P < bhead)%nat -> get_inode ip s = x -> i_dev x = dev -> file_ok V x L ->
  0 <= off -> 0 <= tot <= n -> off + (n - tot) <= i_size x -> nblocks off (n - tot) < Z.of_nat fuel ->
  Q tot pl s -> (forall i, 0 <= i < n - tot -> f (tot + i) = fbyte V x (off + i)) ->
  exists r pl' s', readi_loop fuel ip pl off n tot s = Ok (r, pl') s' /\ rep s' D V L P /\ read_only s s' /\
    (r = n /\ Q n pl' s' \/ r = -1 /\ Bad s').
Proof.
  induction fuel as [|fuel IH]; intros s D V L P ip x off tot pl Hr Hroom Hx Hdev Hok Hoff Htot Hend Hf HQ Hbytes;
    [unfold nblocks, BSIZE in Hf; destruct (Z.ltb_spec 0 (n - tot)); div_lia|].
  cbn [readi_loop]. destruct (Z.ltb_spec tot n) as [Hlt|Hge].
  2: { assert (tot = n) as -> by lia. exists n, pl, s. split; [done|]. split; [done|]. split; [apply read_only_bio, bio_only_refl|by left]. }
  set (m := Z.min (n - tot) (BSIZE - off mod BSIZE)).
  destruct (nblocks_step off (n - tot) m Hoff ltac:(lia) eq_refl) as [Hm Hnb].
  assert (Hbn : 0 <= off / BSIZE /\ off / BSIZE * BSIZE < i_size x) by (unfold BSIZE in *; div_lia).
  destruct (bmap_mapped s D V L P ip x (off / BSIZE) Hr Hroom Hx Hdev Hok (proj1 Hbn) (proj2 Hbn)) as (s1 & E1 & O1 & Hr1).
  destruct (fo_blocks _ _ _ Hok _ (proj1 Hbn) (proj2 Hbn)) as [Hne HnL].
  rewrite (bind_Ok _ _ _ _ _ E1), (proj2 (Z.eqb_neq _ _) Hne), bind_gets, (get_inode_bio ip s s1 O1), Hx, Hdev.
  destruct (bread_block s1 D V L P _ Hr1 HnL Hroom) as (b & s2 & E2 & O2 & Hr2 & Hd2 & Hc2).
  rewrite (bind_Ok _ _ _ _ _ E2). fold m. unfold buf_data. rewrite bind_gets.
  assert (HQ2 : Q tot pl s2) by (do 2 (eapply sink_bio; [|eassumption]); exact HQ).
  destruct (sink_copy tot pl s2 (b_data (get_buf b s2)) (off mod BSIZE) m HQ2) as (r & pl' & s3 & E3 & [mem ->] & Hres); [lia|unfold BSIZE in *; div_lia|lia| |].
  { intros i Hi. rewrite Hbytes by lia. unfold fbyte.
    assert (Ei : (off + i) / BSIZE = off / BSIZE /\ (off + i) mod BSIZE = off mod BSIZE + i) by (unfold m, BSIZE in *; div_lia).
    rewrite (proj1 Ei), (proj2 Ei). symmetry. apply Hd2. unfold m, BSIZE in *. div_lia. }
  rewrite (bind_Ok _ _ _ _ _ E3). pose proof (rep_mem s2 D V _ P mem Hr2) as Hr3.
  destruct (brelse_clean _ D V L P b _ Hr3 Hc2) as (s4 & E4 & O4 & Hr4).
  assert (RO : forall t, read_only s4 t -> read_only s t).
  { intros t Ht. eapply read_only_bio_l; [exact O1|]. eapply read_only_bio_l; [exact O2|].
    apply (read_only_mem _ _ mem). by eapply read_only_bio_l. }
  destruct Hres as [[-> HQ3]|[-> HB]].
  - cbn [Z.eqb Z.opp]. rewrite (bind_Ok _ _ _ _ _ E4).
    assert (Eo : u32 (off + m) = off + m) by (apply u32_small; destruct Hok; unfold MAXFILE, NDIRECT, NINDIRECT, BSIZE in *; div_lia).
    rewrite Eo. destruct (IH s4 D V L P ip x (off + m) (tot + m) (shift pl' m)) as (r & pl2 & s5 & E5 & Hr5 & O5 & Hres); try done.
    + rewrite (get_inode_bio ip _ s4 O4). cbn. change (get_inode ip (set_k_mem mem s2)) with (get_inode ip s2).
      by rewrite (get_inode_bio ip s1 s2 O2), (get_inode_bio ip s s1 O1).
    + lia.
    + lia.
    + lia.
    + replace (n - (tot + m)) with (n - tot - m) by lia. lia.
    + by eapply sink_bio.
    + intros i Hi. replace (tot + m + i) with (tot + (m + i)) by lia. rewrite Hbytes by lia. f_equal. lia.
    + exists r, pl2, s5. split; [done|]. split; [done|]. split; [by apply RO|done].
  - cbn. rewrite (bind_Ok _ _ _ _ _ E4). exists (-1), pl', s4. split; [done|]. split; [done|].
    split; [apply RO, read_only_bio, bio_only_refl|right]. split; [done|]. by eapply bad_bio.
Qed.

(** The number of bytes that readi delivers when nothing fails. *)
Definition read_len (size off n : Z) : Z :=
  if (size <? off) || (2 ^ 32 <=? off + n) then 0 else Z.min n (size - off).
End FsRead.

Section Readi.
Context (dev pid : Z) (rep : bstate_rel) `{!BlockLayer dev pid rep} `{Linker}.

Lemma readi_spec s D V L P ip off n0 f Q Bad pl :
  let x := get_inode ip s in
  let n := read_len (i_size x) off n0 in
  Sink n f Q Bad ->
  rep s D V L P -> (length L + size P < bhead)%nat -> i_dev x = dev -> file_ok V x L ->
  0 <= off < 2 ^ 32 -> 0 <= n0 < 2 ^ 32 -> Q 0 pl s -> (forall i, 0 <= i < n -> f i = fbyte V x (off + i)) ->
  exists r pl' s', readi ip pl off n0 s = Ok (r, pl') s' /\ rep s' D V L P /\ read_only s s' /\
    (r = n /\ Q n pl' s' \/ r = -1 /\ Bad s').
Proof.
  intros x n HS Hr Hroom Hdev Hok Hoff Hn0 HQ Hf. unfold readi. rewrite bind_gets. fold x. subst n. unfold read_len in *.
  pose proof (u32_add_overflow off n0 Hoff Hn0) as Ho.
  rewrite Ho. destruct ((i_size x <? off) || (2 ^ 32 <=? off + n0)) eqn:E.
  { exists 0, pl, s. split; [done|]. split; [done|]. split; [apply read_only_bio, bio_only_refl|by left]. }
  apply orb_false_iff in E as [E1 E2]. apply Z.ltb_ge in E1. apply Z.leb_gt in E2.
  assert (En : (if i_size x <? off + n0 then i_size x - off else n0) = Z.min n0 (i_size x - off))
    by (destruct (Z.ltb_spec (i_size x) (off + n0)); lia).
  rewrite En. set (n := Z.min n0 (i_size x - off)) in *.
  eapply (readi_loop_spec dev pid rep n f Q Bad); try done; rewrite ?Z.sub_0_r; fold x; try lia.
  - apply (nblocks_fuel off n); lia.
  - intros i Hi. rewrite Z.add_0_l. by apply Hf.
Qed.

(** * Destinations *)

(** The local object [b] from [o] on; memory stays as it is. *)
Definition local_sink (mem0 : bytes) (b : bytes) (o : Z) (f : Z -> Z) (k : Z) (pl : place) (s : kstate) : Prop :=
  k_mem s = mem0 /\ exists b', pl = Local b' (o + k) /\
    forall a, load8 b' a = if (o <=? a) && (a <? o + k) then f (a - o) else load8 b a.

#[export] Instance local_is_sink N mem0 b o f : Sink N f (local_sink mem0 b o f) (fun _ => False).
Proof.
  split; [|done|].
  { intros k pl s s' [Em Hb] O. split; [|done]. by destruct (bio_only_fields _ _ O) as (_ & _ & _ & _ & _ & ->). }
  intros L k pl s d p m (Em & b' & -> & Hb) Hk Hm HN Hd. cbn [either_copyout].
  rewrite u32_small by (unfold BSIZE in *; lia).
  eexists 0, _, s. split; [done|]. split; [exists (k_mem s); by destruct s|]. left. split; [done|].
  split; [done|]. eexists. split; [cbn [shift]; f_equal; lia|]. intros a. rewrite load8_copy_into, Z2Nat.id, Hb by lia.
  bool_case; try lia; try done. rewrite Hd by lia. f_equal. lia.
Qed.

(** The memory of process [c] from [va] on; [s0] is the state at the start. *)
Record user_sink (s0 : kstate) (c : nat) (root : Z) (P D fl : list Z) (va : Z) (f : Z -> Z)
    (k : Z) (pl : place) (s : kstate) : Prop := {
  us_place : pl = User (u64 (va + k));
  us_cur : k_cur s = Some c;
  us_root : p_pagetable (get_proc c s) = root;
  us_space : uspace s root P D fl;
  us_ptes : forall v, pte s root v = pte s0 root v;
  us_bytes : forall v, 0 <= v < Z.of_nat (length D) * PGSIZE -> umem s root v =
    if (va <=? v) && (v <? va + k) then Some (f (v - va)) else umem s0 root v
}.
Definition writable_to (s0 : kstate) (root va k : Z) : Prop := forall i, 0 <= i < k -> writable s0 root (va + i) = true.

Lemma user_sink_bio s0 c root P D fl va f k pl s s' :
  user_sink s0 c root P D fl va f k pl s -> bio_only s s' -> user_sink s0 c root P D fl va f k pl s'.
Proof.
  intros [H1 H2 H3 H4 H5 H6] O. destruct (bio_only_fields _ _ O) as (Eh & Ec & _ & _ & _ & Em).
  assert (Ep : forall v, pte s' root v = pte s root v) by (intros v; unfold pte; by rewrite Em).
  split; [done|by rewrite Ec|by rewrite (bo_cur _ _ O c H2)| |intros v; by rewrite Ep|].
  - apply (uspace_ext s); [done|by rewrite (bo_eq _ _ O)| |done]. rewrite Eh. apply (us_uvm _ _ _ _ _ H4).
  - intros v Hv. unfold umem. rewrite Ep, Em. by apply H6.
Qed.

Lemma user_sink_copied s0 c root P D fl va f k s d o m s' j :
  user_sink s0 c root P D fl va f k (User (u64 (va + k))) s -> 0 <= k -> 0 <= j <= m ->
  (forall i, 0 <= i < m -> load8 d (o + i) = f (k + i)) -> stored s root P D fl (va + k) j d o s' ->
  user_sink s0 c root P D fl va f (k + j) (User (u64 (va + (k + j)))) s'.
Proof.
  intros [_ H2 H3 H4 H5 H6] Hk Hj Hd [(mem & ->) Hs Hp Hm].
  split; [done|done|done|done|intros v; by rewrite Hp|].
  intros v Hv. rewrite Hm, H6 by done. bool_case; try lia; try done. f_equal. rewrite Hd by lia. f_equal. lia.
Qed.

Lemma user_is_sink s0 c root P D fl va N f :
  0 <= va < 2 ^ 64 ->
  Sink N f (fun k pl s => user_sink s0 c root P D fl va f k pl s /\ writable_to s0 root va k)
    (fun s => exists k pl, 0 <= k < N /\ user_sink s0 c root P D fl va f k pl s /\ writable s0 root (va + k) = false).
Proof.
  intros Hva. split.
  - intros k pl s s' [Hs Hw] O. split; [by eapply user_sink_bio|done].
  - intros s s' (k & pl & Hk & Hs & Hw) O. exists k, pl. split; [done|]. split; [by eapply user_sink_bio|done].
  - intros LK k pl s d o m [Hs Hwk] Hk Hm HN Hd.
    assert (Hva' : 0 <= va + k < 2 ^ 64).
    { destruct (Z.eqb_spec k 0) as [->|]; [lia|]. pose proof (writable_lt _ _ _ (Hwk (k - 1) ltac:(lia))) as Hlt.
      change MAXVA with (2 ^ 38) in Hlt. lia. }
    pose proof Hs as [-> Hc Hroot Hu Hpt _]. cbn [either_copyout].
    rewrite (bind_Ok _ _ _ _ _ (curpagetable_Ok _ _ Hc)), Hroot, u64_small by lia.
    destruct (copyout_loop_spec (3 + Z.to_nat (m / PGSIZE)) s root P D fl (va + k) d o m Hu Hva' ltac:(lia) (span_fuel (va + k) m ltac:(lia)))
      as (r & s' & j & E & Hst & Hj & Hr). unfold copyout. rewrite (bind_Ok _ _ _ _ _ E).
    assert (Hw : forall i, writable s root i = writable s0 root i) by (intros i; unfold writable, readable; by rewrite Hpt).
    exists r, (User (va + k)), s'. split; [done|]. split; [by destruct Hst as [? _ _ _]|]. cbn [shift].
    pose proof (user_sink_copied _ _ _ _ _ _ _ _ _ _ _ _ m s' j Hs Hk Hj Hd Hst) as Hs'.
    replace (va + k + m) with (va + (k + m)) by lia.
    destruct Hr as [(-> & -> & HW)|(-> & Hjm & HW)]; [left|right]; (split; [done|]).
    + split; [done|]. intros i Hi. destruct (Z.ltb_spec i k); [apply Hwk; lia|].
      replace (va + i) with (va + k + (i - k)) by lia. rewrite <- Hw. apply HW. lia.
    + eexists (k + j), _. split; [lia|]. rewrite Hw, <- Z.add_assoc in HW. by split.
Qed.

(** C28: readi to the memory of the process.  The bytes of the file from [off]
    on, as many as were asked for and are below its size, are then at [va] in
    the user's memory, which is otherwise unchanged, and their number is
    returned; when the memory at [va + k] is not writable, for some [k] among
    them, the result is -1 and only the first bytes were copied.  An offset
    beyond the size, or a range beyond 2^32, reads nothing.  The file system
    and the rest of the kernel do not change. *)
Theorem readi_user s D V L P ip off n0 c PT F fl va :
  let x := get_inode ip s in
  let root := p_pagetable (get_proc c s) in
  let n := read_len (i_size x) off n0 in
  rep s D V L P -> (length L + size P < bhead)%nat -> i_dev x = dev -> file_ok V x L ->
  0 <= off < 2 ^ 32 -> 0 <= n0 < 2 ^ 32 ->
  k_cur s = Some c -> uspace s root PT F fl -> 0 <= va < 2 ^ 64 ->
  exists r pl s' k, readi ip (User va) off n0 s = Ok (r, pl) s' /\ rep s' D V L P /\ read_only s s' /\
    uspace s' root PT F fl /\ (forall v, pte s' root v = pte s root v) /\
    (forall v, 0 <= v < Z.of_nat (length F) * PGSIZE -> umem s' root v =
       if (va <=? v) && (v <? va + k) then Some (fbyte V x (off + (v - va))) else umem s root v) /\
    (r = n /\ k = n /\ writable_to s root va n \/ r = -1 /\ 0 <= k < n /\ writable s root (va + k) = false).
Proof.
  intros x root n Hr Hroom Hdev Hok Hoff Hn0 Hc Hu Hva.
  destruct (readi_spec s D V L P ip off n0 (fun i => fbyte V x (off + i)) _ _ (User va)
    (user_is_sink s c root PT F fl va n (fun i => fbyte V x (off + i)) Hva)) as (r & pl & s' & E & Hr' & RO & Hres); try done.
  { split; [|intros i Hi; lia]. split; [by rewrite Z.add_0_r, u64_small|done|done|done|done|]. intros v Hv. bool_case; (lia || done). }
  destruct Hres as [(-> & [_ _ _ Hs Hp Hb] & Hw)|(-> & k & pl' & Hk & [_ _ _ Hs Hp Hb] & Hw)].
  - exists n, pl, s', n. do 6 (split; [done|]). by left.
  - exists (-1), pl, s', k. do 6 (split; [done|]). by right.
Qed.

Lemma readi_local s D V L P ip off n0 b o :
  let x := get_inode ip s in
  let n := read_len (i_size x) off n0 in
  rep s D V L P -> (length L + size P < bhead)%nat -> i_dev x = dev -> file_ok V x L ->
  0 <= off < 2 ^ 32 -> 0 <= n0 < 2 ^ 32 ->
  exists b' s', readi ip (Local b o) off n0 s = Ok (n, Local b' (o + n)) s' /\ rep s' D V L P /\ bio_only s s' /\
    forall a, load8 b' a = if (o <=? a) && (a <? o + n) then fbyte V x (off + (a - o)) else load8 b a.
Proof.
  intros x n Hr Hroom Hdev Hok Hoff Hn0.
  destruct (readi_spec s D V L P ip off n0 (fun i => fbyte V x (off + i)) _ _ (Local b o)
    (local_is_sink n (k_mem s) b o (fun i => fbyte V x (off + i)))) as (r & pl & s' & E & Hr' & [mem RO] & Hres); try done.
  { split; [done|]. exists b. split; [by rewrite Z.add_0_r|]. intros a. bool_case; (lia || done). }
  destruct Hres as [(-> & Em & b' & -> & Hb)|(_ & [])]. exists b', s'. split; [done|]. split; [done|]. split; [|done].
  destruct (bio_only_fields _ _ RO) as (_ & _ & _ & _ & _ & Em'). cbn in Em'. rewrite Em in Em'. subst mem. by destruct s.
Qed.
End Readi.

(** * A file of two bytes in block 46, read into the memory of a process *)

Definition demo_inode : inode :=
  mk_inode ROOTDEV 5 1 sleeplock0 true T_FILE 0 0 1 2 (46 :: replicate 12 0).
Definition demo_file_disk : gmap Z bytes := {[ 46 := store_list [104; 105] ∅ 0 ]}.
Definition demo_readi (root : Z) (s : kstate) : kstate :=
  set_k_mem (k_mem s) (set_k_freelist (k_freelist s) (set_k_itable [demo_inode]
    (set_k_procs (set_p_pagetable root demo_proc :: replicate 63 proc0) (demo_disk demo_file_disk)))).
Definition demo_file_view : blocks := disk_of (demo_disk demo_file_disk).

Lemma demo_file_ok : file_ok demo_file_view demo_inode [].
Proof.
  split; [vm_compute; split; congruence| |intros _; apply not_elem_of_nil].
  intros bn Hbn Hlt. cbn in Hlt. unfold BSIZE in Hlt. assert (bn = 0) as -> by lia.
  split; [vm_compute; congruence|apply not_elem_of_nil].
Qed.

Lemma demo_readi_rep root s : brep ROOTDEV 1 (demo_readi root s) demo_file_view demo_file_view [] ∅.
Proof.
  assert (Hrun : running (demo_readi root s) 1) by (split; [reflexivity|reflexivity|]; exists 0%nat; split; reflexivity).
  revert Hrun. unfold demo_readi, demo_file_view. pose proof (demo_brep demo_file_disk) as Hr. revert Hr.
  generalize (disk_of (demo_disk demo_file_disk)) (demo_disk demo_file_disk). intros V t Hr Hrun. destruct t.
  eapply (bl_frame (BlockLayer := bio_block_layer ROOTDEV 1)); [exact Hr|reflexivity|reflexivity|exact Hrun].
Qed.

Lemma readi_user_witness :
  exists s root pl s', readi 0 (User 0) 0 10 s = Ok (2, pl) s' /\ umem s' root 1 = Some 105.
Proof.
  destruct demo_uspace as (s & root & P & D & fl & Hu & HW). exists (demo_readi root s), root.
  assert (Hu' : @uspace demo_linker (demo_readi root s) root P D fl)
    by (apply (@uspace_ext demo_linker s); [reflexivity|reflexivity|apply not_elem_of_nil|exact Hu]).
  destruct (readi_user ROOTDEV 1 (brep ROOTDEV 1) (H := demo_linker) (demo_readi root s) demo_file_view demo_file_view [] ∅ 0 0 10 0 P D fl 0
    (demo_readi_rep root s) ltac:(apply Nat.ltb_lt; vm_compute; reflexivity) eq_refl demo_file_ok ltac:(lia) ltac:(lia) eq_refl Hu' ltac:(lia))
    as (r & pl & s' & k & E & _ & _ & _ & _ & Hm & Hres).
  assert (Hlt : 1 < Z.of_nat (length D) * PGSIZE).
  { destruct (@readable_frame demo_linker s root P D fl 1 Hu ltac:(lia)) as [Hin _]; [|lia].
    destruct (HW 1 ltac:(unfold PGSIZE; lia)) as [[? _]%andb_true_iff _]. done. }
  exists pl, s'. destruct Hres as [(-> & -> & _)|(_ & Hk & HF)].
  - split; [exact E|]. rewrite Hm by lia. vm_compute. reflexivity.
  - exfalso. change (read_len _ _ _) with 2 in Hk. rewrite Z.add_0_l in HF.
    destruct (HW k ltac:(unfold PGSIZE; lia)) as [HWk _]. change (writable s root k = false) in HF. congruence.
Defined.
