(* ===== verification/FsInode.v ===== *)
(** Inodes (kernel/fs.c: iget, iupdate, ilock): the table of inodes in memory
    has one entry per inode in use, and what iupdate writes is what a later
    ilock reads. *)
From S2P Require Import Prelude State Locks Kstring Sched Sleeplock Bio BioList BioSpec BlockLayer Log LogSpec Txn Boot Uart Kprintf Either Fs FsTxn FsAlloc FsRead.

(** * The table in memory *)

Definition entry_of (dev inum : Z) (x : inode) : bool := (0 <? i_ref x) && (i_dev x =? dev) && (i_inum x =? inum).

(** Reference counts are not negative, and no inode has two entries. *)
Record itable_ok (l : list inode) : Prop := {
  it_ref : forall k x, l !! k = Some x -> 0 <= i_ref x;
  it_unique : forall j k x y, l !! j = Some x -> l !! k = Some y -> 0 < i_ref x -> 0 < i_ref y ->
    i_dev x = i_dev y -> i_inum x = i_inum y -> j = k
}.

Lemma find_inode_spec dev inum l : forall i empty,
  (exists k x e, find_inode l i empty dev inum = (Some (i + k)%nat, e) /\ l !! k = Some x /\ entry_of dev inum x = true) \/
  (exists e, find_inode l i empty dev inum = (None, e) /\ (forall k x, l !! k = Some x -> entry_of dev inum x = false) /\
     match empty, e with
     | Some a, Some b => a = b
     | Some _, None => False
     | None, Some b => exists k x, b = (i + k)%nat /\ l !! k = Some x /\ i_ref x = 0
     | None, None => forall k x, l !! k = Some x -> i_ref x <> 0
     end).
Proof.
  induction l as [|y l IH]; intros i empty; cbn [find_inode].
  - right. exists empty. split; [done|]. split; [done|]. by destruct empty.
  - fold (entry_of dev inum y). destruct (entry_of dev inum y) eqn:Ey.
    + left. exists 0%nat, y, empty. by rewrite Nat.add_0_r.
    + set (empty' := match empty with Some _ => empty | None => _ end).
      destruct (IH (S i) empty') as [(k & x & e & E & Hk & Hx)|(e & E & Hno & He)].
      * left. exists (S k), x, e. by rewrite <- Nat.add_succ_comm.
      * right. exists e. split; [done|]. split; [intros [|k] x Hx; [by injection Hx as <-|by eapply Hno]|].
        subst empty'. destruct empty as [a|]; [done|]. destruct (Z.eqb_spec (i_ref y) 0) as [E0|E0].
        -- destruct e as [b|]; [|done]. exists 0%nat, y. by rewrite Nat.add_0_r.
        -- destruct e as [b|].
           ++ destruct He as (k & x & -> & Hk & Hx). exists (S k), x. by rewrite <- Nat.add_succ_comm.
           ++ intros [|k] x Hx; [by injection Hx as <-|by eapply He].
Qed.

Lemma entry_ofP dev inum x : entry_of dev inum x = true <-> 0 < i_ref x /\ i_dev x = dev /\ i_inum x = inum.
Proof. unfold entry_of. rewrite !andb_true_iff, Z.ltb_lt, !Z.eqb_eq. tauto. Qed.

Lemma itable_ok_alter l k x f :
  itable_ok l -> l !! k = Some x -> 0 < i_ref (f x) ->
  (forall j y, j <> k -> l !! j = Some y -> entry_of (i_dev (f x)) (i_inum (f x)) y = false) ->
  itable_ok (alter f k l).
Proof.
  intros [Href Hu] Hk Hpos Hnew. assert (Hl : forall j y, alter f k l !! j = Some y -> j = k /\ y = f x \/ j <> k /\ l !! j = Some y).
  { intros j y Hj. destruct (decide (j = k)) as [->|Hne].
    - rewrite list_lookup_alter_eq, Hk in Hj. injection Hj as <-. by left.
    - rewrite list_lookup_alter_ne in Hj by done. by right. }
  split.
  - intros j y [[-> ->]|[_ Hj]]%Hl; [lia|by eapply Href].
  - intros j1 j2 y1 y2 [[-> ->]|[N1 H1]]%Hl [[-> ->]|[N2 H2]]%Hl R1 R2 Ed Ei; [done|..|by eapply Hu].
    + exfalso. specialize (Hnew j2 y2 N2 H2). by rewrite (proj2 (entry_ofP _ _ _)) in Hnew.
    + exfalso. specialize (Hnew j1 y1 N1 H1). by rewrite (proj2 (entry_ofP _ _ _)) in Hnew.
Qed.

Lemma upd_inode_comp i f g s : upd_inode i f (upd_inode i g s) = upd_inode i (fun x => f (g x)) s.
Proof. unfold upd_inode. cbn [k_itable set_k_itable]. rewrite alter_compose_list. by destruct s. Qed.

Lemma get_upd_inode i f s x : k_itable s !! i = Some x -> get_inode i (upd_inode i f s) = f x.
Proof. intros Hx. unfold get_inode, upd_inode. cbn. by rewrite list_lookup_alter_eq, Hx. Qed.
Lemma get_upd_inode_ne i j f s : j <> i -> get_inode j (upd_inode i f s) = get_inode j s.
Proof. intros Hne. unfold get_inode, upd_inode. cbn. by rewrite list_lookup_alter_ne. Qed.

Lemma upd_inode_const i x f s : k_itable s !! i = Some x -> upd_inode i f s = upd_inode i (fun _ => f x) s.
Proof.
  intros Hx. unfold upd_inode. f_equal. apply list_alter_ext; [|done]. intros y Hy. rewrite Hx in Hy. by injection Hy as <-.
Qed.

Lemma upd_inode_release ip f s :
  LkItable ∉ k_held s ->
  (release LkItable ;;; ret ip) (upd_inode ip f (set_k_held (LkItable :: k_held s) s)) = Ok ip (upd_inode ip f s).
Proof.
  intros Hl. erewrite (bind_Ok (release _)) by (apply (release_Ok _ _ (k_held s)); done).
  by destruct s.
Qed.

(** C29: iget finds the one entry of an inode.  If the inode has an entry in
    use, that entry is returned with one more reference and is otherwise
    unchanged, so that all users of the inode share it.  If not, an entry that
    nobody uses is returned, which now stands for the inode, has one reference
    and is to be read from disk.  No other entry changes and no inode gets a
    second entry.  iget panics exactly when the inode has no entry and none is
    free. *)
Theorem iget_shares s dev inum :
  itable_ok (k_itable s) -> LkItable ∉ k_held s ->
  (iget dev inum s = Panic "iget: no inodes" /\
     forall k x, k_itable s !! k = Some x -> entry_of dev inum x = false /\ 0 < i_ref x) \/
  exists ip x, k_itable s !! ip = Some x /\
    let x' := if entry_of dev inum x then set_i_ref (i_ref x + 1) x
              else set_i_valid false (set_i_ref 1 (set_i_inum inum (set_i_dev dev x))) in
    iget dev inum s = Ok ip (upd_inode ip (fun _ => x') s) /\
    (entry_of dev inum x = true \/ i_ref x = 0 /\ forall k y, k_itable s !! k = Some y -> entry_of dev inum y = false) /\
    itable_ok (alter (fun _ => x') ip (k_itable s)).
Proof.
  intros Hok Hl. unfold iget. rewrite (bind_Ok _ _ _ _ _ (acquire_Ok _ _ Hl)), bind_gets. cbn [k_itable set_k_held].
  destruct (find_inode_spec dev inum (k_itable s) 0 None) as [(k & x & e & -> & Hk & Hx)|(e & -> & Hno & He)].
  - right. exists k, x. split; [done|]. rewrite Hx. cbn zeta. rewrite bind_modify, upd_inode_release by done.
    split; [by rewrite (upd_inode_const k x)|]. split; [by left|]. apply entry_ofP in Hx as (Hr & <- & <-).
    eapply itable_ok_alter; [done..|cbn; lia|]. intros j y Hne Hj. destruct (entry_of _ _ y) eqn:Ey; [|done].
    apply entry_ofP in Ey as (Hry & Ed & Ei). exfalso. apply Hne. by eapply (it_unique _ Hok).
  - destruct e as [b|].
    + right. destruct He as (k & x & -> & Hk & Hx). exists k, x. split; [done|]. rewrite (Hno k x Hk). cbn zeta.
      rewrite !bind_modify, !upd_inode_comp, upd_inode_release by done. split; [by rewrite (upd_inode_const k x)|].
      split; [by right|]. eapply itable_ok_alter; [done..|cbn; lia|]. intros j y _ Hj. by eapply Hno.
    + left. split; [done|]. intros k x Hk. split; [by eapply Hno|].
      pose proof (it_ref _ Hok k x Hk). specialize (He k x Hk). lia.
Qed.

(** * On disk *)

(** The fields that a struct dinode holds fit their types. *)
Record fields_ok (x : inode) : Prop := {
  fi_type : - 2 ^ 15 <= i_type x < 2 ^ 15;
  fi_major : - 2 ^ 15 <= i_major x < 2 ^ 15;
  fi_minor : - 2 ^ 15 <= i_minor x < 2 ^ 15;
  fi_nlink : - 2 ^ 15 <= i_nlink x < 2 ^ 15;
  fi_size : 0 <= i_size x < 2 ^ 32;
  fi_naddrs : length (i_addrs x) = Z.to_nat (NDIRECT + 1);
  fi_addrs : Forall (fun a => 0 <= a < 2 ^ 32) (i_addrs x)
}.

(** [y] with the fields on disk of [x]. *)
Definition with_fields (x y : inode) : inode :=
  mk_inode (i_dev y) (i_inum y) (i_ref y) (i_lock y) (i_valid y)
    (i_type x) (i_major x) (i_minor x) (i_nlink x) (i_size x) (i_addrs x).

Lemma i16_u16 v : - 2 ^ 15 <= v < 2 ^ 15 -> i16 (u16 v mod 2 ^ 16) = v.
Proof. intros Hv. unfold i16, u16. rewrite Z.mod_mod by lia. div_lia. Qed.

Lemma load8_store_addrs l : forall d o a,
  a < o \/ o + 4 * Z.of_nat (length l) <= a -> load8 (store_addrs l d o) a = load8 d a.
Proof.
  induction l as [|v l IH]; intros d o a Ha; cbn [store_addrs length] in *; [done|].
  rewrite IH by lia. unfold store32. rewrite load8_le_store. bool_case; (lia || done).
Qed.

Lemma load32_store_addrs l : forall d o i v,
  l !! i = Some v -> 0 <= v < 2 ^ 32 -> load32 (store_addrs l d o) (o + 4 * Z.of_nat i) = v.
Proof.
  induction l as [|w l IH]; intros d o i v Hi Hv; [done|]. cbn [store_addrs]. destruct i as [|i].
  - injection Hi as ->. rewrite Z.mul_0_r, Z.add_0_r. unfold load32. rewrite (le_load_ext _ _ (store32 d o v)).
    + unfold store32. rewrite le_load_store_same. by apply Z.mod_small.
    + intros a Ha. apply load8_store_addrs. lia.
  - replace (o + 4 * Z.of_nat (S i)) with (o + 4 + 4 * Z.of_nat i) by lia. by apply IH.
Qed.

(** Peel the stores that do not reach the bytes that are loaded. *)
Ltac load_store :=
  repeat (rewrite le_load_store_disj by lia); rewrite le_load_store_same.

Lemma dinode_addrs l d o :
  length l = Z.to_nat (NDIRECT + 1) -> Forall (fun a => 0 <= a < 2 ^ 32) l ->
  (fun i => load32 (store_addrs l d o) (o + 4 * i)) <$> seqZ 0 (NDIRECT + 1) = l.
Proof.
  intros Hn Hl. apply list_eq_same_length with (length l); [done|by rewrite length_fmap, length_seqZ|].
  intros i v w Hi Hv Hw. rewrite list_lookup_fmap, fmap_Some in Hv. destruct Hv as (k & Hk & ->).
  apply lookup_seqZ in Hk as [-> Hk]. rewrite Z.add_0_l. apply load32_store_addrs; [done|].
  rewrite Forall_forall in Hl. apply Hl. by eapply list_elem_of_lookup_2.
Qed.

Lemma dinode_load_store d o x y : fields_ok x -> dinode_load (dinode_store d o x) o y = with_fields x y.
Proof.
  intros [H1 H2 H3 H4 H5 H6 H7]. unfold dinode_load, dinode_store, with_fields.
  set (d5 := store32 _ (o + 8) _).
  assert (Hlow : forall n a, o <= a -> a + Z.of_nat n <= o + 12 -> le_load n (store_addrs (i_addrs x) d5 (o + 12)) a = le_load n d5 a).
  { intros n a Ha Hn. apply le_load_ext. intros i Hi. apply load8_store_addrs. lia. }
  f_equal; [..|by apply dinode_addrs]; unfold load16, load32; rewrite Hlow by lia; unfold d5, store16, store32; load_store;
    change (256 ^ Z.of_nat 2) with (2 ^ 16); change (256 ^ Z.of_nat 4) with (2 ^ 32); [by apply i16_u16..|by apply Z.mod_small].
Qed.

Lemma dinode_load_ext d d' o y :
  (forall i, o <= i < o + 64 -> load8 d' i = load8 d i) -> dinode_load d' o y = dinode_load d o y.
Proof.
  intros Hd. unfold dinode_load, load16, load32. f_equal; try (f_equal; apply le_load_ext; intros i Hi; apply Hd; lia).
  - apply le_load_ext. intros i Hi. apply Hd. lia.
  - apply list_fmap_ext. intros k i Hk. apply lookup_seqZ in Hk as [-> Hk]. apply le_load_ext. intros j Hj. apply Hd.
    unfold NDIRECT in *. lia.
Qed.

Lemma load8_dinode_store d o x a :
  length (i_addrs x) = Z.to_nat (NDIRECT + 1) -> a < o \/ o + 64 <= a -> load8 (dinode_store d o x) a = load8 d a.
Proof.
  intros Hn Ha. unfold dinode_store, store16, store32. change (Z.to_nat (NDIRECT + 1)) with 13%nat in Hn.
  rewrite load8_store_addrs by (rewrite Hn; lia). rewrite !load8_le_store. bool_case; (lia || done).
Qed.

(** The inode [inum] as it is on disk, for the entry [y]. *)
Definition dinode_at (V : blocks) (sb : superblock) (inum : Z) (y : inode) : inode :=
  dinode_load (V (IBLOCK inum sb)) (dinode_off inum) y.

Lemma IBLOCK_inj sb i j :
  0 <= sb_inodestart sb -> 0 <= i < sb_ninodes sb -> 0 <= j < sb_ninodes sb ->
  sb_inodestart sb + sb_ninodes sb / IPB < 2 ^ 31 -> IBLOCK i sb = IBLOCK j sb -> i mod IPB = j mod IPB -> i = j.
Proof.
  intros Hs Hi Hj He E Em. unfold IBLOCK in E.
  assert (HI : IPB = 16) by reflexivity. rewrite HI in *. rewrite !u32_small in E by div_lia. div_lia.
Qed.

#[export] Instance inode_sleeplock ip : SleepLock (inode_lock ip).
Proof. split; done. Qed.

Section FsInode.
Context (dev pid : Z) (rep : bstate_rel) `{!BlockLayer dev pid rep} (st nlog : Z).
Hypothesis Hgeom : log_geom dev st nlog.

Abbreviation fstxn := (fstxn dev rep st nlog).
Abbreviation home := (home st nlog).

(** Where the inodes are: outside of the log, and not locked by the caller. *)
Record inodes_ok (sb : superblock) (L : list (nat * Z)) : Prop := {
  in_start : 0 <= sb_inodestart sb;
  in_end : sb_inodestart sb + sb_ninodes sb / IPB < 2 ^ 31;
  in_home : forall i, 0 <= i < sb_ninodes sb -> home (IBLOCK i sb) /\ IBLOCK i sb ∉ L.*2
}.

(** The file system after the inode [inum] was written from [x]. *)
Definition iupdated (V : blocks) (sb : superblock) (inum : Z) (x : inode) (V' : blocks) : Prop :=
  exists d, beq d (V (IBLOCK inum sb)) /\ V' = vupd V (IBLOCK inum sb) (dinode_store d (dinode_off inum) x).

Lemma iupdate_spec s D V L blks ip :
  let x := get_inode ip s in
  let sb := k_sb s in
  fstxn s D V L blks -> inodes_ok sb L -> spare nlog L blks 1 -> i_dev x = dev -> 0 <= i_inum x < sb_ninodes sb ->
  exists s' V', iupdate ip s = Ok tt s' /\ log_only s s' /\ k_disk s' = k_disk s /\ iupdated V sb (i_inum x) x V' /\
    fstxn s' D V' L (absorb blks (IBLOCK (i_inum x) sb)).
Proof.
  intros x sb Ht Hi Hs Hdev Hin. destruct (in_home _ _ Hi _ Hin) as [Hh HnL]. unfold iupdate. rewrite !bind_gets.
  fold x sb. rewrite Hdev.
  destruct (fs_rewrite dev pid rep st nlog Hgeom s D V L blks _ (fun d => dinode_store d (dinode_off (i_inum x)) x) Ht HnL Hh Hs)
    as (d & s' & E & Hd & O & K & Ht'). exists s'. eexists. split; [done|]. split; [done|]. split; [done|]. split; [by exists d|done].
Qed.

Lemma iupdated_at V sb inum x V' L :
  inodes_ok sb L -> 0 <= inum < sb_ninodes sb -> fields_ok x -> iupdated V sb inum x V' ->
  (forall bn, bn <> IBLOCK inum sb -> V' bn = V bn) /\
  forall j y, 0 <= j < sb_ninodes sb -> dinode_at V' sb j y = if j =? inum then with_fields x y else dinode_at V sb j y.
Proof.
  intros Hi Hin Hf (d & Hd & ->). split; [intros bn Hbn; by apply vupd_ne|]. intros j y Hj. unfold dinode_at.
  assert (HI : IPB = 16) by reflexivity.
  destruct (Z.eqb_spec j inum) as [->|Hne]; [rewrite vupd_eq; by apply dinode_load_store|].
  destruct (decide (IBLOCK j sb = IBLOCK inum sb)) as [E|E]; [|by rewrite vupd_ne].
  rewrite E, vupd_eq. apply dinode_load_ext. intros i Hi'.
  assert (Hm : j mod IPB <> inum mod IPB) by (intros Em; apply Hne; eapply (IBLOCK_inj sb); try done; apply Hi).
  rewrite load8_dinode_store; [symmetry; apply Hd| |]; [|apply Hf|]; unfold dinode_off, BSIZE in *; rewrite HI in *; div_lia.
Qed.

Lemma rep_itable s D V L P l : rep s D V L P -> rep (set_k_itable l s) D V L P.
Proof. intros Hr. apply (bl_frame s); [done..|]. destruct (bl_running _ _ _ _ _ Hr) as [H1 H2 H3]. by split. Qed.
Lemma rep_inode s D V L P ip f : rep s D V L P -> rep (upd_inode ip f s) D V L P.
Proof. apply rep_itable. Qed.
Lemma fstxn_itable s D V L blks l : fstxn s D V L blks -> fstxn (set_k_itable l s) D V L blks.
Proof. intros H. apply (fstxn_frame dev pid rep st nlog s); [done..|]. destruct (fs_running dev pid rep st nlog s D V L blks H) as [H1 H2 H3]. by split. Qed.

Lemma dinode_at_beq V sb inum d y : beq d (V (IBLOCK inum sb)) -> dinode_load d (dinode_off inum) y = dinode_at V sb inum y.
Proof.
  intros Hd. symmetry. apply dinode_load_ext. intros i Hi. apply Hd. unfold dinode_off in Hi. change IPB with 16 in Hi.
  unfold BSIZE. div_lia.
Qed.

(** ilock on an entry that was not read yet. *)
Lemma ilock_reads s D V L P ip x :
  rep s D V L P -> (length L + size P < bhead)%nat -> k_itable s !! ip = Some x ->
  0 < i_ref x -> slk_locked (i_lock x) = false -> i_valid x = false -> i_dev x = dev ->
  IBLOCK (i_inum x) (k_sb s) ∉ L.*2 ->
  let x' := set_i_valid true (dinode_at V (k_sb s) (i_inum x) (set_i_lock (mk_sleeplock true pid) x)) in
  exists s', ilock (Some ip) s = (if i_type x' =? 0 then Panic "ilock: no type" else Ok tt s') /\
    rep s' D V L P /\ k_itable s' = alter (fun _ => x') ip (k_itable s) /\ k_sb s' = k_sb s.
Proof.
  intros Hr Hroom Hx Href Hl Hv Hdev HnL x'. destruct (bl_running _ _ _ _ _ Hr) as [Hh _ (i & Hc & Hpid)].
  assert (Hg : get_inode ip s = x) by (unfold get_inode; by rewrite Hx). unfold ilock. rewrite bind_gets, Hg.
  rewrite (proj2 (Z.ltb_ge _ _)) by lia.
  assert (Ea : acquiresleep (inode_lock ip) s = Ok tt (upd_inode ip (set_i_lock (mk_sleeplock true pid)) s))
    by (rewrite <- Hpid; apply (acquiresleep_free (inode_lock ip) s i Hh Hc); cbn; by rewrite Hg).
  rewrite (bind_Ok _ _ _ _ _ Ea), bind_gets, (get_upd_inode ip _ s x Hx).
  set (y := set_i_lock (mk_sleeplock true pid) x) in *. set (s1 := upd_inode ip _ s).
  change (i_valid y) with (i_valid x). change (i_dev y) with (i_dev x). change (i_inum y) with (i_inum x). rewrite Hv, Hdev.
  cbn [negb when]. rewrite bind_gets. change (k_sb s1) with (k_sb s).
  destruct (bread_block dev pid rep s1 D V L P _ (rep_inode _ _ _ _ _ ip _ Hr) HnL Hroom) as (b & s2 & E2 & O2 & Hr2 & Hd2 & Hc2).
  rewrite (bind_Ok _ _ _ _ _ E2). unfold buf_data. rewrite bind_gets, bind_modify. set (f := dinode_load _ _).
  destruct (brelse_clean dev pid rep _ D V L P b _ (rep_inode _ _ _ _ _ ip f Hr2) Hc2) as (s3 & E3 & O3 & Hr3).
  rewrite (bind_Ok _ _ _ _ _ E3), bind_modify, bind_gets.
  assert (Ei : k_itable s3 = alter (fun _ => f y) ip (k_itable s)).
  { destruct (bio_only_fields _ _ O3) as (_ & _ & _ & _ & -> & _). cbn.
    destruct (bio_only_fields _ _ O2) as (_ & _ & _ & _ & -> & _). cbn. rewrite alter_compose_list.
    apply list_alter_ext; [|done]. intros z Hz. rewrite Hx in Hz. injection Hz as <-. done. }
  assert (Ef : f y = dinode_at V (k_sb s) (i_inum x) y) by (by apply dinode_at_beq).
  exists (upd_inode ip (set_i_valid true) s3).
  assert (Ei' : k_itable (upd_inode ip (set_i_valid true) s3) = alter (fun _ => x') ip (k_itable s)).
  { cbn. rewrite Ei, alter_compose_list. unfold x'. by rewrite <- Ef. }
  assert (Es : k_sb s3 = k_sb s).
  { destruct (bio_only_fields _ _ O3) as (_ & _ & _ & -> & _). cbn. by destruct (bio_only_fields _ _ O2) as (_ & _ & _ & -> & _). }
  split; [|split; [by apply rep_inode|done]]. unfold get_inode at 1. rewrite Ei', list_lookup_alter_eq, Hx. cbn [default fmap option_fmap option_map].
  unfold id. by destruct (i_type x' =? 0).
Qed.

(** C30: what iupdate writes is what ilock reads.  Inside of a transaction,
    iupdate of the entry [ip] changes one block of the inode area, in which all
    other inodes stay as they were.  In every later state in which the file
    system has these blocks, ilock of an entry for this inode that was not read
    yet locks it, reads the fields that were written and marks it valid; it
    panics exactly if the type that was written is 0. *)
Theorem iupdate_ilock s D V L blks ip :
  let x := get_inode ip s in
  let sb := k_sb s in
  let inum := i_inum x in
  fstxn s D V L blks -> inodes_ok sb L -> spare nlog L blks 1 -> i_dev x = dev -> 0 <= inum < sb_ninodes sb -> fields_ok x ->
  exists s' V', iupdate ip s = Ok tt s' /\ fstxn s' D V' L (absorb blks (IBLOCK inum sb)) /\ k_sb s' = sb /\ k_itable s' = k_itable s /\
    (forall bn, bn <> IBLOCK inum sb -> V' bn = V bn) /\
    (forall j y, 0 <= j < sb_ninodes sb -> j <> inum -> dinode_at V' sb j y = dinode_at V sb j y) /\
    forall t D' L' P j y,
      rep t D' V' L' P -> (length L' + size P < bhead)%nat -> k_sb t = sb -> IBLOCK inum sb ∉ L'.*2 ->
      k_itable t !! j = Some y -> i_dev y = dev -> i_inum y = inum -> 0 < i_ref y -> slk_locked (i_lock y) = false -> i_valid y = false ->
      exists t', ilock (Some j) t = (if i_type x =? 0 then Panic "ilock: no type" else Ok tt t') /\ rep t' D' V' L' P /\
        get_inode j t' = set_i_valid true (with_fields x (set_i_lock (mk_sleeplock true pid) y)).
Proof.
  intros x sb inum Ht Hi Hs Hdev Hin Hf.
  destruct (iupdate_spec s D V L blks ip Ht Hi Hs Hdev Hin) as (s' & V' & E & O & _ & HV & Ht').
  destruct (iupdated_at V sb inum x V' L Hi Hin Hf HV) as [Hout Hat].
  exists s', V'. split; [done|]. split; [done|]. split; [by apply log_only_sb|]. split; [by destruct O as [-> _ _ _]|]. split; [done|].
  split; [intros j y Hj Hne; by rewrite Hat, (proj2 (Z.eqb_neq _ _))|].
  intros t D' L' P j y Hr Hroom Esb HnL Hy Hdy Hiy Hry Hly Hvy.
  destruct (ilock_reads t D' V' L' P j y Hr Hroom Hy Hry Hly Hvy Hdy) as (t' & El & Hr' & Ei & _); [by rewrite Hiy, Esb|].
  rewrite Hiy, Esb, Hat, Z.eqb_refl in El, Ei by done. exists t'. split; [exact El|]. split; [done|].
  unfold get_inode. by rewrite Ei, list_lookup_alter_eq, Hy.
Qed.
End FsInode.

(** * Examples *)

Definition demo_entries : list inode := [demo_inode; inode0; inode0].

Lemma demo_itable_ok : itable_ok demo_entries.
Proof.
  split.
  - intros [|[|[|k]]] x Hx; try discriminate; injection Hx as <-; cbn; lia.
  - intros [|[|[|j]]] [|[|[|k]]] x y Hx Hy; try discriminate; injection Hx as <-; injection Hy as <-; cbn; intros; lia.
Qed.

(** Inode 5 has entry 0, inode 6 gets entry 1. *)
Lemma iget_shares_witness :
  (exists s', iget ROOTDEV 5 (set_k_itable demo_entries kstate0) = Ok 0%nat s') /\
  (exists s', iget ROOTDEV 6 (set_k_itable demo_entries kstate0) = Ok 1%nat s').
Proof.
  pose proof (fun inum => iget_shares (set_k_itable demo_entries kstate0) ROOTDEV inum demo_itable_ok (not_elem_of_nil _)) as H.
  cbn [k_itable set_k_itable] in H. split.
  - destruct (H 5) as [(_ & Hno)|(ip & x & Hx & E & Hc & _)].
    + destruct (Hno 0%nat demo_inode eq_refl) as [He _]. vm_compute in He. discriminate.
    + destruct ip as [|ip]; [by eexists; apply E|]. exfalso. destruct Hc as [Hc|(_ & Hno)].
      * destruct ip as [|[|ip]]; try discriminate; injection Hx as <-; vm_compute in Hc; discriminate.
      * specialize (Hno 0%nat demo_inode eq_refl). vm_compute in Hno. discriminate.
  - eexists. vm_compute. reflexivity.
Defined.

Definition demo_inodes (l : list inode) : kstate := set_k_itable l (demo_fs ∅).

Lemma demo_inodes_ok : inodes_ok 2 LOGSIZE demo_fs_sb [].
Proof.
  split; [vm_compute; congruence|vm_compute; reflexivity|]. intros i Hi. cbn in Hi. split; [|apply not_elem_of_nil].
  unfold IBLOCK. change (sb_inodestart demo_fs_sb) with 32. change IPB with 16.
  rewrite u32_small by div_lia. split; [div_lia|]. unfold inlog, LOGSIZE, MAXOPBLOCKS. div_lia.
Qed.

Lemma demo_fields_ok : fields_ok demo_inode.
Proof.
  split; [vm_compute; split; congruence..|reflexivity|]. apply Forall_cons. split; [lia|].
  apply Forall_replicate. lia.
Qed.

Lemma iupdate_ilock_witness :
  exists s' t', iupdate 0 (demo_inodes [demo_inode]) = Ok tt s' /\
    ilock (Some 0%nat) (set_k_itable [set_i_ref 1 (set_i_inum 5 (set_i_dev ROOTDEV inode0))] s') = Ok tt t' /\
    i_size (get_inode 0 t') = 2.
Proof.
  assert (Ht : FsTxn.fstxn ROOTDEV (brep ROOTDEV 1) 2 LOGSIZE (demo_inodes [demo_inode]) (demo_fs_view ∅) (demo_fs_view ∅) [] []).
  { apply (fstxn_itable ROOTDEV 1 (brep ROOTDEV 1)), demo_fstxn. }
  destruct (iupdate_ilock ROOTDEV 1 (brep ROOTDEV 1) 2 LOGSIZE demo_geom (demo_inodes [demo_inode]) _ _ [] [] 0
    Ht demo_inodes_ok (demo_spare 1 ltac:(lia)) eq_refl ltac:(cbn; lia) demo_fields_ok)
    as (s' & V' & E & Ht' & Hsb & _ & _ & _ & Hl). exists s'.
  set (y := set_i_ref 1 (set_i_inum 5 (set_i_dev ROOTDEV inode0))).
  destruct (Hl (set_k_itable [y] s') (demo_fs_view ∅) [] (list_to_set (absorb [] (IBLOCK 5 demo_fs_sb))) 0%nat y) as (t' & El & _ & Eg).
  - apply (rep_itable ROOTDEV 1 (brep ROOTDEV 1)), Ht'.
  - apply Nat.ltb_lt. vm_compute. reflexivity.
  - exact Hsb.
  - apply not_elem_of_nil.
  - reflexivity.
  - reflexivity.
  - reflexivity.
  - reflexivity.
  - reflexivity.
  - reflexivity.
  - exists t'. split; [exact E|]. split; [exact El|]. rewrite Eg. reflexivity.
Defined.
