(* ===== verification/FsFile.v ===== *)
(** The blocks of a file (kernel/fs.h: struct dinode; kernel/fs.c: bmap): the
    slots that hold block addresses, and what allocating a slot or writing a
    block does to the file and to the rest of the file system. *)
From S2P Require Import Prelude State Locks Kstring Sched Sleeplock Bio BioList BioSpec BlockLayer Log LogSpec Txn Uart Kprintf Either Fs FsTxn FsAlloc FsRead.

(** The slots: 0 .. MAXFILE-1 hold the addresses of the blocks of the file, the
    slot MAXFILE that of the indirect block. *)
Definition saddr (V : blocks) (x : inode) (i : Z) : Z := if i =? MAXFILE then iaddr x NDIRECT else baddr V x i.

(** The contents of the file; a block that is not there counts as zeros. *)
Definition fbyte0 (V : blocks) (x : inode) (off : Z) : Z :=
  if baddr V x (off / BSIZE) =? 0 then 0 else fbyte V x off.

Lemma MAXFILE_val : MAXFILE = 268.
Proof. reflexivity. Qed.

Section FsFile.
Context (st nlog : Z) (sb : superblock).
Abbreviation home := (home st nlog).

(** Block [b] is in use as a data block. *)
Record data_block (V : blocks) (L : list (nat * Z)) (b : Z) : Prop := {
  db_range : 0 < b < sb_size sb;
  db_used : free_block V sb b = false;
  db_home : home b;
  db_unlocked : b ∉ L.*2;
  db_bitmap : forall b', 0 <= b' < sb_size sb -> BBLOCK b' sb <> b;
  db_inodes : forall j, 0 <= j < sb_ninodes sb -> IBLOCK j sb <> b
}.

Record file_wf (V : blocks) (x : inode) (L : list (nat * Z)) : Prop := {
  fw_len : length (i_addrs x) = Z.to_nat (NDIRECT + 1);
  fw_size : 0 <= i_size x <= MAXFILE * BSIZE;
  fw_below : forall bn, 0 <= bn -> bn * BSIZE < i_size x -> baddr V x bn <> 0;
  fw_slot : forall i, 0 <= i <= MAXFILE -> saddr V x i <> 0 -> data_block V L (saddr V x i);
  fw_inj : forall i j, 0 <= i <= MAXFILE -> 0 <= j <= MAXFILE -> saddr V x i <> 0 -> saddr V x i = saddr V x j -> i = j
}.

Lemma baddr_slot V x bn : bn < MAXFILE -> baddr V x bn = saddr V x bn.
Proof. intros H. unfold saddr. by rewrite (proj2 (Z.eqb_neq _ _)) by lia. Qed.
Lemma ind_slot V x : iaddr x NDIRECT = saddr V x MAXFILE.
Proof. unfold saddr. by rewrite Z.eqb_refl. Qed.
Lemma baddr_ind V x bn : NDIRECT <= bn -> baddr V x bn <> 0 -> iaddr x NDIRECT <> 0.
Proof. intros Hbn. unfold baddr. rewrite (proj2 (Z.ltb_ge _ _)) by done. by destruct (Z.eqb_spec (iaddr x NDIRECT) 0). Qed.

Lemma file_wf_ok V x L : file_wf V x L -> file_ok V x L.
Proof.
  intros [Hlen Hsz Hb Hs Hi]. assert (Hlt : forall bn, 0 <= bn -> bn * BSIZE < i_size x -> bn < MAXFILE)
    by (intros bn H1 H2; rewrite MAXFILE_val in *; unfold BSIZE in *; lia).
  split; [done| |].
  - intros bn H1 H2. split; [by apply Hb|]. rewrite baddr_slot by auto. apply (Hs bn); [specialize (Hlt bn H1 H2); lia|].
    rewrite <- baddr_slot by auto. by apply Hb.
  - intros H. rewrite (ind_slot V x). apply (Hs MAXFILE); [rewrite MAXFILE_val; lia|]. rewrite <- ind_slot.
    apply (baddr_ind V x NDIRECT); [done|]. apply Hb; [done|]. unfold NDIRECT, BSIZE in *. lia.
Qed.

(** From [V] and [x] to [V'] and [x'] the file only gets new blocks, which were
    free, no block becomes free, and every block in use by others is unchanged. *)
Record frame (V : blocks) (x : inode) (V' : blocks) (x' : inode) : Prop := {
  fr_free : forall b, 0 <= b < sb_size sb -> free_block V' sb b = true -> free_block V sb b = true;
  fr_slots : forall i, 0 <= i <= MAXFILE -> saddr V x i <> 0 -> saddr V' x' i = saddr V x i;
  fr_new : forall i, 0 <= i <= MAXFILE -> saddr V x i = 0 -> saddr V' x' i <> 0 ->
    0 <= saddr V' x' i < sb_size sb /\ free_block V sb (saddr V' x' i) = true;
  fr_rest : forall b, (0 <= b < sb_size sb -> free_block V sb b = false) ->
    (forall b', 0 <= b' < sb_size sb -> BBLOCK b' sb <> b) ->
    (forall i, 0 <= i <= MAXFILE -> saddr V x i = b -> b = 0) -> V' b = V b
}.

Lemma frame_refl V x : frame V x V x.
Proof. split; done. Qed.

Lemma frame_trans V0 x0 V1 x1 V2 x2 : frame V0 x0 V1 x1 -> frame V1 x1 V2 x2 -> frame V0 x0 V2 x2.
Proof.
  intros [A1 A2 A3 A4] [B1 B2 B3 B4]. split.
  - intros b Hb Hf. by apply A1, B1.
  - intros i Hi Hne. rewrite B2, A2 by (done || by rewrite A2). done.
  - intros i Hi H0 Hne. destruct (Z.eqb_spec (saddr V1 x1 i) 0) as [E|E].
    + destruct (B3 i Hi E Hne) as [? ?]. split; [done|by apply A1].
    + rewrite B2 in * by done. by apply A3.
  - intros b Hu Hbm Hs. rewrite B4, A4; [done..| |done|].
    + intros Hb. destruct (free_block V1 sb b) eqn:E; [|done]. rewrite (A1 b Hb E) in Hu. by discriminate Hu.
    + intros i Hi E. destruct (Z.eqb_spec (saddr V0 x0 i) 0) as [E0|E0]; [|by apply (Hs i Hi); rewrite <- A2].
      destruct (Z.eqb_spec b 0) as [|Hb]; [done|]. exfalso. destruct (A3 i Hi E0) as [Hr Hf]; [congruence|].
      rewrite E in *. rewrite Hu in Hf by done. done.
Qed.

Section Alloc.
Context (V V' : blocks) (x x' : inode) (L : list (nat * Z)) (i r : Z).
Hypothesis (Hwf : file_wf V x L) (Hi : 0 <= i <= MAXFILE) (H0 : saddr V x i = 0).
Hypothesis (Hr : 0 < r < sb_size sb) (Hfree : free_block V sb r = true) (Hfo : free_ok st nlog V sb L)
  (Hri : forall j, 0 <= j < sb_ninodes sb -> IBLOCK j sb <> r).
Hypothesis (Hfree' : forall b, 0 <= b < sb_size sb -> free_block V' sb b = negb (b =? r) && free_block V sb b).
Hypothesis (Hslots : forall j, 0 <= j <= MAXFILE -> saddr V' x' j = if j =? i then r else saddr V x j).
Hypothesis (Hx : length (i_addrs x') = length (i_addrs x) /\ i_size x' = i_size x).
Hypothesis (Hother : forall b, b <> r -> (forall b', 0 <= b' < sb_size sb -> BBLOCK b' sb <> b) ->
  b <> iaddr x NDIRECT \/ b = 0 -> V' b = V b).
Hypothesis (Hzero : zero_block (V' r)).

Lemma alloc_fresh j : 0 <= j <= MAXFILE -> saddr V x j <> r.
Proof.
  intros Hj E. destruct (fw_slot _ _ _ Hwf j Hj) as [_ Hu _ _ _ _]; [lia|]. rewrite E in Hu. congruence.
Qed.

Lemma alloc_wf : file_wf V' x' L.
Proof.
  destruct Hwf as [Hlen Hsz Hb Hs Hinj]. destruct Hx as [Hxl Hxs].
  assert (Hr' : data_block V' L r).
  { destruct (Hfo r ltac:(lia) Hfree) as (H1 & H2 & H3). split; [lia| |done..]. rewrite Hfree' by lia. by rewrite Z.eqb_refl. }
  split; [congruence|by rewrite Hxs| | |].
  - intros bn H1 H2. rewrite Hxs in H2. assert (bn < MAXFILE) by (rewrite MAXFILE_val in *; unfold BSIZE in *; lia).
    rewrite baddr_slot, Hslots by lia. destruct (bn =? i); [lia|]. rewrite <- baddr_slot by done. by apply Hb.
  - intros j Hj. rewrite Hslots by done. destruct (j =? i); [done|]. intros Hne. destruct (Hs j Hj Hne) as [A B C D E F].
    split; [done| |done..]. rewrite Hfree' by lia. by rewrite B, andb_false_r.
  - intros j k Hj Hk. rewrite !Hslots by done. destruct (Z.eqb_spec j i) as [->|], (Z.eqb_spec k i) as [->|]; intros Hne E; try done.
    + exfalso. by apply (alloc_fresh k Hk).
    + exfalso. by apply (alloc_fresh j Hj).
    + by apply Hinj.
Qed.

Lemma alloc_fbyte off : 0 <= off < MAXFILE * BSIZE -> fbyte0 V' x' off = fbyte0 V x off.
Proof.
  intros Hoff. unfold fbyte0, fbyte. assert (Hbn : 0 <= off / BSIZE < MAXFILE) by (rewrite MAXFILE_val in *; unfold BSIZE in *; div_lia).
  rewrite !baddr_slot, Hslots by lia. destruct (Z.eqb_spec (off / BSIZE) i) as [E|E].
  - rewrite E, H0. rewrite (proj2 (Z.eqb_neq r 0)) by lia. cbn. apply Hzero. unfold BSIZE. div_lia.
  - destruct (Z.eqb_spec (saddr V x (off / BSIZE)) 0) as [|Hne]; [done|].
    destruct (fw_slot _ _ _ Hwf (off / BSIZE) ltac:(lia) Hne) as [_ _ _ _ Hbm _].
    rewrite Hother; [done|by apply alloc_fresh; lia|done|]. left. rewrite (ind_slot V x).
    intros E2. assert (off / BSIZE = MAXFILE) by (apply (fw_inj _ _ _ Hwf); (done || lia)). lia.
Qed.

Lemma alloc_frame : frame V x V' x'.
Proof.
  split.
  - intros b Hb. rewrite Hfree' by done. by intros [_ ?]%andb_true_iff.
  - intros j Hj Hne. rewrite Hslots by done. destruct (Z.eqb_spec j i) as [->|]; [by rewrite H0 in Hne|done].
  - intros j Hj E. rewrite Hslots by done. destruct (Z.eqb_spec j i); [|by rewrite E]. intros _. split; [lia|done].
  - intros b Hu Hbm Hs. apply Hother; [|done|].
    + intros ->. rewrite Hu in Hfree by lia. done.
    + destruct (Z.eqb_spec b 0) as [|Hb]; [by right|left]. intros ->. apply Hb, (Hs MAXFILE); [rewrite MAXFILE_val; lia|].
      symmetry. apply ind_slot.
Qed.

Lemma alloc_free_ok : free_ok st nlog V' sb L.
Proof. intros b Hb Hf. rewrite Hfree' in Hf by done. apply andb_true_iff in Hf as [_ Hf]. by apply Hfo. Qed.
End Alloc.

(** * Writing a block of the file *)
Section Write.
Context (V : blocks) (x : inode) (L : list (nat * Z)) (bn : Z) (d : bytes).
Hypothesis (Hwf : file_wf V x L) (Hbn : 0 <= bn < MAXFILE) (Hne : baddr V x bn <> 0).
Let V' := vupd V (baddr V x bn) d.

Lemma write_data : data_block V L (baddr V x bn).
Proof. rewrite baddr_slot in * by lia. apply (fw_slot _ _ _ Hwf); (done || lia). Qed.

Lemma write_saddr i : 0 <= i <= MAXFILE -> saddr V' x i = saddr V x i.
Proof.
  intros Hi. unfold saddr, baddr. destruct (i =? MAXFILE); [done|]. destruct (i <? NDIRECT); [done|].
  destruct (Z.eqb_spec (iaddr x NDIRECT) 0) as [|Hind]; [done|]. unfold V'. rewrite vupd_ne; [done|].
  intros E. rewrite baddr_slot, (ind_slot V x) in E by lia.
  assert (MAXFILE = bn) by (apply (fw_inj _ _ _ Hwf); try lia; by rewrite <- ind_slot). lia.
Qed.

Lemma write_free b : 0 <= b < sb_size sb -> free_block V' sb b = free_block V sb b.
Proof. intros Hb. unfold free_block, V'. rewrite vupd_ne; [done|]. by apply write_data. Qed.

Lemma write_wf : file_wf V' x L.
Proof.
  destruct Hwf as [Hlen Hsz Hb Hs Hinj]. split; [done|done| | |].
  - intros b H1 H2. assert (b < MAXFILE) by (rewrite MAXFILE_val in *; unfold BSIZE in *; lia).
    rewrite baddr_slot, write_saddr, <- baddr_slot by lia. by apply Hb.
  - intros i Hi. rewrite write_saddr by done. intros Hi0. destruct (Hs i Hi Hi0) as [A B C D E F].
    split; [done|by rewrite write_free by lia|done..].
  - intros i j Hi Hj. rewrite !write_saddr by done. by apply Hinj.
Qed.

Lemma write_fbyte off : 0 <= off < MAXFILE * BSIZE ->
  fbyte0 V' x off = if off / BSIZE =? bn then load8 d (off mod BSIZE) else fbyte0 V x off.
Proof.
  intros Hoff. assert (Ho : 0 <= off / BSIZE < MAXFILE) by (rewrite MAXFILE_val in *; unfold BSIZE in *; div_lia).
  unfold fbyte0, fbyte. rewrite !(baddr_slot V' x), write_saddr, <- !baddr_slot by lia.
  destruct (Z.eqb_spec (off / BSIZE) bn) as [->|Hoff'].
  - rewrite (proj2 (Z.eqb_neq _ _) Hne). unfold V'. by rewrite vupd_eq.
  - destruct (Z.eqb_spec (baddr V x (off / BSIZE)) 0) as [|Hb]; [done|]. unfold V'. rewrite vupd_ne; [done|].
    intros E. apply Hoff'. apply (fw_inj _ _ _ Hwf); try lia; rewrite <- !baddr_slot by lia; done.
Qed.

Lemma write_frame : frame V x V' x.
Proof.
  split.
  - intros b Hb. by rewrite write_free.
  - intros i Hi _. by apply write_saddr.
  - intros i Hi E. by rewrite write_saddr, E.
  - intros b Hu Hbm Hs. unfold V'. apply vupd_ne. intros ->. apply Hne, (Hs bn); [lia|]. symmetry. apply baddr_slot. lia.
Qed.

Lemma write_free_ok : free_ok st nlog V sb L -> free_ok st nlog V' sb L.
Proof. intros Hf b Hb. rewrite write_free by done. by apply Hf. Qed.
End Write.
End FsFile.
