(* ===== verification/FsPath.v ===== *)
(** Path names (kernel/fs.c: skipelem): the elements that the loop of namex
    visits are the non-empty parts of the path between slashes. *)
From S2P Require Import Prelude State Kstring Locks Sched Sleeplock Bio Log Uart Kprintf Either Fs.

(** The array holds the string [l] at [p], with its NUL. *)
Definition string_at (m : bytes) (p : Z) (l : list Z) : Prop :=
  (forall i c, l !! i = Some c -> load8 m (p + Z.of_nat i) = c /\ c <> 0) /\ load8 m (p + Z.of_nat (length l)) = 0.

Lemma string_at_app m p l1 l2 : string_at m p (l1 ++ l2) -> string_at m (p + Z.of_nat (length l1)) l2.
Proof.
  intros [Hl H0]. split.
  - intros i c Hi. rewrite <- Z.add_assoc, <- Nat2Z.inj_add. apply Hl. rewrite lookup_app_r by lia.
    by replace (length l1 + i - length l1)%nat with i by lia.
  - rewrite length_app, Nat2Z.inj_add, Z.add_assoc in H0. done.
Qed.

Lemma string_at_size m p l : string_at m p l -> (length l <= size m)%nat.
Proof.
  intros [Hl _]. apply (nonzero_run_size m p). intros i Hi.
  destruct (lookup_lt_is_Some_2 l (Z.to_nat i)) as [c Hc]; [lia|]. destruct (Hl _ _ Hc) as [E Hne].
  rewrite Z2Nat.id in E by lia. by rewrite E.
Qed.

(** The maximal prefix whose characters satisfy [cond]. *)
Fixpoint span_while (cond : Z -> bool) (l : list Z) : list Z * list Z :=
  match l with
  | [] => ([], [])
  | c :: l' => if cond c then let '(a, b) := span_while cond l' in (c :: a, b) else ([], l)
  end.

Lemma span_while_app cond l : let '(a, b) := span_while cond l in l = a ++ b.
Proof.
  induction l as [|c l IH]; cbn; [done|]. destruct (cond c); [|done]. destruct (span_while cond l). cbn. by rewrite IH.
Qed.

Lemma skip_while_spec cond m fuel : forall p l,
  cond 0 = false -> string_at m p l -> (length l < fuel)%nat ->
  skip_while fuel cond m p = p + Z.of_nat (length (span_while cond l).1).
Proof.
  induction fuel as [|fuel IH]; intros p l H0 Hl Hf; [lia|]. cbn [skip_while]. destruct l as [|c l]; cbn [span_while].
  - destruct Hl as [_ Hl]. rewrite Z.add_0_r in *. cbn in Hl. rewrite Hl, H0. done.
  - destruct Hl as [Hc Hz]. destruct (Hc 0%nat c eq_refl) as [E _]. cbn in E. rewrite Z.add_0_r in E. rewrite E.
    destruct (cond c); [|cbn; lia]. rewrite (IH (p + 1) l H0).
    + destruct (span_while cond l). cbn [fst length]. lia.
    + apply (string_at_app m p [c] l). by split.
    + cbn in Hf. lia.
Qed.

(** * The reference: splitting a path at its slashes *)

Fixpoint split_slash (l : list Z) : list (list Z) :=
  match l with
  | [] => [[]]
  | c :: l =>
      if is_slash c then [] :: split_slash l
      else match split_slash l with
           | [] => [[c]]
           | w :: ws => (c :: w) :: ws
           end
  end.
Definition path_elems (l : list Z) : list (list Z) := filter (fun w => w <> []) (split_slash l).

Lemma path_elems_slash c l : is_slash c = true -> path_elems (c :: l) = path_elems l.
Proof. intros Hc. unfold path_elems. cbn [split_slash]. rewrite Hc. by rewrite filter_cons_False by auto. Qed.

Lemma path_elems_skip l : path_elems (span_while is_slash l).2 = path_elems l.
Proof.
  induction l as [|c l IH]; cbn [span_while]; [done|]. destruct (is_slash c) eqn:E; [|done].
  destruct (span_while is_slash l) as [a b]. cbn [snd] in *. by rewrite path_elems_slash.
Qed.

(** No slash and no NUL: a character of an element. *)
Lemma split_slash_word w r :
  Forall (fun c => is_slash c = false) w -> (r = [] \/ exists c r', r = c :: r' /\ is_slash c = true) ->
  exists ws, split_slash (w ++ r) = w :: ws /\ filter (fun w => w <> []) ws = path_elems r.
Proof.
  intros Hw Hr. induction Hw as [|c w Hc _ IH]; cbn [app].
  - destruct Hr as [->|(c & r' & -> & Hc)].
    + exists []. done.
    + cbn [split_slash]. rewrite Hc. exists (split_slash r'). split; [done|]. by rewrite path_elems_slash.
  - destruct IH as (ws & E & Ef). exists ws. cbn [split_slash]. by rewrite Hc, E.
Qed.

Lemma path_elems_word w r :
  w <> [] -> Forall (fun c => is_slash c = false) w -> (r = [] \/ exists c r', r = c :: r' /\ is_slash c = true) ->
  path_elems (w ++ r) = w :: path_elems r.
Proof.
  intros Hne Hw Hr. destruct (split_slash_word w r Hw Hr) as (ws & E & Ef).
  unfold path_elems at 1. by rewrite E, filter_cons_True, Ef.
Qed.

Lemma path_elems_word_ne c l : is_slash c = false -> path_elems (c :: l) <> [].
Proof.
  intros Hc. unfold path_elems. cbn [split_slash]. rewrite Hc.
  destruct (split_slash l); by rewrite filter_cons_True.
Qed.

Lemma span_while_spec cond l :
  let '(a, b) := span_while cond l in
  Forall (fun c => cond c = true) a /\ match b with [] => True | c :: _ => cond c = false end.
Proof.
  induction l as [|c l IH]; cbn [span_while]; [by split|]. destruct (cond c) eqn:E; [|by split].
  destruct (span_while cond l) as [a b]. destruct IH as [Ha Hb]. split; [by constructor|done].
Qed.

Lemma cstr_take n : forall m a w,
  (forall i c, (i < n)%nat -> w !! i = Some c -> load8 m (a + Z.of_nat i) = c /\ c <> 0) ->
  (n <= length w)%nat \/ load8 m (a + Z.of_nat (length w)) = 0 ->
  cstr n m a = take n w.
Proof.
  induction n as [|n IH]; intros m a w Hw Hend; [done|]. cbn [cstr]. destruct w as [|c w].
  - destruct Hend as [Hend|Hend]; [cbn in Hend; lia|]. cbn in Hend. rewrite Z.add_0_r in Hend. by rewrite Hend.
  - destruct (Hw 0%nat c ltac:(lia) eq_refl) as [E Hne]. cbn in E. rewrite Z.add_0_r in E. rewrite E.
    rewrite (proj2 (Z.eqb_neq _ _)) by done. cbn [take]. f_equal. apply IH.
    + intros i x Hi Hx. replace (a + 1 + Z.of_nat i) with (a + Z.of_nat (S i)) by lia. apply Hw; [lia|done].
    + destruct Hend as [Hend|Hend]; cbn [length] in Hend; [left; lia|right]. rewrite <- Hend. f_equal. lia.
Qed.

(** The name of an element, cut off after DIRSIZ characters. *)
Lemma elem_name path s w r name :
  string_at path s (w ++ r) ->
  let len := Z.of_nat (length w) in
  let name' := if DIRSIZ <=? len then copy_into (Z.to_nat DIRSIZ) path s name 0
               else store8 (copy_into (Z.to_nat len) path s name 0) len 0 in
  cstr (Z.to_nat DIRSIZ) name' 0 = take (Z.to_nat DIRSIZ) w.
Proof.
  intros [Hl _] len name'. assert (Hw : forall i c, w !! i = Some c -> load8 path (s + Z.of_nat i) = c /\ c <> 0)
    by (intros i c Hi; apply Hl; by apply lookup_app_l_Some).
  subst name'. destruct (Z.leb_spec DIRSIZ len) as [Hge|Hlt]; apply cstr_take.
  - intros i c Hi Hc. rewrite load8_copy_into. unfold DIRSIZ in *. bool_case; try lia.
    replace (s + (0 + Z.of_nat i - 0)) with (s + Z.of_nat i) by lia. by apply Hw.
  - left. unfold len, DIRSIZ in *. lia.
  - intros i c Hi Hc. pose proof (lookup_lt_Some _ _ _ Hc). rewrite load8_store8, load8_copy_into. unfold len in *.
    bool_case; try lia. replace (s + (0 + Z.of_nat i - 0)) with (s + Z.of_nat i) by lia. by apply Hw.
  - right. rewrite load8_store8, Z.add_0_l. by rewrite Z.eqb_refl.
Qed.

Lemma skipelem_spec path p l name :
  string_at path p l ->
  match path_elems l with
  | [] => skipelem path p name = None
  | w :: ws => exists p' name' l', skipelem path p name = Some (p', name') /\ string_at path p' l' /\
      path_elems l' = ws /\ (l' = [] <-> ws = []) /\ cstr (Z.to_nat DIRSIZ) name' 0 = take (Z.to_nat DIRSIZ) w
  end.
Proof.
  intros Hl. pose proof (string_at_size _ _ _ Hl) as Hsz.
  assert (Hskip : forall cond q k, cond 0 = false -> string_at path q k ->
    skip_while (S (size path)) cond path q = q + Z.of_nat (length (span_while cond k).1)).
  { intros cond q k Hc Hk. apply skip_while_spec; [done..|]. pose proof (string_at_size _ _ _ Hk). lia. }
  unfold skipelem. rewrite (Hskip is_slash p l eq_refl Hl). rewrite <- path_elems_skip.
  pose proof (span_while_app is_slash l) as Ea. pose proof (span_while_spec is_slash l) as Hs.
  destruct (span_while is_slash l) as [a b]. cbn [fst snd]. destruct Hs as [_ Hb]. subst l.
  apply string_at_app in Hl. set (s := p + Z.of_nat (length a)) in *. destruct b as [|c b].
  { destruct Hl as [_ Hz]. cbn in Hz. rewrite Z.add_0_r in Hz. by rewrite Hz. }
  pose proof Hl as [Hc _]. destruct (Hc 0%nat c eq_refl) as [E0 Hc0]. cbn in E0. rewrite Z.add_0_r in E0. rewrite E0.
  rewrite (proj2 (Z.eqb_neq _ _)) by done. rewrite (Hskip in_elem s (c :: b) eq_refl Hl).
  pose proof (span_while_app in_elem (c :: b)) as Er. pose proof (span_while_spec in_elem (c :: b)) as Hs.
  assert (Hfst : in_elem c = true) by (unfold in_elem; unfold is_slash in Hb; rewrite Hb; by rewrite (proj2 (Z.eqb_neq _ _))).
  assert (Hne : (span_while in_elem (c :: b)).1 <> []) by (cbn [span_while]; rewrite Hfst; by destruct (span_while in_elem b)).
  destruct (span_while in_elem (c :: b)) as [w r]. cbn [fst] in *. destruct Hs as [Hw Hr]. rewrite Er in *.
  rewrite path_elems_word; [|done|..].
  - exists (s + Z.of_nat (length w) + Z.of_nat (length (span_while is_slash r).1)). eexists.
    pose proof (span_while_app is_slash r) as Er2. pose proof (span_while_spec is_slash r) as Hs2.
    pose proof (path_elems_skip r) as Ep. pose proof (string_at_app _ _ _ _ Hl) as Hr'.
    rewrite (Hskip is_slash _ r eq_refl Hr'). destruct (span_while is_slash r) as [x y]. cbn [fst snd] in *. exists y.
    replace (s + Z.of_nat (length w) - s) with (Z.of_nat (length w)) by lia.
    split; [reflexivity|]. split; [rewrite Er2 in Hr'; by apply string_at_app|]. split; [done|]. split.
    + rewrite <- Ep. split; [by intros ->|]. destruct y as [|d y]; [done|]. intros Hy. exfalso.
      exact (path_elems_word_ne d y (proj2 Hs2) Hy).
    + by eapply elem_name.
  - eapply Forall_impl; [exact Hw|]. cbn. intros x Hx. unfold in_elem in Hx. apply andb_true_iff in Hx as [Hx _].
    unfold is_slash. by apply negb_true_iff.
  - destruct r as [|d r]; [by left|right]. exists d, r. split; [done|].
    apply string_at_app in Hl as [Hd _]. destruct (Hd 0%nat d eq_refl) as [_ Hd0]. unfold in_elem in Hr. unfold is_slash.
    rewrite (proj2 (Z.eqb_neq d 0)) in Hr by done. by destruct (d =? 47).
Qed.

(** C23: skipelem cuts a path at its slashes.  For the string [l] at [p], it
    returns nothing exactly when the path has no element; otherwise the name
    is the first element, cut off after DIRSIZ characters, and what is left of
    the path has exactly the other elements and is the empty string when there
    is none, so the test for the last element in namex is right. *)
Theorem skipelem_elements path p l name :
  string_at path p l ->
  match path_elems l with
  | [] => skipelem path p name = None
  | w :: ws => exists p' name' l', skipelem path p name = Some (p', name') /\ string_at path p' l' /\
      path_elems l' = ws /\ (l' = [] <-> ws = []) /\ cstr (Z.to_nat DIRSIZ) name' 0 = take (Z.to_nat DIRSIZ) w
  end.
Proof. apply skipelem_spec. Qed.

Definition demo_path : bytes := list_to_map (zip (seqZ 0 12) [47; 97; 47; 47; 98; 99; 47; 0; 0; 0; 0; 0]).

Lemma skipelem_elements_witness : exists p' name' l', skipelem demo_path 0 ∅ = Some (p', name') /\
  string_at demo_path p' l' /\ path_elems l' = [[98; 99]] /\ (l' = [] <-> [[98; 99]] = @nil (list Z)) /\
  cstr (Z.to_nat DIRSIZ) name' 0 = [97].
Proof.
  refine (skipelem_elements demo_path 0 [47; 97; 47; 47; 98; 99; 47] ∅ _). split; [|reflexivity].
  intros i c Hi. do 7 (destruct i as [|i]; [injection Hi as <-; split; [reflexivity|lia]|]). discriminate Hi.
Defined.
