(* ===== verification/Pipe.v ===== *)
(** Pipes and the file table (kernel/pipe.c, and of kernel/file.c what pipes
    need: filealloc and the file structures).  The struct pipe that lives in
    the page at address [pi] is [k_pipes !! pi].

    pipewrite goes to sleep with some of its bytes already written; the call
    resumes in its loop, which is [pipewrite_from] with the number of bytes
    written so far. *)
From S2P Require Import Prelude State Locks Kstring Kalloc Vm Sched Either Ring.

Definition PIPESIZE : Z := 512.

Definition get_file (f : nat) (s : kstate) : file := default file0 (k_ftable s !! f).
Definition upd_file (f : nat) (g : file -> file) (s : kstate) : kstate :=
  set_k_ftable (alter g f (k_ftable s)) s.

Definition pipe0 : pipe := mk_pipe ∅ 0 0 false false.
Definition get_pipe (pi : Z) (s : kstate) : pipe := default pipe0 (k_pipes s !! pi).
Definition upd_pipe (pi : Z) (g : pipe -> pipe) (s : kstate) : kstate :=
  set_k_pipes (<[pi := g (get_pipe pi s)]> (k_pipes s)) s.

(** The loop of filealloc: the first file with no reference. *)
Fixpoint find_file (l : list file) (f : nat) : option nat :=
  match l with
  | [] => None
  | x :: l => if f_ref x =? 0 then Some f else find_file l (S f)
  end.

Definition filealloc : K (option nat) :=
  acquire LkFtable ;;;
  l <- gets k_ftable ;;
  match find_file l 0 with
  | Some f => modify (upd_file f (set_f_ref 1)) ;;; release LkFtable ;;; ret (Some f)
  | None => release LkFtable ;;; ret None
  end.

Section Pipe.
Context `{Linker}.

Definition pipeclose (pi : Z) (writable : bool) : K unit :=
  acquire (LkPipe pi) ;;;
  (if writable
   then modify (upd_pipe pi (set_pi_writeopen false)) ;;; wakeup (ChPipeRead pi)
   else modify (upd_pipe pi (set_pi_readopen false)) ;;; wakeup (ChPipeWrite pi)) ;;;
  p <- gets (get_pipe pi) ;;
  if negb (pi_readopen p) && negb (pi_writeopen p)
  then release (LkPipe pi) ;;; kfree pi ;;; modify (fun s => set_k_pipes (delete pi (k_pipes s)) s)
  else release (LkPipe pi).

(** The loop of pipewrite from [i]; every pass but a sleeping one advances it. *)
Fixpoint pipewrite_loop (fuel : nat) (pi addr n i : Z) : K (option Z) :=
  match fuel with
  | O => fun _ => Diverge
  | S fuel =>
      if i <? n then
        pr <- curproc ;;
        p <- gets (get_pipe pi) ;;
        k <- (if negb (pi_readopen p) then ret 1 else killed pr) ;;
        if negb (k =? 0) then ret None
        else if pi_nwrite p =? u32 (pi_nread p + PIPESIZE) then
          wakeup (ChPipeRead pi) ;;;
          sleep (ChPipeWrite pi) (LkPipe pi) ;;;
          pipewrite_loop fuel pi addr n i
        else
          pt <- curpagetable ;;
          r <- copyin pt ∅ 0 (u64 (addr + i)) 1 ;;
          let '(r, ch) := r in
          if r =? -1 then ret (Some i)
          else
            modify (upd_pipe pi (fun p => set_pi_data (store8 (pi_data p) (pi_nwrite p mod PIPESIZE) (load8 ch 0)) p)) ;;;
            modify (upd_pipe pi (fun p => set_pi_nwrite (u32 (pi_nwrite p + 1)) p)) ;;;
            pipewrite_loop fuel pi addr n (i + 1)
      else ret (Some i)
  end.

(** pipewrite with the lock held and [i] bytes written. *)
Definition pipewrite_from (pi addr n i : Z) : K Z :=
  r <- pipewrite_loop (S (Z.to_nat (n - i))) pi addr n i ;;
  match r with
  | None => release (LkPipe pi) ;;; ret (-1)
  | Some i => wakeup (ChPipeRead pi) ;;; release (LkPipe pi) ;;; ret i
  end.

Definition pipewrite (pi addr n : Z) : K Z :=
  acquire (LkPipe pi) ;;;
  pipewrite_from pi addr n 0.

(** The copy loop of piperead from [i]. *)
Fixpoint piperead_loop (fuel : nat) (pi addr n i : Z) : K Z :=
  match fuel with
  | O => fun _ => Diverge
  | S fuel =>
      if i <? n then
        p <- gets (get_pipe pi) ;;
        if pi_nread p =? pi_nwrite p then ret i
        else
          let ch := load8 (pi_data p) (pi_nread p mod PIPESIZE) in
          modify (upd_pipe pi (fun p => set_pi_nread (u32 (pi_nread p + 1)) p)) ;;;
          pt <- curpagetable ;;
          r <- copyout pt (u64 (addr + i)) (store8 ∅ 0 ch) 0 1 ;;
          if r =? -1 then ret i else piperead_loop fuel pi addr n (i + 1)
      else ret i
  end.

Definition piperead (pi addr n : Z) : K Z :=
  acquire (LkPipe pi) ;;;
  p <- gets (get_pipe pi) ;;
  if (pi_nread p =? pi_nwrite p) && pi_writeopen p then
    pr <- curproc ;;
    k <- killed pr ;;
    if negb (k =? 0) then release (LkPipe pi) ;;; ret (-1)
    else sleep (ChPipeRead pi) (LkPipe pi) ;;; ret 0
  else
    i <- piperead_loop (S (Z.to_nat n)) pi addr n 0 ;;
    wakeup (ChPipeWrite pi) ;;;
    release (LkPipe pi) ;;;
    ret i.
End Pipe.
