(* ===== verification/PipeSpec.v ===== *)
(** Pipes are bounded first-in first-out queues of bytes (kernel/pipe.c): what
    pipewrite appends, what piperead takes, when they sleep and when they give
    up. *)
From S2P Require Import Prelude State Locks Kstring Kalloc Vm PageTable VmSpec Uvm UvmCopy Copy Sched Either Ring Pipe.

#[export] Instance pipe_ring_size : RingSize PIPESIZE (2 ^ 32).
Proof. split; unfold PIPESIZE; [lia..|done]. Qed.

Abbreviation pipe_ring p q := (ring PIPESIZE (2 ^ 32) (pi_data p) (pi_nread p) (pi_nwrite p) q).

Definition with_pipe (pi : Z) (p : pipe) (s : kstate) : kstate := set_k_pipes (<[pi := p]> (k_pipes s)) s.

Lemma get_with_pipe pi p s : get_pipe pi (with_pipe pi p s) = p.
Proof. unfold get_pipe. cbn. by rewrite lookup_insert_eq. Qed.

Lemma upd_with_pipe pi g p s : upd_pipe pi g (with_pipe pi p s) = with_pipe pi (g p) s.
Proof. unfold upd_pipe. rewrite get_with_pipe. unfold with_pipe. cbn. by rewrite insert_insert_eq. Qed.

Lemma with_pipe_same pi p s : k_pipes s !! pi = Some p -> with_pipe pi p s = s.
Proof. intros E. unfold with_pipe. rewrite insert_id by done. by destruct s. Qed.

Section PipeSpec.
Context `{Linker}.

(** The process [c] runs with the pipe's lock; the pipe holds [q]. *)
Record pipe_env (s : kstate) (c : nat) (pi root : Z) (P D fl : list Z) (p : pipe) (q : list Z) : Prop := {
  pe_pipe : k_pipes s !! pi = Some p;
  pe_ring : pipe_ring p q;
  pe_cur : k_cur s = Some c;
  pe_procs : length (k_procs s) = Z.to_nat NPROC;
  pe_lt : (c < length (k_procs s))%nat;
  pe_held : k_held s = [LkPipe pi];
  pe_root : p_pagetable (get_proc c s) = root;
  pe_space : uspace s root P D fl
}.

Lemma pipe_env_with s c pi root P D fl p q p' q' :
  pipe_env s c pi root P D fl p q -> pipe_ring p' q' -> pipe_env (with_pipe pi p' s) c pi root P D fl p' q'.
Proof.
  intros [? ? ? ? ? Eh ? Hu] Hr. split; try done.
  - cbn. apply lookup_insert_eq.
  - eapply uspace_ext; [| | |done]; try done. cbn. rewrite Eh. set_solver.
Qed.


Lemma pipe_env_get s c pi root P D fl p q : pipe_env s c pi root P D fl p q -> get_pipe pi s = p.
Proof. intros [E _ _ _ _ _ _ _]. unfold get_pipe. by rewrite E. Qed.

(** pi->data[pi->nwrite++ % PIPESIZE] = b *)
Definition push (b : Z) (p : pipe) : pipe :=
  set_pi_nwrite (u32 (pi_nwrite p + 1)) (set_pi_data (store8 (pi_data p) (pi_nwrite p mod PIPESIZE) b) p).

Definition may_write (s : kstate) (c : nat) (p : pipe) : bool :=
  pi_readopen p && (p_killed (get_proc c s) =? 0).

(** The state in which a writer sleeps on a full pipe. *)
Definition writer_asleep (pi : Z) (c : nat) (s : kstate) : kstate :=
  set_k_cur None (set_k_held [] (upd_proc c (asleep (ChPipeWrite pi))
    (set_k_procs (imap (woken (k_cur s) (ChPipeRead pi)) (k_procs s)) s))).

Lemma pipewrite_stop fuel s c pi root P D fl p q addr n i :
  pipe_env s c pi root P D fl p q -> i < n -> may_write s c p = false ->
  pipewrite_loop (S fuel) pi addr n i s = Ok None s.
Proof.
  intros He Hi Hm. cbn [pipewrite_loop]. rewrite (proj2 (Z.ltb_lt _ _)) by done.
  rewrite (bind_Ok _ _ _ _ _ (curproc_Ok s c (pe_cur _ _ _ _ _ _ _ _ _ He))), bind_gets.
  rewrite (pipe_env_get _ _ _ _ _ _ _ _ _ He). unfold may_write in Hm.
  destruct (pi_readopen p); cbn [negb andb] in *; [|by rewrite bind_ret].
  erewrite (bind_Ok (killed c)) by (apply killed_Ok; rewrite (pe_held _ _ _ _ _ _ _ _ _ He); set_solver).
  by rewrite Hm.
Qed.

(** The head of an iteration that may write. *)
Lemma pipewrite_go fuel s c pi root P D fl p q addr n i :
  pipe_env s c pi root P D fl p q -> i < n -> may_write s c p = true ->
  pipewrite_loop (S fuel) pi addr n i s =
  (if pi_nwrite p =? u32 (pi_nread p + PIPESIZE) then
     wakeup (ChPipeRead pi) ;;;
     sleep (ChPipeWrite pi) (LkPipe pi) ;;;
     pipewrite_loop fuel pi addr n i
   else
     r <- copyin root ∅ 0 (u64 (addr + i)) 1 ;;
     let '(r, ch) := r in
     if r =? -1 then ret (Some i)
     else
       modify (upd_pipe pi (fun p => set_pi_data (store8 (pi_data p) (pi_nwrite p mod PIPESIZE) (load8 ch 0)) p)) ;;;
       modify (upd_pipe pi (fun p => set_pi_nwrite (u32 (pi_nwrite p + 1)) p)) ;;;
       pipewrite_loop fuel pi addr n (i + 1)) s.
Proof.
  intros He Hi [Ho Hk]%andb_true_iff. cbn [pipewrite_loop]. rewrite (proj2 (Z.ltb_lt _ _)) by done.
  rewrite (bind_Ok _ _ _ _ _ (curproc_Ok s c (pe_cur _ _ _ _ _ _ _ _ _ He))), bind_gets.
  rewrite (pipe_env_get _ _ _ _ _ _ _ _ _ He), Ho. cbn [negb].
  erewrite (bind_Ok (killed c)) by (apply killed_Ok; rewrite (pe_held _ _ _ _ _ _ _ _ _ He); set_solver).
  rewrite Hk. cbn [negb]. destruct (pi_nwrite p =? u32 (pi_nread p + PIPESIZE)); [done|].
  erewrite (bind_Ok curpagetable) by (apply curpagetable_Ok, He). by rewrite (pe_root _ _ _ _ _ _ _ _ _ He).
Qed.

Lemma pipewrite_full fuel s c pi root P D fl p q addr n i :
  pipe_env s c pi root P D fl p q -> i < n -> may_write s c p = true -> Z.of_nat (length q) = PIPESIZE ->
  pipewrite_loop (S fuel) pi addr n i s = Block (ChPipeWrite pi) (writer_asleep pi c s).
Proof.
  intros He Hi Hm Hq. rewrite (pipewrite_go _ _ _ _ _ _ _ _ _ _ _ _ _ He Hi Hm).
  destruct He as [Ep Hr Hc Hps Hlt Hh Hroot Hu].
  rewrite (proj2 (Z.eqb_eq _ _)) by (by apply (ring_full PIPESIZE (2 ^ 32) _ _ _ _ Hr)).
  erewrite (bind_Ok (wakeup _)) by (apply wakeup_spec; [intros j; rewrite Hh; set_solver|done]).
  unfold bind at 1. rewrite (sleep_spec (ChPipeWrite pi) (LkPipe pi) _ c); [done|done|done|done|].
  cbn. by rewrite length_imap.
Qed.

Lemma pipewrite_byte fuel s c pi root P D fl p q addr n i :
  pipe_env s c pi root P D fl p q -> i < n -> may_write s c p = true -> Z.of_nat (length q) < PIPESIZE ->
  0 <= addr + i < 2 ^ 64 ->
  if readable s root (addr + i)
  then exists b, umem s root (addr + i) = Some b /\
         pipewrite_loop (S fuel) pi addr n i s = pipewrite_loop fuel pi addr n (i + 1) (with_pipe pi (push b p) s)
  else pipewrite_loop (S fuel) pi addr n i s = Ok (Some i) s.
Proof.
  intros He Hi Hm Hq Ha. rewrite (pipewrite_go _ _ _ _ _ _ _ _ _ _ _ _ _ He Hi Hm).
  pose proof (ring_full PIPESIZE (2 ^ 32) _ _ _ _ (pe_ring _ _ _ _ _ _ _ _ _ He)) as Hf.
  rewrite (proj2 (Z.eqb_neq _ _)) by (unfold u32; rewrite Hf; lia).
  rewrite u64_small by done.
  destruct (copyin_byte s root P D fl (addr + i) (pe_space _ _ _ _ _ _ _ _ _ He) Ha) as (b & E & Hb).
  destruct (readable s root (addr + i)).
  - exists (load8 b 0). split; [by apply Hb|]. rewrite (bind_Ok _ _ _ _ _ E).
    change (0 =? -1) with false. cbv iota. rewrite !bind_modify.
    rewrite <- (with_pipe_same pi p s) at 1 by apply He. by rewrite !upd_with_pipe.
  - by rewrite (bind_Ok _ _ _ _ _ E).
Qed.

Lemma ring_push_pipe p q b :
  pipe_ring p q -> Z.of_nat (length q) < PIPESIZE -> pipe_ring (push b p) (q ++ [b]).
Proof. intros Hr Hq. apply (ring_push PIPESIZE (2 ^ 32) _ _ _ _ _ Hr Hq). Qed.

(** What the loop does from [i] on: it appends the user's bytes [w], and ends
    because all were written, because the next one is not readable, or asleep
    on a full pipe. *)
Definition write_outcome (s : kstate) (c : nat) (pi root : Z) (p : pipe) (q : list Z) (addr n i : Z)
    (r : res chan kstate (option Z)) : Prop :=
  exists w p', ubytes s root (addr + i) w /\ pipe_ring p' (q ++ w) /\
    (pi_readopen p', pi_writeopen p') = (pi_readopen p, pi_writeopen p) /\
    let j := i + Z.of_nat (length w) in
    let s' := with_pipe pi p' s in
    j <= Z.max i n /\
    (r = Ok (Some j) s' /\ (n <= j \/ readable s root (addr + j) = false) \/
     r = Block (ChPipeWrite pi) (writer_asleep pi c s') /\ Z.of_nat (length (q ++ w)) = PIPESIZE /\ j < n).

Lemma write_outcome_none s c pi root p q addr n i r :
  k_pipes s !! pi = Some p -> pipe_ring p q ->
  (r = Ok (Some i) s /\ (n <= i \/ readable s root (addr + i) = false) \/
   r = Block (ChPipeWrite pi) (writer_asleep pi c s) /\ Z.of_nat (length q) = PIPESIZE /\ i < n) ->
  write_outcome s c pi root p q addr n i r.
Proof.
  intros Hp Hr Hres. exists [], p. cbn [length]. rewrite app_nil_r, Z.add_0_r, (with_pipe_same pi p s) by done.
  split; [apply ubytes_nil|]. do 2 (split; [done|]). split; [lia|done].
Qed.

Lemma write_outcome_cons s c pi root p q addr n i b r :
  i < n -> umem s root (addr + i) = Some b ->
  write_outcome (with_pipe pi (push b p) s) c pi root (push b p) (q ++ [b]) addr n (i + 1) r ->
  write_outcome s c pi root p q addr n i r.
Proof.
  intros Hi Hb (w & p' & Hw & Hr & Hfl & Hj & Hres). exists (b :: w), p'. cbn [length].
  rewrite Z.add_assoc in Hw. rewrite <- app_assoc in Hr, Hres.
  split; [by apply ubytes_cons|]. split; [done|]. split; [done|].
  replace (i + Z.of_nat (S (length w))) with (i + 1 + Z.of_nat (length w)) by lia.
  replace (with_pipe pi p' (with_pipe pi (push b p) s)) with (with_pipe pi p' s) in Hres; [split; [lia|exact Hres]|].
  unfold with_pipe. cbn. by rewrite insert_insert_eq.
Qed.

Lemma pipewrite_loop_spec fuel : forall s c pi root P D fl p q addr n i,
  pipe_env s c pi root P D fl p q -> may_write s c p = true -> 0 <= addr + i < 2 ^ 64 ->
  Z.max 0 (n - i) < Z.of_nat fuel ->
  write_outcome s c pi root p q addr n i (pipewrite_loop fuel pi addr n i s).
Proof.
  induction fuel as [|fuel IH]; intros s c pi root P D fl p q addr n i He Hm Ha Hf; [lia|].
  pose proof (pe_ring _ _ _ _ _ _ _ _ _ He) as Hr. pose proof (pe_pipe _ _ _ _ _ _ _ _ _ He) as Hp.
  destruct (Z.ltb_spec i n) as [Hi|Hi].
  2: { apply write_outcome_none; [done..|]. cbn [pipewrite_loop]. rewrite (proj2 (Z.ltb_ge _ _)) by done.
       by left; split; [|left]. }
  destruct (decide (Z.of_nat (length q) = PIPESIZE)) as [Hq|Hq].
  { apply write_outcome_none; [done..|]. right. split; [by eapply pipewrite_full|done]. }
  assert (Hlt : Z.of_nat (length q) < PIPESIZE) by (destruct Hr; lia).
  pose proof (pipewrite_byte fuel s c pi root P D fl p q addr n i He Hi Hm Hlt Ha) as Hb.
  destruct (readable s root (addr + i)) eqn:HR.
  - destruct Hb as (b & Hb & ->). apply (write_outcome_cons _ _ _ _ _ _ _ _ _ _ _ Hi Hb).
    pose proof (readable_lt _ _ _ HR) as Hmax. change MAXVA with (2 ^ 38) in Hmax.
    apply (IH _ c pi root P D fl); [|done|lia|lia]. eapply pipe_env_with; [done|by apply ring_push_pipe].
  - apply write_outcome_none; [done..|]. left. split; [done|by right].
Qed.

(** A wakeup and the release of the lock at the end of a call. *)
Lemma pipe_leave {A} s pi ch (a : A) :
  k_held s = [LkPipe pi] -> length (k_procs s) = Z.to_nat NPROC ->
  (wakeup ch ;;; release (LkPipe pi) ;;; ret a) s =
  Ok a (set_k_held [] (set_k_procs (imap (woken (k_cur s) ch) (k_procs s)) s)).
Proof.
  intros Hh Hps. erewrite (bind_Ok (wakeup _)) by (apply wakeup_spec; [intros j; rewrite Hh; set_solver|done]).
  erewrite (bind_Ok (release _)) by (apply (release_Ok _ _ []); [done|apply not_elem_of_nil]). done.
Qed.

(** C21: a writer that holds the lock of a pipe and has written [i] bytes.  With
    no reader, or when the writer is killed, and bytes left to write, the call
    returns -1 and changes nothing but the lock.  Otherwise it appends bytes
    [w] to the queue [q], which are the ones the user has at [addr + i]; it then
    returns the number of bytes written, which is [n] unless the next byte is
    not readable, having woken the sleeping readers, or it sleeps on a full pipe
    with [i + length w < n] bytes written, having woken the readers.  The queue
    never exceeds PIPESIZE, and the 32-bit indices may wrap around. *)
Theorem pipewrite_appends s c pi root P D fl p q addr n i :
  pipe_env s c pi root P D fl p q -> 0 <= addr + i < 2 ^ 64 ->
  if (i <? n) && negb (may_write s c p)
  then pipewrite_from pi addr n i s = Ok (-1) (set_k_held [] s)
  else exists w p', ubytes s root (addr + i) w /\ pipe_ring p' (q ++ w) /\
    (pi_readopen p', pi_writeopen p') = (pi_readopen p, pi_writeopen p) /\
    let j := i + Z.of_nat (length w) in
    let s' := with_pipe pi p' s in
    j <= Z.max i n /\
    (pipewrite_from pi addr n i s =
       Ok j (set_k_held [] (set_k_procs (imap (woken (Some c) (ChPipeRead pi)) (k_procs s)) s')) /\
       (n <= j \/ readable s root (addr + j) = false) \/
     pipewrite_from pi addr n i s = Block (ChPipeWrite pi) (writer_asleep pi c s') /\
       Z.of_nat (length (q ++ w)) = PIPESIZE /\ j < n).
Proof.
  intros He Ha. pose proof He as [Hp Hr Hc Hps Hlt Hh _ _]. unfold pipewrite_from.
  destruct (Z.ltb_spec i n) as [Hi|Hi], (may_write s c p) eqn:Hm; cbn [andb negb].
  2: { rewrite (bind_Ok _ _ _ _ _ (pipewrite_stop _ _ _ _ _ _ _ _ _ _ addr _ _ He Hi Hm)).
       erewrite (bind_Ok (release _)) by (apply (release_Ok _ _ []); [done|apply not_elem_of_nil]). done. }
  1: pose proof (pipewrite_loop_spec (S (Z.to_nat (n - i))) s c pi root P D fl p q addr n i He Hm Ha ltac:(lia)) as Hw.
  2,3: assert (Hw : write_outcome s c pi root p q addr n i (pipewrite_loop (S (Z.to_nat (n - i))) pi addr n i s))
         by (apply write_outcome_none; [done..|]; cbn [pipewrite_loop]; rewrite (proj2 (Z.ltb_ge _ _)) by done;
             by left; split; [|left]).
  all: destruct Hw as (w & p' & Hw & Hr' & Hfl & Hjn & Hres); exists w, p'; do 4 (split; [done|]).
  all: destruct Hres as [[E Hj]|(E & Hq & Hj)]; [left; split; [|done]|right; split; [by unfold bind; rewrite E|done]].
  all: rewrite (bind_Ok _ _ _ _ _ E), pipe_leave by done; by rewrite <- Hc.
Qed.

(** * Reading *)

(** ch = pi->data[pi->nread++ % PIPESIZE] *)
Definition pop (p : pipe) : pipe := set_pi_nread (u32 (pi_nread p + 1)) p.

Lemma copyout_byte s root P D fl va ch :
  uspace s root P D fl -> 0 <= va < 2 ^ 64 ->
  exists s1, copyout root va (store8 ∅ 0 ch) 0 1 s = Ok (if writable s root va then 0 else -1) s1 /\
    stored s root P D fl va (if writable s root va then 1 else 0) (store8 ∅ 0 ch) 0 s1.
Proof.
  intros Hu Hva. destruct (copyout_loop_spec 3 s root P D fl va (store8 ∅ 0 ch) 0 1 Hu Hva)
    as (r & s1 & k & E & Hst & Hk & Hr); [lia|exact (span_fuel va 1 ltac:(lia))|].
  exists s1. destruct Hr as [(-> & -> & HW)|(-> & Hk1 & HW)].
  - specialize (HW 0 ltac:(lia)). rewrite Z.add_0_r in HW. by rewrite HW.
  - assert (k = 0) as -> by lia. rewrite Z.add_0_r in HW. by rewrite HW.
Qed.

(** The user's memory at [va] after the bytes [t] were delivered. *)
Definition delivered (s s' : kstate) (root va lim : Z) (t : list Z) : Prop :=
  forall v, 0 <= v < lim ->
    umem s' root v = if bool_decide (va <= v) then
                       match t !! Z.to_nat (v - va) with Some b => Some b | None => umem s root v end
                     else umem s root v.

(** What the copy loop does from [i] on: it takes the bytes [t] from the front
    of the queue and delivers all of them, or all but the last one, whose place
    is not writable. *)
Definition read_outcome (s : kstate) (c : nat) (pi root : Z) (P D fl : list Z) (p : pipe) (q : list Z) (addr n i : Z)
    (r : res chan kstate Z) : Prop :=
  exists d x q' p' s', let j := i + Z.of_nat (length d) in
    r = Ok j s' /\ q = d ++ x ++ q' /\ pipe_env s' c pi root P D fl p' q' /\
    s' = with_pipe pi p' (set_k_mem (k_mem s') s) /\
    (pi_readopen p', pi_writeopen p') = (pi_readopen p, pi_writeopen p) /\
    delivered s s' root (addr + i) (Z.of_nat (length D) * PGSIZE) d /\
    (forall v, writable s' root v = writable s root v) /\ j <= Z.max i n /\
    (x = [] /\ (n <= j \/ q' = []) \/ length x = 1%nat /\ j < n /\ writable s root (addr + j) = false).

Lemma delivered_nil s s' root va lim : (forall v, 0 <= v < lim -> umem s' root v = umem s root v) -> delivered s s' root va lim [].
Proof. intros E v Hv. rewrite E by done. by case_bool_decide. Qed.

Lemma read_outcome_none s c pi root P D fl p q addr n i :
  pipe_env s c pi root P D fl p q -> (n <= i \/ q = []) -> read_outcome s c pi root P D fl p q addr n i (Ok i s).
Proof.
  intros He Hend. exists [], [], q, p, s. cbn [length app]. rewrite Z.add_0_r. split; [done|]. split; [done|]. split; [done|].
  split; [rewrite <- (with_pipe_same pi p s) at 1 by apply He; by destruct s|]. split; [done|].
  split; [by apply delivered_nil|]. split; [done|]. split; [lia|]. by left.
Qed.

Lemma pipe_env_stored s c pi root P D fl p q va len src o s1 :
  pipe_env s c pi root P D fl p q -> stored s root P D fl va len src o s1 -> pipe_env s1 c pi root P D fl p q.
Proof. intros [] [(m & ->) Hu _ _]. by split. Qed.

Lemma stored_byte_umem s root P D fl va ch s1 v :
  stored s root P D fl va 1 (store8 ∅ 0 ch) 0 s1 -> 0 <= v < Z.of_nat (length D) * PGSIZE ->
  umem s1 root v = if bool_decide (v = va) then Some ch else umem s root v.
Proof.
  intros Hst Hv. rewrite (st_mem _ _ _ _ _ _ _ _ _ _ Hst) by done.
  destruct (Z.leb_spec va v), (Z.ltb_spec v (va + 1)); cbn [andb]; case_bool_decide; try lia; [|done..].
  subst. replace (0 + (va - va)) with 0 by lia. by rewrite load8_store8.
Qed.

Lemma delivered_cons s s1 s2 root va lim b d :
  (forall v, 0 <= v < lim -> umem s1 root v = if bool_decide (v = va) then Some b else umem s root v) ->
  delivered s1 s2 root (va + 1) lim d -> delivered s s2 root va lim (b :: d).
Proof.
  intros H1 H2 v Hv. rewrite H2, H1 by done.
  destruct (decide (v = va)) as [->|Hne].
  - rewrite (bool_decide_eq_false_2 (va + 1 <= va)), bool_decide_eq_true_2, bool_decide_eq_true_2 by lia.
    by rewrite Z.sub_diag.
  - rewrite (bool_decide_eq_false_2 (v = va)) by done. do 2 case_bool_decide; try lia; [|done].
    by replace (Z.to_nat (v - va)) with (S (Z.to_nat (v - (va + 1)))) by lia.
Qed.

(** The head of an iteration: a byte is taken from the queue. *)
Lemma piperead_step fuel s c pi root P D fl p b q addr n i :
  pipe_env s c pi root P D fl p (b :: q) -> i < n -> 0 <= addr + i < 2 ^ 64 ->
  exists s1, stored s root P D fl (addr + i) (if writable s root (addr + i) then 1 else 0) (store8 ∅ 0 b) 0 s1 /\
    pipe_env (with_pipe pi (pop p) s1) c pi root P D fl (pop p) q /\
    piperead_loop (S fuel) pi addr n i s =
    (if writable s root (addr + i) then piperead_loop fuel pi addr n (i + 1) (with_pipe pi (pop p) s1)
     else Ok i (with_pipe pi (pop p) s1)).
Proof.
  intros He Hi Ha. pose proof (pe_ring _ _ _ _ _ _ _ _ _ He) as Hr.
  destruct (ring_pop PIPESIZE (2 ^ 32) _ _ _ _ _ Hr) as [Eb Hr'].
  pose proof (pipe_env_with s c pi root P D fl p _ (pop p) q He Hr') as He1.
  destruct (copyout_byte s root P D fl (addr + i) b (pe_space _ _ _ _ _ _ _ _ _ He) Ha) as (s1 & E0 & Hst0).
  destruct (copyout_byte (with_pipe pi (pop p) s) root P D fl (addr + i) b (pe_space _ _ _ _ _ _ _ _ _ He1) Ha)
    as (s2 & E & Hst).
  change (writable (with_pipe pi (pop p) s) root (addr + i)) with (writable s root (addr + i)) in E, Hst.
  exists (set_k_mem (k_mem s2) s).
  assert (Es : with_pipe pi (pop p) (set_k_mem (k_mem s2) s) = s2)
    by (destruct Hst as [(m & ->) _ _ _]; by destruct s).
  split; [|rewrite Es; split].
  - destruct Hst as [(m & Em) Hu Hp Hm]. rewrite Em in *. split; [by exists m| |done|done].
    eapply uspace_ext; [..|exact Hu]; try done. cbn. rewrite (pe_held _ _ _ _ _ _ _ _ _ He). set_solver.
  - eapply pipe_env_stored; [exact He1|exact Hst].
  - cbn [piperead_loop]. rewrite (proj2 (Z.ltb_lt _ _)), bind_gets, (pipe_env_get _ _ _ _ _ _ _ _ _ He) by done.
    rewrite (proj2 (Z.eqb_neq _ _)) by (by rewrite (ring_empty PIPESIZE (2 ^ 32) _ _ _ _ Hr)).
    rewrite bind_modify, Eb, u64_small by done.
    rewrite <- (with_pipe_same pi p s) at 1 by apply He. rewrite upd_with_pipe. fold (pop p).
    erewrite (bind_Ok curpagetable) by (apply curpagetable_Ok, He1). rewrite (pe_root _ _ _ _ _ _ _ _ _ He1).
    rewrite (bind_Ok _ _ _ _ _ E). by destruct (writable s root (addr + i)).
Qed.

Lemma read_outcome_cons s c pi root P D fl p b q addr n i s1 r :
  pipe_env s c pi root P D fl p (b :: q) -> i < n -> writable s root (addr + i) = true ->
  stored s root P D fl (addr + i) 1 (store8 ∅ 0 b) 0 s1 ->
  read_outcome (with_pipe pi (pop p) s1) c pi root P D fl (pop p) q addr n (i + 1) r ->
  read_outcome s c pi root P D fl p (b :: q) addr n i r.
Proof.
  intros He Hi HW Hst (d & x & q' & p' & s' & -> & -> & He' & Es & Hfl & Hd & Hw & Hjn & Hend).
  exists (b :: d), x, q', p', s'. cbn [length].
  replace (i + Z.of_nat (S (length d))) with (i + 1 + Z.of_nat (length d)) by lia.
  split; [done|]. split; [done|]. split; [done|]. split.
  { rewrite Es at 1. destruct Hst as [(m & ->) _ _ _]. unfold with_pipe. cbn. by rewrite insert_insert_eq. }
  split; [done|]. split.
  { rewrite Z.add_assoc in Hd. eapply delivered_cons; [|exact Hd].
    intros v Hv. change (umem (with_pipe pi (pop p) s1) root v) with (umem s1 root v). by eapply stored_byte_umem. }
  assert (Hws : forall v, writable (with_pipe pi (pop p) s1) root v = writable s root v)
    by (intros v; by eapply writable_stored in Hst).
  split; [intros v; by rewrite Hw, Hws|]. split; [lia|]. by rewrite Hws in Hend.
Qed.

Lemma piperead_loop_spec fuel : forall s c pi root P D fl p q addr n i,
  pipe_env s c pi root P D fl p q -> 0 <= addr + i < 2 ^ 64 -> Z.max 0 (n - i) < Z.of_nat fuel ->
  read_outcome s c pi root P D fl p q addr n i (piperead_loop fuel pi addr n i s).
Proof.
  induction fuel as [|fuel IH]; intros s c pi root P D fl p q addr n i He Ha Hf; [lia|].
  destruct (Z.ltb_spec i n) as [Hi|Hi].
  2: { cbn [piperead_loop]. rewrite (proj2 (Z.ltb_ge _ _)) by done. apply read_outcome_none; [done|by left]. }
  destruct q as [|b q].
  { cbn [piperead_loop]. rewrite (proj2 (Z.ltb_lt _ _)), bind_gets, (pipe_env_get _ _ _ _ _ _ _ _ _ He) by done.
    rewrite (proj2 (Z.eqb_eq _ _)) by (by apply (ring_empty PIPESIZE (2 ^ 32) _ _ _ _ (pe_ring _ _ _ _ _ _ _ _ _ He))).
    apply read_outcome_none; [done|by right]. }
  destruct (piperead_step fuel s c pi root P D fl p b q addr n i He Hi Ha) as (s1 & Hst & He1 & ->).
  destruct (writable s root (addr + i)) eqn:HW.
  - apply (read_outcome_cons _ _ _ _ _ _ _ _ _ _ _ _ _ s1); [done..|].
    pose proof (writable_lt _ _ _ HW) as Hmax. change MAXVA with (2 ^ 38) in Hmax. apply IH; [done|lia|lia].
  - exists [], [b], q, (pop p), (with_pipe pi (pop p) s1). cbn [length app]. rewrite Z.add_0_r.
    split; [done|]. split; [done|]. split; [done|]. split; [by destruct Hst as [(m & ->) _ _ _]|]. split; [done|].
    split; [|split; [intros v; by eapply writable_stored in Hst|split; [lia|by right]]].
    apply delivered_nil. intros v Hv. change (umem (with_pipe pi (pop p) s1) root v) with (umem s1 root v).
    rewrite (st_mem _ _ _ _ _ _ _ _ _ _ Hst) by done.
    destruct (Z.leb_spec (addr + i) v), (Z.ltb_spec v (addr + i + 0)); (lia || done).
Qed.

(** The state in which a reader sleeps on an empty pipe. *)
Definition reader_asleep (pi : Z) (c : nat) (s : kstate) : kstate :=
  set_k_cur None (upd_proc c (asleep (ChPipeRead pi)) s).

(** C22: a reader of a pipe that holds [q].  On an empty pipe with a writer the
    call returns -1 if the process is killed and otherwise sleeps until there is
    something to read.  In all other cases, an empty pipe without a writer
    included, it returns the number of bytes it delivered: [d], the front of the
    queue, is now at [addr] in the user's memory, which is otherwise unchanged,
    and sleeping writers are woken.  [d] is as long as [n] allows or as the queue
    is, unless the user's memory at its end is not writable; then the one byte
    [x] that was taken for this place is in neither the queue nor the memory. *)
Theorem piperead_takes s c pi root P D fl p q addr n :
  k_held s = [] -> pipe_env (set_k_held [LkPipe pi] s) c pi root P D fl p q -> 0 <= addr < 2 ^ 64 ->
  if bool_decide (q = []) && pi_writeopen p
  then piperead pi addr n s = if p_killed (get_proc c s) =? 0 then Block (ChPipeRead pi) (reader_asleep pi c s) else Ok (-1) s
  else exists d x q' p' s', let j := Z.of_nat (length d) in
    piperead pi addr n s = Ok j s' /\ q = d ++ x ++ q' /\ k_pipes s' = <[pi := p']> (k_pipes s) /\ pipe_ring p' q' /\
    (pi_readopen p', pi_writeopen p') = (pi_readopen p, pi_writeopen p) /\
    delivered s s' root addr (Z.of_nat (length D) * PGSIZE) d /\
    k_held s' = [] /\ k_procs s' = imap (woken (Some c) (ChPipeWrite pi)) (k_procs s) /\ j <= Z.max 0 n /\
    (x = [] /\ (n <= j \/ q' = []) \/ length x = 1%nat /\ j < n /\ writable s root (addr + j) = false).
Proof.
  intros Hh He Ha. pose proof He as [Hp Hr Hc Hps Hlt _ _ _]. unfold piperead.
  rewrite (bind_Ok _ _ _ _ _ (acquire_Ok (LkPipe pi) s ltac:(rewrite Hh; apply not_elem_of_nil))), Hh, bind_gets.
  rewrite (pipe_env_get _ _ _ _ _ _ _ _ _ He).
  assert (Eq : (pi_nread p =? pi_nwrite p) = bool_decide (q = [])).
  { pose proof (ring_empty PIPESIZE (2 ^ 32) _ _ _ _ Hr) as Hq.
    case_bool_decide; [by apply Z.eqb_eq, Hq|apply Z.eqb_neq; by rewrite Hq]. }
  rewrite Eq. destruct (bool_decide (q = []) && pi_writeopen p).
  - rewrite (bind_Ok _ _ _ _ _ (curproc_Ok _ _ Hc)).
    erewrite (bind_Ok (killed c)) by (apply killed_Ok; cbn; set_solver).
    change (get_proc c (set_k_held [LkPipe pi] s)) with (get_proc c s).
    destruct (p_killed (get_proc c s) =? 0); cbn [negb].
    + unfold bind. rewrite (sleep_spec (ChPipeRead pi) (LkPipe pi) _ c) by done.
      unfold reader_asleep. do 2 f_equal. destruct s; cbn in *. by subst.
    + erewrite (bind_Ok (release _)) by (apply (release_Ok _ _ []); [done|apply not_elem_of_nil]).
      unfold ret. f_equal. destruct s; cbn in *. by subst.
  - destruct (piperead_loop_spec (S (Z.to_nat n)) (set_k_held [LkPipe pi] s) c pi root P D fl p q addr n 0 He ltac:(lia) ltac:(lia))
      as (d & x & q' & p' & s' & E & Eqd & He' & Es & Hfl & Hd & _ & Hjn & Hend).
    rewrite Z.add_0_l in E, Hend, Hjn. rewrite Z.add_0_r in Hd.
    rewrite (bind_Ok _ _ _ _ _ E), pipe_leave by (apply He'). exists d, x, q', p'. eexists.
    split; [reflexivity|]. split; [done|]. split; [by rewrite Es|]. split; [apply He'|]. split; [done|]. split; [exact Hd|].
    split; [done|]. split; [|by split]. rewrite Es. cbn in *. by rewrite Hc.
Qed.
End PipeSpec.

(** A process with one page of zeros, and a pipe that is about to wrap around. *)
Definition demo_pipe : pipe := mk_pipe (store8 ∅ 511 65) (2 ^ 32 - 1) 0 true true.
Definition demo_pipe_state (root : Z) (s : kstate) : kstate :=
  set_k_held [LkPipe 4096] (set_k_cur (Some 0%nat)
    (set_k_procs (set_p_pagetable root proc0 :: replicate 63 proc0) (set_k_pipes {[ 4096 := demo_pipe ]} s))).

Lemma demo_pipe_env :
  exists s root P D fl, @pipe_env demo_linker (demo_pipe_state root s) 0 4096 root P D fl demo_pipe [65] /\
    (forall va, 0 <= va < PGSIZE -> writable s root va = true /\ umem s root va = Some 0).
Proof.
  destruct demo_uspace as (s & root & P & D & fl & Hu & HW). exists s, root, P, D, fl. split; [|exact HW].
  split; [reflexivity| |reflexivity|reflexivity|vm_compute; lia|reflexivity|reflexivity|].
  - split; [cbn; lia|reflexivity|cbn; unfold PIPESIZE; lia|].
    intros [|i] c Hi; [injection Hi as <-; reflexivity|destruct i; discriminate].
  - apply (@uspace_ext demo_linker s); [reflexivity|reflexivity| |exact Hu]. cbn.
    intros [Hx|Hx%elem_of_nil]%elem_of_cons; [discriminate|done].
Qed.

Lemma pipewrite_appends_witness :
  exists s s' p', pipewrite_from 4096 0 1 0 s = Ok 1 s' /\ pipe_ring p' [65; 0].
Proof.
  destruct demo_pipe_env as (s & root & P & D & fl & He & HW). exists (demo_pipe_state root s).
  pose proof (@pipewrite_appends demo_linker _ 0 4096 root P D fl demo_pipe [65] 0 1 0 He ltac:(lia)) as Hx.
  change ((0 <? 1) && negb (may_write (demo_pipe_state root s) 0 demo_pipe)) with false in Hx. cbv iota in Hx.
  destruct Hx as (w & p' & Hw & Hr & _ & Hj & Hres). destruct (HW 0 ltac:(by split)) as [H0 Hm0].
  assert (Hm : forall b, w !! 0%nat = Some b -> b = 0).
  { intros b Hb. specialize (Hw 0%nat b Hb). change (umem s root 0 = Some b) in Hw. congruence. }
  destruct w as [|b [|b' w]]; cbn [length] in *; [|rewrite (Hm b eq_refl) in *|exfalso; lia].
  - exfalso. destruct Hres as [(_ & [Hn|HR])|(_ & Hq & _)]; [lia| |revert Hq; unfold PIPESIZE; cbn; lia].
    change (readable s root 0 = false) in HR. unfold writable in H0. rewrite HR in H0. discriminate.
  - destruct Hres as [(E & _)|(_ & _ & Hj')]; [|lia]. eexists _, p'. split; [exact E|exact Hr].
Defined.

Lemma piperead_takes_witness :
  exists s s', piperead 4096 0 10 s = Ok 1 s' /\ k_held s' = [].
Proof.
  destruct demo_pipe_env as (s & root & P & D & fl & He & HW). exists (set_k_held [] (demo_pipe_state root s)).
  pose proof (@piperead_takes demo_linker (set_k_held [] (demo_pipe_state root s)) 0 4096 root P D fl demo_pipe [65] 0 10
    eq_refl He ltac:(lia)) as Hx.
  rewrite bool_decide_eq_false_2 in Hx by discriminate. cbn [andb] in Hx.
  destruct Hx as (d & x & q' & p' & s' & E & Eq & _ & _ & _ & _ & Hh & _ & _ & Hend). exists s'. split; [|exact Hh].
  destruct (HW 0 ltac:(by split)) as [H0 _].
  destruct d as [|b [|b' d]]; [exfalso| |discriminate]; [|exact E].
  destruct Hend as [(-> & [Hn| ->])|(_ & _ & HF)]; [cbn in Hn; lia|discriminate|].
  change (writable s root 0 = false) in HF. congruence.
Defined.
