(* ===== verification/Console.v ===== *)
(** The console (kernel/console.c), [procdump] (kernel/proc.c) and the UART's
    interrupt handler (kernel/uart.c). *)
From S2P Require Import Prelude State Locks Kstring Kalloc Vm Sched Either Ring Uart Kprintf.

Definition INPUT_BUF_SIZE : Z := 128.
Definition upd_cons (f : consbuf -> consbuf) (s : kstate) : kstate := set_k_cons (f (k_cons s)) s.

Definition state_name (st : procstate) : list Z :=
  chars (match st with
         | UNUSED => "unused" | USED => "used" | SLEEPING => "sleep "
         | RUNNABLE => "runble" | RUNNING => "run   " | ZOMBIE => "zombie"
         end).

Definition procdump : K unit :=
  printf "
" [] ;;;
  for_loop (Z.to_nat NPROC) 0 (fun j =>
    p <- gets (get_proc (Z.to_nat j)) ;;
    when (negb (bool_decide (p_state p = UNUSED)))
      (printf "%d %s %s" [AInt (p_pid p); AStr (Some (state_name (p_state p))); AStr (Some (cstr 16 (p_name p) 0))] ;;;
       printf "
" []) ;;;
    ret (@None unit)) ;;;
  ret tt.

(** case C('U'): while(cons.e != cons.w && ... ) *)
Fixpoint kill_line (fuel : nat) : K unit :=
  match fuel with
  | O => fun _ => Diverge
  | S fuel =>
      c <- gets k_cons ;;
      when (negb (cons_e c =? cons_w c) && negb (load8 (cons_buf c) (u32 (cons_e c - 1) mod INPUT_BUF_SIZE) =? 10))
        (modify (upd_cons (fun c => set_cons_e (u32 (cons_e c - 1)) c)) ;;;
         consputc BACKSPACE ;;;
         kill_line fuel)
  end.

(** The default case of consoleintr: echo the character and store it. *)
Definition console_store (c : Z) : K unit :=
  co <- gets k_cons ;;
  when (negb (c =? 0) && (u32 (cons_e co - cons_r co) <? INPUT_BUF_SIZE))
    (let c := if c =? 13 then 10 else c in
     consputc c ;;;
     modify (upd_cons (fun co => set_cons_e (u32 (cons_e co + 1))
               (set_cons_buf (store8 (cons_buf co) (cons_e co mod INPUT_BUF_SIZE) (u8 c)) co))) ;;;
     co <- gets k_cons ;;
     when ((c =? 10) || (c =? 4) || (u32 (cons_e co - cons_r co) =? INPUT_BUF_SIZE))
       (modify (upd_cons (fun co => set_cons_w (cons_e co) co)) ;;;
        wakeup ChCons)).

Definition consoleintr (c : Z) : K unit :=
  acquire LkCons ;;;
  co <- gets k_cons ;;
  (if c =? 16 then procdump
   else if c =? 21 then kill_line (S (Z.to_nat (u32 (cons_e co - cons_w co))))
   else if (c =? 8) || (c =? 127) then
     when (negb (cons_e co =? cons_w co))
       (modify (upd_cons (fun co => set_cons_e (u32 (cons_e co - 1)) co)) ;;; consputc BACKSPACE)
   else console_store c) ;;;
  release LkCons.

(** The while(1) of uartintr takes one received character per pass. *)
Fixpoint uart_receive (fuel : nat) : K unit :=
  match fuel with
  | O => fun _ => Diverge
  | S fuel =>
      c <- uartgetc ;;
      if c =? -1 then ret tt else consoleintr c ;;; uart_receive fuel
  end.

Definition uartintr : K unit :=
  n <- gets (fun s => length (ut_rx (k_uart s))) ;;
  uart_receive (S n) ;;;
  acquire LkUart ;;;
  uartstart ;;;
  release LkUart.

Section Console.
Context `{Linker}.

Definition consolewrite (src : place) (n : Z) : K Z :=
  r <- for_loop (Z.to_nat n) 0 (fun i =>
    c <- either_copyin ∅ 0 (shift src i) 1 ;;
    let '(r, c) := c in
    if r =? -1 then ret (Some i)
    else uartputc (load8 c 0) ;;; ret None) ;;
  ret (default (Z.max n 0) r).

(** The loop of consoleread with [n] bytes to go; the result is what is left. *)
Fixpoint consoleread_loop (fuel : nat) (dst : place) (n target : Z) : K (option Z) :=
  match fuel with
  | O => fun _ => Diverge
  | S fuel =>
      if 0 <? n then
        co <- gets k_cons ;;
        if cons_r co =? cons_w co then
          pr <- curproc ;;
          k <- killed pr ;;
          if negb (k =? 0) then ret None
          else sleep ChCons LkCons ;;; consoleread_loop fuel dst n target
        else
          let c := load8 (cons_buf co) (cons_r co mod INPUT_BUF_SIZE) in
          modify (upd_cons (set_cons_r (u32 (cons_r co + 1)))) ;;;
          if c =? 4 then
            when (n <? target) (modify (upd_cons (fun co => set_cons_r (u32 (cons_r co - 1)) co))) ;;;
            ret (Some n)
          else
            r <- either_copyout dst (store8 ∅ 0 c) 0 1 ;;
            let '(r, dst) := r in
            if r =? -1 then ret (Some n)
            else if c =? 10 then ret (Some (n - 1))
            else consoleread_loop fuel (shift dst 1) (n - 1) target
      else ret (Some n)
  end.

Definition consoleread (dst : place) (n : Z) : K Z :=
  acquire LkCons ;;;
  r <- consoleread_loop (S (Z.to_nat n)) dst n n ;;
  match r with
  | None => release LkCons ;;; ret (-1)
  | Some rest => release LkCons ;;; ret (n - rest)
  end.
End Console.
