(* ===== verification/ConsoleSpec.v ===== *)
(** The console's line discipline (kernel/console.c) refines a line editor on
    lists: typed characters are edited in a line of their own, which becomes
    readable as a whole. *)
From S2P Require Import Prelude State Locks Kstring Kalloc Vm PageTable VmSpec Uvm UvmCopy Copy Sched Either Ring Uart Kprintf Console.

#[export] Instance cons_ring_size : RingSize INPUT_BUF_SIZE (2 ^ 32).
Proof. split; unfold INPUT_BUF_SIZE; [lia..|done]. Qed.

(** The characters that can be read, and the line being edited. *)
Record line_state : Type := mk_line { ready : list Z; edit : list Z }.

Definition ctrl_D : Z := 4.
Definition ctrl_H : Z := 8.
Definition ctrl_U : Z := 21.
Definition newline : Z := 10.
Definition rubout : list Z := [8; 32; 8].

(** The line editor: the state after a key, and its echo. *)
Definition type_key (st : line_state) (c : Z) : line_state * list Z :=
  if c =? ctrl_U then (mk_line (ready st) [], concat (replicate (length (edit st)) rubout))
  else if (c =? ctrl_H) || (c =? 127) then
    (mk_line (ready st) (removelast (edit st)), match edit st with [] => [] | _ => rubout end)
  else if (c =? 0) || (INPUT_BUF_SIZE <=? Z.of_nat (length (ready st ++ edit st))) then (st, [])
  else
    let c := if c =? 13 then newline else c in
    let line := edit st ++ [c] in
    if (c =? newline) || (c =? ctrl_D) || (Z.of_nat (length (ready st ++ line)) =? INPUT_BUF_SIZE)
    then (mk_line (ready st ++ line) [], [c])
    else (mk_line (ready st) line, [c]).

(** The console buffer holds the line state. *)
Record cons_rep (co : consbuf) (st : line_state) : Prop := {
  cr_ring : ring INPUT_BUF_SIZE (2 ^ 32) (cons_buf co) (cons_r co) (cons_e co) (ready st ++ edit st);
  cr_w : cons_w co = u32 (cons_r co + Z.of_nat (length (ready st)));
  cr_edit : newline ∉ edit st
}.

Lemma consputc_rubout : outputs (consputc BACKSPACE) rubout.
Proof.
  unfold consputc. rewrite Z.eqb_refl. change rubout with ([8] ++ [32] ++ [8]).
  repeat apply outputs_bind; apply (consputc_outputs 8) || apply (consputc_outputs 32); lia.
Qed.

(** The tests of the code in terms of the line state. *)
Lemma cons_counts co st :
  cons_rep co st ->
  u32 (cons_e co - cons_r co) = Z.of_nat (length (ready st ++ edit st)) /\
  u32 (cons_e co - cons_w co) = Z.of_nat (length (edit st)).
Proof.
  intros [Hr Hw _]. pose proof (ring_count INPUT_BUF_SIZE (2 ^ 32) _ _ _ _ Hr) as Hc. split; [exact Hc|].
  destruct Hr as [Hr0 He Hl _]. rewrite Hw, He. unfold u32. rewrite <- Zminus_mod, length_app.
  replace (cons_r co + Z.of_nat (length (ready st) + length (edit st)) - (cons_r co + Z.of_nat (length (ready st))))
    with (Z.of_nat (length (edit st))) by lia.
  rewrite length_app in Hl. unfold INPUT_BUF_SIZE in Hl. apply Z.mod_small. lia.
Qed.

Lemma cons_line_empty co st : cons_rep co st -> cons_e co = cons_w co <-> edit st = [].
Proof.
  intros Hrep. destruct (cons_counts _ _ Hrep) as [_ Hcnt]. split; intros E.
  - rewrite E, Z.sub_diag in Hcnt. change (u32 0) with 0 in Hcnt. apply length_zero_iff_nil. lia.
  - destruct Hrep as [[_ Hw _ _] Hw' _]. by rewrite Hw, Hw', E, app_nil_r.
Qed.

(** An environment for the interrupt handler. *)
Record cons_env (s : kstate) (st : line_state) : Prop := {
  ce_rep : cons_rep (k_cons s) st;
  ce_procs : length (k_procs s) = Z.to_nat NPROC;
  ce_locks : forall i, LkProc i ∉ k_held s
}.

(** A step of the handler: the new line state, the echo, and whether the
    readers are woken. *)
Record cons_step (s : kstate) (st' : line_state) (echo : list Z) (wake : bool) (s' : kstate) : Prop := {
  cs_rep : cons_rep (k_cons s') st';
  cs_out : k_out s' = k_out s ++ echo;
  cs_held : k_held s' = k_held s;
  cs_cur : k_cur s' = k_cur s;
  cs_rx : ut_rx (k_uart s') = ut_rx (k_uart s);
  cs_procs : k_procs s' = if wake then imap (woken (k_cur s) ChCons) (k_procs s) else k_procs s
}.

Lemma cons_rep_rubout co st line x :
  cons_rep co st -> edit st = line ++ [x] ->
  load8 (cons_buf co) (u32 (cons_e co - 1) mod INPUT_BUF_SIZE) = x /\
  cons_rep (set_cons_e (u32 (cons_e co - 1)) co) (mk_line (ready st) line).
Proof.
  intros [Hr Hw He] El. rewrite El, app_assoc in Hr.
  destruct (ring_unpush INPUT_BUF_SIZE (2 ^ 32) _ _ _ _ _ Hr) as [Ex Hr']. split; [exact Ex|].
  split; [exact Hr'|done|]. rewrite El in He. set_solver.
Qed.

Lemma kill_line_spec fuel : forall s st,
  cons_rep (k_cons s) st -> (length (edit st) < fuel)%nat ->
  exists s', kill_line fuel s = Ok tt s' /\
    cons_step s (mk_line (ready st) []) (concat (replicate (length (edit st)) rubout)) false s'.
Proof.
  induction fuel as [|fuel IH]; intros s st Hrep Hf; [lia|]. cbn [kill_line]. rewrite bind_gets.
  pose proof (cons_line_empty _ _ Hrep) as Hemp.
  destruct (edit st) as [|x l _] eqn:Ee using rev_ind.
  { rewrite (proj2 (Z.eqb_eq _ _)) by (by apply Hemp). exists s. split; [done|]. cbn. split; rewrite ?app_nil_r; try done.
    destruct st; cbn in *; by subst. }
  destruct (cons_rep_rubout _ _ _ _ Hrep Ee) as [Ex Hrep'].
  rewrite length_app in *. cbn [length] in *.
  rewrite (proj2 (Z.eqb_neq _ _)), Ex by (rewrite Hemp; by destruct l).
  rewrite (proj2 (Z.eqb_neq _ _)).
  2: { intros ->. apply (cr_edit _ _ Hrep). rewrite Ee. unfold newline. set_solver. }
  cbn [negb andb when]. rewrite bind_modify.
  destruct (consputc_rubout (upd_cons (fun c => set_cons_e (u32 (cons_e c - 1)) c) s)) as [u Eu].
  rewrite (bind_Ok _ _ _ _ _ Eu). match goal with |- context [kill_line fuel ?t] => set (s1 := t) end.
  destruct (IH s1 (mk_line (ready st) l)) as (s' & E & [? Ho ? ? ? ?]); [exact Hrep'|cbn; lia|].
  exists s'. split; [exact E|]. split; try done.
  rewrite Ho. cbn [edit]. replace (length l + 1)%nat with (S (length l)) by lia.
  cbn [replicate concat]. by rewrite app_assoc.
Qed.

Lemma cons_rep_push co st c :
  cons_rep co st -> Z.of_nat (length (ready st ++ edit st)) < INPUT_BUF_SIZE ->
  let co' := set_cons_e (u32 (cons_e co + 1)) (set_cons_buf (store8 (cons_buf co) (cons_e co mod INPUT_BUF_SIZE) c) co) in
  (c <> newline -> cons_rep co' (mk_line (ready st) (edit st ++ [c]))) /\
  cons_rep (set_cons_w (cons_e co') co') (mk_line (ready st ++ edit st ++ [c]) []) /\
  u32 (cons_e co' - cons_r co') = Z.of_nat (length (ready st ++ edit st ++ [c])).
Proof.
  intros [Hr Hw He] Hlt co'. pose proof (ring_push INPUT_BUF_SIZE (2 ^ 32) _ _ _ _ c Hr Hlt) as Hr'.
  rewrite <- app_assoc in Hr'. split; [intros Hc; split; [exact Hr'|exact Hw|]|split].
  - cbn. rewrite not_elem_of_app, list_elem_of_singleton. by split.
  - split; [cbn; rewrite app_nil_r; exact Hr'| |apply not_elem_of_nil].
    cbn [cons_w set_cons_w ready]. destruct Hr' as [_ Ee _ _]. exact Ee.
  - apply (ring_count INPUT_BUF_SIZE (2 ^ 32) _ _ _ _ Hr').
Qed.

(** Whether a key makes characters readable. *)
Definition commits (st : line_state) (c : Z) : bool :=
  negb (length (ready (type_key st c).1) =? length (ready st))%nat.

Lemma commits_refl st c st' : (type_key st c).1 = st' -> ready st' = ready st -> commits st c = false.
Proof. intros E E'. unfold commits. by rewrite E, E', Nat.eqb_refl. Qed.

Lemma console_store_spec s st c :
  cons_env s st -> 0 <= c < 256 -> c <> ctrl_U -> c <> ctrl_H -> c <> 127 ->
  exists s', console_store c s = Ok tt s' /\ cons_step s (type_key st c).1 (type_key st c).2 (commits st c) s'.
Proof.
  intros [Hrep Hps Hl] Hc HU HH HD. unfold console_store. rewrite bind_gets.
  destruct (cons_counts _ _ Hrep) as [-> _].
  assert (Ety : type_key st c = if (c =? 0) || (INPUT_BUF_SIZE <=? Z.of_nat (length (ready st ++ edit st))) then (st, [])
    else let c := if c =? 13 then newline else c in
      if (c =? newline) || (c =? ctrl_D) || (Z.of_nat (length (ready st ++ edit st ++ [c])) =? INPUT_BUF_SIZE)
      then (mk_line (ready st ++ edit st ++ [c]) [], [c]) else (mk_line (ready st) (edit st ++ [c]), [c])).
  { unfold type_key. by rewrite !(proj2 (Z.eqb_neq _ _)) by done. }
  assert (Eg : negb (c =? 0) && (Z.of_nat (length (ready st ++ edit st)) <? INPUT_BUF_SIZE) =
    negb ((c =? 0) || (INPUT_BUF_SIZE <=? Z.of_nat (length (ready st ++ edit st))))) by (rewrite negb_orb, Z.leb_antisym; by rewrite negb_involutive).
  rewrite Eg. destruct ((c =? 0) || (INPUT_BUF_SIZE <=? Z.of_nat (length (ready st ++ edit st)))) eqn:Edrop; cbn [negb when].
  { exists s. rewrite Ety. cbn [fst snd]. rewrite (commits_refl st c st) by (by rewrite ?Ety).
    split; [done|]. split; rewrite ?app_nil_r; done. }
  apply orb_false_iff in Edrop as [_ Hlt%Z.leb_gt]. cbv zeta in *.
  change (if c =? 13 then 10 else c) with (if c =? 13 then newline else c). set (k := if c =? 13 then newline else c) in *.
  assert (Hk : 0 <= k < 256) by (subst k; unfold newline; destruct (c =? 13); lia).
  destruct (consputc_outputs k Hk s) as [u Eu]. rewrite (bind_Ok _ _ _ _ _ Eu), bind_modify, bind_gets.
  rewrite u8_small by done. destruct (cons_rep_push _ _ k Hrep Hlt) as (Hr1 & Hr2 & Hcnt).
  unfold upd_cons, printed. cbn [k_cons set_k_cons set_k_uart set_k_out]. rewrite Hcnt.
  destruct ((k =? newline) || (k =? ctrl_D) || (Z.of_nat (length (ready st ++ edit st ++ [k])) =? INPUT_BUF_SIZE)) eqn:Ecom.
  - assert (commits st c = true) as ->.
    { unfold commits. rewrite Ety. cbn [fst ready]. rewrite !length_app. cbn [length]. apply negb_true_iff, Nat.eqb_neq. lia. }
    unfold newline, ctrl_D in Ecom. rewrite Ecom. cbn [when]. rewrite bind_modify. erewrite wakeup_spec by done.
    eexists. split; [reflexivity|]. rewrite Ety. by split.
  - rewrite (commits_refl st c (mk_line (ready st) (edit st ++ [k]))) by (by rewrite ?Ety).
    unfold newline, ctrl_D in Ecom. rewrite Ecom. cbn [when]. eexists. split; [reflexivity|]. rewrite Ety. split; try done.
    apply Hr1. intros ->. done.
Qed.

Lemma backspace_spec s st c :
  cons_rep (k_cons s) st -> c = ctrl_H \/ c = 127 ->
  exists s', when (negb (cons_e (k_cons s) =? cons_w (k_cons s)))
      (modify (upd_cons (fun co => set_cons_e (u32 (cons_e co - 1)) co)) ;;; consputc BACKSPACE) s = Ok tt s' /\
    cons_step s (type_key st c).1 (type_key st c).2 (commits st c) s'.
Proof.
  intros Hrep Hc.
  assert (Ety : type_key st c = (mk_line (ready st) (removelast (edit st)), match edit st with [] => [] | _ => rubout end))
    by (destruct Hc as [->| ->]; done).
  rewrite (commits_refl st c (mk_line (ready st) (removelast (edit st)))) by (by rewrite ?Ety). rewrite Ety. cbn [fst snd].
  pose proof (cons_line_empty _ _ Hrep) as Hemp.
  destruct (edit st) as [|x l _] eqn:Ee using rev_ind.
  - rewrite (proj2 (Z.eqb_eq _ _)) by (by apply Hemp). exists s. split; [done|]. cbn. split; rewrite ?app_nil_r; try done.
    destruct st; cbn in *; by subst.
  - rewrite (proj2 (Z.eqb_neq _ _)) by (rewrite Hemp; by destruct l). cbn [negb when]. rewrite bind_modify.
    destruct (cons_rep_rubout _ _ _ _ Hrep Ee) as [_ Hrep'].
    destruct (consputc_rubout (upd_cons (fun c => set_cons_e (u32 (cons_e c - 1)) c) s)) as [u Eu].
    rewrite Eu. eexists. split; [reflexivity|]. rewrite removelast_last.
    split; try done. by destruct l.
Qed.

(** Every key but the process listing. *)
Lemma consoleintr_spec s st c :
  cons_env s st -> LkCons ∉ k_held s -> 0 <= c < 256 -> c <> 16 ->
  exists s', consoleintr c s = Ok tt s' /\ cons_step s (type_key st c).1 (type_key st c).2 (commits st c) s'.
Proof.
  intros He Hl Hc HP. unfold consoleintr. rewrite (bind_Ok _ _ _ _ _ (acquire_Ok _ _ Hl)), bind_gets.
  set (s0 := set_k_held (LkCons :: k_held s) s).
  assert (He0 : cons_env s0 st) by (destruct He; split; [done|done|cbn; set_solver]).
  rewrite (proj2 (Z.eqb_neq c 16)) by done.
  enough (exists s1, (if c =? 21 then kill_line (S (Z.to_nat (u32 (cons_e (k_cons s0) - cons_w (k_cons s0)))))
    else if (c =? 8) || (c =? 127) then when (negb (cons_e (k_cons s0) =? cons_w (k_cons s0)))
       (modify (upd_cons (fun co => set_cons_e (u32 (cons_e co - 1)) co)) ;;; consputc BACKSPACE)
    else console_store c) s0 = Ok tt s1 /\ cons_step s0 (type_key st c).1 (type_key st c).2 (commits st c) s1)
    as (s1 & E & [? ? Hh ? ? ?]).
  { exists (set_k_held (k_held s) s1). rewrite (bind_Ok _ _ _ _ _ E). split; [by apply release_Ok|]. by split. }
  destruct (cons_counts _ _ (ce_rep _ _ He0)) as [_ Hcnt].
  destruct (Z.eqb_spec c 21) as [->|HU]; [|destruct ((c =? 8) || (c =? 127)) eqn:Eh].
  - rewrite Hcnt, Nat2Z.id. destruct (kill_line_spec (S (length (edit st))) s0 st (ce_rep _ _ He0) ltac:(lia)) as (s1 & E & Hs).
    exists s1. split; [exact E|]. unfold type_key. cbn [Z.eqb ctrl_U Pos.eqb fst snd].
    rewrite (commits_refl st 21 (mk_line (ready st) [])) by done. exact Hs.
  - apply backspace_spec; [apply He0|]. apply orb_true_iff in Eh as [->%Z.eqb_eq| ->%Z.eqb_eq]; [by left|by right].
  - apply orb_false_iff in Eh as [H8%Z.eqb_neq H127%Z.eqb_neq]. by apply console_store_spec.
Qed.

(** A sequence of keys: the line state, the echo, and whether something became
    readable. *)
Fixpoint type_keys (st : line_state) (ks : list Z) : line_state * list Z * bool :=
  match ks with
  | [] => (st, [], false)
  | c :: ks =>
      let '(st', echo, woke) := type_keys (type_key st c).1 ks in
      (st', (type_key st c).2 ++ echo, commits st c || woke)
  end.

(** C24: the UART's interrupt handler feeds the received characters to a line
    editor.  It consumes all of them; the console's buffer then holds the
    readable characters and the unfinished line that the editor computes (rubout
    of one character, kill of the line, carriage return as newline, a full buffer
    drops characters, a line becomes readable at its newline, at ^D or when the
    buffer is full), the echo was sent, and the sleeping readers are runnable
    if and only if something became readable.  ^P, which lists the processes,
    is not among the characters. *)
Theorem console_line_discipline s st :
  cons_env s st -> LkCons ∉ k_held s -> Forall (fun c => 0 <= c < 256 /\ c <> 16) (ut_rx (k_uart s)) ->
  let '(st', echo, woke) := type_keys st (ut_rx (k_uart s)) in
  exists s', uart_receive (S (length (ut_rx (k_uart s)))) s = Ok tt s' /\
    cons_rep (k_cons s') st' /\ k_out s' = k_out s ++ echo /\ k_held s' = k_held s /\ ut_rx (k_uart s') = [] /\
    k_procs s' = if woke then imap (woken (k_cur s) ChCons) (k_procs s) else k_procs s.
Proof.
  intros He Hl Hrx. remember (ut_rx (k_uart s)) as rx eqn:Erx. symmetry in Erx. revert s st He Hl Erx.
  induction Hrx as [|c rx [Hc HP] _ IH]; intros s st He Hl Erx; cbn [type_keys length].
  - exists s. cbn [uart_receive]. unfold uartgetc. rewrite bind_assoc, bind_gets, Erx, bind_ret. rewrite app_nil_r.
    split_and!; try done. apply He.
  - set (s0 := upd_uart (set_ut_rx rx) s).
    assert (He0 : cons_env s0 st) by (destruct He; by split).
    destruct (consoleintr_spec s0 st c He0 Hl Hc HP) as (s1 & E1 & [Hrep Ho Hh Hcur Hrx1 Hps]).
    specialize (IH s1 (type_key st c).1). destruct (type_keys (type_key st c).1 rx) as [[st' echo] woke].
    destruct IH as (s' & E & Hrep' & Ho' & Hh' & Hrx' & Hps').
    { destruct He0 as [_ Hlen Hlk]. split; [done| |by rewrite Hh]. rewrite Hps. destruct (commits st c); [by rewrite length_imap|done]. }
    { by rewrite Hh. }
    { by rewrite Hrx1. }
    exists s'. split; [|split; [done|]].
    { change (uart_receive (S (S (length rx)))) with
        (c <- uartgetc ;; if c =? -1 then ret tt else consoleintr c ;;; uart_receive (S (length rx))).
      unfold uartgetc. rewrite bind_assoc, bind_gets, Erx, bind_assoc, bind_modify, bind_ret, u8_small by lia.
      rewrite (proj2 (Z.eqb_neq _ _)) by lia. by rewrite (bind_Ok _ _ _ _ _ E1). }
    split; [by rewrite Ho', Ho, app_assoc|]. split; [by rewrite Hh', Hh|]. split; [done|].
    rewrite Hps', Hps, Hcur. change (k_procs s0) with (k_procs s). change (k_cur s0) with (k_cur s).
    destruct (commits st c), woke; cbn [orb]; rewrite ?woken_twice; done.
Qed.

(** Typing "ab", a rubout, and a newline at an idle console. *)
Definition demo_console : kstate :=
  set_k_uart (mk_uartdev ∅ 0 0 1 [97; 98; 127; 13]) kstate0.

Lemma console_line_discipline_witness :
  exists s', uart_receive 5 demo_console = Ok tt s' /\ cons_rep (k_cons s') (mk_line [97; 10] []) /\
    k_out s' = [97; 98; 8; 32; 8; 10].
Proof.
  destruct (console_line_discipline demo_console (mk_line [] [])) as (s' & E & Hrep & Ho & _).
  - split; [split; [apply ring_init; [exact _|cbn; lia]|reflexivity|apply not_elem_of_nil]|reflexivity|].
    intros i. apply not_elem_of_nil.
  - apply not_elem_of_nil.
  - repeat constructor; lia.
  - exists s'. split; [exact E|]. split; [exact Hrep|exact Ho].
Defined.
