(* ===== verification/File.v ===== *)
(** Open files (kernel/file.c) and pipealloc (kernel/pipe.c).  [devsw] has one
    entry, the console's, which consoleinit installs. *)
From S2P Require Import Prelude State Locks Kstring Kalloc Vm Sched Sleeplock Bio Log Uart Kprintf Either Fs Pipe Console.

Definition CONSOLE : Z := 1.

Section File.
Context `{Linker}.

Definition devsw_read (major : Z) : option (place -> Z -> K Z) :=
  if major =? CONSOLE then Some consoleread else None.
Definition devsw_write (major : Z) : option (place -> Z -> K Z) :=
  if major =? CONSOLE then Some consolewrite else None.

Definition filedup (f : nat) : K nat :=
  acquire LkFtable ;;;
  x <- gets (get_file f) ;;
  if f_ref x <? 1 then panic "filedup"
  else
    modify (upd_file f (fun x => set_f_ref (f_ref x + 1) x)) ;;;
    release LkFtable ;;;
    ret f.

Definition fileclose (f : nat) : K unit :=
  acquire LkFtable ;;;
  x <- gets (get_file f) ;;
  if f_ref x <? 1 then panic "fileclose"
  else
    modify (upd_file f (set_f_ref (f_ref x - 1))) ;;;
    if 0 <? f_ref x - 1 then release LkFtable
    else
      modify (upd_file f (set_f_ref 0)) ;;;
      modify (upd_file f (set_f_type FD_NONE)) ;;;
      release LkFtable ;;;
      match f_type x with
      | FD_PIPE => pipeclose (f_pipe x) (f_writable x)
      | FD_INODE | FD_DEVICE => begin_op ;;; iput (f_ip x) ;;; end_op
      | FD_NONE => ret tt
      end.

Definition filestat (f : nat) (addr : Z) : K Z :=
  x <- gets (get_file f) ;;
  match f_type x with
  | FD_INODE | FD_DEVICE =>
      ilock (Some (f_ip x)) ;;;
      st <- stati (f_ip x) ∅ ;;
      iunlock (Some (f_ip x)) ;;;
      pt <- curpagetable ;;
      r <- copyout pt addr st 0 24 ;;
      if r <? 0 then ret (-1) else ret 0
  | _ => ret (-1)
  end.

Definition fileread (f : nat) (addr n : Z) : K Z :=
  x <- gets (get_file f) ;;
  if negb (f_readable x) then ret (-1)
  else
    match f_type x with
    | FD_PIPE => piperead (f_pipe x) addr n
    | FD_DEVICE =>
        if (f_major x <? 0) || (NDEV <=? f_major x) then ret (-1)
        else match devsw_read (f_major x) with
             | None => ret (-1)
             | Some read => read (User addr) n
             end
    | FD_INODE =>
        ilock (Some (f_ip x)) ;;;
        r <- readi (f_ip x) (User addr) (f_off x) (u32 n) ;;
        when (0 <? fst r) (modify (upd_file f (fun x => set_f_off (u32 (f_off x + fst r)) x))) ;;;
        iunlock (Some (f_ip x)) ;;;
        ret (fst r)
    | FD_NONE => panic "fileread"
    end.

(** ((MAXOPBLOCKS-1-1-2) / 2) * BSIZE *)
Definition write_max : Z := ((MAXOPBLOCKS - 1 - 1 - 2) / 2) * BSIZE.

(** while(i < n): the bytes written when the loop ends *)
Fixpoint filewrite_loop (fuel : nat) (f : nat) (addr n i : Z) : K Z :=
  match fuel with
  | O => fun _ => Diverge
  | S fuel =>
      if i <? n then
        let n1 := Z.min (n - i) write_max in
        x <- gets (get_file f) ;;
        begin_op ;;;
        ilock (Some (f_ip x)) ;;;
        x <- gets (get_file f) ;;
        r <- writei (f_ip x) (User (u64 (addr + i))) (f_off x) n1 ;;
        when (0 <? r) (modify (upd_file f (fun x => set_f_off (u32 (f_off x + r)) x))) ;;;
        iunlock (Some (f_ip x)) ;;;
        end_op ;;;
        if negb (r =? n1) then ret i else filewrite_loop fuel f addr n (i + r)
      else ret i
  end.

Definition filewrite (f : nat) (addr n : Z) : K Z :=
  x <- gets (get_file f) ;;
  if negb (f_writable x) then ret (-1)
  else
    match f_type x with
    | FD_PIPE => pipewrite (f_pipe x) addr n
    | FD_DEVICE =>
        if (f_major x <? 0) || (NDEV <=? f_major x) then ret (-1)
        else match devsw_write (f_major x) with
             | None => ret (-1)
             | Some write => write (User addr) n
             end
    | FD_INODE =>
        i <- filewrite_loop (2 + Z.to_nat (n / write_max)) f addr n 0 ;;
        ret (if i =? n then n else -1)
    | FD_NONE => panic "filewrite"
    end.

(** The bad label of pipealloc. *)
Definition pipealloc_bad (f0 f1 : option nat) : K (option (nat * nat)) :=
  match f0 with Some f => fileclose f | None => ret tt end ;;;
  match f1 with Some f => fileclose f | None => ret tt end ;;;
  ret None.

Definition pipealloc : K (option (nat * nat)) :=
  f0 <- filealloc ;;
  match f0 with
  | None => pipealloc_bad None None
  | Some f0 =>
      f1 <- filealloc ;;
      match f1 with
      | None => pipealloc_bad (Some f0) None
      | Some f1 =>
          pi <- kalloc ;;
          if pi =? 0 then pipealloc_bad (Some f0) (Some f1)
          else
            (* what the page held in the place of data[] is never read *)
            modify (fun s => set_k_pipes (<[pi := mk_pipe ∅ 0 0 true true]> (k_pipes s)) s) ;;;
            modify (upd_file f0 (fun x => set_f_pipe pi (set_f_writable false (set_f_readable true (set_f_type FD_PIPE x))))) ;;;
            modify (upd_file f1 (fun x => set_f_pipe pi (set_f_writable true (set_f_readable false (set_f_type FD_PIPE x))))) ;;;
            ret (Some (f0, f1))
      end
  end.
End File.
