(* ===== verification/FsWrite.v ===== *)
(** Writing the contents of an inode (kernel/fs.c: bmap, writei), inside of a
    transaction.  The file system has one bitmap block, as mkfs makes it. *)
From S2P Require Import Prelude State Locks Kstring Kalloc Vm PageTable VmSpec Uvm UvmCopy Copy Sched Sleeplock Bio BioList BioSpec BlockLayer Log LogSpec Txn Boot Uart Kprintf Either Fs FsTxn FsAlloc FsRead FsInode FsFile Pipe Console File.

(** What the file system leaves alone: the super block, memory, and the running
    process. *)
Record fs_only (s s' : kstate) : Prop := {
  fo_sb : k_sb s' = k_sb s;
  fo_mem : k_mem s' = k_mem s;
  fo_freelist : k_freelist s' = k_freelist s;
  fo_held : k_held s' = k_held s;
  fo_cur : k_cur s' = k_cur s;
  fo_proc : forall i, k_cur s = Some i -> get_proc i s' = get_proc i s
}.

Lemma fs_only_refl s : fs_only s s.
Proof. by split. Qed.
Lemma fs_only_trans s1 s2 s3 : fs_only s1 s2 -> fs_only s2 s3 -> fs_only s1 s3.
Proof.
  intros [A1 A2 A3 A4 A5 A6] [B1 B2 B3 B4 B5 B6]. split; [congruence..|]. intros i Hi. rewrite B6, A6 by congruence. done.
Qed.
Lemma log_fs_only s s' : log_only s s' -> fs_only s s'.
Proof.
  intros [E H1 H2 H3]. split; [by rewrite E..|]. intros i Hi. by apply H3.
Qed.

Lemma log_only_itable s s' : log_only s s' -> k_itable s' = k_itable s.
Proof. intros [E _ _ _]. by rewrite E. Qed.

Lemma length_absorb_eq blks b : length (absorb blks b) = (length blks + if decide (b ∈ blks) then 0 else 1)%nat.
Proof. unfold absorb. case_bool_decide; case_decide; try done; rewrite ?length_app; cbn; lia. Qed.

Lemma alter_same {A} (l : list A) i a : l !! i = Some a -> alter (fun _ => a) i l = l.
Proof.
  intros Hi. apply list_eq. intros j. destruct (decide (j = i)) as [->|Hne].
  - by rewrite list_lookup_alter_eq, Hi.
  - by rewrite list_lookup_alter_ne.
Qed.

Lemma zero_load32 d o : zero_block d -> 0 <= o -> o + 4 <= BSIZE -> load32 d o = 0.
Proof. intros Hz H1 H2. unfold load32. cbn [le_load]. rewrite !Hz by lia. done. Qed.

(** A source of the bytes [f 0, ..., f (N-1)]: [Q k pl s] holds when [pl] is the
    place of the byte [f k]. *)
Class Source (N : Z) (f : Z -> Z) (Q : Z -> place -> kstate -> Prop) : Prop := {
  source_fs k pl s s' : Q k pl s -> fs_only s s' -> Q k pl s';
  source_copy k pl s d o m :
    Q k pl s -> 0 <= k -> 0 < m <= BSIZE -> k + m <= N ->
    exists d', either_copyin d o pl m s = Ok (0, d') s /\ Q (k + m) (shift pl m) s /\
      forall a, load8 d' a = if (o <=? a) && (a <? o + m) then f (k + (a - o)) else load8 d a
}.

Section FsWrite.
Context (dev pid : Z) (rep : bstate_rel) `{!BlockLayer dev pid rep} (st nlog : Z).
Hypothesis Hgeom : log_geom dev st nlog.
Context (sb : superblock).
Hypothesis Hone : 0 < sb_size sb <= BPB.

Abbreviation fstxn := (fstxn dev rep st nlog).
Abbreviation home := (home st nlog).
Abbreviation file_wf := (file_wf st nlog sb).
Abbreviation frame := (frame sb).

(** The bitmap block. *)
Definition BB : Z := BBLOCK 0 sb.

Lemma BBLOCK_one b : 0 <= b < sb_size sb -> BBLOCK b sb = BB.
Proof.
  intros Hb. unfold BB, BBLOCK. f_equal. unfold BPB, BSIZE in *. rewrite Z.div_small by lia. done.
Qed.

(** A transaction that has the inode of entry [ip], which is [x]. *)
Record fsenv (s : kstate) (D V : blocks) (L : list (nat * Z)) (blks : list Z) (ip : nat) (x : inode) : Prop := {
  fe_txn : fstxn s D V L blks;
  fe_sb : k_sb s = sb;
  fe_bitmap : bitmap_ok st nlog sb L;
  fe_free : free_ok st nlog V sb L;
  fe_block0 : free_block V sb 0 = false;
  fe_data : forall b j, 0 <= b < sb_size sb -> free_block V sb b = true -> 0 <= j < sb_ninodes sb -> IBLOCK j sb <> b;
  fe_inode : k_itable s !! ip = Some x;
  fe_dev : i_dev x = dev;
  fe_wf : file_wf V x L
}.

(** The log blocks that are taken or reserved: for the bitmap and for the
    indirect block. *)
Definition once (b : Z) (blks : list Z) : nat := if decide (b ∈ blks) then 0 else 1.
Definition indcost (x : inode) (blks : list Z) : nat := if decide (iaddr x NDIRECT <> 0) then once (iaddr x NDIRECT) blks else 1.
Definition load (blks : list Z) (x : inode) : nat := length blks + once BB blks + indcost x blks.
(** [n] more blocks fit, besides a locked indirect block. *)
Definition afford (L : list (nat * Z)) (blks : list Z) (x : inode) (n : nat) : Prop :=
  Z.of_nat (load blks x + n) <= nlog - 1 /\ (length L + load blks x + n + 1 <= bhead)%nat.

Lemma once_absorb b c blks : (once b (absorb blks c) <= once b blks)%nat.
Proof.
  unfold once. destruct (decide (b ∈ absorb blks c)) as [|Hn]; [lia|].
  rewrite decide_False; [done|]. intros Hb. apply Hn. rewrite elem_absorb. by left.
Qed.
Lemma once_in b blks : b ∈ blks -> once b blks = 0%nat.
Proof. intros H. unfold once. by rewrite decide_True. Qed.
Lemma once_le1 b blks : (once b blks <= 1)%nat.
Proof. unfold once. case_decide; lia. Qed.
Lemma in_absorb b blks : b ∈ absorb blks b.
Proof. rewrite elem_absorb. by right. Qed.
Lemma in_absorb_l b c blks : b ∈ blks -> b ∈ absorb blks c.
Proof. intros H. rewrite elem_absorb. by left. Qed.

(** Any block that is added to the log. *)
Lemma load_absorb blks x c : (load (absorb blks c) x <= load blks x + once c blks)%nat.
Proof.
  unfold load, indcost. rewrite length_absorb_eq. fold (once c blks). pose proof (once_absorb BB c blks).
  pose proof (once_absorb (iaddr x NDIRECT) c blks). case_decide; lia.
Qed.
(** Adding the bitmap or the indirect block costs nothing. *)
Lemma load_absorb_BB blks x : (load (absorb blks BB) x <= load blks x)%nat.
Proof.
  unfold load, indcost. rewrite length_absorb_eq. fold (once BB blks). rewrite (once_in BB (absorb _ _)) by apply in_absorb.
  pose proof (once_absorb (iaddr x NDIRECT) BB blks). case_decide; lia.
Qed.
Lemma load_absorb_ind blks x : iaddr x NDIRECT <> 0 -> (load (absorb blks (iaddr x NDIRECT)) x <= load blks x)%nat.
Proof.
  intros Hne. unfold load, indcost. destruct (decide (iaddr x NDIRECT <> 0)) as [_|]; [|done]. rewrite length_absorb_eq. fold (once (iaddr x NDIRECT) blks).
  rewrite (once_in (iaddr x NDIRECT) (absorb _ _)) by apply in_absorb. pose proof (once_absorb BB (iaddr x NDIRECT) blks). lia.
Qed.
Lemma load_length blks x : (length blks <= load blks x)%nat.
Proof. unfold load. lia. Qed.

(** balloc in a file system with one bitmap block. *)
Lemma balloc_env s D V L blks x :
  fstxn s D V L blks -> k_sb s = sb -> bitmap_ok st nlog sb L -> free_ok st nlog V sb L -> free_block V sb 0 = false ->
  afford L blks x 1 ->
  exists r t, balloc dev s = Ok r t /\ fs_only s t /\ k_itable t = k_itable s /\
    ((exists V', 0 < r < sb_size sb /\ free_block V sb r = true /\ fstxn t D V' L (absorb (absorb blks BB) r) /\
       zero_block (V' r) /\ (forall b, b <> r -> b <> BB -> V' b = V b) /\
       (forall b, 0 <= b < sb_size sb -> free_block V' sb b = negb (b =? r) && free_block V sb b)) \/
     (r = 0 /\ (forall b, 0 <= b < sb_size sb -> free_block V sb b = false) /\ fstxn t D V L blks)).
Proof.
  intros Ht Hsb Hbm Hfo H0 [Ha1 Ha2].
  assert (Hs : spare_take nlog (k_sb s) L blks).
  { rewrite Hsb. pose proof (load_length blks x). split; [unfold spare; lia|]. intros b Hb. rewrite BBLOCK_one by done.
    pose proof (load_absorb_BB blks x). pose proof (load_length (absorb blks BB) x). unfold spare. lia. }
  rewrite <- Hsb in Hbm, Hfo, H0.
  destruct (balloc_spec dev pid rep st nlog Hgeom s D V L blks Hbm Hfo Hs Ht) as (t & O & _ & [(V' & r & E & Hr & Hf & _ & Htk & Ht')|(room & E & Hall & Ht')]);
    rewrite Hsb in *.
  - exists r, t. split; [done|]. split; [by apply log_fs_only|]. split; [by apply log_only_itable|]. left. exists V'.
    rewrite BBLOCK_one in Ht' by done. split; [|split; [done|split; [done|]]].
    { destruct (Z.eqb_spec r 0) as [->|]; [congruence|lia]. }
    destruct (Hfo r Hr Hf) as (_ & _ & Hnb). split; [|split; [|by eapply (taken_free st nlog)]].
    + destruct Htk as (d & z & _ & Hz & ->). by rewrite vupd_eq.
    + intros b Hb HbB. destruct Htk as (d & z & _ & _ & ->). rewrite BBLOCK_one by done. by rewrite !vupd_ne.
  - eexists 0, _. split; [exact E|]. split; [|split].
    + destruct (log_fs_only _ _ O) as [A1 A2 A3 A4 A5 A6]. by split.
    + cbn. by apply log_only_itable.
    + right. split; [done|]. split; [done|]. destruct (fs_running dev pid rep st nlog _ _ _ _ _ Ht') as [H1 H2 H3].
      apply (fstxn_frame dev pid rep st nlog t); [done..|by split].
Qed.

(** * New blocks *)

(** The file gets blocks, which are zero, and is otherwise the same. *)
Record grown (V : blocks) (x : inode) (V' : blocks) (x' : inode) : Prop := {
  gr_frame : frame V x V' x';
  gr_bytes : forall off, 0 <= off < MAXFILE * BSIZE -> fbyte0 V' x' off = fbyte0 V x off;
  gr_inode : x' = set_i_addrs (i_addrs x') x
}.

Lemma fgrown_refl V x : grown V x V x.
Proof. split; [apply frame_refl|done|by destruct x]. Qed.
Lemma fgrown_trans V0 x0 V1 x1 V2 x2 : grown V0 x0 V1 x1 -> grown V1 x1 V2 x2 -> grown V0 x0 V2 x2.
Proof.
  intros [A1 A2 A3] [B1 B2 B3]. split; [by eapply frame_trans|intros off Hoff; by rewrite B2, A2|].
  rewrite B3, A3. done.
Qed.

(** The inode with address [r] at index [k]. *)
Definition with_addr (x : inode) (k r : Z) : inode := set_i_addrs (<[Z.to_nat k := r]> (i_addrs x)) x.

Lemma iaddr_with x k r j :
  length (i_addrs x) = Z.to_nat (NDIRECT + 1) -> 0 <= k <= NDIRECT -> 0 <= j ->
  iaddr (with_addr x k r) j = if j =? k then r else iaddr x j.
Proof.
  intros Hn Hk Hj. unfold iaddr, with_addr. cbn [i_addrs set_i_addrs]. change (Z.to_nat (NDIRECT + 1)) with 13%nat in Hn.
  destruct (Z.eqb_spec j k) as [->|Hne].
  - rewrite list_lookup_insert_eq; [done|]. unfold NDIRECT in *. lia.
  - rewrite list_lookup_insert_ne by lia. done.
Qed.

(** The slot of index [k] of the addresses. *)
Definition slot_of (k : Z) : Z := if k =? NDIRECT then MAXFILE else k.

Lemma saddr_slot V x k : 0 <= k <= NDIRECT -> saddr V x (slot_of k) = iaddr x k.
Proof.
  intros Hk. unfold saddr, slot_of, baddr. rewrite MAXFILE_val. destruct (Z.eqb_spec k NDIRECT) as [->|Hne]; [done|].
  unfold NDIRECT in *. rewrite (proj2 (Z.eqb_neq _ _)), (proj2 (Z.ltb_lt _ _)) by lia. done.
Qed.

Lemma with_addr_slots V x L k r V' j :
  file_wf V x L -> 0 <= k <= NDIRECT -> iaddr x k = 0 -> 0 < r -> free_block V sb r = true ->
  (forall b, b <> r -> b <> BB -> V' b = V b) -> zero_block (V' r) -> 0 <= j <= MAXFILE ->
  saddr V' (with_addr x k r) j = if j =? slot_of k then r else saddr V x j.
Proof.
  intros Hwf Hk H0 Hr Hfree Hother Hzero Hj. pose proof (fw_len _ _ _ _ _ _ Hwf) as Hn.
  destruct (Z.eqb_spec j (slot_of k)) as [->|Hne]; [rewrite saddr_slot, iaddr_with, Z.eqb_refl by lia; done|].
  unfold saddr, baddr. unfold slot_of in Hne. rewrite MAXFILE_val in *.
  destruct (Z.eqb_spec j 268) as [->|Hj'].
  { rewrite iaddr_with by (done || unfold NDIRECT; lia). destruct (Z.eqb_spec NDIRECT k) as [<-|]; done. }
  destruct (Z.ltb_spec j NDIRECT) as [Hd|Hd].
  { rewrite iaddr_with by (done || lia). destruct (Z.eqb_spec j k) as [->|]; [|done]. exfalso. apply Hne.
    by rewrite (proj2 (Z.eqb_neq _ _)) by lia. }
  rewrite iaddr_with by (done || unfold NDIRECT; lia). destruct (Z.eqb_spec NDIRECT k) as [<-|Hnk].
  - rewrite H0. rewrite (proj2 (Z.eqb_neq r 0)) by lia. cbn [Z.eqb]. apply (zero_load32 (V' r)); [done|unfold NDIRECT, BSIZE in *; lia..].
  - destruct (Z.eqb_spec (iaddr x NDIRECT) 0) as [|Hi]; [done|]. rewrite (ind_slot V x) in Hi.
    destruct (fw_slot _ _ _ _ _ _ Hwf MAXFILE ltac:(rewrite MAXFILE_val; lia) Hi) as [Hrg Hu _ _ Hb _].
    rewrite (ind_slot V x). rewrite Hother; [done| |].
    + intros E. rewrite E in Hu. congruence.
    + intros E. apply (Hb 0 ltac:(lia)). by rewrite E.
Qed.

Lemma other_bitmap (V V' : blocks) (r : Z) (b : Z) :
  (forall b, b <> r -> b <> BB -> V' b = V b) -> b <> r -> (forall b', 0 <= b' < sb_size sb -> BBLOCK b' sb <> b) -> V' b = V b.
Proof. intros H Hr Hb. apply H; [done|]. intros ->. by apply (Hb 0); [lia|]. Qed.

Lemma free_used V V' r b :
  (forall b, 0 <= b < sb_size sb -> free_block V' sb b = negb (b =? r) && free_block V sb b) ->
  0 <= b < sb_size sb -> free_block V sb b = false -> free_block V' sb b = false.
Proof. intros H Hb Hf. by rewrite H, Hf, andb_false_r. Qed.

(** addr = balloc(dev); if(addr == 0) return 0; ip->addrs[k] = addr; *)
Definition new_addr (ip : nat) (k : Z) : K Z :=
  addr <- balloc dev ;; if addr =? 0 then ret 0 else set_addr ip k addr ;;; ret addr.

Lemma load_new_addr blks x k r :
  0 < r -> length (i_addrs x) = Z.to_nat (NDIRECT + 1) -> 0 <= k <= NDIRECT -> iaddr x k = 0 ->
  (load (absorb (absorb blks BB) r) (with_addr x k r) <= load blks x + if (k =? NDIRECT)%Z then 0 else 1)%nat.
Proof.
  intros Hr Hn Hk H0. destruct (Z.eqb_spec k NDIRECT) as [->|Hne].
  - assert (E : iaddr (with_addr x NDIRECT r) NDIRECT = r) by (rewrite iaddr_with by (done || unfold NDIRECT; lia); by rewrite Z.eqb_refl).
    assert (Hi : indcost (with_addr x NDIRECT r) (absorb (absorb blks BB) r) = 0%nat)
      by (unfold indcost; rewrite E, decide_True by lia; apply once_in, in_absorb).
    assert (Hi0 : indcost x blks = 1%nat) by (unfold indcost; rewrite H0; by rewrite decide_False by (intros Hd; by apply Hd)).
    unfold load. rewrite Hi, Hi0, !length_absorb_eq. fold (once r (absorb blks BB)) (once BB blks).
    rewrite (once_in BB (absorb _ _)) by apply in_absorb_l, in_absorb. pose proof (once_le1 r (absorb blks BB)). lia.
  - assert (E : iaddr (with_addr x k r) NDIRECT = iaddr x NDIRECT)
      by (rewrite iaddr_with by (done || unfold NDIRECT; lia); by rewrite (proj2 (Z.eqb_neq _ _)) by lia).
    pose proof (load_absorb_BB blks x). pose proof (load_absorb (absorb blks BB) x r). pose proof (once_le1 r (absorb blks BB)).
    assert (Hl : load (absorb (absorb blks BB) r) (with_addr x k r) = load (absorb (absorb blks BB) r) x)
      by (unfold load, indcost; by rewrite E).
    lia.
Qed.

Lemma new_addr_spec s D V L blks ip x k :
  fsenv s D V L blks ip x -> 0 <= k <= NDIRECT -> iaddr x k = 0 -> afford L blks x 1 ->
  exists s' V' x' blks', new_addr ip k s = Ok (iaddr x' k) s' /\ fs_only s s' /\
    k_itable s' = alter (fun _ => x') ip (k_itable s) /\ fsenv s' D V' L blks' ip x' /\ grown V x V' x' /\ blks ⊆ blks' /\
    (load blks' x' <= load blks x + if (k =? NDIRECT)%Z then 0 else 1)%nat /\
    (iaddr x' k <> 0 /\ iaddr x' k ∈ blks' \/
     iaddr x' k = 0 /\ (load blks' x' <= load blks x)%nat /\ (forall b, 0 <= b < sb_size sb -> free_block V' sb b = false)).
Proof.
  intros [Ht Hsb Hbm Hfo H0 Hfd Hx Hdev Hwf] Hk Hk0 Haf.
  destruct (balloc_env s D V L blks x Ht Hsb Hbm Hfo H0 Haf) as (r & t & E & O & Ei & [(V' & Hr & Hf & Ht' & Hz & Hoth & Hfree)|(-> & Hall & Ht')]);
    unfold new_addr; rewrite (bind_Ok _ _ _ _ _ E).
  - rewrite (proj2 (Z.eqb_neq r 0)) by lia. unfold set_addr. rewrite bind_modify. set (s' := upd_inode _ _ t).
    pose proof (fw_len _ _ _ _ _ _ Hwf) as Hn. set (x' := with_addr x k r).
    assert (Hslots : forall j, 0 <= j <= MAXFILE -> saddr V' x' j = if j =? slot_of k then r else saddr V x j)
      by (intros j Hj; eapply with_addr_slots; (done || lia)).
    assert (Hs0 : saddr V x (slot_of k) = 0) by (by rewrite saddr_slot).
    assert (Hri : forall j, 0 <= j < sb_ninodes sb -> IBLOCK j sb <> r) by (intros j; apply Hfd; [lia|done]).
    assert (Hsk : 0 <= slot_of k <= MAXFILE) by (unfold slot_of, NDIRECT in *; rewrite MAXFILE_val; destruct (k =? 12); lia).
    assert (Hxl : length (i_addrs x') = length (i_addrs x) /\ i_size x' = i_size x) by (unfold x', with_addr; cbn; by rewrite length_insert).
    assert (Hother : forall b, b <> r -> (forall b', 0 <= b' < sb_size sb -> BBLOCK b' sb <> b) ->
      b <> iaddr x NDIRECT \/ b = 0 -> V' b = V b) by (intros b H1 H2 _; by eapply other_bitmap).
    assert (Ex : iaddr x' k = r) by (unfold x'; rewrite iaddr_with by (done || lia); by rewrite Z.eqb_refl).
    assert (Eit : k_itable s' = alter (fun _ => x') ip (k_itable s)).
    { unfold s'. cbn. rewrite Ei. apply list_alter_ext; [|done]. intros y Hy. rewrite Hx in Hy. by injection Hy as <-. }
    exists s', V', x', (absorb (absorb blks BB) r). rewrite Ex. split; [done|]. split; [|split; [done|split; [|split; [|split; [|split]]]]].
    + destruct O as [A1 A2 A3 A4 A5 A6]. by split.
    + split.
      * by apply (fstxn_itable dev pid rep st nlog).
      * cbn. by rewrite (fo_sb _ _ O).
      * done.
      * by eapply alloc_free_ok.
      * eapply free_used; [done|lia|done].
      * intros b j Hb Hfb. rewrite Hfree in Hfb by done. apply andb_true_iff in Hfb as [_ Hfb]. by apply Hfd.
      * rewrite Eit, list_lookup_alter_eq, Hx. done.
      * done.
      * eapply alloc_wf; done.
    + split; [eapply alloc_frame; done|intros off Hoff; eapply alloc_fbyte; done|done].
    + intros b Hb. by do 2 apply in_absorb_l.
    + by apply load_new_addr; [lia|..].
    + left. split; [lia|apply in_absorb].
  - cbn [Z.eqb]. exists t, V, x, blks. rewrite Hk0. split; [done|]. split; [done|]. split; [|split; [|split; [apply fgrown_refl|]]].
    + rewrite Ei. symmetry. by apply alter_same.
    + split; try done; [by rewrite (fo_sb _ _ O)|by rewrite Ei].
    + split; [done|]. split; [lia|]. by right.
Qed.

(** * The indirect block *)

(** The part of bmap that has the indirect block. *)
Definition ind_entry (ind bn : Z) : K Z :=
  bp <- bread dev ind ;;
  addr <- gets (fun s => load32 (b_data (get_buf bp s)) (4 * (bn - NDIRECT))) ;;
  addr <- (if addr =? 0 then
             addr <- balloc dev ;;
             when (negb (addr =? 0))
               (upd_data bp (fun d => store32 d (4 * (bn - NDIRECT)) addr) ;;; log_write bp) ;;;
             ret addr
           else ret addr) ;;
  brelse bp ;;;
  ret addr.

Lemma ind_data V x L : file_wf V x L -> iaddr x NDIRECT <> 0 -> data_block st nlog sb V L (iaddr x NDIRECT).
Proof. intros Hwf Hne. rewrite (ind_slot V x) in *. apply (fw_slot _ _ _ _ _ _ Hwf); [rewrite MAXFILE_val; lia|done]. Qed.

Lemma lock_used V L b bn : bitmap_ok st nlog sb L -> free_ok st nlog V sb L -> data_block st nlog sb V L bn ->
  bitmap_ok st nlog sb ((b, bn) :: L) /\ free_ok st nlog V sb ((b, bn) :: L).
Proof.
  intros [A1 A2 A3 A4] Hf [B1 B2 B3 B4 B5 _]. split.
  - split; [done..|]. intros c Hc. destruct (A4 c Hc) as [? HL]. split; [done|]. cbn.
    intros [E|E]%elem_of_cons; [by apply (B5 c)|done].
  - intros c Hc Hfc. destruct (Hf c Hc Hfc) as (H1 & H2 & H3). split; [done|]. split; [|done]. cbn.
    intros [E|E]%elem_of_cons; [|done]. rewrite E in Hfc. congruence.
Qed.

Lemma ind_slots V x L bn r V1 d j :
  file_wf V x L -> NDIRECT <= bn < MAXFILE -> iaddr x NDIRECT <> 0 -> 0 < r < 2 ^ 32 ->
  beq d (V (iaddr x NDIRECT)) -> 0 <= j <= MAXFILE ->
  saddr (vupd V1 (iaddr x NDIRECT) (store32 d (4 * (bn - NDIRECT)) r)) x j = if j =? bn then r else saddr V x j.
Proof.
  intros Hwf Hbn Hind Hr Hd Hj. unfold saddr, baddr. rewrite MAXFILE_val in *.
  destruct (Z.eqb_spec j 268) as [->|]; [by rewrite (proj2 (Z.eqb_neq _ _)) by lia|].
  destruct (Z.ltb_spec j NDIRECT); [by rewrite (proj2 (Z.eqb_neq _ _)) by lia|].
  rewrite (proj2 (Z.eqb_neq _ _) Hind), vupd_eq. unfold load32, store32. destruct (Z.eqb_spec j bn) as [->|].
  - rewrite le_load_store_same. change (256 ^ Z.of_nat 4) with (2 ^ 32). apply Z.mod_small. lia.
  - rewrite le_load_store_disj by lia. apply (load32_beq d); [done|unfold NDIRECT, BSIZE in *; lia..].
Qed.

Lemma ind_grow V x L bn r V1 d :
  file_wf V x L -> free_ok st nlog V sb L -> free_block V sb 0 = false -> NDIRECT <= bn < MAXFILE ->
  iaddr x NDIRECT <> 0 -> baddr V x bn = 0 -> 0 < r < sb_size sb -> free_block V sb r = true ->
  (forall b j, 0 <= b < sb_size sb -> free_block V sb b = true -> 0 <= j < sb_ninodes sb -> IBLOCK j sb <> b) ->
  zero_block (V1 r) -> (forall b, b <> r -> b <> BB -> V1 b = V b) ->
  (forall b, 0 <= b < sb_size sb -> free_block V1 sb b = negb (b =? r) && free_block V sb b) ->
  beq d (V1 (iaddr x NDIRECT)) ->
  let V2 := vupd V1 (iaddr x NDIRECT) (store32 d (4 * (bn - NDIRECT)) r) in
  grown V x V2 x /\ file_wf V2 x L /\ free_ok st nlog V2 sb L /\ free_block V2 sb 0 = false /\ baddr V2 x bn = r /\
  (forall b j, 0 <= b < sb_size sb -> free_block V2 sb b = true -> 0 <= j < sb_ninodes sb -> IBLOCK j sb <> b).
Proof.
  intros Hwf Hfo H0 Hbn Hind Hz Hr Hf Hfd Hzero Hoth Hfree Hd V2. pose proof (ind_data V x L Hwf Hind) as Hdb.
  assert (HiB : iaddr x NDIRECT <> BB) by (intros E; by apply (db_bitmap _ _ _ _ _ _ Hdb 0); [lia|]).
  assert (Hir : iaddr x NDIRECT <> r) by (intros E; pose proof (db_used _ _ _ _ _ _ Hdb) as Hu; rewrite E in Hu; congruence).
  rewrite (Hoth _ Hir HiB) in Hd.
  assert (Hslots : forall j, 0 <= j <= MAXFILE -> saddr V2 x j = if j =? bn then r else saddr V x j).
  { intros j Hj. apply (ind_slots V x L); try done. unfold BPB, BSIZE in Hone. lia. }
  assert (Hbns : 0 <= bn <= MAXFILE) by (unfold NDIRECT in *; lia).
  assert (Hb0 : saddr V x bn = 0) by (by rewrite <- baddr_slot by lia).
  assert (Hfree2 : forall b, 0 <= b < sb_size sb -> free_block V2 sb b = negb (b =? r) && free_block V sb b).
  { intros b Hb. rewrite <- Hfree by done. unfold free_block, V2. rewrite vupd_ne; [done|]. rewrite BBLOCK_one by done. done. }
  assert (Hother : forall b, b <> r -> (forall b', 0 <= b' < sb_size sb -> BBLOCK b' sb <> b) ->
      b <> iaddr x NDIRECT \/ b = 0 -> V2 b = V b).
  { intros b H1 H2 H3. unfold V2. rewrite vupd_ne; [by eapply other_bitmap|]. destruct H3 as [|H3]; [done|congruence]. }
  assert (Hri : forall j, 0 <= j < sb_ninodes sb -> IBLOCK j sb <> r) by (intros j; apply Hfd; [lia|done]).
  assert (Hz2 : zero_block (V2 r)) by (unfold V2; by rewrite vupd_ne).
  split; [split; [eapply alloc_frame; done|intros off Hoff; eapply alloc_fbyte; done|by destruct x]|].
  split; [eapply alloc_wf; done|]. split; [by eapply alloc_free_ok|]. split; [eapply free_used; [done|lia|done]|].
  split; [rewrite baddr_slot, Hslots, Z.eqb_refl by lia; done|].
  intros b j Hb Hfb. rewrite Hfree2 in Hfb by done. apply andb_true_iff in Hfb as [_ Hfb]. by apply Hfd.
Qed.

Lemma ind_entry_spec s D V L blks ip x bn :
  fsenv s D V L blks ip x -> NDIRECT <= bn < MAXFILE -> iaddr x NDIRECT <> 0 -> afford L blks x 2 ->
  exists s' V' blks', ind_entry (iaddr x NDIRECT) bn s = Ok (baddr V' x bn) s' /\ fs_only s s' /\ k_itable s' = k_itable s /\
    fsenv s' D V' L blks' ip x /\ grown V x V' x /\ blks ⊆ blks' /\
    (load blks' x + once (baddr V' x bn) blks' <= load blks x + 1)%nat /\
    (baddr V' x bn = 0 -> forall b, 0 <= b < sb_size sb -> free_block V' sb b = false).
Proof.
  intros [Ht Hsb Hbm Hfo H0 Hfd Hx Hdev Hwf] Hbn Hind [Ha1 Ha2]. pose proof (ind_data V x L Hwf Hind) as Hdb.
  set (ind := iaddr x NDIRECT) in *. pose proof (load_length blks x) as Hll.
  destruct (fs_bread dev pid rep st nlog s D V L blks ind Ht (db_unlocked _ _ _ _ _ _ Hdb) ltac:(lia)) as (b & s1 & E1 & O1 & _ & Ht1).
  assert (Hd1 : beq (b_data (get_buf b s1)) (V ind)) by (by eapply fs_data, list_elem_of_here).
  unfold ind_entry. rewrite (bind_Ok _ _ _ _ _ E1), bind_gets, (load32_beq _ (V ind) _ Hd1)
    by (rewrite MAXFILE_val in *; unfold NDIRECT, BSIZE in *; lia).
  assert (Eb : forall W, baddr W x bn = load32 (W ind) (4 * (bn - NDIRECT)))
    by (intros W; unfold baddr; fold ind; by rewrite (proj2 (Z.ltb_ge _ _)), (proj2 (Z.eqb_neq _ _)) by (done || lia)).
  rewrite <- Eb. destruct (Z.eqb_spec (baddr V x bn) 0) as [Ez|Enz].
  2: { destruct (fs_brelse dev pid rep st nlog s1 D V [] L blks b ind Ht1) as (s2 & E2 & O2 & _ & Ht2).
    exists s2, V, blks. rewrite bind_ret, (bind_Ok _ _ _ _ _ E2). pose proof (log_only_trans _ _ _ O1 O2) as O.
    split; [done|]. split; [by apply log_fs_only|]. split; [by apply log_only_itable|]. split; [|split; [apply fgrown_refl|]].
    - split; try done; [by rewrite (log_only_sb _ _ O)|by rewrite (log_only_itable _ _ O)].
    - split; [done|]. split; [pose proof (once_le1 (baddr V x bn) blks); lia|done]. }
  destruct (lock_used V L b ind Hbm Hfo Hdb) as [Hbm1 Hfo1].
  destruct (balloc_env s1 D V _ blks x Ht1) as (r & t & E2 & O2 & Ei2 & Hres); try done.
  { by rewrite (log_only_sb _ _ O1). }
  { split; [lia|cbn; lia]. }
  rewrite bind_assoc, (bind_Ok _ _ _ _ _ E2). destruct Hres as [(V1 & Hr & Hf & Ht2 & Hz & Hoth & Hfree)|(-> & Hall & Ht2)].
  - rewrite (proj2 (Z.eqb_neq r 0)) by lia. cbn [negb when]. set (blks1 := absorb (absorb blks BB) r) in *.
    assert (Hl1 : (load blks1 x <= load blks x + 1)%nat).
    { pose proof (load_absorb (absorb blks BB) x r). pose proof (load_absorb_BB blks x). pose proof (once_le1 r (absorb blks BB)). unfold blks1. lia. }
    pose proof (load_length blks1 x) as Hll1.
    assert (Hin : (b, ind) ∈ (b, ind) :: L) by apply list_elem_of_here.
    destruct (fs_modify dev pid rep st nlog Hgeom t D V1 _ blks1 b ind (fun d => store32 d (4 * (bn - NDIRECT)) r) Ht2 Hin
      (db_home _ _ _ _ _ _ Hdb) ltac:(lia)) as (t2 & E3 & O3 & _ & Ht3).
    destruct (fs_brelse dev pid rep st nlog t2 D _ [] L _ b ind Ht3) as (t3 & E4 & O4 & _ & Ht4).
    destruct (ind_grow V x L bn r V1 (b_data (get_buf b t))) as (Hg & Hwf2 & Hfo2 & H02 & Eb2 & Hfd2); try done; [by eapply fs_data|].
    exists t3. eexists _, (absorb blks1 ind). rewrite bind_assoc, (bind_Ok _ _ _ _ _ E3), bind_ret, (bind_Ok _ _ _ _ _ E4).
    split; [unfold ret; do 2 f_equal; by rewrite Eb2|]. pose proof (log_only_trans _ _ _ O3 O4) as O34.
    assert (O : fs_only s t3) by (eapply fs_only_trans; [by apply log_fs_only|]; eapply fs_only_trans; [exact O2|by apply log_fs_only]).
    assert (Ei : k_itable t3 = k_itable s) by (rewrite (log_only_itable _ _ O34), Ei2; by apply log_only_itable).
    split; [done|]. split; [done|]. split; [split; try done; [by rewrite (fo_sb _ _ O)|by rewrite Ei]|]. split; [done|].
    split; [intros c Hc; unfold blks1; by repeat apply in_absorb_l|]. rewrite Eb2. split; [|lia].
    rewrite once_in by (apply in_absorb_l, in_absorb). pose proof (load_absorb_ind blks1 x Hind). fold ind in H. lia.
  - cbn [negb when Z.eqb]. rewrite bind_assoc, !bind_ret.
    destruct (fs_brelse dev pid rep st nlog t D V [] L blks b ind Ht2) as (t3 & E4 & O4 & _ & Ht4). rewrite (bind_Ok _ _ _ _ _ E4).
    exists t3, V, blks. rewrite Ez. split; [done|].
    assert (O : fs_only s t3) by (eapply fs_only_trans; [by apply log_fs_only|]; eapply fs_only_trans; [exact O2|by apply log_fs_only]).
    assert (Ei : k_itable t3 = k_itable s) by (rewrite (log_only_itable _ _ O4), Ei2; by apply log_only_itable).
    split; [done|]. split; [done|]. split; [split; try done; [by rewrite (fo_sb _ _ O)|by rewrite Ei]|]. split; [apply fgrown_refl|].
    split; [done|]. split; [pose proof (once_le1 0 blks); lia|done].
Qed.

(** * bmap *)

(** The outcome of bmap for block [bn]. *)
Definition mapped (s : kstate) (D V : blocks) (L : list (nat * Z)) (blks : list Z) (ip : nat) (x : inode) (bn : Z)
    (s' : kstate) (V' : blocks) (x' : inode) (blks' : list Z) : Prop :=
  fs_only s s' /\ k_itable s' = alter (fun _ => x') ip (k_itable s) /\ fsenv s' D V' L blks' ip x' /\ grown V x V' x' /\
  blks ⊆ blks' /\ (load blks' x' + once (baddr V' x' bn) blks' <= load blks x + 1)%nat /\
  (baddr V' x' bn = 0 -> forall b, 0 <= b < sb_size sb -> free_block V' sb b = false).

Lemma fsenv_get s D V L blks ip x : fsenv s D V L blks ip x -> get_inode ip s = x.
Proof. intros H. unfold get_inode. by rewrite (fe_inode _ _ _ _ _ _ _ H). Qed.

Lemma bmap_direct s D V L blks ip x bn :
  fsenv s D V L blks ip x -> 0 <= bn < NDIRECT -> afford L blks x 1 ->
  exists s' V' x' blks', bmap ip bn s = Ok (baddr V' x' bn) s' /\ mapped s D V L blks ip x bn s' V' x' blks'.
Proof.
  intros He Hbn Ha. assert (Eb : forall W y, baddr W y bn = iaddr y bn)
    by (intros W y; unfold baddr; by rewrite (proj2 (Z.ltb_lt _ _)) by lia).
  unfold bmap, addr_at. rewrite bind_gets, (fsenv_get _ _ _ _ _ _ _ He), (fe_dev _ _ _ _ _ _ _ He), (proj2 (Z.ltb_lt bn NDIRECT)) by lia.
  rewrite bind_gets, (fsenv_get _ _ _ _ _ _ _ He). fold (iaddr x bn). fold (new_addr ip bn). destruct (Z.eqb_spec (iaddr x bn) 0) as [Ez|Enz].
  - destruct (new_addr_spec s D V L blks ip x bn He ltac:(lia) Ez Ha) as (s' & V' & x' & blks' & E & O & Ei & He' & Hg & Hsub & Hl & Hres).
    exists s', V', x', blks'. unfold mapped. rewrite Eb. split; [done|]. do 5 (split; [done|]).
    rewrite (proj2 (Z.eqb_neq bn NDIRECT)) in Hl by lia. destruct Hres as [[Hne Hin]|(-> & Hl' & Hall)]; [|by split; [pose proof (once_le1 0 blks'); lia|]].
    split; [rewrite once_in by done; lia|done].
  - exists s, V, x, blks. unfold mapped. rewrite Eb. split; [done|]. split; [apply fs_only_refl|].
    split; [symmetry; apply alter_same, He|]. split; [done|]. split; [apply fgrown_refl|]. split; [done|].
    split; [pose proof (once_le1 (iaddr x bn) blks); lia|done].
Qed.

Lemma bmap_spec s D V L blks ip x bn :
  fsenv s D V L blks ip x -> 0 <= bn < MAXFILE -> afford L blks x 2 ->
  exists s' V' x' blks', bmap ip bn s = Ok (baddr V' x' bn) s' /\ mapped s D V L blks ip x bn s' V' x' blks'.
Proof.
  intros He Hbn Ha. destruct (Z.ltb_spec bn NDIRECT) as [Hd|Hd].
  { apply bmap_direct; [done|lia|]. unfold afford in *. lia. }
  unfold bmap, addr_at. rewrite bind_gets, (fsenv_get _ _ _ _ _ _ _ He), (fe_dev _ _ _ _ _ _ _ He), (proj2 (Z.ltb_ge bn NDIRECT)) by lia.
  rewrite (proj2 (Z.ltb_lt (bn - NDIRECT) NINDIRECT)) by (change NINDIRECT with 256; rewrite MAXFILE_val in Hbn; unfold NDIRECT in *; lia).
  rewrite bind_gets, (fsenv_get _ _ _ _ _ _ _ He). fold (iaddr x NDIRECT). fold (new_addr ip NDIRECT).
  assert (Hind : exists s1 V1 x1 blks1, (if iaddr x NDIRECT =? 0 then new_addr ip NDIRECT else ret (iaddr x NDIRECT)) s = Ok (iaddr x1 NDIRECT) s1 /\
    fs_only s s1 /\ k_itable s1 = alter (fun _ => x1) ip (k_itable s) /\ fsenv s1 D V1 L blks1 ip x1 /\ grown V x V1 x1 /\ blks ⊆ blks1 /\
    (load blks1 x1 <= load blks x)%nat /\ (iaddr x1 NDIRECT = 0 -> forall b, 0 <= b < sb_size sb -> free_block V1 sb b = false)).
  { destruct (Z.eqb_spec (iaddr x NDIRECT) 0) as [Ez|Enz].
    - destruct (new_addr_spec s D V L blks ip x NDIRECT He ltac:(unfold NDIRECT; lia) Ez ltac:(unfold afford in *; lia))
        as (s1 & V1 & x1 & blks1 & E & O & Ei & He1 & Hg & Hsub & Hl & Hres). exists s1, V1, x1, blks1.
      do 6 (split; [done|]). rewrite Z.eqb_refl in Hl. split; [lia|]. destruct Hres as [[? _]|(_ & _ & ?)]; done.
    - exists s, V, x, blks. split; [done|]. split; [apply fs_only_refl|]. split; [symmetry; apply alter_same, He|].
      split; [done|]. split; [apply fgrown_refl|]. by repeat split. }
  destruct Hind as (s1 & V1 & x1 & blks1 & E1 & O1 & Ei1 & He1 & Hg1 & Hsub1 & Hl1 & Hz1). rewrite (bind_Ok _ _ _ _ _ E1).
  destruct (Z.eqb_spec (iaddr x1 NDIRECT) 0) as [Ez|Enz].
  - exists s1, V1, x1, blks1. assert (Eb : baddr V1 x1 bn = 0) by (unfold baddr; by rewrite (proj2 (Z.ltb_ge _ _)), Ez by lia).
    unfold mapped. rewrite Eb. split; [done|]. do 5 (split; [done|]). split; [pose proof (once_le1 0 blks1); lia|]. auto.
  - destruct (ind_entry_spec s1 D V1 L blks1 ip x1 bn He1 ltac:(lia) Enz ltac:(unfold afford in *; lia))
      as (s2 & V2 & blks2 & E2 & O2 & Ei2 & He2 & Hg2 & Hsub2 & Hl2 & Hz2).
    exists s2, V2, x1, blks2. split; [exact E2|]. split; [by eapply fs_only_trans|]. split; [by rewrite Ei2|]. split; [done|].
    split; [by eapply fgrown_trans|]. split; [by etrans|]. split; [lia|done].
Qed.

(** * writei *)

(** The file after [k] bytes of [g] were written at [off]. *)
Record written (V : blocks) (x : inode) (off k : Z) (g : Z -> Z) (V' : blocks) (x' : inode) : Prop := {
  wr_frame : frame V x V' x';
  wr_inode : x' = set_i_addrs (i_addrs x') x;
  wr_bytes : forall o, 0 <= o < MAXFILE * BSIZE ->
    fbyte0 V' x' o = if (off <=? o) && (o <? off + k) then g (o - off) else fbyte0 V x o;
  wr_blocks : forall bn, 0 < k -> off / BSIZE <= bn -> bn * BSIZE < off + k -> baddr V' x' bn <> 0
}.

Lemma grown_written V x off g V' x' : 0 <= off -> grown V x V' x' -> written V x off 0 g V' x'.
Proof.
  intros Hoff [A B C]. split; [done|done| |].
  - intros o Ho. rewrite B by done. bool_case; (lia || done).
  - intros bn H1. lia.
Qed.

(** One block of writei: the range [off .. off+m) lies in the block. *)
Lemma written_block V x off m g V1 x1 L d d' :
  let bn := off / BSIZE in
  grown V x V1 x1 -> file_wf V1 x1 L -> 0 <= off -> off + m <= MAXFILE * BSIZE -> 0 < m -> off mod BSIZE + m <= BSIZE ->
  baddr V1 x1 bn <> 0 -> beq d (V1 (baddr V1 x1 bn)) ->
  (forall a, load8 d' a = if (off mod BSIZE <=? a) && (a <? off mod BSIZE + m) then g (a - off mod BSIZE) else load8 d a) ->
  written V x off m g (vupd V1 (baddr V1 x1 bn) d') x1.
Proof.
  intros bn [A B C] Hwf Hoff Hend Hm Hfit Hne Hd Hd'.
  assert (Hbn : 0 <= bn < MAXFILE) by (unfold bn; rewrite MAXFILE_val in *; unfold BSIZE in *; div_lia). split.
  - eapply frame_trans; [exact A|]. eapply write_frame; done.
  - done.
  - intros o Ho. rewrite (write_fbyte st nlog sb V1 x1 L bn d' Hwf Hbn Hne o Ho). rewrite <- B by done.
    destruct (Z.eqb_spec (o / BSIZE) bn) as [E|E].
    + rewrite Hd'. unfold fbyte0, fbyte. rewrite E, (proj2 (Z.eqb_neq _ _) Hne), (Hd (o mod BSIZE)) by (unfold BSIZE; div_lia).
      assert (Eo : o mod BSIZE - off mod BSIZE = o - off) by (unfold bn, BSIZE in *; div_lia).
      assert (Ec : (off mod BSIZE <=? o mod BSIZE) && (o mod BSIZE <? off mod BSIZE + m) = (off <=? o) && (o <? off + m)).
      { destruct (Z.leb_spec (off mod BSIZE) (o mod BSIZE)), (Z.ltb_spec (o mod BSIZE) (off mod BSIZE + m)), (Z.leb_spec off o),
          (Z.ltb_spec o (off + m)); cbn; try done; lia. }
      by rewrite Ec, Eo.
    + assert (Ho' : ~ (off <= o < off + m)) by (unfold bn, BSIZE in *; div_lia). bool_case; (lia || done).
  - intros b _ H1 H2. assert (b = bn) as -> by (unfold bn, BSIZE in *; div_lia).
    rewrite baddr_slot, (write_saddr st nlog sb V1 x1 L), <- baddr_slot by (done || lia). done.
Qed.

Lemma written_trans V x off m g V1 x1 k V2 x2 :
  0 < m -> 0 <= k -> 0 <= off -> off + m + k <= MAXFILE * BSIZE ->
  written V x off m g V1 x1 -> written V1 x1 (off + m) k (fun i => g (m + i)) V2 x2 -> written V x off (m + k) g V2 x2.
Proof.
  intros Hm Hk Hoff Hend [A1 A2 A3 A4] [B1 B2 B3 B4]. split.
  - by eapply frame_trans.
  - rewrite B2, A2. done.
  - intros o Ho. rewrite B3, A3 by done. bool_case; try lia; try done. f_equal. lia.
  - intros bn _ H1 H2. assert (Hb : 0 <= bn < MAXFILE) by (rewrite MAXFILE_val in *; unfold BSIZE in *; div_lia).
    destruct (Z.ltb_spec (bn * BSIZE) (off + m)) as [H|H].
    + rewrite baddr_slot by lia. rewrite (fr_slots _ _ _ _ _ B1) by (try lia; rewrite <- baddr_slot by lia; by apply A4).
      rewrite <- baddr_slot by lia. by apply A4.
    + apply B4; [lia| |lia]. unfold BSIZE in *. div_lia.
Qed.

Lemma write_env s D V L blks ip x bn d t V' :
  fsenv s D V L blks ip x -> 0 <= bn < MAXFILE -> baddr V x bn <> 0 -> V' = vupd V (baddr V x bn) d ->
  fs_only s t -> k_itable t = k_itable s -> fstxn t D V' L (absorb blks (baddr V x bn)) ->
  fsenv t D V' L (absorb blks (baddr V x bn)) ip x.
Proof.
  intros [Ht Hsb Hbm Hfo H0 Hfd Hx Hdev Hwf] Hbn Hne -> O Ei Ht'.
  pose proof (fun b => write_free st nlog sb V x L bn d Hwf Hbn Hne b) as Hfree. split.
  - done.
  - by rewrite (fo_sb _ _ O).
  - done.
  - by eapply write_free_ok.
  - rewrite Hfree by lia. done.
  - intros b j Hb Hfb. rewrite Hfree in Hfb by done. by apply Hfd.
  - by rewrite Ei.
  - done.
  - by eapply write_wf.
Qed.

Section Loop.
Context (n : Z) (f : Z -> Z) (Q : Z -> place -> kstate -> Prop) `{!Source n f Q}.

(** The outcome of the loop of writei from [tot] on: [k] more bytes. *)
Definition loop_result (s : kstate) (D V : blocks) (L : list (nat * Z)) (blks : list Z) (ip : nat) (x : inode) (off tot k : Z)
    (s' : kstate) (V' : blocks) (x' : inode) (blks' : list Z) : Prop :=
  0 <= k <= n - tot /\ fs_only s s' /\ k_itable s' = alter (fun _ => x') ip (k_itable s) /\ fsenv s' D V' L blks' ip x' /\
  written V x off k (fun i => f (tot + i)) V' x' /\ blks ⊆ blks' /\
  (load blks' x' <= load blks x + Z.to_nat (nblocks off (n - tot)))%nat /\
  (tot + k < n -> forall b, 0 <= b < sb_size sb -> free_block V' sb b = false).

Lemma nblocks_nonneg off k : 0 <= off -> 0 <= nblocks off k.
Proof. intros Ho. unfold nblocks, BSIZE. destruct (Z.ltb_spec 0 k); [div_lia|lia]. Qed.

Lemma written_ext V x off k g g' V' x' :
  (forall i, 0 <= i < k -> g i = g' i) -> written V x off k g V' x' -> written V x off k g' V' x'.
Proof.
  intros Hg [A B C D]. split; [done|done| |done]. intros o Ho. rewrite C by done. bool_case; try done. apply Hg. lia.
Qed.

Lemma loop_step s D V L blks ip x off tot m k s1 V1 x1 blks1 s2 V2 blks2 s' V' x' blks' :
  0 <= off -> m = Z.min (n - tot) (BSIZE - off mod BSIZE) -> tot < n -> off + (n - tot) <= MAXFILE * BSIZE ->
  mapped s D V L blks ip x (off / BSIZE) s1 V1 x1 blks1 ->
  fs_only s1 s2 -> k_itable s2 = k_itable s1 -> blks2 = absorb blks1 (baddr V1 x1 (off / BSIZE)) ->
  written V x off m (fun i => f (tot + i)) V2 x1 ->
  loop_result s2 D V2 L blks2 ip x1 (off + m) (tot + m) k s' V' x' blks' ->
  loop_result s D V L blks ip x off tot (m + k) s' V' x' blks'.
Proof.
  intros Hoff Hm Hlt Hend (O1 & Ei1 & He1 & Hg1 & Hsub1 & Hl1 & Hz1) O2 Ei2 -> Hw (Hk & O3 & Ei3 & He3 & Hw3 & Hsub3 & Hl3 & Hz3).
  destruct (nblocks_step off (n - tot) m Hoff ltac:(lia) Hm) as [Hmn Hnb].
  replace (n - (tot + m)) with (n - tot - m) in * by lia. rewrite Hnb in Hl3.
  split; [lia|]. split; [eapply fs_only_trans; [exact O1|]; by eapply fs_only_trans|].
  split; [rewrite Ei3, Ei2, Ei1, alter_compose_list; done|]. split; [done|]. split; [|split; [|split]].
  - eapply written_trans; [lia|lia|lia|lia|exact Hw|]. eapply written_ext; [|exact Hw3]. intros i Hi. cbn. f_equal. lia.
  - intros b Hb. apply Hsub3, in_absorb_l, Hsub1, Hb.
  - pose proof (load_absorb blks1 x1 (baddr V1 x1 (off / BSIZE))). pose proof (nblocks_nonneg (off + m) (n - tot - m) ltac:(lia)). lia.
  - intros Ht. apply Hz3. lia.
Qed.

Lemma writei_loop_spec fuel : forall s D V L blks ip x off tot pl,
  fsenv s D V L blks ip x -> 0 <= off -> 0 <= tot <= n -> off + (n - tot) <= MAXFILE * BSIZE ->
  nblocks off (n - tot) < Z.of_nat fuel -> afford L blks x (Z.to_nat (nblocks off (n - tot)) + 1) -> Q tot pl s ->
  exists k s' V' x' blks', writei_loop fuel ip pl off n tot s = Ok (tot + k, off + k) s' /\
    loop_result s D V L blks ip x off tot k s' V' x' blks'.
Proof.
  induction fuel as [|fuel IH]; intros s D V L blks ip x off tot pl He Hoff Htot Hend Hf Ha HQ;
    [pose proof (nblocks_nonneg off (n - tot) Hoff); lia|].
  cbn [writei_loop]. destruct (Z.ltb_spec tot n) as [Hlt|Hge].
  2: { exists 0, s, V, x, blks. rewrite !Z.add_0_r. split; [done|]. split; [lia|]. split; [apply fs_only_refl|].
    split; [symmetry; apply alter_same, He|]. split; [done|]. split; [by apply grown_written, fgrown_refl|]. split; [done|]. split; [lia|lia]. }
  set (m := Z.min (n - tot) (BSIZE - off mod BSIZE)).
  destruct (nblocks_step off (n - tot) m Hoff ltac:(lia) eq_refl) as [Hm Hnb].
  pose proof (nblocks_nonneg (off + m) (n - tot - m) ltac:(lia)) as Hnn.
  assert (Hbn : 0 <= off / BSIZE < MAXFILE) by (rewrite MAXFILE_val in *; unfold BSIZE in *; div_lia).
  destruct (bmap_spec s D V L blks ip x (off / BSIZE) He Hbn ltac:(unfold afford in *; lia)) as (s1 & V1 & x1 & blks1 & E1 & Hmp).
  pose proof Hmp as (O1 & Ei1 & He1 & Hg1 & Hsub1 & Hl1 & Hz1). rewrite (bind_Ok _ _ _ _ _ E1).
  destruct (Z.eqb_spec (baddr V1 x1 (off / BSIZE)) 0) as [Ez|Enz].
  { exists 0, s1, V1, x1, blks1. rewrite !Z.add_0_r. split; [done|]. split; [lia|]. split; [done|]. split; [done|]. split; [done|].
    split; [by apply grown_written|]. split; [done|]. split; [lia|]. intros _. by apply Hz1. }
  rewrite bind_gets, (fsenv_get _ _ _ _ _ _ _ He1), (fe_dev _ _ _ _ _ _ _ He1).
  set (a := baddr V1 x1 (off / BSIZE)) in *. pose proof (write_data st nlog sb V1 x1 L (off / BSIZE) (fe_wf _ _ _ _ _ _ _ He1) Hbn Enz) as Hdb.
  fold a in Hdb. pose proof (load_length blks1 x1) as Hll.
  destruct (fs_bread dev pid rep st nlog s1 D V1 L blks1 a (fe_txn _ _ _ _ _ _ _ He1) (db_unlocked _ _ _ _ _ _ Hdb) ltac:(unfold afford in *; lia))
    as (b & s2 & E2 & O2 & _ & Ht2). rewrite (bind_Ok _ _ _ _ _ E2). fold m. unfold buf_data. rewrite bind_gets.
  assert (Hd2 : beq (b_data (get_buf b s2)) (V1 a)) by (by eapply fs_data, list_elem_of_here).
  assert (HQ2 : Q tot pl s2) by (do 2 (eapply source_fs; [|eassumption || by apply log_fs_only]); exact HQ).
  destruct (source_copy tot pl s2 (b_data (get_buf b s2)) (off mod BSIZE) m HQ2) as (d' & E3 & HQ3 & Hd'); [lia|unfold BSIZE in *; div_lia|lia|].
  rewrite (bind_Ok _ _ _ _ _ E3). cbn [Z.eqb Z.opp].
  assert (Hin : (b, a) ∈ (b, a) :: L) by apply list_elem_of_here.
  destruct (fs_modify dev pid rep st nlog Hgeom s2 D V1 _ blks1 b a (fun _ => d') Ht2 Hin (db_home _ _ _ _ _ _ Hdb) ltac:(unfold afford in *; lia))
    as (s3 & E4 & O3 & _ & Ht3).
  destruct (fs_brelse dev pid rep st nlog s3 D _ [] L _ b a Ht3) as (s4 & E5 & O4 & _ & Ht4).
  assert (Olog : log_only s1 s4) by (eapply log_only_trans; [exact O2|]; by eapply log_only_trans).
  rewrite <- bind_assoc, (bind_Ok _ _ _ _ _ E4), (bind_Ok _ _ _ _ _ E5).
  assert (Eo : u32 (off + m) = off + m) by (apply u32_small; rewrite MAXFILE_val in *; unfold BSIZE in *; lia). rewrite Eo.
  set (V2 := vupd V1 a d') in *.
  assert (He2 : fsenv s4 D V2 L (absorb blks1 a) ip x1)
    by (eapply write_env; [exact He1|exact Hbn|exact Enz|reflexivity|by apply log_fs_only|by apply log_only_itable|exact Ht4]).
  assert (Hw : written V x off m (fun i => f (tot + i)) V2 x1).
  { eapply written_block; [done|apply He1|done|lia|lia|unfold m, BSIZE; lia|done|exact Hd2|exact Hd']. }
  destruct (IH s4 D V2 L (absorb blks1 a) ip x1 (off + m) (tot + m) (shift pl m)) as (k & s5 & V3 & x3 & blks3 & E6 & Hres).
  - done.
  - lia.
  - lia.
  - lia.
  - replace (n - (tot + m)) with (n - tot - m) by lia. lia.
  - replace (n - (tot + m)) with (n - tot - m) by lia. rewrite Hnb. pose proof (load_absorb blks1 x1 a). unfold afford in *. lia.
  - eapply source_fs; [exact HQ3|]. apply log_fs_only. by eapply log_only_trans.
  - exists (m + k), s5, V3, x3, blks3. rewrite E6. split; [do 2 f_equal; lia|].
    eapply (loop_step s D V L blks ip x off tot m k s1 V1 x1 blks1 s4 V2 (absorb blks1 a));
      first [done | by apply log_fs_only | by apply log_only_itable].
Qed.
End Loop.

(** * The inode *)

(** A block that is neither the bitmap nor of the file changes. *)
Lemma other_write V x L c d :
  file_wf V x L -> c <> BB -> (forall i, 0 <= i <= MAXFILE -> saddr V x i = c -> c = 0) ->
  (forall i, 0 <= i <= MAXFILE -> saddr (vupd V c d) x i = saddr V x i) /\
  (forall b, 0 <= b < sb_size sb -> free_block (vupd V c d) sb b = free_block V sb b) /\
  file_wf (vupd V c d) x L /\ (forall o, 0 <= o < MAXFILE * BSIZE -> fbyte0 (vupd V c d) x o = fbyte0 V x o).
Proof.
  intros [A1 A2 A3 A4 A5] HB Hs. assert (HM : forall bn, 0 <= bn -> bn * BSIZE < i_size x -> bn < MAXFILE)
    by (intros bn; rewrite MAXFILE_val in *; unfold BSIZE in *; lia).
  assert (Es : forall i, 0 <= i <= MAXFILE -> saddr (vupd V c d) x i = saddr V x i).
  { intros i Hi. unfold saddr, baddr. destruct (i =? MAXFILE); [done|]. destruct (i <? NDIRECT); [done|].
    destruct (Z.eqb_spec (iaddr x NDIRECT) 0) as [|Hne]; [done|]. rewrite vupd_ne; [done|]. intros E.
    apply Hne. rewrite E. apply (Hs MAXFILE); [rewrite MAXFILE_val; lia|]. by rewrite <- ind_slot. }
  assert (Ef : forall b, 0 <= b < sb_size sb -> free_block (vupd V c d) sb b = free_block V sb b)
    by (intros b Hb; unfold free_block; rewrite vupd_ne; [done|]; by rewrite BBLOCK_one).
  split; [done|]. split; [done|]. split; [split|].
  - done.
  - done.
  - intros bn H1 H2. rewrite baddr_slot, Es, <- baddr_slot by (specialize (HM bn H1 H2); lia). by apply A3.
  - intros i Hi. rewrite Es by done. intros Hne. destruct (A4 i Hi Hne) as [B1 B2 B3 B4 B5 B6]. split; [done|by rewrite Ef by lia|done..].
  - intros i j Hi Hj. rewrite !Es by done. by apply A5.
  - intros o Ho. assert (Hb : 0 <= o / BSIZE < MAXFILE) by (rewrite MAXFILE_val in *; unfold BSIZE in *; div_lia).
    unfold fbyte0, fbyte. rewrite !(baddr_slot (vupd V c d)), Es, <- !baddr_slot by lia.
    destruct (Z.eqb_spec (baddr V x (o / BSIZE)) 0) as [|Hne]; [done|]. rewrite vupd_ne; [done|]. intros E. apply Hne. rewrite E.
    apply (Hs (o / BSIZE)); [lia|]. by rewrite <- baddr_slot by lia.
Qed.

Lemma wf_fields V x L x0 :
  fields_ok x0 -> file_wf V x L -> x = set_i_size (i_size x) (set_i_addrs (i_addrs x) x0) -> fields_ok x.
Proof.
  intros [H1 H2 H3 H4 H5 H6 H7] [A1 A2 _ A4 _] E. rewrite MAXFILE_val in A2. unfold BSIZE in A2.
  assert (Ef : i_type x = i_type x0 /\ i_major x = i_major x0 /\ i_minor x = i_minor x0 /\ i_nlink x = i_nlink x0) by (by rewrite E).
  destruct Ef as (E1 & E2 & E3 & E4). split; [by rewrite E1|by rewrite E2|by rewrite E3|by rewrite E4|lia|done|].
  apply Forall_lookup. intros i a Hi. pose proof (lookup_lt_Some _ _ _ Hi) as Hlt. rewrite A1 in Hlt. change (Z.to_nat (NDIRECT + 1)) with 13%nat in Hlt.
  assert (Ea : iaddr x (Z.of_nat i) = a) by (unfold iaddr; by rewrite Nat2Z.id, Hi).
  rewrite <- (saddr_slot V) in Ea by (unfold NDIRECT; lia). destruct (Z.eqb_spec a 0) as [->|Hne]; [lia|]. rewrite <- Ea in *.
  destruct (A4 (slot_of (Z.of_nat i))) as [B1 _ _ _ _ _]; [|done|unfold BPB, BSIZE in Hone; lia].
  unfold slot_of. rewrite MAXFILE_val. destruct (_ =? _); unfold NDIRECT; lia.
Qed.

Hypothesis Hlayout : forall j, 0 <= j < sb_ninodes sb -> 0 < IBLOCK j sb /\ IBLOCK j sb <> BB.

Lemma iupdate_env s D V L blks ip x :
  fsenv s D V L blks ip x -> inodes_ok st nlog sb L -> spare nlog L blks 1 -> 0 <= i_inum x < sb_ninodes sb -> fields_ok x ->
  let ib := IBLOCK (i_inum x) sb in
  exists s' V', iupdate ip s = Ok tt s' /\ fs_only s s' /\ k_itable s' = k_itable s /\ fsenv s' D V' L (absorb blks ib) ip x /\
    (forall b, b <> ib -> V' b = V b) /\
    (forall j y, 0 <= j < sb_ninodes sb -> dinode_at V' sb j y = if j =? i_inum x then with_fields x y else dinode_at V sb j y) /\
    (forall b, 0 <= b < sb_size sb -> free_block V' sb b = free_block V sb b) /\
    (forall i, 0 <= i <= MAXFILE -> saddr V' x i = saddr V x i) /\
    (forall o, 0 <= o < MAXFILE * BSIZE -> fbyte0 V' x o = fbyte0 V x o).
Proof.
  intros He Hino Hsp Hin Hfi ib. pose proof He as [Ht Hsb Hbm Hfo H0 Hfd Hx Hdev Hwf].
  pose proof (iupdate_spec dev pid rep st nlog Hgeom s D V L blks ip) as Hi.
  rewrite (fsenv_get _ _ _ _ _ _ _ He), Hsb in Hi. destruct (Hi Ht Hino Hsp Hdev Hin) as (s' & V' & E & O & _ & HV & Ht').
  destruct (iupdated_at st nlog V sb _ x V' L Hino Hin Hfi HV) as [Hout Hat].
  assert (Hs : forall i, 0 <= i <= MAXFILE -> saddr V x i = ib -> ib = 0).
  { intros i Hi' E'. destruct (Z.eqb_spec ib 0) as [|Hne]; [done|]. exfalso.
    destruct (fw_slot _ _ _ _ _ _ Hwf i Hi' ltac:(congruence)) as [_ _ _ _ _ B6]. by apply (B6 (i_inum x) Hin). }
  destruct HV as (d & Hd & ->). fold ib in Ht', Hout, Hat |- *.
  destruct (other_write V x L ib (dinode_store d (dinode_off (i_inum x)) x) Hwf (proj2 (Hlayout _ Hin)) Hs) as (Es & Ef & Hwf' & Efb).
  exists s'. eexists. split; [done|]. split; [by apply log_fs_only|]. split; [by apply log_only_itable|].
  split; [|split; [exact Hout|split; [exact Hat|done]]]. split.
  - exact Ht'.
  - by rewrite (log_only_sb _ _ O).
  - done.
  - intros b Hb. rewrite Ef by done. by apply Hfo.
  - rewrite Ef by lia. done.
  - intros b j Hb. rewrite Ef by done. by apply Hfd.
  - by rewrite (log_only_itable _ _ O).
  - done.
  - done.
Qed.

(** if(off > ip->size) ip->size = off; *)
Lemma resize_env s D V L blks ip x off :
  fsenv s D V L blks ip x -> 0 <= off <= MAXFILE * BSIZE ->
  (forall bn, 0 <= bn -> i_size x <= bn * BSIZE < off -> baddr V x bn <> 0) ->
  let x' := set_i_size (Z.max (i_size x) off) x in
  exists s', (when (i_size x <? off) (modify (upd_inode ip (set_i_size off))) : K unit) s = Ok tt s' /\ fs_only s s' /\
    k_itable s' = alter (fun _ => x') ip (k_itable s) /\ fsenv s' D V L blks ip x'.
Proof.
  intros He Hoff Hb x'. pose proof He as [Ht Hsb Hbm Hfo H0 Hfd Hx Hdev Hwf]. destruct (Z.ltb_spec (i_size x) off) as [Hlt|Hge]; cbn [when].
  - exists (upd_inode ip (set_i_size off) s). assert (Ex : x' = set_i_size off x) by (unfold x'; f_equal; lia).
    split; [done|]. split; [by split|]. split.
    { cbn. apply list_alter_ext; [|done]. intros y Hy. rewrite Hx in Hy. injection Hy as <-. by rewrite Ex. }
    split; try done.
    + by apply (fstxn_itable dev pid rep st nlog).
    + cbn. by rewrite list_lookup_alter_eq, Hx, Ex.
    + destruct Hwf as [A1 A2 A3 A4 A5]. rewrite Ex. split; [done|cbn; lia| |done|done].
      intros bn H1 H2. cbn in H2. destruct (Z.ltb_spec (bn * BSIZE) (i_size x)); [by apply A3|by apply Hb].
  - exists s. assert (Ex : x' = x) by (unfold x'; rewrite Z.max_l by lia; by destruct x). rewrite Ex.
    split; [done|]. split; [apply fs_only_refl|]. split; [symmetry; by apply alter_same|done].
Qed.

(** The outcome of writei when [tot] of the bytes [f 0, f 1, ...] were written
    at [off]. *)
Record writei_result (s : kstate) (D V : blocks) (L : list (nat * Z)) (blks : list Z) (ip : nat) (x : inode) (off n tot : Z)
    (f : Z -> Z) (s' : kstate) (V' : blocks) (x' : inode) (blks' : list Z) : Prop := {
  wi_tot : 0 <= tot <= n;
  wi_full : tot < n -> forall b, 0 <= b < sb_size sb -> free_block V' sb b = false;
  wi_fs : fs_only s s';
  wi_itable : k_itable s' = alter (fun _ => x') ip (k_itable s);
  wi_env : fsenv s' D V' L blks' ip x';
  wi_inode : x' = set_i_size (Z.max (i_size x) (off + tot)) (set_i_addrs (i_addrs x') x);
  wi_bytes : forall o, 0 <= o < MAXFILE * BSIZE ->
    fbyte0 V' x' o = if (off <=? o) && (o <? off + tot) then f (o - off) else fbyte0 V x o;
  wi_disk : forall j y, 0 <= j < sb_ninodes sb ->
    dinode_at V' sb j y = if j =? i_inum x then with_fields x' y else dinode_at V sb j y;
  wi_free : forall b, 0 <= b < sb_size sb -> free_block V' sb b = true -> free_block V sb b = true;
  wi_rest : forall b, b <> BB -> (forall j, 0 <= j < sb_ninodes sb -> IBLOCK j sb <> b) ->
    (forall i, 0 <= i <= MAXFILE -> saddr V x i <> b) -> (0 <= b < sb_size sb -> free_block V sb b = false) -> V' b = V b;
  wi_log : (length blks' <= load blks x + Z.to_nat (nblocks off n) + 1)%nat
}.

Lemma writei_spec s D V L blks ip x off n f Q pl :
  Source n f Q -> fsenv s D V L blks ip x -> inodes_ok st nlog sb L -> 0 <= i_inum x < sb_ninodes sb -> fields_ok x ->
  0 <= off < 2 ^ 32 -> 0 <= n < 2 ^ 32 -> Q 0 pl s -> afford L blks x (Z.to_nat (nblocks off n) + 1) ->
  if (i_size x <? off) || (MAXFILE * BSIZE <? off + n) then writei ip pl off n s = Ok (-1) s
  else exists tot s' V' x' blks', writei ip pl off n s = Ok tot s' /\ writei_result s D V L blks ip x off n tot f s' V' x' blks'.
Proof.
  intros HS He Hino Hin Hfi Hoff Hn HQ Ha. unfold writei. rewrite bind_gets, (fsenv_get _ _ _ _ _ _ _ He).
  assert (Hu : u32 (off + n) <? off = (2 ^ 32 <=? off + n)) by (by apply u32_add_overflow). rewrite Hu.
  destruct (Z.ltb_spec (i_size x) off) as [|Hsz]; [done|]. cbn [orb].
  destruct (Z.ltb_spec (MAXFILE * BSIZE) (off + n)) as [|Hmax]; [by destruct (2 ^ 32 <=? off + n)|].
  rewrite (proj2 (Z.leb_gt _ _)) by (rewrite MAXFILE_val in *; unfold BSIZE in *; lia).
  destruct (writei_loop_spec n f Q (3 + Z.to_nat (n / BSIZE)) s D V L blks ip x off 0 pl He ltac:(lia) ltac:(lia))
    as (k & s1 & V1 & x1 & blks1 & E1 & Hk & O1 & Ei1 & He1 & [Hf1 Hx1 Hb1 Hbl1] & Hsub1 & Hl1 & Hz1); rewrite ?Z.sub_0_r; try done.
  { apply nblocks_fuel; lia. }
  rewrite (bind_Ok _ _ _ _ _ E1). rewrite Z.sub_0_r, !Z.add_0_l in *.
  assert (Esz : i_size x1 = i_size x) by (by rewrite Hx1).
  destruct (resize_env s1 D V1 L blks1 ip x1 (off + k) He1 ltac:(lia)) as (s2 & E2 & O2 & Ei2 & He2).
  { intros bn H1 H2. rewrite Esz in H2. apply Hbl1; [lia| |lia]. unfold BSIZE in *. div_lia. }
  rewrite Esz in *. rewrite (bind_Ok _ _ _ _ _ E2). set (x2 := set_i_size _ x1) in *.
  assert (Hx2 : x2 = set_i_size (i_size x2) (set_i_addrs (i_addrs x2) x)) by (unfold x2; rewrite Hx1; done).
  assert (Hi2 : i_inum x2 = i_inum x) by (by rewrite Hx2).
  pose proof (load_length blks1 x1) as Hll.
  destruct (iupdate_env s2 D V1 L blks1 ip x2 He2 Hino ltac:(unfold spare, afford in *; lia) ltac:(by rewrite Hi2)
    (wf_fields _ _ _ _ Hfi (fe_wf _ _ _ _ _ _ _ He2) Hx2)) as (s3 & V3 & E3 & O3 & Ei3 & He3 & Hout & Hat & Hfr & Hsl & Hfb).
  rewrite (bind_Ok _ _ _ _ _ E3). rewrite Hi2 in *. exists k, s3, V3, x2, (absorb blks1 (IBLOCK (i_inum x) sb)). split; [done|].
  assert (Hrest1 : forall b, b <> BB -> (forall i, 0 <= i <= MAXFILE -> saddr V x i <> b) ->
    (0 <= b < sb_size sb -> free_block V sb b = false) -> V1 b = V b).
  { intros b HbB Hs Hfb'. apply (fr_rest _ _ _ _ _ Hf1); [done| |intros i Hi E; by apply Hs in E].
    intros b' Hb'. rewrite BBLOCK_one by done. done. }
  split.
  - lia.
  - intros Ht b Hb. rewrite Hfr by done. by apply Hz1.
  - eapply fs_only_trans; [exact O1|]. by eapply fs_only_trans.
  - rewrite Ei3, Ei2, Ei1, alter_compose_list. done.
  - exact He3.
  - unfold x2 at 1. rewrite Hx1 at 1. done.
  - intros o Ho. rewrite Hfb by done. by apply (Hb1 o Ho).
  - intros j y Hj. rewrite Hat by done. destruct (j =? i_inum x); [done|]. unfold dinode_at. f_equal. apply Hrest1.
    + by apply Hlayout.
    + intros i Hi E. destruct (Hlayout j Hj) as [Hpos _].
      destruct (fw_slot _ _ _ _ _ _ (fe_wf _ _ _ _ _ _ _ He) i Hi ltac:(lia)) as [_ _ _ _ _ B6]. by apply (B6 j Hj).
    + intros Hb. destruct (free_block V sb (IBLOCK j sb)) eqn:Ef; [|done]. exfalso. by apply (fe_data _ _ _ _ _ _ _ He _ j Hb Ef).
  - intros b Hb. rewrite Hfr by done. by apply (fr_free _ _ _ _ _ Hf1).
  - intros b HbB Hbi Hs Hfb'. rewrite Hout by (apply not_eq_sym; by apply Hbi). by apply Hrest1.
  - pose proof (length_absorb blks1 (IBLOCK (i_inum x) sb)). lia.
Qed.
End FsWrite.

(** * Sources *)

(** The bytes of the local object [b] from [o] on. *)
Definition local_source (b : bytes) (o : Z) (k : Z) (pl : place) (s : kstate) : Prop := pl = Local b (o + k).

#[export] Instance local_is_source N b o : Source N (fun i => load8 b (o + i)) (local_source b o).
Proof.
  split; [done|]. intros k pl s d p m -> Hk Hm HN. cbn [either_copyin]. rewrite u32_small by (unfold BSIZE in *; lia).
  eexists. split; [done|]. split; [unfold local_source; cbn [shift]; f_equal; lia|].
  intros a. rewrite load8_copy_into, Z2Nat.id by lia. bool_case; try lia; try done. f_equal. lia.
Qed.

Section Writei.
Context `{Linker}.

(** The memory of process [c] from [va] on, which is readable for [N] bytes;
    [s0] is the state at the start. *)
Record user_source (s0 : kstate) (c : nat) (root : Z) (P F fl : list Z) (va N : Z) (k : Z) (pl : place) (s : kstate) : Prop := {
  uo_place : pl = User (u64 (va + k));
  uo_cur : k_cur s = Some c;
  uo_root : p_pagetable (get_proc c s) = root;
  uo_space : uspace s root P F fl;
  uo_mem : k_mem s = k_mem s0;
  uo_readable : forall i, 0 <= i < N -> readable s0 root (va + i) = true
}.
Definition ubyte (s : kstate) (root va : Z) : Z := default 0 (umem s root va).

Lemma user_is_source s0 c root P F fl va N :
  0 <= va < 2 ^ 64 -> Source N (fun i => ubyte s0 root (va + i)) (user_source s0 c root P F fl va N).
Proof.
  intros Hva. split.
  - intros k pl s s' [H1 H2 H3 H4 H5 H6] [O1 O2 O3 O4 O5 O6]. split; [done|congruence|by rewrite O6| |congruence|done].
    apply (uspace_ext s); [done|done| |done]. rewrite O4. apply (us_uvm _ _ _ _ _ H4).
  - intros k pl s d o m [-> Hc Hroot Hu Hm HR] Hk Hmb HN.
    assert (Hpt : forall v, readable s root v = readable s0 root v) by (intros v; unfold readable, pte; by rewrite Hm).
    assert (Hum : forall v, umem s root v = umem s0 root v) by (intros v; unfold umem, pte; by rewrite Hm).
    pose proof (readable_lt _ _ _ (HR (k + m - 1) ltac:(lia))) as Hlt. change MAXVA with (2 ^ 38) in Hlt.
    cbn [either_copyin]. rewrite (bind_Ok _ _ _ _ _ (curpagetable_Ok _ _ Hc)), Hroot, u64_small by lia.
    destruct (copyin_correct s root P F fl d o (va + k) m Hu ltac:(lia) ltac:(lia)) as (r & d' & j & E & Hf & Hj & Hr).
    assert (r = 0 /\ j = m) as [-> ->].
    { destruct Hr as [(-> & -> & _)|(_ & Hjm & HF)]; [done|]. rewrite Hpt, <- Z.add_assoc, HR in HF by lia. done. }
    exists d'. split; [done|]. split.
    + split; try done. cbn [shift]. f_equal. rewrite u64_small by lia. rewrite u64_small by lia. lia.
    + intros a. specialize (Hf a). destruct ((o <=? a) && (a <? o + m)); [|done]. unfold ubyte.
      rewrite Hum in Hf. replace (va + (k + (a - o))) with (va + k + (a - o)) by lia. by rewrite <- Hf.
Qed.

Context (dev pid : Z) (rep : bstate_rel) `{!BlockLayer dev pid rep} (st nlog : Z) (sb : superblock).
Hypothesis (Hgeom : log_geom dev st nlog) (Hone : 0 < sb_size sb <= BPB).
Hypothesis Hlayout : forall j, 0 <= j < sb_ninodes sb -> 0 < IBLOCK j sb /\ IBLOCK j sb <> BB sb.
Abbreviation fsenv := (fsenv dev rep st nlog sb).
Abbreviation afford := (afford nlog sb).


(** C32: the chunks in which filewrite writes fit its transactions.  A call of
    writei with at most [write_max] bytes, at any offset, adds at most
    MAXOPBLOCKS blocks to the log: the data blocks, the bitmap, the indirect
    block and the inode. *)
Theorem writei_fits s D V L blks ip x off n f Q pl :
  Source n f Q -> fsenv s D V L blks ip x -> inodes_ok st nlog sb L -> 0 <= i_inum x < sb_ninodes sb -> fields_ok x ->
  0 <= off < 2 ^ 32 -> 0 <= n <= write_max -> Q 0 pl s ->
  Z.of_nat (length blks) + MAXOPBLOCKS <= nlog - 1 -> Z.of_nat (length L + length blks) + MAXOPBLOCKS < Z.of_nat bhead ->
  exists r s' V' x' blks', writei ip pl off n s = Ok r s' /\ fsenv s' D V' L blks' ip x' /\
    Z.of_nat (length blks') <= Z.of_nat (length blks) + MAXOPBLOCKS.
Proof.
  intros HS He Hino Hin Hfi Hoff Hn HQ Hlog Hbuf. change write_max with 3072 in Hn. change MAXOPBLOCKS with 10 in *.
  assert (Hnb : 0 <= nblocks off n <= 4) by (unfold nblocks, BSIZE; destruct (Z.ltb_spec 0 n); div_lia).
  assert (Hl : (load sb blks x <= length blks + 2)%nat).
  { unfold load, indcost. pose proof (once_le1 (BB sb) blks). pose proof (once_le1 (iaddr x NDIRECT) blks). case_decide; lia. }
  assert (Ha : afford L blks x (Z.to_nat (nblocks off n) + 1)) by (unfold FsWrite.afford; lia).
  pose proof (writei_spec dev pid rep st nlog Hgeom sb Hone Hlayout s D V L blks ip x off n f Q pl HS He Hino Hin Hfi Hoff ltac:(lia) HQ Ha) as Hw.
  destruct (_ || _); [by exists (-1), s, V, x, blks; split; [|split; [|lia]]|].
  destruct Hw as (tot & s' & V' & x' & blks' & E & R). exists tot, s', V', x', blks'. split; [done|].
  split; [apply R|]. pose proof (wi_log _ _ _ _ _ _ _ _ _ _ _ _ _ _ _ _ _ _ _ _ R). lia.
Qed.

Lemma fbyte_below V x L o : file_wf st nlog sb V x L -> 0 <= o < i_size x -> fbyte0 V x o = fbyte V x o.
Proof.
  intros Hwf Ho. unfold fbyte0. rewrite (proj2 (Z.eqb_neq _ _)); [done|]. apply (fw_below _ _ _ _ _ _ Hwf); unfold BSIZE; div_lia.
Qed.

End Writei.

(** * Writing an empty file on the small file system *)

Definition demo_empty : inode := mk_inode ROOTDEV 5 1 sleeplock0 true T_FILE 0 0 1 0 (replicate 13 0).
Definition demo_writei (m : bytes) (fl root : Z) : kstate :=
  set_k_mem m (set_k_freelist fl (set_k_itable [demo_empty]
    (set_k_procs (set_p_pagetable root demo_proc :: replicate 63 proc0) (demo_fs ∅)))).

Lemma demo_writei_fstxn m fl root :
  FsTxn.fstxn ROOTDEV (brep ROOTDEV 1) 2 LOGSIZE (demo_writei m fl root) (demo_fs_view ∅) (demo_fs_view ∅) [] [].
Proof.
  assert (Hrun : running (demo_writei m fl root) 1) by (split; [reflexivity|reflexivity|]; exists 0%nat; split; reflexivity).
  revert Hrun. pose proof (demo_fstxn ∅) as Ht. revert Ht. unfold demo_writei.
  generalize (demo_fs_view ∅) (demo_fs ∅). intros V t Ht Hrun. destruct t.
  eapply (fstxn_frame ROOTDEV 1 (brep ROOTDEV 1)); [exact Ht|reflexivity..|exact Hrun].
Qed.

Lemma demo_iblock j : 0 <= j < sb_ninodes demo_fs_sb -> 32 <= IBLOCK j demo_fs_sb <= 44.
Proof.
  intros Hj. cbn in Hj. unfold IBLOCK. change (sb_inodestart demo_fs_sb) with 32. change IPB with 16. rewrite u32_small by div_lia. div_lia.
Qed.

Lemma demo_saddr V i : saddr V demo_empty i = 0.
Proof.
  assert (Hi : forall k, iaddr demo_empty k = 0).
  { intros k. unfold iaddr. cbn [i_addrs demo_empty]. destruct (replicate 13 0 !! Z.to_nat k) as [a|] eqn:E; [|done].
    apply lookup_replicate in E as [-> _]. done. }
  unfold saddr, baddr. rewrite !Hi. by destruct (i =? MAXFILE), (i <? NDIRECT).
Qed.

Lemma demo_fsenv m fl root :
  fsenv ROOTDEV (brep ROOTDEV 1) 2 LOGSIZE demo_fs_sb (demo_writei m fl root) (demo_fs_view ∅) (demo_fs_view ∅) [] [] 0 demo_empty.
Proof.
  split.
  - apply demo_writei_fstxn.
  - reflexivity.
  - apply demo_bitmap_ok.
  - apply demo_free_ok.
  - rewrite demo_free by lia. reflexivity.
  - intros b j Hb Hf Hj. rewrite demo_free in Hf by exact Hb. apply Z.leb_le in Hf. pose proof (demo_iblock j Hj). lia.
  - reflexivity.
  - reflexivity.
  - split; [reflexivity|vm_compute; split; congruence|intros bn H1 H2; cbn in H2; unfold BSIZE in H2; lia| |].
    + intros i _ Hne. by rewrite demo_saddr in Hne.
    + intros i j _ _ Hne. by rewrite demo_saddr in Hne.
Qed.

Lemma demo_layout j : 0 <= j < sb_ninodes demo_fs_sb -> 0 < IBLOCK j demo_fs_sb /\ IBLOCK j demo_fs_sb <> BB demo_fs_sb.
Proof. intros Hj. pose proof (demo_iblock j Hj). change (BB demo_fs_sb) with 45. lia. Qed.

Lemma demo_empty_fields : fields_ok demo_empty.
Proof. split; [vm_compute; split; congruence..|reflexivity|]. apply Forall_replicate. lia. Qed.

Lemma demo_one : 0 < sb_size demo_fs_sb <= BPB.
Proof. vm_compute. split; congruence. Qed.


Lemma writei_fits_witness :
  exists r s', writei 0 (Local ∅ 0) 0 3072 (demo_writei ∅ 0 0) = Ok r s'.
Proof.
  destruct (writei_fits ROOTDEV 1 (brep ROOTDEV 1) 2 LOGSIZE demo_fs_sb demo_geom demo_one demo_layout (demo_writei ∅ 0 0) _ _ [] [] 0 demo_empty
    0 3072 _ _ (Local ∅ 0) (local_is_source 3072 ∅ 0) (demo_fsenv ∅ 0 0) demo_inodes_ok ltac:(cbn; lia) demo_empty_fields ltac:(lia)
    ltac:(vm_compute; split; congruence) eq_refl ltac:(vm_compute; congruence) ltac:(vm_compute; reflexivity))
    as (r & s' & _ & _ & _ & E & _). exists r, s'. exact E.
Defined.

