(* ===== verification/FsDir.v ===== *)
(** Directories (kernel/fs.c: dirlookup, dirlink): a directory is the list of
    its entries, an inode number and a name, where the number 0 marks a free
    entry. *)
From S2P Require Import Prelude State Locks Kstring Kalloc Vm Sched Sleeplock Bio BioList BioSpec BlockLayer Log LogSpec Txn Boot Uart Kprintf Either Fs FsTxn FsAlloc FsRead FsInode FsFile FsPath Pipe Console File FsWrite.

(** The bytes of entry [k], its inode number and its name. *)
Definition dent (V : blocks) (x : inode) (k : Z) : bytes :=
  store_list ((fun i => fbyte V x (16 * k + i)) <$> seqZ 0 16) ∅ 0.
Definition dent_inum (V : blocks) (x : inode) (k : Z) : Z := load16 (dent V x k) 0.
Definition dent_name (V : blocks) (x : inode) (k : Z) : list Z := cstr (Z.to_nat DIRSIZ) (dent V x k) 2.
(** Entry [k] is in use for [name]. *)
Definition is_entry (V : blocks) (x : inode) (name : list Z) (k : Z) : Prop :=
  dent_inum V x k <> 0 /\ dent_name V x k = name.

Lemma load8_dent V x k a : load8 (dent V x k) a = if (0 <=? a) && (a <? 16) then fbyte V x (16 * k + a) else 0.
Proof.
  unfold dent. rewrite load8_store_list, length_fmap, length_seqZ, Z.add_0_l, Z.sub_0_r. change (Z.of_nat (Z.to_nat 16)) with 16.
  destruct (Z.leb_spec 0 a), (Z.ltb_spec a 16); cbn [andb]; try done.
  rewrite list_lookup_fmap, lookup_seqZ_lt by lia. cbn. do 2 f_equal. lia.
Qed.

Lemma dent_ext V x V' x' k :
  (forall i, 0 <= i < 16 -> fbyte V' x' (16 * k + i) = fbyte V x (16 * k + i)) ->
  dent_inum V' x' k = dent_inum V x k /\ dent_name V' x' k = dent_name V x k.
Proof.
  intros H. assert (E : forall a, load8 (dent V' x' k) a = load8 (dent V x k) a).
  { intros a. rewrite !load8_dent. bool_case; try done. apply H. lia. }
  split; [apply le_load_ext; intros; apply E|apply cstr_ext; intros; apply E].
Qed.

Lemma strncmp_arr_eq n : forall m p m' q, strncmp_arr n m p m' q = 0 <-> cstr n m p = cstr n m' q.
Proof.
  induction n as [|n IH]; intros m p m' q; cbn [strncmp_arr cstr]; [done|].
  bool_case; split; intros; try lia; try congruence; try done.
  - f_equal; [congruence|]. by apply IH.
  - apply IH. congruence.
Qed.

Lemma load8_strncpy_arr n src : forall dst s t a,
  load8 (strncpy_arr n dst s src t) a =
  if (s <=? a) && (a <? s + Z.of_nat n) then default 0 (cstr n src t !! Z.to_nat (a - s)) else load8 dst a.
Proof.
  induction n as [|n IH]; intros dst s t a; cbn [strncpy_arr cstr]; [bool_case; lia || done|].
  cbv zeta. destruct (Z.eqb_spec (load8 src t) 0) as [E|E].
  - rewrite load8_memset_loop, load8_store8, E. bool_case; lia || done.
  - rewrite IH, load8_store8. bool_case; try lia; try done.
    + subst. by rewrite Z.sub_diag.
    + by replace (Z.to_nat (a - s)) with (S (Z.to_nat (a - (s + 1)))) by lia.
Qed.

Section FsDir.
Context (dev pid : Z) (rep : bstate_rel) `{!BlockLayer dev pid rep} `{Linker}.

Lemma read_dirent_spec s D V L P dp k msg :
  let x := get_inode dp s in
  rep s D V L P -> (length L + size P < bhead)%nat -> i_dev x = dev -> file_ok V x L -> 0 <= k -> 16 * k + 16 <= i_size x ->
  exists de s', read_dirent dp (k * sizeof_dirent) msg s = Ok de s' /\ rep s' D V L P /\ bio_only s s' /\
    load16 de 0 = dent_inum V x k /\ forall a, load8 de a = load8 (dent V x k) a.
Proof.
  intros x Hr Hroom Hdev Hok Hk Hend. pose proof (fo_size _ _ _ Hok) as Hsz. rewrite MAXFILE_val in Hsz. unfold BSIZE in Hsz.
  unfold read_dirent, sizeof_dirent.
  destruct (readi_local dev pid rep s D V L P dp (k * 16) 16 ∅ 0 Hr Hroom Hdev Hok ltac:(lia) ltac:(lia)) as (de & s' & E & Hr' & O & Hde).
  fold x in E, Hde. assert (El : read_len (i_size x) (k * 16) 16 = 16).
  { unfold read_len. rewrite (proj2 (Z.ltb_ge _ _)), (proj2 (Z.leb_gt _ _)) by lia. cbn. lia. }
  rewrite El in *. rewrite (bind_Ok _ _ _ _ _ E). cbn [Z.eqb negb]. exists de, s'. split; [done|]. split; [done|]. split; [done|].
  assert (Ha : forall a, load8 de a = load8 (dent V x k) a).
  { intros a. rewrite Hde, load8_dent. rewrite Z.add_0_l. bool_case; try done. f_equal. lia. }
  split; [|done]. apply le_load_ext. intros. apply Ha.
Qed.

(** iget when an entry of the table is free. *)
Lemma iget_Ok s d inum k0 x0 :
  LkItable ∉ k_held s -> k_itable s !! k0 = Some x0 -> i_ref x0 = 0 ->
  exists ip s', iget d inum s = Ok ip s' /\ (exists l, s' = set_k_itable l s) /\
    i_dev (get_inode ip s') = d /\ i_inum (get_inode ip s') = inum /\ 0 < i_ref (get_inode ip s').
Proof.
  intros Hl H0 Hr0. unfold iget. rewrite (bind_Ok _ _ _ _ _ (acquire_Ok _ _ Hl)), bind_gets. cbn [k_itable set_k_held].
  destruct (find_inode_spec d inum (k_itable s) 0 None) as [(k & x & e & -> & Hk & Hx)|(e & -> & Hno & He)].
  - rewrite bind_modify, upd_inode_release by done. eexists k, _. split; [done|]. split; [by eexists|].
    rewrite (get_upd_inode k _ s x Hk). apply entry_ofP in Hx as (? & ? & ?). cbn. split_and!; (done || lia).
  - destruct e as [b|]; [|by specialize (He k0 x0 H0)]. destruct He as (k & x & -> & Hk & Hx).
    rewrite !bind_modify, !upd_inode_comp, upd_inode_release by done. eexists k, _. split; [done|]. split; [by eexists|].
    rewrite (get_upd_inode k _ s x Hk). cbn. split_and!; (done || lia).
Qed.

(** Entry 0 up to [k] exclusive are not for [name]. *)
Definition no_entry (V : blocks) (x : inode) (name : list Z) (k : Z) : Prop := forall j, 0 <= j < k -> ~ is_entry V x name j.

Lemma no_entry_S V x name k : 0 <= k -> no_entry V x name k -> ~ is_entry V x name k -> no_entry V x name (k + 1).
Proof. intros Hk H1 H2 j Hj. destruct (Z.eqb_spec j k) as [->|]; [done|]. apply H1. lia. Qed.

Lemma dirlookup_found s D V L P dp name k0 x0 :
  let x := get_inode dp s in
  let nm := cstr (Z.to_nat DIRSIZ) name 0 in
  rep s D V L P -> (length L + size P < bhead)%nat -> i_dev x = dev -> file_ok V x L -> i_type x = T_DIR ->
  i_size x mod 16 = 0 -> k_itable s !! k0 = Some x0 -> i_ref x0 = 0 ->
  exists s',
    (exists k ip, 0 <= k < i_size x / 16 /\ is_entry V x nm k /\ no_entry V x nm k /\
       dirlookup dp name s = Ok (Some (ip, 16 * k)) s' /\ rep s' D V L P /\
       i_dev (get_inode ip s') = dev /\ i_inum (get_inode ip s') = dent_inum V x k /\ 0 < i_ref (get_inode ip s') /\
       exists t, bio_only s t /\ rep t D V L P /\ iget dev (dent_inum V x k) t = Ok ip s') \/
    (no_entry V x nm (i_size x / 16) /\ dirlookup dp name s = Ok None s' /\ rep s' D V L P /\ bio_only s s').
Proof.
  intros x nm Hr Hroom Hdev Hok Hty Hmod Hk0 Hr0. unfold dirlookup. rewrite bind_gets. fold x. rewrite Hty. change (negb (T_DIR =? T_DIR)) with false. cbv iota.
  pose proof (fo_size _ _ _ Hok) as Hsz. assert (En : Z.of_nat (dirents (i_size x)) = i_size x / 16) by (unfold dirents, sizeof_dirent; div_lia).
  match goal with |- context [for_loop ?n 0 ?body] => destruct (for_loop_exit n 0 body
    (fun k t => rep t D V L P /\ bio_only s t /\ no_entry V x nm k)
    (fun r t => exists k, r.2 = 16 * k /\ 0 <= k < i_size x / 16 /\ is_entry V x nm k /\ no_entry V x nm k /\ rep t D V L P /\
       i_dev (get_inode r.1 t) = dev /\ i_inum (get_inode r.1 t) = dent_inum V x k /\ 0 < i_ref (get_inode r.1 t) /\
       exists t', bio_only s t' /\ rep t' D V L P /\ iget dev (dent_inum V x k) t' = Ok r.1 t) s)
    as (s' & [[E (Hr' & O & Hno)]|((ip & off) & E & k & Eo & Hk & He & Hno & Hr' & Hrest)]) end.
  - intros k t Hk (Hrt & Ot & Hno). rewrite Z.add_0_l, En in Hk.
    assert (Hgt : get_inode dp t = x) by (by apply get_inode_bio).
    pose proof (read_dirent_spec t D V L P dp k "dirlookup read") as Hrd. rewrite Hgt in Hrd.
    destruct (Hrd Hrt Hroom Hdev Hok ltac:(lia) ltac:(div_lia)) as (de & t1 & E1 & Hr1 & O1 & Ei & Hde). rewrite (bind_Ok _ _ _ _ _ E1), Ei.
    pose proof (bio_only_trans _ _ _ Ot O1) as O.
    destruct (Z.eqb_spec (dent_inum V x k) 0) as [Ez|Enz].
    { exists t1. left. split; [done|]. split; [done|]. split; [done|]. apply no_entry_S; [lia|done|]. by intros [? _]. }
    assert (Ename : cstr (Z.to_nat DIRSIZ) de 2 = dent_name V x k) by (apply cstr_ext; intros; apply Hde). unfold namecmp.
    destruct (Z.eqb_spec (strncmp_arr (Z.to_nat DIRSIZ) name 0 de 2) 0) as [Ec|Ec].
    + apply strncmp_arr_eq in Ec. fold nm in Ec. pose proof (bl_running _ _ _ _ _ Hr1) as [Hh _ _].
      destruct (iget_Ok t1 (i_dev x) (dent_inum V x k) k0 x0) as (ip & t2 & E2 & (l & ->) & Hd2 & Hi2 & Hr2).
      { rewrite Hh. apply not_elem_of_nil. }
      { by destruct (bio_only_fields _ _ O) as (_ & _ & _ & _ & -> & _). }
      { done. }
      eexists. right. exists (ip, k * sizeof_dirent). rewrite (bind_Ok _ _ _ _ _ E2). split; [done|]. exists k.
      split; [unfold sizeof_dirent; cbn; lia|]. split; [done|]. split; [split; [done|congruence]|]. split; [done|].
      split; [by apply (rep_itable dev pid rep)|]. cbn [fst snd]. split; [congruence|]. split; [done|]. split; [done|]. exists t1. rewrite <- Hdev. done.
    + exists t1. left. split; [done|]. split; [done|]. split; [done|]. apply no_entry_S; [lia|done|]. intros [_ Hn].
      apply Ec, strncmp_arr_eq. fold nm. congruence.
  - split; [done|]. split; [apply bio_only_refl|]. intros j Hj. lia.
  - exists s'. right. rewrite Z.add_0_l, En in Hno. by rewrite E.
  - exists s'. left. exists k, ip. cbn in Eo. subst off. rewrite E. do 4 (split; [done|]). split; [done|]. done.
Qed.

Lemma dirlookup_spec s D V L P dp name k0 x0 :
  let x := get_inode dp s in
  let nm := cstr (Z.to_nat DIRSIZ) name 0 in
  rep s D V L P -> (length L + size P < bhead)%nat -> i_dev x = dev -> file_ok V x L -> i_type x = T_DIR ->
  i_size x mod 16 = 0 -> k_itable s !! k0 = Some x0 -> i_ref x0 = 0 ->
  exists s',
    (exists k ip, 0 <= k < i_size x / 16 /\ is_entry V x nm k /\ no_entry V x nm k /\
       dirlookup dp name s = Ok (Some (ip, 16 * k)) s' /\ rep s' D V L P /\
       i_dev (get_inode ip s') = dev /\ i_inum (get_inode ip s') = dent_inum V x k /\ 0 < i_ref (get_inode ip s')) \/
    (no_entry V x nm (i_size x / 16) /\ dirlookup dp name s = Ok None s' /\ rep s' D V L P /\ bio_only s s').
Proof.
  intros x nm H1 H2 H3 H4 H5 H6 H7 H8.
  destruct (dirlookup_found s D V L P dp name k0 x0 H1 H2 H3 H4 H5 H6 H7 H8) as (s' & [(k & ip & A & B & C & E & F & G & I & J & _)|Hn]);
    exists s'; [left; by exists k, ip|by right].
Qed.
End FsDir.

(** * New entries *)

(** The struct dirent that dirlink writes. *)
Definition new_dirent (name : bytes) (inum : Z) : bytes := store16 (strncpy_arr (Z.to_nat DIRSIZ) ∅ 2 name 0) 0 (u16 inum).

Lemma new_dirent_inum name inum : 0 <= inum < 2 ^ 16 -> load16 (new_dirent name inum) 0 = inum.
Proof.
  intros Hi. unfold new_dirent, load16, store16. rewrite le_load_store_same. change (256 ^ Z.of_nat 2) with (2 ^ 16).
  unfold u16. rewrite Z.mod_mod, Z.mod_small by lia. done.
Qed.

Lemma cstr_lookup n : forall m a i c, cstr n m a !! i = Some c -> load8 m (a + Z.of_nat i) = c /\ c <> 0.
Proof.
  induction n as [|n IH]; intros m a i c Hi; cbn [cstr] in Hi; [done|]. destruct (Z.eqb_spec (load8 m a) 0); [done|].
  destruct i as [|i]; [injection Hi as <-; by rewrite Z.add_0_r|].
  destruct (IH m (a + 1) i c Hi) as [<- ?]. split; [|done]. f_equal. lia.
Qed.

Lemma new_dirent_name name inum : cstr (Z.to_nat DIRSIZ) (new_dirent name inum) 2 = cstr (Z.to_nat DIRSIZ) name 0.
Proof.
  set (nm := cstr (Z.to_nat DIRSIZ) name 0). pose proof (length_cstr (Z.to_nat DIRSIZ) name 0) as Hlen. fold nm in Hlen.
  assert (Hb : forall i, (i < Z.to_nat DIRSIZ)%nat -> load8 (new_dirent name inum) (2 + Z.of_nat i) = default 0 (nm !! i)).
  { intros i Hi. unfold new_dirent, store16. rewrite load8_le_store, load8_strncpy_arr. unfold DIRSIZ in *. bool_case; try lia.
    fold nm. by replace (Z.to_nat (2 + Z.of_nat i - 2)) with i by lia. }
  rewrite (cstr_take _ _ _ nm).
  - apply take_ge. lia.
  - intros i c Hi Hc. rewrite Hb, Hc by done. split; [done|]. by apply cstr_lookup in Hc as [_ ?].
  - destruct (decide (Z.to_nat DIRSIZ <= length nm)%nat) as [|Hn]; [by left|right]. rewrite Hb by lia. by rewrite lookup_ge_None_2.
Qed.

Section Dirlink.
Context (dev pid : Z) (rep : bstate_rel) `{!BlockLayer dev pid rep} `{Linker} (st nlog : Z) (sb : superblock).
Hypothesis (Hgeom : log_geom dev st nlog) (Hone : 0 < sb_size sb <= BPB).
Hypothesis Hlayout : forall j, 0 <= j < sb_ninodes sb -> 0 < IBLOCK j sb /\ IBLOCK j sb <> BB sb.
Abbreviation fsenv := (fsenv dev rep st nlog sb).
Abbreviation fstxn := (fstxn dev rep st nlog).

Lemma fsenv_bio s D V L blks ip x t :
  fsenv s D V L blks ip x -> bio_only s t -> rep t D V L (list_to_set blks) -> fsenv t D V L blks ip x.
Proof.
  intros [[R1 R2 R3 R4 R5] Hsb Hbm Hfo H0 Hfd Hx Hdev Hwf] O Hr. destruct (bio_only_fields _ _ O) as (_ & _ & El & Es & Ei & _).
  split; [|by rewrite Es|done..|by rewrite Ei|done|done]. split; [done|by eapply log_at_bio|done|by rewrite El|done].
Qed.

Lemma fsenv_room s D V L blks ip x n :
  fsenv s D V L blks ip x -> afford nlog sb L blks x n -> rep s D V L (list_to_set blks) /\ (length L + size (list_to_set (C := gset Z) blks) < bhead)%nat.
Proof.
  intros He [_ Ha]. pose proof (fe_txn _ _ _ _ _ _ _ _ _ _ _ _ He) as Ht. split; [apply Ht|].
  rewrite size_list_to_set by (apply (tx_nodup _ _ _ (ft_ok _ _ _ _ _ _ _ _ _ Ht))). pose proof (load_length sb blks x). lia.
Qed.

(** The search of dirlink for a free entry. *)
Lemma free_dirent s D V L P dp x :
  get_inode dp s = x -> rep s D V L P -> (length L + size P < bhead)%nat -> i_dev x = dev -> file_ok V x L -> i_size x mod 16 = 0 ->
  exists s' k, 0 <= k <= i_size x / 16 /\ rep s' D V L P /\ bio_only s s' /\
    (k < i_size x / 16 -> dent_inum V x k = 0) /\ (forall j, 0 <= j < k -> dent_inum V x j <> 0) /\
    exists r, for_loop (dirents (i_size x)) 0 (fun k =>
        let off := k * sizeof_dirent in
        de <- read_dirent dp off "dirlink read" ;;
        if load16 de 0 =? 0 then ret (Some off) else ret None) s = Ok r s' /\
      default (Z.of_nat (dirents (i_size x)) * sizeof_dirent) r = 16 * k.
Proof.
  intros Hx Hr Hroom Hdev Hok Hmod. pose proof (fo_size _ _ _ Hok) as Hsz.
  assert (En : Z.of_nat (dirents (i_size x)) = i_size x / 16) by (unfold dirents, sizeof_dirent; div_lia).
  match goal with |- context [for_loop ?n 0 ?body] => destruct (for_loop_exit n 0 body
    (fun k t => rep t D V L P /\ bio_only s t /\ forall j, 0 <= j < k -> dent_inum V x j <> 0)
    (fun r t => exists k, r = 16 * k /\ 0 <= k < i_size x / 16 /\ rep t D V L P /\ bio_only s t /\ dent_inum V x k = 0 /\
       forall j, 0 <= j < k -> dent_inum V x j <> 0) s)
    as (s' & [[E (Hr' & O & Hno)]|(r & E & k & -> & Hk & Hr' & O & Hz & Hno)]) end.
  - intros k t Hk (Hrt & Ot & Hno). rewrite Z.add_0_l, En in Hk.
    assert (Hgt : get_inode dp t = x) by (rewrite <- Hx; by apply get_inode_bio).
    pose proof (read_dirent_spec dev pid rep t D V L P dp k "dirlink read") as Hrd. rewrite Hgt in Hrd.
    destruct (Hrd Hrt Hroom Hdev Hok ltac:(lia) ltac:(div_lia)) as (de & t1 & E1 & Hr1 & O1 & Ei & _). cbv zeta. rewrite (bind_Ok _ _ _ _ _ E1), Ei.
    pose proof (bio_only_trans _ _ _ Ot O1) as O. exists t1. destruct (Z.eqb_spec (dent_inum V x k) 0) as [Ez|Enz].
    + right. eexists. split; [done|]. exists k. unfold sizeof_dirent. split; [lia|]. by split_and!; [lia|lia|..].
    + left. split; [done|]. split; [done|]. split; [done|]. intros j Hj. destruct (Z.eqb_spec j k) as [->|]; [done|]. apply Hno. lia.
  - split; [done|]. split; [apply bio_only_refl|]. intros j Hj. lia.
  - exists s', (i_size x / 16). rewrite Z.add_0_l, En in *. split; [div_lia|]. split; [done|]. split; [done|]. split; [lia|]. split; [done|].
    exists None. split; [done|]. cbn. unfold sizeof_dirent. lia.
  - exists s', k. split; [lia|]. split; [done|]. split; [done|]. split; [done|]. split; [done|]. by exists (Some (16 * k)).
Qed.

Lemma fbyte_new V x off k f V' x' L L' i :
  FsFile.file_wf st nlog sb V x L -> FsFile.file_wf st nlog sb V' x' L' ->
  (forall o, 0 <= o < MAXFILE * BSIZE -> fbyte0 V' x' o = if (off <=? o) && (o <? off + k) then f (o - off) else fbyte0 V x o) ->
  0 <= i < i_size x' -> (off <= i < off + k \/ i < i_size x) ->
  fbyte V' x' i = if (off <=? i) && (i <? off + k) then f (i - off) else fbyte V x i.
Proof.
  intros Hwf Hwf' Hb Hi Hc. pose proof (fw_size _ _ _ _ _ _ Hwf') as Hsz'.
  rewrite <- (fbyte_below st nlog sb V' x' L') by done. rewrite Hb by lia.
  destruct (Z.leb_spec off i), (Z.ltb_spec i (off + k)); cbn [andb]; try done; apply (fbyte_below st nlog sb V x L); (done || lia).
Qed.

(** The directory after 16 bytes were written at entry [k]. *)
Lemma written_dirent V x L k de V' x' :
  FsFile.file_wf st nlog sb V x L -> FsFile.file_wf st nlog sb V' x' L -> 0 <= k <= i_size x / 16 -> i_size x mod 16 = 0 ->
  i_size x' = Z.max (i_size x) (16 * k + 16) ->
  (forall o, 0 <= o < MAXFILE * BSIZE ->
     fbyte0 V' x' o = if (16 * k <=? o) && (o <? 16 * k + 16) then load8 de (0 + (o - 16 * k)) else fbyte0 V x o) ->
  dent_inum V' x' k = load16 de 0 /\ dent_name V' x' k = cstr (Z.to_nat DIRSIZ) de 2 /\
  forall j, 0 <= j < i_size x / 16 -> j <> k -> dent_inum V' x' j = dent_inum V x j /\ dent_name V' x' j = dent_name V x j.
Proof.
  intros Hwf Hwf' Hk Hmod Hsz Hb.
  assert (Hf : forall i, 0 <= i < i_size x' -> (16 * k <= i < 16 * k + 16 \/ i < i_size x) ->
    fbyte V' x' i = if (16 * k <=? i) && (i <? 16 * k + 16) then load8 de (0 + (i - 16 * k)) else fbyte V x i)
    by (intros i Hi Hc; exact (fbyte_new V x (16 * k) 16 (fun o => load8 de (0 + o)) V' x' L L i Hwf Hwf' Hb Hi Hc)).
  assert (Ek : forall a, 0 <= a < 16 -> load8 (dent V' x' k) a = load8 de a).
  { intros a Ha. rewrite load8_dent. rewrite (proj2 (Z.leb_le _ _)), (proj2 (Z.ltb_lt _ _)) by lia. cbn [andb].
    rewrite Hf by lia. rewrite (proj2 (Z.leb_le _ _)), (proj2 (Z.ltb_lt _ _)) by lia. cbn [andb]. f_equal. lia. }
  split; [|split].
  - apply le_load_ext. intros i Hi. apply Ek. lia.
  - apply cstr_ext. intros i Hi. apply Ek. unfold DIRSIZ in Hi. lia.
  - intros j Hj Hne. apply dent_ext. intros i Hi. rewrite Hf by div_lia.
    destruct (Z.leb_spec (16 * k) (16 * j + i)), (Z.ltb_spec (16 * j + i) (16 * k + 16)); cbn [andb]; (done || lia).
Qed.

(** What dirlink does in a directory without the name. *)
Definition linked (V : blocks) (x : inode) (nm : list Z) (inum k : Z) (V' : blocks) (x' : inode) : Prop :=
  0 <= k <= i_size x / 16 /\ (k < i_size x / 16 -> dent_inum V x k = 0) /\ i_size x' = Z.max (i_size x) (16 * k + 16) /\
  dent_inum V' x' k = inum /\ dent_name V' x' k = nm /\
  forall j, 0 <= j < i_size x / 16 -> j <> k -> dent_inum V' x' j = dent_inum V x j /\ dent_name V' x' j = dent_name V x j.

Lemma dirlink_spec s D V L blks dp x name inum k0 x0 :
  let nm := cstr (Z.to_nat DIRSIZ) name 0 in
  fsenv s D V L blks dp x -> inodes_ok st nlog sb L -> 0 <= i_inum x < sb_ninodes sb -> fields_ok x ->
  i_type x = T_DIR -> i_size x mod 16 = 0 -> afford nlog sb L blks x 2 ->
  k_itable s !! k0 = Some x0 -> i_ref x0 = 0 -> 0 < inum < 2 ^ 16 -> no_entry V x nm (i_size x / 16) ->
  exists r s' V' x' blks', dirlink dp name inum s = Ok r s' /\ fsenv s' D V' L blks' dp x' /\
    (length L + length blks' < bhead)%nat /\ i_type x' = i_type x /\ k_itable s' = alter (fun _ => x') dp (k_itable s) /\
    (r = -1 /\ ((forall b, 0 <= b < sb_size sb -> free_block V' sb b = false) \/ MAXFILE * BSIZE < i_size x + 16) \/
     r = 0 /\ exists k, linked V x nm inum k V' x').
Proof.
  intros nm He Hino Hin Hfi Hty Hmod Ha Hk0 Hr0 Hi Hno.
  pose proof (fe_wf _ _ _ _ _ _ _ _ _ _ _ _ He) as Hwf. pose proof (file_wf_ok _ _ _ _ _ _ Hwf) as Hok.
  pose proof (fsenv_get _ _ _ _ _ _ _ _ _ _ _ _ He) as Hg. pose proof (fe_dev _ _ _ _ _ _ _ _ _ _ _ _ He) as Hdev.
  destruct (fsenv_room _ _ _ _ _ _ _ _ He Ha) as [Hr Hroom]. pose proof Ha as [_ Ha2]. pose proof (load_length sb blks x) as Hll.
  pose proof (dirlookup_spec dev pid rep s D V L (list_to_set blks) dp name k0 x0) as Hd. rewrite Hg in Hd.
  destruct (Hd Hr Hroom Hdev Hok Hty Hmod Hk0 Hr0) as (s1 & [(k & ip & Hk & Hent & _)|(_ & E1 & Hr1 & O1)]); [by apply Hno in Hent|].
  unfold dirlink. rewrite (bind_Ok _ _ _ _ _ E1), bind_gets, (get_inode_bio dp s s1 O1), Hg.
  destruct (free_dirent s1 D V L (list_to_set blks) dp x ltac:(by rewrite (get_inode_bio dp s s1 O1)) Hr1 Hroom Hdev Hok Hmod)
    as (s2 & k & Hk & Hr2 & O2 & Hz & Hnz & r & E2 & Er). rewrite (bind_Ok _ _ _ _ _ E2), Er. cbv zeta.
  pose proof (bio_only_trans _ _ _ O1 O2) as O12. pose proof (fsenv_bio _ _ _ _ _ _ _ _ He O12 Hr2) as He2.
  assert (Ei2 : k_itable s2 = k_itable s) by (by destruct (bio_only_fields _ _ O12) as (_ & _ & _ & _ & ? & _)).
  fold (new_dirent name inum). pose proof (fo_size _ _ _ Hok) as Hsz.
  assert (Hk16 : 0 <= 16 * k <= i_size x) by div_lia. rewrite MAXFILE_val in Hsz. unfold BSIZE in Hsz.
  assert (Hnb : nblocks (16 * k) 16 = 1) by (unfold nblocks, BSIZE; cbn [Z.ltb Z.compare]; div_lia).
  pose proof (writei_spec dev pid rep st nlog Hgeom sb Hone Hlayout s2 D V L blks dp x (16 * k) 16 _ _ (Local (new_dirent name inum) 0)
    (local_is_source 16 (new_dirent name inum) 0) He2 Hino Hin Hfi ltac:(lia) ltac:(lia) eq_refl ltac:(by rewrite Hnb)) as Hw.
  rewrite (proj2 (Z.ltb_ge _ _)) in Hw by lia. cbn [orb] in Hw. unfold sizeof_dirent.
  destruct (Z.ltb_spec (MAXFILE * BSIZE) (16 * k + 16)) as [Hbig|_].
  { rewrite (bind_Ok _ _ _ _ _ Hw). exists (-1), s2, V, x, blks. split; [done|]. split; [done|]. split; [lia|]. split; [done|].
    split; [rewrite Ei2; symmetry; apply alter_same, He|]. left. split; [done|]. right. lia. }
  destruct Hw as (tot & s3 & V' & x' & blks' & E3 & [Ht Hfull Ofs Ei He' Hx' Hb _ _ _ Hlog]). rewrite (bind_Ok _ _ _ _ _ E3).
  exists (if tot =? 16 then 0 else -1), s3, V', x', blks'. split; [by destruct (tot =? 16)|]. split; [done|].
  rewrite Hnb in Hlog. split; [lia|]. split; [by rewrite Hx'|]. split; [by rewrite Ei, Ei2|].
  destruct (Z.eqb_spec tot 16) as [->|Htot]; [right|left; split; [done|]; left; apply Hfull; lia]. split; [done|]. exists k.
  assert (Hs' : i_size x' = Z.max (i_size x) (16 * k + 16)) by (by rewrite Hx').
  destruct (written_dirent V x L k (new_dirent name inum) V' x' Hwf (fe_wf _ _ _ _ _ _ _ _ _ _ _ _ He') Hk Hmod Hs' Hb) as (Di & Dn & Dj).
  rewrite new_dirent_inum in Di by lia. rewrite new_dirent_name in Dn. done.
Qed.

End Dirlink.

(** * The first entry of an empty directory *)

Definition demo_dir : inode := set_i_type T_DIR demo_empty.
Definition demo_dirs : kstate := set_k_itable [demo_dir; inode0] (demo_writei ∅ 0 0).

Lemma demo_dir_env :
  fsenv ROOTDEV (brep ROOTDEV 1) 2 LOGSIZE demo_fs_sb demo_dirs (demo_fs_view ∅) (demo_fs_view ∅) [] [] 0 demo_dir.
Proof.
  destruct (demo_fsenv ∅ 0 0) as [Ht _ Hbm Hfo H0 Hfd _ _ [A1 A2 A3 A4 A5]]. split.
  - by apply (fstxn_itable ROOTDEV 1 (brep ROOTDEV 1)).
  - reflexivity.
  - exact Hbm.
  - exact Hfo.
  - exact H0.
  - exact Hfd.
  - reflexivity.
  - reflexivity.
  - split; [exact A1|exact A2|exact A3|exact A4|exact A5].
Qed.

