(* ===== verification/Proc.v ===== *)
(** Creating and destroying processes (kernel/proc.c): the process table, the
    page table of a process, fork, exit and wait.  Sched.v has the rest of
    proc.c.  The trapframe of a process is the page [p_trapframe] of physical
    memory; its fields are the 64-bit words at the offsets of kernel/proc.h. *)
From S2P Require Import Prelude State Locks Kstring Kalloc Vm Sched Sleeplock Bio Log Uart Kprintf Either Fs Pipe Console File.

(** The addresses of the routines that the kernel stores in registers. *)
Class Symbols : Type := {
  sym_forkret : Z;
  sym_usertrap : Z;
  sym_uservec : Z;
  sym_userret : Z;
  sym_kernelvec : Z
}.

(** struct trapframe (kernel/proc.h): offsets of the fields *)
Definition tf_kernel_satp : Z := 0.
Definition tf_kernel_sp : Z := 8.
Definition tf_kernel_trap : Z := 16.
Definition tf_epc : Z := 24.
Definition tf_kernel_hartid : Z := 32.
Definition tf_sp : Z := 48.
Definition tf_a0 : Z := 112.
Definition tf_a1 : Z := 120.
Definition tf_a7 : Z := 168.
Definition sizeof_trapframe : Z := 288.

Definition tf_load (i : nat) (off : Z) : K Z :=
  gets (fun s => load64 (k_mem s) (p_trapframe (get_proc i s) + off)).
Definition tf_store (i : nat) (off v : Z) : K unit :=
  modify (fun s => set_k_mem (store64 (k_mem s) (p_trapframe (get_proc i s) + off) v) s).

Section Proc.
Context `{Linker} `{Symbols}.

Definition proc_mapstacks (kpgtbl : Z) : K unit :=
  for_loop (Z.to_nat NPROC) 0 (fun p =>
    pa <- kalloc ;;
    if pa =? 0 then panic "kalloc"
    else kvmmap kpgtbl (KSTACK p) pa PGSIZE (Z.lor PTE_R PTE_W) ;;; ret (@None unit)) ;;;
  ret tt.

(** The spin-locks need no initialisation here: none is held. *)
Definition procinit : K unit :=
  for_loop (Z.to_nat NPROC) 0 (fun p =>
    modify (upd_proc (Z.to_nat p) (set_p_state UNUSED)) ;;;
    modify (upd_proc (Z.to_nat p) (set_p_kstack (KSTACK p))) ;;;
    ret (@None unit)) ;;;
  ret tt.

Definition allocpid : K Z :=
  acquire LkPid ;;;
  pid <- gets k_nextpid ;;
  modify (set_k_nextpid (i32 (pid + 1))) ;;;
  release LkPid ;;;
  ret pid.

Definition proc_pagetable (p : nat) : K Z :=
  pagetable <- uvmcreate ;;
  if pagetable =? 0 then ret 0
  else
    r <- mappages pagetable TRAMPOLINE PGSIZE trampoline (Z.lor PTE_R PTE_X) ;;
    if r <? 0 then uvmfree pagetable 0 ;;; ret 0
    else
      tf <- gets (fun s => p_trapframe (get_proc p s)) ;;
      r <- mappages pagetable TRAPFRAME PGSIZE tf (Z.lor PTE_R PTE_W) ;;
      if r <? 0 then
        uvmunmap pagetable TRAMPOLINE 1 false ;;;
        uvmfree pagetable 0 ;;;
        ret 0
      else ret pagetable.

Definition proc_freepagetable (pagetable sz : Z) : K unit :=
  uvmunmap pagetable TRAMPOLINE 1 false ;;;
  uvmunmap pagetable TRAPFRAME 1 false ;;;
  uvmfree pagetable sz.

(** The fields freeproc resets once the memory is given back. *)
Definition clear_proc (p : proc) : proc :=
  set_p_state UNUSED (set_p_xstate 0 (set_p_killed 0 (set_p_chan None
    (set_p_name (store8 (p_name p) 0 0) (set_p_parent None (set_p_pid 0 (set_p_sz 0 p))))))).

Definition freeproc (p : nat) : K unit :=
  x <- gets (get_proc p) ;;
  when (negb (p_trapframe x =? 0)) (kfree (p_trapframe x)) ;;;
  modify (upd_proc p (set_p_trapframe 0)) ;;;
  when (negb (p_pagetable x =? 0)) (proc_freepagetable (p_pagetable x) (p_sz x)) ;;;
  modify (upd_proc p (set_p_pagetable 0)) ;;;
  modify (upd_proc p clear_proc).

(** The search of allocproc: the lock of the process found stays held. *)
Definition find_unused : K (option nat) :=
  for_loop (Z.to_nat NPROC) 0 (fun j =>
    let i := Z.to_nat j in
    acquire (LkProc i) ;;;
    st <- gets (fun s => p_state (get_proc i s)) ;;
    if bool_decide (st = UNUSED) then ret (Some i)
    else release (LkProc i) ;;; ret None).

Definition allocproc : K (option nat) :=
  r <- find_unused ;;
  match r with
  | None => ret None
  | Some p =>
      pid <- allocpid ;;
      modify (upd_proc p (set_p_pid pid)) ;;;
      modify (upd_proc p (set_p_state USED)) ;;;
      tf <- kalloc ;;
      modify (upd_proc p (set_p_trapframe tf)) ;;;
      if tf =? 0 then freeproc p ;;; release (LkProc p) ;;; ret None
      else
        pagetable <- proc_pagetable p ;;
        modify (upd_proc p (set_p_pagetable pagetable)) ;;;
        if pagetable =? 0 then freeproc p ;;; release (LkProc p) ;;; ret None
        else
          modify (upd_proc p (fun x =>
            set_p_context (mk_context sym_forkret (u64 (p_kstack x + PGSIZE)) (replicate 12 0)) x)) ;;;
          ret (Some p)
  end.

(** initcode[]: the program that calls exec("/init") *)
Definition initcode : list Z :=
  [0x17; 0x05; 0x00; 0x00; 0x13; 0x05; 0x45; 0x02;
   0x97; 0x05; 0x00; 0x00; 0x93; 0x85; 0x35; 0x02;
   0x93; 0x08; 0x70; 0x00; 0x73; 0x00; 0x00; 0x00;
   0x93; 0x08; 0x20; 0x00; 0x73; 0x00; 0x00; 0x00;
   0xef; 0xf0; 0x9f; 0xff; 0x2f; 0x69; 0x6e; 0x69;
   0x74; 0x00; 0x00; 0x24; 0x00; 0x00; 0x00; 0x00;
   0x00; 0x00; 0x00; 0x00].

(** A string literal. *)
Definition literal (t : string) : bytes := store_list (chars t) ∅ 0.

Definition userinit : K unit :=
  r <- allocproc ;;
  modify (set_k_initproc r) ;;;
  match r with
  | None => panic "kerneltrap"
  | Some p =>
      pt <- gets (fun s => p_pagetable (get_proc p s)) ;;
      uvmfirst pt (store_list initcode ∅ 0) (Z.of_nat (length initcode)) ;;;
      modify (upd_proc p (set_p_sz PGSIZE)) ;;;
      tf_store p tf_epc 0 ;;;
      tf_store p tf_sp PGSIZE ;;;
      modify (upd_proc p (fun x => set_p_name (safestrcpy_arr 16 (p_name x) 0 (literal "initcode") 0) x)) ;;;
      cwd <- namei (literal "/") ;;
      modify (upd_proc p (set_p_cwd cwd)) ;;;
      modify (upd_proc p (set_p_state RUNNABLE)) ;;;
      release (LkProc p)
  end.

Definition growproc (n : Z) : K Z :=
  p <- curproc ;;
  x <- gets (get_proc p) ;;
  if 0 <? n then
    sz <- uvmalloc (p_pagetable x) (p_sz x) (u64 (p_sz x + n)) PTE_W ;;
    if sz =? 0 then ret (-1)
    else modify (upd_proc p (set_p_sz sz)) ;;; ret 0
  else if n <? 0 then
    sz <- uvmdealloc (p_pagetable x) (p_sz x) (u64 (p_sz x + n)) ;;
    modify (upd_proc p (set_p_sz sz)) ;;; ret 0
  else modify (upd_proc p (set_p_sz (p_sz x))) ;;; ret 0.

(** for(i = 0; i < NOFILE; i++) if(p->ofile[i]) np->ofile[i] = filedup(p->ofile[i]); *)
Definition dup_files (p np : nat) : K unit :=
  for_loop (Z.to_nat NOFILE) 0 (fun j =>
    o <- gets (fun s => mjoin (p_ofile (get_proc p s) !! Z.to_nat j)) ;;
    match o with
    | None => ret tt
    | Some f =>
        f <- filedup f ;;
        modify (upd_proc np (fun x => set_p_ofile (<[Z.to_nat j := Some f]> (p_ofile x)) x))
    end ;;;
    ret (@None unit)) ;;;
  ret tt.

(** idup and iput on [p->cwd]; a null pointer traps. *)
Definition cwd_of (p : nat) : K nat :=
  cwd <- gets (fun s => p_cwd (get_proc p s)) ;;
  match cwd with Some ip => ret ip | None => panic "kerneltrap" end.

Definition fork : K Z :=
  p <- curproc ;;
  r <- allocproc ;;
  match r with
  | None => ret (-1)
  | Some np =>
      x <- gets (get_proc p) ;;
      y <- gets (get_proc np) ;;
      r <- uvmcopy (p_pagetable x) (p_pagetable y) (p_sz x) ;;
      if r <? 0 then freeproc np ;;; release (LkProc np) ;;; ret (-1)
      else
        modify (upd_proc np (set_p_sz (p_sz x))) ;;;
        modify (fun s => set_k_mem (copy_into (Z.to_nat sizeof_trapframe) (k_mem s) (p_trapframe x)
                                      (k_mem s) (p_trapframe y)) s) ;;;
        tf_store np tf_a0 0 ;;;
        dup_files p np ;;;
        cwd <- cwd_of p ;;
        cwd <- idup cwd ;;
        modify (upd_proc np (set_p_cwd (Some cwd))) ;;;
        modify (upd_proc np (fun y => set_p_name (safestrcpy_arr 16 (p_name y) 0 (p_name x) 0) y)) ;;;
        pid <- gets (fun s => p_pid (get_proc np s)) ;;
        release (LkProc np) ;;;
        acquire LkWait ;;;
        modify (upd_proc np (set_p_parent (Some p))) ;;;
        release LkWait ;;;
        acquire (LkProc np) ;;;
        modify (upd_proc np (set_p_state RUNNABLE)) ;;;
        release (LkProc np) ;;;
        ret pid
  end.

(** wakeup of a process; no process sleeps on a null channel. *)
Definition wakeup_proc (p : option nat) : K unit :=
  match p with Some i => wakeup (ChProc i) | None => ret tt end.

Definition reparent (p : nat) : K unit :=
  for_loop (Z.to_nat NPROC) 0 (fun j =>
    let i := Z.to_nat j in
    parent <- gets (fun s => p_parent (get_proc i s)) ;;
    when (bool_decide (parent = Some p))
      (initproc <- gets k_initproc ;;
       modify (upd_proc i (set_p_parent initproc)) ;;;
       wakeup_proc initproc) ;;;
    ret (@None unit)) ;;;
  ret tt.

(** for(int fd = 0; fd < NOFILE; fd++) of exit *)
Definition close_files (p : nat) : K unit :=
  for_loop (Z.to_nat NOFILE) 0 (fun fd =>
    o <- gets (fun s => mjoin (p_ofile (get_proc p s) !! Z.to_nat fd)) ;;
    match o with
    | None => ret tt
    | Some f =>
        fileclose f ;;;
        modify (upd_proc p (fun x => set_p_ofile (<[Z.to_nat fd := None]> (p_ofile x)) x))
    end ;;;
    ret (@None unit)) ;;;
  ret tt.

(** exit() after the files and the directory are closed. *)
Definition exit_tail (p : nat) (status : Z) : K unit :=
  acquire LkWait ;;;
  reparent p ;;;
  parent <- gets (fun s => p_parent (get_proc p s)) ;;
  wakeup_proc parent ;;;
  acquire (LkProc p) ;;;
  modify (upd_proc p (set_p_xstate status)) ;;;
  modify (upd_proc p (set_p_state ZOMBIE)) ;;;
  release LkWait ;;;
  sched ChRun ;;;
  panic "zombie exit".

Definition exit (status : Z) : K unit :=
  p <- curproc ;;
  init <- gets k_initproc ;;
  if bool_decide (init = Some p) then panic "init exiting"
  else
    close_files p ;;;
    begin_op ;;;
    cwd <- cwd_of p ;;
    iput cwd ;;;
    end_op ;;;
    modify (upd_proc p (set_p_cwd None)) ;;;
    exit_tail p status.

(** The scan of wait(): the result of the call, or whether there are children. *)
Fixpoint wait_scan (n : nat) (pp : nat) (p : nat) (addr : Z) (havekids : bool) : K (Z + bool) :=
  match n with
  | O => ret (inr havekids)
  | S n =>
      x <- gets (get_proc pp) ;;
      if bool_decide (p_parent x = Some p) then
        acquire (LkProc pp) ;;;
        x <- gets (get_proc pp) ;;
        if bool_decide (p_state x = ZOMBIE) then
          r <- (if addr =? 0 then ret 0
                else pt <- gets (fun s => p_pagetable (get_proc p s)) ;;
                     copyout pt addr (store32 ∅ 0 (p_xstate x)) 0 4) ;;
          if r <? 0 then
            release (LkProc pp) ;;;
            release LkWait ;;;
            ret (inl (-1))
          else
            freeproc pp ;;;
            release (LkProc pp) ;;;
            release LkWait ;;;
            ret (inl (p_pid x))
        else release (LkProc pp) ;;; wait_scan n (S pp) p addr true
      else wait_scan n (S pp) p addr havekids
  end.

Definition wait (addr : Z) : K Z :=
  p <- curproc ;;
  acquire LkWait ;;;
  r <- wait_scan (Z.to_nat NPROC) 0 p addr false ;;
  match r with
  | inl v => ret v
  | inr havekids =>
      k <- (if havekids then killed p else ret 1) ;;
      if negb (k =? 0) then release LkWait ;;; ret (-1)
      else sleep (ChProc p) LkWait ;;; ret (-1)
  end.
End Proc.
