(* ===== verification/ProcMem.v ===== *)
(** The address space of a process (proc_pagetable and proc_freepagetable of
    kernel/proc.c): the user pages of Uvm.v below the trapframe and the
    trampoline. *)
From S2P Require Import Prelude State Locks Kstring Kalloc Vm PageTable VmSpec Uvm UvmFree Sched Proc.

Section ProcMem.
Context `{Linker} `{Symbols}.

Lemma agree_off_sub P P' m m' : agree_off P m m' -> P ⊆ P' -> agree_off P' m m'.
Proof. intros Ho Hs a Ha. apply Ho. intros (p & Hp & Hpa). apply Ha. exists p. split; [by apply Hs|done]. Qed.

(** A page table depends on memory, the allocator and its lock only. *)
Lemma uvm_frame s s' root P D fl :
  k_mem s' = k_mem s -> k_freelist s' = k_freelist s -> LkKmem ∉ k_held s' -> uvm s root P D fl -> uvm s' root P D fl.
Proof.
  intros Em Ef Hl [[_ Hinv Hrep Hnd Hok] HD Hnd' Hsz HF Hr]. unfold kmem_inv, frames_at, pte in *.
  split; [|done..| |]; [split| |]; unfold kmem_inv, frames_at, pte; rewrite ?Em, ?Ef; done.
Qed.

(** The entries from TRAPFRAME on: the trapframe at [tf], the trampoline, and
    nothing else. *)
Definition top_entry (tf va : Z) : Z :=
  if bool_decide (TRAPFRAME / PGSIZE = va / PGSIZE) then leaf tf (Z.lor PTE_R PTE_W)
  else if bool_decide (TRAMPOLINE / PGSIZE = va / PGSIZE) then leaf trampoline (Z.lor PTE_R PTE_X) else 0.
Definition proc_top (s : kstate) (root tf : Z) : Prop :=
  forall va, TRAPFRAME <= va < 2 * MAXVA -> pte s root va = top_entry tf va.

(** Mapping a page at or above TRAPFRAME. *)
Lemma map_top s root P fl a pa perm :
  uvm s root P [] fl -> a mod PGSIZE = 0 -> TRAPFRAME <= a -> a + PGSIZE <= MAXVA ->
  0 <= pa -> pa + PGSIZE <= 2 ^ 56 -> 0 <= perm < 1024 -> has (pte s root a) PTE_V = false ->
  exists r s' P' fl', mappages root a PGSIZE pa perm s = Ok r s' /\ pm_only s s' /\
    uvm s' root P' [] fl' /\ P' ++ fl' ≡ₚ P ++ fl /\ agree_off (P ++ fl) (k_mem s) (k_mem s') /\
    (length fl <= 2 + length fl')%nat /\
    (r = 0 /\ (forall va, 0 <= va < 2 * MAXVA -> pte s' root va =
        if bool_decide (a / PGSIZE = va / PGSIZE) then leaf pa perm else pte s root va) \/
     r = -1 /\ fl' = [] /\ (forall va, 0 <= va < 2 * MAXVA -> pte s' root va = pte s root va)).
Proof.
  intros Hu Ha Ha0 HaM Hpa HpaM Hperm Hun.
  destruct (mappages_one s root P fl a pa perm) as (r & s' & P' & fl' & E & Hx & Hlen & Hr);
    [exact (uvm_wf _ _ _ _ _ Hu)|done|va_lia|done..|].
  pose proof (pt_ext_Permutation _ _ _ _ _ _ _ Hx) as HP. destruct Hx as [Hpm Hwf _ Hoff].
  exists r, s', P', fl'. split_and!; [done|done| |done| |done|done].
  - split; [done|apply Hu| |apply Hu| |].
    + simpl. apply Hwf.
    + intros i p Hi. by rewrite lookup_nil in Hi.
    + intros va Hva. assert (Hs : pte s' root va = pte s root va).
      { destruct Hr as [[_ Hr]|(_ & _ & Hr)]; rewrite Hr by va_lia; [|done]. rewrite bool_decide_eq_false_2 by va_lia. done. }
      rewrite Hs. by apply (uvm_rest _ _ _ _ _ Hu).
  - eapply agree_off_sub; [done|]. intros x Hx. rewrite <- HP. elem_tac.
Qed.

(** Unmapping one page without freeing it. *)
Lemma unmap_top s root P D fl a :
  uvm s root P D fl -> a mod PGSIZE = 0 -> TRAPFRAME <= a -> a + PGSIZE <= MAXVA ->
  has (pte s root a) PTE_V = true -> PTE_FLAGS (pte s root a) <> PTE_V ->
  exists s', uvmunmap root a 1 false s = Ok tt s' /\ pm_only s s' /\ uvm s' root P D fl /\
    (forall va, 0 <= va < 2 * MAXVA -> pte s' root va =
       if bool_decide (a / PGSIZE = va / PGSIZE) then 0 else pte s root va) /\
    agree_off P (k_mem s) (k_mem s').
Proof.
  intros Hu Ha Ha0 HaM HV Hfl. unfold uvmunmap. rewrite Ha. cbn [Z.eqb negb].
  destruct (uvmunmap_loop_spec false [PTE2PA (pte s root a)] (S (Z.to_nat 1)) s root P fl a)
    as (s' & E & Hpm & Hwf & Hum & Hoff); [exact (uvm_wf _ _ _ _ _ Hu)|done|va_lia|simpl; lia|simpl; lia| |done|].
  { intros i p Hi. destruct i; [|done]. injection Hi as <-. cbv zeta.
    replace (a + Z.of_nat 0 * PGSIZE) with a by lia. done. }
  cbn [length freed rev app] in *. rewrite app_nil_r in Hoff.
  assert (Hpte : forall va, 0 <= va < 2 * MAXVA -> pte s' root va =
    if bool_decide (a / PGSIZE = va / PGSIZE) then 0 else pte s root va).
  { intros va Hva. rewrite Hum by done. unfold PGSIZE in *.
    case_bool_decide; destruct (Z.leb_spec a va), (Z.ltb_spec va (a + Z.of_nat 1 * 4096)); cbn [andb];
      try reflexivity; exfalso; div_lia. }
  exists s'. split_and!; [|done| |done|done].
  - rewrite <- E. f_equal. rewrite u64_small; [lia|va_lia].
  - eapply uvm_same_ptes; [exact Hu|done|exact (uvm_nodup _ _ _ _ _ Hu)|].
    intros va Hva. rewrite Hpte by va_lia. by rewrite bool_decide_eq_false_2 by va_lia.
Qed.

Lemma top_entry_mapped tf a :
  a = TRAPFRAME \/ a = TRAMPOLINE -> has (top_entry tf a) PTE_V = true /\ PTE_FLAGS (top_entry tf a) <> PTE_V.
Proof.
  intros [-> | ->]; unfold top_entry; [|rewrite bool_decide_eq_false_2 by done];
    rewrite bool_decide_eq_true_2 by done; by rewrite leaf_has_V, leaf_flags.
Qed.

(** Once the two top pages are unmapped, the table has only user pages. *)
Lemma proc_freepagetable_spec s root tf P D fl sz :
  uvm s root P D fl -> proc_top s root tf -> 0 <= sz -> pgs sz = length D ->
  exists s' fl', proc_freepagetable root sz s = Ok tt s' /\ pm_only s s' /\
    kmem_inv s' fl' /\ fl' ≡ₚ P ++ D ++ fl /\ agree_off (P ++ D) (k_mem s) (k_mem s').
Proof.
  intros Hu Ht Hsz Hpg. destruct (top_entry_mapped tf TRAMPOLINE) as [HV1 Hf1]; [by right|].
  destruct (top_entry_mapped tf TRAPFRAME) as [HV2 Hf2]; [by left|].
  destruct (unmap_top s root P D fl TRAMPOLINE Hu) as (s1 & E1 & Hpm1 & Hu1 & Hp1 & Ho1); [done..| | |].
  1, 2: by rewrite Ht by va_lia.
  destruct (unmap_top s1 root P D fl TRAPFRAME Hu1) as (s2 & E2 & Hpm2 & Hu2 & Hp2 & Ho2); [done..| | |].
  1, 2: rewrite Hp1, bool_decide_eq_false_2, Ht by (done || va_lia); done.
  destruct (uvmfree_spec s2 root P D fl sz Hu2 Hsz Hpg) as (s' & fl' & E & Hpm & Hinv & HP & Ho).
  { intros va Hva. rewrite Hp2, Hp1, Ht by va_lia. unfold top_entry.
    repeat case_bool_decide; first [apply has_0 | done]. }
  exists s', fl'. unfold proc_freepagetable. rewrite (bind_Ok _ _ _ _ _ E1), (bind_Ok _ _ _ _ _ E2).
  split_and!; [done|by do 2 (eapply pm_only_trans; [eassumption|])|done|done|].
  eapply agree_off_trans; [exact Ho1| |elem_tac|done]. eapply agree_off_trans; [exact Ho2|exact Ho|elem_tac|done].
Qed.

(** proc_pagetable built a space without user pages, or there were too few free
    pages and all of them are free again. *)
Definition proc_space (s : kstate) (tf : Z) (fl : list Z) (r : Z) (s' : kstate) : Prop :=
  pm_only s s' /\ agree_off fl (k_mem s) (k_mem s') /\
  ((r <> 0 /\ exists P fl', uvm s' r P [] fl' /\ proc_top s' r tf /\ P ++ fl' ≡ₚ fl /\ (length fl <= 5 + length fl')%nat) \/
   (r = 0 /\ (length fl <= 5)%nat /\ exists fl', kmem_inv s' fl' /\ fl' ≡ₚ fl)).

Lemma uvmfree_empty s s1 tf root P fl :
  pm_only s s1 -> agree_off fl (k_mem s) (k_mem s1) -> uvm s1 root P [] [] -> P ≡ₚ fl -> (length fl <= 5)%nat ->
  (forall va, TRAPFRAME <= va < 2 * MAXVA -> has (pte s1 root va) PTE_V = false) ->
  exists s', (uvmfree root 0 ;;; ret 0) s1 = Ok 0 s' /\ proc_space s tf fl 0 s'.
Proof.
  intros Hpm Ho Hu HP Hlen Hno.
  destruct (uvmfree_spec s1 root P [] [] 0 Hu) as (s' & fl' & E & Hpm' & Hinv & HP' & Ho'); [done..|].
  exists s'. rewrite (bind_Ok _ _ _ _ _ E). split; [done|]. rewrite !app_nil_r in *. split; [by eapply pm_only_trans|]. split.
  - eapply agree_off_trans; [exact Ho|exact Ho'|done|]. intros x. by rewrite HP.
  - right. split_and!; [done|done|]. exists fl'. split; [done|]. by rewrite HP'.
Qed.

Lemma trampoline_bounds : 0 <= trampoline /\ trampoline + PGSIZE <= 2 ^ 56.
Proof.
  pose proof trampoline_range. pose proof etext_range. pose proof kend_range.
  unfold KERNBASE, PHYSTOP, KERNBASE, PGSIZE in *. lia.
Qed.

(** The second half of proc_pagetable, with the trampoline mapped. *)
Lemma map_trapframe s s1 p root tf P fl fl1 :
  pm_only s s1 -> agree_off fl (k_mem s) (k_mem s1) -> uvm s1 root P [] fl1 -> P ++ fl1 ≡ₚ fl -> root <> 0 ->
  (length fl <= 3 + length fl1)%nat -> p_trapframe (get_proc p s) = tf -> page_ok tf ->
  (forall va, 0 <= va < 2 * MAXVA -> pte s1 root va =
     if bool_decide (TRAMPOLINE / PGSIZE = va / PGSIZE) then leaf trampoline (Z.lor PTE_R PTE_X) else 0) ->
  exists r s', (t <- gets (fun s => p_trapframe (get_proc p s)) ;;
    r <- mappages root TRAPFRAME PGSIZE t (Z.lor PTE_R PTE_W) ;;
    if r <? 0 then uvmunmap root TRAMPOLINE 1 false ;;; uvmfree root 0 ;;; ret 0
    else ret root) s1 = Ok r s' /\ proc_space s tf fl r s'.
Proof.
  intros Hpm Ho Hu HP Hr Hlen Htf Hok Hp1. pose proof (page_ok_pos tf Hok) as Hpos. unfold PHYSTOP, KERNBASE in Hpos.
  rewrite bind_gets. replace (p_trapframe (get_proc p s1)) with tf by (rewrite <- Htf, Hpm; done).
  destruct (map_top s1 root P fl1 TRAPFRAME tf (Z.lor PTE_R PTE_W) Hu) as (r & s2 & P2 & fl2 & E2 & Hpm2 & Hu2 & HP2 & Ho2 & Hl2 & Hr2);
    [done|done|va_lia|unfold PGSIZE; lia..|done| |].
  { rewrite Hp1, bool_decide_eq_false_2 by (done || va_lia). apply has_0. }
  assert (Hpm' : pm_only s s2) by (by eapply pm_only_trans).
  assert (Ho' : agree_off fl (k_mem s) (k_mem s2)) by (eapply agree_off_trans; [exact Ho|exact Ho2|done|]; intros x; by rewrite HP).
  rewrite (bind_Ok _ _ _ _ _ E2). destruct Hr2 as [(-> & Hp2)|(-> & -> & Hp2)]; cbn [Z.ltb Z.compare].
  - exists root, s2. split; [done|]. split_and!; [done|done|]. left. split; [done|]. exists P2, fl2.
    split_and!; [done| |by rewrite HP2|lia]. intros va Hva. rewrite Hp2, Hp1 by va_lia. done.
  - destruct (unmap_top s2 root P2 [] [] TRAMPOLINE Hu2) as (s3 & E3 & Hpm3 & Hu3 & Hp3 & Ho3); [done..| | |].
    1, 2: rewrite Hp2, Hp1, bool_decide_eq_true_2 by (done || va_lia); by rewrite ?leaf_has_V, ?leaf_flags.
    rewrite (bind_Ok _ _ _ _ _ E3). rewrite app_nil_r in HP2. rewrite HP in HP2.
    destruct (uvmfree_empty s s3 tf root P2 fl) as (s' & E & Hsp); [by eapply pm_only_trans| |done|done|simpl in Hl2| |by exists 0, s'].
    + eapply agree_off_trans; [exact Ho'|exact Ho3|done|]. intros x. by rewrite HP2.
    + apply Permutation_length in HP. rewrite length_app in HP. lia.
    + intros va Hva. rewrite Hp3, Hp2, Hp1 by va_lia. case_bool_decide; apply has_0.
Qed.

Lemma proc_pagetable_spec s p tf fl :
  p_trapframe (get_proc p s) = tf -> page_ok tf -> LkKmem ∉ k_held s -> kmem_inv s fl ->
  exists r s', proc_pagetable p s = Ok r s' /\ proc_space s tf fl r s'.
Proof.
  intros Htf Hok Hl Hinv. unfold proc_pagetable. pose proof (uvmcreate_spec s fl Hl Hinv) as Hc.
  destruct fl as [|root rest].
  { rewrite (bind_Ok _ _ _ _ _ Hc). exists 0, s. split; [done|]. split_and!; [apply pm_only_refl|done|].
    right. split_and!; [done|simpl; lia|by exists []]. }
  destruct Hc as (s1 & E1 & Hpm1 & Hu1 & Hz & Ho1). rewrite (bind_Ok _ _ _ _ _ E1).
  assert (Hroot : root <> 0).
  { destruct Hinv as (_ & _ & [Hp _]%Forall_cons). pose proof (page_ok_pos _ Hp). unfold KERNBASE in *. lia. }
  destruct (Z.eqb_spec root 0) as [|_]; [done|]. destruct trampoline_bounds as [Ht1 Ht2].
  destruct (map_top s1 root [root] rest TRAMPOLINE trampoline (Z.lor PTE_R PTE_X) Hu1) as (r & s2 & P2 & fl2 & E2 & Hpm2 & Hu2 & HP2 & Ho2 & Hl2 & Hr2);
    [done|va_lia|va_lia|done..|rewrite Hz; apply has_0|].
  assert (Hpm : pm_only s s2) by (by eapply pm_only_trans).
  assert (Ho : agree_off (root :: rest) (k_mem s) (k_mem s2)) by (eapply agree_off_trans; [exact Ho1|exact Ho2|elem_tac|done]).
  rewrite (bind_Ok _ _ _ _ _ E2). destruct Hr2 as [(-> & Hp2)|(-> & -> & Hp2)]; cbn [Z.ltb Z.compare].
  - apply (map_trapframe s s2 p root tf P2 (root :: rest) fl2); try done; [simpl; lia|].
    intros va Hva. by rewrite Hp2, Hz.
  - rewrite app_nil_r in HP2. destruct (uvmfree_empty s s2 tf root P2 (root :: rest)) as (s' & E & Hsp);
      [done|done|done|done|simpl in *; lia| |by exists 0, s'].
    intros va Hva. rewrite Hp2, Hz by va_lia. apply has_0.
Qed.
End ProcMem.
