(* ===== verification/ForkSpec.v ===== *)
(** fork (kernel/proc.c): the child is a copy of its parent, or every page taken
    on the way is free again. *)
From S2P Require Import Prelude State Locks Kstring Kalloc Vm PageTable VmSpec Uvm UvmFree UvmCopy Sched Fs Pipe File Proc ProcMem.

Lemma get_upd_proc_ne i j f s : i <> j -> get_proc i (upd_proc j f s) = get_proc i s.
Proof. intros Hne. unfold get_proc, upd_proc. cbn. by rewrite list_lookup_alter_ne. Qed.

Lemma pm_only_upd_proc i f s s' : pm_only s s' -> pm_only (upd_proc i f s) (upd_proc i f s').
Proof. unfold pm_only. intros E. rewrite E. by destruct s. Qed.

Lemma pm_only_get_proc i s s' : pm_only s s' -> get_proc i s' = get_proc i s.
Proof. unfold pm_only. intros E. rewrite E. by destruct s. Qed.

Section Fork.
Context `{Linker} `{Symbols}.

Lemma kmem_frame s s' fl : k_mem s' = k_mem s -> k_freelist s' = k_freelist s -> kmem_inv s fl -> kmem_inv s' fl.
Proof. unfold kmem_inv. by intros -> ->. Qed.

(** ** freeproc *)

(** The memory of the process [x]: its trapframe [T], and its address space of
    the table pages [P] and the frames [D]. *)
Definition owns (s : kstate) (x : proc) (T P D fl : list Z) : Prop :=
  NoDup (T ++ P ++ D ++ fl) /\
  (p_trapframe x = 0 /\ T = [] \/ page_ok (p_trapframe x) /\ T = [p_trapframe x]) /\
  (p_pagetable x = 0 /\ P = [] /\ D = [] \/
   p_pagetable x <> 0 /\ uvm s (p_pagetable x) P D fl /\ proc_top s (p_pagetable x) (p_trapframe x) /\
   0 <= p_sz x /\ pgs (p_sz x) = length D).

Definition cleared (x : proc) : proc := clear_proc (set_p_pagetable 0 (set_p_trapframe 0 x)).

Lemma kfree_trapframe s x T P D fl :
  LkKmem ∉ k_held s -> kmem_inv s fl -> owns s x T P D fl ->
  exists s', when (negb (p_trapframe x =? 0)) (kfree (p_trapframe x)) s = Ok tt s' /\ pm_only s s' /\
    kmem_inv s' (T ++ fl) /\ agree_off T (k_mem s) (k_mem s') /\
    (p_pagetable x <> 0 -> uvm s' (p_pagetable x) P D (T ++ fl) /\ proc_top s' (p_pagetable x) (p_trapframe x)).
Proof.
  intros Hl Hinv (Hnd & [[-> ->]|[Hok ->]] & Hpt).
  { exists s. split_and!; [done|apply pm_only_refl|done|done|]. intros Hne. destruct Hpt as [[? _]|(_ & ? & ? & _)]; done. }
  pose proof (page_ok_pos _ Hok) as Hpos. destruct (Z.eqb_spec (p_trapframe x) 0) as [|_]; [unfold KERNBASE in *; lia|].
  cbn [negb when app]. cbn [app] in Hnd. apply NoDup_cons in Hnd as [Hn Hnd].
  destruct (kfree_free s fl (p_trapframe x) Hl Hinv Hok) as (s' & E & Hpm & Hinv' & Ho); [intros Hx; apply Hn; elem_tac|].
  exists s'. split_and!; [done|done|done|done|]. intros Hne. destruct Hpt as [[? _]|(_ & Hu & Ht & _)]; [done|].
  assert (Hag : agree_on P (k_mem s) (k_mem s')).
  { apply (agree_off_agree_on [p_trapframe x]); [done|auto|apply (uvm_wf _ _ _ _ _ Hu)|].
    intros y Hy ->%list_elem_of_singleton. apply Hn. elem_tac. }
  split.
  - eapply uvm_agree; [exact Hu|done|by rewrite (pm_only_held _ _ Hpm)|done|].
    rewrite <- !Permutation_middle. apply NoDup_cons. split; [|exact (uvm_nodup _ _ _ _ _ Hu)]. by rewrite Permutation_app_swap_app.
  - intros va Hva. destruct (pt_rep_pte_agree s s' _ P Hag (wf_rep _ _ _ _ (uvm_wf _ _ _ _ _ Hu))) as [_ Hp].
    rewrite Hp. by apply Ht.
Qed.

(** freeproc returns every page of the process and empties its slot. *)
Lemma freeproc_spec s i T P D fl :
  LkKmem ∉ k_held s -> kmem_inv s fl -> owns s (get_proc i s) T P D fl ->
  exists s' fl', freeproc i s = Ok tt s' /\ pm_only (upd_proc i cleared s) s' /\
    kmem_inv s' fl' /\ fl' ≡ₚ T ++ P ++ D ++ fl /\ agree_off (T ++ P ++ D) (k_mem s) (k_mem s').
Proof.
  intros Hl Hinv Ho. destruct (kfree_trapframe s _ T P D fl Hl Hinv Ho) as (s1 & E1 & Hpm1 & Hinv1 & Ho1 & Hpt1).
  destruct Ho as (_ & _ & Hpt). unfold freeproc. rewrite bind_gets, (bind_Ok _ _ _ _ _ E1), bind_modify.
  pose proof (pm_only_upd_proc i (set_p_trapframe 0) _ _ Hpm1) as Hpm1'.
  assert (Hcl : forall t, pm_only (upd_proc i (set_p_trapframe 0) s) t ->
    pm_only (upd_proc i cleared s) (upd_proc i clear_proc (upd_proc i (set_p_pagetable 0) t))).
  { intros t Ht. apply (pm_only_upd_proc i (clear_proc ∘ set_p_pagetable 0)) in Ht. rewrite !upd_proc_twice in *. exact Ht. }
  destruct (Z.eqb_spec (p_pagetable (get_proc i s)) 0) as [Ez|Hne]; cbn [negb when].
  - destruct Hpt as [(_ & -> & ->)|[? _]]; [|done]. rewrite bind_ret, bind_modify. unfold modify. eexists _, (T ++ fl).
    split; [done|]. split; [by apply Hcl|]. rewrite !app_nil_r. split_and!; done.
  - destruct Hpt as [[? _]|(_ & _ & _ & Hsz & Hpg)]; [done|]. destruct (Hpt1 Hne) as [Hu1 Ht1].
    destruct (proc_freepagetable_spec (upd_proc i (set_p_trapframe 0) s1) (p_pagetable (get_proc i s)) (p_trapframe (get_proc i s)) P D (T ++ fl) (p_sz (get_proc i s)))
      as (s2 & fl' & E2 & Hpm2 & Hinv2 & HP2 & Ho2); [|done..|].
    { eapply (uvm_frame s1); [done|done| |done]. cbn. by rewrite (pm_only_held _ _ Hpm1). }
    rewrite (bind_Ok _ _ _ _ _ E2), bind_modify. unfold modify. eexists _, fl'. split; [done|].
    split; [apply Hcl; by eapply pm_only_trans|]. split_and!; [exact Hinv2| |].
    + rewrite HP2. rewrite (app_assoc P), Permutation_app_swap_app. by rewrite <- app_assoc.
    + eapply agree_off_trans; [exact Ho1|exact Ho2|elem_tac|elem_tac].
Qed.

(** ** allocproc *)

(** An UNUSED slot: what the static initialisation, exit and freeproc leave. *)
Definition empty_slot (x : proc) : Prop :=
  p_state x = UNUSED /\ p_trapframe x = 0 /\ p_pagetable x = 0 /\ p_sz x = 0 /\ p_ofile x = replicate (Z.to_nat NOFILE) None.
Definition slots_ok (s : kstate) : Prop :=
  length (k_procs s) = Z.to_nat NPROC /\ forall i, p_state (get_proc i s) = UNUSED -> (i < Z.to_nat NPROC)%nat -> empty_slot (get_proc i s).

Lemma find_unused_slot s :
  k_held s = [] -> (find_unused s = Ok None s /\ forall i, (i < Z.to_nat NPROC)%nat -> p_state (get_proc i s) <> UNUSED) \/
    exists i, find_unused s = Ok (Some i) (set_k_held [LkProc i] s) /\ (i < Z.to_nat NPROC)%nat /\ p_state (get_proc i s) = UNUSED.
Proof.
  intros Hh. unfold find_unused.
  match goal with |- context [for_loop ?n ?k ?b s] =>
    destruct (for_loop_exit n k b (fun j t => t = s /\ forall i, (i < Z.to_nat j)%nat -> p_state (get_proc i s) <> UNUSED)
      (fun i t => (i < Z.to_nat NPROC)%nat /\ p_state (get_proc i s) = UNUSED /\ t = set_k_held [LkProc i] s) s)
      as (s' & [(E & -> & Hno)|(i0 & E & Hi)]) end.
  - intros j t Hj [-> Hno]. rewrite (bind_Ok _ _ _ _ _ (acquire_Ok (LkProc (Z.to_nat j)) s ltac:(rewrite Hh; set_solver))), bind_gets, Hh.
    change (get_proc (Z.to_nat j) (set_k_held [LkProc (Z.to_nat j)] s)) with (get_proc (Z.to_nat j) s).
    case_bool_decide as Eu.
    + eexists. right. exists (Z.to_nat j). split; [done|]. split_and!; [unfold NPROC in *; lia|done|done].
    + exists s. left. rewrite (bind_Ok _ _ _ _ _ (release_Ok (LkProc (Z.to_nat j)) (set_k_held [LkProc (Z.to_nat j)] s) [] eq_refl ltac:(set_solver))).
      split; [unfold ret; f_equal; rewrite <- Hh; by destruct s|]. split; [done|]. intros i Hi.
      destruct (decide (i = Z.to_nat j)) as [->|]; [done|]. apply Hno. lia.
  - split; [done|]. intros i Hi. simpl in Hi. lia.
  - left. split; [exact E|]. exact Hno.
  - right. exists i0. destruct Hi as (? & ? & ->). by split_and!.
Qed.

Lemma allocpid_spec s : LkPid ∉ k_held s -> allocpid s = Ok (k_nextpid s) (set_k_nextpid (i32 (k_nextpid s + 1)) s).
Proof.
  intros Hl. unfold allocpid. rewrite (bind_Ok _ _ _ _ _ (acquire_Ok _ _ Hl)), bind_gets, bind_modify.
  erewrite (bind_Ok (release _)) by (by apply release_Ok). by destruct s.
Qed.

(** A call that failed: every page is free again, and a slot that was tried is
    empty again; only the pid counter moved. *)
Definition gave_up (s : kstate) (fl : list Z) (s' : kstate) : Prop :=
  exists i f n fl', empty_slot (get_proc i s) /\ empty_slot (f (get_proc i s)) /\
    pm_only (set_k_nextpid n (upd_proc i f s)) s' /\ kmem_inv s' fl' /\ fl' ≡ₚ fl /\ agree_off fl (k_mem s) (k_mem s').

(** A slot after allocproc. *)
Definition new_proc (pid tf root : Z) (x : proc) : proc :=
  set_p_context (mk_context sym_forkret (u64 (p_kstack x + PGSIZE)) (replicate 12 0))
    (set_p_pagetable root (set_p_trapframe tf (set_p_state USED (set_p_pid pid x)))).
Definition started (i : nat) (tf root : Z) (s : kstate) : kstate :=
  set_k_held [LkProc i] (set_k_nextpid (i32 (k_nextpid s + 1)) (upd_proc i (new_proc (k_nextpid s) tf root) s)).

(** The child's slot with its trapframe and its space, the lock held. *)
Definition allocated (s : kstate) (fl : list Z) (i : nat) (s' : kstate) : Prop :=
  (i < Z.to_nat NPROC)%nat /\ p_state (get_proc i s) = UNUSED /\
  exists tf root P fl', page_ok tf /\ root <> 0 /\
    pm_only (started i tf root s) s' /\
    uvm s' root P [] fl' /\ proc_top s' root tf /\ tf :: P ++ fl' ≡ₚ fl /\ agree_off fl (k_mem s) (k_mem s') /\
    (length fl <= 6 + length fl')%nat.

Lemma pm_only_set_held h s s' : pm_only s s' -> pm_only (set_k_held h s) (set_k_held h s').
Proof. unfold pm_only. intros E. rewrite E. by destruct s. Qed.

(** freeproc on a slot that was being filled, and the release of its lock. *)
Lemma abort_spec {A} (r : A) s s1 i f n T P fl fl1 :
  k_held s = [] -> empty_slot (get_proc i s) -> (forall x, p_ofile (f x) = p_ofile x) ->
  pm_only (set_k_held [LkProc i] (set_k_nextpid n (upd_proc i f s))) s1 -> kmem_inv s1 fl1 ->
  owns s1 (get_proc i s1) T P [] fl1 -> T ++ P ++ fl1 ≡ₚ fl -> agree_off fl (k_mem s) (k_mem s1) ->
  exists s', (freeproc i ;;; release (LkProc i) ;;; ret r) s1 = Ok r s' /\ gave_up s fl s'.
Proof.
  intros Hh He Hf Hpm Hinv Ho HP Hoff.
  assert (Hh1 : k_held s1 = [LkProc i]) by (by rewrite (pm_only_held _ _ Hpm)).
  destruct (freeproc_spec s1 i T P [] fl1) as (s2 & fl' & E & Hpm2 & Hinv2 & HP2 & Hoff2); [rewrite Hh1; set_solver|done..|].
  rewrite (bind_Ok _ _ _ _ _ E).
  rewrite (bind_Ok _ _ _ _ _ (release_Ok (LkProc i) s2 [] ltac:(by rewrite (pm_only_held _ _ Hpm2)) ltac:(set_solver))).
  eexists. split; [done|]. exists i, (cleared ∘ f), n, fl'. split; [exact He|].
  split; [|split; [|split; [by eapply (kmem_frame s2)|split; [by rewrite HP2|]]]].
  - destruct He as (_ & _ & _ & _ & Eo). unfold compose. split_and!; [done..|]. simpl. by rewrite Hf.
  - apply (pm_only_upd_proc i cleared) in Hpm. pose proof (pm_only_set_held [] _ _ (pm_only_trans _ _ _ Hpm Hpm2)) as Hx.
    replace (set_k_nextpid n (upd_proc i (cleared ∘ f) s))
      with (set_k_held [] (upd_proc i cleared (set_k_held [LkProc i] (set_k_nextpid n (upd_proc i f s))))); [exact Hx|].
    rewrite <- upd_proc_twice. destruct s. cbn in Hh. subst. done.
  - eapply agree_off_trans; [exact Hoff|exact Hoff2|done|]. intros x. rewrite <- HP, !elem_of_app, elem_of_nil. tauto.
Qed.

Lemma kalloc_free s fl :
  LkKmem ∉ k_held s -> kmem_inv s fl ->
  match fl with
  | [] => kalloc s = Ok 0 s
  | p :: rest => exists s', kalloc s = Ok p s' /\ pm_only s s' /\ kmem_inv s' rest /\ agree_off [p] (k_mem s) (k_mem s')
  end.
Proof.
  intros Hl Hinv. pose proof (kalloc_spec s fl Hl Hinv) as Hs. destruct fl as [|p rest]; [done|].
  destruct Hs as (head & E & Hinv'). pose proof (kalloc_pm_only s _ _ _ Hl Hinv E) as Hpm.
  assert (Ho : agree_off [p] (k_mem s) (memset (k_mem s) p 5 PGSIZE)) by apply same_outside_agree_off, memset_page_outside.
  revert E Hinv' Hpm Ho. generalize (memset (k_mem s) p 5 PGSIZE). intros m E Hinv' Hpm Ho. eexists. by split_and!.
Qed.

Lemma upd_proc_slot i f g h n s :
  upd_proc i g (set_k_held h (set_k_nextpid n (upd_proc i f s))) = set_k_held h (set_k_nextpid n (upd_proc i (g ∘ f) s)).
Proof. rewrite <- upd_proc_twice. by destruct s. Qed.

Definition alloc_post (s : kstate) (fl : list Z) (r : option nat) (s' : kstate) : Prop :=
  match r with
  | Some i => allocated s fl i s'
  | None => s' = s /\ (forall i, (i < Z.to_nat NPROC)%nat -> p_state (get_proc i s) <> UNUSED) \/
            gave_up s fl s' /\ (length fl <= 6)%nat
  end.

(** allocproc with the trapframe [tf] taken from the free list. *)
Lemma alloc_rest s s3 i tf rest :
  let n := i32 (k_nextpid s + 1) in let f := set_p_state USED ∘ set_p_pid (k_nextpid s) in
  k_held s = [] -> (i < length (k_procs s))%nat -> (i < Z.to_nat NPROC)%nat -> empty_slot (get_proc i s) -> kmem_inv s (tf :: rest) ->
  pm_only (set_k_held [LkProc i] (set_k_nextpid n (upd_proc i f s))) s3 -> kmem_inv s3 rest ->
  agree_off [tf] (k_mem s) (k_mem s3) ->
  exists r s', (if tf =? 0 then freeproc i ;;; release (LkProc i) ;;; ret None
    else
      pagetable <- proc_pagetable i ;;
      modify (upd_proc i (set_p_pagetable pagetable)) ;;;
      if pagetable =? 0 then freeproc i ;;; release (LkProc i) ;;; ret None
      else
        modify (upd_proc i (fun x =>
          set_p_context (mk_context sym_forkret (u64 (p_kstack x + PGSIZE)) (replicate 12 0)) x)) ;;;
        ret (Some i)) (upd_proc i (set_p_trapframe tf) s3) = Ok r s' /\ alloc_post s (tf :: rest) r s'.
Proof.
  intros n f Hh Hi HiN He (_ & Hnd & [Htf _]%Forall_cons) Hpm Hinv Ho.
  pose proof He as (Hst & _). pose proof (page_ok_pos tf Htf) as Hpos. destruct (Z.eqb_spec tf 0) as [|_]; [unfold KERNBASE in *; lia|].
  set (s4 := upd_proc i (set_p_trapframe tf) s3).
  apply (pm_only_upd_proc i (set_p_trapframe tf)) in Hpm. fold s4 in Hpm. rewrite upd_proc_slot in Hpm.
  assert (Hx : get_proc i s4 = set_p_trapframe tf (f (get_proc i s))).
  { rewrite (pm_only_get_proc i _ _ Hpm). exact (get_upd_proc i (set_p_trapframe tf ∘ f) s Hi). }
  destruct (proc_pagetable_spec s4 i tf rest) as (root & s5 & E5 & Hpm5 & Ho5 & Hr); [by rewrite Hx|done| |done|].
  { rewrite (pm_only_held _ _ Hpm). set_solver. }
  rewrite (bind_Ok _ _ _ _ _ E5), bind_modify.
  assert (Hoff : agree_off (tf :: rest) (k_mem s) (k_mem s5)) by (eapply agree_off_trans; [exact Ho|exact Ho5|elem_tac|elem_tac]).
  pose proof (pm_only_trans _ _ _ Hpm Hpm5) as Hpm'. apply (pm_only_upd_proc i (set_p_pagetable root)) in Hpm'.
  rewrite upd_proc_slot in Hpm'.
  destruct Hr as [(Hne & P & fl' & Hu & Ht & HP & Hlen)|(-> & Hlen & fl' & Hinv5 & HP)].
  - destruct (Z.eqb_spec root 0) as [|_]; [done|]. rewrite bind_modify. eexists (Some i), _. split; [done|].
    split_and!; [done|done|]. exists tf, root, P, fl'. split; [exact Htf|].
    split_and!; [done| | |exact Ht|by rewrite HP|exact Hoff|simpl; lia].
    + apply (pm_only_upd_proc i (fun x => set_p_context (mk_context sym_forkret (u64 (p_kstack x + PGSIZE)) (replicate 12 0)) x)) in Hpm'.
      rewrite upd_proc_slot in Hpm'. exact Hpm'.
    + eapply (uvm_frame s5); [done|done| |exact Hu]. cbn. rewrite (pm_only_held _ _ Hpm5), (pm_only_held _ _ Hpm). set_solver.
  - cbn [Z.eqb]. destruct (abort_spec (@None nat) s (upd_proc i (set_p_pagetable 0) s5) i (set_p_pagetable 0 ∘ (set_p_trapframe tf ∘ f)) n [tf] [] (tf :: rest) fl')
      as (s' & E' & Hg); [done|exact He|done|exact Hpm'|exact Hinv5| |simpl; by rewrite HP|exact Hoff|].
    + assert (Hy : get_proc i (upd_proc i (set_p_pagetable 0) s5) = set_p_pagetable 0 (set_p_trapframe tf (f (get_proc i s)))).
      { rewrite (pm_only_get_proc i _ _ Hpm'). exact (get_upd_proc i (set_p_pagetable 0 ∘ (set_p_trapframe tf ∘ f)) s Hi). }
      rewrite Hy. split_and!; [simpl; by rewrite HP|by right|by left].
    + exists None, s'. split; [exact E'|]. right. split; [done|simpl; lia].
Qed.

Lemma allocproc_spec s fl :
  k_held s = [] -> slots_ok s -> kmem_inv s fl ->
  exists r s', allocproc s = Ok r s' /\ alloc_post s fl r s'.
Proof.
  intros Hh [Hlen Hslots] Hinv. unfold allocproc.
  destruct (find_unused_slot s Hh) as [(E & Hno)|(i & E & Hi & Hst)]; rewrite (bind_Ok _ _ _ _ _ E).
  { exists None, s. split; [done|]. by left. }
  destruct (Hslots i Hst Hi) as (_ & Etf & Ept & Esz & _).
  rewrite (bind_Ok _ _ _ _ _ (allocpid_spec (set_k_held [LkProc i] s) ltac:(set_solver))), !bind_modify.
  cbn [k_nextpid set_k_held].
  set (pid := k_nextpid s). set (n := i32 (pid + 1)). rewrite upd_proc_twice.
  set (f := set_p_state USED ∘ set_p_pid pid).
  set (s2 := upd_proc i f (set_k_nextpid n (set_k_held [LkProc i] s))).
  assert (Hl2 : LkKmem ∉ k_held s2) by set_solver.
  pose proof (kalloc_free s2 fl Hl2 Hinv) as Hk. destruct fl as [|tf rest].
  - rewrite (bind_Ok _ _ _ _ _ Hk), bind_modify. cbn [Z.eqb].
    destruct (abort_spec (@None nat) s (upd_proc i (set_p_trapframe 0) s2) i (set_p_trapframe 0 ∘ f) n [] [] [] [])
      as (s' & E' & Hg); [done|by apply Hslots|done| |done| |done|done|].
    + unfold s2. rewrite upd_proc_twice. apply pm_only_refl.
    + unfold s2. rewrite upd_proc_twice, get_upd_proc by (cbn; lia). split_and!; [apply NoDup_nil_2|by left|by left].
    + exists None, s'. split; [exact E'|]. right. split; [done|simpl; lia].
  - destruct Hk as (s3 & E3 & Hpm3 & Hinv3 & Ho3). rewrite (bind_Ok _ _ _ _ _ E3), bind_modify.
    apply alloc_rest; try done; [lia|by apply Hslots].
Qed.

(** ** The files and the directory of the child *)

Definition dup_ref (ft : list file) (o : option nat) : list file :=
  match o with Some f => alter (fun x => set_f_ref (f_ref x + 1) x) f ft | None => ft end.

(** The reference counts grow by the number of descriptors. *)
Definition uses (f : nat) (os : list (option nat)) : nat := length (filter (fun o => o = Some f) os).
Lemma dup_refs_lookup os : forall ft f,
  foldl dup_ref ft os !! f = (fun x => set_f_ref (f_ref x + Z.of_nat (uses f os)) x) <$> ft !! f.
Proof.
  unfold uses. induction os as [|o os IH]; intros ft f; cbn [foldl].
  - destruct (ft !! f) as [x|]; [|done]. cbn. f_equal. destruct x. unfold set_f_ref. cbn. f_equal. lia.
  - rewrite IH. destruct o as [g|]; cbn [dup_ref].
    + destruct (decide (g = f)) as [->|Hne].
      * rewrite list_lookup_alter_eq, filter_cons_True by done. destruct (ft !! f) as [x|]; [|done]. cbn. f_equal.
        unfold set_f_ref. cbn. f_equal. lia.
      * rewrite list_lookup_alter_ne by done. by rewrite filter_cons_False by congruence.
    + by rewrite filter_cons_False.
Qed.

(** The parts of the state that fork changes once the memory is copied. *)
Definition st (s : kstate) (h : list lockid) (ps : list proc) (ft : list file) (it : list inode) (m : bytes) : kstate :=
  set_k_held h (set_k_procs ps (set_k_ftable ft (set_k_itable it (set_k_mem m s)))).

Lemma st_acquire s h ps ft it m lk : lk ∉ h -> acquire lk (st s h ps ft it m) = Ok tt (st s (lk :: h) ps ft it m).
Proof. apply (acquire_Ok lk (st s h ps ft it m)). Qed.
Lemma st_release s h ps ft it m lk : lk ∉ h -> release lk (st s (lk :: h) ps ft it m) = Ok tt (st s h ps ft it m).
Proof. intros Hn. exact (release_Ok lk (st s (lk :: h) ps ft it m) h eq_refl Hn). Qed.
Lemma st_upd_proc s h ps ft it m i f : upd_proc i f (st s h ps ft it m) = st s h (alter f i ps) ft it m.
Proof. done. Qed.

Lemma st_mem s h ps ft it m : k_mem (st s h ps ft it m) = m.
Proof. done. Qed.

Lemma st_filedup s h ps ft it m f x :
  LkFtable ∉ h -> ft !! f = Some x -> 1 <= f_ref x ->
  filedup f (st s h ps ft it m) = Ok f (st s h ps (dup_ref ft (Some f)) it m).
Proof.
  intros Hl Hf Hr. unfold filedup. rewrite (bind_Ok _ _ _ _ _ (st_acquire s h ps ft it m LkFtable Hl)), bind_gets.
  change (get_file f (st s (LkFtable :: h) ps ft it m)) with (default file0 (ft !! f)). rewrite Hf.
  change (default file0 (Some x)) with x.
  destruct (Z.ltb_spec (f_ref x) 1); [lia|]. rewrite bind_modify.
  change (upd_file f ?g (st s (LkFtable :: h) ps ft it m)) with (st s (LkFtable :: h) ps (alter g f ft) it m).
  by rewrite (bind_Ok _ _ _ _ _ (st_release s h ps _ it m LkFtable Hl)).
Qed.

Lemma st_idup s h ps ft it m ip :
  LkItable ∉ h -> idup ip (st s h ps ft it m) = Ok ip (st s h ps ft (alter (fun x => set_i_ref (i_ref x + 1) x) ip it) m).
Proof.
  intros Hl. unfold idup. rewrite (bind_Ok _ _ _ _ _ (st_acquire s h ps ft it m LkItable Hl)), bind_modify.
  change (upd_inode ip ?g (st s (LkItable :: h) ps ft it m)) with (st s (LkItable :: h) ps ft (alter g ip it) m).
  by rewrite (bind_Ok _ _ _ _ _ (st_release s h ps ft _ m LkItable Hl)).
Qed.

Definition files_ok (ft : list file) (os : list (option nat)) : Prop :=
  length os = Z.to_nat NOFILE /\ forall f, Some f ∈ os -> exists x, ft !! f = Some x /\ 1 <= f_ref x.

(** The child's descriptors after the first [j] iterations. *)
Definition dupped (os : list (option nat)) (j : nat) : list (option nat) := take j os ++ replicate (Z.to_nat NOFILE - j) None.

Lemma dupped_S os j : length os = Z.to_nat NOFILE -> (j < Z.to_nat NOFILE)%nat ->
  dupped os (S j) = match mjoin (os !! j) with Some f => <[j := Some f]> (dupped os j) | None => dupped os j end.
Proof.
  intros Hl Hj. destruct (lookup_lt_is_Some_2 os j) as [o Ho]; [lia|]. unfold dupped.
  rewrite (take_S_r _ _ _ Ho), Ho, <- app_assoc. cbn [mjoin option_join].
  replace (Z.to_nat NOFILE - j)%nat with (S (Z.to_nat NOFILE - S j)) by lia.
  destruct o as [f|]; [|done]. rewrite insert_app_r_alt by (rewrite length_take; lia).
  rewrite length_take, Nat.min_l, Nat.sub_diag by lia. done.
Qed.

Lemma dup_refs_ok ft os os' : files_ok ft os -> files_ok (foldl dup_ref ft os') os.
Proof.
  intros [Hl Hf]. split; [done|]. intros f Hin. destruct (Hf f Hin) as (x & Hx & Hr).
  rewrite dup_refs_lookup, Hx. eexists. split; [done|]. cbn. lia.
Qed.

Lemma dup_files_spec s h ps ft it m p np x y :
  p <> np -> LkFtable ∉ h -> ps !! p = Some x -> ps !! np = Some y ->
  files_ok ft (p_ofile x) -> p_ofile y = replicate (Z.to_nat NOFILE) None ->
  dup_files p np (st s h ps ft it m) =
    Ok tt (st s h (alter (set_p_ofile (p_ofile x)) np ps) (foldl dup_ref ft (p_ofile x)) it m).
Proof.
  intros Hne Hl Hx Hy Hok Hy0. unfold dup_files. pose proof Hok as [Hlen _].
  set (I := fun j t => t = st s h (alter (set_p_ofile (dupped (p_ofile x) (Z.to_nat j))) np ps)
                             (foldl dup_ref ft (take (Z.to_nat j) (p_ofile x))) it m).
  match goal with |- bind (for_loop ?n ?k ?b) _ ?s0 = _ => destruct (for_loop_inv n k b I s0) as (s' & E & Hs') end.
  - intros j t Hj ->. set (k := Z.to_nat j). assert (Hk : (k < Z.to_nat NOFILE)%nat) by (unfold k in *; lia).
    assert (Es : Z.to_nat (j + 1) = S k) by (unfold k; lia). unfold I. rewrite bind_gets, Es.
    change (get_proc p (st s h ?q ?g it m)) with (default proc0 (q !! p)).
    rewrite list_lookup_alter_ne, Hx by done. change (default proc0 (Some x)) with x.
    destruct (lookup_lt_is_Some_2 (p_ofile x) k) as [o Ho]; [lia|].
    rewrite (dupped_S _ k Hlen Hk), (take_S_r _ _ _ Ho), foldl_app. cbn [foldl]. rewrite Ho. cbn [mjoin option_join].
    destruct o as [f|]; [|by eexists].
    destruct (dup_refs_ok ft (p_ofile x) (take k (p_ofile x)) Hok) as [_ Hf].
    destruct (Hf f ltac:(by eapply list_elem_of_lookup_2)) as (fx & Hfx & Hr).
    rewrite bind_assoc, (bind_Ok _ _ _ _ _ (st_filedup s h _ _ it m f fx Hl Hfx Hr)), bind_modify, st_upd_proc.
    eexists. split; [done|]. by rewrite alter_compose_list.
  - unfold I. cbn. rewrite take_0. cbn [foldl]. f_equal. symmetry. etrans; [|apply (list_alter_id (fun z => z)); done].
    apply list_alter_ext; [|done]. intros z Hz. rewrite Hy in Hz. injection Hz as <-. unfold dupped. rewrite Nat.sub_0_r, take_0.
    cbn [app]. rewrite <- Hy0. by destruct y.
  - rewrite (bind_Ok _ _ _ _ _ E). unfold I in Hs'. rewrite Hs'. unfold dupped.
    change (Z.to_nat (0 + Z.of_nat (Z.to_nat NOFILE))) with (Z.to_nat NOFILE).
    rewrite <- Hlen, Nat.sub_diag, firstn_all. by rewrite app_nil_r.
Qed.

(** ** fork after the copy of the memory *)

Definition fork_tail (p np : nat) (x y : proc) : K Z :=
  modify (upd_proc np (set_p_sz (p_sz x))) ;;;
  modify (fun s => set_k_mem (copy_into (Z.to_nat sizeof_trapframe) (k_mem s) (p_trapframe x)
                                (k_mem s) (p_trapframe y)) s) ;;;
  tf_store np tf_a0 0 ;;;
  dup_files p np ;;;
  cwd <- cwd_of p ;;
  cwd <- idup cwd ;;
  modify (upd_proc np (set_p_cwd (Some cwd))) ;;;
  modify (upd_proc np (fun y => set_p_name (safestrcpy_arr 16 (p_name y) 0 (p_name x) 0) y)) ;;;
  pid <- gets (fun s => p_pid (get_proc np s)) ;;
  release (LkProc np) ;;;
  acquire LkWait ;;;
  modify (upd_proc np (set_p_parent (Some p))) ;;;
  release LkWait ;;;
  acquire (LkProc np) ;;;
  modify (upd_proc np (set_p_state RUNNABLE)) ;;;
  release (LkProc np) ;;;
  ret pid.

Definition child_of (p : nat) (x y : proc) : proc :=
  set_p_state RUNNABLE (set_p_parent (Some p) (set_p_name (safestrcpy_arr 16 (p_name y) 0 (p_name x) 0)
    (set_p_cwd (p_cwd x) (set_p_ofile (p_ofile x) (set_p_sz (p_sz x) y))))).

Definition child_frame (m : bytes) (tf tf' : Z) : bytes :=
  store64 (copy_into (Z.to_nat sizeof_trapframe) m tf m tf') (tf' + tf_a0) 0.

Lemma fork_tail_spec s ps ft it m p np x y ip :
  p <> np -> ps !! p = Some x -> ps !! np = Some y -> files_ok ft (p_ofile x) ->
  p_ofile y = replicate (Z.to_nat NOFILE) None -> p_cwd x = Some ip ->
  fork_tail p np x y (st s [LkProc np] ps ft it m) =
    Ok (p_pid y) (st s [] (alter (child_of p x) np ps) (foldl dup_ref ft (p_ofile x))
      (alter (fun x => set_i_ref (i_ref x + 1) x) ip it) (child_frame m (p_trapframe x) (p_trapframe y))).
Proof.
  intros Hne Hx Hy Hf Hy0 Hc. unfold fork_tail, tf_store. rewrite !bind_modify, st_upd_proc.
  set (ps1 := alter (set_p_sz (p_sz x)) np ps).
  assert (Hy1 : ps1 !! np = Some (set_p_sz (p_sz x) y)) by (unfold ps1; by rewrite list_lookup_alter_eq, Hy).
  assert (Hx1 : ps1 !! p = Some x) by (unfold ps1; by rewrite list_lookup_alter_ne).
  change (set_k_mem ?a (st s ?h ?b ft it m)) with (st s h b ft it a). rewrite !st_mem.
  change (set_k_mem ?a (st s ?h ?b ft it ?c)) with (st s h b ft it a).
  change (get_proc np (st s ?h ps1 ft it ?a)) with (default proc0 (ps1 !! np)). rewrite Hy1.
  change (default proc0 (Some ?a)) with a. change (p_trapframe (set_p_sz ?a y)) with (p_trapframe y).
  fold (child_frame m (p_trapframe x) (p_trapframe y)).
  rewrite (bind_Ok _ _ _ _ _ (dup_files_spec s [LkProc np] ps1 ft it _ p np x _ Hne ltac:(set_solver) Hx1 Hy1 Hf Hy0)).
  unfold cwd_of. rewrite bind_assoc, bind_gets.
  change (get_proc p (st s ?h ?q ?g it ?a)) with (default proc0 (q !! p)).
  rewrite list_lookup_alter_ne, Hx1 by done. change (default proc0 (Some x)) with x. rewrite Hc, bind_ret.
  rewrite (bind_Ok _ _ _ _ _ (st_idup s [LkProc np] _ _ it _ ip ltac:(set_solver))), !bind_modify, !st_upd_proc, bind_gets.
  erewrite (bind_Ok (release _)) by (apply st_release; set_solver).
  erewrite (bind_Ok (acquire _)) by (apply st_acquire; set_solver). rewrite bind_modify, st_upd_proc.
  erewrite (bind_Ok (release _)) by (apply st_release; set_solver).
  erewrite (bind_Ok (acquire _)) by (apply st_acquire; set_solver). rewrite bind_modify, st_upd_proc.
  erewrite (bind_Ok (release _)) by (apply st_release; set_solver).
  unfold ret, ps1. rewrite !alter_compose_list. f_equal.
  - change (get_proc np (st s ?h ?q ?g ?i ?a)) with (default proc0 (q !! np)). by rewrite list_lookup_alter_eq, Hy.
  - unfold child_of. by rewrite Hc.
Qed.

(** ** The copy of the memory *)

(** A space is seen through its own pages only. *)
Lemma uvm_seen s s' root P D fl fl' :
  uvm s root P D fl -> uvm s' root P D fl' -> agree_on (P ++ D) (k_mem s) (k_mem s') ->
  (forall va, pte s' root va = pte s root va) /\
  forall va, 0 <= va < Z.of_nat (length D) * PGSIZE -> umem s' root va = umem s root va.
Proof.
  intros Hu Hu' Hag. split.
  - apply (pt_rep_pte_agree s s' root P); [|apply (uvm_wf _ _ _ _ _ Hu)]. eapply agree_on_sub; [|exact Hag]. elem_tac.
  - intros va Hva. destruct (lookup_lt_is_Some_2 D (Z.to_nat (va / PGSIZE))) as [q Hq]; [unfold PGSIZE in *; div_lia|].
    rewrite (frames_umem s' root D va q), (frames_umem s root D va q); [|apply Hu|lia|done|apply Hu'|lia|done].
    f_equal. apply Hag. exists q. apply list_elem_of_lookup_2 in Hq. split; [elem_tac|unfold PGSIZE; div_lia].
Qed.

(** Writes to a page outside a space are not seen in it. *)
Lemma uvm_outside s s' root P D fl p :
  uvm s root P D fl -> page_ok p -> p ∉ D ++ P ++ fl -> agree_off [p] (k_mem s) (k_mem s') ->
  k_freelist s' = k_freelist s -> LkKmem ∉ k_held s' ->
  uvm s' root P D fl /\ (forall va, pte s' root va = pte s root va) /\
  forall va, 0 <= va < Z.of_nat (length D) * PGSIZE -> umem s' root va = umem s root va.
Proof.
  intros Hu Hp Hn Ho Ef Hl. pose proof (uvm_wf _ _ _ _ _ Hu) as Hwf.
  assert (Hag : forall L, Forall page_ok L -> L ⊆ D ++ P ++ fl -> agree_on L (k_mem s) (k_mem s')).
  { intros L HL Hs. apply (agree_off_agree_on [p]); [done|auto|done|]. intros z Hz ->%list_elem_of_singleton. by apply Hn, Hs. }
  assert (Hu' : uvm s' root P D fl).
  { eapply uvm_agree; [exact Hu|apply Hag; [apply Hwf|elem_tac]|done| |exact (uvm_nodup _ _ _ _ _ Hu)].
    eapply (kmem_inv_agree s); [exact Ef|apply Hag; [apply Hwf|elem_tac]|apply Hwf]. }
  split; [done|]. apply (uvm_seen s s' root P D fl fl Hu Hu'), Hag; [|elem_tac].
  apply Forall_app. split; [apply Hwf|apply Hu].
Qed.

Lemma child_frame_load m tf tf' a :
  load8 (child_frame m tf tf') a =
    if (tf' <=? a) && (a <? tf' + sizeof_trapframe)
    then if (tf' + tf_a0 <=? a) && (a <? tf' + tf_a0 + 8) then 0 else load8 m (tf + (a - tf'))
    else load8 m a.
Proof.
  unfold child_frame, store64. rewrite load8_le_store, load8_copy_into, Zdiv_0_l.
  unfold sizeof_trapframe, tf_a0. change (Z.of_nat (Z.to_nat 288)) with 288. change (Z.of_nat 8) with 8.
  bool_case; try lia; done.
Qed.

Lemma safestrcpy_arr_low n : forall dst s src t a,
  a < s -> load8 (safestrcpy_arr_loop n dst s src t) a = load8 dst a.
Proof.
  induction n as [|n IH]; intros dst s src t a Ha; cbn [safestrcpy_arr_loop]; cbv zeta.
  - rewrite load8_store8. bool_case; lia || done.
  - destruct (load8 src t =? 0); rewrite ?IH by lia; rewrite !load8_store8; bool_case; lia || done.
Qed.

Lemma safestrcpy_arr_prefix n : forall dst s src t i,
  0 <= i < Z.of_nat n -> (forall j, 0 <= j < i -> load8 src (t + j) <> 0) ->
  load8 (safestrcpy_arr_loop n dst s src t) (s + i) = load8 src (t + i).
Proof.
  induction n as [|n IH]; intros dst s src t i Hi Hj; [lia|]. cbn [safestrcpy_arr_loop]. cbv zeta.
  destruct (Z.eqb_spec (load8 src t) 0) as [Ez|Hnz].
  - assert (i = 0) as ->. { destruct (Z.eq_dec i 0); [done|]. exfalso. apply (Hj 0); [lia|]. by rewrite Z.add_0_r. }
    rewrite !Z.add_0_r, !load8_store8. bool_case; lia || done.
  - destruct (Z.eq_dec i 0) as [->|Hne].
    + rewrite safestrcpy_arr_low, load8_store8, !Z.add_0_r by lia. by rewrite Z.eqb_refl.
    + replace (s + i) with (s + 1 + (i - 1)) by lia. rewrite IH; [f_equal; lia|lia|].
      intros j Hj'. replace (t + 1 + j) with (t + (j + 1)) by lia. apply Hj. lia.
Qed.

(** ** fork *)

(** The state in which the process [p] calls fork: its space has the table pages
    [P] and the frames [D], and [fl] are the free pages. *)
Record forkable (s : kstate) (p ip : nat) (P D fl : list Z) : Prop := {
  fa_cur : k_cur s = Some p;
  fa_held : k_held s = [];
  fa_slots : slots_ok s;
  fa_p : (p < Z.to_nat NPROC)%nat;
  fa_used : p_state (get_proc p s) <> UNUSED;
  fa_uvm : uvm s (p_pagetable (get_proc p s)) P D fl;
  fa_sz : 0 <= p_sz (get_proc p s);
  fa_pgs : pgs (p_sz (get_proc p s)) = length D;
  fa_tf : page_ok (p_trapframe (get_proc p s));
  fa_tf_own : p_trapframe (get_proc p s) ∉ P ++ D ++ fl;
  fa_files : files_ok (k_ftable s) (p_ofile (get_proc p s));
  fa_cwd : p_cwd (get_proc p s) = Some ip
}.

(** The memory of the child [y] in [s']: a space of its own with the bytes and
    the permissions of the parent's pages, and a copy of the trapframe in which
    a0 is 0; all its pages were free. *)
Definition memory_copied (s : kstate) (x : proc) (P D fl : list Z) (s' : kstate) (y : proc) : Prop :=
  (exists P2 D2 fl', uvm s' (p_pagetable x) P D fl' /\ uvm s' (p_pagetable y) P2 D2 fl' /\
     proc_top s' (p_pagetable y) (p_trapframe y) /\ p_trapframe y :: P2 ++ D2 ++ fl' ≡ₚ fl /\
     length D2 = length D) /\
  (forall va, 0 <= va < Z.of_nat (length D) * PGSIZE ->
     umem s' (p_pagetable y) va = umem s (p_pagetable x) va /\
     PTE_FLAGS (pte s' (p_pagetable y) va) = PTE_FLAGS (pte s (p_pagetable x) va)) /\
  (forall off, 0 <= off < sizeof_trapframe -> load8 (k_mem s') (p_trapframe y + off) =
     if (tf_a0 <=? off) && (off <? tf_a0 + 8) then 0 else load8 (k_mem s) (p_trapframe x + off)) /\
  agree_off fl (k_mem s) (k_mem s').

(** The child [y] of [p], whose process is [x], in a slot that held [z]. *)
Definition child_ok (p : nat) (pid : Z) (x z y : proc) : Prop :=
  p_state y = RUNNABLE /\ p_pid y = pid /\ p_parent y = Some p /\ p_sz y = p_sz x /\
  p_ofile y = p_ofile x /\ p_cwd y = p_cwd x /\
  p_context y = mk_context sym_forkret (u64 (p_kstack z + PGSIZE)) (replicate 12 0) /\
  forall i, 0 <= i < 15 -> (forall j, 0 <= j < i -> load8 (p_name x) j <> 0) -> load8 (p_name y) i = load8 (p_name x) i.

Definition forked (s : kstate) (p ip : nat) (P D fl : list Z) (np : nat) (s' : kstate) : Prop :=
  p_state (get_proc np s) = UNUSED /\
  child_ok p (k_nextpid s) (get_proc p s) (get_proc np s) (get_proc np s') /\
  memory_copied s (get_proc p s) P D fl s' (get_proc np s') /\
  (forall i, i <> np -> get_proc i s' = get_proc i s) /\
  (forall f, k_ftable s' !! f =
     (fun x => set_f_ref (f_ref x + Z.of_nat (uses f (p_ofile (get_proc p s)))) x) <$> k_ftable s !! f) /\
  s' = set_k_nextpid (i32 (k_nextpid s + 1)) (upd_inode ip (fun x => set_i_ref (i_ref x + 1) x)
         (set_k_mem (k_mem s') (set_k_freelist (k_freelist s') (set_k_procs (k_procs s') (set_k_ftable (k_ftable s') s))))).

(** What fork knows after allocproc. *)
Lemma parent_kept s p ip P D fl s1 tf2 P2 fl1 :
  forkable s p ip P D fl -> agree_off fl (k_mem s) (k_mem s1) -> LkKmem ∉ k_held s1 -> kmem_inv s1 fl1 ->
  tf2 :: P2 ++ fl1 ≡ₚ fl ->
  uvm s1 (p_pagetable (get_proc p s)) P D fl1 /\ NoDup (tf2 :: P ++ D ++ P2 ++ fl1).
Proof.
  intros Hfa Ho Hl Hinv HP. pose proof (fa_uvm _ _ _ _ _ _ Hfa) as Hu. pose proof (uvm_nodup _ _ _ _ _ Hu) as Hnd.
  assert (Hnd' : NoDup (tf2 :: P ++ D ++ P2 ++ fl1)).
  { rewrite <- HP in Hnd. rewrite Permutation_app_swap_app in Hnd. revert Hnd.
    by rewrite (app_assoc P D), <- Permutation_middle, <- app_assoc. }
  split; [|done]. eapply uvm_agree; [exact Hu| |done|done|].
  - apply (agree_off_agree_on fl); [done|apply (uvm_wf _ _ _ _ _ Hu)|apply (uvm_wf _ _ _ _ _ Hu)|].
    intros a Ha Ha'. apply NoDup_app in Hnd as (_ & _ & (_ & Hd & _)%NoDup_app). by apply (Hd a).
  - apply NoDup_cons in Hnd' as [_ Hnd']. rewrite Permutation_app_swap_app. eapply sublist_NoDup; [exact Hnd'|].
    apply sublist_app; [done|]. apply sublist_app; [done|]. by apply sublist_inserts_l.
Qed.

Lemma copied_ok s p ip P D fl s1 s2 s' P2 fl1 P2' D2 fl2 y :
  forkable s p ip P D fl -> agree_off fl (k_mem s) (k_mem s1) ->
  uvm s1 (p_pagetable (get_proc p s)) P D fl1 -> NoDup (p_trapframe y :: P ++ D ++ P2 ++ fl1) ->
  page_ok (p_trapframe y) -> p_trapframe y :: P2 ++ fl1 ≡ₚ fl -> proc_top s1 (p_pagetable y) (p_trapframe y) ->
  agree_off (P2 ++ fl1) (k_mem s1) (k_mem s2) -> uvm s2 (p_pagetable (get_proc p s)) P D fl2 ->
  uvm s2 (p_pagetable y) P2' D2 fl2 -> P2' ++ D2 ++ fl2 ≡ₚ P2 ++ fl1 -> same_ptes 0 s1 s2 (p_pagetable y) ->
  length D2 = length D ->
  (forall va, 0 <= va < Z.of_nat (length D) * PGSIZE ->
     umem s2 (p_pagetable y) va = umem s1 (p_pagetable (get_proc p s)) va /\
     PTE_FLAGS (pte s2 (p_pagetable y) va) = PTE_FLAGS (pte s1 (p_pagetable (get_proc p s)) va)) ->
  k_mem s' = child_frame (k_mem s2) (p_trapframe (get_proc p s)) (p_trapframe y) ->
  k_freelist s' = k_freelist s2 -> k_held s' = [] ->
  memory_copied s (get_proc p s) P D fl s' y.
Proof.
  intros Hfa Ho1 Hu1 Hnd Hok HP Ht Ho2 Hold Hnew HP2 Hsm Hlen Hcp Em Ef Hh.
  pose proof (fa_uvm _ _ _ _ _ _ Hfa) as Hu. apply NoDup_cons in Hnd as [Hn Hnd].
  assert (Hin : forall a, a ∈ P2' ++ D2 ++ fl2 -> a <> p_trapframe y).
  { intros a Ha ->. rewrite HP2 in Ha. apply Hn. revert Ha. clear. rewrite !elem_of_app. tauto. }
  assert (Hof : agree_off [p_trapframe y] (k_mem s2) (k_mem s')).
  { intros a Ha. rewrite Em, child_frame_load. unfold sizeof_trapframe. destruct (Z.leb_spec (p_trapframe y) a); [|done].
    destruct (Z.ltb_spec a (p_trapframe y + 288)); [|done]. exfalso. apply Ha. exists (p_trapframe y).
    split; [elem_tac|unfold PGSIZE; lia]. }
  assert (Hl : LkKmem ∉ k_held s') by (rewrite Hh; set_solver).
  destruct (uvm_outside s2 s' _ P D fl2 (p_trapframe y) Hold Hok) as (Hold' & _ & _); [|done..|].
  { rewrite !elem_of_app. intros [Ha|[Ha|Ha]]; [apply Hn; elem_tac..|]. apply (Hin (p_trapframe y)); [elem_tac|done]. }
  destruct (uvm_outside s2 s' _ P2' D2 fl2 (p_trapframe y) Hnew Hok) as (Hnew' & Hpte' & Humem'); [|done..|].
  { intros Ha. apply (Hin (p_trapframe y)); [|done]. revert Ha. rewrite !elem_of_app. tauto. }
  assert (Ho : agree_off fl (k_mem s) (k_mem s2)).
  { eapply agree_off_trans; [exact Ho1|exact Ho2|done|]. intros a. rewrite <- HP. rewrite elem_of_cons. tauto. }
  assert (HokA : Forall page_ok (P ++ D)) by (apply Forall_app; split; [apply (uvm_wf _ _ _ _ _ Hu)|apply Hu]).
  assert (Hokf : Forall page_ok fl) by apply (uvm_wf _ _ _ _ _ Hu).
  destruct (uvm_seen s s1 _ P D fl fl1 Hu Hu1) as [Hpte1 Humem1].
  { apply (agree_off_agree_on fl); [done..|]. intros a Ha Ha'. pose proof (uvm_nodup _ _ _ _ _ Hu) as Hx.
    rewrite Permutation_app_swap_app, app_assoc in Hx. apply NoDup_app in Hx as (_ & Hx & _). by apply (Hx a). }
  split; [|split; [|split]].
  - exists P2', D2, fl2. split_and!; [done|done| |by rewrite HP2|done].
    intros va Hva. rewrite Hpte', Hsm by lia. by apply Ht.
  - intros va Hva. rewrite Humem', Hpte' by lia. destruct (Hcp va Hva) as [-> ->]. by rewrite Humem1, Hpte1.
  - intros off Hoff. rewrite Em, child_frame_load. unfold sizeof_trapframe, tf_a0 in *.
    replace (p_trapframe y + off - p_trapframe y) with off by lia.
    rewrite <- (Ho (p_trapframe (get_proc p s) + off)); [bool_case; lia || done|].
    apply (not_in_pages _ (p_trapframe (get_proc p s))); [done|apply (fa_tf _ _ _ _ _ _ Hfa)| |unfold PGSIZE; lia].
    intros Ha. apply (fa_tf_own _ _ _ _ _ _ Hfa). elem_tac.
  - eapply agree_off_trans; [exact Ho|exact Hof|done|]. intros a ->%list_elem_of_singleton. rewrite <- HP. elem_tac.
Qed.

Lemma started_proc s s1 i tf root :
  (i < length (k_procs s))%nat -> pm_only (started i tf root s) s1 ->
  get_proc i s1 = new_proc (k_nextpid s) tf root (get_proc i s).
Proof. intros Hi Hpm. rewrite (pm_only_get_proc i _ _ Hpm). exact (get_upd_proc i (new_proc (k_nextpid s) tf root) s Hi). Qed.

(** The end of a fork whose memory was copied: [s2] is the state of [s] with the
    child's slot filled. *)
Lemma fork_finishes s p ip P D fl s2 i tf root :
  forkable s p ip P D fl -> (i < Z.to_nat NPROC)%nat -> p_state (get_proc i s) = UNUSED ->
  pm_only (started i tf root s) s2 ->
  let y := get_proc i s2 in
  exists s', fork_tail p i (get_proc p s) y s2 = Ok (k_nextpid s) s' /\ k_held s' = [] /\ k_freelist s' = k_freelist s2 /\
    k_mem s' = child_frame (k_mem s2) (p_trapframe (get_proc p s)) tf /\ p_trapframe (get_proc i s') = tf /\ p_pagetable (get_proc i s') = root /\
    (memory_copied s (get_proc p s) P D fl s' (get_proc i s') -> forked s p ip P D fl i s').
Proof.
  intros Hfa Hi Hst Hpm y. pose proof (fa_slots _ _ _ _ _ _ Hfa) as [Hlen Hslots].
  destruct (Hslots i Hst Hi) as (_ & _ & _ & _ & Hof).
  assert (Hne : p <> i) by (intros ->; by apply (fa_used _ _ _ _ _ _ Hfa)).
  assert (Hlk : forall j, (j < Z.to_nat NPROC)%nat -> k_procs s !! j = Some (get_proc j s)).
  { intros j Hj. unfold get_proc. destruct (lookup_lt_is_Some_2 (k_procs s) j) as [z Hz]; [lia|]. by rewrite Hz. }
  assert (Ep : k_procs s2 = k_procs (started i tf root s)) by (by rewrite Hpm).
  assert (Hp2 : k_procs s2 !! p = Some (get_proc p s)).
  { rewrite Ep. unfold started, upd_proc. cbn. rewrite list_lookup_alter_ne by done. apply Hlk, Hfa. }
  assert (Hy : exists z, k_procs s2 !! i = Some z /\ z = y).
  { exists y. split; [|done]. unfold y, get_proc. rewrite Ep. unfold started, upd_proc. cbn. by rewrite list_lookup_alter_eq, (Hlk i Hi). }
  destruct Hy as (z & Hz & ->).
  assert (Ey : y = new_proc (k_nextpid s) tf root (get_proc i s)) by (apply (started_proc s s2 i tf root); [lia|done]).
  assert (Es2 : s2 = st s2 [LkProc i] (k_procs s2) (k_ftable s) (k_itable s) (k_mem s2)) by (rewrite Hpm; by destruct s).
  pose proof (fork_tail_spec s2 (k_procs s2) (k_ftable s) (k_itable s) (k_mem s2) p i (get_proc p s) y ip Hne Hp2 Hz
    (fa_files _ _ _ _ _ _ Hfa) ltac:(by rewrite Ey) (fa_cwd _ _ _ _ _ _ Hfa)) as Et.
  rewrite <- Es2 in Et. revert Et. set (s' := st s2 [] _ _ _ _). intros Et.
  assert (Hc : get_proc i s' = child_of p (get_proc p s) y).
  { change (get_proc i s') with (default proc0 (alter (child_of p (get_proc p s)) i (k_procs s2) !! i)). by rewrite list_lookup_alter_eq, Hz. }
  exists s'. rewrite Hc. split; [rewrite Et; by rewrite Ey|]. do 2 (split; [done|]).
  split; [change (k_mem s') with (child_frame (k_mem s2) (p_trapframe (get_proc p s)) (p_trapframe y)); by rewrite Ey|].
  do 2 (split; [by rewrite Ey|]).
  intros Hm. split; [done|]. rewrite Hc. split; [|split; [done|split; [|split]]].
  - rewrite Ey. unfold child_ok, child_of. split_and!; [done..|]. intros j Hj Hnz.
    cbn [p_name set_p_state set_p_parent set_p_name]. unfold safestrcpy_arr. change (16 <=? 0) with false.
    by apply (safestrcpy_arr_prefix 15 _ 0 _ 0).
  - intros j Hj. change (get_proc j s') with (default proc0 (alter (child_of p (get_proc p s)) i (k_procs s2) !! j)).
    rewrite list_lookup_alter_ne by done. rewrite Ep. unfold started, upd_proc. cbn. by rewrite list_lookup_alter_ne.
  - intros f. apply dup_refs_lookup.
  - unfold s'. rewrite Hpm. pose proof (fa_held _ _ _ _ _ _ Hfa) as Hh. destruct s. cbn in Hh. subst. done.
Qed.

Lemma fork_eq s p ip P D fl : forkable s p ip P D fl -> fork s =
  (r <- allocproc ;;
   match r with
   | None => ret (-1)
   | Some np =>
       x <- gets (get_proc p) ;;
       y <- gets (get_proc np) ;;
       r <- uvmcopy (p_pagetable x) (p_pagetable y) (p_sz x) ;;
       if r <? 0 then freeproc np ;;; release (LkProc np) ;;; ret (-1) else fork_tail p np x y
   end) s.
Proof. intros Hfa. unfold fork. by rewrite (bind_Ok _ _ _ _ _ (curproc_Ok _ _ (fa_cur _ _ _ _ _ _ Hfa))). Qed.

(** C4: [fork] by a process that owns the pages [P] and [D] never panics.
    Either it returns a new pid, and the slot of some unused process now holds a
    runnable child of the caller: in the child's memory, made of pages that were
    free, a user program sees the parent's bytes with the parent's permissions;
    its trapframe is the parent's with a0 = 0; it has the parent's descriptors,
    directory and name, and every open file and the directory have one more
    reference per use; nothing else changed.  Or it returns -1, only when the
    process table is full or the free pages are few, and every page it took is
    free again. *)
Theorem fork_correct s p ip P D fl :
  forkable s p ip P D fl ->
  exists r s', fork s = Ok r s' /\
    ((exists np, r = k_nextpid s /\ forked s p ip P D fl np s') \/
     (r = -1 /\ (s' = s /\ (forall i, (i < Z.to_nat NPROC)%nat -> p_state (get_proc i s) <> UNUSED) \/
                 gave_up s fl s' /\ (length fl <= 6 + 3 * length D)%nat))).
Proof.
  intros Hfa. rewrite (fork_eq _ _ _ _ _ _ Hfa). pose proof (fa_uvm _ _ _ _ _ _ Hfa) as Hu.
  destruct (allocproc_spec s fl (fa_held _ _ _ _ _ _ Hfa) (fa_slots _ _ _ _ _ _ Hfa) (wf_free _ _ _ _ (uvm_wf _ _ _ _ _ Hu))) as ([i|] & s1 & E1 & Hpost);
    rewrite (bind_Ok _ _ _ _ _ E1).
  2: { exists (-1), s1. split; [done|]. right. split; [done|]. destruct Hpost as [?|[? ?]]; [by left|right]. split; [done|lia]. }
  destruct Hpost as (Hi & Hst & tf & root & P2 & fl1 & Htf & Hroot & Hpm1 & Hu1 & Ht1 & HP1 & Ho1 & Hlen1).
  pose proof (fa_slots _ _ _ _ _ _ Hfa) as [HN Hslots]. pose proof (Hslots i Hst Hi) as He.
  assert (Hne : p <> i) by (intros ->; by apply (fa_used _ _ _ _ _ _ Hfa)).
  assert (Hx : get_proc p s1 = get_proc p s) by (rewrite (pm_only_get_proc p _ _ Hpm1); exact (get_upd_proc_ne p i _ s Hne)).
  pose proof (started_proc s s1 i tf root ltac:(lia) Hpm1) as Hy.
  assert (Hl1 : LkKmem ∉ k_held s1) by (rewrite (pm_only_held _ _ Hpm1); set_solver).
  destruct (parent_kept s p ip P D fl s1 tf P2 fl1 Hfa Ho1 Hl1 (wf_free _ _ _ _ (uvm_wf _ _ _ _ _ Hu1)) HP1) as [Hold Hnd].
  destruct (uvmcopy_spec s1 _ root P D P2 fl1 (p_sz (get_proc p s)) Hold Hu1) as (r & s2 & P2' & D2 & fl2 & E2 & Hpm2 & Ho2 & Hold2 & Hnew2 & HP2 & Hsm & Hr);
    [by apply NoDup_cons in Hnd as [_ ?]|apply Hfa|apply Hfa|].
  rewrite !bind_gets, Hx. replace (p_pagetable (get_proc i s1)) with root by (by rewrite Hy). rewrite (bind_Ok _ _ _ _ _ E2).
  pose proof (pm_only_trans _ _ _ Hpm1 Hpm2) as Hpm. pose proof (pm_only_get_proc i _ _ Hpm2) as Hy2.
  destruct Hr as [(-> & Hlen & Hcp)|(-> & -> & Hlen)]; cbn [Z.ltb Z.compare].
  - destruct (fork_finishes s p ip P D fl s2 i tf root Hfa Hi Hst Hpm) as (s' & E & Hh & Ef & Em & <- & <- & Hfk).
    rewrite Hy2 in E. exists (k_nextpid s), s'. split; [exact E|]. left. exists i. split; [done|]. apply Hfk.
    by eapply (copied_ok s p ip P D fl s1 s2 s').
  - destruct (abort_spec (-1) s s2 i (new_proc (k_nextpid s) tf root) (i32 (k_nextpid s + 1)) [tf] P2' fl fl2)
      as (s' & E & Hg); [apply Hfa|done|done|exact Hpm|apply (uvm_wf _ _ _ _ _ Hnew2)| | | |].
    + rewrite Hy2, Hy. split; [|split; [by right|]].
      * cbn [app] in *. rewrite HP2, HP1. apply (wf_free _ _ _ _ (uvm_wf _ _ _ _ _ Hu)).
      * right. destruct He as (_ & _ & _ & Esz & _). cbn. rewrite Esz. split_and!; [done|done| |done|done].
        intros va Hva. rewrite Hsm by lia. by apply Ht1.
    + cbn [app] in *. by rewrite HP2.
    + eapply agree_off_trans; [exact Ho1|exact Ho2|done|]. intros a. rewrite <- HP1, elem_of_cons. tauto.
    + exists (-1), s'. split; [exact E|]. right. split; [done|]. right. split; [done|lia].
Qed.
End Fork.

(** A process with one open file on a machine with 16 free pages. *)
Definition fork_linker : Linker.
Proof.
  refine {| kend := PHYSTOP - 16 * PGSIZE; etext := KERNBASE + 2 * PGSIZE;
            trampoline := KERNBASE + PGSIZE |}; abstract (unfold PHYSTOP, KERNBASE, PGSIZE; done || lia).
Defined.
Definition demo_symbols : Symbols := {| sym_forkret := 0; sym_usertrap := 0; sym_uservec := 0; sym_userret := 0; sym_kernelvec := 0 |}.
Definition demo_parent (root tf : Z) : proc :=
  mk_proc RUNNING None 0 0 1 None 0 0 root tf context0 (Some 0%nat :: replicate 15 None) (Some 0%nat) ∅.
Definition demo_caller (root tf : Z) (s : kstate) : kstate :=
  set_k_held [] (set_k_cur (Some 0%nat) (set_k_procs (demo_parent root tf :: replicate 63 proc0)
    (set_k_ftable [set_f_ref 1 file0] s))).

Lemma demo_forkable : exists s root fl, @forkable fork_linker s 0 0 [root] [] fl /\
  p_state (get_proc 1 s) = UNUSED /\ (10 <= length fl)%nat.
Proof.
  destruct (@boot_space fork_linker 11 ltac:(cbn [kend fork_linker]; unfold PGSIZE; lia)) as (s & root & fl & Hu & _ & Hlen). pose proof (uvm_wf _ _ _ _ _ Hu) as Hwf.
  destruct fl as [|tf rest]; [simpl in Hlen; lia|].
  destruct (@kalloc_free fork_linker s (tf :: rest) (wf_lock _ _ _ _ Hwf) (wf_free _ _ _ _ Hwf)) as (s1 & _ & Hpm & Hinv & Ho).
  pose proof (wf_free _ _ _ _ Hwf) as (_ & [Hn1 _]%NoDup_cons & [Htf _]%Forall_cons).
  pose proof (uvm_nodup _ _ _ _ _ Hu) as Hnd. simpl in Hnd. apply NoDup_cons in Hnd as [Hn2 Hnd].
  assert (Hne : tf <> root) by (intros ->; apply Hn2; elem_tac).
  assert (Hu1 : @uvm fork_linker s1 root [root] [] rest).
  { apply (@uvm_agree fork_linker s s1 root [root] [] (tf :: rest) rest Hu); [|by rewrite (pm_only_held _ _ Hpm); apply Hwf|done|].
    - apply (@agree_off_agree_on fork_linker [tf]); [done|auto|apply Hwf|]. by intros x ->%list_elem_of_singleton ->%list_elem_of_singleton.
    - simpl. apply NoDup_cons in Hnd as [_ ?]. apply NoDup_cons. split; [|done]. intros Hx. apply Hn2. elem_tac. }
  exists (demo_caller root tf s1), root, rest. split; [|split; [done|simpl in Hlen; lia]].
  assert (Hp : get_proc 0 (demo_caller root tf s1) = demo_parent root tf) by done.
  split; rewrite ?Hp; try done; [split|..].
  - done.
  - intros [|i] Hst Hi; [done|]. change (get_proc (S i) (demo_caller root tf s1)) with (default proc0 (replicate 63 proc0 !! i)).
    rewrite lookup_replicate_2 by (unfold NPROC in Hi; lia). done.
  - unfold NPROC. lia.
  - apply (@uvm_frame fork_linker s1); [done|done|set_solver|done].
  - cbn [p_trapframe demo_parent app]. rewrite not_elem_of_cons. done.
  - split; [done|]. intros f [[= ->]|[Hf _]%elem_of_replicate]%elem_of_cons; [|done]. by exists (set_f_ref 1 file0).
Qed.

Lemma fork_correct_witness :
  exists s root fl np s', @fork fork_linker demo_symbols s = Ok (k_nextpid s) s' /\
    @forked fork_linker demo_symbols s 0 0 [root] [] fl np s'.
Proof.
  destruct demo_forkable as (s & root & fl & Hfa & Hfree & Hlen). exists s, root, fl.
  destruct (@fork_correct fork_linker demo_symbols s 0 0 [root] [] fl Hfa) as (r & s' & E & [(np & -> & Hf)|(_ & [(_ & Hno)|(_ & Hfew)])]).
  - by exists np, s'.
  - exfalso. apply (Hno 1%nat); [unfold NPROC; lia|done].
  - simpl in Hfew. lia.
Defined.
