(* ===== verification/SchedSpec.v ===== *)
(** Sleeping and waking up, kill and exit (kernel/proc.c): what the other
    processes see, and that no wakeup is lost. *)
From S2P Require Import Prelude State Locks Kstring Kalloc Vm Sched Sleeplock Bio Log Uart Kprintf Either Fs Pipe Console File Proc.

Lemma get_proc_all g i s :
  (i < length (k_procs s))%nat -> get_proc i (set_k_procs (imap g (k_procs s)) s) = g i (get_proc i s).
Proof.
  intros Hi. unfold get_proc. cbn. rewrite list_lookup_imap.
  by destruct (lookup_lt_is_Some_2 _ _ Hi) as [p ->].
Qed.

Lemma upd_proc_ext i p f g s : k_procs s !! i = Some p -> f p = g p -> upd_proc i f s = upd_proc i g s.
Proof.
  intros Hp E. unfold upd_proc. f_equal. apply list_alter_ext; [|done]. intros q. rewrite Hp. by intros [= <-].
Qed.

Lemma dispatch_spec i s :
  k_held s = [] -> (i < length (k_procs s))%nat ->
  dispatch i s =
    if bool_decide (p_state (get_proc i s) = RUNNABLE)
    then Ok true (set_k_cur (Some i) (upd_proc i (set_p_state RUNNING) (set_k_held [LkProc i] s)))
    else Ok false s.
Proof.
  intros Hh Hi. unfold dispatch.
  rewrite (bind_Ok _ _ _ _ _ (acquire_Ok (LkProc i) s ltac:(rewrite Hh; apply not_elem_of_nil))), Hh, bind_gets.
  change (get_proc i (set_k_held [LkProc i] s)) with (get_proc i s). case_bool_decide.
  - by rewrite !bind_modify.
  - erewrite (bind_Ok (release _)) by (apply (release_Ok _ _ []); [done|apply not_elem_of_nil]).
    unfold ret. f_equal. destruct s; cbn in *. by subst.
Qed.

Lemma sleep_resume_spec lk i s :
  k_cur s = Some i -> k_held s = [LkProc i] ->
  sleep_resume lk s = Ok tt (set_k_held [lk] (upd_proc i (set_p_chan None) s)).
Proof.
  intros Hc Hh. unfold sleep_resume. rewrite (bind_Ok _ _ _ _ _ (curproc_Ok _ _ Hc)), bind_modify.
  erewrite (bind_Ok (release _)) by (apply (release_Ok _ _ []); [done|apply not_elem_of_nil]).
  rewrite acquire_Ok by (cbn; apply not_elem_of_nil). by destruct s.
Qed.

(** A process that calls [sleep] gives up its lock and is asleep.  However
    the other processes change the kernel meanwhile, as long as they leave the
    process as it is: a [wakeup] of the channel, run by another process or an
    interrupt, makes it RUNNABLE, and when the scheduler chooses it, [sleep]
    returns in it with the lock held again, the channel cleared and nothing else
    of the process changed. *)
Theorem sleep_until_wakeup s i lk ch :
  k_cur s = Some i -> k_held s = [lk] -> lk <> LkProc i -> (i < Z.to_nat NPROC)%nat ->
  length (k_procs s) = Z.to_nat NPROC ->
  exists s1, sleep ch lk s = Block ch s1 /\ k_held s1 = [] /\ k_cur s1 = None /\
    p_state (get_proc i s1) = SLEEPING /\
    forall t, length (k_procs t) = Z.to_nat NPROC -> (forall j, LkProc j ∉ k_held t) -> k_cur t <> Some i ->
      get_proc i t = get_proc i s1 ->
      exists t1, wakeup ch t = Ok tt t1 /\ p_state (get_proc i t1) = RUNNABLE /\
        forall u, length (k_procs u) = Z.to_nat NPROC -> k_held u = [] -> get_proc i u = get_proc i t1 ->
          exists u1 u2, dispatch i u = Ok true u1 /\ sleep_resume lk u1 = Ok tt u2 /\
            k_cur u2 = Some i /\ k_held u2 = [lk] /\
            get_proc i u2 = set_p_chan None (set_p_state RUNNING (get_proc i s)).
Proof.
  intros Hc Hh Hne Hi Hlen. eexists. split; [apply sleep_spec; (done || lia)|].
  assert (E1 : forall f, get_proc i (set_k_cur None (set_k_held [] (upd_proc i f s))) = f (get_proc i s))
    by (intros f; apply (get_upd_proc i f s); lia).
  rewrite !E1. split; [done|]. split; [done|]. split; [done|]. intros t Ht Hl Hcur Et.
  eexists. split; [by apply wakeup_spec|].
  assert (E2 : get_proc i (set_k_procs (imap (woken (k_cur t) ch) (k_procs t)) t) = set_p_state RUNNABLE (asleep ch (get_proc i s))).
  { rewrite get_proc_all, Et by lia. unfold woken.
    rewrite bool_decide_eq_false_2, !bool_decide_eq_true_2 by done. done. }
  rewrite E2. split; [done|]. intros u Hu Hhu Eu.
  eexists _, _. split; [rewrite dispatch_spec by (done || lia); rewrite bool_decide_eq_true_2 by (by rewrite Eu); reflexivity|].
  split; [by apply sleep_resume_spec|]. split; [done|]. split; [done|].
  assert (E3 : forall f c h h', get_proc i (set_k_held h' (upd_proc i f (set_k_cur c (upd_proc i (set_p_state RUNNING) (set_k_held h u))))) =
    f (set_p_state RUNNING (get_proc i u))).
  { intros f c h h'. transitivity (get_proc i (upd_proc i f (upd_proc i (set_p_state RUNNING) u))); [done|].
    rewrite upd_proc_twice. apply get_upd_proc. lia. }
  rewrite E3, Eu. by destruct (get_proc i s).
Qed.

Lemma sleep_until_wakeup_witness :
  exists s s1 t1 u1 u2, sleep ChTicks LkTicks s = Block ChTicks s1 /\
    wakeup ChTicks (set_k_cur (Some 1%nat) s1) = Ok tt t1 /\
    dispatch 0 (set_k_cur None t1) = Ok true u1 /\ sleep_resume LkTicks u1 = Ok tt u2 /\ k_held u2 = [LkTicks].
Proof.
  set (s := set_k_held [LkTicks] (set_k_cur (Some 0%nat) kstate0)).
  destruct (sleep_until_wakeup s 0 LkTicks ChTicks) as (s1 & E1 & Hh1 & _ & _ & Hw);
    [reflexivity|reflexivity|discriminate|vm_compute; lia|reflexivity|].
  assert (Hlen : length (k_procs s1) = Z.to_nat NPROC).
  { revert E1. rewrite (sleep_spec ChTicks LkTicks s 0) by (first [reflexivity|discriminate|vm_compute; lia]).
    intros [= <-]. reflexivity. }
  destruct (Hw (set_k_cur (Some 1%nat) s1)) as (t1 & E2 & _ & Hd);
    [exact Hlen|intros j; cbn; rewrite Hh1; apply not_elem_of_nil|discriminate|reflexivity|].
  assert (Et : t1 = set_k_procs (imap (woken (Some 1%nat) ChTicks) (k_procs s1)) (set_k_cur (Some 1%nat) s1)).
  { revert E2. rewrite wakeup_spec; [|intros j; cbn; rewrite Hh1; apply not_elem_of_nil|exact Hlen]. intros [= <-]. reflexivity. }
  destruct (Hd (set_k_cur None t1)) as (u1 & u2 & E3 & E4 & _ & Hh & _).
  - rewrite Et. cbn. rewrite length_imap. exact Hlen.
  - rewrite Et. cbn. exact Hh1.
  - reflexivity.
  - exists s, s1, t1, u1, u2. repeat split; assumption.
Defined.

(** * Searching the process table *)

Fixpoint find_proc (P : proc -> bool) (ps : list proc) (k : nat) : option nat :=
  match ps with
  | [] => None
  | p :: ps => if P p then Some k else find_proc P ps (S k)
  end.

(** A loop over the table that ends at the first process with [P]. *)
Lemma for_first {A} (body : Z -> K (option A)) (P : proc -> bool) (act : nat -> res chan kstate (option A)) s :
  (forall i p, k_procs s !! i = Some p -> body (Z.of_nat i) s = if P p then act i else Ok None s) ->
  length (k_procs s) = Z.to_nat NPROC -> (forall i s', act i <> Ok None s') ->
  for_loop (Z.to_nat NPROC) 0 body s = match find_proc P (k_procs s) 0 with Some i => act i | None => Ok None s end.
Proof.
  intros Hb Hlen Hact. rewrite <- Hlen.
  enough (H : forall k l, (forall i p, l !! i = Some p -> k_procs s !! (k + i)%nat = Some p) ->
    for_loop (length l) (Z.of_nat k) body s = match find_proc P l k with Some i => act i | None => Ok None s end)
    by (apply (H 0%nat); done).
  intros k l. revert k. induction l as [|p l IH]; intros k Hl; cbn [length for_loop find_proc]; [done|].
  pose proof (Hl 0%nat p eq_refl) as Hp. rewrite Nat.add_0_r in Hp. specialize (Hb k p Hp). destruct (P p).
  - unfold bind. rewrite Hb. specialize (Hact k). destruct (act k) as [[a|] s'| | |]; (done || by destruct (Hact s')).
  - rewrite (bind_Ok _ _ _ _ _ Hb). replace (Z.of_nat k + 1) with (Z.of_nat (S k)) by lia. apply IH.
    intros i q Hq. replace (S k + i)%nat with (k + S i)%nat by lia. by apply Hl.
Qed.

Definition kill_mark (p : proc) : proc :=
  let p' := set_p_killed 1 p in
  if bool_decide (p_state p = SLEEPING) then set_p_state RUNNABLE p' else p'.

(** [kill] marks the first process of the table with this pid and makes it
    RUNNABLE if it sleeps, and changes nothing else; without such a process it
    returns -1 and changes nothing.  It never sleeps or panics. *)
Theorem kill_marks pid s :
  (forall i, LkProc i ∉ k_held s) -> length (k_procs s) = Z.to_nat NPROC ->
  kill pid s = match find_proc (fun p => p_pid p =? pid) (k_procs s) 0 with
               | Some i => Ok 0 (upd_proc i kill_mark s)
               | None => Ok (-1) s
               end.
Proof.
  intros Hl Hlen. unfold kill, bind at 1. erewrite (for_first _ (fun p => p_pid p =? pid)
    (fun i => Ok (Some 0) (upd_proc i kill_mark s))); [by destruct (find_proc _ _ _)| |done|done].
  intros i p Hp. cbv beta. rewrite Nat2Z.id, (bind_Ok _ _ _ _ _ (acquire_Ok _ _ (Hl i))), bind_gets.
  assert (Eg : get_proc i (set_k_held (LkProc i :: k_held s) s) = p) by (unfold get_proc; cbn; by rewrite Hp).
  assert (Er : forall g, release (LkProc i) (upd_proc i g (set_k_held (LkProc i :: k_held s) s)) = Ok tt (upd_proc i g s)).
  { intros g. rewrite (release_Ok _ _ (k_held s)) by (done || apply Hl). by destruct s. }
  rewrite Eg. destruct (p_pid p =? pid).
  - rewrite bind_modify. destruct (bool_decide (p_state p = SLEEPING)) eqn:Est; cbn [when].
    + rewrite bind_modify, upd_proc_twice, (bind_Ok _ _ _ _ _ (Er _)). unfold ret. f_equal. apply (upd_proc_ext i p); [done|].
      unfold kill_mark. by rewrite Est.
    + rewrite bind_ret, (bind_Ok _ _ _ _ _ (Er _)). unfold ret. f_equal. apply (upd_proc_ext i p); [done|].
      unfold kill_mark. by rewrite Est.
  - rewrite (bind_Ok _ _ _ tt s); [done|]. rewrite (release_Ok _ _ (k_held s)) by (done || apply Hl). by destruct s.
Qed.

Lemma kill_marks_witness :
  kill 7 kstate0 = Ok (-1) kstate0 /\ exists s', kill 0 kstate0 = Ok 0 s' /\ p_killed (get_proc 0 s') = 1.
Proof.
  assert (Hl : forall i, LkProc i ∉ k_held kstate0) by (intros i; apply not_elem_of_nil).
  pose proof (kill_marks 7 kstate0 Hl eq_refl) as H7. pose proof (kill_marks 0 kstate0 Hl eq_refl) as H0.
  split; [exact H7|]. eexists. split; [exact H0|reflexivity].
Defined.

(** * exit *)

Definition is_child (p : nat) (q : proc) : bool := bool_decide (p_parent q = Some p).
(** pp->parent = initproc for the children of [p] *)
Definition adopt (p : nat) (init : option nat) (q : proc) : proc :=
  if is_child p q then set_p_parent init q else q.

Lemma woken_set_parent cur ch i v q : woken cur ch i (set_p_parent v q) = set_p_parent v (woken cur ch i q).
Proof. unfold woken. cbn. by destruct (negb _ && _ && _). Qed.
Lemma woken_parent cur ch i q : p_parent (woken cur ch i q) = p_parent q.
Proof. unfold woken. by destruct (negb _ && _ && _). Qed.

(** The table after the children among the first [j] processes were given to
    [init]: the wakeups happen if there was one. *)
Definition reparented (cur : option nat) (p init : nat) (ps : list proc) (j : nat) : list proc :=
  let ps' := imap (fun i q => if (i <? j)%nat then adopt p (Some init) q else q) ps in
  if existsb (is_child p) (take j ps) then imap (woken cur (ChProc init)) ps' else ps'.

Lemma reparented_0 cur p init ps : reparented cur p init ps 0 = ps.
Proof.
  unfold reparented. rewrite take_0. cbn [existsb]. apply list_eq. intros i. rewrite list_lookup_imap. by destruct (ps !! i).
Qed.

Lemma length_reparented cur p init ps j : length (reparented cur p init ps j) = length ps.
Proof. unfold reparented. case_match; by rewrite ?length_imap. Qed.

Lemma reparented_lookup cur p init ps j q :
  ps !! j = Some q -> exists q', reparented cur p init ps j !! j = Some q' /\ p_parent q' = p_parent q.
Proof.
  intros Hq. unfold reparented. case_match; [rewrite list_lookup_imap|];
    rewrite (lookup_imap_prefix (fun _ => adopt p (Some init))), Hq; eexists; (split; [reflexivity|]); by rewrite ?woken_parent.
Qed.

Lemma reparented_S cur p init ps j q :
  ps !! j = Some q ->
  reparented cur p init ps (S j) =
  if is_child p q then imap (woken cur (ChProc init)) (alter (set_p_parent (Some init)) j (reparented cur p init ps j))
  else reparented cur p init ps j.
Proof.
  intros Hq. unfold reparented. rewrite (take_S_r _ _ _ Hq), existsb_app. cbn [existsb]. rewrite orb_false_r.
  assert (Epre : imap (fun i q => if (i <? S j)%nat then adopt p (Some init) q else q) ps =
    alter (adopt p (Some init)) j (imap (fun i q => if (i <? j)%nat then adopt p (Some init) q else q) ps))
    by (symmetry; apply (alter_imap_prefix (fun _ => adopt p (Some init)))).
  rewrite Epre. set (pre := imap _ ps).
  assert (Hpre : pre !! j = Some q) by (unfold pre; by rewrite (lookup_imap_prefix (fun _ => adopt p (Some init)))).
  assert (Ea : alter (adopt p (Some init)) j pre = if is_child p q then alter (set_p_parent (Some init)) j pre else pre).
  { destruct (is_child p q) eqn:Ec.
    - apply list_alter_ext; [|done]. intros x. rewrite Hpre. intros [= <-]. unfold adopt. by rewrite Ec.
    - rewrite <- (list_alter_id (fun x => x) pre j) at 2 by done. apply list_alter_ext; [|done]. intros x. rewrite Hpre.
      intros [= <-]. unfold adopt. by rewrite Ec. }
  rewrite Ea. destruct (is_child p q); [|by rewrite orb_false_r]. rewrite orb_true_r.
  destruct (existsb (is_child p) (take j ps)); [|done].
  apply list_eq. intros i. rewrite !list_lookup_imap. destruct (decide (i = j)) as [->|Hne].
  - rewrite !list_lookup_alter_eq, list_lookup_imap, Hpre. cbn. by rewrite !woken_set_parent, woken_idem.
  - rewrite !list_lookup_alter_ne, list_lookup_imap by done. destruct (pre !! i); [|done]. cbn. by rewrite woken_idem.
Qed.

Lemma reparent_spec p init s :
  (forall i, LkProc i ∉ k_held s) -> length (k_procs s) = Z.to_nat NPROC -> k_initproc s = Some init ->
  reparent p s = Ok tt (set_k_procs (reparented (k_cur s) p init (k_procs s) (Z.to_nat NPROC)) s).
Proof.
  intros Hl Hlen Hin. unfold reparent.
  match goal with |- context [for_loop (Z.to_nat NPROC) 0 ?b] =>
    destruct (for_loop_inv (Z.to_nat NPROC) 0 b
      (fun j t => t = set_k_procs (reparented (k_cur s) p init (k_procs s) (Z.to_nat j)) s) s) as (s' & E & ->) end.
  - intros j t Hj ->. destruct (lookup_lt_is_Some_2 (k_procs s) (Z.to_nat j)) as [q Hq]; [lia|].
    eexists. split; [|reflexivity]. replace (Z.to_nat (j + 1)) with (S (Z.to_nat j)) by lia.
    rewrite (reparented_S _ _ _ _ _ _ Hq). destruct (reparented_lookup (k_cur s) p init _ _ _ Hq) as (q' & Hq' & Epar).
    rewrite bind_gets. unfold get_proc. cbn [k_procs set_k_procs]. rewrite Hq'. cbn [default from_option id]. rewrite Epar.
    unfold is_child. destruct (bool_decide (p_parent q = Some p)); cbn [when].
    + rewrite bind_assoc, bind_gets, bind_assoc. cbn [k_initproc set_k_procs]. rewrite Hin, bind_modify. cbn [wakeup_proc].
      rewrite (bind_Ok _ _ _ _ _ (wakeup_spec (ChProc init) (upd_proc (Z.to_nat j) (set_p_parent (Some init))
        (set_k_procs (reparented (k_cur s) p init (k_procs s) (Z.to_nat j)) s)) Hl
        ltac:(cbn; by rewrite length_alter, length_reparented))). done.
    + by rewrite bind_ret.
  - cbn [Z.to_nat]. rewrite reparented_0. by destruct s.
  - by rewrite (bind_Ok _ _ _ _ _ E).
Qed.

Definition zombie (status : Z) (p : proc) : proc := set_p_state ZOMBIE (set_p_xstate status p).

Lemma exit_tail_spec p pp init status s :
  k_cur s = Some p -> k_held s = [] -> length (k_procs s) = Z.to_nat NPROC -> (p < length (k_procs s))%nat ->
  k_initproc s = Some init -> p_parent (get_proc p s) = Some pp -> pp <> p ->
  exit_tail p status s = Block ChRun (set_k_cur None (set_k_procs (alter (zombie status) p
    (imap (woken (Some p) (ChProc pp)) (reparented (Some p) p init (k_procs s) (Z.to_nat NPROC)))) s)).
Proof.
  intros Hc Hh Hlen Hp Hin Hpp Hne. unfold exit_tail.
  rewrite (bind_Ok _ _ _ _ _ (acquire_Ok LkWait s ltac:(rewrite Hh; apply not_elem_of_nil))), Hh.
  set (s0 := set_k_held [LkWait] s).
  assert (Hl : forall i, LkProc i ∉ [LkWait]) by (intros i; set_solver).
  rewrite (bind_Ok _ _ _ _ _ (reparent_spec p init s0 Hl Hlen Hin)). change (k_cur s0) with (k_cur s). rewrite Hc.
  change (k_procs s0) with (k_procs s). set (ps1 := reparented (Some p) p init (k_procs s) (Z.to_nat NPROC)).
  rewrite bind_gets.
  assert (Hpar : p_parent (get_proc p (set_k_procs ps1 s0)) = Some pp).
  { unfold get_proc. cbn [k_procs set_k_procs]. destruct (lookup_lt_is_Some_2 _ _ Hp) as [q Hq].
    assert (Hpq : p_parent q = Some pp) by (unfold get_proc in Hpp; by rewrite Hq in Hpp).
    assert (Ead : adopt p (Some init) q = q) by (unfold adopt, is_child; rewrite bool_decide_eq_false_2; [done|congruence]).
    unfold ps1, reparented. case_match; rewrite !list_lookup_imap, Hq; cbn [fmap option_fmap option_map default from_option id];
      rewrite Ead; destruct (p <? Z.to_nat NPROC)%nat; by rewrite ?woken_parent. }
  rewrite Hpar. cbn [wakeup_proc].
  erewrite (bind_Ok (wakeup _)) by (apply wakeup_spec; [exact Hl|cbn; unfold ps1; by rewrite length_reparented]).
  cbn [k_cur k_procs set_k_procs set_k_held s0]. rewrite Hc. set (ps2 := imap _ ps1).
  erewrite (bind_Ok (acquire _)) by (apply acquire_Ok; apply Hl). rewrite !bind_modify, upd_proc_twice.
  assert (Hp2 : (p < length ps2)%nat) by (unfold ps2, ps1; by rewrite length_imap, length_reparented).
  change (set_p_state ZOMBIE ∘ set_p_xstate status) with (zombie status).
  set (s2 := upd_proc p (zombie status) _).
  assert (Er : release LkWait s2 = Ok tt (set_k_held [LkProc p] s2)) by (unfold release, holding; cbn; done).
  rewrite (bind_Ok _ _ _ _ _ Er). unfold bind at 1, sched.
  rewrite (bind_Ok _ _ _ _ _ (curproc_Ok (set_k_held [LkProc p] s2) p Hc)), bind_gets. unfold holding. rewrite bool_decide_eq_true_2 by (cbn; set_solver). cbn [negb]. rewrite bind_gets.
  change (Z.of_nat (length (k_held (set_k_held [LkProc p] s2))) =? 1) with true. cbn [negb]. rewrite bind_gets.
  assert (Est : p_state (get_proc p (set_k_held [LkProc p] s2)) = ZOMBIE).
  { unfold s2, get_proc, upd_proc. cbn [k_procs set_k_procs set_k_held]. rewrite list_lookup_alter_eq.
    by destruct (lookup_lt_is_Some_2 _ _ Hp2) as [q ->]. }
  rewrite Est, bool_decide_eq_false_2 by done. f_equal. destruct s; cbn in *. by subst.
Qed.

Lemma woken_state cur ch i q :
  cur <> Some i ->
  woken cur ch i q = set_p_state (if bool_decide (p_state q = SLEEPING) && bool_decide (p_chan q = Some ch) then RUNNABLE else p_state q) q.
Proof.
  intros Hne. unfold woken. rewrite (bool_decide_eq_false_2 (cur = Some i)) by done. cbn [negb andb].
  destruct (_ && _); [done|by destruct q].
Qed.

(** Entry [i] of the table after exit. *)
Definition after_exit (p pp init : nat) (ps : list proc) (i : nat) (q : proc) : proc :=
  let q := adopt p (Some init) q in
  let q := if existsb (is_child p) ps then woken (Some p) (ChProc init) i q else q in
  woken (Some p) (ChProc pp) i q.

Lemma reparented_all cur p init ps i q :
  ps !! i = Some q ->
  reparented cur p init ps (length ps) !! i =
  Some (if existsb (is_child p) ps then woken cur (ChProc init) i (adopt p (Some init) q) else adopt p (Some init) q).
Proof.
  intros Hq. unfold reparented. rewrite take_ge by lia.
  rewrite (imap_prefix_all (fun _ => adopt p (Some init))) by lia.
  destruct (existsb (is_child p) ps); by rewrite !list_lookup_imap, Hq.
Qed.

Lemma exit_get p pp init status s i s' :
  length (k_procs s) = Z.to_nat NPROC -> (i < length (k_procs s))%nat ->
  s' = set_k_cur None (set_k_procs (alter (zombie status) p
    (imap (woken (Some p) (ChProc pp)) (reparented (Some p) p init (k_procs s) (Z.to_nat NPROC)))) s) ->
  get_proc i s' = (if decide (i = p) then zombie status else id) (after_exit p pp init (k_procs s) i (get_proc i s)).
Proof.
  intros Hlen Hi ->. destruct (lookup_lt_is_Some_2 _ _ Hi) as [q Hq]. unfold get_proc at 1 2. rewrite Hq.
  cbn [k_procs set_k_cur set_k_procs default from_option id].
  assert (E : imap (woken (Some p) (ChProc pp)) (reparented (Some p) p init (k_procs s) (Z.to_nat NPROC)) !! i =
    Some (after_exit p pp init (k_procs s) i q)).
  { rewrite list_lookup_imap, <- Hlen, (reparented_all _ _ _ _ _ _ Hq). done. }
  destruct (decide (i = p)) as [->|Hne].
  - by rewrite list_lookup_alter_eq, E.
  - by rewrite list_lookup_alter_ne, E.
Qed.

Lemma after_exit_spec p pp init ps i q :
  i <> p ->
  let q' := after_exit p pp init ps i q in
  p_parent q' = (if is_child p q then Some init else p_parent q) /\
  p_state q' = (if bool_decide (p_state q = SLEEPING) &&
                   (bool_decide (p_chan q = Some (ChProc pp)) || existsb (is_child p) ps && bool_decide (p_chan q = Some (ChProc init)))
                then RUNNABLE else p_state q) /\
  q' = set_p_state (p_state q') (set_p_parent (p_parent q') q).
Proof.
  intros Hne q'. subst q'. unfold after_exit. set (orph := existsb (is_child p) ps).
  rewrite (woken_state _ (ChProc pp)) by congruence. rewrite (woken_state _ (ChProc init)) by congruence.
  unfold adopt. destruct q as [st ch ki xs pid par ks sz pt tf co fs cw nm].
  destruct (is_child p _), orph; cbn [set_p_state set_p_parent p_state p_parent p_chan andb orb negb]; rewrite ?orb_false_r;
    destruct (bool_decide (st = SLEEPING)) eqn:Es; cbn [andb]; rewrite ?Es;
    destruct (bool_decide (ch = Some (ChProc pp))), (bool_decide (ch = Some (ChProc init))); cbn [andb orb];
    rewrite ?Es, ?(bool_decide_eq_false_2 (RUNNABLE = SLEEPING)) by done; done.
Qed.

(** C25: the end of [exit], once the files are closed.  The process becomes a
    zombie with its exit status and gives up the CPU for good with no lock held.
    Its children now have init as their parent; a process asleep in wait is
    made RUNNABLE if it is the parent, or if it is init and there were children;
    no other field of any process, and nothing else of the kernel, changes. *)
Theorem exit_makes_zombie p pp init status s :
  k_cur s = Some p -> k_held s = [] -> length (k_procs s) = Z.to_nat NPROC -> (p < length (k_procs s))%nat ->
  k_initproc s = Some init -> p_parent (get_proc p s) = Some pp -> pp <> p ->
  exists s', exit_tail p status s = Block ChRun s' /\
    s' = set_k_cur None (set_k_procs (k_procs s') s) /\
    get_proc p s' = set_p_state ZOMBIE (set_p_xstate status (get_proc p s)) /\
    forall i, (i < length (k_procs s))%nat -> i <> p ->
      let q := get_proc i s in
      let q' := get_proc i s' in
      p_parent q' = (if is_child p q then Some init else p_parent q) /\
      p_state q' = (if bool_decide (p_state q = SLEEPING) &&
                       (bool_decide (p_chan q = Some (ChProc pp)) ||
                        existsb (is_child p) (k_procs s) && bool_decide (p_chan q = Some (ChProc init)))
                    then RUNNABLE else p_state q) /\
      q' = set_p_state (p_state q') (set_p_parent (p_parent q') q).
Proof.
  intros Hc Hh Hlen Hp Hin Hpp Hne. eexists. split; [by eapply exit_tail_spec|].
  split; [done|]. split.
  - rewrite (exit_get p pp init status s p _ Hlen Hp eq_refl), decide_True by done. unfold zombie. f_equal. f_equal.
    assert (Ec : is_child p (get_proc p s) = false) by (apply bool_decide_eq_false_2; congruence).
    unfold after_exit, adopt. rewrite Ec. unfold woken. rewrite (bool_decide_eq_true_2 (Some p = Some p)) by done. cbn [negb andb]. by destruct (existsb _ _).
  - intros i Hi Hip q q'. subst q q'. rewrite (exit_get p pp init status s i _ Hlen Hi eq_refl), decide_False by done.
    by apply after_exit_spec.
Qed.

(** Process 2 exits; its parent 1 waits, and its child 3 goes to init, process 0. *)
Definition demo_family : kstate :=
  set_k_cur (Some 2%nat) (set_k_initproc (Some 0%nat)
    (upd_proc 3 (set_p_parent (Some 2%nat)) (upd_proc 2 (fun p => set_p_state RUNNING (set_p_parent (Some 1%nat) p))
      (upd_proc 1 (asleep (ChProc 1)) kstate0)))).

Lemma exit_makes_zombie_witness :
  exists s', exit_tail 2 7 demo_family = Block ChRun s' /\ p_state (get_proc 2 s') = ZOMBIE /\
    p_xstate (get_proc 2 s') = 7 /\ p_state (get_proc 1 s') = RUNNABLE /\ p_parent (get_proc 3 s') = Some 0%nat.
Proof.
  destruct (exit_makes_zombie 2 1 0 7 demo_family) as (s' & E & _ & E2 & Hall);
    [reflexivity|reflexivity|reflexivity|vm_compute; lia|reflexivity|reflexivity|discriminate|].
  exists s'. split; [exact E|]. rewrite E2. split; [reflexivity|]. split; [reflexivity|].
  destruct (Hall 1%nat) as (_ & -> & _); [vm_compute; lia|discriminate|].
  destruct (Hall 3%nat) as (-> & _ & _); [vm_compute; lia|discriminate|]. split; reflexivity.
Defined.
