(* ===== verification/SleepWake.v ===== *)
(** sleep() and wakeup() interleaved on several harts (kernel/proc.c).  The
    processes use a condition under a lock [lk] the way the kernel does:

      waiting:  acquire(lk); while(!cond) sleep(chan, lk); ...; release(lk);
      waking:   acquire(lk); cond = 1; wakeup(chan); release(lk);

    A step of a process is one acquire, release or access of sleep() or
    wakeup(), or the choice of the process by the scheduler; an acquire is
    possible when the lock is free.  A process that found the condition may
    make it false again before it releases the lock. *)
From S2P Require Import Prelude State.

(** Where a process is in the code. *)
Inductive pc : Type :=
| Out                       (* holds no lock *)
| Test                      (* while(!cond) *)
| Crit                      (* the condition holds *)
| SAcq                      (* sleep: acquire(&p->lock) *)
| SRel                      (* release(lk) *)
| SChan                     (* p->chan = chan *)
| SState                    (* p->state = SLEEPING *)
| SSwtch                    (* sched(); the scheduler releases p->lock *)
| Asleep                    (* not running *)
| RChan                     (* back from sched(): p->chan = 0 *)
| RRel                      (* release(&p->lock) *)
| RAcq                      (* acquire(lk) *)
| Set_                      (* cond = 1 *)
| Wake (j : nat)            (* wakeup: at proc[j] in the loop *)
| Look (j : nat).           (* proc[j].lock is held *)

Record world : Type := mk_world {
  w_lk : option nat ;                  (* the holder of lk *)
  w_plk : nat -> option nat ;          (* the holders of the p->lock *)
  w_cond : bool ;
  w_state : nat -> procstate ;
  w_chan : nat -> bool ;               (* p->chan == chan *)
  w_pc : nat -> pc
}.

Definition upd {A} (f : nat -> A) (i : nat) (v : A) : nat -> A := fun j => if decide (j = i) then v else f j.

Lemma upd_eq {A} (f : nat -> A) i v : upd f i v i = v.
Proof. unfold upd. by rewrite decide_True. Qed.
Lemma upd_ne {A} (f : nat -> A) i j v : j <> i -> upd f i v j = f j.
Proof. intros Hne. unfold upd. by rewrite decide_False. Qed.

Section SleepWake.
Context (N : nat).

(** The steps of process [i]. *)
Inductive step (i : nat) : world -> world -> Prop :=
| enter_wait pl c st ch p : p i = Out ->
    step i (mk_world None pl c st ch p) (mk_world (Some i) pl c st ch (upd p i Test))
| enter_wake pl c st ch p : p i = Out ->
    step i (mk_world None pl c st ch p) (mk_world (Some i) pl c st ch (upd p i Set_))
| test_true l pl st ch p : p i = Test ->
    step i (mk_world l pl true st ch p) (mk_world l pl true st ch (upd p i Crit))
| test_false l pl st ch p : p i = Test ->
    step i (mk_world l pl false st ch p) (mk_world l pl false st ch (upd p i SAcq))
| crit_leave l pl c st ch p keep : p i = Crit ->
    step i (mk_world l pl c st ch p) (mk_world None pl (c && keep) st ch (upd p i Out))
| sleep_acquire l pl c st ch p : p i = SAcq -> pl i = None ->
    step i (mk_world l pl c st ch p) (mk_world l (upd pl i (Some i)) c st ch (upd p i SRel))
| sleep_release l pl c st ch p : p i = SRel ->
    step i (mk_world l pl c st ch p) (mk_world None pl c st ch (upd p i SChan))
| sleep_chan l pl c st ch p : p i = SChan ->
    step i (mk_world l pl c st ch p) (mk_world l pl c st (upd ch i true) (upd p i SState))
| sleep_state l pl c st ch p : p i = SState ->
    step i (mk_world l pl c st ch p) (mk_world l pl c (upd st i SLEEPING) ch (upd p i SSwtch))
| sleep_sched l pl c st ch p : p i = SSwtch ->
    step i (mk_world l pl c st ch p) (mk_world l (upd pl i None) c st ch (upd p i Asleep))
| schedule l pl c st ch p : p i = Asleep -> st i = RUNNABLE -> pl i = None ->
    step i (mk_world l pl c st ch p) (mk_world l (upd pl i (Some i)) c (upd st i RUNNING) ch (upd p i RChan))
| resume_chan l pl c st ch p : p i = RChan ->
    step i (mk_world l pl c st ch p) (mk_world l pl c st (upd ch i false) (upd p i RRel))
| resume_release l pl c st ch p : p i = RRel ->
    step i (mk_world l pl c st ch p) (mk_world l (upd pl i None) c st ch (upd p i RAcq))
| resume_acquire pl c st ch p : p i = RAcq ->
    step i (mk_world None pl c st ch p) (mk_world (Some i) pl c st ch (upd p i Test))
| set_cond l pl c st ch p : p i = Set_ ->
    step i (mk_world l pl c st ch p) (mk_world l pl true st ch (upd p i (Wake 0)))
| wake_self l pl c st ch p : p i = Wake i -> (i < N)%nat ->
    step i (mk_world l pl c st ch p) (mk_world l pl c st ch (upd p i (Wake (S i))))
| wake_acquire l pl c st ch p j : p i = Wake j -> j <> i -> (j < N)%nat -> pl j = None ->
    step i (mk_world l pl c st ch p) (mk_world l (upd pl j (Some i)) c st ch (upd p i (Look j)))
| wake_look l pl c st ch p j : p i = Look j ->
    step i (mk_world l pl c st ch p)
      (mk_world l (upd pl j None) c (if bool_decide (st j = SLEEPING) && ch j then upd st j RUNNABLE else st) ch (upd p i (Wake (S j))))
| wake_leave l pl c st ch p : p i = Wake N ->
    step i (mk_world l pl c st ch p) (mk_world None pl c st ch (upd p i Out)).

Definition world0 : world := mk_world None (fun _ => None) false (fun _ => RUNNING) (fun _ => false) (fun _ => Out).
Definition any_step (w w' : world) : Prop := exists i, (i < N)%nat /\ step i w w'.

(** * Invariant *)

Definition holds_lk (c : pc) : bool :=
  match c with Test | Crit | SAcq | SRel | Set_ | Wake _ | Look _ => true | _ => false end.
(** Process [i] at [c] holds the lock of process [j]. *)
Definition holds_plk (i j : nat) (c : pc) : bool :=
  match c with
  | SRel | SChan | SState | SSwtch | RChan | RRel => bool_decide (i = j)
  | Look k => bool_decide (k = j)
  | _ => false
  end.
(** Past the release of [lk] in sleep and not woken up. *)
Definition dozing (st : procstate) (c : pc) : bool :=
  match c with SChan | SState | SSwtch => true | Asleep => bool_decide (st = SLEEPING) | _ => false end.
(** A waker at [c] has yet to look at process [i]. *)
Definition will_look (c : pc) (i : nat) : bool :=
  match c with Wake j | Look j => (j <=? i)%nat | _ => false end.

Record inv (w : world) : Prop := {
  inv_lk : forall i, holds_lk (w_pc w i) = true <-> w_lk w = Some i;
  inv_plk : forall i j, holds_plk i j (w_pc w i) = true <-> w_plk w j = Some i;
  inv_look : forall i j, w_pc w i = Look j -> j <> i;
  inv_cond : forall i, w_pc w i = SAcq \/ w_pc w i = SRel -> w_cond w = false;
  inv_chan : forall i, w_pc w i = SState \/ w_pc w i = SSwtch \/ w_pc w i = Asleep -> w_chan w i = true;
  inv_state : forall i, match w_pc w i with
                        | SSwtch => w_state w i = SLEEPING
                        | Asleep => w_state w i = SLEEPING \/ w_state w i = RUNNABLE
                        | _ => w_state w i = RUNNING end;
  inv_pending : forall i, (i < N)%nat -> dozing (w_state w i) (w_pc w i) = true -> w_cond w = true ->
                  exists k, will_look (w_pc w k) i = true
}.

Lemma inv_init : inv world0.
Proof. split; cbn; intros; (split; done) || done || (destruct H as [|]; done) || naive_solver. Qed.

(** Case analysis on the step and on the updated positions. *)
#[local] Ltac step_case Hs :=
  destruct Hs; cbn in *; unfold upd in *; intros; repeat case_decide; subst; cbn in *;
  repeat match goal with E : ?p ?i = _, H : context [?p ?i] |- _ => rewrite E in H; cbn in H end;
  repeat match goal with E : ?p ?i = _ |- context [?p ?i] => rewrite E; cbn end.

Lemma step_lk i w w' : inv w -> step i w w' -> forall k, holds_lk (w_pc w' k) = true <-> w_lk w' = Some k.
Proof.
  intros [Hlk _ _ _ _ _ _] Hs k. pose proof (Hlk i) as Hi. specialize (Hlk k).
  step_case Hs; naive_solver.
Qed.

Lemma step_plk i w w' : inv w -> step i w w' -> forall k j, holds_plk k j (w_pc w' k) = true <-> w_plk w' j = Some k.
Proof.
  intros [_ Hplk _ _ _ _ _] Hs k j. pose proof (Hplk i i) as Hii. pose proof (Hplk i j) as Hij. pose proof (Hplk k j) as Hkj.
  step_case Hs; rewrite ?bool_decide_eq_true in *; try naive_solver.
Qed.

Lemma step_look i w w' : inv w -> step i w w' -> forall k j, w_pc w' k = Look j -> j <> k.
Proof. intros [_ _ Hl _ _ _ _] Hs k j. specialize (Hl k j). step_case Hs; naive_solver. Qed.

Lemma step_cond i w w' :
  inv w -> step i w w' -> forall k, w_pc w' k = SAcq \/ w_pc w' k = SRel -> w_cond w' = false.
Proof.
  intros [Hlk _ _ Hc _ _ _] Hs k Hk. assert (Hh : w_pc w k = SAcq \/ w_pc w k = SRel -> w_lk w = Some k)
    by (intros [E|E]; apply Hlk; by rewrite E).
  pose proof (Hlk i) as [Hi _]. pose proof (Hc k) as Hck. clear Hlk Hc.
  step_case Hs; try (destruct Hk; discriminate); try done; try (by apply Hck; left); try (by apply Hck; right).
  all: try (specialize (Hi eq_refl); specialize (Hh Hk); congruence). all: by rewrite Hck.
Qed.

Lemma step_chan i w w' :
  inv w -> step i w w' -> forall k, w_pc w' k = SState \/ w_pc w' k = SSwtch \/ w_pc w' k = Asleep -> w_chan w' k = true.
Proof. intros [_ _ _ _ Hc _ _] Hs k. pose proof (Hc i) as Hi. specialize (Hc k). step_case Hs; naive_solver. Qed.

Lemma step_state i w w' : inv w -> step i w w' ->
  forall k, match w_pc w' k with
            | SSwtch => w_state w' k = SLEEPING
            | Asleep => w_state w' k = SLEEPING \/ w_state w' k = RUNNABLE
            | _ => w_state w' k = RUNNING end.
Proof.
  intros [_ Hplk Hlook _ _ Hst _] Hs k. pose proof (Hst i) as Hi. specialize (Hst k).
  assert (Hx : forall j, w_pc w i = Look j -> j <> i /\ (k <> i -> j = k -> holds_plk k k (w_pc w k) = false)).
  { intros j Hj. split; [by apply Hlook|]. intros Hki ->. apply not_true_iff_false. rewrite Hplk.
    assert (w_plk w k = Some i) as -> by (apply Hplk; rewrite Hj; cbn; by apply bool_decide_eq_true). congruence. }
  clear Hplk Hlook. step_case Hs; try done; [by left| |]; destruct (Hx j eq_refl) as [Hji Hjk]; destruct (ch j); try done.
  - by rewrite decide_False by done.
  - case_decide; [subst|done]. specialize (Hjk H0 eq_refl).
    destruct (p j); cbn in Hjk; try congruence; [by rewrite bool_decide_eq_true_2 in Hjk|by right].
Qed.

(** The waker that is yet to look at [k], after a step of [i] to [c]. *)
Lemma pending_step (p : nat -> pc) i c k :
  (exists m, will_look (p m) k = true) -> (will_look (p i) k = true -> will_look c k = true) ->
  exists m, will_look (upd p i c m) k = true.
Proof.
  intros [m Hm] Hi. destruct (decide (m = i)) as [->|Hne].
  - exists i. rewrite upd_eq. by apply Hi.
  - exists m. by rewrite upd_ne.
Qed.

Lemma step_pending i w w' : inv w -> step i w w' ->
  forall k, (k < N)%nat -> dozing (w_state w' k) (w_pc w' k) = true -> w_cond w' = true ->
    exists m, will_look (w_pc w' m) k = true.
Proof.
  intros [_ Hplk Hlook Hcond Hchan Hst Hp] Hs k Hk Hd Hc. specialize (Hp k Hk). pose proof (Hcond i) as Hci.
  destruct Hs; cbn in *.
  all: try (apply pending_step; [apply Hp; [|done]|rewrite H; cbn; done]; revert Hd; unfold upd; case_decide; subst; rewrite ?H; done).
  all: destruct (decide (k = i)) as [->|Hki]; [rewrite upd_eq in Hd|rewrite (upd_ne p i) in Hd by done]; try done.
  - apply andb_true_iff in Hc as [-> _]. apply pending_step; [by apply Hp|by rewrite H].
  - rewrite Hci in Hc by (by right). done.
  - apply pending_step; [by apply Hp|by rewrite H].
  - exists i. by rewrite upd_eq.
  - apply pending_step; [by apply Hp|]. rewrite H. cbn [will_look]. rewrite !Nat.leb_le. lia.
  - assert (Hd0 : dozing (st k) (p k) = true).
    { destruct (p k); try done. cbn in *. apply bool_decide_eq_true in Hd. apply bool_decide_eq_true.
      destruct (bool_decide (st j = SLEEPING) && ch j); [|done]. destruct (decide (k = j)) as [->|]; [by rewrite upd_eq in Hd|by rewrite upd_ne in Hd]. }
    apply pending_step; [by apply Hp|]. rewrite H. cbn [will_look]. rewrite !Nat.leb_le. intros Hjk.
    destruct (decide (j = k)) as [->|Hne]; [exfalso|lia].
    assert (Hnk : holds_plk k k (p k) = false).
    { apply not_true_iff_false. rewrite Hplk. assert (pl k = Some i) as -> by (apply Hplk; rewrite H; cbn; by apply bool_decide_eq_true).
      congruence. }
    destruct (p k) eqn:Epk; cbn in Hnk, Hd0; try done; try (by rewrite bool_decide_eq_true_2 in Hnk).
    cbn in Hd. rewrite Hd0, (Hchan k) in Hd by (right; by right). cbn [andb] in Hd. by rewrite upd_eq in Hd.
  - apply pending_step; [by apply Hp|]. rewrite H. cbn [will_look]. rewrite Nat.leb_le. lia.
Qed.

Lemma inv_step w w' : inv w -> any_step w w' -> inv w'.
Proof.
  intros Hinv (i & _ & Hs). split; [by eapply step_lk|by eapply step_plk|by eapply step_look|by eapply step_cond|
    by eapply step_chan|by eapply step_state|by eapply step_pending].
Qed.

(** C18: no wakeup is lost.  However the processes interleave, when the lock is
    free and the condition holds, no process is on its way to sleep and every
    process that is not running is RUNNABLE: none sleeps on a condition that has
    become true. *)
Theorem no_lost_wakeup w i :
  rtc any_step world0 w -> w_lk w = None -> w_cond w = true -> (i < N)%nat ->
  match w_pc w i with
  | SChan | SState | SSwtch => False
  | Asleep => w_state w i = RUNNABLE
  | _ => True
  end.
Proof.
  intros Hr Hlk Hc Hi. assert (Hinv : inv w) by (eapply (rtc_invariant any_step inv world0); [intros ? ? ? ?; by eapply inv_step|done|apply inv_init]).
  assert (Hno : dozing (w_state w i) (w_pc w i) = true -> False).
  { intros Hd. destruct (inv_pending _ Hinv i Hi Hd Hc) as [m Hm].
    assert (holds_lk (w_pc w m) = true) by (by destruct (w_pc w m)).
    rewrite (inv_lk _ Hinv), Hlk in H. done. }
  pose proof (inv_state _ Hinv i) as Hst. destruct (w_pc w i); try done; try (by apply Hno).
  destruct Hst as [E|E]; [|done]. exfalso. apply Hno. cbn. by apply bool_decide_eq_true.
Qed.
End SleepWake.

(** Process 0 goes to sleep, and process 1 makes the condition true. *)
Lemma no_lost_wakeup_witness :
  exists w, rtc (any_step 2) world0 w /\ w_lk w = None /\ w_cond w = true /\ w_pc w 0%nat = Asleep /\ w_state w 0%nat = RUNNABLE.
Proof.
  eassert (Hr : rtc (any_step 2) world0 _).
  { unfold world0.
    do 7 (eapply rtc_l; [exists 0%nat; split; [lia|]; first
      [ eapply enter_wait; reflexivity | eapply test_false; reflexivity | eapply sleep_acquire; reflexivity
      | eapply sleep_release; reflexivity | eapply sleep_chan; reflexivity | eapply sleep_state; reflexivity
      | eapply sleep_sched; reflexivity ]|]).
    eapply rtc_l; [exists 1%nat; split; [lia|]; eapply enter_wake; reflexivity|].
    eapply rtc_l; [exists 1%nat; split; [lia|]; eapply set_cond; reflexivity|].
    eapply rtc_l; [exists 1%nat; split; [lia|]; eapply (wake_acquire 2 1 _ _ _ _ _ _ 0); [reflexivity|lia|lia|reflexivity]|].
    eapply rtc_l; [exists 1%nat; split; [lia|]; eapply (wake_look 2 1 _ _ _ _ _ _ 0); reflexivity|].
    eapply rtc_l; [exists 1%nat; split; [lia|]; eapply wake_self; [reflexivity|lia]|].
    eapply rtc_l; [exists 1%nat; split; [lia|]; eapply wake_leave; reflexivity|].
    apply rtc_refl. }
  pose proof (no_lost_wakeup 2 _ 0 Hr eq_refl eq_refl ltac:(lia)) as Hn.
  eexists. split; [exact Hr|]. split; [reflexivity|]. split; [reflexivity|]. split; [reflexivity|]. exact Hn.
Defined.
