(* ===== verification/Exec.v ===== *)
(** Loading a program (kernel/exec.c, with the file formats of kernel/elf.h).
    [argv] is the array of pointers that the caller passes; the strings are in
    physical memory, and the path is in an array of the caller. *)
From S2P Require Import Prelude State Locks Kstring Kalloc Vm Sched Sleeplock Bio Log Uart Kprintf Either Fs Pipe Console File Proc.

(** struct elfhdr and struct proghdr (kernel/elf.h): sizes and fields *)
Definition ELF_MAGIC : Z := 0x464C457F.
Definition ELF_PROG_LOAD : Z := 1.
Definition sizeof_elfhdr : Z := 64.
Definition elf_magic (e : bytes) : Z := load32 e 0.
Definition elf_entry (e : bytes) : Z := load64 e 24.
Definition elf_phoff (e : bytes) : Z := load64 e 32.
Definition elf_phnum (e : bytes) : Z := load16 e 56.
Definition sizeof_proghdr : Z := 56.
Definition ph_type (h : bytes) : Z := load32 h 0.
Definition ph_flags (h : bytes) : Z := load32 h 4.
Definition ph_off (h : bytes) : Z := load64 h 8.
Definition ph_vaddr (h : bytes) : Z := load64 h 16.
Definition ph_filesz (h : bytes) : Z := load64 h 32.
Definition ph_memsz (h : bytes) : Z := load64 h 40.

Definition flags2perm (flags : Z) : Z :=
  let perm := if has flags 1 then PTE_X else 0 in
  if has flags 2 then Z.lor perm PTE_W else perm.

(** for(last=s=path; *s; s++) if( *s == '/') last = s+1; *)
Fixpoint last_elem (fuel : nat) (path : bytes) (s last : Z) : Z :=
  match fuel with
  | O => last
  | S fuel =>
      if load8 path s =? 0 then last
      else last_elem fuel path (s + 1) (if load8 path s =? 47 then s + 1 else last)
  end.

Section Exec.
Context `{Linker} `{Symbols}.

(** readi of a structure into a local variable. *)
Definition read_struct (ip : nat) (off n : Z) : K (Z * bytes) :=
  r <- readi ip (Local ∅ 0) off n ;;
  match r with
  | (r, Local b _) => ret (r, b)
  | (r, _) => ret (r, ∅)
  end.

(** for(i = 0; i < sz; i += PGSIZE), with [i] of 32 bits *)
Fixpoint loadseg_loop (fuel : nat) (pagetable va : Z) (ip : nat) (offset sz i : Z) : K Z :=
  match fuel with
  | O => fun _ => Diverge
  | S fuel =>
      if i <? sz then
        pa <- walkaddr pagetable (u64 (va + i)) ;;
        if pa =? 0 then panic "loadseg: address should exist"
        else
          let n := if sz - i <? PGSIZE then sz - i else PGSIZE in
          r <- readi ip (Phys pa) (u32 (offset + i)) n ;;
          if negb (fst r =? n) then ret (-1)
          else loadseg_loop fuel pagetable va ip offset sz (u32 (i + PGSIZE))
      else ret 0
  end.

Definition loadseg (pagetable va : Z) (ip : nat) (offset sz : Z) : K Z :=
  loadseg_loop (2 + Z.to_nat (sz / PGSIZE)) pagetable va ip offset sz 0.

(** The loop over the [n] program headers left, from [off] on; whether it
    succeeds, and the size of the image so far. *)
Fixpoint load_program (n : nat) (pagetable : Z) (ip : nat) (off sz : Z) : K (bool * Z) :=
  match n with
  | O => ret (true, sz)
  | S n =>
      r <- read_struct ip (u32 off) sizeof_proghdr ;;
      let '(r, ph) := r in
      if negb (r =? sizeof_proghdr) then ret (false, sz)
      else if negb (ph_type ph =? ELF_PROG_LOAD) then load_program n pagetable ip (i32 (off + sizeof_proghdr)) sz
      else if ph_memsz ph <? ph_filesz ph then ret (false, sz)
      else if u64 (ph_vaddr ph + ph_memsz ph) <? ph_vaddr ph then ret (false, sz)
      else if negb (ph_vaddr ph mod PGSIZE =? 0) then ret (false, sz)
      else
        sz1 <- uvmalloc pagetable sz (u64 (ph_vaddr ph + ph_memsz ph)) (flags2perm (ph_flags ph)) ;;
        if sz1 =? 0 then ret (false, sz)
        else
          r <- loadseg pagetable (ph_vaddr ph) ip (u32 (ph_off ph)) (u32 (ph_filesz ph)) ;;
          if r <? 0 then ret (false, sz1)
          else load_program n pagetable ip (i32 (off + sizeof_proghdr)) sz1
  end.

(** for(argc = 0; argv[argc]; argc++): the stack pointer and [ustack] after
    the strings are pushed, with [argc]; nothing for the bad exit. *)
Fixpoint push_args (argv : list Z) (pagetable argc sp stackbase : Z) (ustack : bytes) : K (option (Z * Z * bytes)) :=
  match argv with
  | [] => ub
  | a :: argv =>
      if a =? 0 then ret (Some (argc, sp, ustack))
      else if MAXARG <=? argc then ret None
      else
        m <- gets k_mem ;;
        let len := strlen m a + 1 in
        let sp := u64 (sp - len) in
        let sp := sp - sp mod 16 in
        if sp <? stackbase then ret None
        else
          r <- copyout pagetable sp m a len ;;
          if r <? 0 then ret None
          else push_args argv pagetable (argc + 1) sp stackbase (store64 ustack (8 * argc) sp)
  end.

(** The bad label. *)
Definition exec_bad (pagetable sz : Z) (ip : option nat) : K Z :=
  when (negb (pagetable =? 0)) (proc_freepagetable pagetable sz) ;;;
  match ip with
  | Some ip => iunlockput ip ;;; end_op
  | None => ret tt
  end ;;;
  ret (-1).

(** The stack of the new image with its arguments: the size, [argc] and [sp],
    or the size at the bad exit. *)
Definition build_stack (pagetable sz : Z) (argv : list Z) : K (Z * Z * Z + Z) :=
  let sz := PGROUNDUP sz in
  sz1 <- uvmalloc pagetable sz (u64 (sz + (USERSTACK + 1) * PGSIZE)) PTE_W ;;
  if sz1 =? 0 then ret (inr sz)
  else
    let sz := sz1 in
    uvmclear pagetable (u64 (sz - (USERSTACK + 1) * PGSIZE)) ;;;
    let stackbase := u64 (sz - USERSTACK * PGSIZE) in
    r <- push_args argv pagetable 0 sz stackbase ∅ ;;
    match r with
    | None => ret (inr sz)
    | Some (argc, sp, ustack) =>
        if MAXARG <=? argc then ub
        else
          let ustack := store64 ustack (8 * argc) 0 in
          let sp := u64 (sp - (argc + 1) * 8) in
          let sp := sp - sp mod 16 in
          if sp <? stackbase then ret (inr sz)
          else
            r <- copyout pagetable sp ustack 0 ((argc + 1) * 8) ;;
            if r <? 0 then ret (inr sz) else ret (inl (sz, argc, sp))
    end.

(** Commit to the user image. *)
Definition exec_commit (p : nat) (path : bytes) (pagetable sz sp entry oldsz : Z) : K unit :=
  tf_store p tf_a1 sp ;;;
  let last := last_elem (size path) path 0 0 in
  modify (upd_proc p (fun x => set_p_name (safestrcpy_arr 16 (p_name x) 0 path last) x)) ;;;
  oldpagetable <- gets (fun s => p_pagetable (get_proc p s)) ;;
  modify (upd_proc p (set_p_pagetable pagetable)) ;;;
  modify (upd_proc p (set_p_sz sz)) ;;;
  tf_store p tf_epc entry ;;;
  tf_store p tf_sp sp ;;;
  proc_freepagetable oldpagetable oldsz.

Definition exec (path : bytes) (argv : list Z) : K Z :=
  p <- curproc ;;
  begin_op ;;;
  ip <- namei path ;;
  match ip with
  | None => end_op ;;; ret (-1)
  | Some ip =>
      ilock (Some ip) ;;;
      r <- read_struct ip 0 sizeof_elfhdr ;;
      let '(r, elf) := r in
      if negb (r =? sizeof_elfhdr) then exec_bad 0 0 (Some ip)
      else if negb (elf_magic elf =? ELF_MAGIC) then exec_bad 0 0 (Some ip)
      else
        pagetable <- proc_pagetable p ;;
        if pagetable =? 0 then exec_bad 0 0 (Some ip)
        else
          r <- load_program (Z.to_nat (elf_phnum elf)) pagetable ip (i32 (elf_phoff elf)) 0 ;;
          let '(good, sz) := r in
          if negb good then exec_bad pagetable sz (Some ip)
          else
            iunlockput ip ;;;
            end_op ;;;
            oldsz <- gets (fun s => p_sz (get_proc p s)) ;;
            r <- build_stack pagetable sz argv ;;
            match r with
            | inr sz => exec_bad pagetable sz None
            | inl (sz, argc, sp) =>
                exec_commit p path pagetable sz sp (elf_entry elf) oldsz ;;;
                ret argc
            end
  end.
End Exec.
