(* ===== verification/Syscall.v ===== *)
(** System call arguments (kernel/syscall.c).  The registers a0 to a5 that the
    user process set are in its trapframe. *)
From S2P Require Import Prelude State Locks Kstring Kalloc Vm Sched Sleeplock Bio Log Uart Kprintf Either Fs Pipe Console File Proc.

Section Args.
Context `{Linker}.

(** The word at [addr], or nothing for -1. *)
Definition fetchaddr (addr : Z) : K (option Z) :=
  i <- curproc ;;
  p <- gets (get_proc i) ;;
  if (p_sz p <=? addr) || (p_sz p <? u64 (addr + 8)) then ret None
  else
    r <- copyin (p_pagetable p) ∅ 0 addr 8 ;;
    let '(r, b) := r in
    if negb (r =? 0) then ret None else ret (Some (load64 b 0)).

(** The result, and the buffer (at offset [o] of an array). *)
Definition fetchstr (addr : Z) (buf : bytes) (o max : Z) : K (Z * bytes) :=
  i <- curproc ;;
  p <- gets (get_proc i) ;;
  r <- copyinstr (p_pagetable p) buf o addr max ;;
  let '(r, buf) := r in
  if r <? 0 then ret (-1, buf) else ret (i32 (strlen buf o), buf).

Definition argraw (n : Z) : K Z :=
  p <- curproc ;;
  if (0 <=? n) && (n <=? 5) then tf_load p (tf_a0 + 8 * n) else panic "argraw".

Definition argint (n : Z) : K Z := v <- argraw n ;; ret (i32 v).
Definition argaddr (n : Z) : K Z := argraw n.

Definition argstr (n max : Z) : K (Z * bytes) :=
  addr <- argaddr n ;;
  fetchstr addr ∅ 0 max.
End Args.
