(* ===== verification/Sysproc.v ===== *)
(** The system calls on processes (kernel/sysproc.c).  sys_sleep sleeps in a
    loop that remembers the time it started at; [sys_sleep_loop] is that loop,
    entered with tickslock held. *)
From S2P Require Import Prelude State Locks Kstring Kalloc Vm Sched Sleeplock Bio Log Uart Kprintf Either Fs Pipe Console File Proc Syscall.

Section Sysproc.
Context `{Linker} `{Symbols}.

Definition sys_exit : K Z := n <- argint 0 ;; exit n ;;; ret 0.
Definition sys_getpid : K Z := p <- curproc ;; gets (fun s => p_pid (get_proc p s)).
Definition sys_fork : K Z := fork.
Definition sys_wait : K Z := p <- argaddr 0 ;; wait p.

Definition sys_sbrk : K Z :=
  n <- argint 0 ;;
  p <- curproc ;;
  addr <- gets (fun s => p_sz (get_proc p s)) ;;
  r <- growproc n ;;
  if r <? 0 then ret (-1) else ret addr.

Definition sys_sleep_loop (ticks0 n : Z) : K Z :=
  ticks <- gets k_ticks ;;
  if u32 (ticks - ticks0) <? n then
    p <- curproc ;;
    k <- killed p ;;
    if negb (k =? 0) then release LkTicks ;;; ret (-1)
    else sleep ChTicks LkTicks ;;; ret 0
  else release LkTicks ;;; ret 0.

Definition sys_sleep : K Z :=
  n <- argint 0 ;;
  let n := if n <? 0 then 0 else n in
  acquire LkTicks ;;;
  ticks0 <- gets k_ticks ;;
  sys_sleep_loop ticks0 n.

Definition sys_kill : K Z := pid <- argint 0 ;; kill pid.

Definition sys_uptime : K Z :=
  acquire LkTicks ;;;
  xticks <- gets k_ticks ;;
  release LkTicks ;;;
  ret xticks.
End Sysproc.
