(* ===== verification/Sysfile.v ===== *)
(** The system calls on files (kernel/sysfile.c) and the dispatch of system
    calls (kernel/syscall.c: syscall). *)
From S2P Require Import Prelude State Locks Kstring Kalloc Vm Sched Sleeplock Bio Log Uart Kprintf Either Fs Pipe Console File Proc Exec Syscall Sysproc.

(** kernel/fcntl.h *)
Definition O_RDONLY : Z := 0.
Definition O_WRONLY : Z := 1.
Definition O_RDWR : Z := 2.
Definition O_CREATE : Z := 0x200.
Definition O_TRUNC : Z := 0x400.

(** The loop of fdalloc: the first free descriptor. *)
Fixpoint find_fd (l : list (option nat)) (fd : nat) : option nat :=
  match l with
  | [] => None
  | None :: _ => Some fd
  | Some _ :: l => find_fd l (S fd)
  end.

Definition set_ofile (p : nat) (fd : nat) (o : option nat) : K unit :=
  modify (upd_proc p (fun x => set_p_ofile (<[fd := o]> (p_ofile x)) x)).

Definition fdalloc (f : nat) : K Z :=
  p <- curproc ;;
  l <- gets (fun s => p_ofile (get_proc p s)) ;;
  match find_fd l 0 with
  | Some fd => set_ofile p fd (Some f) ;;; ret (Z.of_nat fd)
  | None => ret (-1)
  end.

Section Sysfile.
Context `{Linker} `{Symbols}.

(** The descriptor and the file, or nothing for -1. *)
Definition argfd (n : Z) : K (option (Z * nat)) :=
  fd <- argint n ;;
  if (fd <? 0) || (NOFILE <=? fd) then ret None
  else
    p <- curproc ;;
    l <- gets (fun s => p_ofile (get_proc p s)) ;;
    match mjoin (l !! Z.to_nat fd) with
    | None => ret None
    | Some f => ret (Some (fd, f))
    end.

Definition sys_dup : K Z :=
  r <- argfd 0 ;;
  match r with
  | None => ret (-1)
  | Some (_, f) =>
      fd <- fdalloc f ;;
      if fd <? 0 then ret (-1) else filedup f ;;; ret fd
  end.

Definition sys_read : K Z :=
  p <- argaddr 1 ;;
  n <- argint 2 ;;
  r <- argfd 0 ;;
  match r with None => ret (-1) | Some (_, f) => fileread f p n end.

Definition sys_write : K Z :=
  p <- argaddr 1 ;;
  n <- argint 2 ;;
  r <- argfd 0 ;;
  match r with None => ret (-1) | Some (_, f) => filewrite f p n end.

Definition sys_close : K Z :=
  r <- argfd 0 ;;
  match r with
  | None => ret (-1)
  | Some (fd, f) =>
      p <- curproc ;;
      set_ofile p (Z.to_nat fd) None ;;;
      fileclose f ;;;
      ret 0
  end.

Definition sys_fstat : K Z :=
  st <- argaddr 1 ;;
  r <- argfd 0 ;;
  match r with None => ret (-1) | Some (_, f) => filestat f st end.

(** ip->nlink += d *)
Definition add_nlink (ip : nat) (d : Z) : K unit :=
  modify (upd_inode ip (fun x => set_i_nlink (i16 (i_nlink x + d)) x)).

(** The bad label of sys_link. *)
Definition link_bad (ip : nat) : K Z :=
  ilock (Some ip) ;;;
  add_nlink ip (-1) ;;;
  iupdate ip ;;;
  iunlockput ip ;;;
  end_op ;;;
  ret (-1).

Definition sys_link : K Z :=
  r <- argstr 0 MAXPATH ;;
  let '(r, old) := r in
  if r <? 0 then ret (-1)
  else
    r <- argstr 1 MAXPATH ;;
    let '(r, new) := r in
    if r <? 0 then ret (-1)
    else
      begin_op ;;;
      ip <- namei old ;;
      match ip with
      | None => end_op ;;; ret (-1)
      | Some ip =>
          ilock (Some ip) ;;;
          x <- gets (get_inode ip) ;;
          if i_type x =? T_DIR then iunlockput ip ;;; end_op ;;; ret (-1)
          else
            add_nlink ip 1 ;;;
            iupdate ip ;;;
            iunlock (Some ip) ;;;
            r <- nameiparent new ∅ ;;
            match r with
            | (None, _) => link_bad ip
            | (Some dp, name) =>
                ilock (Some dp) ;;;
                d <- gets (get_inode dp) ;;
                x <- gets (get_inode ip) ;;
                r <- (if negb (i_dev d =? i_dev x) then ret (-1) else dirlink dp name (i_inum x)) ;;
                if r <? 0 then iunlockput dp ;;; link_bad ip
                else
                  iunlockput dp ;;;
                  iput ip ;;;
                  end_op ;;;
                  ret 0
            end
      end.

(** for(off = 2*sizeof(de); off < dp->size; off += sizeof(de)) *)
Definition isdirempty (dp : nat) : K bool :=
  size <- gets (fun s => i_size (get_inode dp s)) ;;
  r <- for_loop (dirents (size - 2 * sizeof_dirent)) 0 (fun k =>
    de <- read_dirent dp ((k + 2) * sizeof_dirent) "isdirempty: readi" ;;
    if negb (load16 de 0 =? 0) then ret (Some tt) else ret None) ;;
  ret (match r with Some _ => false | None => true end).

(** The bad label of sys_unlink. *)
Definition unlink_bad (dp : nat) : K Z := iunlockput dp ;;; end_op ;;; ret (-1).

(** sys_unlink once the entry of [ip] is found at [off] of [dp]. *)
Definition unlink_entry (dp ip : nat) (off : Z) : K Z :=
  ilock (Some ip) ;;;
  x <- gets (get_inode ip) ;;
  if i_nlink x <? 1 then panic "unlink: nlink < 1"
  else
    empty <- (if i_type x =? T_DIR then isdirempty ip else ret true) ;;
    if negb empty then iunlockput ip ;;; unlink_bad dp
    else
      n <- writei dp (Local ∅ 0) off sizeof_dirent ;;
      if negb (n =? sizeof_dirent) then panic "unlink: writei"
      else
        when (i_type x =? T_DIR) (add_nlink dp (-1) ;;; iupdate dp) ;;;
        iunlockput dp ;;;
        add_nlink ip (-1) ;;;
        iupdate ip ;;;
        iunlockput ip ;;;
        end_op ;;;
        ret 0.

Definition sys_unlink : K Z :=
  r <- argstr 0 MAXPATH ;;
  let '(r, path) := r in
  if r <? 0 then ret (-1)
  else
    begin_op ;;;
    r <- nameiparent path ∅ ;;
    match r with
    | (None, _) => end_op ;;; ret (-1)
    | (Some dp, name) =>
        ilock (Some dp) ;;;
        if (namecmp name 0 (literal ".") 0 =? 0) || (namecmp name 0 (literal "..") 0 =? 0) then unlink_bad dp
        else
          r <- dirlookup dp name ;;
          match r with
          | None => unlink_bad dp
          | Some (ip, off) => unlink_entry dp ip off
          end
    end.

(** The fail label of create. *)
Definition create_fail (ip dp : nat) : K (option nat) :=
  modify (upd_inode ip (set_i_nlink 0)) ;;;
  iupdate ip ;;;
  iunlockput ip ;;;
  iunlockput dp ;;;
  ret None.

(** create once [ip] is allocated: its entries and the entry in [dp]. *)
Definition create_link (ip dp : nat) (name : bytes) (type major minor : Z) : K (option nat) :=
  ilock (Some ip) ;;;
  modify (upd_inode ip (set_i_major major)) ;;;
  modify (upd_inode ip (set_i_minor minor)) ;;;
  modify (upd_inode ip (set_i_nlink 1)) ;;;
  iupdate ip ;;;
  inum <- gets (fun s => i_inum (get_inode ip s)) ;;
  dnum <- gets (fun s => i_inum (get_inode dp s)) ;;
  r <- (if type =? T_DIR then
          r <- dirlink ip (literal ".") inum ;;
          if r <? 0 then ret r else dirlink ip (literal "..") dnum
        else ret 0) ;;
  if r <? 0 then create_fail ip dp
  else
    r <- dirlink dp name inum ;;
    if r <? 0 then create_fail ip dp
    else
      when (type =? T_DIR) (add_nlink dp 1 ;;; iupdate dp) ;;;
      iunlockput dp ;;;
      ret (Some ip).

Definition create (path : bytes) (type major minor : Z) : K (option nat) :=
  r <- nameiparent path ∅ ;;
  match r with
  | (None, _) => ret None
  | (Some dp, name) =>
      ilock (Some dp) ;;;
      r <- dirlookup dp name ;;
      match r with
      | Some (ip, _) =>
          iunlockput dp ;;;
          ilock (Some ip) ;;;
          t <- gets (fun s => i_type (get_inode ip s)) ;;
          if (type =? T_FILE) && ((t =? T_FILE) || (t =? T_DEVICE)) then ret (Some ip)
          else iunlockput ip ;;; ret None
      | None =>
          dev <- gets (fun s => i_dev (get_inode dp s)) ;;
          ip <- ialloc dev type ;;
          match ip with
          | None => iunlockput dp ;;; ret None
          | Some ip => create_link ip dp name type major minor
          end
      end
  end.

(** iunlockput(ip); end_op(); return -1; *)
Definition open_fail (ip : nat) : K Z := iunlockput ip ;;; end_op ;;; ret (-1).

(** The file structure of sys_open, for the locked inode [ip]. *)
Definition open_file (ip : nat) (omode : Z) : K Z :=
  x <- gets (get_inode ip) ;;
  if (i_type x =? T_DEVICE) && ((i_major x <? 0) || (NDEV <=? i_major x)) then open_fail ip
  else
    f <- filealloc ;;
    match f with
    | None => open_fail ip
    | Some f =>
        fd <- fdalloc f ;;
        if fd <? 0 then fileclose f ;;; open_fail ip
        else
          (if i_type x =? T_DEVICE
           then modify (upd_file f (fun y => set_f_major (i_major x) (set_f_type FD_DEVICE y)))
           else modify (upd_file f (fun y => set_f_off 0 (set_f_type FD_INODE y)))) ;;;
          modify (upd_file f (set_f_ip ip)) ;;;
          modify (upd_file f (set_f_readable (negb (has omode O_WRONLY)))) ;;;
          modify (upd_file f (set_f_writable (has omode O_WRONLY || has omode O_RDWR))) ;;;
          when (has omode O_TRUNC && (i_type x =? T_FILE)) (itrunc ip) ;;;
          iunlock (Some ip) ;;;
          end_op ;;;
          ret fd
    end.

Definition sys_open : K Z :=
  omode <- argint 1 ;;
  r <- argstr 0 MAXPATH ;;
  let '(r, path) := r in
  if r <? 0 then ret (-1)
  else
    begin_op ;;;
    if has omode O_CREATE then
      ip <- create path T_FILE 0 0 ;;
      match ip with
      | None => end_op ;;; ret (-1)
      | Some ip => open_file ip omode
      end
    else
      ip <- namei path ;;
      match ip with
      | None => end_op ;;; ret (-1)
      | Some ip =>
          ilock (Some ip) ;;;
          t <- gets (fun s => i_type (get_inode ip s)) ;;
          if (t =? T_DIR) && negb (omode =? O_RDONLY) then open_fail ip
          else open_file ip omode
      end.

(** sys_mkdir and sys_mknod after their arguments: the new inode, made by
    create, is released. *)
Definition make_node (r : Z) (path : bytes) (type major minor : Z) : K Z :=
  ip <- (if r <? 0 then ret None else create path type major minor) ;;
  match ip with
  | None => end_op ;;; ret (-1)
  | Some ip => iunlockput ip ;;; end_op ;;; ret 0
  end.

Definition sys_mkdir : K Z :=
  begin_op ;;;
  r <- argstr 0 MAXPATH ;;
  let '(r, path) := r in
  make_node r path T_DIR 0 0.

Definition sys_mknod : K Z :=
  begin_op ;;;
  major <- argint 1 ;;
  minor <- argint 2 ;;
  r <- argstr 0 MAXPATH ;;
  let '(r, path) := r in
  make_node r path T_DEVICE (i16 major) (i16 minor).

Definition sys_chdir : K Z :=
  p <- curproc ;;
  begin_op ;;;
  r <- argstr 0 MAXPATH ;;
  let '(r, path) := r in
  ip <- (if r <? 0 then ret None else namei path) ;;
  match ip with
  | None => end_op ;;; ret (-1)
  | Some ip =>
      ilock (Some ip) ;;;
      t <- gets (fun s => i_type (get_inode ip s)) ;;
      if negb (t =? T_DIR) then iunlockput ip ;;; end_op ;;; ret (-1)
      else
        iunlock (Some ip) ;;;
        cwd <- cwd_of p ;;
        iput cwd ;;;
        end_op ;;;
        modify (upd_proc p (set_p_cwd (Some ip))) ;;;
        ret 0
  end.

(** fetchstr into the page [pa], which no user page table maps. *)
Definition fetchstr_page (addr pa max : Z) : K Z :=
  m <- gets k_mem ;;
  r <- fetchstr addr m pa max ;;
  modify (set_k_mem (snd r)) ;;;
  ret (fst r).

(** The loop of sys_exec from index [MAXARG - n] on: whether it reaches the
    null pointer, and the pages allocated. *)
Fixpoint exec_args (n : nat) (uargv i : Z) (argv : list Z) : K (bool * list Z) :=
  match n with
  | O => ret (false, argv)
  | S n =>
      uarg <- fetchaddr (u64 (uargv + 8 * i)) ;;
      match uarg with
      | None => ret (false, argv)
      | Some uarg =>
          if uarg =? 0 then ret (true, argv)
          else
            pa <- kalloc ;;
            if pa =? 0 then ret (false, argv)
            else
              r <- fetchstr_page uarg pa PGSIZE ;;
              if r <? 0 then ret (false, argv ++ [pa])
              else exec_args n uargv (i + 1) (argv ++ [pa])
      end
  end.

(** for(i = 0; i < NELEM(argv) && argv[i] != 0; i++) kfree(argv[i]); *)
Fixpoint free_args (argv : list Z) : K unit :=
  match argv with
  | [] => ret tt
  | a :: argv => kfree a ;;; free_args argv
  end.

Definition sys_exec : K Z :=
  uargv <- argaddr 1 ;;
  r <- argstr 0 MAXPATH ;;
  let '(r, path) := r in
  if r <? 0 then ret (-1)
  else
    r <- exec_args (Z.to_nat MAXARG) uargv 0 [] ;;
    let '(good, argv) := r in
    if good then
      ret' <- exec path (argv ++ replicate (Z.to_nat MAXARG - length argv) 0) ;;
      free_args argv ;;;
      ret ret'
    else free_args argv ;;; ret (-1).

Definition sys_pipe : K Z :=
  p <- curproc ;;
  fdarray <- argaddr 0 ;;
  r <- pipealloc ;;
  match r with
  | None => ret (-1)
  | Some (rf, wf) =>
      fd0 <- fdalloc rf ;;
      fd1 <- (if fd0 <? 0 then ret (-1) else fdalloc wf) ;;
      if fd1 <? 0 then
        when (0 <=? fd0) (set_ofile p (Z.to_nat fd0) None) ;;;
        fileclose rf ;;;
        fileclose wf ;;;
        ret (-1)
      else
        pt <- curpagetable ;;
        r <- copyout pt fdarray (store32 ∅ 0 fd0) 0 4 ;;
        r <- (if r <? 0 then ret r else copyout pt (u64 (fdarray + 4)) (store32 ∅ 0 fd1) 0 4) ;;
        if r <? 0 then
          set_ofile p (Z.to_nat fd0) None ;;;
          set_ofile p (Z.to_nat fd1) None ;;;
          fileclose rf ;;;
          fileclose wf ;;;
          ret (-1)
        else ret 0
  end.

(** syscalls[num], with the numbers of kernel/syscall.h *)
Definition syscalls (num : Z) : option (K Z) :=
  match num with
  | 1 => Some sys_fork   | 2 => Some sys_exit    | 3 => Some sys_wait
  | 4 => Some sys_pipe   | 5 => Some sys_read    | 6 => Some sys_kill
  | 7 => Some sys_exec   | 8 => Some sys_fstat   | 9 => Some sys_chdir
  | 10 => Some sys_dup   | 11 => Some sys_getpid | 12 => Some sys_sbrk
  | 13 => Some sys_sleep | 14 => Some sys_uptime | 15 => Some sys_open
  | 16 => Some sys_write | 17 => Some sys_mknod  | 18 => Some sys_unlink
  | 19 => Some sys_link  | 20 => Some sys_mkdir  | 21 => Some sys_close
  | _ => None
  end.

Definition syscall : K unit :=
  p <- curproc ;;
  a7 <- tf_load p tf_a7 ;;
  let num := i32 a7 in
  match syscalls num with
  | Some handler => v <- handler ;; tf_store p tf_a0 v
  | None =>
      x <- gets (get_proc p) ;;
      printf "%d %s: unknown sys call %d
"%string [AInt (p_pid x); AStr (Some (cstr 16 (p_name x) 0)); AInt num] ;;;
      tf_store p tf_a0 (-1)
  end.
End Sysfile.
