(* ===== verification/SyscallSpec.v ===== *)
(** System call arguments and file descriptors (kernel/syscall.c,
    kernel/sysfile.c): what fetchaddr accepts, and how descriptors are
    allocated and looked up. *)
From S2P Require Import Prelude State Locks Kstring Kalloc Vm PageTable VmSpec Uvm UvmCopy Copy Sched Sleeplock Bio Log Uart Kprintf Either Fs Pipe Console File Proc Exec Syscall Sysproc Sysfile.

Section SyscallSpec.
Context `{Linker}.

(** The little-endian word of the user's bytes at [va]. *)
Fixpoint uword (n : nat) (s : kstate) (root va : Z) : Z :=
  match n with
  | O => 0
  | S n => default 0 (umem s root va) + 256 * uword n s root (va + 1)
  end.

Lemma fetched_word n s root va b o :
  (forall i, 0 <= i < Z.of_nat n -> Some (load8 b (o + i)) = umem s root (va + i)) ->
  le_load n b o = uword n s root va.
Proof.
  revert va o. induction n as [|n IH]; intros va o Hb; cbn [le_load uword]; [done|].
  rewrite (IH (va + 1)).
  - pose proof (Hb 0 ltac:(lia)) as H0. rewrite !Z.add_0_r in H0. by rewrite <- H0.
  - intros i Hi. replace (o + 1 + i) with (o + (i + 1)) by lia. replace (va + 1 + i) with (va + (i + 1)) by lia. apply Hb. lia.
Qed.

Lemma uword_zero n s root va :
  (forall i, (i < n)%nat -> umem s root (va + Z.of_nat i) = Some 0) -> uword n s root va = 0.
Proof.
  revert va. induction n as [|n IH]; intros va Hz; cbn [uword]; [done|].
  pose proof (Hz 0%nat ltac:(lia)) as H0. rewrite Z.add_0_r in H0. rewrite H0, IH; [done|].
  intros i Hi. replace (va + 1 + Z.of_nat i) with (va + Z.of_nat (S i)) by lia. apply Hz. lia.
Qed.

(** fetchaddr accepts an address exactly when the eight bytes lie below the
    size of the process, without wrapping around, and the user can read them;
    the result is then the word the user has there.  In particular the two
    tests of the code together do what one test without overflow would. *)
Theorem fetchaddr_bounds s c P D fl addr :
  k_cur s = Some c -> uspace s (p_pagetable (get_proc c s)) P D fl ->
  0 <= addr < 2 ^ 64 -> 0 <= p_sz (get_proc c s) <= MAXVA ->
  let root := p_pagetable (get_proc c s) in
  fetchaddr addr s =
    Ok (if (addr + 8 <=? p_sz (get_proc c s)) && forallb (fun i => readable s root (addr + Z.of_nat i)) (seq 0 8)
        then Some (uword 8 s root addr) else None) s.
Proof.
  intros Hc Hu Ha Hsz root. unfold fetchaddr. rewrite (bind_Ok _ _ _ _ _ (curproc_Ok _ _ Hc)), bind_gets.
  set (sz := p_sz (get_proc c s)) in *. change MAXVA with (2 ^ 38) in Hsz.
  assert (Eg : (sz <=? addr) || (sz <? u64 (addr + 8)) = negb (addr + 8 <=? sz)).
  { destruct (Z.leb_spec sz addr), (Z.leb_spec (addr + 8) sz); cbn; try lia.
    - rewrite u64_small by lia. apply Z.ltb_ge. lia.
    - rewrite u64_small by lia. apply Z.ltb_lt. lia. }
  rewrite Eg. destruct (addr + 8 <=? sz); cbn [negb andb]; [|done].
  destruct (copyin_correct s root P D fl ∅ 0 addr 8 Hu Ha ltac:(lia)) as (r & b & k & E & Hf & Hk & Hr).
  rewrite (bind_Ok _ _ _ _ _ E). destruct Hr as [(-> & -> & HR)|(-> & Hk8 & HR)].
  - rewrite (proj2 (forallb_forall _ _)) by (intros i Hi%list_elem_of_In%elem_of_seq; apply HR; lia).
    change (negb (0 =? 0)) with false. cbv iota. unfold ret. do 3 f_equal. apply (fetched_word 8).
    intros i Hi. specialize (Hf (0 + i)). rewrite (proj2 (andb_true_iff _ _)) in Hf by lia.
    rewrite Hf. f_equal. lia.
  - destruct (forallb _ _) eqn:Hall; [|done]. rewrite forallb_forall in Hall. exfalso.
    specialize (Hall (Z.to_nat k)). rewrite Z2Nat.id in Hall by lia. rewrite Hall in HR; [done|].
    apply list_elem_of_In, elem_of_seq. lia.
Qed.

(** * File descriptors *)

Lemma find_fd_spec l : forall k,
  match find_fd l k with
  | Some fd => (k <= fd)%nat /\ l !! (fd - k)%nat = Some None /\ forall i, (i < fd - k)%nat -> exists f, l !! i = Some (Some f)
  | None => forall i, (i < length l)%nat -> exists f, l !! i = Some (Some f)
  end.
Proof.
  induction l as [|[f|] l IH]; intros k; cbn [find_fd].
  - intros i Hi. cbn in Hi. lia.
  - specialize (IH (S k)). destruct (find_fd l (S k)) as [fd|].
    + destruct IH as (Hk & Hfd & Hlt). replace (fd - k)%nat with (S (fd - S k)) by lia. split_and!; [lia|done|].
      intros [|i] Hi; [by exists f|]. apply Hlt. lia.
    + intros [|i] Hi; [by exists f|]. apply IH. cbn in Hi. lia.
  - rewrite Nat.sub_diag. split_and!; [lia|done|]. intros i Hi. lia.
Qed.

(** The current process [c] has an array of NOFILE descriptors. *)
Record fd_env (s : kstate) (c : nat) : Prop := {
  fe_cur : k_cur s = Some c;
  fe_lt : (c < length (k_procs s))%nat;
  fe_ofile : length (p_ofile (get_proc c s)) = Z.to_nat NOFILE
}.

(** The descriptor in register [n]: argfd reads the low 32 bits, rejects a
    number outside of the array or without an open file, and never looks
    outside of the array. *)
Lemma argfd_spec s c n :
  fd_env s c -> 0 <= n <= 5 ->
  let fd := i32 (load64 (k_mem s) (p_trapframe (get_proc c s) + (tf_a0 + 8 * n))) in
  argfd n s = Ok (if (0 <=? fd) && (fd <? NOFILE)
                  then match mjoin (p_ofile (get_proc c s) !! Z.to_nat fd) with Some f => Some (fd, f) | None => None end
                  else None) s.
Proof.
  intros [Hc _ _] Hn fd. unfold argfd, argint, argraw. rewrite !bind_assoc, (bind_Ok _ _ _ _ _ (curproc_Ok _ _ Hc)).
  rewrite (proj2 (andb_true_iff _ _)) by lia. unfold tf_load. rewrite bind_gets, bind_ret. fold fd.
  replace ((fd <? 0) || (NOFILE <=? fd)) with (negb ((0 <=? fd) && (fd <? NOFILE)))
    by (destruct (Z.leb_spec 0 fd), (Z.ltb_spec fd NOFILE), (Z.ltb_spec fd 0), (Z.leb_spec NOFILE fd); (done || lia)).
  destruct ((0 <=? fd) && (fd <? NOFILE)); cbn [negb]; [|done].
  rewrite (bind_Ok _ _ _ _ _ (curproc_Ok _ _ Hc)), bind_gets. by destruct (mjoin _).
Qed.

(** fdalloc gives the lowest descriptor that is not in use, and argfd finds
    it.  It returns -1 and changes nothing exactly when all NOFILE descriptors
    are in use; otherwise it returns the least free [fd], only that entry of the
    process changes, and from then on a system call with [fd] in its argument
    register gets the file. *)
Theorem fdalloc_argfd s c f :
  fd_env s c ->
  let l := p_ofile (get_proc c s) in
  (fdalloc f s = Ok (-1) s /\ forall i, (i < Z.to_nat NOFILE)%nat -> exists g, l !! i = Some (Some g)) \/
  exists fd s', fdalloc f s = Ok (Z.of_nat fd) s' /\
    s' = upd_proc c (set_p_ofile (<[fd := Some f]> l)) s /\ l !! fd = Some None /\
    (forall i, (i < fd)%nat -> exists g, l !! i = Some (Some g)) /\
    forall t n, fd_env t c -> p_ofile (get_proc c t) = p_ofile (get_proc c s') -> 0 <= n <= 5 ->
      i32 (load64 (k_mem t) (p_trapframe (get_proc c t) + (tf_a0 + 8 * n))) = Z.of_nat fd ->
      argfd n t = Ok (Some (Z.of_nat fd, f)) t.
Proof.
  intros He l. pose proof He as [Hc Hlt Hlen]. fold l in Hlen. unfold fdalloc.
  rewrite (bind_Ok _ _ _ _ _ (curproc_Ok _ _ Hc)), bind_gets. fold l. pose proof (find_fd_spec l 0) as Hf.
  destruct (find_fd l 0) as [fd|]; [|left; split; [done|]; by rewrite <- Hlen].
  right. rewrite Nat.sub_0_r in Hf. destruct Hf as (_ & Hfd & Hmin). exists fd. eexists. unfold set_ofile. rewrite bind_modify.
  destruct (lookup_lt_is_Some_2 _ _ Hlt) as [p Hp]. assert (Eg : get_proc c s = p) by (unfold get_proc; by rewrite Hp).
  assert (Es : upd_proc c (fun x => set_p_ofile (<[fd := Some f]> (p_ofile x)) x) s = upd_proc c (set_p_ofile (<[fd := Some f]> l)) s).
  { unfold upd_proc. f_equal. apply list_alter_ext; [|done]. intros q. rewrite Hp. intros [= <-]. unfold l. by rewrite Eg. }
  split; [done|]. split; [exact Es|]. split; [done|]. split; [done|].
  intros t n Ht Eo Hn Er. rewrite (argfd_spec t c n Ht Hn), Er.
  rewrite Es, get_upd_proc in Eo by done. cbn [p_ofile set_p_ofile] in Eo. rewrite Eo, Nat2Z.id.
  pose proof (lookup_lt_Some _ _ _ Hfd) as Hb. rewrite list_lookup_insert_eq by done. cbn [mjoin option_join].
  rewrite (proj2 (andb_true_iff _ _)); [done|]. unfold NOFILE in *. lia.
Qed.
End SyscallSpec.

(** Descriptor 0 of a process without open files, found with a0 = 0. *)
Lemma fdalloc_argfd_witness :
  exists s', fdalloc 3 (set_k_cur (Some 0%nat) kstate0) = Ok 0 s' /\ argfd 0 s' = Ok (Some (0, 3%nat)) s'.
Proof.
  assert (He : fd_env (set_k_cur (Some 0%nat) kstate0) 0) by (split; [reflexivity|vm_compute; lia|reflexivity]).
  destruct (fdalloc_argfd _ 0 3 He) as [[_ Hall]|(fd & s' & E & Es & Hfree & Hmin & Harg)].
  - destruct (Hall 0%nat) as [g Hg]; [vm_compute; lia|discriminate Hg].
  - assert (fd = 0%nat) as ->.
    { destruct fd as [|fd]; [reflexivity|]. destruct (Hmin 0%nat) as [g Hg]; [lia|discriminate Hg]. }
    exists s'. split; [exact E|]. subst s'.
    apply (Harg _ 0); [split; [reflexivity|vm_compute; lia|reflexivity]|reflexivity|lia|reflexivity].
Defined.

Lemma fetchaddr_bounds_witness :
  exists s, fetchaddr 8 s = Ok (Some 0) s /\ fetchaddr (2 ^ 64 - 4) s = Ok None s.
Proof.
  destruct demo_uspace as (s & root & P & D & fl & Hu & HW).
  set (t := set_k_cur (Some 0%nat) (set_k_procs [set_p_sz PGSIZE (set_p_pagetable root proc0)] s)).
  assert (Hut : @uspace demo_linker t root P D fl)
    by (apply (@uspace_ext demo_linker s); [reflexivity|reflexivity|apply (wf_lock _ _ _ _ (uvm_wf _ _ _ _ _ (us_uvm _ _ _ _ _ Hu)))|exact Hu]).
  assert (Hsz : 0 <= p_sz (get_proc 0 t) <= MAXVA) by (change (0 <= 4096 <= 2 ^ 38); lia).
  pose proof (fun a Ha => @fetchaddr_bounds demo_linker t 0 P D fl a eq_refl Hut Ha Hsz) as Hb. exists t.
  split; rewrite Hb by lia.
  - assert (Hz : forall i, (i < 8)%nat -> readable t root (8 + Z.of_nat i) = true /\ umem t root (8 + Z.of_nat i) = Some 0).
    { intros i Hi. destruct (HW (8 + Z.of_nat i)) as [Hw Hm]; [unfold PGSIZE; lia|].
      split; [|exact Hm]. apply andb_true_iff in Hw as [Hr _]. exact Hr. }
    change (8 + 8 <=? p_sz (get_proc 0 t)) with true.
    rewrite (proj2 (forallb_forall _ _)) by (intros i Hi%list_elem_of_In%elem_of_seq; apply Hz; lia).
    cbn [andb]. change (p_pagetable (get_proc 0 t)) with root. do 2 f_equal.
    apply uword_zero. intros i Hi. by apply Hz.
  - change (2 ^ 64 - 4 + 8 <=? p_sz (get_proc 0 t)) with false. reflexivity.
Defined.
