(* ===== verification/Trap.v ===== *)
(** Traps (kernel/trap.c, kernel/plic.c and the interrupt bits of
    kernel/riscv.h).  The control registers of the hart are a record that the
    handlers take and return.  A handler that gives up the CPU ends in
    [Block]; the process goes on in [usertrap_resume] or [kerneltrap_resume],
    perhaps on another hart. *)
From S2P Require Import Prelude State Locks Kstring Kalloc Vm Sched Sleeplock Bio Log Uart Kprintf Either Fs Pipe Console File Proc Exec Syscall Sysproc Sysfile.

(** The registers; [h_claim] is what the PLIC's claim register will give, and
    [h_done] lists the interrupts whose service was completed. *)
Record hart : Type := mk_hart {
  h_sstatus : Z ;
  h_stvec : Z ;
  h_sepc : Z ;
  h_scause : Z ;
  h_stval : Z ;
  h_satp : Z ;
  h_tp : Z ;
  h_time : Z ;
  h_stimecmp : Z ;
  h_claim : Z ;
  h_done : list Z
}.

Definition w_sstatus (v : Z) (h : hart) : hart :=
  mk_hart v (h_stvec h) (h_sepc h) (h_scause h) (h_stval h) (h_satp h) (h_tp h) (h_time h) (h_stimecmp h) (h_claim h) (h_done h).
Definition w_stvec (v : Z) (h : hart) : hart :=
  mk_hart (h_sstatus h) v (h_sepc h) (h_scause h) (h_stval h) (h_satp h) (h_tp h) (h_time h) (h_stimecmp h) (h_claim h) (h_done h).
Definition w_sepc (v : Z) (h : hart) : hart :=
  mk_hart (h_sstatus h) (h_stvec h) v (h_scause h) (h_stval h) (h_satp h) (h_tp h) (h_time h) (h_stimecmp h) (h_claim h) (h_done h).
Definition w_satp (v : Z) (h : hart) : hart :=
  mk_hart (h_sstatus h) (h_stvec h) (h_sepc h) (h_scause h) (h_stval h) v (h_tp h) (h_time h) (h_stimecmp h) (h_claim h) (h_done h).
Definition w_stimecmp (v : Z) (h : hart) : hart :=
  mk_hart (h_sstatus h) (h_stvec h) (h_sepc h) (h_scause h) (h_stval h) (h_satp h) (h_tp h) (h_time h) v (h_claim h) (h_done h).

Definition SSTATUS_SPP : Z := Z.shiftl 1 8.
Definition SSTATUS_SPIE : Z := Z.shiftl 1 5.
Definition SSTATUS_SIE : Z := Z.shiftl 1 1.
Definition SATP_SV39 : Z := Z.shiftl 8 60.
Definition MAKE_SATP (pagetable : Z) : Z := Z.lor SATP_SV39 (Z.shiftr pagetable 12).
Definition UART0_IRQ : Z := 10.
Definition VIRTIO0_IRQ : Z := 1.

(** x & ~mask on 64 bits *)
Definition clear_mask (x mask : Z) : Z := Z.land x (Z.lxor mask (Z.ones 64)).

Definition intr_on (h : hart) : hart := w_sstatus (Z.lor (h_sstatus h) SSTATUS_SIE) h.
Definition intr_off (h : hart) : hart := w_sstatus (clear_mask (h_sstatus h) SSTATUS_SIE) h.
Definition intr_get (h : hart) : bool := has (h_sstatus h) SSTATUS_SIE.

(** A read of the claim register takes the interrupt. *)
Definition plic_claim (h : hart) : Z * hart :=
  (h_claim h, mk_hart (h_sstatus h) (h_stvec h) (h_sepc h) (h_scause h) (h_stval h) (h_satp h) (h_tp h) (h_time h) (h_stimecmp h) 0 (h_done h)).
Definition plic_complete (irq : Z) (h : hart) : hart :=
  mk_hart (h_sstatus h) (h_stvec h) (h_sepc h) (h_scause h) (h_stval h) (h_satp h) (h_tp h) (h_time h) (h_stimecmp h) (h_claim h) (h_done h ++ [irq]).

Section Trap.
Context `{Linker} `{Symbols}.

Definition trapinithart (h : hart) : hart := w_stvec sym_kernelvec h.

Definition clockintr (h : hart) : K hart :=
  when (h_tp h =? 0)
    (acquire LkTicks ;;;
     modify (fun s => set_k_ticks (u32 (k_ticks s + 1)) s) ;;;
     wakeup ChTicks ;;;
     release LkTicks) ;;;
  ret (w_stimecmp (u64 (h_time h + 1000000)) h).

(** The requests to the disk complete inside of virtio_disk_rw (Bio.v), so
    virtio_disk_intr finds no finished request here; Virtio.v models it. *)
Definition devintr (h : hart) : K (Z * hart) :=
  if h_scause h =? 0x8000000000000009 then
    let '(irq, h) := plic_claim h in
    (if irq =? UART0_IRQ then uartintr
     else if irq =? VIRTIO0_IRQ then ret tt
     else when (negb (irq =? 0)) (printf "unexpected interrupt irq=%d
"%string [AInt irq])) ;;;
    ret (1, if irq =? 0 then h else plic_complete irq h)
  else if h_scause h =? 0x8000000000000005 then
    h <- clockintr h ;; ret (2, h)
  else ret (0, h).

(** The registers, the argument and the address with which usertrapret jumps
    to userret. *)
Definition usertrapret (h : hart) : K (hart * Z * Z) :=
  p <- curproc ;;
  let h := intr_off h in
  let h := w_stvec (u64 (TRAMPOLINE + (sym_uservec - trampoline))) h in
  kstack <- gets (fun s => p_kstack (get_proc p s)) ;;
  tf_store p tf_kernel_satp (h_satp h) ;;;
  tf_store p tf_kernel_sp (u64 (kstack + PGSIZE)) ;;;
  tf_store p tf_kernel_trap sym_usertrap ;;;
  tf_store p tf_kernel_hartid (h_tp h) ;;;
  let h := w_sstatus (Z.lor (clear_mask (h_sstatus h) SSTATUS_SPP) SSTATUS_SPIE) h in
  epc <- tf_load p tf_epc ;;
  let h := w_sepc epc h in
  pt <- curpagetable ;;
  ret (h, MAKE_SATP pt, u64 (TRAMPOLINE + (sym_userret - trampoline))).

Definition usertrap_resume (h : hart) : K (hart * Z * Z) := yield_resume ;;; usertrapret h.

Definition usertrap (h : hart) : K (hart * Z * Z) :=
  if has (h_sstatus h) SSTATUS_SPP then panic "usertrap: not from user mode"
  else
    let h := w_stvec sym_kernelvec h in
    p <- curproc ;;
    tf_store p tf_epc (h_sepc h) ;;;
    r <- (if h_scause h =? 8 then
            k <- killed p ;;
            when (negb (k =? 0)) (exit (-1)) ;;;
            epc <- tf_load p tf_epc ;;
            tf_store p tf_epc (u64 (epc + 4)) ;;;
            let h := intr_on h in
            syscall ;;;
            ret (0, h)
          else
            r <- devintr h ;;
            let '(which_dev, h) := r in
            when (which_dev =? 0)
              (pid <- gets (fun s => p_pid (get_proc p s)) ;;
               printf "usertrap(): unexpected scause 0x%lx pid=%d
"%string [AInt (h_scause h); AInt pid] ;;;
               printf "            sepc=0x%lx stval=0x%lx
"%string [AInt (h_sepc h); AInt (h_stval h)] ;;;
               setkilled p) ;;;
            ret (which_dev, h)) ;;
    let '(which_dev, h) := r in
    k <- killed p ;;
    when (negb (k =? 0)) (exit (-1)) ;;;
    when (which_dev =? 2) yield ;;;
    usertrapret h.

Definition kerneltrap_resume (sepc sstatus : Z) (h : hart) : K hart :=
  yield_resume ;;; ret (w_sstatus sstatus (w_sepc sepc h)).

Definition kerneltrap (h : hart) : K hart :=
  let sepc := h_sepc h in
  let sstatus := h_sstatus h in
  let scause := h_scause h in
  if negb (has sstatus SSTATUS_SPP) then panic "kerneltrap: not from supervisor mode"
  else if intr_get h then panic "kerneltrap: interrupts enabled"
  else
    r <- devintr h ;;
    let '(which_dev, h) := r in
    if which_dev =? 0 then
      printf "scause=0x%lx sepc=0x%lx stval=0x%lx
"%string [AInt scause; AInt (h_sepc h); AInt (h_stval h)] ;;;
      panic "kerneltrap"
    else
      cur <- myproc ;;
      when ((which_dev =? 2) && match cur with Some _ => true | None => false end) yield ;;;
      ret (w_sstatus sstatus (w_sepc sepc h)).

(** The first run of a process, chosen by the scheduler. *)
Definition forkret (h : hart) : K (hart * Z * Z) :=
  p <- curproc ;;
  release (LkProc p) ;;;
  first <- gets k_first ;;
  when first (fsinit ROOTDEV ;;; modify (set_k_first false)) ;;;
  usertrapret h.
End Trap.
