(* ===== verification/Main.v ===== *)
(** The kernel page table (kernel/vm.c: kvmmake, kvminit, kvminithart) and the
    boot of hart 0 (kernel/main.c).  The spin-locks, the PLIC, the UART and the
    disk start in the state that their initialisation gives. *)
From S2P Require Import Prelude State Locks Kstring Kalloc Vm Sched Sleeplock Bio Log Uart Kprintf Either Fs Pipe Console File Proc Exec Syscall Sysproc Sysfile Trap.

Section Main.
Context `{Linker} `{Symbols}.

Definition kvmmake : K Z :=
  kpgtbl <- kalloc ;;
  modify (fun s => set_k_mem (memset (k_mem s) kpgtbl 0 PGSIZE) s) ;;;
  kvmmap kpgtbl UART0 UART0 PGSIZE (Z.lor PTE_R PTE_W) ;;;
  kvmmap kpgtbl VIRTIO0 VIRTIO0 PGSIZE (Z.lor PTE_R PTE_W) ;;;
  kvmmap kpgtbl PLIC PLIC 0x4000000 (Z.lor PTE_R PTE_W) ;;;
  kvmmap kpgtbl KERNBASE KERNBASE (etext - KERNBASE) (Z.lor PTE_R PTE_X) ;;;
  kvmmap kpgtbl etext etext (PHYSTOP - etext) (Z.lor PTE_R PTE_W) ;;;
  kvmmap kpgtbl TRAMPOLINE trampoline PGSIZE (Z.lor PTE_R PTE_X) ;;;
  proc_mapstacks kpgtbl ;;;
  ret kpgtbl.

(** kernel_pagetable = kvmmake() *)
Definition kvminit : K Z := kvmmake.

Definition kvminithart (kernel_pagetable : Z) (h : hart) : hart :=
  w_satp (MAKE_SATP kernel_pagetable) h.

(** The branch of hart 0, up to the call of scheduler(). *)
Definition main (h : hart) : K hart :=
  printfinit ;;;
  printf "
"%string [] ;;;
  printf "xv6 kernel is booting
"%string [] ;;;
  printf "
"%string [] ;;;
  kinit ;;;
  kernel_pagetable <- kvminit ;;
  let h := kvminithart kernel_pagetable h in
  procinit ;;;
  let h := trapinithart h in
  binit ;;;
  iinit ;;;
  userinit ;;;
  ret h.
End Main.
