(* ===== verification/Virtio.v ===== *)
(** The driver of the virtio disk (kernel/virtio_disk.c, kernel/virtio.h):
    descriptors, the two rings it shares with the device, requests that sleep
    until the device has served them, and the interrupt handler.

    The driver runs on top of the kernel's locks, sleep and wakeup, so its
    state is that of the kernel together with [struct disk].  The three pages
    it shares with the device are seen as the arrays they hold. *)
From S2P Require Import Prelude State Locks Kstring Kalloc Sched Bio.

Definition NUM : Z := 8.
Definition VRING_DESC_F_NEXT : Z := 1.
Definition VRING_DESC_F_WRITE : Z := 2.
Definition VIRTIO_BLK_T_IN : Z := 0.
Definition VIRTIO_BLK_T_OUT : Z := 1.

Definition VIRTIO_MMIO_MAGIC_VALUE : Z := 0x000.
Definition VIRTIO_MMIO_VERSION : Z := 0x004.
Definition VIRTIO_MMIO_DEVICE_ID : Z := 0x008.
Definition VIRTIO_MMIO_VENDOR_ID : Z := 0x00c.
Definition VIRTIO_MMIO_DEVICE_FEATURES : Z := 0x010.
Definition VIRTIO_MMIO_DRIVER_FEATURES : Z := 0x020.
Definition VIRTIO_MMIO_QUEUE_SEL : Z := 0x030.
Definition VIRTIO_MMIO_QUEUE_NUM_MAX : Z := 0x034.
Definition VIRTIO_MMIO_QUEUE_NUM : Z := 0x038.
Definition VIRTIO_MMIO_QUEUE_READY : Z := 0x044.
Definition VIRTIO_MMIO_QUEUE_NOTIFY : Z := 0x050.
Definition VIRTIO_MMIO_INTERRUPT_STATUS : Z := 0x060.
Definition VIRTIO_MMIO_INTERRUPT_ACK : Z := 0x064.
Definition VIRTIO_MMIO_STATUS : Z := 0x070.
Definition VIRTIO_MMIO_QUEUE_DESC_LOW : Z := 0x080.
Definition VIRTIO_MMIO_QUEUE_DESC_HIGH : Z := 0x084.
Definition VIRTIO_MMIO_DRIVER_DESC_LOW : Z := 0x090.
Definition VIRTIO_MMIO_DRIVER_DESC_HIGH : Z := 0x094.
Definition VIRTIO_MMIO_DEVICE_DESC_LOW : Z := 0x0a0.
Definition VIRTIO_MMIO_DEVICE_DESC_HIGH : Z := 0x0a4.

Definition VIRTIO_CONFIG_S_ACKNOWLEDGE : Z := 1.
Definition VIRTIO_CONFIG_S_DRIVER : Z := 2.
Definition VIRTIO_CONFIG_S_DRIVER_OK : Z := 4.
Definition VIRTIO_CONFIG_S_FEATURES_OK : Z := 8.

Definition VIRTIO_BLK_F_RO : Z := 5.
Definition VIRTIO_BLK_F_SCSI : Z := 7.
Definition VIRTIO_BLK_F_CONFIG_WCE : Z := 11.
Definition VIRTIO_BLK_F_MQ : Z := 12.
Definition VIRTIO_F_ANY_LAYOUT : Z := 27.
Definition VIRTIO_RING_F_INDIRECT_DESC : Z := 28.
Definition VIRTIO_RING_F_EVENT_IDX : Z := 29.

(** * Data *)

(** The objects whose addresses the driver gives to the device. *)
Inductive dma : Type :=
| DmaNull
| DmaOps (i : Z)           (* &disk.ops[i] *)
| DmaData (b : nat)        (* b->data *)
| DmaStatus (i : Z).       (* &disk.info[i].status *)

Record virtq_desc : Type := mk_desc { addr : dma ; len : Z ; flags : Z ; next : Z }.
Record virtio_blk_req : Type := mk_req { type : Z ; reserved : Z ; sector : Z }.
Record op_info : Type := mk_info { info_b : option nat ; info_status : Z }.

Definition desc0 : virtq_desc := mk_desc DmaNull 0 0 0.
Definition req0 : virtio_blk_req := mk_req 0 0 0.
Definition info0 : op_info := mk_info None 0.

(** An array is a finite map from its indices. *)
Record vdisk : Type := mk_vdisk {
  desc : gmap Z virtq_desc ;
  avail_idx : Z ;                (* disk.avail->idx *)
  avail_ring : gmap Z Z ;        (* disk.avail->ring *)
  used_dev : Z ;                 (* disk.used->idx, which the device writes *)
  used_ring : gmap Z Z ;         (* disk.used->ring[].id *)
  free : gmap Z bool ;
  used_idx : Z ;
  info : gmap Z op_info ;
  ops : gmap Z virtio_blk_req
}.

Definition set_desc x d := mk_vdisk x (avail_idx d) (avail_ring d) (used_dev d) (used_ring d) (free d) (used_idx d) (info d) (ops d).
Definition set_avail_idx x d := mk_vdisk (desc d) x (avail_ring d) (used_dev d) (used_ring d) (free d) (used_idx d) (info d) (ops d).
Definition set_avail_ring x d := mk_vdisk (desc d) (avail_idx d) x (used_dev d) (used_ring d) (free d) (used_idx d) (info d) (ops d).
Definition set_used_dev x d := mk_vdisk (desc d) (avail_idx d) (avail_ring d) x (used_ring d) (free d) (used_idx d) (info d) (ops d).
Definition set_used_ring x d := mk_vdisk (desc d) (avail_idx d) (avail_ring d) (used_dev d) x (free d) (used_idx d) (info d) (ops d).
Definition set_free x d := mk_vdisk (desc d) (avail_idx d) (avail_ring d) (used_dev d) (used_ring d) x (used_idx d) (info d) (ops d).
Definition set_used_idx x d := mk_vdisk (desc d) (avail_idx d) (avail_ring d) (used_dev d) (used_ring d) (free d) x (info d) (ops d).
Definition set_info x d := mk_vdisk (desc d) (avail_idx d) (avail_ring d) (used_dev d) (used_ring d) (free d) (used_idx d) x (ops d).
Definition set_ops x d := mk_vdisk (desc d) (avail_idx d) (avail_ring d) (used_dev d) (used_ring d) (free d) (used_idx d) (info d) x.

Definition desc_at (d : vdisk) (i : Z) : virtq_desc := default desc0 (desc d !! i).
Definition info_at (d : vdisk) (i : Z) : op_info := default info0 (info d !! i).
Definition ops_at (d : vdisk) (i : Z) : virtio_blk_req := default req0 (ops d !! i).
Definition free_at (d : vdisk) (i : Z) : bool := default false (free d !! i).

(** The kernel with the driver; [v_mmio] lists the writes to the registers of
    the device, in order. *)
Record vstate : Type := mk_vstate { v_k : kstate ; v_disk : vdisk ; v_mmio : list (Z * Z) }.
Definition set_v_k x v := mk_vstate x (v_disk v) (v_mmio v).
Definition set_v_disk x v := mk_vstate (v_k v) x (v_mmio v).

(** Where a process sleeps in the driver: in the loop of alloc3_desc or in the
    one that waits for the device; a routine of the kernel that the driver
    calls does not sleep. *)
Inductive vpc : Type :=
| WantDesc (b : nat) (write : bool) (sec : Z)
| WaitDisk (b : nat) (write : bool) (i0 : Z)
| InKernel (ch : chan).

Definition V (A : Type) : Type := M vpc vstate A.

Definition lift {A} (pc : chan -> vpc) (k : K A) : V A := fun v =>
  match k (v_k v) with
  | Ok a s => Ok a (set_v_k s v)
  | Panic msg => Panic msg
  | Block ch s => Block (pc ch) (set_v_k s v)
  | Diverge => Diverge
  end.
Definition kernel {A} (k : K A) : V A := lift InKernel k.
Definition vsleep (ch : chan) (pc : vpc) : V unit := lift (fun _ => pc) (sleep ch LkDisk).

Definition upd_disk (f : vdisk -> vdisk) : V unit := modify (fun v => set_v_disk (f (v_disk v)) v).
Definition write_reg (r x : Z) : V unit := modify (fun v => mk_vstate (v_k v) (v_disk v) (v_mmio v ++ [(r, u32 x)])).

(** * The driver *)

Definition set_desc_at (i : Z) (f : virtq_desc -> virtq_desc) : V unit :=
  upd_disk (fun d => set_desc (<[i := f (desc_at d i)]> (desc d)) d).
Definition set_info_at (i : Z) (f : op_info -> op_info) : V unit :=
  upd_disk (fun d => set_info (<[i := f (info_at d i)]> (info d)) d).
Definition set_ops_at (i : Z) (r : virtio_blk_req) : V unit :=
  upd_disk (fun d => set_ops (<[i := r]> (ops d)) d).
Definition set_free_at (i : Z) (x : bool) : V unit :=
  upd_disk (fun d => set_free (<[i := x]> (free d)) d).
Definition upd_vbuf (b : nat) (f : buf -> buf) : V unit := modify (fun v => set_v_k (upd_buf b f (v_k v)) v).

Definition alloc_desc : V Z :=
  r <- for_loop (Z.to_nat NUM) 0 (fun i =>
    f <- gets (fun v => free_at (v_disk v) i) ;;
    if f then set_free_at i false ;;; ret (Some i) else ret None) ;;
  ret (default (-1) r).

Definition free_desc (i : Z) : V unit :=
  if NUM <=? i then panic "free_desc 1"
  else
    f <- gets (fun v => free_at (v_disk v) i) ;;
    if (f : bool) then panic "free_desc 2"
    else
      set_desc_at i (fun _ => desc0) ;;;
      set_free_at i true ;;;
      kernel (wakeup ChDesc).

(** A descriptor is freed at most once, so [NUM + 1] rounds are enough. *)
Fixpoint free_chain_loop (fuel : nat) (i : Z) : V unit :=
  match fuel with
  | O => fun _ => Diverge
  | S fuel =>
      flag <- gets (fun v => flags (desc_at (v_disk v) i)) ;;
      nxt <- gets (fun v => next (desc_at (v_disk v) i)) ;;
      free_desc i ;;;
      if negb (Z.land flag VRING_DESC_F_NEXT =? 0) then free_chain_loop fuel nxt else ret tt
  end.
Definition free_chain (i : Z) : V unit := free_chain_loop (S (Z.to_nat NUM)) i.

(** for(int j = 0; j < i; j++) free_desc(idx[j]); *)
Fixpoint free_descs (idx : list Z) : V unit :=
  match idx with
  | [] => ret tt
  | j :: idx => free_desc j ;;; free_descs idx
  end.

(** The array idx of [n] more descriptors, or None for -1. *)
Fixpoint alloc3_loop (n : nat) (idx : list Z) : V (option (list Z)) :=
  match n with
  | O => ret (Some idx)
  | S n =>
      a <- alloc_desc ;;
      if a <? 0 then free_descs idx ;;; ret None else alloc3_loop n (idx ++ [a])
  end.
Definition alloc3_desc : V (option (list Z)) := alloc3_loop 3 [].

(** Format the three descriptors and hand them to the device. *)
Definition rw_format (b : nat) (write : bool) (sec : Z) (i0 i1 i2 : Z) : V unit :=
  set_ops_at i0 (mk_req (if write then VIRTIO_BLK_T_OUT else VIRTIO_BLK_T_IN) 0 sec) ;;;
  set_desc_at i0 (fun _ => mk_desc (DmaOps i0) 16 VRING_DESC_F_NEXT (u16 i1)) ;;;
  set_desc_at i1 (fun _ => mk_desc (DmaData b) BSIZE
    (Z.lor (if write then 0 else VRING_DESC_F_WRITE) VRING_DESC_F_NEXT) (u16 i2)) ;;;
  set_info_at i0 (fun x => mk_info (info_b x) 0xff) ;;;
  set_desc_at i2 (fun _ => mk_desc (DmaStatus i0) 1 VRING_DESC_F_WRITE 0) ;;;
  upd_vbuf b (set_b_disk true) ;;;
  set_info_at i0 (fun x => mk_info (Some b) (info_status x)) ;;;
  upd_disk (fun d => set_avail_ring (<[avail_idx d mod NUM := u16 i0]> (avail_ring d)) d) ;;;
  upd_disk (fun d => set_avail_idx (u16 (avail_idx d + 1)) d) ;;;
  write_reg VIRTIO_MMIO_QUEUE_NOTIFY 0.

(** while(b->disk == 1) sleep(b, &disk.vdisk_lock), and what follows it. *)
Definition rw_wait (b : nat) (write : bool) (i0 : Z) : V unit :=
  x <- gets (fun v => b_disk (get_buf b (v_k v))) ;;
  if (x : bool) then vsleep (ChDiskBuf b) (WaitDisk b write i0)
  else
    set_info_at i0 (fun x => mk_info None (info_status x)) ;;;
    free_chain i0 ;;;
    kernel (release LkDisk).

(** The loop that allocates the descriptors, and what follows it. *)
Definition rw_alloc (b : nat) (write : bool) (sec : Z) : V unit :=
  r <- alloc3_desc ;;
  match r with
  | Some [i0; i1; i2] => rw_format b write sec i0 i1 i2 ;;; rw_wait b write i0
  | _ => vsleep ChDesc (WantDesc b write sec)
  end.

Definition virtio_disk_rw (b : nat) (write : bool) : V unit :=
  sec <- gets (fun v => u32 (b_blockno (get_buf b (v_k v)) * (BSIZE / 512))) ;;
  kernel (acquire LkDisk) ;;;
  rw_alloc b write sec.

(** What a process does when it runs again after a sleep in the driver. *)
Definition vresume (pc : vpc) : V unit :=
  kernel (sleep_resume LkDisk) ;;;
  match pc with
  | WantDesc b write sec => rw_alloc b write sec
  | WaitDisk b write i0 => rw_wait b write i0
  | InKernel _ => ub
  end.

(** The values the registers read as are up to the device: [reg w r] is what
    register [r] reads as after the writes [w]. *)
Section Registers.
Context (reg : list (Z * Z) -> Z -> Z).

Definition read_reg (r : Z) : V Z := gets (fun v => u32 (reg (v_mmio v) r)).

(** The handler: what precedes the loop, one round of it, and the loop. *)
Definition intr_enter : V unit :=
  kernel (acquire LkDisk) ;;;
  st <- read_reg VIRTIO_MMIO_INTERRUPT_STATUS ;;
  write_reg VIRTIO_MMIO_INTERRUPT_ACK (Z.land st 3).

Definition intr_round : V unit :=
  id <- gets (fun v => default 0 (used_ring (v_disk v) !! (used_idx (v_disk v) mod NUM))) ;;
  x <- gets (fun v => info_at (v_disk v) id) ;;
  if negb (info_status x =? 0) then panic "virtio_disk_intr status"
  else
    match info_b x with
    | None => ub
    | Some b =>
        upd_vbuf b (set_b_disk false) ;;;
        kernel (wakeup (ChDiskBuf b)) ;;;
        upd_disk (fun d => set_used_idx (u16 (used_idx d + 1)) d)
    end.

Definition intr_pending (v : vstate) : bool := negb (used_idx (v_disk v) =? used_dev (v_disk v)).

Fixpoint intr_loop (fuel : nat) : V unit :=
  match fuel with
  | O => fun _ => Diverge
  | S fuel => p <- gets intr_pending ;; if (p : bool) then intr_round ;;; intr_loop fuel else ret tt
  end.

(** With a device that adds nothing meanwhile, the indices meet after at most
    2^16 - 1 rounds. *)
Definition virtio_disk_intr : V unit :=
  intr_enter ;;; intr_loop (Z.to_nat (2 ^ 16)) ;;; kernel (release LkDisk).

Definition clear_bits (bits : list Z) (features : Z) : Z :=
  foldl (fun f b => Z.land f (u64 (Z.lnot (Z.shiftl 1 b)))) features bits.

Definition virtio_disk_init : V unit :=
  magic <- read_reg VIRTIO_MMIO_MAGIC_VALUE ;;
  version <- read_reg VIRTIO_MMIO_VERSION ;;
  device <- read_reg VIRTIO_MMIO_DEVICE_ID ;;
  vendor <- read_reg VIRTIO_MMIO_VENDOR_ID ;;
  if negb (magic =? 0x74726976) || negb (version =? 2) || negb (device =? 2) || negb (vendor =? 0x554d4551)
  then panic "could not find virtio disk"
  else
  let status := 0 in
  write_reg VIRTIO_MMIO_STATUS status ;;;
  let status := Z.lor status VIRTIO_CONFIG_S_ACKNOWLEDGE in
  write_reg VIRTIO_MMIO_STATUS status ;;;
  let status := Z.lor status VIRTIO_CONFIG_S_DRIVER in
  write_reg VIRTIO_MMIO_STATUS status ;;;
  features <- read_reg VIRTIO_MMIO_DEVICE_FEATURES ;;
  write_reg VIRTIO_MMIO_DRIVER_FEATURES
    (clear_bits [VIRTIO_BLK_F_RO; VIRTIO_BLK_F_SCSI; VIRTIO_BLK_F_CONFIG_WCE; VIRTIO_BLK_F_MQ;
                 VIRTIO_F_ANY_LAYOUT; VIRTIO_RING_F_EVENT_IDX; VIRTIO_RING_F_INDIRECT_DESC] features) ;;;
  let status := Z.lor status VIRTIO_CONFIG_S_FEATURES_OK in
  write_reg VIRTIO_MMIO_STATUS status ;;;
  status <- read_reg VIRTIO_MMIO_STATUS ;;
  if Z.land status VIRTIO_CONFIG_S_FEATURES_OK =? 0 then panic "virtio disk FEATURES_OK unset"
  else
  write_reg VIRTIO_MMIO_QUEUE_SEL 0 ;;;
  ready <- read_reg VIRTIO_MMIO_QUEUE_READY ;;
  if negb (ready =? 0) then panic "virtio disk should not be ready"
  else
  max <- read_reg VIRTIO_MMIO_QUEUE_NUM_MAX ;;
  if max =? 0 then panic "virtio disk has no queue 0"
  else if max <? NUM then panic "virtio disk max queue too short"
  else
  pd <- kernel kalloc ;;
  pa <- kernel kalloc ;;
  pu <- kernel kalloc ;;
  if (pd =? 0) || (pa =? 0) || (pu =? 0) then panic "virtio disk kalloc"
  else
  modify (fun v => set_v_k (set_k_mem (memset (k_mem (v_k v)) pd 0 PGSIZE) (v_k v)) v) ;;;
  upd_disk (set_desc ∅) ;;;
  modify (fun v => set_v_k (set_k_mem (memset (k_mem (v_k v)) pa 0 PGSIZE) (v_k v)) v) ;;;
  upd_disk (fun d => set_avail_ring ∅ (set_avail_idx 0 d)) ;;;
  modify (fun v => set_v_k (set_k_mem (memset (k_mem (v_k v)) pu 0 PGSIZE) (v_k v)) v) ;;;
  upd_disk (fun d => set_used_ring ∅ (set_used_dev 0 d)) ;;;
  write_reg VIRTIO_MMIO_QUEUE_NUM NUM ;;;
  write_reg VIRTIO_MMIO_QUEUE_DESC_LOW pd ;;;
  write_reg VIRTIO_MMIO_QUEUE_DESC_HIGH (Z.shiftr pd 32) ;;;
  write_reg VIRTIO_MMIO_DRIVER_DESC_LOW pa ;;;
  write_reg VIRTIO_MMIO_DRIVER_DESC_HIGH (Z.shiftr pa 32) ;;;
  write_reg VIRTIO_MMIO_DEVICE_DESC_LOW pu ;;;
  write_reg VIRTIO_MMIO_DEVICE_DESC_HIGH (Z.shiftr pu 32) ;;;
  write_reg VIRTIO_MMIO_QUEUE_READY 1 ;;;
  for_loop (Z.to_nat NUM) 0 (fun i => set_free_at i true ;;; ret (@None unit)) ;;;
  let status := Z.lor status VIRTIO_CONFIG_S_DRIVER_OK in
  write_reg VIRTIO_MMIO_STATUS status.
End Registers.
