(* ===== verification/VirtioSpec.v ===== *)
(** The disk driver together with the device, the interrupts and the other
    processes: requests are served exactly once and with the effect the buffer
    cache relies on, no check of the driver fails, and no request waits for
    ever. *)
From S2P Require Import Prelude State Locks Kstring Kalloc Vm PageTable Sched SchedSpec Ring Sleeplock Bio BioList BioSpec Virtio.

(** * The routines of the driver *)

(** The driver's lock is held and the process table is complete. *)
Record locked (k : kstate) : Prop := {
  lo_held : k_held k = [LkDisk];
  lo_procs : length (k_procs k) = Z.to_nat NPROC
}.

Definition wake (ch : chan) (k : kstate) : kstate := set_k_procs (imap (woken (k_cur k) ch) (k_procs k)) k.

Lemma locked_wake ch k : locked k -> locked (wake ch k).
Proof. intros [Hh Hp]. split; [done|]. cbn. by rewrite length_imap. Qed.

Lemma wake_twice ch k : wake ch (wake ch k) = wake ch k.
Proof. unfold wake. destruct k; cbn. by rewrite woken_twice. Qed.

Lemma vwakeup ch k d l : locked k -> kernel (wakeup ch) (mk_vstate k d l) = Ok tt (mk_vstate (wake ch k) d l).
Proof.
  intros [Hh Hp]. unfold kernel, lift. cbn [v_k]. rewrite wakeup_spec; [done| |done].
  intros i. rewrite Hh. set_solver.
Qed.

Lemma free_at_set d i x j D : free_at (set_free (<[i := x]> (free d)) (set_desc D d)) j = if decide (i = j) then x else free_at d j.
Proof. unfold free_at. cbn. case_decide; subst; [by rewrite lookup_insert_eq|by rewrite lookup_insert_ne]. Qed.

Lemma desc_at_set d i x j : desc_at (set_desc (<[i := x]> (desc d)) d) j = if decide (i = j) then x else desc_at d j.
Proof. unfold desc_at. cbn. case_decide; subst; [by rewrite lookup_insert_eq|by rewrite lookup_insert_ne]. Qed.

Definition taken (d : vdisk) (i : Z) : vdisk := set_free (<[i := false]> (free d)) d.
Definition freed (d : vdisk) (i : Z) : vdisk := set_free (<[i := true]> (free d)) (set_desc (<[i := desc0]> (desc d)) d).

Lemma free_taken d i j : free_at (taken d i) j = if decide (i = j) then false else free_at d j.
Proof. unfold free_at, taken. cbn. case_decide; subst; [by rewrite lookup_insert_eq|by rewrite lookup_insert_ne]. Qed.
Lemma free_freed d i j : free_at (freed d i) j = if decide (i = j) then true else free_at d j.
Proof. unfold free_at, freed. cbn. case_decide; subst; [by rewrite lookup_insert_eq|by rewrite lookup_insert_ne]. Qed.
Lemma desc_freed d i j : desc_at (freed d i) j = if decide (i = j) then desc0 else desc_at d j.
Proof. unfold desc_at, freed. cbn. case_decide; subst; [by rewrite lookup_insert_eq|by rewrite lookup_insert_ne]. Qed.

Lemma alloc_desc_spec k d l :
  (exists i, 0 <= i < NUM /\ free_at d i = true /\ alloc_desc (mk_vstate k d l) = Ok i (mk_vstate k (taken d i) l)) \/
  (forall i, 0 <= i < NUM -> free_at d i = false) /\ alloc_desc (mk_vstate k d l) = Ok (-1) (mk_vstate k d l).
Proof.
  unfold alloc_desc.
  destruct (for_loop_exit (A:=Z) (Z.to_nat NUM) 0
    (fun i => f <- gets (fun v => free_at (v_disk v) i) ;; if f then set_free_at i false ;;; ret (Some i) else ret None)
    (fun j v => v = mk_vstate k d l /\ forall i, 0 <= i < j -> free_at d i = false)
    (fun i v => 0 <= i < NUM /\ free_at d i = true /\ v = mk_vstate k (taken d i) l) (mk_vstate k d l))
    as (v & [[E [-> Hn]]|(i & E & Hi & Hf & ->)]).
  - intros j v Hj [-> Hn]. rewrite bind_gets. cbn [v_disk]. unfold NUM in *. destruct (free_at d j) eqn:Ej.
    + exists (mk_vstate k (taken d j) l). right. exists j. split; [done|]. split; [lia|done].
    + exists (mk_vstate k d l). left. split; [done|]. split; [done|]. intros i Hi. destruct (Z.eq_dec i j) as [->|]; [done|apply Hn; lia].
  - split; [done|lia].
  - right. split; [exact Hn|]. by rewrite (bind_Ok _ _ _ _ _ E).
  - left. exists i. split; [done|]. split; [done|]. by rewrite (bind_Ok _ _ _ _ _ E).
Qed.

Lemma free_desc_spec k d l i :
  locked k -> i < NUM -> free_at d i = false ->
  free_desc i (mk_vstate k d l) = Ok tt (mk_vstate (wake ChDesc k) (freed d i) l).
Proof.
  intros Hk Hi Hf. unfold free_desc. rewrite (proj2 (Z.leb_gt _ _)), bind_gets by lia. cbn [v_disk]. rewrite Hf.
  unfold set_desc_at, set_free_at, upd_disk. rewrite !bind_modify. by apply (vwakeup ChDesc k (freed d i)).
Qed.

(** What alloc3_desc does to the driver when it fails: the descriptors it had
    taken are free again and cleared, and the processes that wait for one were
    woken. *)
Record gave_back (d : vdisk) (idx : list Z) (d' : vdisk) : Prop := {
  gb_rest : exists F D, d' = set_free F (set_desc D d);
  gb_free : forall i, free_at d' i = free_at d i || bool_decide (i ∈ idx);
  gb_desc : forall i, i ∉ idx -> desc_at d' i = desc_at d i
}.

Lemma free_descs_spec l idx : forall k d,
  locked k -> NoDup idx -> Forall (fun i => i < NUM /\ free_at d i = false) idx ->
  exists k' d', free_descs idx (mk_vstate k d l) = Ok tt (mk_vstate k' d' l) /\ (k' = k \/ k' = wake ChDesc k) /\ gave_back d idx d'.
Proof.
  induction idx as [|i idx IH]; intros k d Hk Hnd Hf.
  - exists k, d. split; [done|]. split; [by left|]. split; [exists (free d), (desc d); by destruct d| |done].
    intros i. by rewrite bool_decide_eq_false_2, orb_false_r by set_solver.
  - apply Forall_cons in Hf as [[Hi Hfi] Hf]. apply NoDup_cons in Hnd as [Hni Hnd].
    cbn [free_descs]. rewrite (bind_Ok _ _ _ _ _ (free_desc_spec k d l i Hk Hi Hfi)).
    destruct (IH (wake ChDesc k) (freed d i) (locked_wake _ _ Hk) Hnd) as (k' & d' & E & Hk' & [(F & D & ->) Hfr Hde]).
    { rewrite Forall_forall in *. intros j Hj. rewrite free_freed, decide_False by (by intros ->). by apply Hf. }
    exists k', (set_free F (set_desc D (freed d i))). split; [done|]. split; [right; destruct Hk' as [->| ->]; [done|apply wake_twice]|].
    split.
    + by exists F, D.
    + intros j. rewrite Hfr, free_freed. destruct (decide (i = j)) as [->|Hne].
      * rewrite (bool_decide_eq_true_2 (j ∈ j :: idx)) by set_solver. by rewrite orb_true_r.
      * f_equal. apply bool_decide_ext. set_solver.
    + intros j Hj. rewrite Hde, desc_freed, decide_False by set_solver. done.
Qed.

Definition untaken (d : vdisk) (idx : list Z) : Prop := NoDup idx /\ Forall (fun i => 0 <= i < NUM /\ free_at d i = true) idx.

Lemma untaken_snoc d idx i : untaken d idx -> 0 <= i < NUM -> free_at (foldl taken d idx) i = true -> untaken d (idx ++ [i]).
Proof.
  intros [Hnd Hf] Hi Hfi.
  assert (E : forall idx d, free_at (foldl taken d idx) i = true -> i ∉ idx /\ free_at d i = true).
  { clear. induction idx as [|j idx IH]; intros d H; [split; [apply not_elem_of_nil|done]|]. apply IH in H as [Hn H].
    rewrite free_taken in H. case_decide; [done|]. split; [set_solver|done]. }
  apply E in Hfi as [Hn Hfi]. split.
  - apply NoDup_app. split; [done|]. split; [intros x Hx ->%list_elem_of_singleton; done|]. apply NoDup_singleton.
  - apply Forall_app. split; [done|]. by apply Forall_singleton.
Qed.

Lemma free_foldl idx : forall d i, free_at (foldl taken d idx) i = free_at d i && negb (bool_decide (i ∈ idx)).
Proof.
  induction idx as [|j idx IH]; intros d i; cbn [foldl].
  - by rewrite bool_decide_eq_false_2, andb_true_r by apply not_elem_of_nil.
  - rewrite IH, free_taken. destruct (decide (j = i)) as [->|Hne].
    + rewrite (bool_decide_eq_true_2 (i ∈ i :: idx)) by set_solver. by rewrite andb_false_r.
    + f_equal. f_equal. apply bool_decide_ext. set_solver.
Qed.

Lemma foldl_taken idx : forall d, exists F, foldl taken d idx = set_free F d.
Proof.
  induction idx as [|j idx IH]; intros d; [exists (free d); by destruct d|]. destruct (IH (taken d j)) as [F E].
  exists F. cbn [foldl]. by rewrite E.
Qed.

Lemma alloc3_loop_spec k l d n : forall idx,
  locked k -> untaken d idx ->
  (exists idx', length idx' = n /\ untaken d (idx ++ idx') /\
     alloc3_loop n idx (mk_vstate k (foldl taken d idx) l) = Ok (Some (idx ++ idx')) (mk_vstate k (foldl taken d (idx ++ idx')) l)) \/
  (exists idx' k' d', (length idx' < n)%nat /\ untaken d (idx ++ idx') /\
     alloc3_loop n idx (mk_vstate k (foldl taken d idx) l) = Ok None (mk_vstate k' d' l) /\
     (k' = k \/ k' = wake ChDesc k) /\
     (forall i, 0 <= i < NUM -> i ∉ idx ++ idx' -> free_at d i = false) /\
     (exists F D, d' = set_free F (set_desc D d)) /\ (forall i, free_at d' i = free_at d i) /\
     forall i, free_at d i = false -> desc_at d' i = desc_at d i).
Proof.
  induction n as [|n IH]; intros idx Hk Hu.
  - left. exists []. rewrite app_nil_r. done.
  - cbn [alloc3_loop]. destruct (alloc_desc_spec k (foldl taken d idx) l) as [(i & Hi & Hf & E)|[Hn E]]; rewrite (bind_Ok _ _ _ _ _ E).
    + rewrite (proj2 (Z.ltb_ge _ _)) by lia. replace (taken (foldl taken d idx) i) with (foldl taken d (idx ++ [i])) by (by rewrite foldl_app).
      destruct (IH (idx ++ [i]) Hk (untaken_snoc _ _ _ Hu Hi Hf)) as [(idx' & Hl & Hu' & E')|(idx' & k' & d' & Hl & Hu' & E' & R)].
      * left. exists (i :: idx'). rewrite <- app_assoc in *. split; [cbn; lia|]. done.
      * right. exists (i :: idx'), k', d'. rewrite <- app_assoc in *. split; [cbn; lia|]. done.
    + right. rewrite (proj2 (Z.ltb_lt _ _)) by lia. destruct Hu as [Hnd Hall].
      destruct (free_descs_spec l idx k (foldl taken d idx) Hk Hnd) as (k' & d' & E' & Hk' & [(F & D & ->) Hfr Hde]).
      { rewrite Forall_forall in *. intros i Hi. split; [by apply Hall|]. rewrite free_foldl, bool_decide_eq_true_2 by done. apply andb_false_r. }
      destruct (foldl_taken idx d) as [F0 E0].
      exists [], k', (set_free F (set_desc D (foldl taken d idx))). rewrite app_nil_r. split; [cbn; lia|]. split; [done|].
      rewrite (bind_Ok _ _ _ _ _ E'). split; [done|]. split; [done|]. split; [|split; [|split]].
      * intros i Hi Hni. specialize (Hn i Hi). rewrite free_foldl, bool_decide_eq_false_2, andb_true_r in Hn by done. done.
      * exists F, D. rewrite E0. done.
      * intros i. rewrite Hfr, free_foldl. case_bool_decide as Hin; [|by rewrite orb_false_r, andb_true_r].
        rewrite Forall_forall in Hall. destruct (Hall i Hin) as [_ ->]. done.
      * intros i Hi. assert (i ∉ idx) by (intros Hin; rewrite Forall_forall in Hall; destruct (Hall i Hin); congruence).
        rewrite Hde by done. rewrite E0. done.
Qed.

Definition slept (p : nat) (ch : chan) (k : kstate) : kstate := set_k_cur None (set_k_held [] (upd_proc p (asleep ch) k)).

Lemma vsleep_spec k d l p ch pc :
  locked k -> k_cur k = Some p -> (p < Z.to_nat NPROC)%nat ->
  vsleep ch pc (mk_vstate k d l) = Block pc (mk_vstate (slept p ch k) d l).
Proof.
  intros [Hh Hp] Hc Hlt. unfold vsleep, lift. cbn [v_k]. by rewrite (sleep_spec ch LkDisk k p) by (done || lia).
Qed.

(** The three descriptors of a request, and the request they describe. *)
Record chain (d : vdisk) (b : nat) (w : bool) (i0 i1 i2 : Z) : Prop := {
  rq_nodup : NoDup [i0; i1; i2];
  rq_used : Forall (fun i => 0 <= i < NUM /\ free_at d i = false) [i0; i1; i2];
  rq_desc0 : desc_at d i0 = mk_desc (DmaOps i0) 16 VRING_DESC_F_NEXT i1;
  rq_desc1 : desc_at d i1 = mk_desc (DmaData b) BSIZE (Z.lor (if w then 0 else VRING_DESC_F_WRITE) VRING_DESC_F_NEXT) i2;
  rq_desc2 : desc_at d i2 = mk_desc (DmaStatus i0) 1 VRING_DESC_F_WRITE 0
}.

Record request (d : vdisk) (b : nat) (w : bool) (sec i0 i1 i2 : Z) : Prop := {
  rq_chain : chain d b w i0 i1 i2;
  rq_ops : ops_at d i0 = mk_req (if w then VIRTIO_BLK_T_OUT else VIRTIO_BLK_T_IN) 0 sec;
  rq_info : info_b (info_at d i0) = Some b
}.

(** Requests depend only on their own descriptors. *)
Lemma request_ext d d' b w sec i0 i1 i2 :
  (forall i, i ∈ [i0; i1; i2] -> free_at d' i = free_at d i /\ desc_at d' i = desc_at d i) ->
  ops_at d' i0 = ops_at d i0 -> info_b (info_at d' i0) = info_b (info_at d i0) ->
  request d b w sec i0 i1 i2 -> request d' b w sec i0 i1 i2.
Proof.
  intros He Ho Hi [[Hnd Hu H0 H1 H2] Hop Hin].
  destruct (He i0 ltac:(set_solver)), (He i1 ltac:(set_solver)), (He i2 ltac:(set_solver)).
  split; [|congruence..]. split; try congruence.
  rewrite Forall_forall in *. intros i Hel. destruct (He i Hel) as [-> _]. by apply Hu.
Qed.

Definition formatted (d : vdisk) (b : nat) (w : bool) (sec i0 i1 i2 : Z) : vdisk :=
  mk_vdisk
    (<[i2 := mk_desc (DmaStatus i0) 1 VRING_DESC_F_WRITE 0]>
     (<[i1 := mk_desc (DmaData b) BSIZE (Z.lor (if w then 0 else VRING_DESC_F_WRITE) VRING_DESC_F_NEXT) i2]>
      (<[i0 := mk_desc (DmaOps i0) 16 VRING_DESC_F_NEXT i1]> (desc d))))
    (u16 (avail_idx d + 1)) (<[avail_idx d mod NUM := i0]> (avail_ring d))
    (used_dev d) (used_ring d) (free d) (used_idx d) (<[i0 := mk_info (Some b) 0xff]> (info d))
    (<[i0 := mk_req (if w then VIRTIO_BLK_T_OUT else VIRTIO_BLK_T_IN) 0 sec]> (ops d)).

Lemma u16_num i : 0 <= i < NUM -> u16 i = i.
Proof. unfold NUM. intros. apply Z.mod_small. lia. Qed.

Lemma rw_format_spec k d l b w sec i0 i1 i2 :
  0 <= i0 < NUM -> 0 <= i1 < NUM -> 0 <= i2 < NUM ->
  rw_format b w sec i0 i1 i2 (mk_vstate k d l) =
    Ok tt (mk_vstate (upd_buf b (set_b_disk true) k) (formatted d b w sec i0 i1 i2) (l ++ [(VIRTIO_MMIO_QUEUE_NOTIFY, 0)])).
Proof.
  intros H0 H1 H2. unfold rw_format, set_ops_at, set_desc_at, set_info_at, upd_vbuf, upd_disk, write_reg.
  rewrite !(u16_num i0), !(u16_num i1), !(u16_num i2) by done. rewrite !bind_modify. unfold modify, formatted.
  do 2 f_equal. cbn. f_equal. rewrite insert_insert_eq. unfold info_at. cbn. by rewrite lookup_insert_eq.
Qed.

Lemma formatted_request d b w sec i0 i1 i2 :
  NoDup [i0; i1; i2] -> Forall (fun i => 0 <= i < NUM /\ free_at d i = false) [i0; i1; i2] ->
  request (formatted d b w sec i0 i1 i2) b w sec i0 i1 i2.
Proof.
  intros Hnd Hu. pose proof Hnd as [H0 [H1 _]%NoDup_cons]%NoDup_cons.
  apply not_elem_of_cons in H0 as [H01 [H02 _]%not_elem_of_cons]. apply not_elem_of_cons in H1 as [H12 _].
  split; [split; try done|..]; unfold desc_at, ops_at, info_at; cbn.
  - by rewrite !lookup_insert_ne, lookup_insert_eq by done.
  - by rewrite lookup_insert_ne, lookup_insert_eq by done.
  - by rewrite lookup_insert_eq.
  - by rewrite lookup_insert_eq.
  - by rewrite lookup_insert_eq.
Qed.

Lemma formatted_desc d b w sec i0 i1 i2 i : i ∉ [i0; i1; i2] -> desc_at (formatted d b w sec i0 i1 i2) i = desc_at d i.
Proof. intros H. unfold desc_at. cbn. by rewrite !lookup_insert_ne by set_solver. Qed.

Definition freed3 (d : vdisk) (i0 i1 i2 : Z) : vdisk := freed (freed (freed d i0) i1) i2.

Lemma free_chain_step k d l n i :
  locked k -> i < NUM -> free_at d i = false ->
  free_chain_loop (S n) i (mk_vstate k d l) =
    if negb (Z.land (flags (desc_at d i)) VRING_DESC_F_NEXT =? 0)
    then free_chain_loop n (next (desc_at d i)) (mk_vstate (wake ChDesc k) (freed d i) l)
    else Ok tt (mk_vstate (wake ChDesc k) (freed d i) l).
Proof.
  intros Hk Hi Hf. cbn [free_chain_loop]. rewrite !bind_gets. cbn [v_disk].
  rewrite (bind_Ok _ _ _ _ _ (free_desc_spec k d l i Hk Hi Hf)). by destruct (negb _).
Qed.

Lemma free_chain_spec k d l b w i0 i1 i2 :
  locked k -> chain d b w i0 i1 i2 ->
  free_chain i0 (mk_vstate k d l) = Ok tt (mk_vstate (wake ChDesc k) (freed3 d i0 i1 i2) l).
Proof.
  intros Hk [Hnd Hu H0 H1 H2].
  apply NoDup_cons in Hnd as [N0 [N1 _]%NoDup_cons].
  apply not_elem_of_cons in N0 as [H01 [H02 _]%not_elem_of_cons]. apply not_elem_of_cons in N1 as [H12 _].
  apply Forall_cons in Hu as [[? F0] [[? F1] [[? F2] _]%Forall_cons]%Forall_cons].
  unfold free_chain. change (S (Z.to_nat NUM)) with 9%nat.
  rewrite free_chain_step, H0 by (done || lia). cbn [flags next]. change (Z.land VRING_DESC_F_NEXT VRING_DESC_F_NEXT =? 0) with false. cbn [negb].
  rewrite free_chain_step by (try (by apply locked_wake); rewrite ?free_freed, ?decide_False by done; done || lia).
  rewrite desc_freed, decide_False, H1, wake_twice by done. cbn [flags next].
  replace (Z.land _ _ =? 0) with false by (by destruct w). cbn [negb].
  rewrite free_chain_step by (try (by apply locked_wake); rewrite ?free_freed, ?decide_False by done; done || lia).
  rewrite !desc_freed, !decide_False, H2, wake_twice by done. done.
Qed.

Definition no_info (d : vdisk) (i : Z) : vdisk := set_info (<[i := mk_info None (info_status (info_at d i))]> (info d)) d.

Lemma rw_wait_sleeps k d l p b w i0 :
  locked k -> k_cur k = Some p -> (p < Z.to_nat NPROC)%nat -> b_disk (get_buf b k) = true ->
  rw_wait b w i0 (mk_vstate k d l) = Block (WaitDisk b w i0) (mk_vstate (slept p (ChDiskBuf b) k) d l).
Proof. intros Hk Hc Hp Hb. unfold rw_wait. rewrite bind_gets. cbn [v_k]. rewrite Hb. by apply vsleep_spec. Qed.

Lemma rw_wait_returns k d l b w sec i0 i1 i2 :
  locked k -> request d b w sec i0 i1 i2 -> b_disk (get_buf b k) = false ->
  rw_wait b w i0 (mk_vstate k d l) = Ok tt (mk_vstate (set_k_held [] (wake ChDesc k)) (freed3 (no_info d i0) i0 i1 i2) l).
Proof.
  intros Hk Hr Hb. unfold rw_wait. rewrite bind_gets. cbn [v_k]. rewrite Hb.
  unfold set_info_at, upd_disk. rewrite bind_modify. cbn [set_v_disk v_disk v_k v_mmio].
  assert (Hc : chain (no_info d i0) b w i0 i1 i2) by (by destruct (rq_chain _ _ _ _ _ _ _ Hr)).
  rewrite (bind_Ok _ _ _ _ _ (free_chain_spec k (no_info d i0) l b w i0 i1 i2 Hk Hc)). unfold kernel, lift. cbn [v_k].
  rewrite (release_Ok LkDisk _ []); [done|apply Hk|apply not_elem_of_nil].
Qed.

(** Out of descriptors: what the driver leaves behind. *)
Record exhausted (k : kstate) (d : vdisk) (k' : kstate) (d' : vdisk) : Prop := {
  ex_k : k' = k \/ k' = wake ChDesc k;
  ex_busy : exists i, 0 <= i < NUM /\ free_at d i = false;
  ex_rest : exists F D, d' = set_free F (set_desc D d);
  ex_free : forall i, free_at d' i = free_at d i;
  ex_desc : forall i, free_at d i = false -> desc_at d' i = desc_at d i
}.

(** Two indices do not cover the first three. *)
Lemma missing_index (idx : list Z) : (length idx < 3)%nat -> exists i, 0 <= i < NUM /\ i ∉ idx.
Proof.
  intros Hl. destruct (decide (0 ∈ idx)) as [H0|]; [|exists 0; unfold NUM; split; [lia|done]].
  destruct (decide (1 ∈ idx)) as [H1|]; [|exists 1; unfold NUM; split; [lia|done]].
  destruct (decide (2 ∈ idx)) as [H2|]; [|exists 2; unfold NUM; split; [lia|done]].
  exfalso. assert (Hs : [0; 1; 2] ⊆+ idx).
  { apply NoDup_submseteq; [repeat (apply NoDup_cons; split; [set_solver|]); apply NoDup_nil_2|]. intros x. set_solver. }
  apply submseteq_length in Hs. cbn in Hs. lia.
Qed.

Lemma rw_alloc_spec k d l p b w sec :
  locked k -> k_cur k = Some p -> (p < Z.to_nat NPROC)%nat -> (b < length (k_bufs k))%nat ->
  (exists i0 i1 i2, untaken d [i0; i1; i2] /\
     rw_alloc b w sec (mk_vstate k d l) = Block (WaitDisk b w i0)
       (mk_vstate (slept p (ChDiskBuf b) (upd_buf b (set_b_disk true) k))
         (formatted (foldl taken d [i0; i1; i2]) b w sec i0 i1 i2) (l ++ [(VIRTIO_MMIO_QUEUE_NOTIFY, 0)]))) \/
  (exists k' d', exhausted k d k' d' /\
     rw_alloc b w sec (mk_vstate k d l) = Block (WantDesc b w sec) (mk_vstate (slept p ChDesc k') d' l)).
Proof.
  intros Hk Hc Hp Hb. unfold rw_alloc, alloc3_desc.
  destruct (alloc3_loop_spec k l d 3 [] Hk) as [(idx & Hl & Hu & E)|(idx & k' & d' & Hl & Hu & E & Hk' & Hno & R)].
  - split; [apply NoDup_nil_2|by apply Forall_nil].
  - left. destruct idx as [|i0 [|i1 [|i2 [|]]]]; try done. exists i0, i1, i2. split; [done|].
    rewrite (bind_Ok _ _ _ _ _ E). cbn [app]. destruct Hu as [Hnd Hf].
    apply Forall_cons in Hf as [[? _] [[? _] [[? _] _]%Forall_cons]%Forall_cons].
    rewrite (bind_Ok _ _ _ _ _ (rw_format_spec k _ l b w sec i0 i1 i2 ltac:(done) ltac:(done) ltac:(done))).
    apply rw_wait_sleeps; [by destruct Hk|done|done|]. rewrite get_buf_upd, Nat.eqb_refl by done. done.
  - right. exists k', d'. split.
    + destruct R as (R1 & R2 & R3). split; try done. destruct (missing_index idx Hl) as (i & Hi & Hn). exists i. split; [done|]. by apply Hno.
    + rewrite (bind_Ok _ _ _ _ _ E). destruct Hk' as [->| ->]; by apply vsleep_spec; [|..]; try apply locked_wake.
Qed.

(** * The device, the processes and the interrupts *)

(** [m_pcs] has the processes inside of the driver, [m_seen] and [m_work] are
    the device's: how far it has read the avail ring, and the chains it works
    on.  [m_intr] is set while the handler runs, [m_panic] once a routine
    panicked (or did not end). *)
Record vmach : Type := mk_vmach {
  m_v : vstate ;
  m_pcs : gmap nat vpc ;
  m_seen : Z ;
  m_work : list Z ;
  m_intr : bool ;
  m_panic : bool
}.
Abbreviation m_k m := (v_k (m_v m)).
Abbreviation m_d m := (v_disk (m_v m)).

(** The request a chain of descriptors stands for: the buffer, the direction,
    the sector and the slot of the status byte. *)
Definition read_chain (d : vdisk) (h : Z) : option (nat * bool * Z * Z) :=
  let d0 := desc_at d h in
  let d1 := desc_at d (next d0) in
  let d2 := desc_at d (next d1) in
  match addr d0, addr d1, addr d2 with
  | DmaOps o, DmaData b, DmaStatus t =>
      if bool_decide ((len d0, flags d0) = (16, VRING_DESC_F_NEXT)) && (len d1 =? BSIZE) &&
         bool_decide ((len d2, flags d2) = (1, VRING_DESC_F_WRITE)) then
        let r := ops_at d o in
        if (type r =? VIRTIO_BLK_T_OUT) && (flags d1 =? VRING_DESC_F_NEXT) then Some (b, true, sector r, t)
        else if (type r =? VIRTIO_BLK_T_IN) && (flags d1 =? VRING_DESC_F_WRITE + VRING_DESC_F_NEXT) then Some (b, false, sector r, t)
        else None
      else None
  | _, _, _ => None
  end.

(** The transfer of one block. *)
Definition transfer (b : nat) (w : bool) (bn : Z) (k : kstate) : kstate :=
  if w then set_k_disk (mk_disk (<[bn := b_data (get_buf b k)]> (d_blocks (k_disk k)))
                          (d_writes (k_disk k) ++ [(bn, b_data (get_buf b k))])) k
  else upd_buf b (set_b_data (disk_block bn k)) k.

(** What the virtio specification says of the device.  It takes the next entry
    of the avail ring; or it finishes a chain it has taken, in any order: it
    moves the block (two sectors), writes 0 to the status byte and appends the
    head of the chain to the used ring.  What it does with a chain that is not
    a request is not said. *)
Definition dev_fetch (m : vmach) : vmach :=
  mk_vmach (m_v m) (m_pcs m) (u16 (m_seen m + 1))
    (m_work m ++ [default 0 (avail_ring (m_d m) !! (m_seen m mod NUM))]) (m_intr m) (m_panic m).

Definition dev_used (h t : Z) (d : vdisk) : vdisk :=
  let d := set_info (<[t := mk_info (info_b (info_at d t)) 0]> (info d)) d in
  let d := set_used_ring (<[used_dev d mod NUM := h]> (used_ring d)) d in
  set_used_dev (u16 (used_dev d + 1)) d.
Definition dev_finish (h : Z) (b : nat) (w : bool) (bn t : Z) (m : vmach) : vmach :=
  mk_vmach (mk_vstate (transfer b w bn (m_k m)) (dev_used h t (m_d m)) (v_mmio (m_v m)))
    (m_pcs m) (m_seen m) (filter (.≠ h) (m_work m)) (m_intr m) (m_panic m).

Definition virtio_device (m m' : vmach) : Prop :=
  m_seen m <> avail_idx (m_d m) /\ m' = dev_fetch m \/
  exists h, h ∈ m_work m /\
    match read_chain (m_d m) h with
    | Some (b, w, sec, t) => sec mod 2 = 0 -> m' = dev_finish h b w (sec / 2) t m
    | None => True
    end.

Definition pc_buf (pc : vpc) : option nat :=
  match pc with WantDesc b _ _ | WaitDisk b _ _ => Some b | InKernel _ => None end.
Definition pc_chan (pc : vpc) : chan :=
  match pc with WantDesc _ _ _ => ChDesc | WaitDisk b _ _ => ChDiskBuf b | InKernel ch => ch end.

(** Process [p] ran in the driver; the interrupt handler ran. *)
Definition after (p : nat) (r : res vpc vstate unit) (m : vmach) : vmach :=
  match r with
  | Ok _ v => mk_vmach v (delete p (m_pcs m)) (m_seen m) (m_work m) (m_intr m) (m_panic m)
  | Block pc v => mk_vmach v (<[p := pc]> (m_pcs m)) (m_seen m) (m_work m) (m_intr m) (m_panic m)
  | Panic _ | Diverge => mk_vmach (m_v m) (m_pcs m) (m_seen m) (m_work m) (m_intr m) true
  end.
Definition after_intr (busy : bool) (r : res vpc vstate unit) (m : vmach) : vmach :=
  match r with
  | Ok _ v => mk_vmach v (m_pcs m) (m_seen m) (m_work m) busy (m_panic m)
  | Block _ _ | Panic _ | Diverge => mk_vmach (m_v m) (m_pcs m) (m_seen m) (m_work m) busy true
  end.

(** The scheduler looks at process [p], which sleeps at [pc] in the driver. *)
Definition run_again (p : nat) (pc : vpc) : V unit :=
  r <- kernel (dispatch p) ;; if (r : bool) then vresume pc else fun v => Block pc v.

(** The rest of the kernel, between two steps of the driver: it does not touch
    the processes that sleep in the driver, nor their buffers, whose
    sleep-locks they hold. *)
Record elsewhere (m : vmach) (k' : kstate) : Prop := {
  el_free : k_held (m_k m) = [] /\ k_held k' = [];
  el_cur : forall p, k_cur k' = Some p -> m_pcs m !! p = None;
  el_len : length (k_procs k') = length (k_procs (m_k m)) /\ length (k_bufs k') = length (k_bufs (m_k m));
  el_proc : forall p pc, m_pcs m !! p = Some pc -> get_proc p k' = get_proc p (m_k m);
  el_buf : forall p pc b, m_pcs m !! p = Some pc -> pc_buf pc = Some b -> get_buf b k' = get_buf b (m_k m)
}.

Inductive vlabel : Type :=
| LCall (p b : nat) (w : bool)
| LRun (p : nat)
| LIntr
| LDevice
| LOther.

Section Machine.
Context (reg : list (Z * Z) -> Z -> Z) (device : vmach -> vmach -> Prop).

Inductive vstep (m : vmach) : vlabel -> vmach -> Prop :=
| VCall p b w :
    m_intr m = false -> k_held (m_k m) = [] -> k_cur (m_k m) = Some p -> m_pcs m !! p = None ->
    (p < Z.to_nat NPROC)%nat -> (b < length (k_bufs (m_k m)))%nat -> 0 <= b_blockno (get_buf b (m_k m)) < 2 ^ 31 ->
    (forall q pc, m_pcs m !! q = Some pc -> pc_buf pc <> Some b) ->
    vstep m (LCall p b w) (after p (virtio_disk_rw b w (m_v m)) m)
| VRun p pc :
    m_intr m = false -> k_held (m_k m) = [] -> k_cur (m_k m) = None -> m_pcs m !! p = Some pc ->
    vstep m (LRun p) (after p (run_again p pc (m_v m)) m)
| VEnter : m_intr m = false -> k_held (m_k m) = [] -> vstep m LIntr (after_intr true (intr_enter reg (m_v m)) m)
| VRound : m_intr m = true -> intr_pending (m_v m) = true -> vstep m LIntr (after_intr true (intr_round (m_v m)) m)
| VLeave : m_intr m = true -> intr_pending (m_v m) = false -> vstep m LIntr (after_intr false (kernel (release LkDisk) (m_v m)) m)
| VDevice m' : device m m' -> vstep m LDevice m'
| VOther k' : m_intr m = false -> elsewhere m k' ->
    vstep m LOther (mk_vmach (set_v_k k' (m_v m)) (m_pcs m) (m_seen m) (m_work m) (m_intr m) (m_panic m)).

(** The machine starts after virtio_disk_init. *)
Definition vdisk0 : vdisk := mk_vdisk ∅ 0 ∅ 0 ∅ ∅ 0 ∅ ∅.
Inductive reachable : vmach -> Prop :=
| reach_init k v :
    k_held k = [] -> length (k_procs k) = Z.to_nat NPROC ->
    virtio_disk_init reg (mk_vstate k vdisk0 []) = Ok tt v -> reachable (mk_vmach v ∅ 0 [] false false)
| reach_step m l m' : reachable m -> vstep m l m' -> reachable m'.

(** * What the processes see

    A request of a process: the buffer, the direction, and whether the device
    has served it. *)
Definition queued (m : vmach) : list Z :=
  (fun k => default 0 (avail_ring (m_d m) !! ((m_seen m + k) mod NUM))) <$> seqZ 0 (u16 (avail_idx (m_d m) - m_seen m)).

Definition pc_request (m : vmach) (pc : vpc) : nat * bool * bool :=
  match pc with
  | WantDesc b w _ => (b, w, false)
  | WaitDisk b w i0 => (b, w, negb (bool_decide (i0 ∈ queued m ++ m_work m)))
  | InKernel _ => (0%nat, false, false)
  end.
Definition requests (m : vmach) : gmap nat (nat * bool * bool) := pc_request m <$> m_pcs m.

(** The disk and the buffers, apart from the driver's mark on the buffers. *)
Definition content (m : vmach) : disk * list buf := (k_disk (m_k m), set_b_disk false <$> k_bufs (m_k m)).

(** The specification of a step: a call adds a request; the device serves a
    request that was not served, with the effect of [Bio.virtio_disk_rw]; a
    process returns when its request was served; nothing else changes the
    requests, the disk or the buffers. *)
Inductive serves (m m' : vmach) : vlabel -> Prop :=
| SCall p b w : requests m' = <[p := (b, w, false)]> (requests m) -> content m' = content m -> serves m m' (LCall p b w)
| SWait p : requests m' = requests m -> content m' = content m -> serves m m' (LRun p)
| SReturn p b w :
    requests m !! p = Some (b, w, true) -> requests m' = delete p (requests m) -> content m' = content m -> serves m m' (LRun p)
| SIntr : requests m' = requests m -> content m' = content m -> serves m m' LIntr
| SFetch : requests m' = requests m -> content m' = content m -> serves m m' LDevice
| SServe p b w :
    requests m !! p = Some (b, w, false) -> requests m' = <[p := (b, w, true)]> (requests m) ->
    Bio.virtio_disk_rw b w (m_k m) = Ok tt (m_k m') -> serves m m' LDevice
| SOther : requests m' = requests m -> serves m m' LOther.

(** * The invariant *)

#[local] Instance ring_num : RingSize NUM (2 ^ 16).
Proof. split; [done..|reflexivity]. Qed.

Definition waits (m : vmach) (h : Z) : Prop :=
  exists p b w, m_pcs m !! p = Some (WaitDisk b w h) /\ b_disk (get_buf b (m_k m)) = true.

Definition sector_of (m : vmach) (b : nat) : Z := u32 (b_blockno (get_buf b (m_k m)) * (BSIZE / 512)).

(** What holds for a process at [pc] in the driver. *)
Record pc_ok (m : vmach) (p : nat) (pc : vpc) : Prop := {
  po_lt : (p < Z.to_nat NPROC)%nat;
  po_cur : k_cur (m_k m) <> Some p;
  po_chan : p_chan (get_proc p (m_k m)) = Some (pc_chan pc);
  po_state : p_state (get_proc p (m_k m)) = RUNNABLE \/ p_state (get_proc p (m_k m)) = SLEEPING /\
    match pc with
    | WantDesc _ _ _ => exists i, 0 <= i < NUM /\ free_at (m_d m) i = false
    | WaitDisk b _ _ => b_disk (get_buf b (m_k m)) = true
    | InKernel _ => False
    end;
  po_buf : exists b, pc_buf pc = Some b /\ (b < length (k_bufs (m_k m)))%nat /\ 0 <= b_blockno (get_buf b (m_k m)) < 2 ^ 31;
  po_at : match pc with
    | WantDesc b _ sec => sec = sector_of m b
    | WaitDisk b w i0 => exists i1 i2, request (m_d m) b w (sector_of m b) i0 i1 i2
    | InKernel _ => False
    end
}.

(** The descriptors of the process [p]. *)
Definition chain_of (d : vdisk) (i0 : Z) : list Z :=
  [i0; next (desc_at d i0); next (desc_at d (next (desc_at d i0)))].
Definition owns (m : vmach) (p : nat) (i : Z) : Prop :=
  exists b w i0, m_pcs m !! p = Some (WaitDisk b w i0) /\ i ∈ chain_of (m_d m) i0.

Lemma chain_of_request d b w sec i0 i1 i2 : request d b w sec i0 i1 i2 -> chain_of d i0 = [i0; i1; i2].
Proof. intros [[_ _ H0 H1 _] _ _]. unfold chain_of. rewrite H0. cbn. by rewrite H1. Qed.

Record inv (m : vmach) (A U : list Z) : Prop := {
  iv_panic : m_panic m = false;
  iv_held : k_held (m_k m) = if m_intr m then [LkDisk] else [];
  iv_procs : length (k_procs (m_k m)) = Z.to_nat NPROC;
  iv_pc : forall p pc, m_pcs m !! p = Some pc -> pc_ok m p pc;
  iv_bufs : forall p q pc pc', p <> q -> m_pcs m !! p = Some pc -> m_pcs m !! q = Some pc' -> pc_buf pc <> pc_buf pc';
  iv_owner : forall i, 0 <= i < NUM -> free_at (m_d m) i = false -> exists p, owns m p i;
  iv_disj : forall p q i, owns m p i -> owns m q i -> p = q;
  iv_avail : ring NUM (2 ^ 16) (avail_ring (m_d m)) (m_seen m) (avail_idx (m_d m)) A;
  iv_used : ring NUM (2 ^ 16) (used_ring (m_d m)) (used_idx (m_d m)) (used_dev (m_d m)) U;
  iv_nodup : NoDup (A ++ m_work m ++ U);
  iv_waits : forall h, h ∈ A ++ m_work m ++ U <-> waits m h;
  iv_status : forall h, h ∈ U -> info_status (info_at (m_d m) h) = 0
}.

Definition busy (d : vdisk) : Prop := exists i, 0 <= i < NUM /\ free_at d i = false.

Lemma pc_ok_frame m m' p pc :
  pc_ok m p pc -> k_cur (m_k m') <> Some p ->
  p_chan (get_proc p (m_k m')) = p_chan (get_proc p (m_k m)) ->
  length (k_bufs (m_k m')) = length (k_bufs (m_k m)) ->
  (forall b, pc_buf pc = Some b -> b_blockno (get_buf b (m_k m')) = b_blockno (get_buf b (m_k m))) ->
  (p_state (get_proc p (m_k m')) = RUNNABLE \/
   p_state (get_proc p (m_k m')) = p_state (get_proc p (m_k m)) /\
   (forall b, pc_buf pc = Some b -> b_disk (get_buf b (m_k m')) = b_disk (get_buf b (m_k m))) /\
   (pc_chan pc = ChDesc -> busy (m_d m) -> busy (m_d m'))) ->
  (forall b w sec i0 i1 i2, pc = WaitDisk b w i0 -> request (m_d m) b w sec i0 i1 i2 -> request (m_d m') b w sec i0 i1 i2) ->
  pc_ok m' p pc.
Proof.
  intros [Hlt Hc Hch Hst (b0 & Hb0 & Hl0 & Hbn0) Hat] Hc' Hch' Hl Hbn Hs Hr.
  split; [done|done|by rewrite Hch'| | |].
  - destruct Hs as [Hs|(-> & Hd & Hbu)]; [by left|]. destruct Hst as [Hst|[Hst Hw]]; [by left|]. right. split; [done|].
    destruct pc; [by apply Hbu|by rewrite Hd|done].
  - exists b0. rewrite Hl, (Hbn b0 Hb0). done.
  - unfold sector_of in *. destruct pc as [b w sec|b w i0|ch]; [|destruct Hat as (i1 & i2 & Hat)|done]; rewrite (Hbn b) by done; [done|].
    exists i1, i2. by apply Hr.
Qed.

Lemma get_proc_wake ch k p : (p < length (k_procs k))%nat -> get_proc p (wake ch k) = woken (k_cur k) ch p (get_proc p k).
Proof. apply get_proc_all. Qed.

Lemma woken_chan cur ch p x : p_chan (woken cur ch p x) = p_chan x.
Proof. unfold woken. by destruct (_ && _). Qed.
Lemma vwoken_state cur ch p x : p_state (woken cur ch p x) = RUNNABLE \/ p_state (woken cur ch p x) = p_state x.
Proof. unfold woken. destruct (_ && _); [by left|by right]. Qed.
Lemma woken_wakes cur ch p x :
  cur <> Some p -> p_chan x = Some ch -> p_state x = RUNNABLE \/ p_state x = SLEEPING -> p_state (woken cur ch p x) = RUNNABLE.
Proof.
  intros Hc Hch Hs. unfold woken. rewrite (bool_decide_eq_false_2 (cur = _)), (bool_decide_eq_true_2 (p_chan x = _)) by done.
  case_bool_decide; [done|]. by destruct Hs.
Qed.

Lemma bufs_same m m' : k_bufs (m_k m') = k_bufs (m_k m) -> forall b, get_buf b (m_k m') = get_buf b (m_k m).
Proof. intros E b. unfold get_buf. by rewrite E. Qed.

(** The queue the device has not read, as the abstraction computes it. *)
Lemma queued_avail m A U : inv m A U -> queued m = A.
Proof.
  intros Hi. pose proof (iv_avail _ _ _ Hi) as Hr. unfold queued, u16. rewrite (ring_count _ _ _ _ _ _ Hr).
  apply list_eq. intros i. rewrite list_lookup_fmap. destruct (decide (i < length A)%nat) as [Hl|Hl].
  - rewrite lookup_seqZ_lt by lia. destruct (lookup_lt_is_Some_2 _ _ Hl) as [h Hh]. rewrite Hh. cbn. f_equal.
    rewrite <- (rg_data _ _ _ _ _ _ Hr i h Hh). done.
  - rewrite lookup_seqZ_ge by lia. by rewrite lookup_ge_None_2 by lia.
Qed.

(** The heads that wait are those of distinct requests. *)
Lemma waits_head m A U p q b w b' w' h :
  inv m A U -> m_pcs m !! p = Some (WaitDisk b w h) -> m_pcs m !! q = Some (WaitDisk b' w' h) -> p = q.
Proof.
  intros Hi Hp Hq. apply (iv_disj _ _ _ Hi p q h); [exists b, w, h|exists b', w', h]; (split; [done|set_solver]).
Qed.

Definition with_k (k : kstate) (l : list (Z * Z)) (intr : bool) (m : vmach) : vmach :=
  mk_vmach (mk_vstate k (m_d m) l) (m_pcs m) (m_seen m) (m_work m) intr (m_panic m).

(** Changes of the kernel outside of the driver's data. *)
Lemma inv_with_k_gen m A U k' l (intr : bool) :
  inv m A U -> k_held k' = (if intr then [LkDisk] else []) -> length (k_procs k') = Z.to_nat NPROC ->
  (forall p b w h, m_pcs m !! p = Some (WaitDisk b w h) -> b_disk (get_buf b k') = b_disk (get_buf b (m_k m))) ->
  (forall p pc, m_pcs m !! p = Some pc -> pc_ok (with_k k' l intr m) p pc) ->
  inv (with_k k' l intr m) A U.
Proof.
  intros Hi Hh Hp Hb Hpc. pose proof Hi as [I1 I2 I3 I4 I5 I6 I7 I8 I9 I10 I11 I12]. split; try done.
  intros h. cbn [m_work with_k]. rewrite (I11 h). unfold waits. cbn. split; intros (p & b & w & Hm & Hd); exists p, b, w; (split; [done|]);
    specialize (Hb _ _ _ _ Hm); congruence.
Qed.

Lemma inv_with_k m A U k' l (intr : bool) :
  inv m A U -> k_held k' = (if intr then [LkDisk] else []) -> length (k_procs k') = Z.to_nat NPROC ->
  length (k_bufs k') = length (k_bufs (m_k m)) ->
  (forall p pc, m_pcs m !! p = Some pc -> k_cur k' <> Some p /\
     p_chan (get_proc p k') = p_chan (get_proc p (m_k m)) /\
     (p_state (get_proc p k') = RUNNABLE \/ p_state (get_proc p k') = p_state (get_proc p (m_k m))) /\
     forall b, pc_buf pc = Some b -> get_buf b k' = get_buf b (m_k m)) ->
  inv (with_k k' l intr m) A U.
Proof.
  intros Hi Hh Hp Hb Hpc. apply inv_with_k_gen; try done.
  - intros p b w h Hm. destruct (Hpc p _ Hm) as (_ & _ & _ & Hd). by rewrite (Hd b).
  - intros p pc Hm. destruct (Hpc p pc Hm) as (Hc & Hch & Hst & Hd). apply (pc_ok_frame m); cbn; try done.
    + by apply (iv_pc _ _ _ Hi).
    + intros b Hbuf. by rewrite (Hd b Hbuf).
    + destruct Hst as [|Hst]; [by left|right]. split; [done|]. split; [|done]. intros b Hbuf. by rewrite (Hd b Hbuf).
Qed.

Lemma requests_with_k k l intr m : requests (with_k k l intr m) = requests m.
Proof. done. Qed.

(** ** Interrupts *)

Lemma inv_locked m A U : inv m A U -> m_intr m = true -> locked (m_k m).
Proof. intros Hi Hb. split; [by rewrite (iv_held _ _ _ Hi), Hb|apply Hi]. Qed.

Lemma content_disk x b k : set_b_disk false <$> alter (set_b_disk x) b (k_bufs k) = set_b_disk false <$> k_bufs k.
Proof.
  apply list_eq. intros i. rewrite !list_lookup_fmap. destruct (decide (b = i)) as [->|].
  - rewrite list_lookup_alter_eq. by destruct (k_bufs k !! i).
  - by rewrite list_lookup_alter_ne.
Qed.

Lemma inv_enter m A U :
  inv m A U -> m_intr m = false ->
  exists m', after_intr true (intr_enter reg (m_v m)) m = m' /\ inv m' A U /\ requests m' = requests m /\ content m' = content m /\
    m_pcs m' = m_pcs m /\ m_work m' = m_work m /\ m_intr m' = true.
Proof.
  intros Hi Hf. eexists. split; [reflexivity|]. pose proof (iv_held _ _ _ Hi) as Hh. rewrite Hf in Hh.
  unfold intr_enter, kernel, lift, read_reg, write_reg. rewrite (bind_Ok _ _ _ tt (set_v_k (set_k_held [LkDisk] (m_k m)) (m_v m))).
  - rewrite bind_gets. cbn [after_intr modify]. split; [|done].
    apply (inv_with_k m A U (set_k_held [LkDisk] (m_k m)) (v_mmio (m_v m) ++ _) true Hi); try done; [apply Hi|].
    intros p pc Hp. split; [apply (iv_pc _ _ _ Hi _ _ Hp)|]. split; [done|]. split; [by right|done].
  - rewrite acquire_Ok by (rewrite Hh; apply not_elem_of_nil). by rewrite Hh.
Qed.

Lemma inv_leave m A U :
  inv m A U -> m_intr m = true ->
  exists m', after_intr false (kernel (release LkDisk) (m_v m)) m = m' /\ inv m' A U /\ requests m' = requests m /\ content m' = content m.
Proof.
  intros Hi Hf. eexists. split; [reflexivity|]. pose proof (iv_held _ _ _ Hi) as Hh. rewrite Hf in Hh.
  unfold kernel, lift. rewrite (release_Ok LkDisk (m_k m) []) by (done || apply not_elem_of_nil). cbn [after_intr]. split; [|done].
  apply (inv_with_k m A U (set_k_held [] (m_k m)) (v_mmio (m_v m)) false Hi); try done; [apply Hi|].
  intros p pc Hp. split; [apply (iv_pc _ _ _ Hi _ _ Hp)|]. split; [done|]. split; [by right|done].
Qed.

(** The first entry of the used ring leaves the three queues. *)
Lemma used_head_perm (A W U : list Z) h : A ++ W ++ h :: U ≡ₚ h :: A ++ W ++ U.
Proof. by rewrite !(app_assoc A), Permutation_middle. Qed.
Lemma used_head_nodup (A W U : list Z) h : NoDup (A ++ W ++ h :: U) -> NoDup (A ++ W ++ U).
Proof. rewrite used_head_perm. by intros [_ H]%NoDup_cons. Qed.
Lemma used_head (A W U : list Z) h g : NoDup (A ++ W ++ h :: U) -> g ∈ A ++ W ++ U <-> g ∈ A ++ W ++ h :: U /\ g <> h.
Proof.
  rewrite used_head_perm. intros [Hn _]%NoDup_cons. rewrite elem_of_cons. split; [intros H; split; [by right|by intros ->]|].
  by intros [[->|H] Hne].
Qed.

Definition notified (b : nat) (k : kstate) : kstate := wake (ChDiskBuf b) (upd_buf b (set_b_disk false) k).

Lemma intr_round_spec m A U :
  inv m A U -> m_intr m = true -> intr_pending (m_v m) = true ->
  exists h U' p b w, U = h :: U' /\ m_pcs m !! p = Some (WaitDisk b w h) /\ b_disk (get_buf b (m_k m)) = true /\
    intr_round (m_v m) = Ok tt (mk_vstate (notified b (m_k m)) (set_used_idx (u16 (used_idx (m_d m) + 1)) (m_d m)) (v_mmio (m_v m))).
Proof.
  intros Hi Hf Hp. pose proof (iv_used _ _ _ Hi) as Hu. destruct U as [|h U'].
  { exfalso. unfold intr_pending in Hp. rewrite (proj2 (ring_empty _ _ _ _ _ _ Hu) eq_refl), Z.eqb_refl in Hp. done. }
  assert (Hin : h ∈ A ++ m_work m ++ h :: U') by set_solver.
  apply (iv_waits _ _ _ Hi) in Hin as (p & b & w & Hm & Hd). exists h, U', p, b, w. split; [done|]. split; [done|]. split; [done|].
  destruct (po_at _ _ _ (iv_pc _ _ _ Hi _ _ Hm)) as (i1 & i2 & Hr).
  destruct (ring_pop _ _ _ _ _ _ _ Hu) as [E _]. unfold load8 in E. unfold intr_round. rewrite !bind_gets, E.
  rewrite (iv_status _ _ _ Hi h) by set_solver. cbn [negb Z.eqb]. rewrite (rq_info _ _ _ _ _ _ _ Hr).
  unfold upd_vbuf, upd_disk. rewrite bind_modify. pose proof (inv_locked _ _ _ Hi Hf) as Hl.
  rewrite (bind_Ok _ _ _ tt (mk_vstate (notified b (m_k m)) (m_d m) (v_mmio (m_v m)))); [done|].
  apply (vwakeup (ChDiskBuf b) (upd_buf b (set_b_disk false) (m_k m))). by destruct Hl.
Qed.

Lemma get_buf_notified b k c : (b < length (k_bufs k))%nat ->
  get_buf c (notified b k) = if (c =? b)%nat then set_b_disk false (get_buf c k) else get_buf c k.
Proof. intros Hb. apply (get_buf_upd b (set_b_disk false) k c Hb). Qed.

Lemma get_proc_notified b k p : (p < length (k_procs k))%nat -> get_proc p (notified b k) = woken (k_cur k) (ChDiskBuf b) p (get_proc p k).
Proof. apply (get_proc_wake (ChDiskBuf b) (upd_buf b (set_b_disk false) k) p). Qed.

Lemma inv_round m A U :
  inv m A U -> m_intr m = true -> intr_pending (m_v m) = true ->
  exists U', inv (after_intr true (intr_round (m_v m)) m) A U' /\ (length U' < length U)%nat /\
    requests (after_intr true (intr_round (m_v m)) m) = requests m /\ content (after_intr true (intr_round (m_v m)) m) = content m.
Proof.
  intros Hi Hf Hp. destruct (intr_round_spec m A U Hi Hf Hp) as (h & U' & p & b & w & -> & Hm & Hd & E). rewrite E.
  exists U'. split; [|split; [cbn; lia|split; [done|unfold content; cbn; by rewrite content_disk]]].
  pose proof Hi as [I1 I2 I3 I4 I5 I6 I7 I8 I9 I10 I11 I12].
  destruct (po_buf _ _ _ (I4 _ _ Hm)) as (? & [= <-] & Hbl & Hbn).
  assert (Hbuf : forall q pc c, q <> p -> m_pcs m !! q = Some pc -> pc_buf pc = Some c -> get_buf c (notified b (m_k m)) = get_buf c (m_k m)).
  { intros q pc c Hne Hq Hc. rewrite get_buf_notified by done. destruct (Nat.eqb_spec c b) as [->|]; [|done].
    exfalso. apply (I5 p q _ _ (not_eq_sym Hne) Hm Hq). by rewrite Hc. }
  split; cbn; try done.
  - by rewrite I2, Hf.
  - by rewrite length_imap.
  - intros q pc Hq. pose proof (I4 _ _ Hq) as Hok. pose proof (po_lt _ _ _ Hok) as Hlt. apply (pc_ok_frame m); try done; cbn.
    + apply Hok.
    + rewrite get_proc_notified by lia. apply woken_chan.
    + by rewrite length_alter.
    + intros c _. rewrite get_buf_notified by done. by destruct (c =? b)%nat.
    + rewrite get_proc_notified by lia. destruct (decide (q = p)) as [->|Hne].
      * left. rewrite Hm in Hq. injection Hq as <-. apply woken_wakes; [apply Hok|apply Hok|].
        destruct (po_state _ _ _ Hok) as [|[]]; [by left|by right].
      * destruct (vwoken_state (k_cur (m_k m)) (ChDiskBuf b) q (get_proc q (m_k m))) as [Es|Es]; [by left|right]. rewrite Es.
        split; [done|]. split; [|done]. intros c Hc. by rewrite (Hbuf q pc c).
    + intros c x sec i0 i1 i2 _. by apply request_ext.
  - by apply (ring_pop _ _ _ _ _ _ _ I9).
  - by apply used_head_nodup in I10.
  - intros g. assert (Hg : g ∈ A ++ m_work m ++ U' <-> waits m g /\ g <> h).
    { rewrite <- I11. by apply used_head. }
    rewrite Hg. unfold waits. cbn. split.
    + intros [(q & c & x & Hq & Hc) Hne]. exists q, c, x. split; [done|]. rewrite (Hbuf q (WaitDisk c x g) c); try done. intros ->. congruence.
    + intros (q & c & x & Hq & Hc). destruct (decide (q = p)) as [->|Hne].
      * rewrite Hm in Hq. injection Hq as -> -> ->. rewrite get_buf_notified, Nat.eqb_refl in Hc by done. done.
      * rewrite (Hbuf q (WaitDisk c x g) c) in Hc by done. split; [by exists q, c, x|]. intros ->. apply Hne. by eapply waits_head.
  - intros g Hg. apply I12. set_solver.
Qed.

(** ** The device *)

Lemma read_chain_request d b w sec i0 i1 i2 : request d b w sec i0 i1 i2 -> read_chain d i0 = Some (b, w, sec, i0).
Proof.
  intros [[_ _ H0 H1 H2] Ho _]. unfold read_chain. rewrite H0. cbn [next addr]. rewrite H1. cbn [next addr]. rewrite H2, Ho.
  cbn [next addr len flags type sector]. rewrite !bool_decide_eq_true_2 by done. by destruct w.
Qed.

Lemma inv_fetch m A U :
  inv m A U -> m_seen m <> avail_idx (m_d m) ->
  exists A', inv (dev_fetch m) A' U /\ requests (dev_fetch m) = requests m /\ (length A' < length A)%nat.
Proof.
  intros Hi Hne. pose proof Hi as [I1 I2 I3 I4 I5 I6 I7 I8 I9 I10 I11 I12]. destruct A as [|h A'].
  { exfalso. apply Hne. by apply (ring_empty _ _ _ _ _ _ I8). }
  destruct (ring_pop _ _ _ _ _ _ _ I8) as [E I8']. unfold load8 in E.
  assert (Hp : (h :: A') ++ m_work m ++ U ≡ₚ A' ++ (m_work m ++ [h]) ++ U).
  { rewrite <- (app_assoc (m_work m)). cbn. rewrite !(app_assoc A'). by rewrite Permutation_middle. }
  assert (Hinv : inv (dev_fetch m) A' U).
  { unfold dev_fetch. rewrite E. split; try done; cbn.
    - intros p pc Hm. apply (pc_ok_frame m); cbn; try done; [by apply I4|by apply (I4 _ _ Hm)|by right].
    - by rewrite <- Hp.
    - intros g. by rewrite <- Hp, I11. }
  exists A'. split; [done|]. split; [|cbn; lia].
  unfold requests. cbn. apply map_fmap_ext. intros p pc _. destruct pc as [|b w i0|]; try done. cbn. do 3 f_equal.
  rewrite (queued_avail _ _ _ Hi), (queued_avail _ _ _ Hinv), E. apply bool_decide_ext. set_solver.
Qed.

Lemma sector_block n : 0 <= n < 2 ^ 31 -> u32 (n * (BSIZE / 512)) = 2 * n.
Proof. intros H. change (BSIZE / 512) with 2. rewrite u32_small by lia. lia. Qed.

Lemma transfer_spec b w k : Bio.virtio_disk_rw b w k = Ok tt (transfer b w (b_blockno (get_buf b k)) k).
Proof. unfold Bio.virtio_disk_rw. rewrite bind_gets. by destruct w. Qed.

Lemma transfer_buf b w bn k c :
  (b < length (k_bufs k))%nat -> b_disk (get_buf c (transfer b w bn k)) = b_disk (get_buf c k) /\
    b_blockno (get_buf c (transfer b w bn k)) = b_blockno (get_buf c k).
Proof.
  intros Hb. unfold transfer. destruct w; [done|]. rewrite get_buf_upd by done. by destruct (c =? b)%nat.
Qed.

Lemma transfer_frame b w bn k :
  k_held (transfer b w bn k) = k_held k /\ k_procs (transfer b w bn k) = k_procs k /\ k_cur (transfer b w bn k) = k_cur k /\
  length (k_bufs (transfer b w bn k)) = length (k_bufs k).
Proof. unfold transfer. destruct w; cbn; [done|]. by rewrite length_alter. Qed.

(** The chain the device finishes moves from its work to the used ring. *)
Lemma finish_perm (A W U : list Z) h : NoDup (A ++ W ++ U) -> h ∈ W -> A ++ W ++ U ≡ₚ A ++ filter (.≠ h) W ++ (U ++ [h]).
Proof.
  intros Hnd Hin. apply elem_of_Permutation in Hin as [W' EW].
  assert (Hn : h ∉ W').
  { rewrite EW in Hnd. apply NoDup_app in Hnd as (_ & _ & Hnd). cbn in Hnd. apply NoDup_cons in Hnd as [Hnd _]. set_solver. }
  rewrite EW. rewrite filter_cons_False, filter_ne_notin by naive_solver. cbn. apply Permutation_app_head.
  rewrite (Permutation_app_comm U [h]). cbn. by rewrite Permutation_middle.
Qed.

Lemma info_at_used h t d i : info_at (dev_used h t d) i = if decide (t = i) then mk_info (info_b (info_at d t)) 0 else info_at d i.
Proof. unfold info_at. cbn. case_decide; subst; [by rewrite lookup_insert_eq|by rewrite lookup_insert_ne]. Qed.

(** There are never more than [NUM] chains, so the rings do not overflow. *)
Lemma heads_bound m A U : inv m A U -> (length (A ++ m_work m ++ U) <= Z.to_nat NUM)%nat.
Proof.
  intros Hi. change (Z.to_nat NUM) with (length (seqZ 0 NUM)). apply submseteq_length, NoDup_submseteq; [apply Hi|].
  intros h (p & b & w & Hm & _)%(iv_waits _ _ _ Hi). destruct (po_at _ _ _ (iv_pc _ _ _ Hi _ _ Hm)) as (i1 & i2 & [[_ Hu _ _ _] _ _]).
  apply Forall_cons in Hu as [[Hh _] _]. apply elem_of_seqZ. lia.
Qed.

Lemma inv_finish m A U p b w h bn :
  inv m A U -> h ∈ m_work m -> m_pcs m !! p = Some (WaitDisk b w h) ->
  inv (dev_finish h b w bn h m) A (U ++ [h]) /\ requests (dev_finish h b w bn h m) = <[p := (b, w, true)]> (requests m).
Proof.
  intros Hi Hin Hm. pose proof Hi as [I1 I2 I3 I4 I5 I6 I7 I8 I9 I10 I11 I12].
  pose proof (finish_perm _ _ _ _ I10 Hin) as Hp. destruct (po_buf _ _ _ (I4 _ _ Hm)) as (? & [= <-] & Hbl & _).
  destruct (transfer_frame b w bn (m_k m)) as (F1 & F2 & F3 & F4).
  assert (Hinv : inv (dev_finish h b w bn h m) A (U ++ [h])).
  { split; cbn; rewrite ?F1, ?F2; try done.
    - intros q pc Hq. apply (pc_ok_frame m); cbn; rewrite ?F3; try done; unfold get_proc; rewrite ?F2; try done.
      + by apply I4.
      + by apply (I4 _ _ Hq).
      + intros c _. by apply transfer_buf.
      + right. split; [done|]. split; [|done]. intros c _. by apply transfer_buf.
      + intros c x sec i0 i1 i2 _. apply request_ext; try done. rewrite info_at_used. by case_decide; subst.
    - apply (ring_push _ _ _ _ _ _ h I9). apply heads_bound in Hi. rewrite !length_app in Hi.
      apply elem_of_Permutation in Hin as [W' EW]. rewrite EW in Hi. cbn in Hi. unfold NUM in *. lia.
    - by rewrite <- Hp.
    - intros g. rewrite <- Hp, I11. unfold waits. cbn. split; intros (q & c & x & Hq & Hd); exists q, c, x; (split; [done|]);
        destruct (transfer_buf b w bn (m_k m) c Hbl) as [E _]; congruence.
    - intros g [Hg|Hg%list_elem_of_singleton]%elem_of_app; rewrite info_at_used; case_decide; try done; by apply I12. }
  split; [done|]. apply map_eq. intros q. unfold requests. cbn. destruct (decide (q = p)) as [->|Hne].
  - rewrite lookup_insert_eq, lookup_fmap, Hm. cbn. do 2 f_equal. rewrite (queued_avail _ _ _ Hinv). cbn.
    rewrite bool_decide_eq_false_2; [done|]. rewrite elem_of_app, list_elem_of_filter. intros [Hg|[]]; [|done].
    apply NoDup_app in I10 as (_ & N & _). apply (N h Hg). set_solver.
  - rewrite lookup_insert_ne, !lookup_fmap by done. destruct (m_pcs m !! q) as [[|c x i0|]|] eqn:Hq; try done. cbn. do 4 f_equal.
    rewrite (queued_avail _ _ _ Hinv), (queued_avail _ _ _ Hi). cbn. apply bool_decide_ext.
    assert (i0 <> h) by (intros ->; apply Hne; by eapply waits_head). rewrite !elem_of_app, list_elem_of_filter. naive_solver.
Qed.

(** ** The processes *)

Definition unlock (m : vmach) : vmach := mk_vmach (m_v m) (m_pcs m) (m_seen m) (m_work m) false (m_panic m).

Lemma get_proc_slept p ch k q :
  (p < length (k_procs k))%nat -> get_proc q (slept p ch k) = if decide (q = p) then asleep ch (get_proc q k) else get_proc q k.
Proof.
  intros Hp. case_decide; subst; [by apply (get_upd_proc p (asleep ch) k)|].
  unfold get_proc, slept, upd_proc. cbn. by rewrite list_lookup_alter_ne.
Qed.

(** The descriptors of a process in the driver are in use. *)
Lemma owns_busy m A U p i : inv m A U -> owns m p i -> 0 <= i < NUM /\ free_at (m_d m) i = false.
Proof.
  intros Hi (b & w & i0 & Hm & Hin). destruct (po_at _ _ _ (iv_pc _ _ _ Hi _ _ Hm)) as (i1 & i2 & Hr).
  rewrite (chain_of_request _ _ _ _ _ _ _ Hr) in Hin. pose proof (rq_used _ _ _ _ _ _ (rq_chain _ _ _ _ _ _ _ Hr)) as Hu.
  rewrite Forall_forall in Hu. by apply Hu.
Qed.

Lemma waits_busy m A U h : inv m A U -> h ∈ A ++ m_work m ++ U -> 0 <= h < NUM /\ free_at (m_d m) h = false.
Proof.
  intros Hi (p & b & w & Hm & _)%(iv_waits _ _ _ Hi). apply (owns_busy m A U p); [done|]. exists b, w, h. split; [done|]. unfold chain_of. set_solver.
Qed.

Lemma heads_room m A U i : inv m A U -> 0 <= i < NUM -> free_at (m_d m) i = true -> Z.of_nat (length A) < NUM.
Proof.
  intros Hi Hr Hf. assert (Hl : (length (i :: A ++ m_work m ++ U) <= length (seqZ 0 NUM))%nat).
  { apply submseteq_length, NoDup_submseteq.
    - apply NoDup_cons. split; [|apply Hi]. intros Hin. destruct (waits_busy _ _ _ _ Hi Hin). congruence.
    - intros h [->|Hin]%elem_of_cons; [apply elem_of_seqZ; lia|]. destruct (waits_busy _ _ _ _ Hi Hin). apply elem_of_seqZ. lia. }
  cbn [length] in Hl. rewrite length_app, length_seqZ in Hl. unfold NUM in *. lia.
Qed.

(** A change of the driver's data that leaves the descriptors in use alone. *)
Record in_use_same (d d' : vdisk) : Prop := {
  us_free : forall i, free_at d i = false -> free_at d' i = false;
  us_desc : forall i, free_at d i = false -> desc_at d' i = desc_at d i;
  us_ops : forall i, free_at d i = false -> ops_at d' i = ops_at d i;
  us_info : forall i, free_at d i = false -> info_at d' i = info_at d i
}.

Lemma us_request d d' b w sec i0 i1 i2 : in_use_same d d' -> request d b w sec i0 i1 i2 -> request d' b w sec i0 i1 i2.
Proof.
  intros [H1 H2 H3 H4] Hr. pose proof (rq_used _ _ _ _ _ _ (rq_chain _ _ _ _ _ _ _ Hr)) as Hu. rewrite Forall_forall in Hu.
  assert (Hf : forall i, i ∈ [i0; i1; i2] -> free_at d i = false) by (intros i Hi; by apply Hu).
  apply (request_ext d d'); [|apply H3, Hf; set_solver|f_equal; apply H4, Hf; set_solver|done].
  intros i Hin. rewrite H1, H2, (Hf i Hin) by auto. done.
Qed.

Lemma us_chain d d' b w sec i0 i1 i2 : in_use_same d d' -> request d b w sec i0 i1 i2 -> chain_of d' i0 = chain_of d i0.
Proof. intros Hs Hr. rewrite (chain_of_request _ _ _ _ _ _ _ Hr). by eapply chain_of_request, us_request. Qed.

Lemma us_owns m A U m' p i :
  inv m A U -> in_use_same (m_d m) (m_d m') -> m_pcs m' !! p = m_pcs m !! p -> owns m' p i <-> owns m p i.
Proof.
  intros Hi Hs Hp. unfold owns. rewrite Hp. split; intros (b & w & i0 & Hm & Hin); exists b, w, i0; (split; [done|]);
    destruct (po_at _ _ _ (iv_pc _ _ _ Hi _ _ Hm)) as (i1 & i2 & Hr); by rewrite (us_chain _ _ _ _ _ _ _ _ Hs Hr) in *.
Qed.

Lemma formatted_same d b w sec i0 i1 i2 :
  untaken d [i0; i1; i2] -> in_use_same d (formatted (foldl taken d [i0; i1; i2]) b w sec i0 i1 i2).
Proof.
  intros [Hnd Hu]. assert (Hn : forall i, free_at d i = false -> i ∉ [i0; i1; i2]).
  { intros i Hi Hin. rewrite Forall_forall in Hu. destruct (Hu i Hin). congruence. }
  split; intros i Hi; specialize (Hn i Hi).
  - change (free_at (foldl taken d [i0; i1; i2]) i = false). by rewrite free_foldl, Hi.
  - by rewrite formatted_desc.
  - unfold ops_at. cbn. by rewrite lookup_insert_ne by set_solver.
  - unfold info_at. cbn. by rewrite lookup_insert_ne by set_solver.
Qed.

(** A process with the lock starts a request for the buffer [b]. *)
Record starting (m : vmach) (A U : list Z) (p b : nat) : Prop := {
  sg_inv : inv m A U;
  sg_intr : m_intr m = true;
  sg_cur : k_cur (m_k m) = Some p;
  sg_pc : m_pcs m !! p = None;
  sg_lt : (p < Z.to_nat NPROC)%nat;
  sg_buf : (b < length (k_bufs (m_k m)))%nat /\ 0 <= b_blockno (get_buf b (m_k m)) < 2 ^ 31;
  sg_fresh : forall q pc, m_pcs m !! q = Some pc -> pc_buf pc <> Some b
}.

Definition start_at (m : vmach) (p : nat) (pc : vpc) (k : kstate) (d : vdisk) (l : list (Z * Z)) : vmach :=
  mk_vmach (mk_vstate k d l) (<[p := pc]> (m_pcs m)) (m_seen m) (m_work m) false (m_panic m).

Lemma start_bufs m A U p b pc k d l :
  starting m A U p b -> pc_buf pc = Some b ->
  forall q q' x y, q <> q' -> m_pcs (start_at m p pc k d l) !! q = Some x -> m_pcs (start_at m p pc k d l) !! q' = Some y -> pc_buf x <> pc_buf y.
Proof.
  intros Hs Hb q q' x y Hne Hq Hq'. cbn in *. destruct (decide (q = p)) as [->|Hq1], (decide (q' = p)) as [->|Hq2]; [done|..].
  - rewrite lookup_insert_eq in Hq. injection Hq as <-. rewrite lookup_insert_ne in Hq' by done. rewrite Hb. apply not_eq_sym. by apply (sg_fresh _ _ _ _ _ Hs q').
  - rewrite lookup_insert_eq in Hq'. injection Hq' as <-. rewrite lookup_insert_ne in Hq by done. rewrite Hb. by apply (sg_fresh _ _ _ _ _ Hs q).
  - rewrite lookup_insert_ne in Hq, Hq' by done. by apply (iv_bufs _ _ _ (sg_inv _ _ _ _ _ Hs) q q').
Qed.

(** The other processes do not notice. *)
Lemma start_others m A U p b pc ch k d l q x :
  starting m A U p b -> in_use_same (m_d m) d ->
  length (k_procs k) = Z.to_nat NPROC -> length (k_bufs k) = length (k_bufs (m_k m)) ->
  (forall c, c <> b -> get_buf c k = get_buf c (m_k m)) ->
  p_chan (get_proc q k) = p_chan (get_proc q (m_k m)) ->
  p_state (get_proc q k) = RUNNABLE \/ p_state (get_proc q k) = p_state (get_proc q (m_k m)) ->
  q <> p -> m_pcs m !! q = Some x -> pc_ok (start_at m p pc (slept p ch k) d l) q x.
Proof.
  intros Hs Hd Hlen Hl Hb Hch Hst Hne Hq. pose proof (iv_pc _ _ _ (sg_inv _ _ _ _ _ Hs) _ _ Hq) as Hok. pose proof (sg_lt _ _ _ _ _ Hs) as Hlt.
  assert (Hx : forall c, pc_buf x = Some c -> get_buf c k = get_buf c (m_k m)).
  { intros c Hc. apply Hb. intros ->. by apply (sg_fresh _ _ _ _ _ Hs q x). }
  apply (pc_ok_frame m); cbn [m_v start_at v_k v_disk]; rewrite ?get_proc_slept, ?decide_False by (done || lia); try done.
  - intros c Hc. change (get_buf c (slept p ch k)) with (get_buf c k). by rewrite Hx.
  - destruct Hst as [|Hst]; [by left|right]. split; [done|]. split; [intros c Hc; by rewrite <- (Hx c Hc)|].
    intros _ (i & Hi & Hf). exists i. split; [done|]. by apply (us_free _ _ Hd).
  - intros c w sec i0 i1 i2 _. by apply us_request.
Qed.

Section Submit.
Context (m : vmach) (A U : list Z) (p b : nat) (w : bool) (i0 i1 i2 : Z) (l : list (Z * Z)).
Hypothesis (Hs : starting m A U p b) (Hu : untaken (m_d m) [i0; i1; i2]).
Let m' : vmach := start_at m p (WaitDisk b w i0) (slept p (ChDiskBuf b) (upd_buf b (set_b_disk true) (m_k m)))
  (formatted (foldl taken (m_d m) [i0; i1; i2]) b w (sector_of m b) i0 i1 i2) l.

Lemma submit_same : in_use_same (m_d m) (m_d m').
Proof. by apply formatted_same. Qed.

Lemma submit_buf c : get_buf c (m_k m') = if (c =? b)%nat then set_b_disk true (get_buf c (m_k m)) else get_buf c (m_k m).
Proof. apply (get_buf_upd b (set_b_disk true) (m_k m)), Hs. Qed.

Lemma submit_request : request (m_d m') b w (sector_of m b) i0 i1 i2.
Proof.
  apply formatted_request; [apply Hu|]. destruct Hu as [_ Hf]. rewrite Forall_forall in *. intros i Hin. split; [by apply Hf|].
  by rewrite free_foldl, bool_decide_eq_true_2, andb_false_r.
Qed.

Lemma submit_free i : i ∈ [i0; i1; i2] -> 0 <= i < NUM /\ free_at (m_d m) i = true.
Proof. destruct Hu as [_ Hf]. rewrite Forall_forall in Hf. apply Hf. Qed.

Lemma submit_head : i0 ∉ A ++ m_work m ++ U.
Proof.
  intros Hin. destruct (waits_busy _ _ _ _ (sg_inv _ _ _ _ _ Hs) Hin) as [_ E]. destruct (submit_free i0); [set_solver|congruence].
Qed.

Lemma submit_new : pc_ok m' p (WaitDisk b w i0).
Proof.
  destruct Hs as [Hi Hf Hc Hpc Hlt [Hb Hbn] Hfr]. pose proof (iv_procs _ _ _ Hi) as Hn.
  assert (E : get_proc p (m_k m') = asleep (ChDiskBuf b) (get_proc p (m_k m))).
  { unfold m'. cbn [start_at m_v v_k]. rewrite get_proc_slept, decide_True by (done || cbn; lia). done. }
  split; rewrite ?E; try done.
  - right. split; [done|]. by rewrite submit_buf, Nat.eqb_refl.
  - exists b. rewrite submit_buf, Nat.eqb_refl. cbn. rewrite length_alter. done.
  - exists i1, i2. unfold sector_of. rewrite submit_buf, Nat.eqb_refl. apply submit_request.
Qed.

Lemma submit_pcs q x : m_pcs m' !! q = Some x -> pc_ok m' q x.
Proof.
  cbn. intros Hq. destruct (decide (q = p)) as [->|Hne].
  - rewrite lookup_insert_eq in Hq. injection Hq as <-. apply submit_new.
  - rewrite lookup_insert_ne in Hq by done. destruct Hs as [Hi Hf Hc Hpc Hlt [Hb Hbn] Hfr].
    apply (start_others m A U p b _ _ (upd_buf b (set_b_disk true) (m_k m)) _ _ q x Hs submit_same); try done.
    + apply Hi.
    + apply length_alter.
    + intros c Hcb. rewrite get_buf_upd by done. by rewrite (proj2 (Nat.eqb_neq _ _)).
    + by right.
Qed.

Lemma submit_owns q i : owns m' q i <-> q = p /\ i ∈ [i0; i1; i2] \/ owns m q i.
Proof.
  destruct (decide (q = p)) as [->|Hne].
  - split.
    + intros (c & x & j & Hm & Hin). left. cbn in Hm. rewrite lookup_insert_eq in Hm. injection Hm as <- <- <-.
      by rewrite (chain_of_request _ _ _ _ _ _ _ submit_request) in Hin.
    + intros [[_ Hin]|(c & x & j & Hm & _)]; [|by rewrite (sg_pc _ _ _ _ _ Hs) in Hm].
      exists b, w, i0. rewrite (chain_of_request _ _ _ _ _ _ _ submit_request). split; [apply lookup_insert_eq|done].
  - rewrite (us_owns m A U m' q i); [naive_solver|apply Hs|apply submit_same|]. by apply lookup_insert_ne.
Qed.

Lemma submit_waits h : waits m' h <-> h = i0 \/ waits m h.
Proof.
  unfold waits. split.
  - intros (q & c & x & Hm & Hd). rewrite submit_buf in Hd. cbn in Hm. destruct (decide (q = p)) as [->|Hne].
    + rewrite lookup_insert_eq in Hm. injection Hm as -> -> ->. by left.
    + rewrite lookup_insert_ne in Hm by done. right. exists q, c, x. split; [done|]. destruct (Nat.eqb_spec c b) as [->|]; [|done].
      exfalso. by apply (sg_fresh _ _ _ _ _ Hs q _ Hm).
  - intros [->|(q & c & x & Hm & Hd)].
    + exists p, b, w. rewrite submit_buf, Nat.eqb_refl. split; [apply lookup_insert_eq|done].
    + assert (q <> p) by (intros ->; by rewrite (sg_pc _ _ _ _ _ Hs) in Hm). exists q, c, x. rewrite submit_buf.
      split; [cbn; by rewrite lookup_insert_ne|]. by destruct (c =? b)%nat.
Qed.

Lemma submit_perm : (A ++ [i0]) ++ m_work m ++ U ≡ₚ i0 :: A ++ m_work m ++ U.
Proof. rewrite <- app_assoc. symmetry. apply Permutation_middle. Qed.

Lemma inv_submit : inv m' (A ++ [i0]) U.
Proof.
  pose proof (sg_inv _ _ _ _ _ Hs) as Hi. pose proof Hi as [I1 I2 I3 I4 I5 I6 I7 I8 I9 I10 I11 I12]. split; try done.
  - cbn. by rewrite length_alter.
  - apply submit_pcs.
  - by eapply start_bufs.
  - intros i Hr Hfr. destruct (decide (i ∈ [i0; i1; i2])) as [Hin|Hin]; [exists p; apply submit_owns; by left|].
    destruct (I6 i Hr) as [q Ho]; [|exists q; apply submit_owns; by right].
    change (free_at (foldl taken (m_d m) [i0; i1; i2]) i = false) in Hfr. by rewrite free_foldl, bool_decide_eq_false_2, andb_true_r in Hfr.
  - assert (Hx : forall q i, i ∈ [i0; i1; i2] -> owns m q i -> False).
    { intros q i Hin Ho. destruct (owns_busy _ _ _ _ _ Hi Ho), (submit_free i Hin). congruence. }
    intros q q' i Hq Hq'. apply submit_owns in Hq as [[-> Hin]|Ho], Hq' as [[-> Hin']|Ho'];
      [done|by destruct (Hx q' i)|by destruct (Hx q i)|by apply (I7 q q' i)].
  - apply (ring_push _ _ _ _ _ _ i0 I8). destruct (submit_free i0); [set_solver|]. by apply (heads_room m A U i0 Hi).
  - cbn [m_work m' start_at]. rewrite submit_perm. apply NoDup_cons. split; [apply submit_head|done].
  - intros h. cbn [m_work m' start_at]. rewrite submit_perm, elem_of_cons, submit_waits. by rewrite I11.
  - intros h Hh. destruct (waits_busy m A U h Hi) as [_ Hb]; [set_solver|]. rewrite (us_info _ _ submit_same) by done. by apply I12.
Qed.

Lemma submit_requests : requests m' = <[p := (b, w, false)]> (requests m).
Proof.
  apply map_eq. intros q. unfold requests. pose proof inv_submit as Hi'. pose proof (sg_inv _ _ _ _ _ Hs) as Hi.
  destruct (decide (q = p)) as [->|Hne].
  - rewrite lookup_insert_eq, lookup_fmap. cbn [m_pcs m' start_at]. rewrite lookup_insert_eq. cbn [fmap option_fmap option_map pc_request].
    rewrite (queued_avail _ _ _ Hi'), bool_decide_eq_true_2 by set_solver. done.
  - rewrite lookup_insert_ne, !lookup_fmap by done. cbn [m_pcs m' start_at]. rewrite lookup_insert_ne by done.
    destruct (m_pcs m !! q) as [[|c x h|]|] eqn:Hq; try done. cbn [fmap option_fmap option_map pc_request]. do 4 f_equal.
    rewrite (queued_avail _ _ _ Hi'), (queued_avail _ _ _ Hi). apply bool_decide_ext. cbn [m_work m' start_at].
    assert (h <> i0); [|set_solver]. intros ->. destruct (owns_busy m A U q i0 Hi) as [_ Hb]; [exists c, x, i0; split; [done|unfold chain_of; set_solver]|].
    destruct (submit_free i0); [set_solver|congruence].
Qed.
End Submit.

(** ... or finds too few descriptors. *)
Lemma exhausted_same k d k' d' : exhausted k d k' d' -> in_use_same d d'.
Proof. intros [_ _ (F & D & ->) Hf Hd]. split; intros i Hi; [by rewrite Hf|by apply Hd|done|done]. Qed.

Lemma inv_exhausted m A U p b w l k' d' :
  starting m A U p b -> exhausted (m_k m) (m_d m) k' d' ->
  let m' := start_at m p (WantDesc b w (sector_of m b)) (slept p ChDesc k') d' l in
  inv m' A U /\ requests m' = <[p := (b, w, false)]> (requests m) /\ k_bufs k' = k_bufs (m_k m) /\ k_disk k' = k_disk (m_k m).
Proof.
  intros Hs He m'. pose proof Hs as [Hi Hf Hc Hpc Hlt [Hb Hbn] Hfr]. pose proof Hi as [I1 I2 I3 I4 I5 I6 I7 I8 I9 I10 I11 I12].
  pose proof (exhausted_same _ _ _ _ He) as Hsame. destruct He as [Hk Hbusy (F & D & Ed) Hfree _].
  assert (Hkb : k_bufs k' = k_bufs (m_k m) /\ k_disk k' = k_disk (m_k m) /\ length (k_procs k') = Z.to_nat NPROC).
  { destruct Hk as [->| ->]; [done|]. cbn. by rewrite length_imap. }
  destruct Hkb as (Kb & Kd & Kp).
  assert (Hbuf : forall c, get_buf c k' = get_buf c (m_k m)) by (intros c; unfold get_buf; by rewrite Kb).
  assert (Hown : forall q i, owns m' q i <-> owns m q i).
  { intros q i. destruct (decide (q = p)) as [->|Hne]; [|apply (us_owns m A U); try done; by apply lookup_insert_ne].
    unfold owns. cbn. rewrite lookup_insert_eq, Hpc. naive_solver. }
  split; [|split; [|done]].
  - split; try done; try (subst d'; done).
    + cbn. by rewrite length_alter.
    + intros q x Hq. cbn in Hq. destruct (decide (q = p)) as [->|Hne].
      * rewrite lookup_insert_eq in Hq. injection Hq as <-.
        assert (E : get_proc p (m_k m') = asleep ChDesc (get_proc p k')) by (by apply (get_upd_proc p (asleep ChDesc)); lia).
        split; rewrite ?E; try done.
        { right. split; [done|]. destruct Hbusy as (i & Hr & Hi0). exists i. split; [done|]. cbn. by rewrite Hfree. }
        { exists b. change (get_buf b (m_k m')) with (get_buf b k'). rewrite Hbuf. cbn. by rewrite Kb. }
        { unfold sector_of. change (get_buf b (m_k m')) with (get_buf b k'). by rewrite Hbuf. }
      * rewrite lookup_insert_ne in Hq by done. pose proof (po_lt _ _ _ (I4 _ _ Hq)) as Hqlt.
        apply (start_others m A U p b _ _ k' _ _ q x Hs Hsame); try done; [by rewrite Kb|..]; destruct Hk as [->| ->]; try done;
          rewrite ?get_proc_wake by lia; [apply woken_chan|by right|apply vwoken_state].
    + by eapply start_bufs.
    + intros i Hr Hfr'. destruct (I6 i Hr) as [q Ho]; [by rewrite <- Hfree|]. exists q. by apply Hown.
    + intros q q' i. rewrite !Hown. apply I7.
    + intros h. change (m_work m') with (m_work m). rewrite I11. unfold waits. cbn. split; intros (q & c & x & Hm & Hd).
      * exists q, c, x. rewrite lookup_insert_ne by congruence. split; [done|]. change (b_disk (get_buf c k') = true). by rewrite Hbuf.
      * destruct (decide (q = p)) as [->|Hne]; [by rewrite lookup_insert_eq in Hm|]. rewrite lookup_insert_ne in Hm by done.
        exists q, c, x. split; [done|]. rewrite <- Hbuf. done.
  - unfold requests. cbn. rewrite fmap_insert. cbn. f_equal. apply map_fmap_ext. intros q x _. by subst d'.
Qed.

(** A request is submitted, or its process waits for descriptors. *)
Lemma inv_alloc m A U p b w :
  starting m A U p b ->
  let m' := after p (rw_alloc b w (sector_of m b) (m_v m)) (unlock m) in
  exists A' pc v, rw_alloc b w (sector_of m b) (m_v m) = Block pc v /\ inv m' A' U /\ m_pcs m' = <[p := pc]> (m_pcs m) /\ pc_buf pc = Some b /\ (pc_chan pc = ChDesc -> busy (m_d m)) /\
    k_cur (m_k m') = None /\ requests m' = <[p := (b, w, false)]> (requests m) /\ content m' = content m.
Proof.
  intros Hs. pose proof Hs as [Hi Hf Hc _ Hlt [Hb _] _]. cbv zeta.
  assert (Ev : m_v m = mk_vstate (m_k m) (m_d m) (v_mmio (m_v m))) by (by destruct (m_v m)).
  destruct (rw_alloc_spec (m_k m) (m_d m) (v_mmio (m_v m)) p b w (sector_of m b) (inv_locked _ _ _ Hi Hf) Hc Hlt Hb)
    as [(i0 & i1 & i2 & Hu & E)|(k' & d' & He & E)]; rewrite <- Ev in E;
    rewrite E; cbn [after].
  - eexists (A ++ [i0]), (WaitDisk b w i0), _. split; [done|]. split; [by apply (inv_submit m A U p b w i0 i1 i2)|]. do 4 (split; [done|]).
    split; [by apply (submit_requests m A U p b w i0 i1 i2)|]. unfold content. cbn. by rewrite content_disk.
  - eexists A, (WantDesc b w (sector_of m b)), _. split; [done|]. destruct (inv_exhausted m A U p b w (v_mmio (m_v m)) k' d' Hs He) as (Hi' & Hr & Kb & Kd).
    split; [done|]. split; [done|]. split; [done|]. split; [intros _; apply He|]. split; [done|]. split; [done|].
    unfold content. cbn. by rewrite Kb, Kd.
Qed.

Lemma step_call m A U p b w :
  inv m A U -> m_intr m = false -> k_held (m_k m) = [] -> k_cur (m_k m) = Some p -> m_pcs m !! p = None ->
  (p < Z.to_nat NPROC)%nat -> (b < length (k_bufs (m_k m)))%nat -> 0 <= b_blockno (get_buf b (m_k m)) < 2 ^ 31 ->
  (forall q pc, m_pcs m !! q = Some pc -> pc_buf pc <> Some b) ->
  let m' := after p (virtio_disk_rw b w (m_v m)) m in
  exists A', inv m' A' U /\ requests m' = <[p := (b, w, false)]> (requests m) /\ content m' = content m.
Proof.
  intros Hi Hf Hh Hc Hpc Hlt Hb Hbn Hfr. set (m1 := with_k (set_k_held [LkDisk] (m_k m)) (v_mmio (m_v m)) true m).
  assert (Hs : starting m1 A U p b).
  { split; try done. apply inv_with_k; try done; [apply Hi|]. intros q pc Hq. split; [apply (iv_pc _ _ _ Hi _ _ Hq)|]. split; [done|].
    split; [by right|done]. }
  destruct (inv_alloc m1 A U p b w Hs) as (A' & pc & v & Er & Hi' & _ & _ & _ & _ & Hr & Hco).
  assert (E : after p (virtio_disk_rw b w (m_v m)) m = after p (rw_alloc b w (sector_of m1 b) (m_v m1)) (unlock m1)).
  { unfold virtio_disk_rw. rewrite bind_gets. unfold kernel, lift.
    rewrite (bind_Ok _ _ _ tt (m_v m1)).
    { change (u32 _) with (sector_of m1 b). rewrite Er. cbn. by rewrite Hf. }
    rewrite acquire_Ok by (rewrite Hh; apply not_elem_of_nil). by rewrite Hh. }
  cbv zeta. rewrite E. by exists A'.
Qed.

(** A process that continues after sleep has the lock again. *)
Definition resumed (p : nat) (k : kstate) : kstate :=
  set_k_held [LkDisk] (upd_proc p (set_p_chan None) (set_k_cur (Some p) (upd_proc p (set_p_state RUNNING) (set_k_held [LkProc p] k)))).

Lemma get_proc_resumed p q k : q <> p -> get_proc q (resumed p k) = get_proc q k.
Proof. intros Hne. unfold get_proc, resumed, upd_proc. cbn. by rewrite !list_lookup_alter_ne. Qed.

Lemma run_again_spec p pc v :
  k_held (v_k v) = [] -> (p < length (k_procs (v_k v)))%nat ->
  run_again p pc v =
    if bool_decide (p_state (get_proc p (v_k v)) = RUNNABLE) then
      match pc with
      | WantDesc b w sec => rw_alloc b w sec (set_v_k (resumed p (v_k v)) v)
      | WaitDisk b w i0 => rw_wait b w i0 (set_v_k (resumed p (v_k v)) v)
      | InKernel _ => ub v
      end
    else Block pc v.
Proof.
  intros Hh Hp. unfold run_again, kernel at 1, lift. unfold bind at 1. rewrite (dispatch_spec p (v_k v) Hh Hp). case_bool_decide.
  - unfold vresume, kernel, lift. unfold bind. cbn [v_k set_v_k]. rewrite (sleep_resume_spec LkDisk p) by done. by destruct pc.
  - by destruct v.
Qed.

Lemma inv_drop_want m A U p b w sec :
  inv m A U -> m_pcs m !! p = Some (WantDesc b w sec) ->
  starting (mk_vmach (mk_vstate (resumed p (m_k m)) (m_d m) (v_mmio (m_v m))) (delete p (m_pcs m)) (m_seen m) (m_work m) true (m_panic m)) A U p b.
Proof.
  intros Hi Hm. pose proof (iv_pc _ _ _ Hi _ _ Hm) as Hok. destruct (po_buf _ _ _ Hok) as (? & [= <-] & Hb).
  pose proof Hi as [I1 I2 I3 I4 I5 I6 I7 I8 I9 I10 I11 I12].
  assert (Hdel : forall q x, delete p (m_pcs m) !! q = Some x -> q <> p /\ m_pcs m !! q = Some x)
    by (intros q x [Hne Hq]%lookup_delete_Some; done).
  split; try done; [|apply lookup_delete_eq|apply Hok|].
  2: { intros q pc [Hne Hq]%Hdel Heq. by apply (I5 q p pc (WantDesc b w sec) Hne Hq Hm). }
  split; try done.
  - cbn. by rewrite !length_alter.
  - intros q x [Hne Hq]%Hdel. pose proof (I4 _ _ Hq) as Hoq.
    apply (pc_ok_frame m); cbn [m_v v_k v_disk]; rewrite ?get_proc_resumed by done; try done; [cbn; congruence|by right].
  - intros q q' x y Hne [_ Hq]%Hdel [_ Hq']%Hdel. by apply (I5 q q').
  - intros i Hr Hfr. destruct (I6 i Hr Hfr) as (q & c & x & i0 & Hq & Hin). exists q, c, x, i0. split; [|done]. cbn.
    rewrite lookup_delete_ne; [done|]. intros ->. congruence.
  - intros q q' i (c & x & i0 & [_ Hq]%Hdel & Hin) (c' & x' & i0' & [_ Hq']%Hdel & Hin'). apply (I7 q q' i); [by exists c, x, i0|by exists c', x', i0'].
  - intros h. cbn [m_work]. rewrite I11. unfold waits. cbn. split; intros (q & c & x & Hq & Hd); exists q, c, x.
    + split; [|done]. rewrite lookup_delete_ne; [done|]. intros ->. congruence.
    + by apply Hdel in Hq as [_ Hq].
Qed.

(** ** A process whose request was served returns *)

Definition returned (m : vmach) (p : nat) (i0 i1 i2 : Z) : vmach :=
  mk_vmach (mk_vstate (set_k_held [] (wake ChDesc (resumed p (m_k m)))) (freed3 (no_info (m_d m) i0) i0 i1 i2) (v_mmio (m_v m)))
    (delete p (m_pcs m)) (m_seen m) (m_work m) false (m_panic m).

Lemma free_freed3 d i0 i1 i2 i : free_at (freed3 d i0 i1 i2) i = if decide (i ∈ [i0; i1; i2]) then true else free_at d i.
Proof. unfold freed3. rewrite !free_freed. destruct (decide (i ∈ _)); repeat case_decide; try done; set_solver. Qed.
Lemma desc_freed3 d i0 i1 i2 i : i ∉ [i0; i1; i2] -> desc_at (freed3 d i0 i1 i2) i = desc_at d i.
Proof. intros Hi. unfold freed3. rewrite !desc_freed. repeat case_decide; try done; set_solver. Qed.
Lemma info_freed3 d i0 i1 i2 i : i <> i0 -> info_at (freed3 (no_info d i0) i0 i1 i2) i = info_at d i.
Proof. intros Hi. unfold info_at. cbn. by rewrite lookup_insert_ne. Qed.

Section Return.
Context (m : vmach) (A U : list Z) (p b : nat) (w : bool) (i0 i1 i2 : Z).
Hypothesis (Hi : inv m A U) (Hm : m_pcs m !! p = Some (WaitDisk b w i0)) (Hd : b_disk (get_buf b (m_k m)) = false).
Hypothesis Hr : request (m_d m) b w (sector_of m b) i0 i1 i2.
Let m' : vmach := returned m p i0 i1 i2.

Lemma return_pcs q x : m_pcs m' !! q = Some x -> q <> p /\ m_pcs m !! q = Some x.
Proof. cbn. intros [Hne Hq]%lookup_delete_Some. done. Qed.

Lemma return_owns q i : q <> p -> owns m q i -> i ∉ [i0; i1; i2].
Proof.
  intros Hne Ho Hin. apply Hne, (iv_disj _ _ _ Hi q p i Ho). exists b, w, i0. split; [done|]. by rewrite (chain_of_request _ _ _ _ _ _ _ Hr).
Qed.

Lemma return_request q c x sec j0 j1 j2 :
  q <> p -> m_pcs m !! q = Some (WaitDisk c x j0) -> request (m_d m) c x sec j0 j1 j2 -> request (m_d m') c x sec j0 j1 j2.
Proof.
  intros Hne Hq Hrq. assert (Hn : forall i, i ∈ [j0; j1; j2] -> i ∉ [i0; i1; i2]).
  { intros i Hin. apply (return_owns q i Hne). exists c, x, j0. split; [done|]. by rewrite (chain_of_request _ _ _ _ _ _ _ Hrq). }
  revert Hrq. apply request_ext; [|done|].
  - intros i Hin. cbn [m_v m' returned v_disk]. rewrite free_freed3, decide_False, desc_freed3 by auto. done.
  - cbn [m_v m' returned v_disk]. rewrite info_freed3; [done|]. intros ->. apply (Hn i0); set_solver.
Qed.

Lemma return_pc_ok q x : m_pcs m' !! q = Some x -> pc_ok m' q x.
Proof.
  intros [Hne Hq]%return_pcs. pose proof (iv_pc _ _ _ Hi _ _ Hq) as Hok. pose proof (po_lt _ _ _ Hok) as Hlt. pose proof (iv_procs _ _ _ Hi) as Hn.
  assert (E : get_proc q (m_k m') = woken (Some p) ChDesc q (get_proc q (m_k m))).
  { transitivity (get_proc q (wake ChDesc (resumed p (m_k m)))); [done|].
    rewrite get_proc_wake by (cbn; rewrite !length_alter; lia). by rewrite get_proc_resumed. }
  apply (pc_ok_frame m); rewrite ?E; try done; [cbn; congruence|apply woken_chan| |].
  - destruct x as [c y sec|c y j0|ch]; [|destruct (vwoken_state (Some p) ChDesc q (get_proc q (m_k m))); [by left|by right]|by destruct (po_at _ _ _ Hok)].
    left. apply woken_wakes; [congruence|apply Hok|]. destruct (po_state _ _ _ Hok) as [|[]]; [by left|by right].
  - intros c y sec j0 j1 j2 ->. by apply (return_request q).
Qed.

Lemma return_owned q i : owns m' q i -> owns m q i.
Proof.
  intros (c & x & j0 & [Hne Hq]%return_pcs & Hin). exists c, x, j0. split; [done|].
  destruct (po_at _ _ _ (iv_pc _ _ _ Hi _ _ Hq)) as (j1 & j2 & Hrq).
  rewrite (chain_of_request _ _ _ _ _ _ _ Hrq). by rewrite (chain_of_request _ _ _ _ _ _ _ (return_request _ _ _ _ _ _ _ Hne Hq Hrq)) in Hin.
Qed.

Lemma return_waits h : waits m' h <-> waits m h.
Proof.
  unfold waits. split; intros (q & c & x & Hq & Hw); exists q, c, x.
  - apply return_pcs in Hq as [_ Hq]. done.
  - split; [|done]. cbn. rewrite lookup_delete_ne; [done|]. intros ->. rewrite Hm in Hq. injection Hq as -> -> ->. congruence.
Qed.

Lemma return_head h : waits m h -> h <> i0.
Proof.
  intros (q & c & x & Hq & Hw) ->. rewrite <- (waits_head _ _ _ _ _ _ _ _ _ _ Hi Hm Hq), Hm in Hq. injection Hq as -> ->. congruence.
Qed.

Lemma inv_return : inv m' A U.
Proof.
  pose proof Hi as [I1 I2 I3 I4 I5 I6 I7 I8 I9 I10 I11 I12]. split; try done.
  - cbn. by rewrite length_imap, !length_alter.
  - apply return_pc_ok.
  - intros q q' x y Hne [_ Hq]%return_pcs [_ Hq']%return_pcs. by apply (I5 q q').
  - intros i Hrg Hf. cbn [m_v m' returned v_disk] in Hf. rewrite free_freed3 in Hf. case_decide as Hin; [done|].
    destruct (I6 i Hrg Hf) as (q & c & x & j0 & Hq & Hc).
    assert (Hne : q <> p).
    { intros ->. rewrite Hm in Hq. injection Hq as <- <- <-. by rewrite (chain_of_request _ _ _ _ _ _ _ Hr) in Hc. }
    destruct (po_at _ _ _ (I4 _ _ Hq)) as (j1 & j2 & Hrq). exists q, c, x, j0. split; [cbn; by rewrite lookup_delete_ne|].
    rewrite (chain_of_request _ _ _ _ _ _ _ Hrq) in Hc. by rewrite (chain_of_request _ _ _ _ _ _ _ (return_request _ _ _ _ _ _ _ Hne Hq Hrq)).
  - intros q q' i Ho Ho'. apply (I7 q q' i); by apply return_owned.
  - intros h. cbn [m_work m' returned]. by rewrite I11, return_waits.
  - intros h Hh. cbn [m_v m' returned v_disk]. rewrite info_freed3; [by apply I12|]. apply return_head, I11. set_solver.
Qed.

Lemma return_requests : requests m !! p = Some (b, w, true) /\ requests m' = delete p (requests m).
Proof.
  unfold requests. split.
  - rewrite lookup_fmap, Hm. cbn. rewrite (queued_avail _ _ _ Hi), bool_decide_eq_false_2; [done|]. intros Hin.
    destruct (return_head i0); [|done]. apply (iv_waits _ _ _ Hi). set_solver.
  - cbn. rewrite <- fmap_delete. done.
Qed.
End Return.

Lemma run_idle m p pc :
  k_held (m_k m) = [] -> (p < length (k_procs (m_k m)))%nat -> m_pcs m !! p = Some pc ->
  p_state (get_proc p (m_k m)) <> RUNNABLE -> after p (run_again p pc (m_v m)) m = m.
Proof.
  intros Hh Hl Hm Hs. rewrite run_again_spec, bool_decide_eq_false_2 by done. cbn. rewrite insert_id by done. by destruct m.
Qed.

Lemma run_wait m A U p b w i0 :
  inv m A U -> m_intr m = false -> m_pcs m !! p = Some (WaitDisk b w i0) -> p_state (get_proc p (m_k m)) = RUNNABLE ->
  b_disk (get_buf b (m_k m)) = true ->
  let m' := after p (run_again p (WaitDisk b w i0) (m_v m)) m in
  inv m' A U /\ requests m' = requests m /\ content m' = content m.
Proof.
  intros Hi Hf Hm Hs Hd. pose proof (iv_pc _ _ _ Hi _ _ Hm) as Hok. pose proof (po_lt _ _ _ Hok) as Hlt. pose proof (iv_procs _ _ _ Hi) as Hn.
  pose proof (iv_held _ _ _ Hi) as Hh. rewrite Hf in Hh.
  assert (E : after p (run_again p (WaitDisk b w i0) (m_v m)) m = with_k (slept p (ChDiskBuf b) (resumed p (m_k m))) (v_mmio (m_v m)) false m).
  { rewrite run_again_spec, bool_decide_eq_true_2 by (done || lia). unfold set_v_k.
    rewrite (rw_wait_sleeps _ _ _ p); try done; [|split; [done|cbn; by rewrite !length_alter]].
    cbn. rewrite insert_id by done. unfold with_k. by rewrite Hf. }
  cbv zeta. rewrite E. split; [|done]. apply inv_with_k_gen; try done; [cbn; by rewrite !length_alter|].
  intros q x Hq. pose proof (iv_pc _ _ _ Hi _ _ Hq) as Hoq.
  assert (Eq : get_proc q (slept p (ChDiskBuf b) (resumed p (m_k m))) =
    if decide (q = p) then asleep (ChDiskBuf b) (get_proc q (resumed p (m_k m))) else get_proc q (m_k m)).
  { rewrite get_proc_slept by (cbn; rewrite !length_alter; lia). case_decide; [done|]. by rewrite get_proc_resumed. }
  destruct (decide (q = p)) as [->|Hne].
  - rewrite Hm in Hq. injection Hq as <-. split; cbn [m_v with_k v_k v_disk]; rewrite ?Eq; try done; [by right| |].
    + exists b. split; [done|]. destruct (po_buf _ _ _ Hok) as (? & [= <-] & ?). done.
    + destruct (po_at _ _ _ Hok) as (i1 & i2 & Hr). by exists i1, i2.
  - apply (pc_ok_frame m); cbn [m_v with_k v_k v_disk]; rewrite ?Eq; try done. by right.
Qed.

Lemma run_return m A U p b w i0 :
  inv m A U -> m_intr m = false -> m_pcs m !! p = Some (WaitDisk b w i0) -> p_state (get_proc p (m_k m)) = RUNNABLE ->
  b_disk (get_buf b (m_k m)) = false ->
  let m' := after p (run_again p (WaitDisk b w i0) (m_v m)) m in
  inv m' A U /\ m_pcs m' = delete p (m_pcs m) /\
  requests m !! p = Some (b, w, true) /\ requests m' = delete p (requests m) /\ content m' = content m.
Proof.
  intros Hi Hf Hm Hs Hd. pose proof (iv_pc _ _ _ Hi _ _ Hm) as Hok. pose proof (po_lt _ _ _ Hok) as Hlt. pose proof (iv_procs _ _ _ Hi) as Hn.
  pose proof (iv_held _ _ _ Hi) as Hh. rewrite Hf in Hh. destruct (po_at _ _ _ Hok) as (i1 & i2 & Hr).
  assert (E : after p (run_again p (WaitDisk b w i0) (m_v m)) m = returned m p i0 i1 i2).
  { rewrite run_again_spec, bool_decide_eq_true_2 by (done || lia). unfold set_v_k.
    rewrite (rw_wait_returns _ _ _ b w (sector_of m b) i0 i1 i2); try done; [|split; [done|cbn; by rewrite !length_alter]].
    cbn. unfold returned. by rewrite Hf. }
  cbv zeta. rewrite E. split; [by apply (inv_return m A U p b w)|]. split; [done|].
  destruct (return_requests m A U p b w i0 i1 i2 Hi Hm Hd Hr) as [-> ->]. done.
Qed.

Lemma run_want m A U p b w sec :
  inv m A U -> m_intr m = false -> m_pcs m !! p = Some (WantDesc b w sec) -> p_state (get_proc p (m_k m)) = RUNNABLE ->
  let m' := after p (run_again p (WantDesc b w sec) (m_v m)) m in
  exists A' pc, inv m' A' U /\ m_pcs m' = <[p := pc]> (m_pcs m) /\ pc_buf pc = Some b /\ (pc_chan pc = ChDesc -> busy (m_d m)) /\
    k_cur (m_k m') = None /\ requests m' = requests m /\ content m' = content m.
Proof.
  intros Hi Hf Hm Hs. pose proof (iv_pc _ _ _ Hi _ _ Hm) as Hok. pose proof (po_lt _ _ _ Hok) as Hlt. pose proof (iv_procs _ _ _ Hi) as Hn.
  pose proof (iv_held _ _ _ Hi) as Hh. rewrite Hf in Hh. pose proof (inv_drop_want m A U p b w sec Hi Hm) as Hst.
  set (m1 := mk_vmach _ _ _ _ _ _) in Hst.
  destruct (inv_alloc m1 A U p b w Hst) as (A' & pc & v & Er & Hi' & Hp & Hb & Hbu & Hc & Hr & Hco).
  assert (Es : sec = sector_of m1 b) by apply (po_at _ _ _ Hok).
  assert (E : after p (run_again p (WantDesc b w sec) (m_v m)) m = after p (rw_alloc b w (sector_of m1 b) (m_v m1)) (unlock m1)).
  { rewrite run_again_spec, bool_decide_eq_true_2 by (done || lia). rewrite Es. change (set_v_k (resumed p (m_k m)) (m_v m)) with (m_v m1).
    rewrite Er. cbn. rewrite insert_delete_eq. by rewrite Hf. }
  cbv zeta. rewrite E. exists A', pc. split; [done|]. split; [by rewrite Hp; cbn; rewrite insert_delete_eq|].
  split; [done|]. split; [done|]. split; [done|]. split; [|done].
  rewrite Hr. unfold requests. cbn [m_pcs m1]. rewrite fmap_delete, insert_delete_eq. apply insert_id. rewrite lookup_fmap, Hm. done.
Qed.

(** ** The start *)

Lemma kalloc_frame k r k' : k_held k = [] -> kalloc k = Ok r k' -> k_held k' = [] /\ k_procs k' = k_procs k.
Proof.
  intros Hh. unfold kalloc. rewrite (bind_Ok _ _ _ _ _ (acquire_Ok LkKmem k ltac:(rewrite Hh; apply not_elem_of_nil))), bind_gets, Hh.
  assert (Hrel : forall t, k_held t = [LkKmem] -> release LkKmem t = Ok tt (set_k_held [] t)) by (intros t Ht; apply release_Ok; [done|apply not_elem_of_nil]).
  cbn [k_freelist set_k_held]. destruct (k_freelist k =? 0); cbn [negb when].
  - rewrite bind_ret. erewrite (bind_Ok (release _)) by (by apply Hrel). rewrite bind_ret. by intros [= _ <-].
  - rewrite bind_modify. erewrite (bind_Ok (release _)) by (by apply Hrel). rewrite bind_modify. by intros [= _ <-].
Qed.

(** The part of virtio_disk_init that follows the allocation of the pages. *)
Definition fresh_disk (d : vdisk) : Prop :=
  avail_idx d = 0 /\ used_dev d = 0 /\ used_idx d = 0 /\ forall i, 0 <= i < NUM -> free_at d i = true.

Lemma init_free v :
  exists F, for_loop (Z.to_nat NUM) 0 (fun i => set_free_at i true ;;; ret (@None unit)) v = Ok None (set_v_disk (set_free F (v_disk v)) v) /\
    forall i, 0 <= i < NUM -> F !! i = Some true.
Proof.
  destruct (for_loop_inv (Z.to_nat NUM) 0 (fun i => set_free_at i true ;;; ret (@None unit))
    (fun j t => exists F, t = set_v_disk (set_free F (v_disk v)) v /\ forall i, 0 <= i < j -> F !! i = Some true) v) as (t & E & F & -> & HF).
  - intros j t Hj (F & -> & HF). eexists. split; [reflexivity|]. exists (<[j := true]> F). split; [done|].
    intros i Hi. destruct (Z.eq_dec i j) as [->|]; [apply lookup_insert_eq|]. rewrite lookup_insert_ne by done. apply HF. lia.
  - exists (free (v_disk v)). split; [by destruct v as [k []]|lia].
  - exists F. by split.
Qed.

(** What a routine leaves when it returns. *)
Definition yields {A} (I : vstate -> Prop) (c : V A) (Q : A -> vstate -> Prop) : Prop :=
  forall v, I v -> match c v with Ok a v' => Q a v' | _ => True end.

Lemma yields_bind {A B} I (c : V A) R (f : A -> V B) Q :
  yields I c R -> (forall a, yields (R a) (f a) Q) -> yields I (bind c f) Q.
Proof.
  intros Hc Hf v Hv. unfold bind. specialize (Hc v Hv). destruct (c v) as [a v'| | |]; try done. by apply Hf.
Qed.
Lemma yields_read I r (Q : Z -> vstate -> Prop) : (forall v a, I v -> Q a v) -> yields I (read_reg reg r) Q.
Proof. intros H v Hv. by apply H. Qed.
Lemma yields_modify I f (Q : unit -> vstate -> Prop) : (forall v, I v -> Q tt (f v)) -> yields I (modify f) Q.
Proof. intros H v Hv. by apply H. Qed.
Lemma yields_guard {A} I (c : bool) msg (f : V A) Q : yields I f Q -> yields I (if c then panic msg else f) Q.
Proof. intros H v Hv. destruct c; [done|by apply H]. Qed.

(** The state of virtio_disk_init at its stages: the avail ring, the used ring
    and the descriptors were set up. *)
Definition init_inv (avail used : bool) (v : vstate) : Prop :=
  k_held (v_k v) = [] /\ length (k_procs (v_k v)) = Z.to_nat NPROC /\ used_idx (v_disk v) = 0 /\
  (avail = true -> avail_idx (v_disk v) = 0) /\ (used = true -> used_dev (v_disk v) = 0).

Lemma yields_kalloc a u : yields (init_inv a u) (kernel kalloc) (fun _ => init_inv a u).
Proof.
  intros v (Hh & Hp & R). unfold kernel, lift. destruct (kalloc (v_k v)) as [r k| | |] eqn:E; try done.
  destruct (kalloc_frame _ _ _ Hh E) as [H1 H2]. split; [done|]. cbn. by rewrite H2.
Qed.

#[local] Ltac init_step :=
  first [ apply yields_guard
        | match goal with |- yields ?I (bind _ _) _ => apply (yields_bind I _ (fun _ => I)) end;
          [first [apply yields_kalloc | apply yields_read; let X := fresh in intros ? ? X; exact X
                 | apply yields_modify; let X := fresh in intros ? X; exact X] | intros ?; cbv beta]].

Lemma init_spec k v :
  k_held k = [] -> length (k_procs k) = Z.to_nat NPROC -> virtio_disk_init reg (mk_vstate k vdisk0 []) = Ok tt v ->
  k_held (v_k v) = [] /\ length (k_procs (v_k v)) = Z.to_nat NPROC /\ fresh_disk (v_disk v).
Proof.
  intros Hh Hp H.
  assert (Hy : yields (init_inv false false) (virtio_disk_init reg) (fun _ v => init_inv true true v /\ forall i, 0 <= i < NUM -> free_at (v_disk v) i = true)).
  { unfold virtio_disk_init, write_reg, upd_disk. cbv zeta. do 26 init_step.
    eapply yields_bind; [apply (yields_modify _ _ (fun _ => init_inv true false)); intros ? (? & ? & ? & ? & ?); by repeat split|intros ?; cbv beta].
    init_step.
    eapply yields_bind; [apply (yields_modify _ _ (fun _ => init_inv true true)); intros ? (? & ? & ? & ? & ?); by repeat split|intros ?; cbv beta].
    do 8 init_step.
    eapply yields_bind; [|intros ?; apply yields_modify; intros ? HQ; exact HQ].
    intros u Hu. destruct (init_free u) as (F & -> & HF). split; [done|]. intros i Hi. unfold free_at. cbn. by rewrite HF. }
  specialize (Hy (mk_vstate k vdisk0 [])). rewrite H in Hy. destruct Hy as ((H1 & H2 & H3 & H4 & H5) & H6); [done|].
  split; [done|]. split; [done|]. unfold fresh_disk. auto.
Qed.

Lemma vinv_init k v :
  k_held k = [] -> length (k_procs k) = Z.to_nat NPROC -> virtio_disk_init reg (mk_vstate k vdisk0 []) = Ok tt v ->
  inv (mk_vmach v ∅ 0 [] false false) [] [].
Proof.
  intros Hh Hp H. destruct (init_spec k v Hh Hp H) as (H1 & H2 & Ha & Hu & Hx & Hf). split; cbn; try done.
  - intros i Hi Hfi. by rewrite Hf in Hfi.
  - intros p q i (b & w & i0 & Hm & _). cbn in Hm; by rewrite lookup_empty in Hm.
  - rewrite Hx, Hu. by apply ring_init.
  - apply NoDup_nil_2.
  - intros h. split; [by intros ?%elem_of_nil|]. intros (p & b & w & Hm & _). cbn in Hm; by rewrite lookup_empty in Hm.
  - by intros h ?%elem_of_nil.
Qed.

(** * The theorems *)

Hypothesis device_conforms : forall m m', device m m' -> virtio_device m m'.

Lemma device_cases m A U m' :
  inv m A U -> device m m' ->
  m_seen m <> avail_idx (m_d m) /\ m' = dev_fetch m \/
  exists p b w h, h ∈ m_work m /\ m_pcs m !! p = Some (WaitDisk b w h) /\ m' = dev_finish h b w (b_blockno (get_buf b (m_k m))) h m.
Proof.
  intros Hi Hd. apply device_conforms in Hd as [Hf|(h & Hin & Hm')]; [by left|right].
  assert (Hw : waits m h) by (apply (iv_waits _ _ _ Hi); set_solver). destruct Hw as (p & b & w & Hm & _).
  pose proof (iv_pc _ _ _ Hi _ _ Hm) as Hok. destruct (po_at _ _ _ Hok) as (i1 & i2 & Hr), (po_buf _ _ _ Hok) as (? & [= <-] & Hb & Hbn).
  rewrite (read_chain_request _ _ _ _ _ _ _ Hr) in Hm'. unfold sector_of in Hm'. rewrite sector_block in Hm' by done.
  exists p, b, w, h. split; [done|]. split; [done|]. rewrite (Hm' ltac:(div_lia)). f_equal. div_lia.
Qed.

Lemma step_device m A U m' :
  inv m A U -> device m m' -> exists A' U', inv m' A' U' /\ serves m m' LDevice.
Proof.
  intros Hi Hd. destruct (device_cases m A U m' Hi Hd) as [[Hne ->]|(p & b & w & h & Hin & Hm & ->)].
  - destruct (inv_fetch m A U Hi Hne) as (A' & Hi' & Hr & _). exists A', U. split; [done|]. by apply SFetch.
  - destruct (inv_finish m A U p b w h (b_blockno (get_buf b (m_k m))) Hi Hin Hm) as [Hi' Hq].
    exists A, (U ++ [h]). split; [done|]. apply (SServe _ _ p b w); [|done|apply transfer_spec].
    unfold requests. rewrite lookup_fmap, Hm. cbn. rewrite bool_decide_eq_true_2 by set_solver. done.
Qed.

Lemma step_run m A U p pc :
  inv m A U -> m_intr m = false -> k_held (m_k m) = [] -> m_pcs m !! p = Some pc ->
  exists A', inv (after p (run_again p pc (m_v m)) m) A' U /\ serves m (after p (run_again p pc (m_v m)) m) (LRun p).
Proof.
  intros Hi Hf Hh Hm. pose proof (iv_pc _ _ _ Hi _ _ Hm) as Hok.
  destruct (decide (p_state (get_proc p (m_k m)) = RUNNABLE)) as [Hs|Hs].
  - destruct pc as [b w sec|b w i0|ch]; [| |by destruct (po_at _ _ _ Hok)].
    + destruct (run_want m A U p b w sec Hi Hf Hm Hs) as (A' & pc & Hi' & _ & _ & _ & _ & Hr & Hco). exists A'. split; [done|]. by apply SWait.
    + exists A. destruct (b_disk (get_buf b (m_k m))) eqn:Hd.
      * destruct (run_wait m A U p b w i0 Hi Hf Hm Hs Hd) as (Hi' & Hr & Hco). split; [done|]. by apply SWait.
      * destruct (run_return m A U p b w i0 Hi Hf Hm Hs Hd) as (Hi' & _ & Hr & Hr' & Hco). split; [done|]. by apply (SReturn _ _ p b w).
  - exists A. rewrite run_idle by (try done; rewrite (iv_procs _ _ _ Hi); apply Hok). split; [done|]. by apply SWait.
Qed.

Lemma vstep_inv m A U l m' : inv m A U -> vstep m l m' -> exists A' U', inv m' A' U' /\ serves m m' l.
Proof.
  intros Hi Hst. destruct Hst as [p b w Hf Hh Hc Hpc Hlt Hb Hbn Hfr|p pc Hf Hh Hc Hm|Hf Hh|Hf Hp|Hf Hp|m' Hd|k' Hf He].
  - destruct (step_call m A U p b w Hi Hf Hh Hc Hpc Hlt Hb Hbn Hfr) as (A' & Hi' & Hr & Hco). exists A', U. split; [done|]. by apply SCall.
  - destruct (step_run m A U p pc Hi Hf Hh Hm) as (A' & Hi' & Hs). by exists A', U.
  - destruct (inv_enter m A U Hi Hf) as (m' & -> & Hi' & Hr & Hco & _). exists A, U. split; [done|]. by apply SIntr.
  - destruct (inv_round m A U Hi Hf Hp) as (U' & Hi' & _ & Hr & Hco). exists A, U'. split; [done|]. by apply SIntr.
  - destruct (inv_leave m A U Hi Hf) as (m' & -> & Hi' & Hr & Hco). exists A, U. split; [done|]. by apply SIntr.
  - by apply (step_device m A U).
  - exists A, U. split; [|by apply SOther]. destruct He as [[_ Hh] Hc [Hl1 Hl2] Hpr Hbu].
    replace (mk_vmach _ _ _ _ _ _) with (with_k k' (v_mmio (m_v m)) false m) by (unfold with_k; by rewrite Hf).
    apply inv_with_k; try done; [by rewrite Hl1; apply Hi|]. intros p pc Hm. split; [intros Hx; by rewrite (Hc p Hx) in Hm|].
    rewrite (Hpr p pc Hm). split; [done|]. split; [by right|]. intros b Hb. by apply (Hbu p pc).
Qed.

Lemma reachable_inv m : reachable m -> exists A U, inv m A U.
Proof.
  induction 1 as [k v Hh Hp Hv|m l m' _ (A & U & Hi) Hst]; [by exists [], []; apply (vinv_init k)|].
  destruct (vstep_inv m A U l m' Hi Hst) as (A' & U' & Hi' & _). by exists A', U'.
Qed.


(** ** Progress *)

(** Steps other than new calls. *)
Definition quiet (m m' : vmach) : Prop := exists l, vstep m l m' /\ match l with LCall _ _ _ => False | _ => True end.

Hypothesis device_serves : forall m, m_seen m <> avail_idx (m_d m) \/ m_work m <> [] -> exists m', device m m'.

Lemma device_drains n : forall m A U,
  (2 * length A + length (m_work m) <= n)%nat -> inv m A U ->
  exists m' U', rtc quiet m m' /\ inv m' [] U' /\ m_work m' = [] /\ m_pcs m' = m_pcs m /\ m_intr m' = m_intr m.
Proof.
  induction n as [|n IH]; intros m A U Hn Hi.
  - exists m, U. assert (A = []) as -> by (destruct A; [done|cbn in Hn; lia]). split; [done|]. split; [done|].
    split; [by apply nil_length_inv; lia|done].
  - destruct (decide (A = [] /\ m_work m = [])) as [[-> Hw]|Hne]; [by exists m, U|].
    assert (Hb : m_seen m <> avail_idx (m_d m) \/ m_work m <> []).
    { destruct (decide (m_work m = [])) as [Hw|]; [left|by right]. intros E. apply Hne. split; [|done]. by apply (ring_empty _ _ _ _ _ _ (iv_avail _ _ _ Hi)). }
    destruct (device_serves m Hb) as [m1 Hd]. assert (Hq : quiet m m1) by (exists LDevice; split; [by apply VDevice|done]).
    assert (Hm1 : exists A1 U1, inv m1 A1 U1 /\ (2 * length A1 + length (m_work m1) <= n)%nat /\ m_pcs m1 = m_pcs m /\ m_intr m1 = m_intr m).
    { destruct (device_cases m A U m1 Hi Hd) as [[Hf ->]|(p & b & w & h & Hin & Hm & ->)].
      - destruct (inv_fetch m A U Hi Hf) as (A1 & Hi1 & _ & Hl). exists A1, U. split; [done|]. split; [|done].
        cbn. rewrite length_app. cbn. lia.
      - destruct (inv_finish m A U p b w h (b_blockno (get_buf b (m_k m))) Hi Hin Hm) as [Hi' _].
        exists A, (U ++ [h]). split; [done|]. split; [|done]. cbn. pose proof (finish_perm _ _ _ _ (iv_nodup _ _ _ Hi) Hin) as Hp%Permutation_length.
        rewrite !length_app in Hp. cbn in Hp. lia. }
    destruct Hm1 as (A1 & U1 & Hi1 & Hl1 & Ep & Ei). destruct (IH m1 A1 U1 Hl1 Hi1) as (m' & U' & Hr & Hi' & Hw & Ep' & Ei').
    exists m', U'. split; [by eapply rtc_l|]. split; [done|]. split; [done|]. split; congruence.
Qed.

Lemma quiet_intr m m' : vstep m LIntr m' -> quiet m m'.
Proof. intros H. by exists LIntr. Qed.

(** A handler that has begun empties the used ring and leaves. *)
Lemma intr_leaves m A U :
  inv m A U -> m_intr m = true -> intr_pending (m_v m) = false ->
  exists m', quiet m m' /\ inv m' A [] /\ m_pcs m' = m_pcs m /\ m_work m' = m_work m /\ m_intr m' = false.
Proof.
  intros Hi Hf Hp. destruct (inv_leave m A U Hi Hf) as (m' & E & Hi' & _).
  assert (U = []) as ->.
  { unfold intr_pending in Hp. apply negb_false_iff, Z.eqb_eq in Hp. by apply (ring_empty _ _ _ _ _ _ (iv_used _ _ _ Hi)). }
  exists m'. split; [apply quiet_intr; rewrite <- E; by apply VLeave|]. split; [done|]. rewrite <- E.
  pose proof (inv_locked _ _ _ Hi Hf) as [Hh _]. unfold kernel, lift. by rewrite (release_Ok LkDisk (m_k m) []) by (done || apply not_elem_of_nil).
Qed.

Lemma intr_drains n : forall m A U,
  (length U <= n)%nat -> inv m A U -> m_intr m = true ->
  exists m', rtc quiet m m' /\ inv m' A [] /\ m_pcs m' = m_pcs m /\ m_work m' = m_work m /\ m_intr m' = false.
Proof.
  induction n as [|n IH]; intros m A U Hn Hi Hf;
    (destruct (intr_pending (m_v m)) eqn:Hp; [|destruct (intr_leaves m A U Hi Hf Hp) as (m' & Hq & R); exists m'; split; [by apply rtc_once|done]]).
  - destruct (intr_round_spec m A U Hi Hf Hp) as (h & U' & _ & _ & _ & -> & _). cbn in Hn. lia.
  - destruct (inv_round m A U Hi Hf Hp) as (U' & Hi' & Hl & _).
    destruct (intr_round_spec m A U Hi Hf Hp) as (? & ? & ? & ? & ? & _ & _ & _ & E). rewrite E in Hi'. cbn [after_intr] in Hi'.
    destruct (IH _ A U' ltac:(lia) Hi' eq_refl) as (m' & Hr & R). exists m'. split; [|done]. eapply rtc_l; [|exact Hr].
    apply quiet_intr. replace (mk_vmach _ _ _ _ _ _) with (after_intr true (intr_round (m_v m)) m) by (by rewrite E). by apply VRound.
Qed.

(** The device and the interrupts have nothing to do, and the hart is idle. *)
Record settled (m : vmach) : Prop := {
  st_inv : inv m [] [];
  st_work : m_work m = [];
  st_intr : m_intr m = false;
  st_cur : k_cur (m_k m) = None
}.

Lemma settle_cur m : inv m [] [] -> m_work m = [] -> m_intr m = false ->
  exists m', quiet m m' /\ settled m' /\ m_pcs m' = m_pcs m.
Proof.
  intros Hi Hw Hf. pose proof (iv_held _ _ _ Hi) as Hh. rewrite Hf in Hh.
  set (k' := set_k_cur None (m_k m)). assert (He : elsewhere m k') by (by split).
  pose proof (VOther m k' Hf He) as Hst. eexists. split; [by exists LOther|]. split; [|done].
  destruct (vstep_inv m [] [] _ _ Hi Hst) as (A' & U' & Hi' & _). split; try done.
  assert (A' = [] /\ U' = []) as [-> ->]; [|done].
  split; [apply (ring_empty _ _ _ _ _ _ (iv_avail _ _ _ Hi')), (ring_empty _ _ _ _ _ _ (iv_avail _ _ _ Hi)); done|].
  apply (ring_empty _ _ _ _ _ _ (iv_used _ _ _ Hi')), (ring_empty _ _ _ _ _ _ (iv_used _ _ _ Hi)); done.
Qed.

Lemma settle m A U : inv m A U -> exists m', rtc quiet m m' /\ settled m' /\ m_pcs m' = m_pcs m.
Proof.
  intros Hi. destruct (device_drains _ m A U (le_n _) Hi) as (m1 & U1 & R1 & Hi1 & Hw1 & P1 & _).
  assert (H2 : exists m2, rtc quiet m1 m2 /\ inv m2 [] U1 /\ m_pcs m2 = m_pcs m1 /\ m_work m2 = m_work m1 /\ m_intr m2 = true).
  { destruct (m_intr m1) eqn:Hf; [by exists m1|]. pose proof (iv_held _ _ _ Hi1) as Hh. rewrite Hf in Hh.
    destruct (inv_enter m1 [] U1 Hi1 Hf) as (m2 & E & Hi2 & _ & _ & R). exists m2.
    split; [apply rtc_once, quiet_intr; rewrite <- E; by apply VEnter|done]. }
  destruct H2 as (m2 & R2 & Hi2 & P2 & W2 & F2). destruct (intr_drains _ m2 [] U1 (le_n _) Hi2 F2) as (m3 & R3 & Hi3 & P3 & W3 & F3).
  destruct (settle_cur m3 Hi3 ltac:(congruence) F3) as (m4 & Q4 & S4 & P4). exists m4. split; [|split; [done|congruence]].
  do 2 (etrans; [eassumption|]). eapply rtc_r; eassumption.
Qed.

Lemma settled_served m p b w i0 :
  settled m -> m_pcs m !! p = Some (WaitDisk b w i0) -> b_disk (get_buf b (m_k m)) = false /\ p_state (get_proc p (m_k m)) = RUNNABLE.
Proof.
  intros [Hi Hw _ _] Hm. destruct (b_disk (get_buf b (m_k m))) eqn:Hd.
  - assert (Hin : i0 ∈ [] ++ m_work m ++ []) by (apply (iv_waits _ _ _ Hi); by exists p, b, w). rewrite Hw in Hin. by apply elem_of_nil in Hin.
  - split; [done|]. destruct (po_state _ _ _ (iv_pc _ _ _ Hi _ _ Hm)) as [|[_ E]]; [done|congruence].
Qed.

Lemma settled_return m p b w i0 :
  settled m -> m_pcs m !! p = Some (WaitDisk b w i0) -> exists m', rtc quiet m m' /\ settled m' /\ m_pcs m' = delete p (m_pcs m).
Proof.
  intros Hs Hm. destruct (settled_served m p b w i0 Hs Hm) as [Hd Hr]. destruct Hs as [Hi Hw Hf Hc].
  destruct (run_return m [] [] p b w i0 Hi Hf Hm Hr Hd) as (Hi' & Hp & _). pose proof (iv_held _ _ _ Hi) as Hh. rewrite Hf in Hh.
  set (m' := after p _ m) in *. assert (Hq : quiet m m') by (exists (LRun p); split; [by apply VRun|done]).
  assert (Hx : m_work m' = [] /\ m_intr m' = false) by (unfold m', after; destruct (run_again _ _ _); done).
  destruct Hx as [Hw' Hf']. destruct (settle_cur m' Hi' Hw' Hf') as (m2 & Q2 & S2 & P2).
  exists m2. split; [eapply rtc_l; [done|by apply rtc_once]|]. split; [done|]. congruence.
Qed.

Lemma settled_wait_or_not m : (exists p b w i0, m_pcs m !! p = Some (WaitDisk b w i0)) \/ forall p b w i0, m_pcs m !! p <> Some (WaitDisk b w i0).
Proof.
  induction (m_pcs m) as [|q pc pcs Hq [(p & b & w & i0 & Hm)|Hno]] using map_ind.
  - right. intros p b w i0 Hm. by rewrite lookup_empty in Hm.
  - left. exists p, b, w, i0. rewrite lookup_insert_ne; [done|]. intros ->. congruence.
  - destruct pc as [b w sec|b w i0|ch]; [right|left; exists q, b, w, i0; by rewrite lookup_insert_eq|right];
      intros p c x i Hm; destruct (decide (p = q)) as [->|Hne]; (rewrite lookup_insert_eq in Hm || rewrite lookup_insert_ne in Hm by done); try done; by eapply Hno.
Qed.

(** Once nothing is in flight, the processes return one by one until only those
    that wait for descriptors are left. *)
Lemma settled_drain n : forall m,
  (size (m_pcs m) <= n)%nat -> settled m ->
  exists m', rtc quiet m m' /\ settled m' /\ (forall p b w sec, m_pcs m !! p = Some (WantDesc b w sec) -> m_pcs m' !! p = Some (WantDesc b w sec)) /\
    forall p b w i0, m_pcs m' !! p <> Some (WaitDisk b w i0).
Proof.
  induction n as [|n IH]; intros m Hn Hs; (destruct (settled_wait_or_not m) as [(q & c & x & i & Hq)|Hno]; [|by exists m]).
  - assert (m_pcs m = ∅) as E by (apply map_size_empty_inv; lia). by rewrite E, lookup_empty in Hq.
  - destruct (settled_return m q c x i Hs Hq) as (m1 & R1 & S1 & P1).
    destruct (IH m1) as (m2 & R2 & S2 & P2 & N2); [rewrite P1, map_size_delete_Some by (by eexists); lia|done|].
    exists m2. split; [by etrans|]. split; [done|]. split; [|done]. intros p b w sec Hp. apply P2. rewrite P1, lookup_delete_ne; [done|]. intros ->. congruence.
Qed.

(** A process that waits for descriptors gets them when no request is left. *)
Lemma settled_want m p b w sec :
  settled m -> (forall q c x i0, m_pcs m !! q <> Some (WaitDisk c x i0)) -> m_pcs m !! p = Some (WantDesc b w sec) ->
  exists m' A U i0, quiet m m' /\ inv m' A U /\ m_pcs m' !! p = Some (WaitDisk b w i0).
Proof.
  intros [Hi Hw Hf Hc] Hno Hm. assert (Hnb : ~ busy (m_d m)).
  { intros (i & Hr & Hfr). destruct (iv_owner _ _ _ Hi i Hr Hfr) as (q & c & x & i0 & Hq & _). by apply (Hno q c x i0). }
  pose proof (iv_pc _ _ _ Hi _ _ Hm) as Hok. pose proof (iv_held _ _ _ Hi) as Hh. rewrite Hf in Hh.
  assert (Hs : p_state (get_proc p (m_k m)) = RUNNABLE) by (destruct (po_state _ _ _ Hok) as [|[_ Hb]]; done).
  destruct (run_want m [] [] p b w sec Hi Hf Hm Hs) as (A & pc & Hi' & Hp & Hb & Hbu & _ & Hr & _).
  set (m' := after p _ m) in *. assert (Hq : quiet m m') by (exists (LRun p); split; [by apply VRun|done]).
  assert (Hpc : m_pcs m' !! p = Some pc) by (by rewrite Hp, lookup_insert_eq).
  destruct pc as [c x s|c x i0|ch]; [by destruct (Hnb (Hbu eq_refl))| |by destruct (po_at _ _ _ (iv_pc _ _ _ Hi' _ _ Hpc))].
  injection Hb as ->. exists m', A, [], i0. split; [done|]. split; [done|]. rewrite Hpc.
  assert (Er : requests m' !! p = requests m !! p) by (by rewrite Hr). unfold requests in Er. rewrite !lookup_fmap, Hpc, Hm in Er.
  cbn in Er. by injection Er as <-.
Qed.

Lemma settled_completes m p b w i0 :
  settled m -> m_pcs m !! p = Some (WaitDisk b w i0) -> exists m', rtc quiet m m' /\ m_pcs m' !! p = None.
Proof.
  intros Hs Hm. destruct (settled_return m p b w i0 Hs Hm) as (m' & R & _ & P). exists m'. split; [done|]. by rewrite P, lookup_delete_eq.
Qed.

(** C35: no request waits for ever.  From every reachable state with a process
    inside of the driver, whether it sleeps for descriptors or for the device,
    the device, the interrupts and the scheduler can run, without any new call,
    so that the process returns from virtio_disk_rw; there is no deadlock and
    no lost wakeup. *)
Theorem virtio_completes m p pc :
  reachable m -> m_pcs m !! p = Some pc -> exists m', rtc quiet m m' /\ m_pcs m' !! p = None.
Proof.
  intros (A & U & Hi)%reachable_inv Hm. pose proof (iv_pc _ _ _ Hi _ _ Hm) as Hok.
  destruct (settle m A U Hi) as (m1 & R1 & S1 & P1). rewrite <- P1 in Hm.
  destruct pc as [b w sec|b w i0|ch]; [| |by destruct (po_at _ _ _ Hok)].
  - destruct (settled_drain _ m1 (le_n _) S1) as (m2 & R2 & S2 & K2 & N2). apply K2 in Hm.
    destruct (settled_want m2 p b w sec S2 N2 Hm) as (m3 & A3 & U3 & i0 & Q3 & Hi3 & Hm3).
    destruct (settle m3 A3 U3 Hi3) as (m4 & R4 & S4 & P4). rewrite <- P4 in Hm3.
    destruct (settled_completes m4 p b w i0 S4 Hm3) as (m5 & R5 & P5). exists m5. split; [|done].
    etrans; [exact R1|]. etrans; [exact R2|]. eapply rtc_l; [exact Q3|]. by etrans.
  - destruct (settled_completes m1 p b w i0 S1 Hm) as (m' & R & P). exists m'. split; [by etrans|done].
Qed.
End Machine.

(** * A device and a first request *)

(** A device that takes what is in the avail ring and then serves the chains in
    the order in which it took them. *)
Definition demo_serve (m : vmach) : option vmach :=
  if negb (m_seen m =? avail_idx (m_d m)) then Some (dev_fetch m)
  else match m_work m with
       | [] => None
       | h :: _ => Some match read_chain (m_d m) h with
                        | Some (b, w, sec, t) => dev_finish h b w (sec / 2) t m
                        | None => m
                        end
       end.
Definition demo_device (m m' : vmach) : Prop := demo_serve m = Some m'.

Lemma demo_conforms m m' : demo_device m m' -> virtio_device m m'.
Proof.
  unfold demo_device, demo_serve. destruct (Z.eqb_spec (m_seen m) (avail_idx (m_d m))) as [E|E]; cbn [negb].
  - destruct (m_work m) as [|h l] eqn:Hw; [done|]. intros [= <-]. right. exists h. rewrite Hw. split; [set_solver|].
    by destruct (read_chain (m_d m) h) as [[[[b w] sec] t]|].
  - intros [= <-]. by left.
Qed.

Lemma demo_serves m : m_seen m <> avail_idx (m_d m) \/ m_work m <> [] -> exists m', demo_device m m'.
Proof.
  unfold demo_device, demo_serve. destruct (Z.eqb_spec (m_seen m) (avail_idx (m_d m))) as [E|E]; cbn [negb]; [|by eexists].
  intros [|]; [done|]. destruct (m_work m); [done|by eexists].
Qed.

(** Its registers, and a kernel with three free pages that runs process 0. *)
Definition demo_reg (w : list (Z * Z)) (r : Z) : Z :=
  if r =? VIRTIO_MMIO_MAGIC_VALUE then 0x74726976
  else if (r =? VIRTIO_MMIO_VERSION) || (r =? VIRTIO_MMIO_DEVICE_ID) then 2
  else if r =? VIRTIO_MMIO_VENDOR_ID then 0x554d4551
  else if r =? VIRTIO_MMIO_STATUS then 11
  else if r =? VIRTIO_MMIO_QUEUE_NUM_MAX then 1024
  else 0.
Definition demo_boot : kstate :=
  set_k_cur (Some 0%nat) (set_k_freelist 0x87000000
    (set_k_mem (store64 (store64 ∅ 0x87000000 0x87001000) 0x87001000 0x87002000) kstate0)).

Definition demo_v : vstate :=
  match virtio_disk_init demo_reg (mk_vstate demo_boot vdisk0 []) with Ok _ v => v | _ => mk_vstate demo_boot vdisk0 [] end.
Definition demo_mach : vmach := mk_vmach demo_v ∅ 0 [] false false.
Definition demo_called : vmach := after 0 (virtio_disk_rw 0 false (m_v demo_mach)) demo_mach.

Lemma demo_init : virtio_disk_init demo_reg (mk_vstate demo_boot vdisk0 []) = Ok tt demo_v.
Proof.
  assert (H : match virtio_disk_init demo_reg (mk_vstate demo_boot vdisk0 []) with Ok _ _ => true | _ => false end = true) by (vm_compute; reflexivity).
  unfold demo_v. destruct (virtio_disk_init _ _) as [[] v| | |]; [done|discriminate H..].
Qed.

Lemma demo_reachable : reachable demo_reg demo_device demo_mach.
Proof. apply (reach_init _ _ demo_boot); [reflexivity|reflexivity|exact demo_init]. Qed.

Lemma demo_call : vstep demo_reg demo_device demo_mach (LCall 0 0 false) demo_called.
Proof.
  refine (VCall demo_reg demo_device demo_mach 0 0 false eq_refl _ _ eq_refl _ _ _ _).
  - vm_compute. reflexivity.
  - vm_compute. reflexivity.
  - apply Nat.ltb_lt. vm_compute. reflexivity.
  - apply Nat.ltb_lt. vm_compute. reflexivity.
  - vm_compute. split; congruence.
  - intros q pc Hq. cbn in Hq. by rewrite lookup_empty in Hq.
Qed.


Lemma virtio_completes_witness : exists m, rtc (quiet demo_reg demo_device) demo_called m /\ m_pcs m !! 0%nat = None.
Proof.
  apply (virtio_completes demo_reg demo_device demo_conforms demo_serves demo_called 0 (WaitDisk 0 false 0)).
  - exact (reach_step _ _ _ _ _ demo_reachable demo_call).
  - vm_compute. reflexivity.
Defined.
