(* ===== verification/Uprintf.v ===== *)
(** The formatted output of user programs (user/printf.c).  Each character is
    written by a call of its own, so what the routines do is the list of the
    characters they write, in order. *)
From S2P Require Import Prelude.

(** The characters of "0123456789ABCDEF". *)
Definition udigit (x : Z) : Z := if x <? 10 then 48 + x else 55 + x.

(** do { buf[i++] = digits[x % base]; } while((x /= base) != 0); *)
Fixpoint udigits_rev (fuel : nat) (x base : Z) : list Z :=
  match fuel with
  | O => []
  | S fuel => udigit (x mod base) :: (if x / base =? 0 then [] else udigits_rev fuel (x / base) base)
  end.

(** An unsigned 32-bit number has at most 32 digits. *)
Definition printint (xx base : Z) (sgn : bool) : list Z :=
  let neg := sgn && (xx <? 0) in
  let x := if neg then u32 (- xx) else u32 xx in
  rev (udigits_rev 32 x base ++ (if neg then [45] else [])).

Fixpoint printptr_loop (n : nat) (x : Z) : list Z :=
  match n with
  | O => []
  | S n => udigit (Z.shiftr x (64 - 4)) :: printptr_loop n (u64 (Z.shiftl x 4))
  end.
Definition printptr (x : Z) : list Z := 48 :: 120 :: printptr_loop 16 x.

(** Arguments: numbers, and strings or null. *)
Inductive uarg : Type := UInt (x : Z) | UStr (s : option (list Z)).

Definition uarg_int (args : list uarg) : Z := match args with UInt x :: _ => x | _ => 0 end.
Definition uarg_str (args : list uarg) : list Z :=
  match args with
  | UStr (Some s) :: _ => s
  | _ => [40; 110; 117; 108; 108; 41]       (* "(null)" *)
  end.

(** The loop over the format; [state] is whether a percent sign came before.
    The long formats pass a uint64 for the int argument of [printint]. *)
Fixpoint vprintf_loop (state : bool) (fmt : list Z) (args : list uarg) : list Z :=
  match fmt with
  | [] => []
  | c0 :: fmt =>
      if negb state then
        if c0 =? 37 then vprintf_loop true fmt args else c0 :: vprintf_loop false fmt args
      else if c0 =? 100 then printint (i32 (uarg_int args)) 10 true ++ vprintf_loop false fmt (drop 1 args)
      else if c0 =? 117 then printint (i32 (uarg_int args)) 10 false ++ vprintf_loop false fmt (drop 1 args)
      else if c0 =? 120 then printint (i32 (uarg_int args)) 16 false ++ vprintf_loop false fmt (drop 1 args)
      else if c0 =? 112 then printptr (u64 (uarg_int args)) ++ vprintf_loop false fmt (drop 1 args)
      else if c0 =? 115 then uarg_str args ++ vprintf_loop false fmt (drop 1 args)
      else if c0 =? 37 then 37 :: vprintf_loop false fmt args
      else
        let unknown := 37 :: c0 :: vprintf_loop false fmt args in
        if c0 =? 108 then
          match fmt with
          | c1 :: fmt1 =>
              if c1 =? 100 then printint (i32 (uarg_int args)) 10 true ++ vprintf_loop false fmt1 (drop 1 args)
              else if c1 =? 117 then printint (i32 (uarg_int args)) 10 false ++ vprintf_loop false fmt1 (drop 1 args)
              else if c1 =? 120 then printint (i32 (uarg_int args)) 16 false ++ vprintf_loop false fmt1 (drop 1 args)
              else if c1 =? 108 then
                match fmt1 with
                | c2 :: fmt2 =>
                    if c2 =? 100 then printint (i32 (uarg_int args)) 10 true ++ vprintf_loop false fmt2 (drop 1 args)
                    else if c2 =? 117 then printint (i32 (uarg_int args)) 10 false ++ vprintf_loop false fmt2 (drop 1 args)
                    else if c2 =? 120 then printint (i32 (uarg_int args)) 16 false ++ vprintf_loop false fmt2 (drop 1 args)
                    else unknown
                | [] => unknown
                end
              else unknown
          | [] => unknown
          end
        else unknown
  end.

Definition vprintf (fmt : list Z) (args : list uarg) : list Z := vprintf_loop false fmt args.
(** [fprintf] writes to another descriptor. *)
Definition fprintf (fmt : list Z) (args : list uarg) : list Z := vprintf fmt args.
Definition printf (fmt : list Z) (args : list uarg) : list Z := vprintf fmt args.
