(* ===== verification/Usys.v ===== *)
(** What user programs see of the system: processes that run a program, with
    their open files, and pipes.  One step is one system call of one process;
    a process whose call has to wait cannot step.  The calls behave as the
    kernel's: a pipe holds at most PIPESIZE bytes, a read returns what is there
    and 0 bytes only when no process has the write end open, a write waits for
    room, [fork] copies the open files, [wait] takes a child that has exited,
    and [pipe] and [fork] fail when a table of the kernel is full. *)
From S2P Require Import Prelude State Pipe.

(** What an open file descriptor stands for. *)
Inductive fdobj : Type :=
| Console
| PipeRd (j : nat)
| PipeWr (j : nat).
#[export] Instance fdobj_eq_dec : EqDecision fdobj.
Proof. solve_decision. Defined.

(** A system call; [SUndef] is a program that has done something C leaves
    undefined. *)
Inductive call : Type :=
| SPipe
| SFork
| SClose (fd : Z)
| SRead (fd n : Z)
| SWrite (fd : Z) (bs : list Z)
| SWait
| SExit
| SUndef.

(** What it returns. *)
Inductive result : Type :=
| RPair (rd wr : Z)
| RInt (x : Z)
| RBytes (bs : list Z).

Inductive ustate : Type := Live | Zombie | Reaped.
#[export] Instance ustate_eq_dec : EqDecision ustate.
Proof. solve_decision. Defined.

(** An int in memory. *)
Definition int_bytes (n : Z) : list Z := load_list 4 (store32 ∅ 0 (u32 n)) 0.
Definition bytes_int (bs : list Z) : Z := i32 (load32 (store_list bs ∅ 0) 0).

Section System.
(** A program: the next call at a point of it, and the point after a result. *)
Context {pc : Type} (next : pc -> call) (resume : pc -> result -> pc).
(** The sizes of the kernel's tables of files, and of processes without those
    that run already. *)
Context (nfile nproc : nat).

(** [u_done] counts the bytes of the current write that are in the pipe. *)
Record uproc : Type := mk_uproc {
  u_pc : pc ;
  u_fds : gmap Z fdobj ;
  u_done : nat ;
  u_parent : option nat ;
  u_state : ustate
}.
Record sys : Type := mk_sys { y_procs : list uproc ; y_pipes : list (list Z) ; y_out : list Z }.

Definition has_fd (o : fdobj) (u : uproc) : bool := existsb (fun x => bool_decide (x.2 = o)) (map_to_list (u_fds u)).
Definition fd_open (o : fdobj) (s : sys) : bool := existsb (has_fd o) (y_procs s).

(** The files in use: one for the console, one for each open end of a pipe. *)
Definition files (s : sys) : nat :=
  S (length (filter (fun o => fd_open o s = true)
    (concat ((fun j => [PipeRd j; PipeWr j]) <$> seq 0 (length (y_pipes s)))))).

(** The slots of the process table that are in use. *)
Definition slots (s : sys) : nat := length (filter (fun u => u_state u <> Reaped) (y_procs s)).

(** The lowest descriptor from [fd] on that is not open. *)
Fixpoint free_fd (n : nat) (fd : Z) (m : gmap Z fdobj) : option Z :=
  match n with
  | O => None
  | S n => match m !! fd with None => Some fd | Some _ => free_fd n (fd + 1) m end
  end.

Definition set_proc (i : nat) (u : uproc) (s : sys) : sys := mk_sys (<[i := u]> (y_procs s)) (y_pipes s) (y_out s).
Definition set_pipe (j : nat) (q : list Z) (s : sys) : sys := mk_sys (y_procs s) (<[j := q]> (y_pipes s)) (y_out s).

Definition returns (u : uproc) (r : result) : uproc := mk_uproc (resume (u_pc u) r) (u_fds u) 0 (u_parent u) (u_state u).
Definition with_fds (m : gmap Z fdobj) (u : uproc) : uproc := mk_uproc (u_pc u) m (u_done u) (u_parent u) (u_state u).

(** The first child of [i] that has exited. *)
Definition find_zombie (i : nat) (s : sys) : option nat :=
  fst <$> list_find (fun u => u_parent u = Some i /\ u_state u = Zombie) (y_procs s).
Definition has_child (i : nat) (s : sys) : bool :=
  existsb (fun u => bool_decide (u_parent u = Some i) && negb (bool_decide (u_state u = Reaped))) (y_procs s).

Definition do_pipe (i : nat) (u : uproc) (s : sys) : sys :=
  let j := length (y_pipes s) in
  let fds := u_fds u in
  match free_fd (Z.to_nat NOFILE) 0 fds with
  | Some rd =>
      match free_fd (Z.to_nat NOFILE) 0 (<[rd := PipeRd j]> fds) with
      | Some wr =>
          if (files s + 2 <=? nfile)%nat then
            mk_sys (<[i := returns (with_fds (<[wr := PipeWr j]> (<[rd := PipeRd j]> fds)) u) (RPair rd wr)]> (y_procs s))
              (y_pipes s ++ [[]]) (y_out s)
          else set_proc i (returns u (RInt (-1))) s
      | None => set_proc i (returns u (RInt (-1))) s
      end
  | None => set_proc i (returns u (RInt (-1))) s
  end.

Definition do_fork (i : nat) (u : uproc) (s : sys) : sys :=
  if (slots s <? nproc)%nat then
    let child := mk_uproc (resume (u_pc u) (RInt 0)) (u_fds u) 0 (Some i) Live in
    mk_sys (<[i := returns u (RInt (Z.of_nat (length (y_procs s)) + 1))]> (y_procs s) ++ [child]) (y_pipes s) (y_out s)
  else set_proc i (returns u (RInt (-1))) s.

Definition do_read (i : nat) (u : uproc) (fd n : Z) (s : sys) : option sys :=
  match u_fds u !! fd with
  | Some (PipeRd j) =>
      let q := default [] (y_pipes s !! j) in
      match q with
      | [] => if fd_open (PipeWr j) s then None else Some (set_proc i (returns u (RBytes [])) s)
      | _ => Some (set_proc i (returns u (RBytes (take (Z.to_nat n) q))) (set_pipe j (drop (Z.to_nat n) q) s))
      end
  | Some Console => None
  | _ => Some (set_proc i (returns u (RInt (-1))) s)
  end.

Definition do_write (i : nat) (u : uproc) (fd : Z) (bs : list Z) (s : sys) : option sys :=
  match u_fds u !! fd with
  | Some (PipeWr j) =>
      if fd_open (PipeRd j) s then
        let q := default [] (y_pipes s !! j) in
        let rem := drop (u_done u) bs in
        let k := Nat.min (length rem) (Z.to_nat PIPESIZE - length q) in
        if (k =? length rem)%nat then Some (set_proc i (returns u (RInt (Z.of_nat (length bs)))) (set_pipe j (q ++ rem) s))
        else if (k =? 0)%nat then None
        else Some (set_proc i (mk_uproc (u_pc u) (u_fds u) (u_done u + k) (u_parent u) (u_state u)) (set_pipe j (q ++ take k rem) s))
      else Some (set_proc i (returns u (RInt (-1))) s)
  | Some Console => Some (set_proc i (returns u (RInt (Z.of_nat (length bs)))) (mk_sys (y_procs s) (y_pipes s) (y_out s ++ bs)))
  | _ => Some (set_proc i (returns u (RInt (-1))) s)
  end.

Definition do_wait (i : nat) (u : uproc) (s : sys) : option sys :=
  match find_zombie i s with
  | Some c =>
      Some (set_proc i (returns u (RInt (Z.of_nat c + 1)))
        (mk_sys (alter (fun x => mk_uproc (u_pc x) (u_fds x) (u_done x) (u_parent x) Reaped) c (y_procs s)) (y_pipes s) (y_out s)))
  | None => if has_child i s then None else Some (set_proc i (returns u (RInt (-1))) s)
  end.

(** The children of a process that exits go to another process. *)
Definition orphan (i : nat) (x : uproc) : uproc :=
  if bool_decide (u_parent x = Some i) then mk_uproc (u_pc x) (u_fds x) (u_done x) None (u_state x) else x.
Definition do_exit (i : nat) (u : uproc) (s : sys) : sys :=
  mk_sys (<[i := mk_uproc (resume (u_pc u) (RInt 0)) ∅ 0 (u_parent u) Zombie]> (orphan i <$> y_procs s)) (y_pipes s) (y_out s).

(** One call of process [i]; [None] if it does not run or has to wait. *)
Definition ustep (i : nat) (s : sys) : option sys :=
  match y_procs s !! i with
  | Some u =>
      if bool_decide (u_state u = Live) then
        match next (u_pc u) with
        | SPipe => Some (do_pipe i u s)
        | SFork => Some (do_fork i u s)
        | SClose fd => Some (set_proc i (returns (with_fds (delete fd (u_fds u)) u) (RInt (if u_fds u !! fd then 0 else -1))) s)
        | SRead fd n => do_read i u fd n s
        | SWrite fd bs => do_write i u fd bs s
        | SWait => do_wait i u s
        | SExit => Some (do_exit i u s)
        | SUndef => None
        end
      else None
  | None => None
  end.

Definition sstep (s s' : sys) : Prop := exists i, ustep i s = Some s'.

(** Run a schedule; a process that cannot run is passed over. *)
Definition run (sched : list nat) (s : sys) : sys := foldl (fun s i => default s (ustep i s)) s sched.
End System.
Arguments uproc : clear implicits.
Arguments sys : clear implicits.

(** ** Lemmas *)

Lemma length_int_bytes n : length (int_bytes n) = 4%nat.
Proof. done. Qed.

Lemma bytes_int_bytes n : - 2 ^ 31 <= n < 2 ^ 31 -> bytes_int (int_bytes n) = n.
Proof.
  intros Hn. unfold bytes_int, int_bytes, load32, store32. rewrite (le_load_ext 4 _ (le_store 4 ∅ 0 (u32 n)) 0).
  - rewrite le_load_store_same. change (256 ^ Z.of_nat 4) with (2 ^ 32). unfold u32, i32. rewrite Z.mod_mod by lia. div_lia.
  - intros i Hi. rewrite load8_store_list, length_load_list. rewrite (proj2 (Z.leb_le _ _)), (proj2 (Z.ltb_lt _ _)) by lia. cbn [andb].
    rewrite Z.sub_0_r, load_list_lookup by lia. cbn. f_equal. lia.
Qed.
