(* ===== verification/Primes.v ===== *)
(** The prime sieve (user/primes.c): a chain of processes, each of which prints
    the first number it receives and passes on those it does not divide. *)
From S2P Require Import Prelude State Pipe Uprintf Usys.

(** The points of the program between two system calls, with the variables that
    are still used.  main and its child: *)
Inductive pc : Type :=
| MPipe                                   (* pipe(p) *)
| MFork (rd wr : Z)                       (* fork() *)
| MClose (rd wr : Z)                      (* parent: close(p[RD]) *)
| MWrite (i wr : Z)                       (* the for loop, and close(p[WR]) after it *)
| MWait                                   (* wait(0) *)
| MExit                                   (* exit(0) *)
| CClose (rd wr : Z)                      (* child: close(p[WR]) *)
(* prime(fd): *)
| PRead (fd : Z)                          (* read(fd_rd, &n, 4) *)
| PEof (fd : Z)                           (* close(fd_rd), and exit(0) after it *)
| PPrint (fd n : Z) (txt : list Z)        (* printf: the characters left to write *)
| PPipe (fd n : Z)                        (* pipe(p) *)
| PFork (fd n rd wr : Z)                  (* fork() *)
| PChildW (fd rd wr : Z)                  (* child: close(p[WR]) *)
| PChildR (fd rd : Z)                     (* child: close(fd_rd), then prime(p[RD]) *)
| PCloseR (fd n rd wr : Z)                (* parent: close(p[RD]) *)
| PLoop (fd n wr : Z)                     (* read(fd_rd, &num, 4) *)
| PSend (fd n wr num : Z)                 (* write(p[WR], &num, 4) *)
| PEnd (fd wr : Z)                        (* close(fd_rd) *)
| PEnd2 (fd wr : Z)                       (* close(p[WR]) *)
| PWait (fd : Z)                          (* wait(0), and return *)
| PReturn (fd : Z)                        (* in the caller: close(p[RD]) *)
| PExit                                   (* exit(0) *)
| Dead                                    (* after exit *)
| Undef.                                  (* p is used although pipe(p) failed *)

Definition TOP : Z := 280.

Definition prime_text (n : Z) : list Z := printf (chars "prime %d") [UInt n] ++ [10].

Definition next (u : pc) : call :=
  match u with
  | MPipe | PPipe _ _ => SPipe
  | MFork _ _ | PFork _ _ _ _ => SFork
  | MClose rd _ | PCloseR _ _ rd _ => SClose rd
  | MWrite i wr => if i <=? TOP then SWrite wr (int_bytes i) else SClose wr
  | MWait | PWait _ => SWait
  | CClose _ wr | PChildW _ _ wr | PEnd2 _ wr => SClose wr
  | PRead fd | PLoop fd _ _ => SRead fd 4
  | PEof fd | PChildR fd _ | PEnd fd _ | PReturn fd => SClose fd
  | PPrint _ _ txt => SWrite 1 (take 1 txt)
  | PSend _ _ wr num => SWrite wr (int_bytes num)
  | MExit | PExit => SExit
  | Dead | Undef => SUndef
  end.

(** read(...) == 4 *)
Definition read_int (r : result) : option Z :=
  match r with RBytes bs => if (length bs =? 4)%nat then Some (bytes_int bs) else None | _ => None end.

Definition resume (u : pc) (r : result) : pc :=
  match u with
  | MPipe => match r with RPair rd wr => MFork rd wr | _ => Undef end
  | MFork rd wr => match r with RInt 0 => CClose rd wr | _ => MClose rd wr end
  | MClose _ wr => MWrite 2 wr
  | MWrite i wr => if i <=? TOP then MWrite (i + 1) wr else MWait
  | MWait => MExit
  | CClose rd _ => PRead rd
  | PRead fd => match read_int r with Some n => PPrint fd n (prime_text n) | None => PEof fd end
  | PEof _ | PReturn _ => PExit
  | PPrint fd n txt => match drop 1 txt with [] => PPipe fd n | txt => PPrint fd n txt end
  | PPipe fd n => match r with RPair rd wr => PFork fd n rd wr | _ => Undef end
  | PFork fd n rd wr => match r with RInt 0 => PChildW fd rd wr | _ => PCloseR fd n rd wr end
  | PChildW fd rd _ => PChildR fd rd
  | PChildR _ rd => PRead rd
  | PCloseR fd n _ wr => PLoop fd n wr
  | PLoop fd n wr =>
      match read_int r with
      | Some num => if negb (Z.rem num n =? 0) then PSend fd n wr num else PLoop fd n wr
      | None => PEnd fd wr
      end
  | PSend fd n wr _ => PLoop fd n wr
  | PEnd fd wr => PEnd2 fd wr
  | PEnd2 fd _ => PWait fd
  | PWait fd => PReturn fd
  | MExit | PExit | Dead => Dead
  | Undef => Undef
  end.

(** The program starts with the console as its three standard files. *)
Definition std_fds : gmap Z fdobj := list_to_map [(0, Console); (1, Console); (2, Console)].
Definition primes_start : sys pc := mk_sys [mk_uproc MPipe std_fds 0 None Live] [] [].

Definition pstep (nfile nproc : nat) : sys pc -> sys pc -> Prop := sstep next resume nfile nproc.

(** A schedule in which each number goes as far as it can before main writes
    the next one.  [ps] are the primes found so far, that of process 1 first; a
    new prime [n] is read and printed by the last process [k], which then makes
    a pipe and a child. *)
Fixpoint pass (ps : list Z) (k : nat) (n : Z) : list nat * bool :=
  match ps with
  | [] => ([k] ++ repeat k (length (prime_text n)) ++ [k; k; S k; S k; k], true)
  | p :: ps => if Z.rem n p =? 0 then ([k], false) else let '(l, b) := pass ps (S k) n in (k :: k :: l, b)
  end.
Fixpoint eager (fuel : nat) (ps : list Z) (n : Z) : list nat :=
  match fuel with
  | O => []
  | S fuel => let '(l, b) := pass ps 1 n in 0%nat :: l ++ eager fuel (if b then ps ++ [n] else ps) (n + 1)
  end.
Definition eager_schedule (count : nat) : list nat := [0; 0; 0; 1]%nat ++ eager count [] 2.
