(* ===== verification/PrimesSpec.v ===== *)
(** The sieve of user/primes.c prints the primes and ends, however its processes
    are scheduled, as long as the kernel's tables are large enough; with the
    kernel's own table of files a schedule makes it run out of files. *)
From Stdlib Require Import Znumtheory Sorted.
From S2P Require Import Prelude State Pipe Uprintf Usys Primes.

(** * The sieve on lists *)

Definition nd (n x : Z) : bool := negb (Z.rem x n =? 0).
Abbreviation strain n l := (filter (fun x => nd n x = true) l).

Fixpoint sieve_fuel (fuel : nat) (l : list Z) : list Z :=
  match fuel, l with
  | S fuel, n :: l => n :: sieve_fuel fuel (strain n l)
  | _, _ => []
  end.
Definition sieve (l : list Z) : list Z := sieve_fuel (length l) l.

Lemma sieve_fuel_enough f : forall g l, (length l <= f)%nat -> (length l <= g)%nat -> sieve_fuel f l = sieve_fuel g l.
Proof.
  induction f as [|f IH]; intros [|g] [|n l] Hf Hg; cbn in *; try done; [lia..|].
  f_equal. apply IH; (etrans; [apply length_filter|lia]).
Qed.
Lemma sieve_cons n l : sieve (n :: l) = n :: sieve (strain n l).
Proof. unfold sieve. cbn. f_equal. apply sieve_fuel_enough; [apply length_filter|done]. Qed.

(** ** The primes *)

Definition is_prime (n : Z) : bool := forallb (fun d => negb (n mod d =? 0)) (seqZ 2 (n - 2)).
Definition primes_upto (N : Z) : list Z := filter (fun n => is_prime n = true) (seqZ 2 (N - 1)).

Lemma is_prime_prime n : 2 <= n -> is_prime n = true <-> prime n.
Proof.
  intros Hn. unfold is_prime. rewrite forallb_forall, <- prime_alt. split.
  - intros H. split; [lia|]. intros d Hd Hdiv. specialize (H d). rewrite <- list_elem_of_In, elem_of_seqZ in H.
    specialize (H ltac:(lia)). apply negb_true_iff, Z.eqb_neq in H. apply H. by apply Z.mod_divide; [lia|].
  - intros [_ H] d Hd%list_elem_of_In%elem_of_seqZ. apply negb_true_iff, Z.eqb_neq. intros E. apply (H d); [lia|]. by apply Z.mod_divide; [lia|].
Qed.

Lemma elem_primes_upto N n : n ∈ primes_upto N <-> prime n /\ n <= N.
Proof.
  unfold primes_upto. rewrite list_elem_of_filter, elem_of_seqZ. split.
  - intros [Hp Hr]. split; [by apply is_prime_prime; [lia|]|lia].
  - intros [Hp Hr]. pose proof (prime_ge_2 n Hp). split; [by apply is_prime_prime|lia].
Qed.

(** What the program is to print. *)
Definition primes_text : list Z := concat (prime_text <$> primes_upto TOP).

Lemma sieve_primes : sieve (seqZ 2 (TOP - 1)) = primes_upto TOP.
Proof. vm_compute. reflexivity. Qed.

Lemma prime_text_nonempty n : prime_text n <> [].
Proof. unfold prime_text. generalize (printf (chars "prime %d") [UInt n]). intros l [_ E]%app_eq_nil. done. Qed.
#[local] Opaque prime_text.

(** * What a process still does

    Given the numbers [inp] it still receives: the numbers it still writes to
    its pipe, what it and the processes after it still print and how many pipes
    they still make, and how many system calls it and those processes still
    do. *)

Definition future (u : pc) (inp : list Z) : list Z :=
  match u with
  | MPipe | MFork _ _ | MClose _ _ => seqZ 2 (TOP - 1)
  | MWrite i _ => seqZ i (TOP + 1 - i)
  | PPrint _ n _ | PPipe _ n | PFork _ n _ _ | PCloseR _ n _ _ | PLoop _ n _ => strain n inp
  | PSend _ n _ num => num :: strain n inp
  | _ => []
  end.

(** The numbers that the processes after [u], or [u] itself if it has not read
    its number, will print. *)
Definition to_print (u : pc) (inp : list Z) : list Z :=
  match u with
  | MPipe | MFork _ _ => sieve (seqZ 2 (TOP - 1))
  | CClose _ _ | PRead _ | PChildW _ _ _ | PChildR _ _ => sieve inp
  | PPrint _ n _ | PPipe _ n | PFork _ n _ _ => sieve (strain n inp)
  | _ => []
  end.
Definition text_left (u : pc) (inp : list Z) : list Z :=
  match u with PPrint _ _ txt => txt | _ => [] end ++ concat (prime_text <$> to_print u inp).
Definition pipes_left (u : pc) (inp : list Z) : nat :=
  match u with MPipe | PPrint _ _ _ | PPipe _ _ => 1 | _ => 0 end + length (to_print u inp).

Definition loop_cost (n : Z) (inp : list Z) : nat := length inp + length (strain n inp) + 6.
Fixpoint new_cost_fuel (fuel : nat) (inp : list Z) : nat :=
  match fuel, inp with
  | S fuel, n :: inp => 1 + length (prime_text n) + 5 + new_cost_fuel fuel (strain n inp) + loop_cost n inp
  | _, _ => 3
  end.
Definition new_cost (inp : list Z) : nat := new_cost_fuel (length inp) inp.
Definition cost (u : pc) (inp : list Z) : nat :=
  let fork_cost n := (4 + new_cost (strain n inp) + loop_cost n inp)%nat in
  let main_cost i := (Z.to_nat (TOP + 1 - i) + 3)%nat in
  match u with
  | MPipe => 4 + new_cost (seqZ 2 (TOP - 1)) + main_cost 2%Z
  | MFork _ _ => 3 + new_cost (seqZ 2 (TOP - 1)) + main_cost 2%Z
  | MClose _ _ => 1 + main_cost 2%Z
  | MWrite i _ => main_cost i
  | MWait => 2
  | CClose _ _ | PChildR _ _ => 1 + new_cost inp
  | PChildW _ _ _ => 2 + new_cost inp
  | PRead _ => new_cost inp
  | PPrint _ n txt => length txt + 1 + fork_cost n
  | PPipe _ n => 1 + fork_cost n
  | PFork _ n _ _ => fork_cost n
  | PCloseR _ n _ _ => 1 + loop_cost n inp
  | PLoop _ n _ => loop_cost n inp
  | PSend _ n _ _ => 1 + loop_cost n inp
  | PEnd _ _ => 5
  | PEnd2 _ _ => 4
  | PWait _ => 3
  | PReturn _ | PEof _ => 2
  | MExit | PExit => 1
  | Dead | Undef => 0
  end%nat.

Lemma new_cost_fuel_enough f : forall g l, (length l <= f)%nat -> (length l <= g)%nat -> new_cost_fuel f l = new_cost_fuel g l.
Proof.
  induction f as [|f IH]; intros [|g] [|n l] Hf Hg; cbn [length new_cost_fuel] in *; try done; [lia..|].
  rewrite (IH g); [done|..]; (etrans; [apply length_filter|lia]).
Qed.
Lemma new_cost_cons n l : new_cost (n :: l) = (1 + length (prime_text n) + 5 + new_cost (strain n l) + loop_cost n l)%nat.
Proof. unfold new_cost. cbn [length new_cost_fuel]. rewrite (new_cost_fuel_enough _ (length (strain n l))); [done|apply length_filter|done]. Qed.

Lemma new_left fd n l :
  text_left (PPrint fd n (prime_text n)) l = text_left (PRead fd) (n :: l) /\ pipes_left (PPrint fd n (prime_text n)) l = pipes_left (PRead fd) (n :: l).
Proof.
  unfold text_left, pipes_left. cbn [to_print]. rewrite sieve_cons, fmap_cons. generalize (prime_text <$> sieve (strain n l)) (prime_text n). by intros l' t.
Qed.

(** * The chain of processes

    [pcs] are the points the processes are at, the first one is main; [qs] are
    the numbers in the pipes, the first one from main to its child.  [inp] is
    what process [k] still receives. *)
Fixpoint inp (pcs : list pc) (qs : list (list Z)) (k : nat) : list Z :=
  match k with
  | O => []
  | S k => default [] (qs !! k) ++ match pcs !! k with Some u => future u (inp pcs qs k) | None => [] end
  end.

Lemma inp_before pcs pcs' qs qs' k :
  (forall j, (j < k)%nat -> pcs' !! j = pcs !! j /\ qs' !! j = qs !! j) -> inp pcs' qs' k = inp pcs qs k.
Proof.
  induction k as [|k IH]; intros H; [done|]. cbn [inp]. destruct (H k ltac:(lia)) as [-> ->]. rewrite IH; [done|]. intros j Hj. apply H. lia.
Qed.

(** The processes after [k] do not notice a step of [k] that keeps the input of
    its successor. *)
Lemma inp_after pcs pcs' qs qs' k j :
  (forall j, (k < j)%nat -> pcs' !! j = pcs !! j /\ qs' !! j = qs !! j) -> inp pcs' qs' (S k) = inp pcs qs (S k) ->
  (k < j)%nat -> inp pcs' qs' j = inp pcs qs j.
Proof.
  intros H E. induction j as [|j IH]; intros Hj; [lia|]. destruct (decide (j = k)) as [->|]; [done|].
  cbn [inp]. destruct (H j ltac:(lia)) as [-> ->]. by rewrite IH by lia.
Qed.

Definition total (f : pc -> list Z -> nat) (pcs : list pc) (qs : list (list Z)) : nat :=
  sum_list (imap (fun k u => f u (inp pcs qs k)) pcs).

Lemma sum_list_insert (l : list nat) k x y : l !! k = Some x -> (sum_list (<[k := y]> l) + x = sum_list l + y)%nat.
Proof.
  revert k. induction l as [|z l IH]; intros [|k] H; try done.
  - injection H as ->. cbn. lia.
  - specialize (IH k H). change (<[S k := y]> (z :: l)) with (z :: <[k := y]> l). change (sum_list (z :: ?t)) with (z + sum_list t)%nat. lia.
Qed.

Lemma total_insert f pcs qs qs' k u u' :
  pcs !! k = Some u -> (forall j, (j < length pcs)%nat -> j <> k -> inp (<[k := u']> pcs) qs' j = inp pcs qs j) ->
  (total f (<[k := u']> pcs) qs' + f u (inp pcs qs k) = total f pcs qs + f u' (inp (<[k := u']> pcs) qs' k))%nat.
Proof.
  intros Hk Hj. unfold total.
  assert (E : imap (fun j v => f v (inp (<[k := u']> pcs) qs' j)) (<[k := u']> pcs) =
    <[k := f u' (inp (<[k := u']> pcs) qs' k)]> (imap (fun j v => f v (inp pcs qs j)) pcs)).
  { apply list_eq. intros j. rewrite list_lookup_imap. destruct (decide (j = k)) as [->|Hne].
    - pose proof (lookup_lt_Some _ _ _ Hk). rewrite !list_lookup_insert_eq by (rewrite ?length_imap; lia). done.
    - rewrite !list_lookup_insert_ne, list_lookup_imap by done. destruct (pcs !! j) as [v|] eqn:Ej; [|done].
      cbn. by rewrite Hj by (done || by eapply lookup_lt_Some). }
  rewrite E. apply sum_list_insert. rewrite list_lookup_imap, Hk. done.
Qed.

(** ** Well-formed chains *)

Definition ok (n : Z) : Prop := 2 <= n <= TOP.

(** The descriptor from which process [k] reads: 3 and 4 alternate. *)
Definition fdin (k : nat) : Z := if Nat.even k then 4 else 3.

Lemma fdin_cases k : fdin k = 3 /\ fdin (S k) = 4 /\ fdin (S (S k)) = 3 \/ fdin k = 4 /\ fdin (S k) = 3 /\ fdin (S (S k)) = 4.
Proof. unfold fdin. change (Nat.even (S (S k))) with (Nat.even k). rewrite Nat.even_succ, <- Nat.negb_even. destruct (Nat.even k); [by right|by left]. Qed.

Definition pc_wf (k : nat) (u : pc) : Prop :=
  match u with
  | MPipe | MWait | MExit => k = 0%nat
  | MFork rd wr | MClose rd wr => k = 0%nat /\ rd = 3 /\ wr = 4
  | MWrite i wr => k = 0%nat /\ wr = 4 /\ 2 <= i <= TOP + 1
  | CClose rd wr => k = 1%nat /\ rd = 3 /\ wr = 4
  | PRead fd | PEof fd | PWait fd | PReturn fd => (1 <= k)%nat /\ fd = fdin k
  | PPrint fd n txt => (1 <= k)%nat /\ fd = fdin k /\ ok n /\ txt <> []
  | PPipe fd n => (1 <= k)%nat /\ fd = fdin k /\ ok n
  | PFork fd n rd wr | PCloseR fd n rd wr => (1 <= k)%nat /\ fd = fdin k /\ rd = fdin (S k) /\ wr = 5 /\ ok n
  | PChildW fd rd wr => (2 <= k)%nat /\ fd = fdin (S k) /\ rd = fdin k /\ wr = 5
  | PChildR fd rd => (2 <= k)%nat /\ fd = fdin (S k) /\ rd = fdin k
  | PLoop fd n wr => (1 <= k)%nat /\ fd = fdin k /\ wr = 5 /\ ok n
  | PSend fd n wr num => (1 <= k)%nat /\ fd = fdin k /\ wr = 5 /\ ok n /\ ok num
  | PEnd fd wr | PEnd2 fd wr => (1 <= k)%nat /\ fd = fdin k /\ wr = 5
  | PExit => (1 <= k)%nat
  | Dead => True
  | Undef => False
  end.

(** Has the process a child (or did it never need one)?  Is it done with its
    input, with its output, with waiting? *)
Definition forked (u : pc) : bool :=
  match u with
  | MClose _ _ | MWrite _ _ | MWait | MExit | PCloseR _ _ _ _ | PLoop _ _ _ | PSend _ _ _ _ | PEnd _ _ | PEnd2 _ _ | PWait _ | PReturn _ | PExit | Dead => true
  | _ => false
  end.
Definition leaf (u : pc) : bool :=
  match u with
  | MPipe | MFork _ _ | CClose _ _ | PRead _ | PEof _ | PPrint _ _ _ | PPipe _ _ | PFork _ _ _ _ | PChildW _ _ _ | PChildR _ _ | PExit | Dead => true
  | _ => false
  end.
Definition closed_in (u : pc) : bool :=
  match u with PEof _ | PEnd _ _ | PEnd2 _ _ | PWait _ | PReturn _ | PExit | Dead => true | _ => false end.
Definition closed_out (u : pc) : bool :=
  match u with MWait | MExit | PWait _ | PReturn _ | PExit | Dead => true | _ => false end.
Definition past_wait (u : pc) : bool :=
  match u with MExit | PReturn _ | PExit | Dead => true | _ => false end.
Definition at_fork (u : pc) : bool :=
  match u with MFork _ _ | PFork _ _ _ _ => true | _ => false end.

(** Neighbours in the chain, with the pipe between them. *)
Record link (u : pc) (q : list Z) (v : pc) : Prop := {
  lk_eof : closed_in v = true -> closed_out u = true /\ q = [];
  lk_wait : past_wait u = true -> v = Dead
}.

Definition queue_ok (q : list Z) : Prop := Forall ok q /\ (length q <= 128)%nat.

Record chain (pcs : list pc) (qs : list (list Z)) : Prop := {
  cn_last : exists u, last pcs = Some u /\ length qs = (length pcs - 1 + if at_fork u then 1 else 0)%nat;
  cn_wf : forall k u, pcs !! k = Some u -> pc_wf k u;
  cn_forked : forall k u, pcs !! k = Some u -> if decide (S k = length pcs) then leaf u = true else forked u = true;
  cn_link : forall k u q v, pcs !! k = Some u -> qs !! k = Some q -> pcs !! S k = Some v -> link u q v;
  cn_queue : Forall queue_ok qs;
  cn_fork : forall u, last pcs = Some u -> at_fork u = true -> qs !! (length pcs - 1)%nat = Some []
}.

(** The number of pipes and of system calls of the whole program. *)
Definition pipes0 : nat := S (length (primes_upto TOP)).
Definition steps0 : nat := cost MPipe [].

(** After [n] steps: what was printed and what is still to be printed is the
    text, and likewise for the pipes and the steps. *)
Record good (n : nat) (pcs : list pc) (qs : list (list Z)) (out : list Z) : Prop := {
  gd_chain : chain pcs qs;
  gd_text : forall u, last pcs = Some u -> out ++ text_left u (inp pcs qs (length pcs - 1)) = primes_text;
  gd_pipes : forall u, last pcs = Some u -> (length qs + pipes_left u (inp pcs qs (length pcs - 1)) = pipes0)%nat;
  gd_cost : (n + total cost pcs qs = steps0)%nat
}.

Lemma last_insert {A} (l : list A) k x : (k < length l)%nat -> last (<[k := x]> l) = if decide (S k = length l) then Some x else last l.
Proof.
  intros Hk. rewrite !last_lookup, length_insert. case_decide as E.
  - rewrite <- E. cbn. by apply list_lookup_insert_eq.
  - rewrite list_lookup_insert_ne by lia. done.
Qed.

(** A step of process [k] other than fork. *)
Lemma good_update n pcs qs out k u u' qs' out' :
  good n pcs qs out -> pcs !! k = Some u ->
  let pcs' := <[k := u']> pcs in
  let i := inp pcs qs k in let i' := inp pcs' qs' k in
  pc_wf k u' -> cost u i = S (cost u' i') -> Forall queue_ok qs' ->
  (forall j, S j <> k -> j <> k -> (j < length qs)%nat -> qs' !! j = qs !! j) ->
  (forall j v q, S j = k -> pcs !! j = Some v -> qs' !! j = Some q -> link v q u') ->
  (if decide (S k = length pcs)
   then leaf u' = true /\ length qs' = (length pcs - 1 + if at_fork u' then 1 else 0)%nat /\ (at_fork u' = true -> qs' !! k = Some []) /\
     out' ++ text_left u' i' = out ++ text_left u i /\ (length qs' + pipes_left u' i' = length qs + pipes_left u i)%nat
   else forked u' = true /\ length qs' = length qs /\ out' = out /\ inp pcs' qs' (S k) = inp pcs qs (S k) /\
     forall v q, pcs !! S k = Some v -> qs' !! k = Some q -> link u' q v) ->
  good (S n) pcs' qs' out'.
Proof.
  intros [[(ul & Hl & Hlen) Hwf Hfk Hlk Hqk Hff] Ht Hp Hc] Hk pcs' i i' Hwf' Hcost Hq Hqs Hpre Hcase.
  pose proof (lookup_lt_Some _ _ _ Hk) as Hlt.
  assert (Hother : forall j, j <> k -> pcs' !! j = pcs !! j) by (intros j Hj; by apply list_lookup_insert_ne).
  assert (Hlenq : (length pcs - 1 <= length qs)%nat) by lia.
  assert (Hinp : forall j, (j < length pcs)%nat -> j <> k -> inp pcs' qs' j = inp pcs qs j).
  { intros j Hj Hne. destruct (decide (j < k)%nat) as [Hjk|Hjk].
    - apply inp_before. intros a Ha. split; [apply Hother; lia|apply Hqs; lia].
    - destruct (decide (S k = length pcs)); [lia|]. destruct Hcase as (_ & Hl' & _ & HS & _).
      apply (inp_after _ _ _ _ k); [|done|lia]. intros a Ha. split; [apply Hother; lia|].
      destruct (decide (a < length qs)%nat); [apply Hqs; lia|]. rewrite !lookup_ge_None_2 by lia. done. }
  assert (El : last pcs' = if decide (S k = length pcs) then Some u' else last pcs) by (by apply last_insert).
  assert (Elen : length pcs' = length pcs) by apply length_insert.
  assert (Hcost' : (S n + total cost pcs' qs' = steps0)%nat).
  { pose proof (total_insert cost pcs qs qs' k u u' Hk Hinp) as E. fold pcs' i i' in E. rewrite Hcost in E. lia. }
  assert (Hchain : forall v, last pcs' = Some v -> length qs' = (length pcs' - 1 + if at_fork v then 1 else 0)%nat -> chain pcs' qs').
  { intros v Hv Hlq. split; [by exists v|..|done|].
    - intros j w Hj. destruct (decide (j = k)) as [->|Hne]; [|rewrite Hother in Hj by done; by apply Hwf].
      unfold pcs' in Hj. rewrite list_lookup_insert_eq in Hj by done. by injection Hj as <-.
    - intros j w Hj. rewrite Elen. destruct (decide (j = k)) as [->|Hne]; [|rewrite Hother in Hj by done; by apply Hfk].
      unfold pcs' in Hj. rewrite list_lookup_insert_eq in Hj by done. injection Hj as <-. by case_decide; destruct Hcase.
    - intros j w q x Hj Hqj Hx. destruct (decide (j = k)) as [->|Hne].
      + unfold pcs' in Hj. rewrite list_lookup_insert_eq in Hj by done. injection Hj as <-. rewrite Hother in Hx by lia.
        destruct (decide (S k = length pcs)); [apply lookup_lt_Some in Hx; lia|]. by apply Hcase.
      + rewrite Hother in Hj by done. destruct (decide (S j = k)) as [<-|Hne'].
        * unfold pcs' in Hx. rewrite list_lookup_insert_eq in Hx by done. injection Hx as <-. by apply (Hpre j).
        * rewrite Hother in Hx by done. rewrite Hqs in Hqj; [by apply (Hlk j w q x)|done|done|]. apply lookup_lt_Some in Hx. lia.
    - intros w Hw Hat. rewrite El in Hw. rewrite Elen. destruct (decide (S k = length pcs)) as [Hlast|Hlast].
      + injection Hw as <-. replace (length pcs - 1)%nat with k by lia. by apply Hcase.
      + pose proof (Hff w Hw Hat) as Hx. pose proof (lookup_lt_Some _ _ _ Hx). rewrite Hqs by lia. done. }
  destruct (decide (S k = length pcs)) as [Hlast|Hlast].
  - destruct Hcase as (Hleaf & Hlq & _ & Htx & Hpi). assert (Ek : (length pcs' - 1 = k)%nat) by lia.
    assert (Eu : last pcs = Some u) by (rewrite last_lookup, <- Hlast; done).
    specialize (Ht u Eu). specialize (Hp u Eu). replace (length pcs - 1)%nat with k in * by lia.
    split; [apply (Hchain u' El); by rewrite Elen, Hlq; replace (length pcs - 1)%nat with k by lia| | |done];
      intros v Hv; rewrite El in Hv; injection Hv as <-; rewrite Ek; [exact (eq_trans Htx Ht)|exact (eq_trans Hpi Hp)].
  - destruct Hcase as (Hfo & Hlq & -> & HS & Hnext).
    assert (Ei : inp pcs' qs' (length pcs' - 1) = inp pcs qs (length pcs - 1)) by (rewrite Elen; apply Hinp; lia).
    split; [apply (Hchain ul); [by rewrite El|by rewrite Elen, Hlq]| | |done]; intros v Hv; rewrite El in Hv; rewrite Ei; [by apply Ht|rewrite Hlq; by apply Hp].
Qed.

Lemma link_pre n pcs qs out k u j v q :
  good n pcs qs out -> pcs !! k = Some u -> u <> Dead -> S j = k -> pcs !! j = Some v -> qs !! j = Some q ->
  past_wait v = false /\ (closed_in u = true -> closed_out v = true /\ q = []).
Proof.
  intros [Hch _ _ _] Hk Hd <- Hv Hq. destruct (cn_link _ _ Hch j v q u Hv Hq Hk) as [H1 H2].
  split; [|done]. destruct (past_wait v); [by destruct Hd; apply H2|done].
Qed.

(** A step that does not touch a pipe; it may print. *)
Lemma good_tau n pcs qs out k u u' out' :
  good n pcs qs out -> pcs !! k = Some u -> u <> Dead -> pc_wf k u' ->
  let i := inp pcs qs k in
  cost u i = S (cost u' i) ->
  (closed_in u' = true -> closed_in u = true \/ forall j v q, S j = k -> pcs !! j = Some v -> qs !! j = Some q -> closed_out v = true /\ q = []) ->
  (if decide (S k = length pcs)
   then leaf u' = true /\ at_fork u' = false /\ at_fork u = false /\ out' ++ text_left u' i = out ++ text_left u i /\ pipes_left u' i = pipes_left u i
   else forked u' = true /\ out' = out /\ future u' i = future u i /\ (closed_out u = true -> closed_out u' = true) /\
     (past_wait u' = true -> past_wait u = true \/ pcs !! S k = Some Dead)) ->
  good (S n) (<[k := u']> pcs) qs out'.
Proof.
  intros Hg Hk Hd Hwf i Hc Hcl Hcase. pose proof Hg as [[(ul & Hl & Hlen) Hwfs Hfk Hlk Hqk Hff] _ _ _].
  assert (Ei : inp (<[k := u']> pcs) qs k = i).
  { apply inp_before. intros j Hj. split; [apply list_lookup_insert_ne; lia|done]. }
  apply (good_update n pcs qs out k u); try done; rewrite ?Ei; try done.
  - intros j v q Hj Hv Hq. destruct (link_pre _ _ _ _ _ _ _ _ _ Hg Hk Hd Hj Hv Hq) as [Hp Hx]. split; [|by rewrite Hp].
    intros Hci. destruct (Hcl Hci) as [|Hy]; [by apply Hx|by eapply Hy].
  - case_decide as Hlast.
    + destruct Hcase as (H1 & H2 & H2' & H3 & H4). rewrite H4, H2. split; [done|]. split; [|done].
      rewrite last_lookup, <- Hlast in Hl. cbn in Hl. rewrite Hk in Hl. injection Hl as <-. by rewrite Hlen, H2'.
    + destruct Hcase as (H1 & H2 & H3 & H4 & H5). split; [done|]. split; [done|]. split; [done|]. split.
      * cbn [inp]. fold i. rewrite Ei, Hk, list_lookup_insert_eq by (by eapply lookup_lt_Some). by rewrite H3.
      * intros v q Hv Hq. destruct (Hlk k u q v Hk Hq Hv) as [L1 L2]. split.
        { intros Hci. destruct (L1 Hci) as [Ho ->]. split; [by apply H4|done]. }
        { intros Hpw. destruct (H5 Hpw) as [Hp|Hp]; [by apply L2|congruence]. }
Qed.

(** Process [S k] reads a number. *)
Lemma good_read n pcs qs out k u u' x q :
  good n pcs qs out -> pcs !! S k = Some u -> u <> Dead -> qs !! k = Some (x :: q) -> pc_wf (S k) u' -> closed_in u' = false ->
  let i := q ++ match pcs !! k with Some v => future v (inp pcs qs k) | None => [] end in
  cost u (x :: i) = S (cost u' i) ->
  (if decide (S (S k) = length pcs)
   then leaf u' = true /\ at_fork u' = false /\ at_fork u = false /\ text_left u' i = text_left u (x :: i) /\ pipes_left u' i = pipes_left u (x :: i)
   else forked u' = true /\ future u' i = future u (x :: i) /\ closed_out u = false /\ past_wait u' = false) ->
  good (S n) (<[S k := u']> pcs) (<[k := q]> qs) out.
Proof.
  intros Hg Hk Hd Hq Hwf Hcl i Hc Hcase. pose proof Hg as [[(ul & Hl & Hlen) Hwfs Hfk Hlk Hqk Hff] _ _ _].
  pose proof (lookup_lt_Some _ _ _ Hq) as Hlq.
  assert (Ei0 : inp pcs qs (S k) = x :: i) by (cbn [inp]; by rewrite Hq).
  assert (Ei : inp (<[S k := u']> pcs) (<[k := q]> qs) (S k) = i).
  { cbn [inp]. rewrite list_lookup_insert_eq by done. rewrite list_lookup_insert_ne by lia. cbn. unfold i. f_equal.
    destruct (pcs !! k); [|done]. f_equal. apply inp_before. intros j Hj. rewrite !list_lookup_insert_ne by lia. done. }
  apply (good_update n pcs qs out (S k) u); try done; rewrite ?Ei, ?Ei0; try done.
  - apply Forall_insert; [done|]. apply Forall_lookup_1 with (1 := Hqk) in Hq as [[_ Ho]%Forall_cons Hlx]. cbn in Hlx. split; [done|lia].
  - intros j Hj1 Hj2 Hj3. apply list_lookup_insert_ne. lia.
  - intros j v q' [= ->] Hv Hq'. destruct (link_pre _ _ _ _ _ _ _ _ _ Hg Hk Hd eq_refl Hv Hq) as [Hp _]. split; [by rewrite Hcl|by rewrite Hp].
  - case_decide as Hlast.
    + destruct Hcase as (H1 & H2 & H2' & H3 & H4). rewrite H3, H4, H2, length_insert. split; [done|]. split; [|done].
      rewrite last_lookup, <- Hlast in Hl. cbn in Hl. rewrite Hk in Hl. injection Hl as <-. by rewrite Hlen, H2'.
    + destruct Hcase as (H1 & H2 & H3 & H4). rewrite length_insert. split; [done|]. split; [done|]. split; [done|]. split.
      * remember (S k) as k1 eqn:Ek1. cbn [inp]. rewrite Ei, Ei0, Hk, list_lookup_insert_eq by (by eapply lookup_lt_Some).
        rewrite list_lookup_insert_ne by lia. by rewrite H2.
      * intros v q' Hv Hq'. rewrite list_lookup_insert_ne in Hq' by lia. destruct (Hlk (S k) u q' v Hk Hq' Hv) as [L1 _].
        split; [|by rewrite H4]. intros Hci. destruct (L1 Hci). congruence.
Qed.

(** Process [k] writes a number. *)
Lemma good_write n pcs qs out k u u' x q :
  good n pcs qs out -> pcs !! k = Some u -> u <> Dead -> qs !! k = Some q -> S k <> length pcs -> pc_wf k u' ->
  ok x -> (length q < 128)%nat -> closed_in u' = false -> closed_out u = false -> past_wait u' = false -> forked u' = true ->
  let i := inp pcs qs k in
  cost u i = S (cost u' i) -> future u i = x :: future u' i ->
  good (S n) (<[k := u']> pcs) (<[k := q ++ [x]]> qs) out.
Proof.
  intros Hg Hk Hd Hq Hnl Hwf Hx Hlen Hci Hco Hpw Hfo i Hc Hfu. pose proof Hg as [[_ Hwfs Hfk Hlk Hqk _] _ _ _].
  pose proof (lookup_lt_Some _ _ _ Hq) as Hlq.
  assert (Ei : inp (<[k := u']> pcs) (<[k := q ++ [x]]> qs) k = i).
  { apply inp_before. intros j Hj. rewrite !list_lookup_insert_ne by lia. done. }
  apply (good_update n pcs qs out k u); try done; rewrite ?Ei; try done.
  - apply Forall_insert; [done|]. apply Forall_lookup_1 with (1 := Hqk) in Hq as [Ho _]. split; [apply Forall_app; split; [done|by apply Forall_singleton]|].
    rewrite length_app. cbn. lia.
  - intros j Hj1 Hj2 Hj3. by apply list_lookup_insert_ne.
  - intros j v q' Hj Hv Hq'. rewrite list_lookup_insert_ne in Hq' by lia. destruct (link_pre _ _ _ _ _ _ _ _ _ Hg Hk Hd Hj Hv Hq') as [Hp _].
    split; [by rewrite Hci|by rewrite Hp].
  - rewrite decide_False by done. rewrite length_insert. split; [done|]. split; [done|]. split; [done|]. split.
    + cbn [inp]. fold i. rewrite Ei, Hk, Hq, !list_lookup_insert_eq by (done || by eapply lookup_lt_Some). cbn. rewrite Hfu, <- app_assoc. done.
    + intros v q' Hv _. destruct (Hlk k u q v Hk Hq Hv) as [L1 _]. split; [|by rewrite Hpw]. intros Hc'. destruct (L1 Hc'). congruence.
Qed.

(** The last process makes a pipe. *)
Lemma good_pipe n pcs qs out k u u' :
  good n pcs qs out -> pcs !! k = Some u -> u <> Dead -> S k = length pcs -> at_fork u = false -> pc_wf k u' ->
  leaf u' = true -> at_fork u' = true -> closed_in u' = false ->
  let i := inp pcs qs k in
  cost u i = S (cost u' i) -> text_left u' i = text_left u i -> pipes_left u i = S (pipes_left u' i) ->
  good (S n) (<[k := u']> pcs) (qs ++ [[]]) out.
Proof.
  intros Hg Hk Hd Hlast Haf Hwf Hle Haf' Hci i Hc Ht Hp. pose proof Hg as [[(ul & Hl & Hlen) Hwfs Hfk Hlk Hqk Hff] _ _ _].
  rewrite last_lookup, <- Hlast in Hl. cbn in Hl. rewrite Hk in Hl. injection Hl as <-. rewrite Haf in Hlen.
  assert (Ei : inp (<[k := u']> pcs) (qs ++ [[]]) k = i).
  { apply inp_before. intros j Hj. split; [apply list_lookup_insert_ne; lia|apply lookup_app_l; lia]. }
  apply (good_update n pcs qs out k u); try done; rewrite ?Ei; try done.
  - apply Forall_app. split; [done|]. apply Forall_singleton. split; [done|cbn; lia].
  - intros j _ _ Hj. by apply lookup_app_l.
  - intros j v q Hj Hv Hq. rewrite lookup_app_l in Hq by lia. destruct (link_pre _ _ _ _ _ _ _ _ _ Hg Hk Hd Hj Hv Hq) as [Hpw _].
    split; [by rewrite Hci|by rewrite Hpw].
  - rewrite decide_True by done. fold i. rewrite Haf', length_app, Ht, Hp. cbn. split; [done|]. split; [lia|]. split; [|split; [done|lia]].
    intros _. rewrite lookup_app_r by lia. replace (k - length qs)%nat with 0%nat by lia. done.
Qed.

(** The last process forks. *)
Section Fork.
Context (n : nat) (pcs : list pc) (qs : list (list Z)) (out : list Z) (k : nat) (u u' c : pc).
Hypothesis (Hg : good n pcs qs out) (Hk : pcs !! k = Some u) (Hlast : S k = length pcs) (Haf : at_fork u = true) (Hd : u <> Dead).
Hypothesis (Hwf : pc_wf k u') (Hwfc : pc_wf (S k) c) (Hfo : forked u' = true) (Hlc : leaf c = true) (Hafc : at_fork c = false).
Hypothesis (Hci : closed_in u' = false) (Hcic : closed_in c = false) (Hpw : past_wait u' = false).
Let pcs' : list pc := <[k := u']> pcs ++ [c].
Let i : list Z := inp pcs qs k.

Lemma fork_last : last pcs = Some u.
Proof. by rewrite last_lookup, <- Hlast. Qed.
Lemma fork_length : length pcs' = S (S k).
Proof. unfold pcs'. rewrite length_app, length_insert. cbn. lia. Qed.
Lemma fork_parent : pcs' !! k = Some u'.
Proof. unfold pcs'. rewrite lookup_app_l by (rewrite length_insert; lia). apply list_lookup_insert_eq. lia. Qed.
Lemma fork_child : pcs' !! S k = Some c.
Proof. unfold pcs'. rewrite lookup_app_r by (rewrite length_insert; lia). by rewrite length_insert, Hlast, Nat.sub_diag. Qed.
Lemma fork_old j v : pcs' !! j = Some v -> j = k /\ v = u' \/ j = S k /\ v = c \/ (j < k)%nat /\ pcs !! j = Some v.
Proof.
  intros Hj. pose proof (lookup_lt_Some _ _ _ Hj) as Hlt. rewrite fork_length in Hlt.
  destruct (decide (j = k)) as [->|Hne]; [left; rewrite fork_parent in Hj; by injection Hj as <-|].
  destruct (decide (j = S k)) as [->|Hne']; [right; left; rewrite fork_child in Hj; by injection Hj as <-|]. right. right. split; [lia|].
  unfold pcs' in Hj. rewrite lookup_app_l, list_lookup_insert_ne in Hj by (rewrite ?length_insert; lia). done.
Qed.

Lemma fork_inp_old j : (j <= k)%nat -> inp (<[k := u']> pcs) qs j = inp pcs qs j /\ inp pcs' qs j = inp pcs qs j.
Proof.
  intros Hj. split; apply inp_before; intros a Ha; (split; [|done]); unfold pcs';
    rewrite ?lookup_app_l by (rewrite length_insert; lia); apply list_lookup_insert_ne; lia.
Qed.

Lemma fork_inp_new : inp pcs' qs (S k) = future u' i.
Proof.
  cbn [inp]. rewrite fork_parent, (proj2 (fork_inp_old k (le_n _))). fold i.
  pose proof (cn_fork _ _ (gd_chain _ _ _ _ Hg) u fork_last Haf) as E. replace (length pcs - 1)%nat with k in E by lia. by rewrite E.
Qed.

Lemma fork_chain : chain pcs' qs.
Proof.
  destruct Hg as [[(ul & Hl & Hlen) Hwfs Hfk Hlk Hqk Hff] _ _ _]. rewrite fork_last in Hl. injection Hl as <-. rewrite Haf in Hlen.
  split; [exists c; rewrite Hafc, fork_length; split; [apply last_snoc|lia]|..|done|].
  - intros j v Hj. apply fork_old in Hj as [[-> ->]|[[-> ->]|[_ Hj]]]; [exact Hwf|exact Hwfc|by apply Hwfs].
  - rewrite fork_length. intros j v Hj. apply fork_old in Hj as [[-> ->]|[[-> ->]|[Hlt Hj]]]; [by rewrite decide_False by lia|by rewrite decide_True by lia|].
    specialize (Hfk j v Hj). rewrite decide_False in Hfk by lia. by rewrite decide_False by lia.
  - intros j v q w Hj Hq Hw. apply fork_old in Hj as [[-> ->]|[[-> ->]|[Hlt Hj]]].
    + rewrite fork_child in Hw. injection Hw as <-. split; [by rewrite Hcic|by rewrite Hpw].
    + apply lookup_lt_Some in Hw. rewrite fork_length in Hw. lia.
    + apply fork_old in Hw as [[Ej ->]|[[Ej ->]|[_ Hw]]]; [|lia|by apply (Hlk j v q w)].
      rewrite <- Ej in Hk. destruct (Hlk j v q u Hj Hq Hk) as [_ L2]. split; [by rewrite Hci|]. intros E. by destruct Hd; apply L2.
  - intros v Hv Hat. unfold pcs' in Hv. rewrite last_snoc in Hv. injection Hv as <-. congruence.
Qed.

Lemma fork_total : total cost pcs' qs = (total cost (<[k := u']> pcs) qs + cost c (future u' i))%nat.
Proof.
  unfold total. assert (E : imap (fun j v => cost v (inp pcs' qs j)) pcs' =
    imap (fun j v => cost v (inp (<[k := u']> pcs) qs j)) (<[k := u']> pcs) ++ [cost c (future u' i)]).
  { unfold pcs' at 2. rewrite imap_app. cbn. f_equal.
    - apply list_eq. intros j. rewrite !list_lookup_imap. destruct (<[k := u']> pcs !! j) as [v|] eqn:Ej; [|done]. cbn.
      apply lookup_lt_Some in Ej. rewrite length_insert in Ej. destruct (fork_inp_old j ltac:(lia)) as [-> ->]. done.
    - rewrite length_insert, <- Hlast. replace (S k + 0)%nat with (S k) by lia. by rewrite fork_inp_new. }
  rewrite E, sum_list_with_app. cbn. unfold id. lia.
Qed.

Lemma good_fork :
  cost u i = S (cost u' i + cost c (future u' i)) -> text_left u i = text_left c (future u' i) -> pipes_left u i = pipes_left c (future u' i) ->
  good (S n) pcs' qs out.
Proof.
  intros Hc Htx Hpi. pose proof Hg as [_ Ht Hp Hcost]. specialize (Ht u fork_last). specialize (Hp u fork_last).
  replace (length pcs - 1)%nat with k in * by lia. fold i in Ht, Hp. split; [apply fork_chain|..].
  - rewrite fork_length. replace (S (S k) - 1)%nat with (S k) by lia. intros v Hv. unfold pcs' in Hv. rewrite last_snoc in Hv. injection Hv as <-.
    by rewrite fork_inp_new, <- Htx.
  - rewrite fork_length. replace (S (S k) - 1)%nat with (S k) by lia. intros v Hv. unfold pcs' in Hv. rewrite last_snoc in Hv. injection Hv as <-.
    by rewrite fork_inp_new, <- Hpi.
  - pose proof (total_insert cost pcs qs qs k u u' Hk) as E. rewrite fork_total. fold i in E.
    rewrite (proj1 (fork_inp_old k (le_n _))) in E. fold i in E.
    assert (Hx : forall j, (j < length pcs)%nat -> j <> k -> inp (<[k := u']> pcs) qs j = inp pcs qs j) by (intros j Hj _; apply fork_inp_old; lia).
    specialize (E Hx). lia.
Qed.
End Fork.

(** * The processes of the system *)

(** The open files of process [k] at [u]. *)
Definition pipe_fds (k : nat) (u : pc) : gmap Z fdobj :=
  match u with
  | MFork _ _ | MClose _ _ | CClose _ _ => <[4 := PipeWr 0]> (<[3 := PipeRd 0]> std_fds)
  | MWrite _ _ => <[4 := PipeWr 0]> std_fds
  | PRead _ | PEof _ | PPrint _ _ _ | PPipe _ _ => <[fdin k := PipeRd (k - 1)]> std_fds
  | PFork _ _ _ _ | PCloseR _ _ _ _ => <[5 := PipeWr k]> (<[fdin (S k) := PipeRd k]> (<[fdin k := PipeRd (k - 1)]> std_fds))
  | PChildW _ _ _ => <[5 := PipeWr (k - 1)]> (<[fdin k := PipeRd (k - 1)]> (<[fdin (S k) := PipeRd (k - 2)]> std_fds))
  | PChildR _ _ => <[fdin k := PipeRd (k - 1)]> (<[fdin (S k) := PipeRd (k - 2)]> std_fds)
  | PLoop _ _ _ | PSend _ _ _ _ | PEnd _ _ => <[5 := PipeWr k]> (<[fdin k := PipeRd (k - 1)]> std_fds)
  | PEnd2 _ _ => <[5 := PipeWr k]> std_fds
  | Dead => ∅
  | _ => std_fds
  end.

Definition proc_state (pcs : list pc) (k : nat) (u : pc) : ustate :=
  match u with
  | Dead => match k with
            | O => Zombie
            | S j => if match pcs !! j with Some v => past_wait v | None => false end then Reaped else Zombie
            end
  | _ => Live
  end.

Definition parent_of (k : nat) : option nat := match k with O => None | S j => Some j end.

(** The contents of a pipe as bytes. *)
Definition queue_bytes (q : list Z) : list Z := concat (int_bytes <$> q).

Record proc_ok (pcs : list pc) (k : nat) (u : pc) (x : uproc pc) : Prop := {
  pk_pc : u_pc x = u;
  pk_fds : u_fds x = pipe_fds k u;
  pk_done : u_done x = 0%nat;
  pk_state : u_state x = proc_state pcs k u;
  pk_parent : u_state x <> Reaped -> u_parent x = parent_of k
}.

Record rep (s : sys pc) (pcs : list pc) (qs : list (list Z)) : Prop := {
  rp_len : length (y_procs s) = length pcs;
  rp_proc : forall k u x, pcs !! k = Some u -> y_procs s !! k = Some x -> proc_ok pcs k u x;
  rp_pipes : y_pipes s = queue_bytes <$> qs
}.

Lemma rep_get s pcs qs k u : rep s pcs qs -> pcs !! k = Some u -> exists x, y_procs s !! k = Some x /\ proc_ok pcs k u x.
Proof.
  intros [Hl Hp _] Hk. destruct (lookup_lt_is_Some_2 (y_procs s) k) as [x Hx]; [rewrite Hl; by eapply lookup_lt_Some|].
  exists x. split; [done|by apply Hp].
Qed.

Lemma std_fds_Some fd o : std_fds !! fd = Some o -> o = Console.
Proof.
  unfold std_fds. cbn. rewrite !lookup_insert_Some, lookup_empty. intros [[_ <-]|[_ [[_ <-]|[_ [[_ <-]|[_ H]]]]]]; done.
Qed.

Lemma has_fd_Some o (x : uproc pc) : has_fd o x = true <-> exists fd, u_fds x !! fd = Some o.
Proof.
  unfold has_fd. rewrite existsb_exists. split.
  - intros ([fd o'] & Hin & E). apply bool_decide_eq_true in E. cbn in E. subst o'. exists fd. by apply elem_of_map_to_list, list_elem_of_In.
  - intros [fd H]. exists (fd, o). split; [by apply list_elem_of_In, elem_of_map_to_list|by apply bool_decide_eq_true_2].
Qed.

(** Who has the write end of pipe [j]: its writer, and for a moment the new
    child. *)
Lemma write_end k u j fd :
  pc_wf k u -> pipe_fds k u !! fd = Some (PipeWr j) ->
  k = j /\ closed_out u = false \/ k = S j /\ match u with CClose _ _ | PChildW _ _ _ => True | _ => False end.
Proof.
  intros Hwf H. destruct u; cbn in Hwf, H; try (apply std_fds_Some in H; done);
    repeat (apply lookup_insert_Some in H as [[_ E]|[_ H]]; [try discriminate E; injection E as E|]);
    try (apply std_fds_Some in H; done); try (by rewrite lookup_empty in H); try (left; split; [lia|done]); try (right; split; [lia|done]).
Qed.

Lemma writer_open k u : pc_wf k u -> forked u = true -> closed_out u = false -> exists fd, pipe_fds k u !! fd = Some (PipeWr k).
Proof.
  intros Hwf Hf Hc. destruct u; cbn in Hwf, Hf, Hc; try discriminate; cbn;
    first [exists 4; replace k with 0%nat by lia; apply lookup_insert_eq|exists 5; apply lookup_insert_eq].
Qed.

Lemma reader_open k u : pc_wf (S k) u -> closed_in u = false -> exists fd, pipe_fds (S k) u !! fd = Some (PipeRd k).
Proof.
  intros Hwf Hc. destruct u; cbn in Hwf, Hc; try discriminate; try lia; try done; cbn [pipe_fds];
    rewrite ?Nat.sub_succ, ?Nat.sub_0_r.
  all: try (exists 3; replace k with 0%nat by lia; reflexivity).
  all: exists (fdin (S k)); destruct (fdin_cases k) as [(E0 & E1 & E2)|(E0 & E1 & E2)]; rewrite ?E0, ?E1, ?E2; reflexivity.
Qed.

#[local] Instance dead_dec u : Decision (u = Dead).
Proof. destruct u; first [by left|by right]. Defined.

Lemma proc_state_live pcs k u : u <> Dead -> proc_state pcs k u = Live.
Proof. by destruct u. Qed.

Lemma proc_state_dead pcs k : proc_state pcs k Dead <> Live.
Proof. destruct k as [|k]; [done|]. cbn. destruct (pcs !! k) as [v|]; [by destruct (past_wait v)|done]. Qed.

Lemma proc_state_insert pcs k u u' j v :
  pcs !! k = Some u -> past_wait u' = past_wait u \/ j <> S k \/ v <> Dead -> proc_state (<[k := u']> pcs) j v = proc_state pcs j v.
Proof.
  intros Hk H. destruct v; try done. destruct j as [|j]; [done|]. cbn. destruct (decide (j = k)) as [->|Hne].
  - rewrite Hk, list_lookup_insert_eq by (by eapply lookup_lt_Some). destruct H as [->|[H|H]]; done.
  - by rewrite list_lookup_insert_ne.
Qed.

(** A step that changes the point of one process, its open files, and pipes. *)
Lemma rep_update s pcs qs k u u' x qs' out' :
  rep s pcs qs -> pcs !! k = Some u -> y_procs s !! k = Some x -> u <> Dead -> u' <> Dead ->
  past_wait u' = past_wait u \/ pcs !! S k <> Some Dead ->
  rep (mk_sys (<[k := mk_uproc u' (pipe_fds k u') 0 (u_parent x) (u_state x)]> (y_procs s)) (queue_bytes <$> qs') out') (<[k := u']> pcs) qs'.
Proof.
  intros [Hl Hp Hq] Hk Hx Hd Hd' Hpw. destruct (Hp k u x Hk Hx) as [P1 P2 P3 P4 P5]. rewrite proc_state_live in P4 by done.
  split; cbn [y_procs y_pipes]; [by rewrite !length_insert| |done]. intros j v y Hj Hy. destruct (decide (j = k)) as [->|Hne].
  - rewrite list_lookup_insert_eq in Hj by (by eapply lookup_lt_Some). injection Hj as <-.
    rewrite list_lookup_insert_eq in Hy by (by eapply lookup_lt_Some). injection Hy as <-.
    split; cbn; try done. rewrite P4. by rewrite proc_state_live.
  - rewrite list_lookup_insert_ne in Hj by done. rewrite list_lookup_insert_ne in Hy by done. destruct (Hp j v y Hj Hy) as [Q1 Q2 Q3 Q4 Q5]. split; try done.
    rewrite Q4. symmetry. apply (proc_state_insert pcs k u); [done|]. destruct Hpw as [|Hpw]; [by left|]. right.
    destruct (decide (j = S k)) as [->|]; [|by left]. right. congruence.
Qed.

Lemma length_queue_bytes q : length (queue_bytes q) = (4 * length q)%nat.
Proof. unfold queue_bytes. induction q as [|x q IH]; [done|]. cbn [fmap list_fmap concat]. rewrite length_app, IH, length_int_bytes. cbn. lia. Qed.

Lemma queue_bytes_snoc q x : queue_bytes (q ++ [x]) = queue_bytes q ++ int_bytes x.
Proof. unfold queue_bytes. rewrite fmap_app, concat_app. cbn [fmap list_fmap concat]. by rewrite app_nil_r. Qed.

Lemma rep_pipe s pcs qs j q : rep s pcs qs -> qs !! j = Some q -> y_pipes s !! j = Some (queue_bytes q).
Proof. intros [_ _ Hq] Hj. by rewrite Hq, list_lookup_fmap, Hj. Qed.

Section Steps.
Context (nfile nproc : nat).
Hypothesis (Hnfile : (2 * pipes0 + 1 <= nfile)%nat) (Hnproc : (pipes0 < nproc)%nat).
Abbreviation ustep := (ustep next resume nfile nproc).

Record at_pc (n : nat) (s : sys pc) (pcs : list pc) (qs : list (list Z)) (k : nat) (u : pc) (x : uproc pc) : Prop := {
  ap_rep : rep s pcs qs;
  ap_good : good n pcs qs (y_out s);
  ap_pc : pcs !! k = Some u;
  ap_proc : y_procs s !! k = Some x;
  ap_live : u <> Dead
}.

Lemma ap_wf n s pcs qs k u x : at_pc n s pcs qs k u x -> pc_wf k u.
Proof. intros [_ Hg Hk _ _]. by apply (cn_wf _ _ (gd_chain _ _ _ _ Hg)). Qed.
Lemma ap_ok n s pcs qs k u x : at_pc n s pcs qs k u x -> proc_ok pcs k u x.
Proof. intros [Hr _ Hk Hx _]. by apply (rp_proc _ _ _ Hr). Qed.
Lemma ap_state n s pcs qs k u x : at_pc n s pcs qs k u x -> u_state x = Live.
Proof. intros H. rewrite (pk_state _ _ _ _ (ap_ok _ _ _ _ _ _ _ H)). apply proc_state_live, H. Qed.

Lemma ustep_at n s pcs qs k u x :
  at_pc n s pcs qs k u x ->
  ustep k s = match next u with
    | SPipe => Some (do_pipe resume nfile k x s)
    | SFork => Some (do_fork resume nproc k x s)
    | SClose fd => Some (set_proc k (returns resume (with_fds (delete fd (pipe_fds k u)) x) (RInt (if pipe_fds k u !! fd then 0 else -1))) s)
    | SRead fd m => do_read resume k x fd m s
    | SWrite fd bs => do_write resume k x fd bs s
    | SWait => do_wait resume k x s
    | SExit => Some (do_exit resume k x s)
    | SUndef => None
    end.
Proof.
  intros H. pose proof (ap_ok _ _ _ _ _ _ _ H) as [P1 P2 _ _ _]. unfold Usys.ustep. rewrite (ap_proc _ _ _ _ _ _ _ H).
  rewrite bool_decide_eq_true_2 by (by eapply ap_state). by rewrite P1, P2.
Qed.

(** A good state after one more step. *)
Definition goes_on (n : nat) (s' : sys pc) : Prop := exists pcs' qs', rep s' pcs' qs' /\ good (S n) pcs' qs' (y_out s').

Lemma step_tau n s pcs qs k u x u' out' :
  at_pc n s pcs qs k u x -> u' <> Dead -> S k = length pcs \/ past_wait u' = past_wait u -> pc_wf k u' ->
  let i := inp pcs qs k in
  cost u i = S (cost u' i) ->
  (closed_in u' = true -> closed_in u = true \/ forall j v q, S j = k -> pcs !! j = Some v -> qs !! j = Some q -> closed_out v = true /\ q = []) ->
  (if decide (S k = length pcs)
   then leaf u' = true /\ at_fork u' = false /\ at_fork u = false /\ out' ++ text_left u' i = y_out s ++ text_left u i /\ pipes_left u' i = pipes_left u i
   else forked u' = true /\ out' = y_out s /\ future u' i = future u i /\ (closed_out u = true -> closed_out u' = true)) ->
  goes_on n (mk_sys (<[k := mk_uproc u' (pipe_fds k u') 0 (u_parent x) (u_state x)]> (y_procs s)) (y_pipes s) out').
Proof.
  intros [Hr Hg Hk Hx Hd] Hd' Hpw Hwf i Hc Hcl Hcase. exists (<[k := u']> pcs), qs. split.
  - rewrite (rp_pipes _ _ _ Hr). apply (rep_update s pcs qs k u u' x); try done. destruct Hpw as [Hpw|Hpw]; [right|by left]. by rewrite lookup_ge_None_2 by lia.
  - cbn [y_out]. apply (good_tau n pcs qs (y_out s) k u); try done. fold i. case_decide; [done|].
    destruct Hcase as (H1 & H2 & H3 & H4), Hpw as [|Hpw]; [done|]. rewrite Hpw. split_and!; try done. by left.
Qed.

(** close *)
Lemma close_fds k u fd : pc_wf k u -> next u = SClose fd -> delete fd (pipe_fds k u) = pipe_fds k (resume u (RInt 0)).
Proof.
  intros Hwf Hn. destruct u; cbn in Hn; try discriminate; try (destruct (Z.leb_spec i TOP); try discriminate); injection Hn as <-; cbn in Hwf; cbn [resume].
  2: rewrite (proj2 (Z.leb_gt _ _)) by done.
  all: destruct_and?; subst; try reflexivity; cbn [pipe_fds]; destruct (fdin_cases k) as [(E0 & E1 & E2)|(E0 & E1 & E2)]; rewrite ?E0, ?E1; reflexivity.
Qed.

Lemma close_step n s pcs qs k u x fd :
  at_pc n s pcs qs k u x -> next u = SClose fd ->
  goes_on n (set_proc k (returns resume (with_fds (delete fd (pipe_fds k u)) x) (RInt (if pipe_fds k u !! fd then 0 else -1))) s).
Proof.
  intros H Hn. pose proof (ap_wf _ _ _ _ _ _ _ H) as Hwf. pose proof (ap_ok _ _ _ _ _ _ _ H) as [P1 P2 P3 P4 P5].
  rewrite (close_fds k u fd Hwf Hn). unfold set_proc, returns, with_fds. cbn [u_pc u_fds u_parent u_state]. rewrite P1.
  assert (Er : forall r, resume u (RInt r) = resume u (RInt 0)) by (intros r; destruct u; cbn in Hn; try discriminate; done). rewrite Er.
  pose proof (cn_forked _ _ (gd_chain _ _ _ _ (ap_good _ _ _ _ _ _ _ H)) k u (ap_pc _ _ _ _ _ _ _ H)) as Hf.
  apply (step_tau n s pcs qs k u x); try done;
    destruct u; cbn in Hn; try discriminate; try (destruct (Z.leb_spec i TOP); try discriminate); cbn in Hwf; cbn [resume];
    rewrite ?(proj2 (Z.leb_gt _ _)) by done; try done.
  all: try (case_decide; [try discriminate Hf|try discriminate Hf]).
  all: try (by right); try (by left); try (cbn; destruct_and?; subst; unfold TOP in *; split_and?; first [done|lia]).
  split; [done|]. split; [done|]. split; [|done]. cbn. by rewrite seqZ_nil by (unfold TOP in *; lia).
Qed.

(** read *)
Lemma closed_out_future u i : closed_out u = true -> future u i = [].
Proof. by destruct u. Qed.

Lemma take_int x q : take 4 (queue_bytes (x :: q)) = int_bytes x.
Proof. done. Qed.
Lemma drop_int x q : drop 4 (queue_bytes (x :: q)) = queue_bytes q.
Proof. done. Qed.

(** The pipe a process reads from, and whether its end is reached. *)
Lemma read_fds k u fd : pc_wf k u -> next u = SRead fd 4 -> exists j, k = S j /\ pipe_fds k u !! fd = Some (PipeRd j).
Proof.
  intros Hwf Hn. destruct u; cbn in Hn; try discriminate; try (destruct (_ <=? _); discriminate); injection Hn as <-; cbn in Hwf; destruct_and!; subst;
    (destruct k as [|j]; [lia|]); exists j; (split; [done|]); cbn [pipe_fds]; rewrite Nat.sub_succ, Nat.sub_0_r;
    destruct (fdin_cases j) as [(E0 & E1 & E2)|(E0 & E1 & E2)]; rewrite E1; reflexivity.
Qed.

Lemma pred_queue n s pcs qs j u x : at_pc n s pcs qs (S j) u x -> exists v q, pcs !! j = Some v /\ qs !! j = Some q /\ forked v = true.
Proof.
  intros [Hr Hg Hk Hx Hd]. destruct (gd_chain _ _ _ _ Hg) as [(ul & Hl & Hlen) _ Hf _ _ _]. pose proof (lookup_lt_Some _ _ _ Hk) as Hlt.
  destruct (lookup_lt_is_Some_2 pcs j ltac:(lia)) as [v Hv], (lookup_lt_is_Some_2 qs j ltac:(lia)) as [q Hq]. exists v, q.
  split; [done|]. split; [done|]. specialize (Hf j v Hv). by rewrite decide_False in Hf by lia.
Qed.

Lemma rep_open s pcs qs k u fd o : rep s pcs qs -> pcs !! k = Some u -> pipe_fds k u !! fd = Some o -> fd_open o s = true.
Proof.
  intros Hr Hk Hfd. destruct (rep_get s pcs qs k u Hr Hk) as (y & Hy & [_ P2 _ _ _]). unfold fd_open. apply existsb_exists. exists y.
  split; [apply list_elem_of_In; by eapply list_elem_of_lookup_2|]. apply has_fd_Some. exists fd. by rewrite P2.
Qed.

Lemma eof_closed n s pcs qs j u x v :
  at_pc n s pcs qs (S j) u x -> pcs !! j = Some v -> forked v = true -> fd_open (PipeWr j) s = false -> closed_out v = true.
Proof.
  intros [Hr Hg Hk Hx Hd] Hv Hf Ho. destruct (closed_out v) eqn:Hc; [done|exfalso].
  destruct (writer_open j v (cn_wf _ _ (gd_chain _ _ _ _ Hg) j v Hv) Hf Hc) as [fd Hfd]. by rewrite (rep_open s pcs qs j v fd _ Hr Hv Hfd) in Ho.
Qed.

(** The point after a number or the end was read. *)
Definition after_read (u : pc) (r : option Z) : pc := resume u (match r with Some n => RBytes (int_bytes n) | None => RBytes [] end).

Lemma after_read_int u n : ok n -> next u = SRead (match u with PRead fd | PLoop fd _ _ => fd | _ => 0 end) 4 ->
  after_read u (Some n) = match u with
    | PRead fd => PPrint fd n (prime_text n)
    | PLoop fd m wr => if nd m n then PSend fd m wr n else PLoop fd m wr
    | _ => u
    end.
Proof.
  intros Hn Hu. unfold ok, TOP in Hn. assert (E : read_int (RBytes (int_bytes n)) = Some n) by (cbn [read_int]; by rewrite length_int_bytes, bytes_int_bytes by lia).
  unfold after_read. destruct u; cbn in Hu; try discriminate; try (destruct (_ <=? _); discriminate); cbn [resume]; by rewrite E.
Qed.

#[local] Ltac call_cases u Hn :=
  destruct u; cbn in Hn; try discriminate; try (destruct (_ <=? _); discriminate).

Lemma read_eof n s pcs qs j u x fd :
  at_pc n s pcs qs (S j) u x -> next u = SRead fd 4 -> qs !! j = Some [] -> fd_open (PipeWr j) s = false ->
  goes_on n (set_proc (S j) (returns resume x (RBytes [])) s).
Proof.
  intros H Hn Hq Ho. pose proof (ap_wf _ _ _ _ _ _ _ H) as Hwf. pose proof (ap_ok _ _ _ _ _ _ _ H) as [P1 P2 P3 P4 P5].
  destruct (pred_queue _ _ _ _ _ _ _ H) as (v & q & Hv & _ & Hfv).
  pose proof (cn_forked _ _ (gd_chain _ _ _ _ (ap_good _ _ _ _ _ _ _ H)) (S j) u (ap_pc _ _ _ _ _ _ _ H)) as Hf.
  pose proof (eof_closed _ _ _ _ _ _ _ _ H Hv Hfv Ho) as Hcv. unfold set_proc, returns. rewrite P1, P2.
  assert (Ei : inp pcs qs (S j) = []) by (cbn [inp]; rewrite Hq, Hv, closed_out_future by done; done).
  assert (E : pipe_fds (S j) u = pipe_fds (S j) (resume u (RBytes []))) by (by call_cases u Hn).
  rewrite E. apply (step_tau n s pcs qs (S j) u x); try done; rewrite ?Ei; call_cases u Hn; cbn [resume read_int length Nat.eqb]; try done.
  all: try (case_decide; [try discriminate Hf|try discriminate Hf]).
  all: try (by right); try (by left); try (cbn in Hwf; cbn; destruct_and?; split_and?; first [done|lia]).
  all: right; intros j' v' q' [= ->] Hv' Hq'; split; congruence.
Qed.

Lemma read_num n s pcs qs j u x fd y q :
  at_pc n s pcs qs (S j) u x -> next u = SRead fd 4 -> qs !! j = Some (y :: q) ->
  goes_on n (set_proc (S j) (returns resume x (RBytes (int_bytes y))) (set_pipe j (queue_bytes q) s)).
Proof.
  intros H Hn Hq. pose proof (ap_wf _ _ _ _ _ _ _ H) as Hwf. pose proof (ap_ok _ _ _ _ _ _ _ H) as [P1 P2 P3 P4 P5].
  pose proof H as [Hr Hg Hk Hx Hd]. pose proof (cn_forked _ _ (gd_chain _ _ _ _ Hg) (S j) u Hk) as Hf.
  assert (Hy : ok y) by (pose proof (cn_queue _ _ (gd_chain _ _ _ _ Hg)) as Hqk; apply Forall_lookup_1 with (1 := Hqk) in Hq as [[Ho _]%Forall_cons _]; done).
  assert (Hu : next u = SRead (match u with PRead fd | PLoop fd _ _ => fd | _ => 0 end) 4) by (by call_cases u Hn).
  pose proof (after_read_int u y Hy Hu) as Eu. unfold after_read in Eu. set (u' := resume u (RBytes (int_bytes y))) in *.
  exists (<[S j := u']> pcs), (<[j := q]> qs). split.
  - assert (E : pipe_fds (S j) u = pipe_fds (S j) u') by (rewrite Eu; call_cases u Hn; [done|by destruct (nd _ _)]).
    unfold set_proc, set_pipe, returns. cbn [y_procs y_pipes y_out]. rewrite P1, P2, (rp_pipes _ _ _ Hr), E, <- list_fmap_insert.
    apply (rep_update s pcs qs (S j) u u' x); try done; rewrite Eu; call_cases u Hn; try done; try (by destruct (nd _ _)); left; try done; by destruct (nd _ _).
  - cbn [y_out set_proc set_pipe]. apply (good_read n pcs qs (y_out s) j u u' y); try done; rewrite Eu; call_cases u Hn; try (by destruct (nd _ _)); try done.
    all: try (case_decide; [try discriminate Hf|try discriminate Hf]).
    all: try (cbn in Hwf; destruct_and!; subst; try destruct (nd _ _); cbn; split_and!; first [done|lia|apply prime_text_nonempty]).
    all: set (i := q ++ _) in *.
    + cbn [cost]. rewrite new_cost_cons. lia.
    + cbn [cost]. unfold loop_cost. destruct (nd n0 y) eqn:E; [rewrite filter_cons_True by done|rewrite filter_cons_False by (by rewrite E)]; cbn [length cost]; unfold loop_cost; lia.
    + split; [done|]. split; [done|]. split; [done|]. apply new_left.
    + cbn [future]. destruct (nd n0 y) eqn:E; [rewrite filter_cons_True by done|rewrite filter_cons_False by (by rewrite E)]; done.
Qed.

Lemma read_step n s pcs qs k u x fd s' :
  at_pc n s pcs qs k u x -> next u = SRead fd 4 -> do_read resume k x fd 4 s = Some s' -> goes_on n s'.
Proof.
  intros H Hn Hs. pose proof (ap_ok _ _ _ _ _ _ _ H) as [P1 P2 P3 P4 P5].
  destruct (read_fds k u fd (ap_wf _ _ _ _ _ _ _ H) Hn) as (j & -> & Hfd). destruct (pred_queue _ _ _ _ _ _ _ H) as (v & q & _ & Hq & _).
  unfold do_read in Hs. rewrite P2, Hfd, (rep_pipe _ _ _ _ _ (ap_rep _ _ _ _ _ _ _ H) Hq) in Hs. cbn [default id] in Hs. destruct q as [|y q].
  - cbn [queue_bytes] in Hs. destruct (fd_open (PipeWr j) s) eqn:Ho; [done|]. injection Hs as <-. by apply (read_eof n s pcs qs j u x fd).
  - change (Z.to_nat 4) with 4%nat in Hs. destruct (queue_bytes (y :: q)) as [|b bs] eqn:Eb; [done|]. rewrite <- Eb, take_int, drop_int in Hs. injection Hs as <-. by apply (read_num n s pcs qs j u x fd y q).
Qed.

(** write *)
Lemma write_fds k u fd bs :
  pc_wf k u -> next u = SWrite fd bs ->
  match u with
  | MWrite i _ => bs = int_bytes i /\ 2 <= i <= TOP /\ pipe_fds k u !! fd = Some (PipeWr k)
  | PSend _ _ _ num => bs = int_bytes num /\ pipe_fds k u !! fd = Some (PipeWr k)
  | PPrint _ _ txt => bs = take 1 txt /\ pipe_fds k u !! fd = Some Console
  | _ => False
  end.
Proof.
  intros Hwf Hn. destruct u; cbn in Hn; try discriminate; try (destruct (Z.leb_spec i TOP); try discriminate); injection Hn as <- <-; cbn in Hwf; destruct_and!; subst.
  - split; [done|]. split; [lia|]. reflexivity.
  - split; [done|]. cbn [pipe_fds]. destruct (fdin_cases k) as [(E0 & E1 & E2)|(E0 & E1 & E2)]; rewrite E0; reflexivity.
  - split; [done|]. cbn [pipe_fds]. destruct (fdin_cases k) as [(E0 & E1 & E2)|(E0 & E1 & E2)]; rewrite E0; reflexivity.
Qed.

(** The reader of a pipe whose writer is not done has it open. *)
Lemma succ_open n s pcs qs k u x :
  at_pc n s pcs qs k u x -> S k <> length pcs -> closed_out u = false -> exists q, qs !! k = Some q /\ queue_ok q /\ fd_open (PipeRd k) s = true.
Proof.
  intros [Hr Hg Hk Hx Hd] Hnl Hc. destruct (gd_chain _ _ _ _ Hg) as [(ul & Hl & Hlen) Hwf Hf Hlk Hq _]. pose proof (lookup_lt_Some _ _ _ Hk) as Hlt.
  destruct (lookup_lt_is_Some_2 pcs (S k) ltac:(lia)) as [v Hv], (lookup_lt_is_Some_2 qs k ltac:(lia)) as [q Hqk]. exists q. split; [done|].
  split; [by apply Forall_lookup_1 with (1 := Hq) in Hqk|]. destruct (Hlk k u q v Hk Hqk Hv) as [L1 _].
  destruct (closed_in v) eqn:E; [destruct L1; [done|congruence]|].
  destruct (reader_open k v (Hwf _ _ Hv) E) as [fd Hfd]. exact (rep_open _ _ _ _ _ _ _ Hr Hv Hfd).
Qed.

(** Writing a number: it waits exactly if the pipe is full. *)
Lemma send_do n s pcs qs k u x fd v q :
  at_pc n s pcs qs k u x -> pipe_fds k u !! fd = Some (PipeWr k) -> qs !! k = Some q -> queue_ok q -> fd_open (PipeRd k) s = true ->
  do_write resume k x fd (int_bytes v) s =
    if (length q <? 128)%nat then
      Some (mk_sys (<[k := mk_uproc (resume u (RInt 4)) (pipe_fds k u) 0 (u_parent x) (u_state x)]> (y_procs s)) (queue_bytes <$> <[k := q ++ [v]]> qs) (y_out s))
    else None.
Proof.
  intros H Hfd Hq [_ Hlen] Ho. pose proof (ap_ok _ _ _ _ _ _ _ H) as [P1 P2 P3 P4 P5].
  unfold do_write. rewrite P2, Hfd, Ho, (rep_pipe _ _ _ _ _ (ap_rep _ _ _ _ _ _ _ H) Hq), P3. cbn [default id]. rewrite drop_0, length_int_bytes, length_queue_bytes.
  change (Z.to_nat PIPESIZE) with 512%nat. destruct (Nat.ltb_spec (length q) 128) as [Hl|Hl].
  - replace (Nat.min 4 (512 - 4 * length q)) with 4%nat by lia. cbn [Nat.eqb]. unfold set_proc, set_pipe, returns. cbn [y_procs y_pipes y_out].
    rewrite P1, P2, list_fmap_insert, queue_bytes_snoc, (rp_pipes _ _ _ (ap_rep _ _ _ _ _ _ _ H)). done.
  - replace (Nat.min 4 (512 - 4 * length q)) with 0%nat by lia. done.
Qed.

Lemma send_step n s pcs qs k u x fd v s' :
  at_pc n s pcs qs k u x -> next u = SWrite fd (int_bytes v) -> match u with MWrite i _ => v = i /\ 2 <= i <= TOP | PSend _ _ _ y => v = y | _ => False end ->
  pipe_fds k u !! fd = Some (PipeWr k) -> do_write resume k x fd (int_bytes v) s = Some s' -> goes_on n s'.
Proof.
  intros H Hn Hv Hfd Hs. pose proof (ap_wf _ _ _ _ _ _ _ H) as Hwf. pose proof H as [Hr Hg Hk Hx Hd].
  pose proof (cn_forked _ _ (gd_chain _ _ _ _ Hg) k u Hk) as Hf.
  assert (Hnl : S k <> length pcs) by (intros E; rewrite decide_True in Hf by done; by destruct u).
  destruct (succ_open n s pcs qs k u x H Hnl) as (q & Hq & Hqo & Ho); [by destruct u|].
  rewrite (send_do n s pcs qs k u x fd v q) in Hs by done. destruct (Nat.ltb_spec (length q) 128) as [Hl|]; [|done]. injection Hs as <-.
  set (u' := resume u (RInt 4)). assert (Hd' : u' <> Dead /\ past_wait u' = past_wait u /\ pipe_fds k u' = pipe_fds k u /\ pc_wf k u' /\ forked u' = true /\ closed_in u' = false).
  { unfold u'. destruct u; try done; cbn in Hwf; cbn [resume]; [rewrite (proj2 (Z.leb_le _ _)) by lia|]; cbn; split_and!; first [done|lia|apply Hwf]. }
  destruct Hd' as (D1 & D2 & D3 & D4 & D5 & D6). exists (<[k := u']> pcs), (<[k := q ++ [v]]> qs). split.
  - rewrite <- D3. apply (rep_update s pcs qs k u u' x); try done. by left.
  - cbn [y_out]. apply (good_write n pcs qs (y_out s) k u u' v q); try done; unfold u'.
    all: destruct u; try done; cbn in Hwf; try (destruct Hv as [-> Hv]); try subst v; cbn [resume]; rewrite ?(proj2 (Z.leb_le _ _)) by lia; try done.
    all: try (cbn [cost]; lia). all: try apply Hwf.
    cbn [future]. rewrite seqZ_cons by lia. f_equal. f_equal; lia.
Qed.

Lemma print_step n s pcs qs k fd m txt x s' :
  at_pc n s pcs qs k (PPrint fd m txt) x -> do_write resume k x 1 (take 1 txt) s = Some s' -> goes_on n s'.
Proof.
  intros H Hs. pose proof (ap_wf _ _ _ _ _ _ _ H) as Hwf. pose proof (ap_ok _ _ _ _ _ _ _ H) as [P1 P2 P3 P4 P5].
  pose proof (cn_forked _ _ (gd_chain _ _ _ _ (ap_good _ _ _ _ _ _ _ H)) k _ (ap_pc _ _ _ _ _ _ _ H)) as Hf.
  destruct (write_fds k _ 1 (take 1 txt) Hwf eq_refl) as [_ Hfd]. case_decide as Hlast; [|done].
  unfold do_write in Hs. rewrite P2, Hfd in Hs. injection Hs as <-. unfold set_proc, returns. cbn [y_procs y_pipes y_out]. rewrite P1, P2. cbn [resume].
  cbn in Hwf. destruct Hwf as (W1 & W2 & W3 & W4), txt as [|c [|c' txt]]; [done|..]; cbn [drop take].
  all: refine (step_tau n s pcs qs k _ x _ (y_out s ++ [c]) H _ _ _ _ _ _); try done; try (by left).
  all: rewrite decide_True by done; unfold text_left; cbn [to_print]; rewrite <- app_assoc; done.
Qed.

Lemma write_step n s pcs qs k u x fd bs s' :
  at_pc n s pcs qs k u x -> next u = SWrite fd bs -> do_write resume k x fd bs s = Some s' -> goes_on n s'.
Proof.
  intros H Hn Hs. pose proof (write_fds k u fd bs (ap_wf _ _ _ _ _ _ _ H) Hn) as Hw. destruct u; try done.
  - destruct Hw as (-> & Hi & Hfd). by apply (send_step n s pcs qs k _ x fd i s' H).
  - injection Hn as <- <-. by apply (print_step n s pcs qs k fd0 n0 txt x).
  - destruct Hw as (-> & Hfd). by apply (send_step n s pcs qs k _ x fd num s' H).
Qed.

(** pipe *)
Lemma pipe_free k u :
  pc_wf k u -> next u = SPipe ->
  exists rd wr, free_fd (Z.to_nat NOFILE) 0 (pipe_fds k u) = Some rd /\ free_fd (Z.to_nat NOFILE) 0 (<[rd := PipeRd k]> (pipe_fds k u)) = Some wr /\
    <[wr := PipeWr k]> (<[rd := PipeRd k]> (pipe_fds k u)) = pipe_fds k (resume u (RPair rd wr)) /\ pc_wf k (resume u (RPair rd wr)).
Proof.
  intros Hwf Hn. call_cases u Hn; cbn in Hwf; destruct_and?; subst.
  - exists 3, 4. split_and!; first [reflexivity|done].
  - destruct (fdin_cases k) as [(E0 & E1 & E2)|(E0 & E1 & E2)]; [exists 4, 5|exists 3, 5]; cbn [pipe_fds resume pc_wf]; rewrite ?E0, ?E1; split_and!; first [reflexivity|done].
Qed.

Lemma files_bound (s : sys pc) : (files s <= 1 + 2 * length (y_pipes s))%nat.
Proof.
  assert (E : forall m a, length (concat ((fun j => [PipeRd j; PipeWr j]) <$> seq a m)) = (2 * m)%nat).
  { induction m as [|m IH]; intros a; [done|]. cbn [seq fmap list_fmap concat app length]. rewrite IH. lia. }
  unfold files. apply le_n_S. etrans; [apply length_filter|]. by rewrite E.
Qed.

Lemma pipe_step n s pcs qs k u x :
  at_pc n s pcs qs k u x -> next u = SPipe -> goes_on n (do_pipe resume nfile k x s).
Proof.
  intros H Hn. pose proof (ap_wf _ _ _ _ _ _ _ H) as Hwf. pose proof (ap_ok _ _ _ _ _ _ _ H) as [P1 P2 P3 P4 P5]. pose proof H as [Hr Hg Hk Hx Hd].
  pose proof (cn_forked _ _ (gd_chain _ _ _ _ Hg) k u Hk) as Hf. pose proof (lookup_lt_Some _ _ _ Hk) as Hlt.
  assert (Hlast : S k = length pcs) by (destruct (decide (S k = length pcs)); [done|]; call_cases u Hn; done).
  assert (Eu : last pcs = Some u) by (by rewrite last_lookup, <- Hlast).
  assert (Ha : at_fork u = false /\ (0 < pipes_left u (inp pcs qs k))%nat)
    by (call_cases u Hn; (split; [done|unfold pipes_left; cbn; lia])).
  destruct Ha as [Ha Hpl]. destruct (cn_last _ _ (gd_chain _ _ _ _ Hg)) as (ul & Hl & Hlen). rewrite Eu in Hl. injection Hl as <-. rewrite Ha in Hlen.
  pose proof (gd_pipes _ _ _ _ Hg u Eu) as Hp. replace (length pcs - 1)%nat with k in * by lia.
  assert (Ek : length (y_pipes s) = k) by (rewrite (rp_pipes _ _ _ Hr), length_fmap; lia).
  destruct (pipe_free k u Hwf Hn) as (rd & wr & F1 & F2 & F3 & F4). unfold do_pipe. rewrite Ek, P2, F1, F2.
  pose proof (files_bound s) as Hfs. rewrite (proj2 (Nat.leb_le _ _)) by lia. unfold returns, with_fds. cbn [u_pc u_fds u_parent u_state]. rewrite F3, P1.
  exists (<[k := resume u (RPair rd wr)]> pcs), (qs ++ [[]]). split.
  - rewrite (rp_pipes _ _ _ Hr). change ((queue_bytes <$> qs) ++ [[]]) with ((queue_bytes <$> qs) ++ (queue_bytes <$> [[]])). rewrite <- fmap_app.
    apply (rep_update s pcs qs k u); try done; [by call_cases u Hn|right; by rewrite lookup_ge_None_2 by lia].
  - cbn [y_out]. apply (good_pipe n pcs qs (y_out s) k u); try assumption; call_cases u Hn; cbn [resume];
      lazymatch goal with |- cost _ _ = _ => cbn [cost]; lia | |- _ = S _ => unfold pipes_left; cbn [to_print]; lia | |- _ => reflexivity end.
Qed.

(** fork *)
Lemma rep_append s pcs qs c x :
  rep s pcs qs -> proc_ok (pcs ++ [c]) (length pcs) c x -> rep (mk_sys (y_procs s ++ [x]) (y_pipes s) (y_out s)) (pcs ++ [c]) qs.
Proof.
  intros [Hl Hp Hq] Hx. split; cbn; [by rewrite !length_app, Hl| |done]. intros j v y Hj Hy. destruct (decide (j < length pcs)%nat) as [Hlt|Hge].
  - rewrite lookup_app_l in Hj by lia. rewrite lookup_app_l in Hy by lia. destruct (Hp j v y Hj Hy) as [Q1 Q2 Q3 Q4 Q5]. split; try done.
    rewrite Q4. destruct v; try done. destruct j; [done|]. cbn. by rewrite lookup_app_l by lia.
  - assert (j = length pcs) as -> by (apply lookup_lt_Some in Hj; rewrite length_app in Hj; cbn in Hj; lia).
    rewrite lookup_app_r, Nat.sub_diag in Hj by lia. rewrite <- Hl, lookup_app_r, Nat.sub_diag in Hy by lia. injection Hj as <-. by injection Hy as <-.
Qed.

Definition fork_child_pc (u : pc) : pc := resume u (RInt 0).
Definition fork_parent_pc (u : pc) : pc := resume u (RInt 1).

Lemma fork_pcs k u :
  pc_wf k u -> next u = SFork ->
  at_fork u = true /\ (forall z, 0 < z -> resume u (RInt z) = fork_parent_pc u) /\ pipe_fds k (fork_parent_pc u) = pipe_fds k u /\ pipe_fds (S k) (fork_child_pc u) = pipe_fds k u /\
  pc_wf k (fork_parent_pc u) /\ pc_wf (S k) (fork_child_pc u).
Proof.
  intros Hwf Hn. call_cases u Hn; cbn in Hwf; destruct_and!; subst;
    (split; [done|]; split; [by intros [|z|z] Hz|]; split; [done|]; cbn; split_and!; try done; try lia).
  rewrite !Nat.sub_0_r. by replace (k - 0)%nat with k by lia.
Qed.

Lemma slots_bound (s : sys pc) : (slots s <= length (y_procs s))%nat.
Proof. apply length_filter. Qed.

Lemma fork_step n s pcs qs k u x :
  at_pc n s pcs qs k u x -> next u = SFork -> goes_on n (do_fork resume nproc k x s).
Proof.
  intros H Hn. pose proof (ap_wf _ _ _ _ _ _ _ H) as Hwf. pose proof (ap_ok _ _ _ _ _ _ _ H) as [P1 P2 P3 P4 P5]. pose proof H as [Hr Hg Hk Hx Hd].
  pose proof (cn_forked _ _ (gd_chain _ _ _ _ Hg) k u Hk) as Hf. pose proof (lookup_lt_Some _ _ _ Hk) as Hlt.
  assert (Hlast : S k = length pcs) by (destruct (decide (S k = length pcs)); [done|]; call_cases u Hn; done).
  destruct (fork_pcs k u Hwf Hn) as (Ha & F1 & F2 & F3 & F4 & F5).
  assert (Eu : last pcs = Some u) by (by rewrite last_lookup, <- Hlast).
  destruct (cn_last _ _ (gd_chain _ _ _ _ Hg)) as (ul & Hl & Hlen). rewrite Eu in Hl. injection Hl as <-. rewrite Ha in Hlen.
  pose proof (gd_pipes _ _ _ _ Hg u Eu) as Hp. pose proof (slots_bound s) as Hs. rewrite (rp_len _ _ _ Hr) in Hs.
  unfold do_fork. rewrite (proj2 (Nat.ltb_lt _ _)) by lia. unfold returns. rewrite P1, P2, F1 by lia. change (resume u (RInt 0)) with (fork_child_pc u).
  assert (Hc : fork_parent_pc u <> Dead /\ fork_child_pc u <> Dead) by (by call_cases u Hn). destruct Hc as [Hc1 Hc2].
  exists (<[k := fork_parent_pc u]> pcs ++ [fork_child_pc u]), qs. split.
  - pose proof (rep_update s pcs qs k u (fork_parent_pc u) x qs (y_out s) Hr Hk Hx Hd Hc1) as R. rewrite F2, <- (rp_pipes _ _ _ Hr) in R.
    assert (Hnd : pcs !! S k <> Some Dead) by (by rewrite lookup_ge_None_2 by lia). apply (rep_append _ _ _ _ _ (R (or_intror Hnd))). rewrite length_insert, <- Hlast.
    split; cbn [u_pc u_fds u_done u_state u_parent]; try done. by rewrite proc_state_live.
  - cbn [y_out]. apply (good_fork n pcs qs (y_out s) k u); try assumption; call_cases u Hn; cbn [resume fork_parent_pc fork_child_pc];
      lazymatch goal with |- cost _ _ = _ => cbn [cost future]; lia | |- _ => reflexivity end.
Qed.

(** wait *)
Definition reap (x : uproc pc) : uproc pc := mk_uproc (u_pc x) (u_fds x) (u_done x) (u_parent x) Reaped.

Lemma wait_cases n s pcs qs k u x :
  at_pc n s pcs qs k u x -> next u = SWait ->
  exists v y, pcs !! S k = Some v /\ y_procs s !! S k = Some y /\
  ((v = Dead /\ find_zombie k s = Some (S k)) \/ (v <> Dead /\ find_zombie k s = None /\ has_child k s = true)).
Proof.
  intros H Hn. pose proof H as [Hr Hg Hk Hx Hd]. pose proof (cn_forked _ _ (gd_chain _ _ _ _ Hg) k u Hk) as Hf. pose proof (lookup_lt_Some _ _ _ Hk) as Hlt.
  assert (Hnl : S k <> length pcs) by (intros E; rewrite decide_True in Hf by done; by call_cases u Hn).
  assert (Hpw : past_wait u = false) by (by call_cases u Hn).
  destruct (lookup_lt_is_Some_2 pcs (S k) ltac:(lia)) as [v Hv]. destruct (rep_get s pcs qs (S k) v Hr Hv) as (y & Hy & [Q1 Q2 Q3 Q4 Q5]).
  exists v, y. split; [done|]. split; [done|].
  assert (Hfz : forall c, find_zombie k s = Some c -> c = S k /\ v = Dead).
  { intros c Hc. unfold find_zombie in Hc. apply fmap_Some in Hc as ([c' z] & (Hz & (Zp & Zs) & _)%list_find_Some & ->). cbn in *.
    destruct (lookup_lt_is_Some_2 pcs c') as [w Hw]; [rewrite <- (rp_len _ _ _ Hr); by eapply lookup_lt_Some|].
    destruct (rp_proc _ _ _ Hr c' w z Hw Hz) as [_ _ _ R4 R5]. rewrite R5 in Zp by (by rewrite Zs). destruct c' as [|c']; [done|]. injection Zp as ->.
    split; [done|]. rewrite Hv in Hw. injection Hw as <-. destruct (decide (v = Dead)) as [|Hvd]; [done|]. rewrite proc_state_live in R4 by done. congruence. }
  destruct (decide (v = Dead)) as [->|Hvd].
  - left. split; [done|]. destruct (find_zombie k s) as [c|] eqn:E; [by destruct (Hfz c eq_refl) as [-> _]|].
    unfold find_zombie in E. apply fmap_None in E. apply list_find_None in E.
    apply Forall_lookup_1 with (1 := E) in Hy. destruct Hy. cbn in Q4. rewrite Hk, Hpw in Q4. rewrite Q5 by (by rewrite Q4). done.
  - right. split; [done|]. split; [destruct (find_zombie k s) as [c|] eqn:E; [by destruct (Hfz c eq_refl)|done]|].
    rewrite proc_state_live in Q4 by done. unfold has_child. apply existsb_exists. exists y. split; [apply list_elem_of_In; by eapply list_elem_of_lookup_2|].
    rewrite Q5 by (by rewrite Q4). rewrite Q4. cbn. by rewrite bool_decide_eq_true_2.
Qed.

Lemma reaped_state pcs k u u' j v :
  pcs !! k = Some u -> past_wait u = false -> past_wait u' = true -> pcs !! S k = Some Dead -> pcs !! j = Some v ->
  proc_state (<[k := u']> pcs) j v = if decide (j = S k) then Reaped else proc_state pcs j v.
Proof.
  intros Hk Hpw Hpw' Hc Hj. case_decide as E; [|apply (proc_state_insert pcs k u); [done|auto]]. subst j. rewrite Hc in Hj. injection Hj as <-.
  cbn. by rewrite list_lookup_insert_eq, Hpw' by (by eapply lookup_lt_Some).
Qed.

Lemma wait_rep s pcs qs k u u' x r :
  rep s pcs qs -> pcs !! k = Some u -> y_procs s !! k = Some x -> u <> Dead -> u' <> Dead -> past_wait u = false -> past_wait u' = true -> pcs !! S k = Some Dead ->
  resume u r = u' -> pipe_fds k u' = pipe_fds k u ->
  rep (set_proc k (returns resume x r) (mk_sys (alter reap (S k) (y_procs s)) (y_pipes s) (y_out s))) (<[k := u']> pcs) qs.
Proof.
  intros [Hl Hp Hq] Hk Hx Hd Hd' Hpw Hpw' Hc Er Ef. destruct (Hp k u x Hk Hx) as [P1 P2 P3 P4 P5]. rewrite proc_state_live in P4 by done.
  split; cbn [set_proc y_procs y_pipes]; [by rewrite !length_insert, length_alter| |done]. intros j v y Hj Hy. destruct (decide (j = k)) as [->|Hne].
  - rewrite list_lookup_insert_eq in Hj by (by eapply lookup_lt_Some). injection Hj as <-.
    rewrite list_lookup_insert_eq in Hy by (rewrite length_alter; by eapply lookup_lt_Some). injection Hy as <-.
    split; cbn; [congruence|congruence|done| |done]. rewrite P4. by rewrite proc_state_live.
  - rewrite list_lookup_insert_ne in Hj by done. rewrite list_lookup_insert_ne in Hy by done. pose proof (reaped_state pcs k u u' j v Hk Hpw Hpw' Hc Hj) as Es.
    destruct (decide (j = S k)) as [->|Hne'].
    + rewrite list_lookup_alter_eq in Hy. apply fmap_Some in Hy as (z & Hz & ->). destruct (Hp _ v z Hj Hz) as [Q1 Q2 Q3 Q4 Q5]. by split.
    + rewrite list_lookup_alter_ne in Hy by done. destruct (Hp j v y Hj Hy) as [Q1 Q2 Q3 Q4 Q5]. split; try done. by rewrite Es.
Qed.

Lemma wait_step n s pcs qs k u x s' :
  at_pc n s pcs qs k u x -> next u = SWait -> do_wait resume k x s = Some s' -> goes_on n s'.
Proof.
  intros H Hn Hs. pose proof (ap_wf _ _ _ _ _ _ _ H) as Hwf. pose proof H as [Hr Hg Hk Hx Hd].
  pose proof (cn_forked _ _ (gd_chain _ _ _ _ Hg) k u Hk) as Hf. destruct (wait_cases n s pcs qs k u x H Hn) as (v & y & Hv & Hy & Hc).
  pose proof (lookup_lt_Some _ _ _ Hv) as Hlt. rewrite decide_False in Hf by lia.
  unfold do_wait in Hs. destruct Hc as [[-> Ez]|(Hvd & Ez & Ec)]; rewrite Ez in Hs; [|by rewrite Ec in Hs]. injection Hs as <-.
  change (fun x0 : uproc pc => mk_uproc (u_pc x0) (u_fds x0) (u_done x0) (u_parent x0) Reaped) with reap. set (r := RInt _). set (u' := resume u r).
  assert (D : u' <> Dead /\ past_wait u = false /\ past_wait u' = true /\ pipe_fds k u' = pipe_fds k u /\ pc_wf k u' /\ forked u' = true) by (by unfold u'; call_cases u Hn).
  destruct D as (D1 & D2 & D3 & D4 & D5 & D6). exists (<[k := u']> pcs), qs. split; [by apply (wait_rep s pcs qs k u)|].
  cbn [set_proc y_out]. apply (good_tau n pcs qs (y_out s) k u); try done; unfold u'; try (by call_cases u Hn).
  - call_cases u Hn; intros; by left.
  - rewrite decide_False by lia. split; [done|]. split; [done|]. split; [by call_cases u Hn|]. split; [by call_cases u Hn|by right].
Qed.

(** exit *)
Lemma exit_rep n s pcs qs k u x :
  at_pc n s pcs qs k u x -> next u = SExit -> rep (do_exit resume k x s) (<[k := Dead]> pcs) qs.
Proof.
  intros H Hn. pose proof (ap_ok _ _ _ _ _ _ _ H) as [P1 P2 P3 P4 P5]. pose proof H as [[Hl Hp Hq] Hg Hk Hx Hd].
  assert (Hpw : past_wait u = true) by (by call_cases u Hn). rewrite proc_state_live in P4 by done.
  split; cbn [do_exit y_procs y_pipes]; [by rewrite !length_insert, length_fmap| |done]. intros j v y Hj Hy. destruct (decide (j = k)) as [->|Hne].
  - rewrite list_lookup_insert_eq in Hj by (by eapply lookup_lt_Some). injection Hj as <-.
    rewrite list_lookup_insert_eq in Hy by (rewrite length_fmap; by eapply lookup_lt_Some). injection Hy as <-.
    split; cbn [u_pc u_fds u_done u_state u_parent]; try done; [rewrite P1; by call_cases u Hn| |intros _; apply P5; by rewrite P4].
    cbn. destruct k as [|j]; [done|]. rewrite list_lookup_insert_ne by lia. destruct (pred_queue _ _ _ _ _ _ _ H) as (w & q & Hw & Hqj & _).
    destruct (link_pre _ _ _ _ _ _ _ _ _ Hg Hk Hd eq_refl Hw Hqj) as [E _]. by rewrite Hw, E.
  - rewrite list_lookup_insert_ne in Hj by done. rewrite list_lookup_insert_ne, list_lookup_fmap in Hy by done. apply fmap_Some in Hy as (z & Hz & ->).
    destruct (Hp j v z Hj Hz) as [Q1 Q2 Q3 Q4 Q5]. unfold orphan.
    pose proof (proc_state_insert pcs k u Dead j v Hk (or_introl (eq_sym Hpw))) as Es.
    case_bool_decide as Ep; split; cbn; try done; try congruence. intros Hnr. rewrite (Q5 Hnr) in Ep. destruct j as [|j]; [done|]. injection Ep as ->.
    destruct (cn_last _ _ (gd_chain _ _ _ _ Hg)) as (ul & _ & Hlen). pose proof (lookup_lt_Some _ _ _ Hj).
    destruct (lookup_lt_is_Some_2 qs k ltac:(lia)) as [q Hqk]. destruct (cn_link _ _ (gd_chain _ _ _ _ Hg) k u q v Hk Hqk Hj) as [_ L2].
    rewrite (L2 Hpw) in Q4. cbn in Q4. rewrite Hk, Hpw in Q4. done.
Qed.

Lemma exit_step n s pcs qs k u x :
  at_pc n s pcs qs k u x -> next u = SExit -> goes_on n (do_exit resume k x s).
Proof.
  intros H Hn. pose proof (exit_rep n s pcs qs k u x H Hn) as Hr'. pose proof (ap_wf _ _ _ _ _ _ _ H) as Hwf. pose proof H as [Hr Hg Hk Hx Hd].
  pose proof (cn_forked _ _ (gd_chain _ _ _ _ Hg) k u Hk) as Hf. exists (<[k := Dead]> pcs), qs. split; [done|].
  cbn [do_exit y_out]. apply (good_tau n pcs qs (y_out s) k u); try done; call_cases u Hn; try done.
  all: try (case_decide; [try discriminate Hf|]); try (split_and!; try done; intros _; by left).
  all: intros _; first [by left|right; intros j v q E; cbn in Hwf; lia].
Qed.

(** ** Every step keeps the invariant *)
Lemma step_good n s pcs qs k s' : rep s pcs qs -> good n pcs qs (y_out s) -> ustep k s = Some s' -> goes_on n s'.
Proof.
  intros Hr Hg Hs. destruct (pcs !! k) as [u|] eqn:Hk.
  2: { unfold Usys.ustep in Hs. rewrite (proj2 (lookup_ge_None _ _)) in Hs; [done|]. rewrite (rp_len _ _ _ Hr). by apply lookup_ge_None. }
  destruct (rep_get s pcs qs k u Hr Hk) as (x & Hx & Hok). destruct (decide (u = Dead)) as [->|Hd].
  { unfold Usys.ustep in Hs. rewrite Hx, bool_decide_eq_false_2 in Hs; [done|]. rewrite (pk_state _ _ _ _ Hok). apply proc_state_dead. }
  assert (H : at_pc n s pcs qs k u x) by done. rewrite (ustep_at n s pcs qs k u x H) in Hs. destruct (next u) as [| |fd|fd m|fd bs| | |] eqn:Hn; try (injection Hs as <-).
  - by apply (pipe_step n s pcs qs k u x).
  - by apply (fork_step n s pcs qs k u x).
  - by apply (close_step n s pcs qs k u x).
  - assert (m = 4) as -> by (call_cases u Hn; congruence). by apply (read_step n s pcs qs k u x fd).
  - by apply (write_step n s pcs qs k u x fd bs).
  - by apply (wait_step n s pcs qs k u x).
  - by apply (exit_step n s pcs qs k u x).
  - done.
Qed.

(** ** Some process can always go on *)
Definition enabled (s : sys pc) : Prop := exists k s', ustep k s = Some s'.

(** Where a process stands that cannot make its call. *)
Definition stuck (s : sys pc) (pcs : list pc) (qs : list (list Z)) (k : nat) (u : pc) : Prop :=
  (exists j v, k = S j /\ qs !! j = Some [] /\ pcs !! j = Some v /\ forked v = true /\ closed_out v = false) \/
  (exists q, qs !! k = Some q /\ q <> [] /\ closed_out u = false /\ S k <> length pcs) \/
  (exists v, pcs !! S k = Some v /\ v <> Dead /\ closed_out u = true).

Lemma read_stuck n s pcs qs k u x fd : at_pc n s pcs qs k u x -> next u = SRead fd 4 -> ustep k s = None ->
  exists j v, k = S j /\ qs !! j = Some [] /\ pcs !! j = Some v /\ forked v = true /\ closed_out v = false.
Proof.
  intros H Hn Hs. pose proof (ap_wf _ _ _ _ _ _ _ H) as Hwf. pose proof (ap_ok _ _ _ _ _ _ _ H) as [P1 P2 P3 P4 P5]. pose proof H as [Hr Hg Hk Hx Hd].
  rewrite (ustep_at n s pcs qs k u x H), Hn in Hs. destruct (read_fds k u fd Hwf Hn) as (j & -> & Hfd). destruct (pred_queue _ _ _ _ _ _ _ H) as (v & q & Hv & Hq & Hfo).
  exists j, v. unfold do_read in Hs. rewrite P2, Hfd, (rep_pipe _ _ _ _ _ Hr Hq) in Hs. cbn [default id] in Hs.
  destruct q as [|y q]; [|by destruct (queue_bytes (y :: q)) eqn:Eb]. cbn [queue_bytes fmap list_fmap concat] in Hs.
  destruct (fd_open (PipeWr j) s) eqn:Ho; [|done]. split; [done|]. split; [done|]. split; [done|]. split; [done|].
  unfold fd_open in Ho. apply existsb_exists in Ho as (z & Hz & (fd' & Hfd')%has_fd_Some). apply list_elem_of_In, list_elem_of_lookup_1 in Hz as [a Ha].
  destruct (lookup_lt_is_Some_2 pcs a) as [w Hw]; [rewrite <- (rp_len _ _ _ Hr); by eapply lookup_lt_Some|].
  rewrite (pk_fds _ _ _ _ (rp_proc _ _ _ Hr a w z Hw Ha)) in Hfd'. destruct (write_end a w j fd' (cn_wf _ _ (gd_chain _ _ _ _ Hg) a w Hw) Hfd') as [[-> E]|[-> E]].
  - congruence.
  - rewrite Hk in Hw. injection Hw as <-. by call_cases u Hn.
Qed.

Lemma write_stuck n s pcs qs k u x fd bs : at_pc n s pcs qs k u x -> next u = SWrite fd bs -> ustep k s = None ->
  exists q, qs !! k = Some q /\ q <> [] /\ closed_out u = false /\ S k <> length pcs.
Proof.
  intros H Hn Hs. pose proof (ap_ok _ _ _ _ _ _ _ H) as [P1 P2 P3 P4 P5]. pose proof H as [Hr Hg Hk Hx Hd]. pose proof (cn_forked _ _ (gd_chain _ _ _ _ Hg) k u Hk) as Hf.
  rewrite (ustep_at n s pcs qs k u x H), Hn in Hs. pose proof (write_fds k u fd bs (ap_wf _ _ _ _ _ _ _ H) Hn) as Hw.
  assert (Hv : forall v, bs = int_bytes v -> pipe_fds k u !! fd = Some (PipeWr k) -> closed_out u = false -> S k <> length pcs -> exists q, qs !! k = Some q /\ q <> [] /\ closed_out u = false /\ S k <> length pcs).
  { intros v -> Hfd Hc Hnl. destruct (succ_open n s pcs qs k u x H Hnl Hc) as (q & Hq & Hqo & Ho). exists q. split_and!; try done.
    rewrite (send_do n s pcs qs k u x fd v q) in Hs by done. by intros ->. }
  case_decide as Hlast; destruct u; try done.
  - destruct Hw as [-> Hfd]. unfold do_write in Hs. by rewrite P2, Hfd in Hs.
  - destruct Hw as (-> & _ & Hfd). by apply (Hv i).
  - destruct Hw as (-> & Hfd). by apply (Hv num).
Qed.

Lemma not_enabled_stuck n s pcs qs k u : rep s pcs qs -> good n pcs qs (y_out s) -> ~ enabled s -> pcs !! k = Some u -> u <> Dead -> stuck s pcs qs k u.
Proof.
  intros Hr Hg He Hk Hd. destruct (rep_get s pcs qs k u Hr Hk) as (x & Hx & Hok). assert (H : at_pc n s pcs qs k u x) by done.
  assert (Hs : ustep k s = None) by (destruct (ustep k s) as [s'|] eqn:E; [destruct He; by exists k, s'|done]).
  destruct (next u) as [| |fd|fd m|fd bs| | |] eqn:Hn; try (by rewrite (ustep_at n s pcs qs k u x H), Hn in Hs).
  - left. assert (m = 4) as -> by (call_cases u Hn; congruence). by apply (read_stuck n s pcs qs k u x fd).
  - right. left. by apply (write_stuck n s pcs qs k u x fd bs).
  - right. right. destruct (wait_cases n s pcs qs k u x H Hn) as (v & y & Hv & Hy & [[-> Ez]|(Hvd & Ez & Ec)]).
    + rewrite (ustep_at n s pcs qs k u x H), Hn in Hs. unfold do_wait in Hs. by rewrite Ez in Hs.
    + exists v. split_and!; try done. by call_cases u Hn.
  - pose proof (ap_wf _ _ _ _ _ _ _ H). by call_cases u Hn.
Qed.

(** A process whose pipe is empty and still open, or one before it, can go on. *)
Lemma flows n s pcs qs k u :
  rep s pcs qs -> good n pcs qs (y_out s) -> ~ enabled s -> pcs !! k = Some u -> qs !! k = Some [] -> closed_out u = false -> forked u = true -> False.
Proof.
  intros Hr Hg He. revert u. induction k as [|k IH]; intros u Hk Hq Hc Hf.
  all: assert (Hd : u <> Dead) by (by intros ->).
  all: destruct (not_enabled_stuck n s pcs qs _ u Hr Hg He Hk Hd) as [(j & v & Ej & Hqj & Hv & Hfv & Hcv)|[(q & Hq' & Hne & _)|(v & _ & _ & Hc')]]; try congruence.
  injection Ej as <-. by apply (IH v).
Qed.

Lemma progress n s pcs qs : rep s pcs qs -> good n pcs qs (y_out s) -> ~ enabled s -> Forall (fun u => u = Dead) pcs.
Proof.
  intros Hr Hg He. assert (Hall : forall m k u, (length pcs - k <= m)%nat -> pcs !! k = Some u -> u = Dead).
  { induction m as [|m IH]; intros k u Hm Hk; pose proof (lookup_lt_Some _ _ _ Hk) as Hlt; [lia|]. destruct (decide (u = Dead)) as [|Hd]; [done|exfalso].
    destruct (not_enabled_stuck n s pcs qs k u Hr Hg He Hk Hd) as [(j & v & -> & Hqj & Hv & Hfv & Hcv)|[(q & Hq & Hne & Hc & Hnl)|(v & Hv & Hvd & _)]].
    - by apply (flows n s pcs qs j v).
    - destruct (lookup_lt_is_Some_2 pcs (S k) ltac:(lia)) as [v Hv]. assert (v = Dead) as -> by (apply (IH (S k) v); [lia|done]).
      destruct (cn_link _ _ (gd_chain _ _ _ _ Hg) k u q Dead Hk Hq Hv) as [L1 _]. destruct (L1 eq_refl). congruence.
    - apply Hvd. apply (IH (S k) v); [lia|done]. }
  apply Forall_lookup. intros k u Hk. by apply (Hall (length pcs) k u); [lia|].
Qed.

(** ** All the runs *)
Lemma good_start : rep primes_start [MPipe] [] /\ good 0 [MPipe] [] [].
Proof.
  split; [split; [done| |done]|split].
  - intros [|k] u x Hu Hx; [|done]. injection Hu as <-. injection Hx as <-. by split.
  - split; [by exists MPipe|..|done|by intros u [= <-]].
    + intros [|k] u Hu; [|done]. by injection Hu as <-.
    + intros [|k] u Hu; [|done]. by injection Hu as <-.
    + done.
  - intros u [= <-]. unfold text_left. cbn [to_print app]. by rewrite sieve_primes.
  - intros u [= <-]. unfold pipes_left. cbn [to_print]. by rewrite sieve_primes.
  - unfold total, steps0. cbn [imap sum_list_with inp]. unfold id. lia.
Qed.

Lemma good_run n s : nsteps (pstep nfile nproc) n primes_start s -> exists pcs qs, rep s pcs qs /\ good n pcs qs (y_out s).
Proof.
  revert s. induction n as [|n IH]; intros s H.
  - inversion H; subst. exists [MPipe], []. apply good_start.
  - apply nsteps_inv_r in H as (s0 & H0 & k & Hs). destruct (IH s0 H0) as (pcs & qs & Hr & Hg). exact (step_good n s0 pcs qs k s Hr Hg Hs).
Qed.

Lemma enabled_dec (s : sys pc) : enabled s \/ ~ enabled s.
Proof using Type.
  clear Hnfile Hnproc. destruct (existsb (fun k => bool_decide (is_Some (ustep k s))) (seq 0 (length (y_procs s)))) eqn:E.
  - left. apply existsb_exists in E as (k & _ & [s' Hs]%bool_decide_eq_true). by exists k, s'.
  - right. intros (k & s' & Hs). rewrite <- not_true_iff_false, existsb_exists in E. apply E. exists k. split; [|apply bool_decide_eq_true; eauto].
    apply in_seq. split; [lia|]. unfold Usys.ustep in Hs. destruct (y_procs s !! k) eqn:Ek; [|done]. apply lookup_lt_Some in Ek. lia.
Qed.

Lemma all_dead_cost pcs qs : Forall (fun u => u = Dead) pcs -> total cost pcs qs = 0%nat.
Proof.
  intros H. unfold total. assert (E : forall g : nat -> pc -> nat, (forall k, g k Dead = 0%nat) -> sum_list (imap g pcs) = 0%nat).
  { clear qs. induction H as [|u l -> _ IH]; intros g Hg; [done|]. rewrite imap_cons. cbn. rewrite Hg. exact (IH (g ∘ S) (fun k => Hg (S k))). }
  by apply E.
Qed.

Lemma finished n s pcs qs :
  rep s pcs qs -> good n pcs qs (y_out s) -> ~ enabled s -> Forall (fun x => u_pc x = Dead) (y_procs s) /\ y_out s = primes_text /\ n = steps0.
Proof.
  intros Hr Hg He. pose proof (progress n s pcs qs Hr Hg He) as Hall. split; [|split].
  - apply Forall_lookup. intros k x Hx. destruct (lookup_lt_is_Some_2 pcs k) as [u Hu]; [rewrite <- (rp_len _ _ _ Hr); by eapply lookup_lt_Some|].
    rewrite (pk_pc _ _ _ _ (rp_proc _ _ _ Hr k u x Hu Hx)). by apply Forall_lookup_1 with (1 := Hall) in Hu.
  - destruct (cn_last _ _ (gd_chain _ _ _ _ Hg)) as (u & Hl & _). pose proof (gd_text _ _ _ _ Hg u Hl) as Ht. rewrite last_lookup in Hl.
    apply Forall_lookup_1 with (1 := Hall) in Hl. subst u. by rewrite app_nil_r in Ht.
  - pose proof (gd_cost _ _ _ _ Hg) as Hc. rewrite all_dead_cost in Hc by done. lia.
Qed.

Lemma no_undef n s pcs qs : rep s pcs qs -> good n pcs qs (y_out s) -> Forall (fun x => u_pc x <> Undef) (y_procs s).
Proof.
  intros Hr Hg. apply Forall_lookup. intros k x Hx. destruct (lookup_lt_is_Some_2 pcs k) as [u Hu]; [rewrite <- (rp_len _ _ _ Hr); by eapply lookup_lt_Some|].
  rewrite (pk_pc _ _ _ _ (rp_proc _ _ _ Hr k u x Hu Hx)). intros ->. exact (cn_wf _ _ (gd_chain _ _ _ _ Hg) k Undef Hu).
Qed.
End Steps.

Lemma pipes0_eq : pipes0 = 60%nat.
Proof. vm_compute. reflexivity. Qed.

Lemma sorted_filter (P : Z -> Prop) `{!forall x, Decision (P x)} l : StronglySorted Z.lt l -> StronglySorted Z.lt (filter P l).
Proof.
  induction 1 as [|x l Hl IH Hx]; [constructor|]. rewrite filter_cons. case_decide; [|done]. constructor; [done|].
  apply Forall_forall. intros y [_ Hy]%list_elem_of_filter. by apply (proj1 (Forall_forall _ _) Hx).
Qed.

Lemma sorted_seqZ a n : StronglySorted Z.lt (seqZ a n).
Proof.
  unfold seqZ. generalize 0%nat as b. induction (Z.to_nat n) as [|m IH]; intros b; [constructor|]. cbn [seq fmap list_fmap]. constructor; [apply IH|].
  apply Forall_forall. intros y (c & -> & Hc%elem_of_seq)%list_elem_of_fmap. lia.
Qed.

(** C36: Run the prime sieve from its start, its processes scheduled in any way,
    with tables of at least 121 files and 61 processes.  What it has printed is
    a prefix of the lines of the primes up to 280, in order; no process uses the
    descriptors of a failed pipe; it has made at most [steps0] system calls, and
    as long as it has not made all of them and printed everything, with all
    processes gone, some process can make its next call. *)
Theorem primes_correct nfile nproc n s :
  (121 <= nfile)%nat -> (61 <= nproc)%nat -> nsteps (pstep nfile nproc) n primes_start s ->
  exists ps, StronglySorted Z.lt ps /\ (forall p, p ∈ ps <-> prime p /\ p <= 280) /\
    let text := concat (prime_text <$> ps) in
    y_out s `prefix_of` text /\ (n <= steps0)%nat /\ Forall (fun x => u_pc x <> Undef) (y_procs s) /\
    ((exists s', pstep nfile nproc s s') \/ Forall (fun x => u_pc x = Dead) (y_procs s) /\ y_out s = text /\ n = steps0).
Proof.
  intros Hf Hp Hrun. exists (primes_upto TOP). split; [apply sorted_filter, sorted_seqZ|]. split; [apply elem_primes_upto|]. cbn zeta.
  assert (H1 : (2 * pipes0 + 1 <= nfile)%nat) by (rewrite pipes0_eq; lia). assert (H2 : (pipes0 < nproc)%nat) by (rewrite pipes0_eq; lia).
  destruct (good_run nfile nproc H1 H2 n s Hrun) as (pcs & qs & Hr & Hg). split; [|split; [|split]].
  - destruct (cn_last _ _ (gd_chain _ _ _ _ Hg)) as (u & Hl & _). eexists. symmetry. exact (gd_text _ _ _ _ Hg u Hl).
  - pose proof (gd_cost _ _ _ _ Hg). lia.
  - exact (no_undef n s pcs qs Hr Hg).
  - destruct (enabled_dec nfile nproc s) as [(k & s' & Hs)|He]; [left; by exists s', k|right]. by apply (finished nfile nproc) with (pcs := pcs) (qs := qs).
Qed.

Lemma run_steps nfile nproc l s : exists n, nsteps (pstep nfile nproc) n s (run next resume nfile nproc l s).
Proof.
  revert s. induction l as [|i l IH]; intros s; [exists 0%nat; constructor|]. cbn. destruct (Usys.ustep next resume nfile nproc i s) as [s'|] eqn:E; cbn; [|apply IH].
  destruct (IH s') as [n Hn]. exists (S n). econstructor; [by exists i|done].
Qed.

(** [primes_correct] on a run that makes 40 calls. *)
Lemma primes_correct_witness :
  let s := run next resume 121 61 (eager_schedule 3) primes_start in
  exists n ps, (forall p, p ∈ ps <-> prime p /\ p <= 280) /\ y_out s `prefix_of` concat (prime_text <$> ps) /\ (n <= steps0)%nat.
Proof.
  intros s. destruct (run_steps 121 61 (eager_schedule 3) primes_start) as [n Hn]. exists n.
  destruct (primes_correct 121 61 n s ltac:(lia) ltac:(lia) Hn) as (ps & _ & H1 & H2 & H3 & _). by exists ps.
Defined.

(** ** The kernel's own table of files is too small *)
Definition at_undef (x : uproc pc) : bool := match u_pc x with Undef => true | _ => false end.

Lemma undef_reached : existsb at_undef (y_procs (run next resume (Z.to_nat NFILE) (Z.to_nat NPROC - 2) (eager_schedule 226) primes_start)) = true.
Proof. vm_compute. reflexivity. Qed.

(** C37: With the kernel's tables, of which init and the shell use two process
    slots, there is a schedule in which a process of the sieve goes on with the
    descriptors of a pipe that could not be made: the table of files is full and
    the result of pipe() is not looked at. *)
Theorem primes_out_of_files :
  exists n s, nsteps (pstep (Z.to_nat NFILE) (Z.to_nat NPROC - 2)) n primes_start s /\ Exists (fun x => u_pc x = Undef) (y_procs s).
Proof.
  destruct (run_steps (Z.to_nat NFILE) (Z.to_nat NPROC - 2) (eager_schedule 226) primes_start) as [n Hn]. eexists n, _. split; [exact Hn|].
  pose proof undef_reached as E. revert E. generalize (y_procs (run next resume (Z.to_nat NFILE) (Z.to_nat NPROC - 2) (eager_schedule 226) primes_start)).
  intros l (x & Hin & Hx)%existsb_exists. apply Exists_exists. exists x. split; [by apply list_elem_of_In|]. unfold at_undef in Hx. by destruct (u_pc x).
Qed.
