(* ===== verification/Grep.v ===== *)
(** Grep (user/grep.c): the regular expression matcher against the language of
    the pattern, and the loop that searches a file in a buffer of 1024 bytes
    against the lines of the file. *)
From S2P Require Import Prelude Uprintf.

(** * The program

    A string is the list of its characters without the NUL. *)

Abbreviation CARET := 94.
Abbreviation DOT := 46.
Abbreviation STAR := 42.
Abbreviation DOLLAR := 36.
Abbreviation NL := 10.

(** [here] is [matchhere] of the rest of the expression. *)
Definition matchstar (c : Z) (here : list Z -> bool) : list Z -> bool :=
  fix loop text :=
    if here text then true
    else match text with
         | [] => false
         | t :: text => if (t =? c) || (c =? DOT) then loop text else false
         end.

Fixpoint matchhere (re text : list Z) {struct re} : bool :=
  match re with
  | [] => true
  | c :: re1 =>
      let one :=
        if (c =? DOLLAR) && bool_decide (re1 = []) then bool_decide (text = [])
        else match text with
             | [] => false
             | t :: text1 => if (c =? DOT) || (c =? t) then matchhere re1 text1 else false
             end in
      match re1 with
      | c1 :: re2 => if c1 =? STAR then matchstar c (matchhere re2) text else one
      | [] => one
      end
  end.

(** From each position of the text on, its end included. *)
Fixpoint match_loop (re text : list Z) : bool :=
  if matchhere re text then true
  else match text with
       | [] => false
       | _ :: text => match_loop re text
       end.

(** [match]; that is a keyword here. *)
Definition match_re (re text : list Z) : bool :=
  match re with
  | c :: re1 => if c =? CARET then matchhere re1 text else match_loop re text
  | [] => match_loop re text
  end.

(** strchr(p, '\n') up to the NUL: the characters before the newline and those
    after it. *)
Fixpoint find_newline (l : list Z) : option (list Z * list Z) :=
  match l with
  | [] => None
  | c :: l =>
      if c =? 0 then None
      else if c =? NL then Some ([], l)
      else match find_newline l with
           | Some (line, rest) => Some (c :: line, rest)
           | None => None
           end
  end.

(** while((q = strchr(p, '\n')) != 0): what is written, and what is left from
    [p] on. *)
Fixpoint grep_lines (fuel : nat) (pattern p out : list Z) : list Z * list Z :=
  match fuel with
  | O => (out, p)
  | S fuel =>
      match find_newline p with
      | Some (line, rest) => grep_lines fuel pattern rest (if match_re pattern line then out ++ line ++ [NL] else out)
      | None => (out, p)
      end
  end.

Definition BUFSZ : nat := 1024.

Section Read.
(** How many bytes the [i]th read can have at once. *)
Context (avail : nat -> nat).

(** read: some of the [input] that is left, at most [n] bytes; 0 at its end. *)
Definition read_bytes (i : nat) (input : list Z) (n : nat) : list Z * list Z :=
  let k := Nat.min (avail i) n in (take k input, drop k input).

(** [buf] are the [m] bytes at the start of the buffer. *)
Fixpoint grep_loop (fuel i : nat) (pattern buf input out : list Z) : option (list Z) :=
  match fuel with
  | O => None
  | S fuel =>
      let '(got, input) := read_bytes i input (BUFSZ - length buf - 1) in
      match got with
      | [] => Some out
      | _ =>
          let buf := buf ++ got in
          let '(out, p) := grep_lines (length buf) pattern buf out in
          grep_loop fuel (S i) pattern p input out
      end
  end.

(** Each round reads a byte at least. *)
Definition grep (pattern input : list Z) : option (list Z) := grep_loop (S (length input)) 0 pattern [] input [].

(** main: what goes to the standard output and to the standard error, and the
    exit status.  [file] gives the contents of the files that can be opened. *)
Context (file : list Z -> option (list Z)).
Fixpoint grep_files (pattern : list Z) (names : list (list Z)) (out : list Z) : option (list Z * list Z * Z) :=
  match names with
  | [] => Some (out, [], 0)
  | name :: names =>
      match file name with
      | None => Some (out ++ printf (chars "grep: cannot open %s" ++ [NL]) [UStr (Some name)], [], 1)
      | Some input => match grep pattern input with Some o => grep_files pattern names (out ++ o) | None => None end
      end
  end.
Definition grep_main (argv : list (list Z)) (stdin : list Z) : option (list Z * list Z * Z) :=
  match argv with
  | _ :: pattern :: names =>
      match names with
      | [] => match grep pattern stdin with Some o => Some (o, [], 0) | None => None end
      | _ => grep_files pattern names []
      end
  | _ => Some ([], fprintf (chars "usage: grep pattern [file ...]" ++ [NL]) [], 1)
  end.
End Read.

(** * The language of a pattern *)

Inductive atom : Type := AnyChar | Char (c : Z).
Inductive item : Type := One (a : atom) | Many (a : atom).
Record regexp : Type := mk_regexp { at_start : bool ; items : list item ; at_end : bool }.

Definition atom_of (c : Z) : atom := if c =? DOT then AnyChar else Char c.

Fixpoint parse_items (re : list Z) : list item * bool :=
  match re with
  | [] => ([], false)
  | c :: re1 =>
      match re1 with
      | [] => if c =? DOLLAR then ([], true) else ([One (atom_of c)], false)
      | c1 :: re2 =>
          if c1 =? STAR then let '(l, e) := parse_items re2 in (Many (atom_of c) :: l, e)
          else let '(l, e) := parse_items re1 in (One (atom_of c) :: l, e)
      end
  end.
Definition parse (re : list Z) : regexp :=
  let start := match re with c :: _ => c =? CARET | [] => false end in
  let '(l, e) := parse_items (if start then tail re else re) in mk_regexp start l e.

Definition in_atom (a : atom) (x : Z) : Prop := match a with AnyChar => True | Char c => x = c end.
Inductive in_items : list item -> list Z -> Prop :=
| in_nil : in_items [] []
| in_one a x l w : in_atom a x -> in_items l w -> in_items (One a :: l) (x :: w)
| in_many a u l w : Forall (in_atom a) u -> in_items l w -> in_items (Many a :: l) (u ++ w).

(** Some part of the text is in the language; the part is at the start or at the
    end where the expression asks for it. *)
Definition occurs (r : regexp) (text : list Z) : Prop :=
  exists pre mid post, text = pre ++ mid ++ post /\ in_items (items r) mid /\
    (at_start r = true -> pre = []) /\ (at_end r = true -> post = []).

(** * The matcher decides it *)

Definition here (p : list item * bool) (text : list Z) : Prop :=
  exists mid post, text = mid ++ post /\ in_items p.1 mid /\ (p.2 = true -> post = []).

Lemma in_atom_of c x : in_atom (atom_of c) x <-> (c =? DOT) || (c =? x) = true.
Proof. unfold atom_of. destruct (Z.eqb_spec c DOT); cbn; [done|]. rewrite Z.eqb_eq. split; congruence. Qed.

Lemma here_one a l e text : here (One a :: l, e) text <-> exists x text1, text = x :: text1 /\ in_atom a x /\ here (l, e) text1.
Proof.
  split.
  - intros (mid & post & -> & Hm & He). inversion Hm; subst. exists x, (w ++ post). split; [done|]. split; [done|]. by exists w, post.
  - intros (x & t & -> & Ha & mid & post & -> & Hm & He). exists (x :: mid), post. split; [done|]. split; [by constructor|done].
Qed.

Lemma here_many a l e text : here (Many a :: l, e) text <-> exists u text1, text = u ++ text1 /\ Forall (in_atom a) u /\ here (l, e) text1.
Proof.
  split.
  - intros (mid & post & -> & Hm & He). inversion Hm; subst. exists u, (w ++ post). rewrite app_assoc. split; [done|]. split; [done|]. by exists w, post.
  - intros (u & t & -> & Ha & mid & post & -> & Hm & He). exists (u ++ mid), post. rewrite app_assoc. split; [done|]. split; [by constructor|done].
Qed.

Lemma matchstar_spec c f (P : list Z -> Prop) text :
  (forall t, f t = true <-> P t) ->
  matchstar c f text = true <-> exists u text1, text = u ++ text1 /\ Forall (in_atom (atom_of c)) u /\ P text1.
Proof.
  intros Hf. induction text as [|t text IH]; cbn; destruct (f _) eqn:E.
  1,3: split; [|done]; intros _; eexists [], _; split; [done|]; split; [done|by apply Hf].
  - split; [done|]. intros (u & t1 & Et & _ & HP). symmetry in Et. apply app_eq_nil in Et as [-> ->]. apply Hf in HP. congruence.
  - assert (Ea : (t =? c) || (c =? DOT) = true <-> in_atom (atom_of c) t) by (rewrite in_atom_of, orb_comm, (Z.eqb_sym c t); done).
    split.
    + destruct ((t =? c) || (c =? DOT)); [|done]. intros (u & t1 & -> & Hu & HP)%IH. exists (t :: u), t1. split; [done|].
      split; [constructor; [by apply Ea|done]|done].
    + intros ([|x u] & t1 & Et & Hu & HP); cbn in Et; [subst t1; apply Hf in HP; congruence|]. injection Et as <- ->.
      apply Forall_cons in Hu as [Hx Hu]. rewrite (proj2 Ea Hx). apply IH. by exists u, t1.
Qed.

Lemma matchhere_two c c1 re2 text :
  matchhere (c :: c1 :: re2) text =
    if c1 =? STAR then matchstar c (matchhere re2) text
    else match text with [] => false | t :: text1 => if (c =? DOT) || (c =? t) then matchhere (c1 :: re2) text1 else false end.
Proof. cbn [matchhere]. by rewrite andb_false_r. Qed.

Lemma parse_items_two c c1 re2 :
  parse_items (c :: c1 :: re2) =
    if c1 =? STAR then let '(l, e) := parse_items re2 in (Many (atom_of c) :: l, e)
    else let '(l, e) := parse_items (c1 :: re2) in (One (atom_of c) :: l, e).
Proof. done. Qed.

Lemma matchhere_spec re : forall text, matchhere re text = true <-> here (parse_items re) text.
Proof.
  induction re as [[|c [|c1 re2]] IH] using (well_founded_induction (well_founded_ltof _ length)); intros text.
  - split; [|done]. intros _. exists [], text. split; [done|]. split; [constructor|done].
  - cbn. rewrite andb_true_r. destruct (c =? DOLLAR) eqn:Ed.
    + rewrite bool_decide_eq_true. split; [intros ->|].
      * exists [], []. split; [done|]. split; [constructor|done].
      * intros (mid & post & -> & Hm & He). inversion Hm; subst. by apply He.
    + rewrite here_one. split.
      * destruct text as [|t text]; [done|]. destruct ((c =? DOT) || (c =? t)) eqn:E; [|done]. intros _. exists t, text. split; [done|].
        split; [by apply in_atom_of|]. exists [], text. split; [done|]. split; [constructor|done].
      * intros (x & t & -> & Ha%in_atom_of & _). by rewrite Ha.
  - rewrite matchhere_two, parse_items_two. destruct (c1 =? STAR) eqn:Es.
    + rewrite (matchstar_spec c _ (here (parse_items re2))) by (apply IH; unfold ltof; cbn; lia). destruct (parse_items re2) as [l e]. by rewrite here_many.
    + assert (IH1 := IH (c1 :: re2) ltac:(unfold ltof; cbn; lia)). destruct (parse_items (c1 :: re2)) as [l e]. rewrite here_one. split.
      * destruct text as [|t text]; [done|]. destruct ((c =? DOT) || (c =? t)) eqn:E; [|done]. intros H. exists t, text. split; [done|].
        split; [by apply in_atom_of|by apply IH1].
      * intros (x & t & -> & Ha%in_atom_of & H). rewrite Ha. by apply IH1.
Qed.

Lemma match_loop_spec re text : match_loop re text = true <-> exists pre text1, text = pre ++ text1 /\ here (parse_items re) text1.
Proof.
  induction text as [|t text IH]; cbn [match_loop]; destruct (matchhere re _) eqn:E.
  1,3: split; [|done]; intros _; eexists [], _; split; [done|by apply matchhere_spec].
  - split; [done|]. intros (u & t1 & Et & HP). symmetry in Et. apply app_eq_nil in Et as [-> ->]. apply matchhere_spec in HP. congruence.
  - rewrite IH. split.
    + intros (pre & t1 & -> & H). by exists (t :: pre), t1.
    + intros ([|x pre] & t1 & Et & H); cbn in Et; [subst t1; apply matchhere_spec in H; congruence|]. injection Et as <- ->. by exists pre, t1.
Qed.

(** C38: The matcher of grep returns true exactly if some part of the text is in
    the language of the regular expression; that part starts at the start of the
    text if the expression starts with ^, and ends at its end if the expression
    ends with $. *)
Theorem match_regexp re text : match_re re text = true <-> occurs (parse re) text.
Proof.
  assert (Hloop : forall p, (exists pre t1, text = pre ++ t1 /\ here p t1) <-> occurs (mk_regexp false p.1 p.2) text).
  { intros p. split.
    - intros (pre & t1 & -> & mid & post & -> & Hm & He). exists pre, mid, post. done.
    - intros (pre & mid & post & -> & Hm & _ & He). exists pre, (mid ++ post). split; [done|]. by exists mid, post. }
  unfold match_re, parse. destruct re as [|c re1]; [rewrite match_loop_spec, Hloop; by destruct (parse_items [])|].
  destruct (c =? CARET).
  - rewrite matchhere_spec. cbn [tail]. destruct (parse_items re1) as [l e]. split.
    + intros (mid & post & -> & Hm & He). by exists [], mid, post.
    + intros (pre & mid & post & -> & Hm & Hs & He). rewrite (Hs eq_refl). by exists mid, post.
  - rewrite match_loop_spec, Hloop. by destruct (parse_items (c :: re1)).
Qed.

(** * The lines of a file *)

(** The lines of a text; what comes after the last newline is none. *)
Fixpoint lines (l : list Z) : list (list Z) :=
  match l with
  | [] => []
  | c :: l => if c =? NL then [] :: lines l else match lines l with [] => [] | x :: xs => (c :: x) :: xs end
  end.

(** The lines that the loop gets to: those before the first one that does not
    fit into the buffer or has a NUL in it. *)
Definition fits (x : list Z) : bool := (length x + 2 <=? BUFSZ)%nat && forallb (fun c => negb (c =? 0)) x.
Fixpoint searched (ls : list (list Z)) : list (list Z) :=
  match ls with
  | [] => []
  | x :: ls => if fits x then x :: searched ls else []
  end.
Definition selected (pattern : list Z) (ls : list (list Z)) : list Z :=
  concat ((fun x => x ++ [NL]) <$> filter (fun x => match_re pattern x = true) ls).

Lemma lines_prefix a l : NL ∉ a -> lines (a ++ l) = match lines l with [] => [] | x :: xs => (a ++ x) :: xs end.
Proof.
  induction a as [|c a IH]; intros Hn; cbn; [by destruct (lines l)|]. apply not_elem_of_cons in Hn as [Hc Hn].
  rewrite IH by done. destruct (Z.eqb_spec c NL); [congruence|]. by destruct (lines l).
Qed.

Lemma find_newline_Some l line rest :
  find_newline l = Some (line, rest) -> l = line ++ NL :: rest /\ NL ∉ line /\ forallb (fun c => negb (c =? 0)) line = true.
Proof.
  revert line. induction l as [|c l IH]; intros line H; [done|]. cbn in H. destruct (c =? 0) eqn:E0; [done|]. destruct (Z.eqb_spec c NL) as [->|Hc].
  - injection H as <- <-. split; [done|]. split; [apply not_elem_of_nil|done].
  - destruct (find_newline l) as [[x r]|]; [|done]. injection H as <- <-. destruct (IH x eq_refl) as (-> & Hn & Hz). cbn. rewrite E0, Hz.
    split; [done|]. split; [by apply not_elem_of_cons|done].
Qed.

Lemma find_newline_None l : find_newline l = None -> exists a b, l = a ++ b /\ NL ∉ a /\ (b = [] \/ hd_error b = Some 0).
Proof.
  induction l as [|c l IH]; intros H; [exists [], []; split; [done|]; split; [apply not_elem_of_nil|by left]|]. cbn in H. destruct (Z.eqb_spec c 0) as [->|E0].
  - exists [], (0 :: l). split; [done|]. split; [apply not_elem_of_nil|by right].
  - destruct (Z.eqb_spec c NL) as [->|Hc]; [done|]. destruct (find_newline l) as [[x r]|]; [done|]. destruct (IH eq_refl) as (a & b & -> & Ha & Hb).
    exists (c :: a), b. split; [done|]. split; [by apply not_elem_of_cons|done].
Qed.

(** Nothing more is searched once the buffer starts with a line that does not
    end in it and the input is used up or the buffer full. *)
Lemma searched_stop p input :
  find_newline p = None -> input = [] \/ (length p + 1 = BUFSZ)%nat -> searched (lines (p ++ input)) = [].
Proof.
  intros (a & b & -> & Ha & Hb)%find_newline_None Hstop. rewrite <- app_assoc, lines_prefix by done.
  destruct Hb as [->|Hb].
  - cbn. destruct (lines input) as [|x xs] eqn:El; [done|]. destruct Hstop as [->|Hlen]; [done|]. cbn. unfold fits. rewrite app_nil_r in Hlen.
    rewrite (proj2 (Nat.leb_gt _ _)); [done|]. rewrite length_app. lia.
  - destruct b as [|c b]; [done|]. injection Hb as ->. cbn. destruct (lines (b ++ input)) as [|x xs]; [done|]. cbn. unfold fits.
    rewrite forallb_app. cbn. by rewrite !andb_false_r.
Qed.

Lemma grep_lines_spec fuel pattern : forall p out input out' p',
  (length p <= fuel)%nat -> (length p + 1 <= BUFSZ)%nat -> grep_lines fuel pattern p out = (out', p') ->
  out' ++ selected pattern (searched (lines (p' ++ input))) = out ++ selected pattern (searched (lines (p ++ input))) /\
  find_newline p' = None /\ (length p' + 1 <= BUFSZ)%nat.
Proof.
  induction fuel as [|fuel IH]; intros p out input out' p' Hf Hl H; cbn in H.
  - injection H as <- <-. destruct p; [|cbn in Hf; lia]. split; [done|]. split; [done|exact Hl].
  - destruct (find_newline p) as [[line rest]|] eqn:E; [|by injection H as <- <-]. apply find_newline_Some in E as (-> & Hn & Hz).
    rewrite length_app in Hf, Hl. cbn in Hf, Hl. destruct (IH rest _ input out' p' ltac:(lia) ltac:(lia) H) as (E & H1 & H2). split; [|done].
    rewrite E, <- app_assoc, (lines_prefix line) by done. cbn. rewrite app_nil_r. unfold fits. rewrite Hz, (proj2 (Nat.leb_le _ _)) by lia. cbn [andb].
    unfold selected. rewrite filter_cons. destruct (match_re pattern line) eqn:Em; [rewrite decide_True by done|by rewrite decide_False by done].
    cbn [fmap list_fmap concat]. by rewrite !app_assoc.
Qed.

Lemma grep_loop_spec avail pattern : (forall i, (0 < avail i)%nat) -> forall fuel i buf input out,
  (length input < fuel)%nat -> (length buf + 1 <= BUFSZ)%nat -> find_newline buf = None ->
  grep_loop avail fuel i pattern buf input out = Some (out ++ selected pattern (searched (lines (buf ++ input)))).
Proof.
  intros Ha. induction fuel as [|fuel IH]; intros i buf input out Hf Hb Hn; [lia|]. cbn [grep_loop read_bytes]. specialize (Ha i).
  set (k := Nat.min (avail i) (BUFSZ - length buf - 1)). destruct (take k input) as [|g got] eqn:Eg.
  - rewrite searched_stop; [by rewrite app_nil_r|done|]. apply (f_equal length) in Eg. rewrite length_take in Eg. cbn in Eg.
    destruct input; [by left|]. right. cbn in Eg. unfold k in Eg. lia.
  - rewrite <- Eg. destruct (grep_lines (length (buf ++ take k input)) pattern (buf ++ take k input) out) as [out' p'] eqn:El.
    assert (Hk : (length (take k input) <= k)%nat) by (rewrite length_take; lia). pose proof (f_equal length Eg) as Eg'. rewrite length_take in Eg'. cbn in Eg'.
    assert (Hb' : (length (buf ++ take k input) + 1 <= BUFSZ)%nat) by (rewrite length_app; unfold k in *; lia).
    destruct (grep_lines_spec _ pattern _ out (drop k input) out' p' (le_n _) Hb' El) as (E & H1 & H2).
    rewrite IH; [|rewrite length_drop; lia|done|done]. rewrite E, <- app_assoc, take_drop. done.
Qed.

Lemma grep_spec avail pattern input :
  (forall i, (0 < avail i)%nat) -> grep avail pattern input = Some (selected pattern (searched (lines input))).
Proof. intros Ha. unfold grep. rewrite grep_loop_spec; [done|done|lia|unfold BUFSZ; cbn; lia|done]. Qed.

Lemma grep_files_spec avail file pattern names : (forall i, (0 < avail i)%nat) -> forall ins out,
  Forall2 (fun name input => file name = Some input) names ins ->
  grep_files avail file pattern names out = Some (out ++ concat ((fun input => selected pattern (searched (lines input))) <$> ins), [], 0).
Proof.
  intros Ha ins out H. revert out. induction H as [|name input names ins Hn _ IH]; intros out; cbn [grep_files fmap list_fmap concat]; [by rewrite app_nil_r|].
  rewrite Hn, grep_spec by done. by rewrite IH, app_assoc.
Qed.

(** C39: However many bytes at a time it can read, grep with a pattern and files
    ends with status 0 and has written exactly the lines of the files that match
    the pattern, in order, of each file up to the first line that is longer than
    the buffer or contains a NUL; what comes after the last newline of a file is
    not searched. *)
Theorem grep_correct avail file cmd pattern name names ins stdin :
  (forall i, (0 < avail i)%nat) -> Forall2 (fun name input => file name = Some input) (name :: names) ins ->
  grep_main avail file (cmd :: pattern :: name :: names) stdin =
    Some (concat ((fun input => selected pattern (searched (lines input))) <$> ins), [], 0).
Proof. intros Ha H. cbn [grep_main]. by rewrite (grep_files_spec avail file pattern _ Ha ins). Qed.

(** [grep_correct] on three lines read three bytes at a time. *)
Lemma grep_correct_witness :
  let input := chars "abc" ++ [NL] ++ chars "xabc" ++ [NL] ++ chars "ac" ++ [NL] in
  (forall i : nat, (0 < 3)%nat) /\
  grep_main (fun _ => 3%nat) (fun _ => Some input) [chars "grep"; chars "^a.*c$"; chars "f"] [] = Some (chars "abc" ++ [NL] ++ chars "ac" ++ [NL], [], 0).
Proof.
  intros input. split; [lia|]. rewrite (grep_correct (fun _ => 3%nat) (fun _ => Some input) (chars "grep") (chars "^a.*c$") (chars "f") [] [input] []);
    [reflexivity|lia|by constructor].
Defined.
