(* ===== verification/Sh.v ===== *)
(** The parser of the shell (user/sh.c): it turns a line into a tree of commands
    whose words are pointers into the line, and ends them with NULs in place. *)
From S2P Require Import Prelude Sysfile.

Definition whitespace : list Z := [32; 9; 13; 10; 11].
Definition symbols : list Z := chars "<|>&;()".
Definition MAXARGS : nat := 10.

(** strchr(l, c) != 0 *)
Definition strchr (l : list Z) (c : Z) : bool := existsb (Z.eqb c) l.

(** The commands, over the type of strings: pairs of pointers to the start and
    the end while the line is parsed. *)
Inductive cmd (A : Type) : Type :=
| EXEC (argv : list A)
| REDIR (c : cmd A) (file : A) (mode fd : Z)
| PIPE (left right : cmd A)
| LIST (left right : cmd A)
| BACK (c : cmd A).
Arguments EXEC {A}.
Arguments REDIR {A}.
Arguments PIPE {A}.
Arguments LIST {A}.
Arguments BACK {A}.

(** panic ends the process. *)
Inductive res (A : Type) : Type := POk (a : A) (pos : nat) | PPanic (msg : string) | PFuel.
Arguments POk {A}.
Arguments PPanic {A}.
Arguments PFuel {A}.

Definition pbind {A B} (r : res A) (f : A -> nat -> res B) : res B :=
  match r with POk a pos => f a pos | PPanic msg => PPanic msg | PFuel => PFuel end.
Local Notation "r '>>:' f" := (pbind r f) (at level 60, right associativity).

(** while(s < es && P( *s)) s++; *)
Fixpoint skip_while (n : nat) (P : Z -> bool) (s : list Z) (pos : nat) : nat :=
  match n with
  | O => pos
  | S n => if P (default 0 (s !! pos)) then skip_while n P s (S pos) else pos
  end.

Section Parser.
(** The line, up to its NUL; a pointer into it is an index. *)
Context (s : list Z).
Let es : nat := length s.
Let deref (pos : nat) : Z := default 0 (s !! pos).

Definition is_space (c : Z) : bool := strchr whitespace c.
Definition is_word (c : Z) : bool := negb (strchr whitespace c) && negb (strchr symbols c).
Definition skip (P : Z -> bool) (pos : nat) : nat := skip_while (es - pos) P s pos.

(** The token, where it starts and ends, and where the next one starts. *)
Definition gettoken (pos : nat) : Z * nat * nat * nat :=
  let q := skip is_space pos in
  let c := deref q in
  let '(ret, eq) :=
    if c =? 0 then (c, q)
    else if strchr (chars "|();&<") c then (c, S q)
    else if c =? 62 then (if deref (S q) =? 62 then (43, S (S q)) else (c, S q))
    else (97, skip is_word q) in
  (ret, q, eq, skip is_space eq).

Definition peek (pos : nat) (toks : list Z) : bool * nat :=
  let pos := skip is_space pos in
  (negb (deref pos =? 0) && strchr toks (deref pos), pos).

Definition span : Type := nat * nat.

(** A redirection: the file, the mode and the descriptor. *)
Definition redir : Type := span * Z * Z.
Definition redircmd (c : cmd span) (r : redir) : cmd span := REDIR c r.1.1 r.1.2 r.2.
Definition redir_of (tok : Z) (q eq : nat) : redir :=
  if tok =? 60 then (q, eq, O_RDONLY, 0)
  else if tok =? 62 then (q, eq, Z.lor (Z.lor O_WRONLY O_CREATE) O_TRUNC, 1)
  else (q, eq, Z.lor O_WRONLY O_CREATE, 1).

(** The redirections around a command, the innermost one first; the command
    itself is filled in while they are read. *)
Fixpoint parseredirs (fuel : nat) (rs : list redir) (pos : nat) : res (list redir) :=
  match fuel with
  | O => PFuel
  | S fuel =>
      let '(b, pos) := peek pos (chars "<>") in
      if b then
        let '(tok, _, _, pos) := gettoken pos in
        let '(t, q, eq, pos) := gettoken pos in
        if negb (t =? 97) then PPanic "missing file for redirection"
        else parseredirs fuel (rs ++ [redir_of tok q eq]) pos
      else POk rs pos
  end.

(** The loop of parseexec. *)
Fixpoint parseargs (fuel : nat) (argv : list span) (rs : list redir) (pos : nat) : res (list span * list redir) :=
  match fuel with
  | O => PFuel
  | S fuel =>
      let '(b, pos) := peek pos (chars "|)&;") in
      if b then POk (argv, rs) pos
      else
        let '(tok, q, eq, pos) := gettoken pos in
        if tok =? 0 then POk (argv, rs) pos
        else if negb (tok =? 97) then PPanic "syntax"
        else
          let argv := argv ++ [(q, eq)] in
          if (MAXARGS <=? length argv)%nat then PPanic "too many args"
          else parseredirs (S es) rs pos >>: fun rs pos => parseargs fuel argv rs pos
  end.

(** The first loop of parseline. *)
Fixpoint parseback (fuel : nat) (c : cmd span) (pos : nat) : res (cmd span) :=
  match fuel with
  | O => PFuel
  | S fuel =>
      let '(b, pos) := peek pos (chars "&") in
      if b then let '(_, _, _, pos) := gettoken pos in parseback fuel (BACK c) pos else POk c pos
  end.

Fixpoint parseline (fuel pos : nat) : res (cmd span) :=
  match fuel with
  | O => PFuel
  | S fuel =>
      parsepipe fuel pos >>: fun c pos =>
      parseback (S es) c pos >>: fun c pos =>
      let '(b, pos) := peek pos (chars ";") in
      if b then
        let '(_, _, _, pos) := gettoken pos in
        parseline fuel pos >>: fun c' pos => POk (LIST c c') pos
      else POk c pos
  end
with parsepipe (fuel pos : nat) : res (cmd span) :=
  match fuel with
  | O => PFuel
  | S fuel =>
      parseexec fuel pos >>: fun c pos =>
      let '(b, pos) := peek pos (chars "|") in
      if b then
        let '(_, _, _, pos) := gettoken pos in
        parsepipe fuel pos >>: fun c' pos => POk (PIPE c c') pos
      else POk c pos
  end
with parseexec (fuel pos : nat) : res (cmd span) :=
  match fuel with
  | O => PFuel
  | S fuel =>
      let '(b, pos) := peek pos (chars "(") in
      if b then parseblock fuel pos
      else
        parseredirs (S es) [] pos >>: fun rs pos =>
        parseargs (S es) [] rs pos >>: fun x pos =>
        POk (foldl redircmd (EXEC x.1) x.2) pos
  end
with parseblock (fuel pos : nat) : res (cmd span) :=
  match fuel with
  | O => PFuel
  | S fuel =>
      let '(b, pos) := peek pos (chars "(") in
      if negb b then PPanic "parseblock"
      else
        let '(_, _, _, pos) := gettoken pos in
        parseline fuel pos >>: fun c pos =>
        let '(b, pos) := peek pos (chars ")") in
        if negb b then PPanic "syntax - missing )"
        else
          let '(_, _, _, pos) := gettoken pos in
          parseredirs (S es) [] pos >>: fun rs pos =>
          POk (foldl redircmd c rs) pos
  end.

(** nulterminate on the line with its NUL. *)
Fixpoint nulterminate (c : cmd span) (buf : list Z) : list Z :=
  match c with
  | EXEC argv => foldl (fun buf a => <[a.2 := 0]> buf) buf argv
  | REDIR c file _ _ => <[file.2 := 0]> (nulterminate c buf)
  | PIPE l r | LIST l r => nulterminate r (nulterminate l buf)
  | BACK c => nulterminate c buf
  end.

(** A round of the four routines uses up a character. *)
Definition parsecmd : res (cmd span * list Z) :=
  parseline (4 * es + 4) 0 >>: fun c pos =>
  let '(_, pos) := peek pos [] in
  if negb (pos =? es)%nat then PPanic "syntax"
  else POk (c, nulterminate c (s ++ [0])) pos.
End Parser.

(** The string at an index of a buffer. *)
Fixpoint cstring (l : list Z) : list Z :=
  match l with
  | [] => []
  | c :: l => if c =? 0 then [] else c :: cstring l
  end.

(** The command as runcmd sees it. *)
Fixpoint read_cmd (buf : list Z) (c : cmd span) : cmd (list Z) :=
  let str (a : span) := cstring (drop a.1 buf) in
  match c with
  | EXEC argv => EXEC (str <$> argv)
  | REDIR c file mode fd => REDIR (read_cmd buf c) (str file) mode fd
  | PIPE l r => PIPE (read_cmd buf l) (read_cmd buf r)
  | LIST l r => LIST (read_cmd buf l) (read_cmd buf r)
  | BACK c => BACK (read_cmd buf c)
  end.
