(* ===== verification/ShSpec.v ===== *)
(** The parser of the shell against the grammar of its commands: a line that
    spells a command is parsed to that command, with its words read back from
    the line, and every line is parsed or rejected in finitely many steps. *)
From S2P Require Import Prelude Sysfile Sh.

(** * Tokens *)

Inductive token : Type := Sym (c : Z) | Append | Word (w : list Z).

Definition spelled (t : token) : list Z := match t with Sym c => [c] | Append => [62; 62] | Word w => w end.
(** What [gettoken] returns. *)
Definition kind (t : token) : Z := match t with Sym c => c | Append => 43 | Word _ => 97 end.
Definition token_ok (t : token) : Prop :=
  match t with
  | Sym c => strchr symbols c = true
  | Append => True
  | Word w => w <> [] /\ Forall (fun c => c <> 0 /\ is_word c = true) w
  end.

Definition stops (P : Z -> bool) (l : list Z) : Prop := match l with c :: _ => P c = false | [] => True end.

(** The characters after a token do not make it longer. *)
Definition ends (t : token) (rest : list Z) : Prop :=
  match t with Sym c => c = 62 -> stops (Z.eqb 62) rest | Append => True | Word _ => stops is_word rest end.

(** A text is a sequence of tokens with white space around them. *)
Inductive spells : list token -> list Z -> Prop :=
| sp_nil w : Forall (fun c => is_space c = true) w -> spells [] w
| sp_cons w t ts rest :
    Forall (fun c => is_space c = true) w -> token_ok t -> ends t rest -> spells ts rest -> spells (t :: ts) (w ++ spelled t ++ rest).

(** * Commands *)

Inductive rkind : Type := RIn | ROut | RApp.
Inductive elem : Type := EWord (w : list Z) | ERedir (k : rkind) (file : list Z).
Inductive simple : Type :=
| SExec (es : list elem)
| SBlock (l : line) (rs : list (rkind * list Z))
with pipeline : Type :=
| POne (x : simple)
| PMore (x : simple) (p : pipeline)
with line : Type :=
| LOne (p : pipeline) (bg : nat)
| LSeq (p : pipeline) (bg : nat) (l : line).

Definition rtoken (k : rkind) : token := match k with RIn => Sym 60 | ROut => Sym 62 | RApp => Append end.
Definition redir_tokens (r : rkind * list Z) : list token := [rtoken r.1; Word r.2].
Definition elem_tokens (e : elem) : list token := match e with EWord w => [Word w] | ERedir k f => redir_tokens (k, f) end.

Fixpoint simple_tokens (x : simple) : list token :=
  match x with
  | SExec es => concat (elem_tokens <$> es)
  | SBlock l rs => Sym 40 :: line_tokens l ++ Sym 41 :: concat (redir_tokens <$> rs)
  end
with pipe_tokens (p : pipeline) : list token :=
  match p with
  | POne x => simple_tokens x
  | PMore x p => simple_tokens x ++ Sym 124 :: pipe_tokens p
  end
with line_tokens (l : line) : list token :=
  match l with
  | LOne p bg => pipe_tokens p ++ repeat (Sym 38) bg
  | LSeq p bg l => pipe_tokens p ++ repeat (Sym 38) bg ++ Sym 59 :: line_tokens l
  end.

(** The command that a line stands for. *)
Definition redir_cmd (c : cmd (list Z)) (r : rkind * list Z) : cmd (list Z) :=
  match r.1 with
  | RIn => REDIR c r.2 O_RDONLY 0
  | ROut => REDIR c r.2 (Z.lor (Z.lor O_WRONLY O_CREATE) O_TRUNC) 1
  | RApp => REDIR c r.2 (Z.lor O_WRONLY O_CREATE) 1
  end.
Definition words (es : list elem) : list (list Z) := omap (fun e => match e with EWord w => Some w | _ => None end) es.
Definition redirs (es : list elem) : list (rkind * list Z) := omap (fun e => match e with ERedir k f => Some (k, f) | _ => None end) es.

Fixpoint simple_cmd (x : simple) : cmd (list Z) :=
  match x with
  | SExec es => foldl redir_cmd (EXEC (words es)) (redirs es)
  | SBlock l rs => foldl redir_cmd (line_cmd l) rs
  end
with pipe_cmd (p : pipeline) : cmd (list Z) :=
  match p with
  | POne x => simple_cmd x
  | PMore x p => PIPE (simple_cmd x) (pipe_cmd p)
  end
with line_cmd (l : line) : cmd (list Z) :=
  match l with
  | LOne p bg => Nat.iter bg BACK (pipe_cmd p)
  | LSeq p bg l => LIST (Nat.iter bg BACK (pipe_cmd p)) (line_cmd l)
  end.

(** At most nine words in a command. *)
Fixpoint simple_ok (x : simple) : Prop :=
  match x with
  | SExec es => (length (words es) < MAXARGS)%nat
  | SBlock l rs => line_ok l
  end
with pipe_ok (p : pipeline) : Prop :=
  match p with
  | POne x => simple_ok x
  | PMore x p => simple_ok x /\ pipe_ok p
  end
with line_ok (l : line) : Prop :=
  match l with
  | LOne p bg => pipe_ok p
  | LSeq p bg l => pipe_ok p /\ line_ok l
  end.

Scheme simple_mut := Induction for simple Sort Prop
with pipeline_mut := Induction for pipeline Sort Prop
with line_mut := Induction for line Sort Prop.
Combined Scheme grammar_ind from simple_mut, pipeline_mut, line_mut.

(** * The tokens of a line *)

Lemma symbol_cases c : strchr symbols c = true -> c = 60 \/ c = 124 \/ c = 62 \/ c = 38 \/ c = 59 \/ c = 40 \/ c = 41.
Proof.
  change symbols with [60; 124; 62; 38; 59; 40; 41]. intros (x & Hx & <-%Z.eqb_eq)%existsb_exists. cbn in Hx. intuition.
Qed.

Section Line.
Context (s : list Z).
Abbreviation es := (length s).

Lemma drop_cons pos c l : drop pos s = c :: l -> s !! pos = Some c /\ drop (S pos) s = l /\ (S pos <= es)%nat.
Proof.
  intros H. assert (Hp : s !! pos = Some c) by (rewrite <- (Nat.add_0_r pos), <- lookup_drop, H; done). split; [done|].
  pose proof (lookup_lt_Some _ _ _ Hp). split; [|lia]. rewrite (drop_S _ _ _ Hp) in H. by injection H.
Qed.

Lemma skip_while_app P w : forall n pos rest, drop pos s = w ++ rest -> n = length (w ++ rest) -> Forall (fun c => P c = true) w -> stops P rest ->
  skip_while n P s pos = (pos + length w)%nat.
Proof.
  induction w as [|c w IH]; intros n pos rest Hd -> Hw Hr.
  - cbn in Hd. rewrite Nat.add_0_r. destruct rest as [|c rest]; [done|]. destruct (drop_cons _ _ _ Hd) as (Hp & _). cbn. by rewrite Hp, Hr.
  - apply Forall_cons in Hw as [Hc Hw]. destruct (drop_cons _ _ _ Hd) as (Hp & Hd' & _). cbn. rewrite Hp. cbn. rewrite Hc, (IH _ (S pos) rest) by done. lia.
Qed.

Lemma skip_app P pos w rest : drop pos s = w ++ rest -> Forall (fun c => P c = true) w -> stops P rest -> skip s P pos = (pos + length w)%nat.
Proof. intros Hd Hw Hr. unfold skip. apply (skip_while_app P w _ pos rest); [done| |done|done]. by rewrite <- Hd, length_drop. Qed.

Lemma drop_app_eq pos w rest : drop pos s = w ++ rest -> drop (pos + length w) s = rest.
Proof. intros H. by rewrite <- drop_drop, H, drop_app_length. Qed.

(** From [pos] on the line spells the tokens [ts]. *)
Definition at_tokens (pos : nat) (ts : list token) : Prop := spells ts (drop pos s) /\ (pos <= es)%nat.

Lemma token_head t : token_ok t -> exists c l, spelled t = c :: l /\ is_space c = false /\ c <> 0 /\
  match t with Sym x => c = x | Append => c = 62 | Word _ => strchr symbols c = false end.
Proof.
  destruct t as [c| |[|c w]]; cbn [token_ok spelled]; intros H.
  - exists c, []. split; [done|]. by apply symbol_cases in H; destruct_or! H; subst.
  - by exists 62, [62].
  - by destruct H.
  - destruct H as [_ [[H0 Hw] _]%Forall_cons]. exists c, w. split; [done|]. apply andb_true_iff in Hw as [Hs Hy]. apply negb_true_iff in Hs, Hy. done.
Qed.

Lemma skip_tokens pos ts :
  at_tokens pos ts -> let p := skip s is_space pos in at_tokens p ts /\ (pos <= p)%nat /\
  match ts with [] => p = es | t :: ts' => exists rest, drop p s = spelled t ++ rest /\ token_ok t /\ ends t rest /\ spells ts' rest end.
Proof.
  intros [Hsp Hp]. remember (drop pos s) as l eqn:E2. symmetry in E2. destruct Hsp as [w Hw|w t ts' rest Hw Hok He Hr].
  - assert (Es : skip s is_space pos = (pos + length w)%nat) by (apply (skip_app _ _ w []); [by rewrite app_nil_r|done|done]).
    assert (El : (pos + length w)%nat = es) by (rewrite <- E2, length_drop; lia). cbn zeta. rewrite Es, El. split; [|split; [lia|done]]. split; [|done].
    rewrite drop_all. by constructor.
  - destruct (token_head t Hok) as (c & l & Ec & Hc & _). assert (Hd : drop pos s = w ++ spelled t ++ rest) by done.
    assert (Es : skip s is_space pos = (pos + length w)%nat) by (apply (skip_app _ _ w (spelled t ++ rest)); [done|done|by rewrite Ec]).
    cbn zeta. rewrite Es. pose proof (drop_app_eq _ _ _ Hd) as Hd'. split; [|split; [lia|by exists rest]]. split.
    + rewrite Hd'. change (spelled t ++ rest) with ([] ++ spelled t ++ rest). by constructor.
    + apply (f_equal length) in Hd. rewrite length_app, length_drop in Hd. lia.
Qed.

Lemma peek_tokens pos ts toks :
  at_tokens pos ts -> exists p, peek s pos toks = (match ts with t :: _ => strchr toks (hd 0 (spelled t)) | [] => false end, p) /\ at_tokens p ts /\ (pos <= p)%nat.
Proof.
  intros H. destruct (skip_tokens pos ts H) as (H1 & H2 & H3). exists (skip s is_space pos). split; [|done]. unfold peek. f_equal.
  destruct ts as [|t ts].
  - by rewrite H3, lookup_ge_None_2.
  - destruct H3 as (rest & Hd & Hok & _). destruct (token_head t Hok) as (c & l & Ec & _ & H0 & _). rewrite Ec in *. cbn in Hd.
    destruct (drop_cons _ _ _ Hd) as (-> & _). cbn. by rewrite (proj2 (Z.eqb_neq _ _)).
Qed.

Lemma drop_head q l : drop q s = l -> default 0 (s !! q) = hd 0 l.
Proof. intros H. rewrite <- (Nat.add_0_r q), <- lookup_drop, H. by destruct l. Qed.

(** A word of the line: where it starts and ends. *)
Definition span_of (a : span) (w : list Z) : Prop :=
  drop a.1 s = w ++ drop a.2 s /\ a.2 = (a.1 + length w)%nat /\ (a.2 <= es)%nat /\ Forall (fun c => c <> 0 /\ is_word c = true) w /\ stops is_word (drop a.2 s).

Lemma word_head c : is_word c = true -> c <> 0 -> (c =? 0) = false /\ strchr (chars "|();&<") c = false /\ (c =? 62) = false.
Proof.
  intros [_ Hw%negb_true_iff]%andb_true_iff H0. change symbols with [60; 124; 62; 38; 59; 40; 41] in Hw. change (chars "|();&<") with [124; 40; 41; 59; 38; 60].
  unfold strchr in *. cbn [existsb] in *. rewrite !orb_false_iff in *. split; [by apply Z.eqb_neq|]. intuition.
Qed.

Lemma gettoken_tokens pos t ts :
  at_tokens pos (t :: ts) -> exists q eq p, gettoken s pos = (kind t, q, eq, p) /\ at_tokens p ts /\ (pos < p)%nat /\ forall w, t = Word w -> span_of (q, eq) w.
Proof.
  intros H. destruct (skip_tokens pos _ H) as (_ & Hq & rest & Hd & Hok & He & Hr). unfold gettoken. set (q := skip s is_space pos) in *.
  assert (Heq : exists eq, drop eq s = rest /\ eq = (q + length (spelled t))%nat /\
    (if default 0 (s !! q) =? 0 then (default 0 (s !! q), q)
     else if strchr (chars "|();&<") (default 0 (s !! q)) then (default 0 (s !! q), S q)
     else if default 0 (s !! q) =? 62 then (if default 0 (s !! S q) =? 62 then (43, S (S q)) else (default 0 (s !! q), S q))
     else (97, skip s is_word q)) = (kind t, eq)).
  { exists (q + length (spelled t))%nat. split; [by apply drop_app_eq|]. split; [done|]. destruct t as [c| |w]; cbn [spelled] in Hd.
    - destruct (drop_cons _ _ _ Hd) as (-> & Hd' & _). cbn [default id spelled length kind]. rewrite Nat.add_1_r, (drop_head _ _ Hd').
      apply symbol_cases in Hok. destruct_or! Hok; subst c; try done. cbn in He. specialize (He eq_refl). destruct rest as [|x rest]; [done|].
      cbn [hd stops] in *. by rewrite (Z.eqb_sym x), He.
    - destruct (drop_cons _ _ _ Hd) as (-> & Hd' & _). destruct (drop_cons _ _ _ Hd') as (-> & _). cbn. f_equal. lia.
    - destruct Hok as [Hne Hw]. assert (Hw' : Forall (fun c => is_word c = true) w) by (by eapply Forall_impl; [exact Hw|intros ? []]).
      rewrite (skip_app is_word q w rest) by done. destruct w as [|c w]; [done|].
      destruct (drop_cons _ _ _ Hd) as (-> & _). apply Forall_cons in Hw as [[H0 Hc] _]. destruct (word_head c Hc H0) as (E1 & E2 & E3). cbn [default id].
      by rewrite E1, E2, E3. }
  destruct Heq as (eq & Hde & Hl & E). rewrite E. pose proof (f_equal length Hde) as Hlen. rewrite length_drop in Hlen. pose proof (f_equal length Hd) as Hlq. rewrite length_drop, length_app in Hlq.
  destruct (token_head t Hok) as (c & l & Ec & _). assert (Hlt : (0 < length (spelled t))%nat) by (rewrite Ec; cbn; lia).
  assert (Ha : at_tokens eq ts) by (split; [by rewrite Hde|lia]). destruct (skip_tokens eq ts Ha) as (Hp & Hle & _).
  exists q, eq, (skip s is_space eq). split; [done|]. split; [done|]. split; [lia|]. intros w ->. destruct Hok as [_ Hw]. cbn in Hl, Hd.
  split; cbn [fst snd]; [by rewrite Hde|]. split; [done|]. split; [exact (proj2 Ha)|]. split; [done|]. by rewrite Hde.
Qed.

Lemma gettoken_end pos : at_tokens pos [] -> exists q eq p, gettoken s pos = (0, q, eq, p) /\ at_tokens p [] /\ (pos <= p)%nat.
Proof.
  intros H. destruct (skip_tokens pos _ H) as (Ha & L & Hq). unfold gettoken. rewrite Hq, lookup_ge_None_2 by lia. cbn [default Z.eqb].
  eexists _, _, _. split; [done|]. rewrite Hq in Ha, L. destruct (skip_tokens _ _ Ha) as (H1 & H2 & _). split; [done|lia].
Qed.

(** ** The routines of the parser *)

(** A tree over the line stands for a command. *)
Inductive denotes : cmd span -> cmd (list Z) -> Prop :=
| d_exec argv ws : Forall2 span_of argv ws -> denotes (EXEC argv) (EXEC ws)
| d_redir c d a f mode fd : denotes c d -> span_of a f -> denotes (REDIR c a mode fd) (REDIR d f mode fd)
| d_pipe c d c' d' : denotes c d -> denotes c' d' -> denotes (PIPE c c') (PIPE d d')
| d_list c d c' d' : denotes c d -> denotes c' d' -> denotes (LIST c c') (LIST d d')
| d_back c d : denotes c d -> denotes (BACK c) (BACK d).

Definition redir_denotes (r : redir) (x : rkind * list Z) : Prop :=
  span_of r.1.1 x.2 /\ r = redir_of (kind (rtoken x.1)) r.1.1.1 r.1.1.2.

Lemma denotes_redirs rs xs : Forall2 redir_denotes rs xs -> forall c d, denotes c d -> denotes (foldl redircmd c rs) (foldl redir_cmd d xs).
Proof.
  induction 1 as [|r x rs xs [Hs Hr] _ IH]; intros c d Hd; [done|]. cbn [foldl]. apply IH. rewrite Hr. destruct x as [[] f]; cbn in *; by constructor.
Qed.

(** The next token is one of some symbols, or there is none. *)
Definition follow (l : list Z) (ts : list token) : Prop := match ts with [] => True | t :: _ => exists c, t = Sym c /\ c ∈ l end.

Lemma follow_peek l toks ts : follow l ts -> forallb (fun c => negb (strchr toks c)) l = true ->
  match ts with t :: _ => strchr toks (hd 0 (spelled t)) | [] => false end = false.
Proof.
  destruct ts as [|t ts]; [done|]. intros (c & -> & Hc) H. cbn. rewrite forallb_forall in H. by apply negb_true_iff, H, list_elem_of_In.
Qed.

Lemma word_peek w toks : token_ok (Word w) -> forallb (strchr symbols) toks = true -> strchr toks (hd 0 w) = false.
Proof.
  intros Hok Ht. destruct (token_head _ Hok) as (c & l & Ec & _ & _ & Hc). cbn in Ec. subst w. cbn. apply not_true_iff_false. intros H.
  apply existsb_exists in H as (x & Hx & <-%Z.eqb_eq). rewrite forallb_forall in Ht. rewrite Ht in Hc; done.
Qed.

Lemma at_token_ok pos t ts : at_tokens pos (t :: ts) -> token_ok t.
Proof. intros H. by destruct (skip_tokens pos _ H) as (_ & _ & rest & _ & Hok & _). Qed.

Lemma redir_step fuel acc pos k f ts :
  at_tokens pos (redir_tokens (k, f) ++ ts) ->
  exists r p, parseredirs s (S fuel) acc pos = parseredirs s fuel (acc ++ [r]) p /\ at_tokens p ts /\ (pos < p)%nat /\ redir_denotes r (k, f).
Proof.
  intros H. cbn in H. destruct (peek_tokens pos _ (chars "<>") H) as (p0 & E0 & H0 & L0).
  destruct (gettoken_tokens p0 _ _ H0) as (q1 & e1 & p1 & E1 & H1 & L1 & _). destruct (gettoken_tokens p1 _ _ H1) as (q & eq & p & E & H2 & L2 & Hw).
  exists (redir_of (kind (rtoken k)) q eq), p. cbn [parseredirs]. rewrite E0, E1, E. split; [by destruct k|]. split; [done|]. split; [lia|].
  specialize (Hw f eq_refl). by destruct k.
Qed.

Lemma redirs_end fuel acc pos ts :
  at_tokens pos ts -> match ts with t :: _ => strchr (chars "<>") (hd 0 (spelled t)) | [] => false end = false ->
  exists p, parseredirs s (S fuel) acc pos = POk acc p /\ at_tokens p ts /\ (pos <= p)%nat.
Proof. intros H Hf. destruct (peek_tokens pos _ (chars "<>") H) as (p & E & H' & L). exists p. cbn [parseredirs]. rewrite E, Hf. done. Qed.

Lemma parseredirs_ok rs : forall fuel acc pos ts,
  at_tokens pos (concat (redir_tokens <$> rs) ++ ts) -> (es - pos < fuel)%nat ->
  match ts with t :: _ => strchr (chars "<>") (hd 0 (spelled t)) | [] => false end = false ->
  exists rs' p, parseredirs s fuel acc pos = POk (acc ++ rs') p /\ at_tokens p ts /\ (pos <= p)%nat /\ Forall2 redir_denotes rs' rs.
Proof.
  induction rs as [|[k f] rs IH]; intros fuel acc pos ts H Hfu Hf; (destruct fuel as [|fuel]; [lia|]).
  - destruct (redirs_end fuel acc pos ts H Hf) as (p & E & H' & L). exists [], p. rewrite app_nil_r. by split_and!.
  - cbn [fmap list_fmap concat] in H. rewrite <- app_assoc in H. destruct (redir_step fuel acc pos k f _ H) as (r & p & E & H' & L & Hr). rewrite E.
    destruct (IH fuel (acc ++ [r]) p ts H' ltac:(destruct H'; lia) Hf) as (rs' & p' & E' & H2 & L' & Hrs). exists (r :: rs'), p'. rewrite E', <- app_assoc.
    split_and!; try done; [lia|by constructor].
Qed.

Lemma parseexec_rest elems : forall fr fa argv rs pos ts,
  at_tokens pos (concat (elem_tokens <$> elems) ++ ts) -> follow [124; 41; 38; 59] ts -> (es - pos < fr)%nat -> (es - pos < fa)%nat ->
  (length argv + length (words elems) < MAXARGS)%nat ->
  exists argv' rs' p, pbind (parseredirs s fr rs pos) (fun rs pos => parseargs s fa argv rs pos) = POk (argv ++ argv', rs ++ rs') p /\
    at_tokens p ts /\ (pos <= p)%nat /\ Forall2 span_of argv' (words elems) /\ Forall2 redir_denotes rs' (redirs elems).
Proof.
  induction elems as [|e elems IH]; intros fr fa argv rs pos ts H Hfo Hfr Hfa Hlen; (destruct fr as [|fr]; [lia|]); (destruct fa as [|fa]; [lia|]).
  - cbn in H. destruct (redirs_end fr rs pos ts H) as (p & E & H' & L); [by apply (follow_peek _ _ _ Hfo)|]. rewrite E. cbn [pbind parseargs].
    destruct (peek_tokens p _ (chars "|)&;") H') as (p1 & E1 & H1 & L1). rewrite E1. destruct ts as [|t ts].
    + destruct (gettoken_end p1 H1) as (q & eq & p2 & E2 & H2 & L2). rewrite E2. exists [], [], p2. rewrite !app_nil_r. split_and!; try done; try constructor. lia.
    + destruct Hfo as (c & -> & Hc). cbn [spelled hd]. exists [], [], p1. rewrite !app_nil_r.
      assert (strchr (chars "|)&;") c = true) as -> by (rewrite !elem_of_cons, elem_of_nil in Hc; by destruct_or! Hc; subst c).
      split_and!; try done; try constructor. lia.
  - cbn [fmap list_fmap concat] in H. rewrite <- app_assoc in H. destruct e as [w|k f].
    + cbn [elem_tokens app] in H. pose proof (at_token_ok _ _ _ H) as Hok. destruct (redirs_end fr rs pos _ H) as (p & E & H' & L); [by apply (word_peek w)|].
      rewrite E. cbn [pbind parseargs]. destruct (peek_tokens p _ (chars "|)&;") H') as (p1 & E1 & H1 & L1). rewrite E1. cbn [spelled]. rewrite (word_peek w) by done.
      destruct (gettoken_tokens p1 _ _ H1) as (q & eq & p2 & E2 & H2 & L2 & Hw). rewrite E2. cbn [kind Z.eqb Pos.eqb negb]. change (length (words (EWord w :: elems))) with (S (length (words elems))) in Hlen.
      rewrite length_app, (proj2 (Nat.leb_gt _ _)) by (cbn [length]; lia).
      destruct (IH (S es) fa (argv ++ [(q, eq)]) rs p2 ts H2 Hfo ltac:(lia) ltac:(destruct H2; lia)) as (argv' & rs' & p3 & E3 & H3 & L3 & Ha & Hr);
        [rewrite length_app; cbn [length]; lia|].
      exists ((q, eq) :: argv'), rs', p3. rewrite E3, <- app_assoc. split_and!; try done; [lia|]. constructor; [by apply Hw|done].
    + destruct (redir_step fr rs pos k f _ H) as (r & p & E & H' & L & Hr). rewrite E.
      destruct (IH fr (S fa) argv (rs ++ [r]) p ts H' Hfo ltac:(destruct H'; lia) ltac:(lia) Hlen) as (argv' & rs' & p3 & E3 & H3 & L3 & Ha & Hrs).
      exists argv', (r :: rs'), p3. rewrite E3, <- app_assoc. split_and!; try done; [lia|]. by constructor.
Qed.

Lemma parseline_S fuel pos : parseline s (S fuel) pos =
  pbind (parsepipe s fuel pos) (fun c pos => pbind (parseback s (S es) c pos) (fun c pos =>
    let '(b, pos) := peek s pos (chars ";") in
    if b then let '(_, _, _, pos) := gettoken s pos in pbind (parseline s fuel pos) (fun c' pos => POk (LIST c c') pos) else POk c pos)).
Proof. done. Qed.
Lemma parsepipe_S fuel pos : parsepipe s (S fuel) pos =
  pbind (parseexec s fuel pos) (fun c pos =>
    let '(b, pos) := peek s pos (chars "|") in
    if b then let '(_, _, _, pos) := gettoken s pos in pbind (parsepipe s fuel pos) (fun c' pos => POk (PIPE c c') pos) else POk c pos).
Proof. done. Qed.
Lemma parseexec_S fuel pos : parseexec s (S fuel) pos =
  let '(b, pos) := peek s pos (chars "(") in
  if b then parseblock s fuel pos
  else pbind (parseredirs s (S es) [] pos) (fun rs pos => pbind (parseargs s (S es) [] rs pos) (fun x pos => POk (foldl redircmd (EXEC x.1) x.2) pos)).
Proof. done. Qed.
Lemma parseblock_S fuel pos : parseblock s (S fuel) pos =
  let '(b, pos) := peek s pos (chars "(") in
  if negb b then PPanic "parseblock"
  else let '(_, _, _, pos) := gettoken s pos in pbind (parseline s fuel pos) (fun c pos =>
    let '(b, pos) := peek s pos (chars ")") in
    if negb b then PPanic "syntax - missing )"
    else let '(_, _, _, pos) := gettoken s pos in pbind (parseredirs s (S es) [] pos) (fun rs pos => POk (foldl redircmd c rs) pos)).
Proof. done. Qed.

Lemma parseback_ok bg : forall fuel c d pos ts,
  at_tokens pos (repeat (Sym 38) bg ++ ts) -> follow [41; 59] ts -> (es - pos < fuel)%nat -> denotes c d ->
  exists c' p, parseback s fuel c pos = POk c' p /\ at_tokens p ts /\ (pos <= p)%nat /\ denotes c' (Nat.iter bg BACK d).
Proof.
  induction bg as [|bg IH]; intros fuel c d pos ts H Hfo Hfu Hd; (destruct fuel as [|fuel]; [lia|]);
    destruct (peek_tokens pos _ (chars "&") H) as (p & E & H' & L); cbn [parseback]; rewrite E.
  - cbn [repeat app]. rewrite (follow_peek _ _ _ Hfo) by done. by exists c, p.
  - cbn [repeat app spelled hd]. change (strchr (chars "&") 38) with true. cbv iota. cbn [repeat app] in H'.
    destruct (gettoken_tokens p _ _ H') as (q & eq & p2 & E2 & H2 & L2 & _). rewrite E2.
    destruct (IH fuel (BACK c) (BACK d) p2 ts H2 Hfo ltac:(destruct H2; lia) (d_back _ _ Hd)) as (c' & p3 & E3 & H3 & L3 & Hd'). exists c', p3.
    split_and!; try done; [lia|]. by rewrite Nat.iter_succ_r.
Qed.

Definition parses (parse : nat -> nat -> res (cmd span)) (n : nat) (l : list Z) (toks : list token) (d : cmd (list Z)) : Prop :=
  forall fuel pos ts, at_tokens pos (toks ++ ts) -> follow l ts -> (4 * (es - pos) + n <= fuel)%nat ->
  exists c p, parse fuel pos = POk c p /\ at_tokens p ts /\ (pos <= p)%nat /\ denotes c d.

Lemma exec_ok elems : (length (words elems) < MAXARGS)%nat ->
  parses (parseexec s) 2 [124; 41; 38; 59] (simple_tokens (SExec elems)) (simple_cmd (SExec elems)).
Proof.
  intros Hlen fuel pos ts H Hfo Hfu. destruct fuel as [|fuel]; [lia|]. cbn [simple_tokens] in H. rewrite parseexec_S.
  destruct (peek_tokens pos _ (chars "(") H) as (p & E & H' & L). rewrite E; cbv beta iota.
  assert (Eb : match concat (elem_tokens <$> elems) ++ ts with t :: _ => strchr (chars "(") (hd 0 (spelled t)) | [] => false end = false).
  { destruct elems as [|[w|k f] elems]; cbn [fmap list_fmap concat app elem_tokens redir_tokens] in *; [by apply (follow_peek _ _ _ Hfo)|..|by destruct k].
    apply word_peek; [by apply (at_token_ok _ _ _ H)|done]. }
  rewrite Eb. destruct (parseexec_rest elems (S es) (S es) [] [] p ts H' Hfo ltac:(lia) ltac:(lia) Hlen) as (argv & rs & p1 & E1 & H1 & L1 & Ha & Hr).
  cbn [app] in E1. revert E1. unfold pbind. destruct (parseredirs s (S es) [] p) as [r0 pr| |]; [|done..]. intros ->.
  exists (foldl redircmd (EXEC argv) rs), p1. split_and!; try done; [lia|]. cbn [simple_cmd]. apply denotes_redirs; [done|by constructor].
Qed.

Lemma block_ok l rs : parses (parseline s) 4 [41] (line_tokens l) (line_cmd l) ->
  parses (parseexec s) 2 [124; 41; 38; 59] (simple_tokens (SBlock l rs)) (simple_cmd (SBlock l rs)).
Proof.
  intros IH fuel pos ts H Hfo Hfu. destruct fuel as [|[|fuel]]; [lia..|]. cbn [simple_tokens app] in H. rewrite <- app_assoc in H. cbn [app] in H. rewrite parseexec_S.
  destruct (peek_tokens pos _ (chars "(") H) as (p & E & H' & L). rewrite E; cbv beta iota. change (strchr (chars "(") (hd 0 (spelled (Sym 40)))) with true. cbv iota.
  rewrite parseblock_S. destruct (peek_tokens p _ (chars "(") H') as (p1 & E1 & H1 & L1). rewrite E1; cbv beta iota. change (negb (strchr (chars "(") (hd 0 (spelled (Sym 40))))) with false. cbv iota.
  destruct (gettoken_tokens p1 _ _ H1) as (q & eq & p2 & E2 & H2 & L2 & _). rewrite E2; cbv beta iota.
  destruct (IH fuel p2 _ H2) as (c & p3 & E3 & H3 & L3 & Hd); [exists 41; split; [done|set_solver]|destruct H2; lia|]. rewrite E3; cbv beta iota. cbn [pbind].
  destruct (peek_tokens p3 _ (chars ")") H3) as (p4 & E4 & H4 & L4). rewrite E4; cbv beta iota. change (negb (strchr (chars ")") (hd 0 (spelled (Sym 41))))) with false. cbv iota.
  destruct (gettoken_tokens p4 _ _ H4) as (q5 & eq5 & p5 & E5 & H5 & L5 & _). rewrite E5; cbv beta iota.
  destruct (parseredirs_ok rs (S es) [] p5 ts H5 ltac:(lia)) as (rs' & p6 & E6 & H6 & L6 & Hr); [by apply (follow_peek _ _ _ Hfo)|]. rewrite E6; cbv beta iota. cbn [pbind app].
  exists (foldl redircmd c rs'), p6. split_and!; try done; [lia|]. by apply denotes_redirs.
Qed.

Lemma pipe_one_ok x : parses (parseexec s) 2 [124; 41; 38; 59] (simple_tokens x) (simple_cmd x) ->
  parses (parsepipe s) 3 [41; 38; 59] (pipe_tokens (POne x)) (pipe_cmd (POne x)).
Proof.
  intros IH fuel pos ts H Hfo Hfu. destruct fuel as [|fuel]; [lia|]. rewrite parsepipe_S. destruct (IH fuel pos ts H) as (c & p & E & H' & L & Hd); [|lia|].
  { destruct ts as [|t ts]; [done|]. destruct Hfo as (c & -> & Hc). exists c. split; [done|set_solver]. }
  rewrite E; cbv beta iota. cbn [pbind]. destruct (peek_tokens p _ (chars "|") H') as (p1 & E1 & H1 & L1). rewrite E1, (follow_peek _ _ _ Hfo) by done.
  exists c, p1. split_and!; try done. lia.
Qed.

Lemma pipe_more_ok x y : parses (parseexec s) 2 [124; 41; 38; 59] (simple_tokens x) (simple_cmd x) -> parses (parsepipe s) 3 [41; 38; 59] (pipe_tokens y) (pipe_cmd y) ->
  parses (parsepipe s) 3 [41; 38; 59] (pipe_tokens (PMore x y)) (pipe_cmd (PMore x y)).
Proof.
  intros IH IH' fuel pos ts H Hfo Hfu. destruct fuel as [|fuel]; [lia|]. rewrite parsepipe_S. cbn [pipe_tokens] in H. rewrite <- app_assoc in H. cbn [app] in H.
  destruct (IH fuel pos _ H) as (c & p & E & H' & L & Hd); [exists 124; split; [done|set_solver]|lia|].
  rewrite E; cbv beta iota. cbn [pbind]. destruct (peek_tokens p _ (chars "|") H') as (p1 & E1 & H1 & L1). rewrite E1; cbv beta iota. change (strchr (chars "|") (hd 0 (spelled (Sym 124)))) with true. cbv iota.
  destruct (gettoken_tokens p1 _ _ H1) as (q & eq & p2 & E2 & H2 & L2 & _). rewrite E2; cbv beta iota.
  destruct (IH' fuel p2 ts H2 Hfo) as (c' & p3 & E3 & H3 & L3 & Hd'); [destruct H2; lia|]. rewrite E3; cbv beta iota. cbn [pbind].
  exists (PIPE c c'), p3. split_and!; try done; [lia|by constructor].
Qed.

Lemma line_head_ok p bg fuel pos ts :
  parses (parsepipe s) 3 [41; 38; 59] (pipe_tokens p) (pipe_cmd p) ->
  at_tokens pos (pipe_tokens p ++ repeat (Sym 38) bg ++ ts) -> follow [41; 59] ts -> (4 * (es - pos) + 4 <= S fuel)%nat ->
  exists c p', pbind (parsepipe s fuel pos) (parseback s (S es)) = POk c p' /\ at_tokens p' ts /\ (pos <= p')%nat /\
    denotes c (Nat.iter bg BACK (pipe_cmd p)).
Proof.
  intros IH H Hfo Hfu. destruct (IH fuel pos _ H) as (c & p1 & E & H' & L & Hd); [|lia|].
  { destruct bg; cbn; [|exists 38; split; [done|set_solver]]. destruct ts as [|t ts]; [done|]. destruct Hfo as (c & -> & Hc). exists c. split; [done|set_solver]. }
  rewrite E. cbn [pbind]. destruct (parseback_ok bg (S es) c _ p1 ts H' Hfo ltac:(lia) Hd) as (c' & p2 & E2 & H2 & L2 & Hd2). exists c', p2. split_and!; try done. lia.
Qed.

Lemma pbind_assoc {A B C} (r : res A) (f : A -> nat -> res B) (g : B -> nat -> res C) : pbind r (fun a pos => pbind (f a pos) g) = pbind (pbind r f) g.
Proof. by destruct r. Qed.

Lemma line_one_ok p bg : parses (parsepipe s) 3 [41; 38; 59] (pipe_tokens p) (pipe_cmd p) ->
  parses (parseline s) 4 [41] (line_tokens (LOne p bg)) (line_cmd (LOne p bg)).
Proof.
  intros IH fuel pos ts H Hfo Hfu. destruct fuel as [|fuel]; [lia|]. rewrite parseline_S, pbind_assoc. cbn [line_tokens] in H. rewrite <- app_assoc in H.
  destruct (line_head_ok p bg fuel pos ts IH H) as (c & p1 & E & H' & L & Hd); [|lia|].
  { destruct ts as [|t ts]; [done|]. destruct Hfo as (c & -> & Hc). exists c. split; [done|set_solver]. }
  rewrite E. cbn [pbind]. destruct (peek_tokens p1 _ (chars ";") H') as (p2 & E2 & H2 & L2). rewrite E2, (follow_peek _ _ _ Hfo) by done.
  exists c, p2. split_and!; try done. lia.
Qed.

Lemma line_seq_ok p bg l : parses (parsepipe s) 3 [41; 38; 59] (pipe_tokens p) (pipe_cmd p) -> parses (parseline s) 4 [41] (line_tokens l) (line_cmd l) ->
  parses (parseline s) 4 [41] (line_tokens (LSeq p bg l)) (line_cmd (LSeq p bg l)).
Proof.
  intros IH IH' fuel pos ts H Hfo Hfu. destruct fuel as [|fuel]; [lia|]. rewrite parseline_S, pbind_assoc. cbn [line_tokens] in H. rewrite <- !app_assoc in H. cbn [app] in H.
  destruct (line_head_ok p bg fuel pos _ IH H) as (c & p1 & E & H' & L & Hd); [exists 59; split; [done|set_solver]|lia|].
  rewrite E. cbn [pbind]. destruct (peek_tokens p1 _ (chars ";") H') as (p2 & E2 & H2 & L2). rewrite E2. change (strchr (chars ";") (hd 0 (spelled (Sym 59)))) with true. cbv beta iota.
  destruct (gettoken_tokens p2 _ _ H2) as (q & eq & p3 & E3 & H3 & L3 & _). rewrite E3. cbv beta iota.
  destruct (IH' fuel p3 ts H3 Hfo) as (c' & p4 & E4 & H4 & L4 & Hd'); [destruct H3; lia|]. rewrite E4. cbn [pbind].
  exists (LIST c c'), p4. split_and!; try done; [lia|by constructor].
Qed.

Lemma line_parses l : line_ok l -> parses (parseline s) 4 [41] (line_tokens l) (line_cmd l).
Proof.
  revert l. apply (line_mut (fun x => simple_ok x -> parses (parseexec s) 2 [124; 41; 38; 59] (simple_tokens x) (simple_cmd x))
    (fun p => pipe_ok p -> parses (parsepipe s) 3 [41; 38; 59] (pipe_tokens p) (pipe_cmd p))
    (fun l => line_ok l -> parses (parseline s) 4 [41] (line_tokens l) (line_cmd l))).
  - apply exec_ok.
  - intros l IH rs Hok. by apply block_ok, IH.
  - intros x IH Hok. by apply pipe_one_ok, IH.
  - intros x IH p IH' [Hx Hp]. apply pipe_more_ok; auto.
  - intros p IH bg Hok. by apply line_one_ok, IH.
  - intros p IH bg l IH' [Hp Hl]. apply line_seq_ok; auto.
Qed.

(** ** What the routines accept is in the grammar *)

Definition accepts {A} (pos : nat) (ts : list token) (Q : A -> list token -> list token -> Prop) (r : res A) : Prop :=
  match r with
  | POk a p => exists used left, ts = used ++ left /\ at_tokens p left /\ (pos <= p)%nat /\ Q a used left
  | PPanic _ => True
  | PFuel => False
  end.

Lemma accepts_bind {A B} pos ts (Q : A -> list token -> list token -> Prop) (R : B -> list token -> list token -> Prop) r f :
  accepts pos ts Q r ->
  (forall a used left p, Q a used left -> at_tokens p left -> (pos <= p)%nat -> accepts p left (fun b u l => R b (used ++ u) l) (f a p)) ->
  accepts pos ts R (pbind r f).
Proof.
  intros Hr Hf. destruct r as [a p| |]; [|done..]. cbn in *. destruct Hr as (used & left & -> & Ha & L & HQ). specialize (Hf a used left p HQ Ha L).
  destruct (f a p) as [b p'| |]; [|done..]. cbn in *. destruct Hf as (u & l & -> & Ha' & L' & HR). exists (used ++ u), l. rewrite app_assoc. split_and!; try done. lia.
Qed.

Lemma accepts_later {A} pos p ts t (Q : A -> list token -> list token -> Prop) r :
  (pos <= p)%nat -> accepts p ts (fun a u l => Q a (t ++ u) l) r -> accepts pos (t ++ ts) Q r.
Proof.
  intros L H. destruct r as [a p'| |]; [|done..]. cbn in *. destruct H as (u & l & -> & Ha & L' & HQ). exists (t ++ u), l. rewrite app_assoc. split_and!; try done. lia.
Qed.

Lemma accepts_impl {A} pos ts (Q R : A -> list token -> list token -> Prop) r : (forall a u l, Q a u l -> R a u l) -> accepts pos ts Q r -> accepts pos ts R r.
Proof. intros HQ. destruct r as [a p| |]; [|done..]. cbn. intros (u & l & H1 & H2 & H3 & H4). exists u, l. split_and!; auto. Qed.

(** What [peek] says of the next token. *)
Lemma peek_sym t toks : token_ok t -> forallb (strchr symbols) toks = true -> strchr toks (hd 0 (spelled t)) = true ->
  (exists c, t = Sym c /\ strchr toks c = true) \/ t = Append /\ strchr toks 62 = true.
Proof.
  intros Hok Hs H. destruct t as [c| |w]; [left; by exists c|by right|]. cbn [spelled] in H. by rewrite (word_peek w toks Hok Hs) in H.
Qed.

Definition no_redir (ts : list token) : Prop := match ts with t :: _ => strchr (chars "<>") (hd 0 (spelled t)) | [] => false end = false.

Lemma redirs_sound fuel : forall acc pos ts, at_tokens pos ts -> (es - pos < fuel)%nat ->
  accepts pos ts (fun rs used left => exists rs' xs, rs = acc ++ rs' /\ used = concat (redir_tokens <$> xs) /\ Forall2 redir_denotes rs' xs) (parseredirs s fuel acc pos).
Proof.
  induction fuel as [|fuel IH]; intros acc pos ts H Hfu; [lia|]. destruct (peek_tokens pos _ (chars "<>") H) as (p & E & H' & L).
  destruct ts as [|t ts]; [cbn [parseredirs]; rewrite E; exists [], []; split_and!; try done; exists [], []; rewrite app_nil_r; by split_and!|].
  destruct (strchr (chars "<>") (hd 0 (spelled t))) eqn:Et; [|cbn [parseredirs]; rewrite E; exists [], (t :: ts); split_and!; try done; exists [], []; rewrite app_nil_r; by split_and!].
  assert (Hk : exists k, t = rtoken k).
  { destruct (peek_sym t (chars "<>") (at_token_ok _ _ _ H) eq_refl Et) as [(c & -> & Hc)|[-> _]]; [|by exists RApp].
    change (chars "<>") with [60; 62] in Hc. apply existsb_exists in Hc as (x & Hx & <-%Z.eqb_eq). cbn in Hx. destruct Hx as [<-|[<-|[]]]; [by exists RIn|by exists ROut]. }
  destruct Hk as [k ->]. destruct ts as [|t ts].
  - cbn [parseredirs]. rewrite E. cbv beta iota. destruct (gettoken_tokens p _ _ H') as (q & eq & p1 & E1 & H1 & L1 & _). rewrite E1.
    destruct (gettoken_end p1 H1) as (q2 & eq2 & p2 & E2 & _). by rewrite E2.
  - destruct t as [c| |f].
    1,2: cbn [parseredirs]; rewrite E; cbv beta iota; destruct (gettoken_tokens p _ _ H') as (q & eq & p1 & E1 & H1 & L1 & _); rewrite E1;
      pose proof (at_token_ok _ _ _ H1) as Hok; destruct (gettoken_tokens p1 _ _ H1) as (q2 & eq2 & p2 & E2 & _); rewrite E2; try done.
    + apply symbol_cases in Hok. by destruct_or! Hok; subst c.
    + destruct (redir_step fuel acc pos k f ts H) as (r & p1 & E1 & H1 & L1 & Hr). rewrite E1. change (rtoken k :: Word f :: ts) with (redir_tokens (k, f) ++ ts).
      apply (accepts_later pos p1); [lia|]. eapply accepts_impl; [|apply (IH (acc ++ [r]) p1 ts H1); destruct H1; lia].
      intros rs u l (rs' & xs & -> & -> & Hrs). exists (r :: rs'), ((k, f) :: xs). rewrite <- app_assoc. split_and!; try done. by constructor.
Qed.

Definition redir_elems (xs : list (rkind * list Z)) : list elem := (fun x => ERedir x.1 x.2) <$> xs.
Lemma redir_elems_spec xs e :
  concat (elem_tokens <$> redir_elems xs) = concat (redir_tokens <$> xs) /\ words (redir_elems xs ++ e) = words e /\ redirs (redir_elems xs ++ e) = xs ++ redirs e.
Proof.
  induction xs as [|[k f] xs (IH1 & IH2 & IH3)]; [done|]. split; [|split; [exact IH2|]].
  - exact (f_equal (fun l => rtoken k :: Word f :: l) IH1).
  - exact (f_equal (cons (k, f)) IH3).
Qed.

Lemma args_sound fuel : forall argv rs pos ts, at_tokens pos ts -> (es - pos < fuel)%nat -> (length argv < MAXARGS)%nat ->
  accepts pos ts (fun x used left => exists av rv elems, x = (argv ++ av, rs ++ rv) /\ used = concat (elem_tokens <$> elems) /\
    Forall2 span_of av (words elems) /\ Forall2 redir_denotes rv (redirs elems) /\ (length (argv ++ av) < MAXARGS)%nat) (parseargs s fuel argv rs pos).
Proof.
  induction fuel as [|fuel IH]; intros argv rs pos ts H Hfu Hlen; [lia|]. cbn [parseargs]. destruct (peek_tokens pos _ (chars "|)&;") H) as (p & E & H' & L). rewrite E.
  set (b := match ts with t :: _ => _ | [] => _ end). clearbody b. destruct b; [exists [], ts; split_and!; try done; exists [], [], []; rewrite !app_nil_r; by split_and!|].
  destruct ts as [|t ts].
  - destruct (gettoken_end p H') as (q & eq & p1 & E1 & H1 & L1). rewrite E1. exists [], []. split_and!; try done; [lia|]. exists [], [], []. rewrite !app_nil_r. by split_and!.
  - pose proof (at_token_ok _ _ _ H') as Hok. destruct (gettoken_tokens p _ _ H') as (q & eq & p1 & E1 & H1 & L1 & Hw). rewrite E1.
    destruct t as [c| |w]; [by apply symbol_cases in Hok; destruct_or! Hok; subst c|done|]. cbn [kind Z.eqb Pos.eqb negb].
    destruct (MAXARGS <=? length (argv ++ [(q, eq)]))%nat eqn:El; [done|]. apply Nat.leb_gt in El. change (Word w :: ts) with ([Word w] ++ ts).
    apply (accepts_later pos p1); [lia|]. eapply accepts_bind; [apply (redirs_sound (S es) rs p1 ts H1); lia|].
    intros r used left p2 (rs' & xs & -> & -> & Hrs) H2 L2. eapply accepts_impl; [|apply (IH (argv ++ [(q, eq)]) (rs ++ rs') p2 left H2); [destruct H2; lia|done]].
    intros x u l (av & rv & elems & -> & -> & Ha & Hr & Hl). exists ((q, eq) :: av), (rs' ++ rv), (EWord w :: redir_elems xs ++ elems).
    destruct (redir_elems_spec xs elems) as (T1 & T2 & T3). rewrite <- !app_assoc. split_and!; try done.
    + cbn [fmap list_fmap concat elem_tokens app]. by rewrite fmap_app, concat_app, T1.
    + change (words (EWord w :: ?e)) with (w :: words e). rewrite T2. constructor; [by apply Hw|done].
    + change (redirs (EWord w :: ?e)) with (redirs e). rewrite T3. by apply Forall2_app.
    + by rewrite <- app_assoc in Hl.
Qed.

Definition in_simple (c : cmd span) (used left : list token) : Prop := exists x, used = simple_tokens x /\ simple_ok x /\ denotes c (simple_cmd x).
Definition in_pipe (c : cmd span) (used left : list token) : Prop := exists x, used = pipe_tokens x /\ pipe_ok x /\ denotes c (pipe_cmd x).
Definition in_line (c : cmd span) (used left : list token) : Prop := exists x, used = line_tokens x /\ line_ok x /\ denotes c (line_cmd x).

Lemma exec_sound pos ts : at_tokens pos ts ->
  accepts pos ts in_simple (pbind (parseredirs s (S es) [] pos) (fun rs pos => pbind (parseargs s (S es) [] rs pos) (fun x pos => POk (foldl redircmd (EXEC x.1) x.2) pos))).
Proof.
  intros H. eapply accepts_bind; [apply (redirs_sound (S es) [] pos ts H); lia|]. intros r used left p (rs & xs & -> & -> & Hrs) H' L.
  eapply accepts_bind; [apply (args_sound (S es) [] rs p left H'); [lia|cbn; unfold MAXARGS; lia]|].
  intros x used' left' p' (av & rv & elems & -> & -> & Ha & Hr & Hl) H2 L2. exists [], left'. split_and!; try done. exists (SExec (redir_elems xs ++ elems)).
  destruct (redir_elems_spec xs elems) as (T1 & T2 & T3). cbn [simple_tokens simple_ok simple_cmd]. rewrite app_nil_r, fmap_app, concat_app, T1, T2, T3. split_and!; try done.
  - cbn [app] in Hl. by rewrite <- (Forall2_length _ _ _ Ha).
  - apply denotes_redirs; [by apply Forall2_app|by constructor].
Qed.

Lemma back_sound fuel : forall c pos ts, at_tokens pos ts -> (es - pos < fuel)%nat ->
  accepts pos ts (fun c' used left => exists bg, used = repeat (Sym 38) bg /\ c' = Nat.iter bg BACK c) (parseback s fuel c pos).
Proof.
  induction fuel as [|fuel IH]; intros c pos ts H Hfu; [lia|]. cbn [parseback]. destruct (peek_tokens pos _ (chars "&") H) as (p & E & H' & L). rewrite E.
  destruct ts as [|t ts]; [exists [], []; split_and!; try done; by exists 0%nat|].
  destruct (strchr (chars "&") (hd 0 (spelled t))) eqn:Et; [|exists [], (t :: ts); split_and!; try done; by exists 0%nat].
  assert (t = Sym 38) as ->.
  { destruct (peek_sym t (chars "&") (at_token_ok _ _ _ H) eq_refl Et) as [(x & -> & Hc)|[_ Hc]]; [|done]. cbn in Hc. rewrite orb_false_r in Hc. by apply Z.eqb_eq in Hc as ->. }
  destruct (gettoken_tokens p _ _ H') as (q & eq & p1 & E1 & H1 & L1 & _). rewrite E1. change (Sym 38 :: ts) with ([Sym 38] ++ ts).
  apply (accepts_later pos p1); [lia|]. eapply accepts_impl; [|apply (IH (BACK c) p1 ts H1); destruct H1; lia].
  intros c' u l (bg & -> & ->). exists (S bg). split; [done|]. by rewrite Nat.iter_succ_r.
Qed.

Lemma denotes_back bg c d : denotes c d -> denotes (Nat.iter bg BACK c) (Nat.iter bg BACK d).
Proof. intros H. induction bg as [|bg IH]; [done|]. cbn. by constructor. Qed.

Definition sound (parse : nat -> nat -> res (cmd span)) (n fuel : nat) (Q : cmd span -> list token -> list token -> Prop) : Prop :=
  forall pos ts, at_tokens pos ts -> (4 * (es - pos) + n <= fuel)%nat -> accepts pos ts Q (parse fuel pos).

(** Looking for a symbol. *)
Lemma peek_one pos ts toks c : toks = [c] -> c <> 62 -> strchr symbols c = true -> at_tokens pos ts ->
  exists b p, peek s pos toks = (b, p) /\ at_tokens p ts /\ (pos <= p)%nat /\ (b = true -> exists ts', ts = Sym c :: ts').
Proof.
  intros -> Hc Hs H. destruct (peek_tokens pos _ [c] H) as (p & E & H' & L). eexists _, p. split; [exact E|]. split; [done|]. split; [done|].
  destruct ts as [|t ts]; [done|]. intros Et. exists ts. destruct (peek_sym t [c] (at_token_ok _ _ _ H)) as [(x & -> & Hx)|[_ Hx]]; [cbn [forallb]; by rewrite Hs|done|..];
    unfold strchr in Hx; cbn [existsb] in Hx; rewrite orb_false_r in Hx; apply Z.eqb_eq in Hx; congruence.
Qed.

Lemma line_sound fuel : sound (parsepipe s) 3 fuel in_pipe -> sound (parseline s) 4 fuel in_line -> sound (parseline s) 4 (S fuel) in_line.
Proof.
  intros IHp IHl pos ts H Hfu. rewrite parseline_S. eapply accepts_bind; [apply (IHp pos ts H); lia|]. intros c used left p (x & -> & Hok & Hd) H1 L1.
  eapply accepts_bind; [apply (back_sound (S es) c p left H1); lia|]. intros c' used' left' p2 (bg & -> & ->) H2 L2.
  destruct (peek_one p2 left' (chars ";") 59 eq_refl ltac:(done) eq_refl H2) as (b & p3 & E3 & H3 & L3 & Hb). rewrite E3. destruct b.
  - destruct (Hb eq_refl) as (ts' & ->). destruct (gettoken_tokens p3 _ _ H3) as (q & eq & p4 & E4 & H4 & L4 & _). rewrite E4. change (Sym 59 :: ts') with ([Sym 59] ++ ts').
    apply (accepts_later p2 p4); [lia|]. eapply accepts_bind; [apply (IHl p4 ts' H4); destruct H4; lia|].
    intros c' u l p5 (y & -> & Hoky & Hdy) H5 L5. exists [], l. split_and!; try done. exists (LSeq x bg y). rewrite app_nil_r. split_and!; try done.
    constructor; [by apply denotes_back|done].
  - exists [], left'. split_and!; try done. exists (LOne x bg). rewrite app_nil_r. split_and!; try done. by apply denotes_back.
Qed.

Lemma pipe_sound fuel : sound (parseexec s) 2 fuel in_simple -> sound (parsepipe s) 3 fuel in_pipe -> sound (parsepipe s) 3 (S fuel) in_pipe.
Proof.
  intros IHx IHp pos ts H Hfu. rewrite parsepipe_S. eapply accepts_bind; [apply (IHx pos ts H); lia|]. intros c used left p (x & -> & Hok & Hd) H1 L1.
  destruct (peek_one p left (chars "|") 124 eq_refl ltac:(done) eq_refl H1) as (b & p3 & E3 & H3 & L3 & Hb). rewrite E3. destruct b.
  - destruct (Hb eq_refl) as (ts' & ->). destruct (gettoken_tokens p3 _ _ H3) as (q & eq & p4 & E4 & H4 & L4 & _). rewrite E4. change (Sym 124 :: ts') with ([Sym 124] ++ ts').
    apply (accepts_later p p4); [lia|]. eapply accepts_bind; [apply (IHp p4 ts' H4); destruct H4; lia|].
    intros c' u l p5 (y & -> & Hoky & Hdy) H5 L5. exists [], l. split_and!; try done. exists (PMore x y). rewrite app_nil_r. split_and!; try done. by constructor.
  - exists [], left. split_and!; try done. exists (POne x). by rewrite app_nil_r.
Qed.

Lemma simple_sound fuel : sound (parseblock s) 1 fuel in_simple -> sound (parseexec s) 2 (S fuel) in_simple.
Proof.
  intros IHb pos ts H Hfu. rewrite parseexec_S. destruct (peek_one pos ts (chars "(") 40 eq_refl ltac:(done) eq_refl H) as (b & p & E & H1 & L1 & Hb). rewrite E.
  apply (accepts_later pos p ts []); [done|]. destruct b; [apply (IHb p ts H1); lia|by apply exec_sound].
Qed.

Lemma block_sound fuel : sound (parseline s) 4 fuel in_line -> sound (parseblock s) 1 (S fuel) in_simple.
Proof.
  intros IHl pos ts H Hfu. rewrite parseblock_S. destruct (peek_one pos ts (chars "(") 40 eq_refl ltac:(done) eq_refl H) as (b & p & E & H1 & L1 & Hb). rewrite E.
  destruct b; [|done]. destruct (Hb eq_refl) as (ts' & ->). cbn [negb]. destruct (gettoken_tokens p _ _ H1) as (q & eq & p2 & E2 & H2 & L2 & _). rewrite E2.
  change (Sym 40 :: ts') with ([Sym 40] ++ ts'). apply (accepts_later pos p2); [lia|]. eapply accepts_bind; [apply (IHl p2 ts' H2); destruct H2; lia|].
  intros c used left p3 (x & -> & Hok & Hd) H3 L3. destruct (peek_one p3 left (chars ")") 41 eq_refl ltac:(done) eq_refl H3) as (b & p4 & E4 & H4 & L4 & Hb4). rewrite E4.
  destruct b; [|done]. destruct (Hb4 eq_refl) as (ts4 & ->). cbn [negb]. destruct (gettoken_tokens p4 _ _ H4) as (q5 & eq5 & p5 & E5 & H5 & L5 & _). rewrite E5.
  change (Sym 41 :: ts4) with ([Sym 41] ++ ts4). apply (accepts_later p3 p5); [lia|]. eapply accepts_bind; [apply (redirs_sound (S es) [] p5 ts4 H5); lia|].
  intros rs u l p6 (rs' & xs & -> & -> & Hrs) H6 L6. exists [], l. split_and!; try done. exists (SBlock x xs). rewrite app_nil_r. split_and!; try done. by apply denotes_redirs.
Qed.

Lemma parseline_sound fuel : sound (parseline s) 4 fuel in_line.
Proof.
  assert (H : sound (parseline s) 4 fuel in_line /\ sound (parsepipe s) 3 fuel in_pipe /\ sound (parseexec s) 2 fuel in_simple /\ sound (parseblock s) 1 fuel in_simple); [|apply H].
  induction fuel as [|fuel (H1 & H2 & H3 & H4)]; [split_and!; intros pos ts _ Hf; lia|].
  split_and!; [by apply line_sound|by apply pipe_sound|by apply simple_sound|by apply block_sound].
Qed.
End Line.

(** * Every line is a sequence of tokens *)

Lemma prefix_stops (P : Z -> bool) l : exists w rest, l = w ++ rest /\ Forall (fun c => P c = true) w /\ stops P rest.
Proof.
  induction l as [|c l (w & rest & -> & Hw & Hr)]; [by exists [], []|]. destruct (P c) eqn:E; [exists (c :: w), rest; split_and!; try done; by constructor|].
  exists [], (c :: w ++ rest). by split_and!.
Qed.

Lemma lex l : 0 ∉ l -> exists ts, spells ts l.
Proof.
  induction l as [l IH] using (well_founded_induction (well_founded_ltof _ length)). intros Hn.
  destruct (prefix_stops is_space l) as (w & rest & -> & Hw & Hr). destruct rest as [|c rest]; [exists []; rewrite app_nil_r; by constructor|].
  assert (Hgo : forall t rest', c :: rest = spelled t ++ rest' -> token_ok t -> ends t rest' -> exists ts, spells ts (w ++ c :: rest)).
  { intros t rest' Et Hok He. destruct (token_head t Hok) as (x & y & Ex & _). destruct (IH rest') as [ts Hts].
    - unfold ltof. rewrite Et, Ex, !length_app. cbn. lia.
    - rewrite Et in Hn. set_solver.
    - exists (t :: ts). rewrite Et. by constructor. }
  destruct (strchr symbols c) eqn:Es.
  - destruct (decide (c = 62)) as [->|Hc]; [|apply (Hgo (Sym c) rest); [done|done|by intros ->]]. destruct rest as [|x rest]; [by apply (Hgo (Sym 62) [])|].
    destruct (62 =? x) eqn:Ex; [|apply (Hgo (Sym 62) (x :: rest)); [done|done|by intros _]]. apply Z.eqb_eq in Ex as <-. by apply (Hgo Append rest).
  - destruct (prefix_stops is_word rest) as (v & rest' & -> & Hv & Hr'). change (strchr whitespace c = false) in Hr. apply (Hgo (Word (c :: v)) rest'); [done| |done]. split; [done|].
    constructor; [split; [set_solver|]; unfold is_word; by rewrite Hr, Es|]. apply Forall_forall. intros x Hx. split; [set_solver|]. by apply (proj1 (Forall_forall _ _) Hv).
Qed.

(** * Reading the words back *)

Fixpoint ends_of (c : cmd span) : list nat :=
  match c with
  | EXEC argv => snd <$> argv
  | REDIR c file _ _ => ends_of c ++ [file.2]
  | PIPE l r | LIST l r => ends_of l ++ ends_of r
  | BACK c => ends_of c
  end.

Lemma zeros_lookup (l : list nat) : forall (buf : list Z) i, foldl (fun buf i => <[i := 0]> buf) buf l !! i = if decide (i ∈ l) then (fun _ => 0) <$> buf !! i else buf !! i.
Proof.
  assert (Hz : forall (buf : list Z) i j, (fun _ => 0) <$> <[j := 0]> buf !! i = (fun _ : Z => 0) <$> buf !! i).
  { intros buf i j. destruct (decide (i = j)) as [->|]; [|by rewrite list_lookup_insert_ne]. destruct (decide (j < length buf)%nat).
    - rewrite list_lookup_insert_eq by done. by destruct (lookup_lt_is_Some_2 buf j) as [x ->].
    - by rewrite list_insert_ge by lia. }
  induction l as [|j l IH]; intros buf i; cbn [foldl]; [destruct (decide (i ∈ [])); [set_solver|done]|]. rewrite IH.
  destruct (decide (i ∈ l)), (decide (i ∈ j :: l)); [apply Hz|set_solver| |rewrite list_lookup_insert_ne by set_solver; done].
  assert (i = j) as -> by set_solver. rewrite <- (Hz buf j j). destruct (decide (j < length buf)%nat).
  - by rewrite list_lookup_insert_eq by done.
  - by rewrite list_insert_ge, lookup_ge_None_2 by lia.
Qed.

Lemma nulterminate_zeros c : forall buf, nulterminate c buf = foldl (fun buf i => <[i := 0]> buf) buf (ends_of c).
Proof.
  induction c as [argv|c IH file mode fd|l IHl r IHr|l IHl r IHr|c IH]; intros buf; cbn [nulterminate ends_of]; rewrite ?foldl_app, ?IH, ?IHl, ?IHr; try done.
  by rewrite foldl_fmap.
Qed.

Lemma cstring_app w rest : Forall (fun c => c <> 0) w -> cstring (w ++ 0 :: rest) = w.
Proof. induction 1 as [|c w Hc _ IH]; [done|]. cbn. by rewrite (proj2 (Z.eqb_neq _ _) Hc), IH. Qed.

Lemma span_end s a w : span_of s a w -> stops is_word (drop a.2 s) /\ (a.2 <= length s)%nat.
Proof. by intros (_ & _ & H1 & _ & H2). Qed.

Lemma denotes_ends s c d : denotes s c d -> Forall (fun i => stops is_word (drop i s) /\ (i <= length s)%nat) (ends_of c).
Proof.
  induction 1 as [argv ws H|c d a f mode fd _ IH Ha|c d c' d' _ IH _ IH'|c d c' d' _ IH _ IH'|c d _ IH]; cbn [ends_of]; rewrite ?Forall_app; try done.
  - apply Forall_fmap. eapply Forall2_Forall_l; [exact H|]. apply Forall_forall. intros w _ a Ha. by apply (span_end s a w).
  - split; [done|]. apply Forall_singleton. by apply (span_end s a f).
Qed.

Section ReadBack.
Context (s : list Z) (E : list nat) (buf : list Z).
Hypothesis (HE : Forall (fun i => stops is_word (drop i s) /\ (i <= length s)%nat) E).
Hypothesis (Hbuf : forall i, buf !! i = if decide (i ∈ E) then (fun _ => 0) <$> (s ++ [0]) !! i else (s ++ [0]) !! i).

Lemma read_span a w : span_of s a w -> a.2 ∈ E -> cstring (drop a.1 buf) = w.
Proof.
  intros (Hd & Hl & Hle & Hw & Hs) Hin.
  assert (H0 : buf !! a.2 = Some 0).
  { rewrite Hbuf, decide_True by done. destruct (lookup_lt_is_Some_2 (s ++ [0]) a.2) as [x ->]; [rewrite length_app; cbn; lia|done]. }
  assert (Ed : drop a.1 buf = w ++ drop a.2 buf).
  { apply list_eq. intros j. rewrite lookup_drop. destruct (decide (j < length w)%nat) as [Hj|Hj].
    - rewrite lookup_app_l by done. destruct (lookup_lt_is_Some_2 w j Hj) as [x Hx].
      assert (Hsx : s !! (a.1 + j)%nat = Some x) by (rewrite <- lookup_drop, Hd, lookup_app_l by done; done).
      assert (Hni : (a.1 + j)%nat ∉ E).
      { intros Hin'. apply (proj1 (Forall_forall _ _) HE) in Hin' as [Hst _]. rewrite (drop_S _ _ _ Hsx) in Hst. cbn [stops] in Hst.
        apply Forall_lookup_1 with (1 := Hw) in Hx as [_ Hx]. congruence. }
      rewrite Hbuf, decide_False, lookup_app_l by (done || by eapply lookup_lt_Some). by rewrite Hsx, Hx.
    - rewrite lookup_app_r, lookup_drop by lia. f_equal. lia. }
  rewrite Ed, (drop_S _ _ _ H0). apply cstring_app. eapply Forall_impl; [exact Hw|by intros ? []].
Qed.

Lemma read_denotes c d : denotes s c d -> ends_of c ⊆ E -> read_cmd buf c = d.
Proof.
  induction 1 as [argv ws H|c d a f mode fd _ IH Ha|c d c' d' _ IH _ IH'|c d c' d' _ IH _ IH'|c d _ IH]; cbn [ends_of read_cmd]; intros Hsub.
  - f_equal. induction H as [|a w argv ws Ha _ IH]; [done|]. cbn [fmap list_fmap] in *. rewrite (read_span a w Ha) by set_solver. f_equal. apply IH. set_solver.
  - rewrite IH by set_solver. by rewrite (read_span a f Ha) by set_solver.
  - by rewrite IH, IH' by set_solver.
  - by rewrite IH, IH' by set_solver.
  - by rewrite IH.
Qed.
End ReadBack.

Lemma nulterminate_reads s c d : denotes s c d -> read_cmd (nulterminate c (s ++ [0])) c = d.
Proof.
  intros H. apply (read_denotes s (ends_of c)); [by eapply denotes_ends| |done|done]. intros i. rewrite nulterminate_zeros. apply zeros_lookup.
Qed.

Lemma parsecmd_complete s l : line_ok l -> spells (line_tokens l) s -> exists c buf, parsecmd s = POk (c, buf) (length s) /\ read_cmd buf c = line_cmd l.
Proof.
  intros Hok Hs. destruct (line_parses s l Hok (4 * length s + 4)%nat 0%nat []) as (c & p & E & H & _ & Hd).
  - rewrite app_nil_r. split; [done|lia].
  - done.
  - lia.
  - exists c, (nulterminate c (s ++ [0])). unfold parsecmd. rewrite E. cbn [pbind]. unfold peek. destruct (skip_tokens s p [] H) as (_ & _ & ->).
    rewrite Nat.eqb_refl. split; [done|by apply nulterminate_reads].
Qed.

Lemma parsecmd_sound s : 0 ∉ s ->
  match parsecmd s with
  | POk (c, buf) _ => exists l, line_ok l /\ spells (line_tokens l) s /\ read_cmd buf c = line_cmd l
  | PPanic _ => True
  | PFuel => False
  end.
Proof.
  intros Hn. destruct (lex s Hn) as [ts Hts]. assert (H : at_tokens s 0%nat ts) by (split; [done|lia]).
  pose proof (parseline_sound s (4 * length s + 4)%nat 0%nat ts H ltac:(lia)) as Ha. unfold parsecmd. destruct (parseline s (4 * length s + 4)%nat 0%nat) as [c p| |]; [|done..].
  destruct Ha as (used & left & -> & Hl & _ & l & -> & Hok & Hd). cbn [pbind]. unfold peek. destruct (skip_tokens s p left Hl) as (Hp & _ & Hx).
  destruct (skip s is_space p =? length s)%nat eqn:Ee; [|done]. apply Nat.eqb_eq in Ee. cbn [negb]. exists l. split; [done|]. split; [|by apply nulterminate_reads].
  destruct left as [|t left]; [by rewrite app_nil_r in Hts|]. destruct Hx as (rest & Hx & Ht & _). rewrite Ee, drop_all in Hx.
  destruct (token_head t Ht) as (x & y & Ex & _). by rewrite Ex in Hx.
Qed.

(** C12: The parser of the shell returns for every line.  It accepts exactly the
    lines that the grammar of commands spells, with any white space between the
    tokens and at most nine words in a command; the tree it returns, with its
    words read back from the line after the NULs are put in, is the command the
    grammar gives the line.  All other lines end in a panic. *)
Theorem parsecmd_grammar s :
  0 ∉ s ->
  match parsecmd s with
  | POk (c, buf) _ =>
      (exists l, line_ok l /\ spells (line_tokens l) s) /\ forall l, line_ok l -> spells (line_tokens l) s -> read_cmd buf c = line_cmd l
  | PPanic _ => forall l, line_ok l -> ~ spells (line_tokens l) s
  | PFuel => False
  end.
Proof.
  intros Hn. pose proof (parsecmd_sound s Hn) as Hs. destruct (parsecmd s) as [[c buf] p|msg|] eqn:E; [| |done].
  - destruct Hs as (l & Hok & Hsp & Hr). split; [by exists l|]. intros l' Hok' Hsp'. destruct (parsecmd_complete s l' Hok' Hsp') as (c' & buf' & E' & Hr'). congruence.
  - intros l Hok Hsp. destruct (parsecmd_complete s l Hok Hsp) as (c' & buf' & E' & _). congruence.
Qed.

(** [parsecmd_grammar] on a pipeline with a redirection in the background. *)
Lemma parsecmd_grammar_witness :
  let s := chars "(ls;cat <a) | wc >>b&" in
  (0 ∉ s) /\ match parsecmd s with POk (c, buf) _ => exists l, line_ok l /\ spells (line_tokens l) s | _ => False end.
Proof.
  intros s. assert (Hn : 0 ∉ s) by (apply (bool_decide_eq_true_1 (0 ∉ s)); by vm_compute). split; [done|]. pose proof (parsecmd_grammar s Hn) as H.
  destruct (parsecmd s) as [[c buf] p| |] eqn:E; [apply H| |]; vm_compute in E; discriminate.
Defined.
