(* ===== verification/Xargs.v ===== *)
(** Xargs (user/xargs.c): it splits each line of its input in place and runs a
    command with the words of the line as further arguments. *)
From S2P Require Import Prelude Uprintf Sh.

Definition MAXLINE : nat := 512.
Definition MAXARG : nat := 32.
Abbreviation SPACE := 32.
Abbreviation NEWLINE := 10.

(** An argument: a string of the command line, or a pointer into the line. *)
Inductive arg : Type := Given (w : list Z) | At (p : nat).

(** The commands that were run; or a write past the end of argv_new. *)
Inductive outcome : Type := Runs (cmds : list (list (list Z))) | Overrun.

Abbreviation deref buf p := (default 0 (buf !! p)).

(** Skip spaces, and put NULs in their place. *)
Fixpoint skip_spaces (n : nat) (buf : list Z) (p : nat) : list Z * nat :=
  match n with
  | O => (buf, p)
  | S n => if deref buf p =? SPACE then skip_spaces n (<[p := 0]> buf) (S p) else (buf, p)
  end.
Fixpoint skip_word (n : nat) (buf : list Z) (p : nat) : nat :=
  match n with
  | O => p
  | S n => if negb (deref buf p =? 0) && negb (deref buf p =? SPACE) then skip_word n buf (S p) else p
  end.

(** Split the line in the buffer; each round passes a character. *)
Fixpoint split_line (fuel : nat) (buf : list Z) (p : nat) (argv_new : list arg) : option (list Z * list arg) :=
  match fuel with
  | O => Some (buf, argv_new)
  | S fuel =>
      if deref buf p =? 0 then Some (buf, argv_new)
      else
        let '(buf, p) := skip_spaces (length buf - p) buf p in
        if deref buf p =? 0 then Some (buf, argv_new)
        else if (MAXARG <=? length argv_new)%nat then None
        else split_line fuel buf (skip_word (length buf - p) buf p) (argv_new ++ [At p])
  end.

Definition read_arg (buf : list Z) (a : arg) : list Z := match a with Given w => w | At p => cstring (drop p buf) end.

(** The arguments of the command that a line runs. *)
Definition run_line (cmd : list (list Z)) (line : list Z) : option (list (list Z)) :=
  let buf := line ++ [0] in
  match split_line (length buf) buf 0 (Given <$> cmd) with
  | Some (buf, argv_new) => if (MAXARG <=? length argv_new)%nat then None else Some (read_arg buf <$> argv_new)
  | None => None
  end.

Fixpoint xargs_loop (cmd : list (list Z)) (input line : list Z) (cmds : list (list (list Z))) : outcome :=
  match input with
  | [] =>
      match line with
      | [] => Runs cmds
      | _ => match run_line cmd line with Some c => Runs (cmds ++ [c]) | None => Overrun end
      end
  | c :: input =>
      if c =? NEWLINE then
        match run_line cmd line with Some x => xargs_loop cmd input [] (cmds ++ [x]) | None => Overrun end
      else xargs_loop cmd input (if (length line <? MAXLINE - 1)%nat then line ++ [c] else line) cmds
  end.

(** main: the commands, what goes to the standard error, and the exit status. *)
Definition xargs_main (argv : list (list Z)) (input : list Z) : outcome * list Z * Z :=
  if (length argv <? 2)%nat then (Runs [], fprintf (chars "usage: xargs command [arg...]" ++ [10]) [], 1)
  else if (MAXARG <? length argv - 1)%nat then (Overrun, [], 0)
  else (xargs_loop (drop 1 argv) input [] [], [], 0).

(** * The lines and their words *)

(** The lines of a text, also an unfinished one at its end. *)
Fixpoint text_lines (cur input : list Z) : list (list Z) :=
  match input with
  | [] => match cur with [] => [] | _ => [cur] end
  | c :: input => if c =? NEWLINE then cur :: text_lines [] input else text_lines (cur ++ [c]) input
  end.

(** The words between spaces; [cur] is the word so far. *)
Fixpoint split_words (cur l : list Z) : list (list Z) :=
  match l with
  | [] => match cur with [] => [] | _ => [cur] end
  | c :: l => if c =? SPACE then match cur with [] => split_words [] l | _ => cur :: split_words [] l end else split_words (cur ++ [c]) l
  end.

(** What a line contributes: its first 511 characters, up to a NUL. *)
Definition line_words (line : list Z) : list (list Z) := split_words [] (cstring (take (MAXLINE - 1) line)).

(** * Splitting in place *)

Definition nonspace (c : Z) : Prop := c <> 0 /\ c <> SPACE.

Lemma split_words_word w l : Forall nonspace w -> forall cur, split_words cur (w ++ l) = split_words (cur ++ w) l.
Proof.
  induction 1 as [|c w [H0 Hs] _ IH]; intros cur; [by rewrite app_nil_r|]. cbn. rewrite (proj2 (Z.eqb_neq _ _) Hs), IH. by rewrite <- app_assoc.
Qed.
Lemma split_words_spaces k l : split_words [] (repeat SPACE k ++ l) = split_words [] l.
Proof. by induction k. Qed.

Lemma cstring_prefix w l : Forall nonspace w -> cstring (w ++ l) = w ++ cstring l.
Proof. induction 1 as [|c w [H0 _] _ IH]; [done|]. cbn. by rewrite (proj2 (Z.eqb_neq _ _) H0), IH. Qed.

Lemma spaces_prefix (l : list Z) : exists k rest, l = repeat SPACE k ++ rest /\ hd 0 rest <> SPACE.
Proof.
  induction l as [|c l (k & rest & -> & Hr)]; [by exists 0%nat, []|]. destruct (decide (c = SPACE)) as [->|Hc]; [by exists (S k), rest|].
  by exists 0%nat, (c :: repeat SPACE k ++ rest).
Qed.
Lemma word_prefix (l : list Z) : exists w rest, l = w ++ rest /\ Forall nonspace w /\ (hd 0 rest = 0 \/ hd 0 rest = SPACE).
Proof.
  induction l as [|c l (w & rest & -> & Hw & Hr)]; [exists [], []; by split_and!; try left|].
  destruct (decide (c = 0)) as [->|H0]; [exists [], (0 :: w ++ rest); by split_and!; try left|].
  destruct (decide (c = SPACE)) as [->|Hs]; [exists [], (SPACE :: w ++ rest); by split_and!; try right|].
  exists (c :: w), rest. split_and!; try done. by constructor.
Qed.

Lemma deref_drop (buf : list Z) p : deref buf p = hd 0 (drop p buf).
Proof. rewrite <- (Nat.add_0_r p) at 1. rewrite <- lookup_drop. by destruct (drop p buf). Qed.

Lemma drop_next (buf : list Z) p c l : drop p buf = c :: l -> drop (S p) buf = l /\ (p < length buf)%nat.
Proof.
  intros H. split; [|pose proof (f_equal length H) as E; rewrite length_drop in E; cbn in E; lia].
  by rewrite <- Nat.add_1_r, <- drop_drop, H.
Qed.

Lemma skip_spaces_ok k : forall n buf p rest,
  drop p buf = repeat SPACE k ++ rest -> (k <= n)%nat -> (p <= length buf)%nat -> hd 0 rest <> SPACE ->
  skip_spaces n buf p = (take p buf ++ repeat 0 k ++ rest, (p + k)%nat).
Proof.
  induction k as [|k IH]; intros n buf p rest Hd Hn Hp Hr.
  - cbn in Hd. assert (E : skip_spaces n buf p = (buf, p)).
    { destruct n; [done|]. cbn. by rewrite deref_drop, Hd, (proj2 (Z.eqb_neq _ _) Hr). }
    rewrite E, Nat.add_0_r. cbn. by rewrite <- Hd, take_drop.
  - destruct n as [|n]; [lia|]. cbn in Hd. destruct (drop_next _ _ _ _ Hd) as [Hd' Hlt]. cbn [skip_spaces]. rewrite deref_drop, Hd. cbn [hd Z.eqb Pos.eqb].
    rewrite (IH n (<[p := 0]> buf) (S p) rest); [|by rewrite drop_insert_lt by lia|lia|by rewrite length_insert; lia|done].
    rewrite (take_S_r _ _ 0) by (by apply list_lookup_insert_eq). rewrite take_insert_ge by lia. rewrite <- app_assoc. f_equal. lia.
Qed.

Lemma skip_word_ok w : forall n buf p rest,
  Forall nonspace w -> drop p buf = w ++ rest -> (length w <= n)%nat -> hd 0 rest = 0 \/ hd 0 rest = SPACE -> skip_word n buf p = (p + length w)%nat.
Proof.
  induction w as [|c w IH]; intros n buf p rest Hw Hd Hn Hr.
  - rewrite Nat.add_0_r. destruct n; [done|]. cbn. rewrite deref_drop, Hd. cbn. by destruct Hr as [-> | ->].
  - destruct n as [|n]; [cbn in Hn; lia|]. apply Forall_cons in Hw as [[H0 Hs] Hw]. destruct (drop_next _ _ _ _ Hd) as [Hd' _]. cbn [skip_word]. rewrite deref_drop, Hd.
    cbn [hd app]. rewrite (proj2 (Z.eqb_neq _ _) H0), (proj2 (Z.eqb_neq _ _) Hs). cbn. rewrite (IH n buf (S p) rest Hw Hd') by (done || cbn in Hn; lia). lia.
Qed.

(** The words of a buffer from a position on, one by one. *)
Lemma words_next k w rest : Forall nonspace w -> w <> [] -> hd 0 rest = 0 \/ hd 0 rest = SPACE ->
  split_words [] (cstring (repeat SPACE k ++ w ++ rest)) = w :: split_words [] (cstring rest).
Proof.
  intros Hw Hne Hr. assert (E : cstring (repeat SPACE k ++ w ++ rest) = repeat SPACE k ++ w ++ cstring rest) by (induction k as [|k IH]; cbn; [by apply cstring_prefix|by rewrite IH]).
  rewrite E, split_words_spaces, split_words_word by done. destruct w as [|c w]; [done|]. destruct rest as [|x rest]; [done|]. cbn in Hr. by destruct Hr as [-> | ->].
Qed.
Lemma words_none k rest : hd 0 rest = 0 -> split_words [] (cstring (repeat SPACE k ++ rest)) = [].
Proof. intros Hr. induction k as [|k IH]; cbn; [|done]. destruct rest as [|x rest]; [done|]. cbn in *. by subst. Qed.

Definition splits (buf : list Z) (p : nat) (argv : list arg) (ws : list (list Z)) (r : option (list Z * list arg)) : Prop :=
  if (length argv + length ws <=? MAXARG)%nat then
    exists buf' ps, r = Some (buf', argv ++ (At <$> ps)) /\ take p buf' = take p buf /\ ((fun q => cstring (drop q buf')) <$> ps) = ws /\
      (hd 0 (drop p buf) = 0 \/ hd 0 (drop p buf) = SPACE -> hd 0 (drop p buf') = 0)
  else r = None.

Lemma split_line_ok fuel : forall buf p argv,
  (p + length (drop p buf) <= p + fuel)%nat -> last (drop p buf) = Some 0 -> (length argv <= MAXARG)%nat ->
  splits buf p argv (split_words [] (cstring (drop p buf))) (split_line fuel buf p argv).
Proof.
  induction fuel as [|fuel IH]; intros buf p argv Hf Hl Ha; [destruct (drop p buf); [done|cbn in Hf; lia]|].
  assert (Hp : (p < length buf)%nat) by (destruct (decide (p < length buf)%nat); [done|]; by rewrite drop_ge in Hl by lia).
  cbn [split_line]. rewrite deref_drop. destruct (Z.eqb_spec (hd 0 (drop p buf)) 0) as [E0|E0].
  { pose proof (words_none 0 (drop p buf) E0) as Ew. cbn [repeat app] in Ew. rewrite Ew. unfold splits. cbn [length]. rewrite (proj2 (Nat.leb_le _ _)) by lia.
    exists buf, []. rewrite app_nil_r. by split_and!. }
  destruct (spaces_prefix (drop p buf)) as (k & rest & Ed & Hr). pose proof (f_equal length Ed) as El. rewrite length_app, repeat_length, length_drop in El.
  rewrite (skip_spaces_ok k _ buf p rest) by (done || lia). set (buf1 := take p buf ++ repeat 0 k ++ rest).
  assert (T1 : take p buf1 = take p buf) by (unfold buf1; apply take_app_length'; rewrite length_take; lia).
  assert (D1 : drop p buf1 = repeat 0 k ++ rest) by (unfold buf1; apply drop_app_length'; rewrite length_take; lia).
  assert (D2 : drop (p + k) buf1 = rest) by (rewrite <- drop_drop, D1; apply drop_app_length'; by rewrite repeat_length).
  assert (Lb : length buf1 = length buf) by (unfold buf1; rewrite !length_app, length_take, repeat_length; lia).
  rewrite deref_drop, D2. destruct (Z.eqb_spec (hd 0 rest) 0) as [E1|E1].
  { rewrite Ed, (words_none k rest E1). unfold splits. cbn [length]. rewrite (proj2 (Nat.leb_le _ _)) by lia. exists buf1, []. rewrite app_nil_r.
    split_and!; try done. intros _. rewrite D1. by destruct k. }
  destruct (word_prefix rest) as (w & rest2 & -> & Hw & Hr2).
  assert (Hne : w <> []) by (intros ->; cbn in *; intuition). rewrite Ed, (words_next k w rest2 Hw Hne Hr2).
  destruct (MAXARG <=? length argv)%nat eqn:Em.
  { unfold splits. cbn [length]. apply Nat.leb_le in Em. by rewrite (proj2 (Nat.leb_gt _ _)) by lia. }
  apply Nat.leb_gt in Em. rewrite length_app in El. rewrite (skip_word_ok w _ buf1 (p + k) rest2 Hw D2) by (done || rewrite Lb; lia).
  assert (D3 : drop (p + k + length w) buf1 = rest2) by (rewrite <- drop_drop, D2; by apply drop_app_length').
  assert (Lr : last rest2 = Some 0).
  { rewrite Ed, !last_app in Hl. destruct (last rest2) as [x|] eqn:Ex; [done|]. apply last_None in Ex. subst rest2. cbn in *. destruct (last w) as [x|] eqn:Elw; [|by apply last_None in Elw].
    injection Hl as ->. apply last_Some in Elw as (w' & ->). apply Forall_app in Hw as [_ [[Hx _] _]%Forall_cons]. done. }
  rewrite length_drop in Hf. assert (Hwl : (0 < length w)%nat) by (destruct w; [done|cbn; lia]).
  pose proof (IH buf1 (p + k + length w)%nat (argv ++ [At (p + k)%nat])) as H. rewrite D3 in H. specialize (H ltac:(lia) Lr ltac:(rewrite length_app; cbn; lia)).
  unfold splits in *. rewrite length_app in H. cbn [length] in *. replace (length argv + 1 + _)%nat with (length argv + S (length (split_words [] (cstring rest2))))%nat in H by lia.
  destruct (length argv + S _ <=? MAXARG)%nat; [|done]. destruct H as (buf' & ps & E & Ht & Hws & Hh). exists buf', ((p + k)%nat :: ps).
  assert (Tk : drop (p + k) buf' = w ++ drop (p + k + length w) buf').
  { rewrite <- (drop_drop buf' (length w) (p + k)). etrans; [symmetry; apply (take_drop (length w))|]. f_equal. rewrite take_drop_commute, Ht, <- take_drop_commute, D2. by apply take_app_length'. }
  split_and!.
  - rewrite E. by rewrite <- app_assoc.
  - rewrite <- T1. transitivity (take p (take (p + k + length w) buf')); [by rewrite take_take, Nat.min_l by lia|]. by rewrite Ht, take_take, Nat.min_l by lia.
  - cbn [fmap list_fmap]. rewrite Hws. f_equal. rewrite Tk. rewrite D3 in Hh. specialize (Hh Hr2). rewrite cstring_prefix by done.
    destruct (drop (p + k + length w) buf') as [|x l]; [by rewrite app_nil_r|]. cbn in *. subst x. by rewrite app_nil_r.
  - intros [Hx|Hx]; [done|]. destruct k as [|k]; [rewrite Ed in Hx; by destruct w|].
    rewrite <- (deref_drop buf'). assert (El' : forall b : list Z, take (p + S k + length w) b !! p = b !! p) by (intros b; apply lookup_take_lt; lia).
    rewrite <- El', Ht, El'. by rewrite deref_drop, D1.
Qed.

(** * Whole runs *)

Definition line_fits (cmd : list (list Z)) (line : list Z) : bool := (length cmd + length (line_words line) <? MAXARG)%nat.

Lemma cstring_nul l : cstring (l ++ [0]) = cstring l.
Proof. induction l as [|c l IH]; [done|]. cbn. by rewrite IH. Qed.

Lemma run_line_ok cmd line : (length cmd <= MAXARG)%nat ->
  run_line cmd (take (MAXLINE - 1) line) = if line_fits cmd line then Some (cmd ++ line_words line) else None.
Proof.
  intros Hc. unfold run_line, line_fits, line_words. set (t := take (MAXLINE - 1) line).
  pose proof (split_line_ok (length (t ++ [0])) (t ++ [0]) 0 (Given <$> cmd)) as H. rewrite drop_0, cstring_nul, length_fmap in H.
  specialize (H ltac:(lia) ltac:(apply last_snoc) Hc). unfold splits in H. rewrite length_fmap in H. destruct (Nat.leb_spec (length cmd + length (split_words [] (cstring t))) MAXARG) as [Hle|Hgt].
  - destruct H as (buf' & ps & -> & _ & Hw & _). rewrite <- Hw in *. rewrite length_fmap in Hle. rewrite !length_app, !length_fmap.
    destruct (Nat.leb_spec MAXARG (length cmd + length ps)); [by rewrite (proj2 (Nat.ltb_ge _ _)) by lia|]. rewrite (proj2 (Nat.ltb_lt _ _)) by lia.
    f_equal. rewrite fmap_app, <- !list_fmap_compose. f_equal. induction cmd as [|x cmd IH]; [done|]. cbn in *. f_equal. apply IH; cbn in *; lia.
  - rewrite H. by rewrite (proj2 (Nat.ltb_ge _ _)) by lia.
Qed.

Lemma xargs_loop_ok cmd : (length cmd <= MAXARG)%nat -> forall input cur cmds,
  xargs_loop cmd input (take (MAXLINE - 1) cur) cmds =
    if forallb (line_fits cmd) (text_lines cur input) then Runs (cmds ++ ((fun l => cmd ++ line_words l) <$> text_lines cur input)) else Overrun.
Proof.
  intros Hc. induction input as [|c input IH]; intros cur cmds; cbn [xargs_loop text_lines].
  - destruct cur as [|x cur]; [cbn; by rewrite app_nil_r|]. change (take (MAXLINE - 1) (x :: cur)) with (x :: take 510 cur) at 1. cbv iota.
    rewrite run_line_ok by done. cbn [forallb fmap list_fmap]. rewrite andb_true_r. by destruct (line_fits cmd (x :: cur)).
  - destruct (c =? NEWLINE).
    + rewrite run_line_ok by done. cbn [forallb fmap list_fmap]. destruct (line_fits cmd cur); [|done]. cbn [andb]. rewrite (IH [] _). by rewrite <- app_assoc.
    + rewrite <- IH. f_equal. rewrite length_take. destruct (Nat.ltb_spec (Nat.min (MAXLINE - 1) (length cur)) (MAXLINE - 1)) as [H|H].
      * rewrite !take_ge by (rewrite ?length_app; cbn [length]; lia). done.
      * by rewrite take_app_le by lia.
Qed.

(** C40: xargs with a command of at most 31 arguments runs it once for each line
    of its input, an unfinished last line included, with the words of the first
    511 characters of the line as further arguments, in order; if a line brings
    the arguments to more than 31, it writes past the end of the array of
    arguments. *)
Theorem xargs_correct name cmd input :
  cmd <> [] -> (length cmd <= MAXARG)%nat ->
  let ls := text_lines [] input in
  xargs_main (name :: cmd) input =
    (if forallb (fun l => length cmd + length (line_words l) <? MAXARG)%nat ls then Runs ((fun l => cmd ++ line_words l) <$> ls) else Overrun, [], 0).
Proof.
  intros Hne Hc ls. unfold xargs_main. cbn [length drop]. destruct cmd as [|x cmd]; [done|]. cbn [length]. rewrite (proj2 (Nat.ltb_ge _ _)) by lia.
  rewrite (proj2 (Nat.ltb_ge _ _)) by (cbn [length] in Hc; lia). pose proof (xargs_loop_ok (x :: cmd) Hc input [] []) as E. rewrite take_nil in E.
  by rewrite drop_0, E.
Qed.

(** [xargs_correct] on two lines, and on a line with too many words. *)
Lemma xargs_correct_witness :
  xargs_main [chars "xargs"; chars "echo"; chars "x"] (chars "a  b" ++ [10] ++ chars " c") =
    (Runs [[chars "echo"; chars "x"; chars "a"; chars "b"]; [chars "echo"; chars "x"; chars "c"]], [], 0) /\
  xargs_main [chars "xargs"; chars "echo"] (concat (repeat (chars "a ") 31)) = (Overrun, [], 0).
Proof.
  split.
  - rewrite (xargs_correct (chars "xargs") [chars "echo"; chars "x"]) by (done || unfold MAXARG; cbn; lia). reflexivity.
  - rewrite (xargs_correct (chars "xargs") [chars "echo"]) by (done || unfold MAXARG; cbn; lia). reflexivity.
Defined.
