(* ===== verification/Umalloc.v ===== *)
(** The memory allocator of user programs (user/umalloc.c).  Addresses are
    counted in units of a Header, 16 bytes, to which all its pointers are
    aligned; a header is a pointer to the next free block and a size in units. *)
From S2P Require Import Prelude.

Definition header : Type := Z * Z.
Definition HDR : Z := 16.

(** The memory as headers, and [freep], 0 for null. *)
Record heap : Type := mk_heap { hp_mem : gmap Z header ; freep : Z }.

Definition hget (m : gmap Z header) (a : Z) : header := default (0, 0) (m !! a).
Definition hptr (s : heap) (a : Z) : Z := (hget (hp_mem s) a).1.
Definition hsize (s : heap) (a : Z) : Z := (hget (hp_mem s) a).2.
Definition set_hdr (a ptr size : Z) (s : heap) : heap := mk_heap (<[a := (ptr, size)]> (hp_mem s)) (freep s).
Definition set_freep (p : Z) (s : heap) : heap := mk_heap (hp_mem s) p.

Section Allocator.
(** The address of [base]. *)
Context (base : Z).

(** The for loop of free: the free block after which [bp] goes. *)
Fixpoint free_find (fuel : nat) (s : heap) (bp p : Z) : option Z :=
  match fuel with
  | O => None
  | S fuel =>
      if (p <? bp) && (bp <? hptr s p) then Some p
      else if (hptr s p <=? p) && ((p <? bp) || (bp <? hptr s p)) then Some p
      else free_find fuel s bp (hptr s p)
  end.

(** Put [bp] after [p], joined with its neighbours. *)
Definition free_at (s : heap) (bp p : Z) : heap :=
  let nx := hptr s p in
  let s := if bp + hsize s bp =? nx then set_hdr bp (hptr s nx) (u32 (hsize s bp + hsize s nx)) s else set_hdr bp nx (hsize s bp) s in
  let s := if p + hsize s p =? bp then set_hdr p (hptr s bp) (u32 (hsize s p + hsize s bp)) s else set_hdr p bp (hsize s p) s in
  set_freep p s.

(** The loop goes around the free blocks less than twice. *)
Definition ring_fuel (s : heap) : nat := 2 * size (hp_mem s) + 3.
Definition free (s : heap) (ap : Z) : option heap :=
  let bp := ap - 1 in
  match free_find (ring_fuel s) s bp (freep s) with
  | Some p => Some (free_at s bp p)
  | None => None
  end.

(** [sb] is what the next calls of sbrk return, [None] for -1. *)
Definition morecore_size (nu : Z) : Z := if nu <? 4096 then 4096 else nu.
Definition morecore (s : heap) (nu : Z) (sb : list (option Z)) : option (option heap * list (option Z)) :=
  let nu := morecore_size nu in
  match default None (head sb) with
  | None => Some (None, tail sb)
  | Some hp => match free (set_hdr hp (hptr s hp) nu s) (hp + 1) with Some s => Some (Some s, tail sb) | None => None end
  end.

(** Take the block [p], which comes after [prevp], or the end of it. *)
Definition take_block (s : heap) (nunits prevp p : Z) : heap * Z :=
  if hsize s p =? nunits then (set_freep prevp (set_hdr prevp (hptr s p) (hsize s prevp) s), p + 1)
  else
    let s := set_hdr p (hptr s p) (u32 (hsize s p - nunits)) s in
    let p := p + hsize s p in
    let s := set_hdr p (hptr s p) nunits s in
    (set_freep prevp s, p + 1).

(** The new state, the pointer, and the answers of sbrk that were not asked for. *)
Fixpoint malloc_loop (fuel : nat) (s : heap) (sb : list (option Z)) (nunits prevp p : Z) : option (heap * Z * list (option Z)) :=
  match fuel with
  | O => None
  | S fuel =>
      if nunits <=? hsize s p then Some (take_block s nunits prevp p, sb)
      else if p =? freep s then
        match morecore s nunits sb with
        | None => None
        | Some (None, sb) => Some (s, 0, sb)
        | Some (Some s, sb) => malloc_loop fuel s sb nunits (freep s) (hptr s (freep s))
        end
      else malloc_loop fuel s sb nunits p (hptr s p)
  end.

Definition malloc_units (nbytes : Z) : Z := u32 ((nbytes + HDR - 1) / HDR + 1).
Definition malloc_init (s : heap) : heap := if freep s =? 0 then set_freep base (set_hdr base base 0 s) else s.
Definition malloc (s : heap) (nbytes : Z) (sb : list (option Z)) : option (heap * Z * list (option Z)) :=
  let nunits := malloc_units nbytes in
  let s := malloc_init s in
  malloc_loop (2 * ring_fuel s + 4) s sb nunits (freep s) (hptr s (freep s)).
End Allocator.
