(* ===== verification/UmallocSpec.v ===== *)
(** The allocator of user programs keeps its free blocks in a ring sorted by
    address, and hands out blocks that overlap no other block. *)
From S2P Require Import Prelude Umalloc.

Abbreviation block := (Z * Z)%type (only parsing).

(** The units of some blocks. *)
Definition cells (l : list (Z * Z)) : list Z := concat ((fun b => seqZ b.1 b.2) <$> l).

(** The blocks [l] follow one another in the memory, after [x]. *)
Fixpoint chain (m : gmap Z header) (x : Z) (l : list (Z * Z)) : Prop :=
  match l with
  | [] => True
  | b :: l => (hget m x).1 = b.1 /\ (hget m b.1).2 = b.2 /\ chain m b.1 l
  end.

(** They are in order and do not overlap. *)
Fixpoint ascending (lo : Z) (l : list (Z * Z)) : Prop :=
  match l with
  | [] => True
  | b :: l => lo <= b.1 /\ 1 <= b.2 /\ ascending (b.1 + b.2) l
  end.

Definition last_addr (x : Z) (l : list (Z * Z)) : Z := match last l with Some b => b.1 | None => x end.

Lemma last_addr_cons x b l : last_addr x (b :: l) = last_addr b.1 l.
Proof.
  unfold last_addr. destruct l as [|c l]; [done|]. change (last (b :: c :: l)) with (last (c :: l)). destruct (last (c :: l)) eqn:E; [done|]. by apply last_None in E.
Qed.
Lemma last_addr_snoc x l b : last_addr x (l ++ [b]) = b.1.
Proof. unfold last_addr. by rewrite last_snoc. Qed.
Lemma last_addr_in x l : last_addr x l = x /\ l = [] \/ last_addr x l ∈ l.*1.
Proof.
  unfold last_addr. destruct (last l) as [b|] eqn:E; [|left; by apply last_None in E]. right. apply last_Some in E as (l' & ->). rewrite fmap_app. set_solver.
Qed.

Lemma hget_insert m a h b : hget (<[a := h]> m) b = if decide (a = b) then h else hget m b.
Proof. unfold hget. destruct (decide (a = b)) as [->|]; [by rewrite lookup_insert_eq|by rewrite lookup_insert_ne]. Qed.

(** ** Chains *)

Lemma links_app m x l1 l2 : chain m x (l1 ++ l2) <-> chain m x l1 /\ chain m (last_addr x l1) l2.
Proof.
  revert x. induction l1 as [|b l1 IH]; intros x; [cbn; tauto|]. rewrite last_addr_cons. cbn [app chain]. rewrite IH. tauto.
Qed.

Lemma chain_frame m x l z h : z ∉ x :: l.*1 -> chain (<[z := h]> m) x l <-> chain m x l.
Proof.
  revert x. induction l as [|b l IH]; intros x Hz; [done|]. cbn in *. rewrite !hget_insert, !decide_False, IH by set_solver. done.
Qed.

(** A chain depends on its start only through the pointer there. *)
Lemma chain_start m m' x y l : (hget m' y).1 = (hget m x).1 -> (forall b, b ∈ l -> hget m' b.1 = hget m b.1) -> chain m x l -> chain m' y l.
Proof.
  revert x y. induction l as [|b l IH]; intros x y Hp Hm Hc; [done|]. cbn in *. destruct Hc as (H1 & H2 & H3). rewrite Hp, (Hm b) by set_solver.
  split_and!; try done. apply (IH b.1 b.1); [by rewrite Hm by set_solver|set_solver|done].
Qed.

(** The last block of a chain, with another header. *)
Lemma chain_last m x l p n v k : p ∉ x :: l.*1 -> chain m x (l ++ [(p, n)]) -> chain (<[p := (v, k)]> m) x (l ++ [(p, k)]).
Proof.
  intros Hp [H1 H2]%links_app. apply links_app. split; [by apply chain_frame|]. cbn in *. destruct H2 as (H2 & H3 & _).
  assert (p <> last_addr x l) by (intros E; apply Hp; rewrite E; destruct (last_addr_in x l) as [[-> _]|H]; set_solver).
  rewrite !hget_insert, decide_False, decide_True by done. done.
Qed.

(** ** Order *)

Lemma ascending_app lo l1 l2 : ascending lo (l1 ++ l2) <-> ascending lo l1 /\ ascending (match last l1 with Some b => b.1 + b.2 | None => lo end) l2.
Proof.
  revert lo. induction l1 as [|b l1 IH]; intros lo; [cbn; tauto|]. cbn [app ascending]. rewrite IH. destruct l1 as [|c l1]; [cbn; tauto|].
  change (last (b :: c :: l1)) with (last (c :: l1)). destruct (last (c :: l1)) eqn:E; [tauto|]. by apply last_None in E.
Qed.

Lemma ascending_weaken lo lo' l : lo' <= lo -> ascending lo l -> ascending lo' l.
Proof. destruct l; [done|]. cbn. intros H (H1 & H2). split; [lia|done]. Qed.

Lemma ascending_bounds lo l b : ascending lo l -> b ∈ l -> lo <= b.1 /\ 1 <= b.2.
Proof.
  revert lo. induction l as [|c l IH]; intros lo Ha Hb; [set_solver|]. cbn in Ha. destruct Ha as (H1 & H2 & H3). apply elem_of_cons in Hb as [->|Hb]; [done|].
  destruct (IH _ H3 Hb). lia.
Qed.

Lemma ascending_NoDup lo l : ascending lo l -> NoDup (l.*1) /\ forall a, a ∈ l.*1 -> lo <= a.
Proof.
  revert lo. induction l as [|c l IH]; intros lo Ha; [split; [constructor|set_solver]|]. cbn in Ha. destruct Ha as (H1 & H2 & H3). destruct (IH _ H3) as [Hn Hb]. cbn.
  split; [constructor; [intros Hin; specialize (Hb _ Hin); lia|done]|]. intros a [->|Ha]%elem_of_cons; [done|]. specialize (Hb a Ha). lia.
Qed.

(** Where a block goes in the order. *)
Lemma ascending_split lo l a : ascending lo l -> exists l1 l2, l = l1 ++ l2 /\ (forall b, b ∈ l1 -> b.1 < a) /\ (forall b, b ∈ l2 -> a <= b.1).
Proof.
  revert lo. induction l as [|c l IH]; intros lo Ha; [exists [], []; split_and!; set_solver|]. cbn in Ha. destruct Ha as (H1 & H2 & H3).
  destruct (decide (c.1 < a)).
  - destruct (IH _ H3) as (l1 & l2 & -> & Hl1 & Hl2). exists (c :: l1), l2. split_and!; try done. intros b [->|Hb]%elem_of_cons; [done|by apply Hl1].
  - exists [], (c :: l). split_and!; [done|set_solver|]. intros b [->|Hb]%elem_of_cons; [lia|]. destruct (ascending_bounds _ _ _ H3 Hb). lia.
Qed.

(** ** Cells *)

Lemma cells_app l1 l2 : cells (l1 ++ l2) = cells l1 ++ cells l2.
Proof. unfold cells. by rewrite fmap_app, concat_app. Qed.
Lemma cells_cons b l : cells (b :: l) = seqZ b.1 b.2 ++ cells l.
Proof. done. Qed.
Lemma elem_of_cells c l : c ∈ cells l <-> exists b, b ∈ l /\ b.1 <= c < b.1 + b.2.
Proof.
  induction l as [|b l IH]; [cbn; set_solver|]. rewrite cells_cons, elem_of_app, elem_of_seqZ, IH. split.
  - intros [H|(d & Hd & H)]; [exists b|exists d]; set_solver.
  - intros (d & [->|Hd]%elem_of_cons & H); [by left|right; by exists d].
Qed.
Lemma seqZ_join a n k : 0 <= n -> 0 <= k -> seqZ a n ++ seqZ (a + n) k = seqZ a (n + k).
Proof. intros Hn Hk. by rewrite <- seqZ_app by lia. Qed.

Section Ring.
Context (base : Z).
Hypothesis (Hbase : 0 < base).

(** The free blocks [F], the allocated blocks [A] and the memory [H] from sbrk:
    the free blocks are a ring through [base], sorted by address, and all blocks
    together are the memory. *)
Record wf (m : gmap Z header) (F A H : list (Z * Z)) : Prop := {
  wf_chain : chain m base (F ++ [(base, 0)]);
  wf_asc : ascending (base + 1) F;
  wf_alloc : forall b, b ∈ A -> (hget m b.1).2 = b.2 /\ 1 <= b.2;
  wf_cells : cells (F ++ A) ≡ₚ cells H;
  wf_nodup : NoDup (cells H);
  wf_range : forall c, c ∈ cells H -> base < c < 2 ^ 32
}.

Lemma wf_disjoint m F A H : wf m F A H -> NoDup (cells F ++ cells A) /\ forall c, c ∈ cells F \/ c ∈ cells A -> base < c < 2 ^ 32.
Proof.
  intros [_ _ _ Hc Hn Hr]. rewrite cells_app in Hc. split; [by rewrite Hc|]. intros c Hin. apply Hr. rewrite <- Hc. set_solver.
Qed.

(** An allocated block and a free one do not overlap. *)
Lemma wf_apart m F A H a b : wf m F A H -> a ∈ A -> b ∈ F -> a.1 + a.2 <= b.1 \/ b.1 + b.2 <= a.1.
Proof.
  intros Hw Ha Hb. destruct (wf_disjoint _ _ _ _ Hw) as [Hn _]. apply NoDup_app in Hn as (_ & Hn & _). pose proof (wf_alloc _ _ _ _ Hw a Ha) as [_ Ha1].
  pose proof (ascending_bounds _ _ _ (wf_asc _ _ _ _ Hw) Hb) as [_ Hb1].
  destruct (decide (a.1 + a.2 <= b.1)); [by left|]. destruct (decide (b.1 + b.2 <= a.1)); [by right|]. exfalso.
  apply (Hn (Z.max a.1 b.1)); apply elem_of_cells; [exists b|exists a]; (split; [done|lia]).
Qed.

(** ** free *)

Lemma find_low s bp L2 : base < bp -> (forall b, b ∈ L2 -> bp < b.1) -> forall l1 x fuel,
  chain (hp_mem s) x (l1 ++ L2 ++ [(base, 0)]) -> ascending (x + 1) l1 -> x < bp -> base <= x -> (forall b, b ∈ l1 -> b.1 < bp) ->
  (length l1 < fuel)%nat -> free_find fuel s bp x = Some (last_addr x l1).
Proof.
  intros Hbp H2. induction l1 as [|b l1 IH]; intros x fuel Hc Ha Hx Hbx Hl Hf; (destruct fuel as [|fuel]; [lia|]); cbn [free_find]; unfold hptr.
  - destruct L2 as [|c L2]; cbn in Hc; destruct Hc as (Hp & _); rewrite Hp; cbn.
    + rewrite (proj2 (Z.ltb_ge bp base)), andb_false_r, (proj2 (Z.leb_le _ _)), (proj2 (Z.ltb_lt x bp)) by lia. done.
    + specialize (H2 c ltac:(set_solver)). rewrite (proj2 (Z.ltb_lt x bp)), (proj2 (Z.ltb_lt bp c.1)) by lia. done.
  - cbn in Hc, Ha. destruct Hc as (Hp & Hs & Hc), Ha as (Ha1 & Ha2 & Ha3). pose proof (Hl b ltac:(set_solver)) as Hb. rewrite Hp, last_addr_cons.
    rewrite (proj2 (Z.ltb_ge bp b.1)), andb_false_r, (proj2 (Z.leb_gt b.1 x)) by lia. cbn [andb].
    apply IH; [done|by eapply ascending_weaken; [|exact Ha3]; lia|done|lia|set_solver|cbn in Hf; lia].
Qed.

Lemma find_high s bp : base < bp -> forall l2 x fuel, chain (hp_mem s) x (l2 ++ [(base, 0)]) -> ascending (x + 1) l2 -> bp < x ->
  free_find (S (length l2) + fuel) s bp x = free_find fuel s bp base.
Proof.
  intros Hbp. induction l2 as [|b l2 IH]; intros x fuel Hc Ha Hx; cbn [length Nat.add free_find]; unfold hptr; rewrite (proj2 (Z.ltb_ge x bp)) by lia; cbn [andb orb].
  - cbn in Hc. destruct Hc as (-> & _). cbn. by rewrite (proj2 (Z.ltb_ge bp base)), andb_false_r by lia.
  - cbn in Hc, Ha. destruct Hc as (Hp & Hs & Hc), Ha as (Ha1 & Ha2 & Ha3). rewrite Hp, (proj2 (Z.leb_gt b.1 x)) by lia. cbn [andb].
    apply IH; [done|by eapply ascending_weaken; [|exact Ha3]; lia|lia].
Qed.

Lemma free_find_more fuel : forall k s bp x p, free_find fuel s bp x = Some p -> free_find (fuel + k) s bp x = Some p.
Proof.
  induction fuel as [|fuel IH]; intros k s bp x p H; [done|]. cbn [Nat.add free_find] in *. repeat (case_match; [done|]). by apply IH.
Qed.

Lemma find_block s bp L1 L2 : base < bp -> chain (hp_mem s) base ((L1 ++ L2) ++ [(base, 0)]) -> ascending (base + 1) (L1 ++ L2) ->
  (forall b, b ∈ L1 -> b.1 < bp) -> (forall b, b ∈ L2 -> bp < b.1) -> freep s ∈ base :: (L1 ++ L2).*1 ->
  free_find (2 * length (L1 ++ L2) + 3) s bp (freep s) = Some (last_addr base L1).
Proof.
  intros Hbp Hc Ha H1 H2 Hin. rewrite length_app. assert (Hb : forall fuel, (length L1 < fuel)%nat -> free_find fuel s bp base = Some (last_addr base L1)).
  { intros fuel Hf. apply (find_low s bp L2 Hbp H2 L1 base fuel); [by rewrite app_assoc|by apply ascending_app in Ha as [Ha _]|done|done|done|done]. }
  rewrite fmap_app in Hin. apply elem_of_cons in Hin as [->|[Hin|Hin]%elem_of_app]; [apply Hb; lia|..].
  - apply list_elem_of_fmap in Hin as ([a n] & -> & Hin). apply list_elem_of_split in Hin as (l1 & l2 & ->). cbn [fst].
    rewrite <- !app_assoc in Hc. rewrite <- !app_assoc in Ha. cbn [app] in Hc, Ha.
    apply links_app in Hc as [_ (_ & _ & Hc)]. pose proof Ha as Ha'. apply ascending_app in Ha as [_ (_ & Ha1 & Ha)]. apply ascending_app in Ha as [Ha _]. cbn in Ha, Ha1, Hc.
    assert (Hba : base + 1 <= a) by (apply (ascending_bounds _ _ (a, n) Ha'); set_solver).
    rewrite (find_low s bp L2 Hbp H2 l2 a); [|done|by eapply ascending_weaken; [|exact Ha]; lia|exact (H1 (a, n) ltac:(set_solver))|lia|set_solver|rewrite length_app; cbn; lia].
    f_equal. unfold last_addr. rewrite last_app. change ((a, n) :: l2) with ([(a, n)] ++ l2). rewrite last_app. by destruct (last l2).
  - apply list_elem_of_fmap in Hin as ([a n] & -> & Hin). apply list_elem_of_split in Hin as (l1 & l2 & ->). cbn [fst]. rewrite <- !app_assoc in Hc. cbn [app] in Hc.
    rewrite app_assoc in Hc. apply links_app in Hc as [_ (_ & _ & Hc)]. rewrite app_assoc in Ha. apply ascending_app in Ha as [_ (_ & Ha1 & Ha)]. cbn in Ha, Ha1, Hc.
    rewrite length_app. cbn [length]. replace (2 * _ + 3)%nat with (S (length l2) + (length L1 + length L1 + (length l1 + length l1) + length l2 + 4))%nat by lia.
    rewrite (find_high s bp Hbp l2 a); [apply Hb; lia|done|by eapply ascending_weaken; [|exact Ha]; lia|exact (H2 (a, n) ltac:(set_solver))].
Qed.

Definition mem_right (m : gmap Z header) (bp p : Z) : gmap Z header :=
  let nx := (hget m p).1 in
  if bp + (hget m bp).2 =? nx then <[bp := ((hget m nx).1, u32 ((hget m bp).2 + (hget m nx).2))]> m else <[bp := (nx, (hget m bp).2)]> m.
Definition mem_left (m : gmap Z header) (bp p : Z) : gmap Z header :=
  if p + (hget m p).2 =? bp then <[p := ((hget m bp).1, u32 ((hget m p).2 + (hget m bp).2))]> m else <[p := (bp, (hget m p).2)]> m.

Lemma free_at_mem s bp p : hp_mem (free_at s bp p) = mem_left (mem_right (hp_mem s) bp p) bp p /\ freep (free_at s bp p) = p.
Proof.
  unfold free_at, mem_left, mem_right, set_hdr, set_freep, hptr, hsize. split; [|done]. cbn [hp_mem freep]. destruct (bp + _ =? _); cbn [hp_mem freep]; by destruct (p + _ =? _).
Qed.

Lemma join_right m p bp n L2 :
  chain m p (L2 ++ [(base, 0)]) -> (hget m bp).2 = n -> 1 <= n -> base < bp -> ascending (bp + n) L2 -> (forall c, c ∈ cells L2 -> c < 2 ^ 32) ->
  exists v n1 L2', mem_right m bp p = <[bp := (v, n1)]> m /\ chain (mem_right m bp p) bp (L2' ++ [(base, 0)]) /\
    seqZ bp n ++ cells L2 = seqZ bp n1 ++ cells L2' /\ ascending (bp + n1) L2' /\ n <= n1 /\ (length L2' <= length L2)%nat.
Proof.
  intros Hc Hn Hn1 Hb Ha Hr. unfold mem_right. rewrite Hn.
  assert (Hfr : forall v k l, ascending (bp + 1) l -> forall b, b ∈ l ++ [(base, 0)] -> hget (<[bp := (v, k)]> m) b.1 = hget m b.1).
  { intros v k l Hl b Hin. rewrite hget_insert, decide_False; [done|]. apply elem_of_app in Hin as [Hin|Hin]; [destruct (ascending_bounds _ _ _ Hl Hin); lia|].
    apply list_elem_of_singleton in Hin as ->. cbn. lia. }
  destruct L2 as [|c L2].
  - cbn in Hc. destruct Hc as (Hp & Hs & _). rewrite Hp, (proj2 (Z.eqb_neq _ _)) by (cbn; lia). exists base, n, []. split_and!; try done.
    apply (chain_start m _ p bp); [by rewrite hget_insert, decide_True, Hp|by apply Hfr|done].
  - pose proof Hc as Hc0. cbn in Hc, Ha. destruct Hc as (Hp & Hs & Hc), Ha as (Ha1 & Ha2 & Ha3). rewrite Hp. destruct (Z.eqb_spec (bp + n) c.1) as [E|E].
    + assert (Hlt : c.1 + c.2 - 1 < 2 ^ 32) by (apply Hr, elem_of_cells; exists c; split; [set_solver|lia]).
      rewrite Hs. unfold u32. rewrite Z.mod_small by lia. exists (hget m c.1).1, (n + c.2), L2. split_and!; try done; try (cbn [length]; lia).
      * apply (chain_start m _ c.1 bp); [by rewrite hget_insert, decide_True|apply Hfr; by eapply ascending_weaken; [|exact Ha3]; lia|done].
      * rewrite cells_cons, app_assoc, <- E, seqZ_join by lia. done.
      * by replace (bp + (n + c.2)) with (c.1 + c.2) by lia.
    + exists c.1, n, (c :: L2). split_and!; try done. apply (chain_start m _ p bp); [by rewrite hget_insert, decide_True, Hp| |done].
      apply Hfr. cbn. split_and!; [lia|done|done].
Qed.

Lemma join_left m L1 bp n1 L2 :
  let p := last_addr base L1 in
  chain m base L1 -> chain m bp (L2 ++ [(base, 0)]) -> (hget m bp).2 = n1 -> (hget m base).2 = 0 -> 1 <= n1 -> base < bp -> bp + n1 <= 2 ^ 32 ->
  ascending (base + 1) L1 -> (forall b, b ∈ L1 -> b.1 + b.2 <= bp) -> ascending (bp + n1) L2 ->
  exists v k F, mem_left m bp p = <[p := (v, k)]> m /\ chain (mem_left m bp p) base (F ++ [(base, 0)]) /\ ascending (base + 1) F /\
    cells F = cells L1 ++ seqZ bp n1 ++ cells L2 /\ p ∈ base :: F.*1 /\
    (exists b, b ∈ F /\ n1 <= b.2) /\ (length F <= length L1 + S (length L2))%nat.
Proof.
  intros p Hc1 Hc2 Hn Hz Hn1 Hb Hmax Ha1 Hle Ha2. unfold mem_left. rewrite Hn.
  destruct L1 as [|b M1 _] using rev_ind.
  - change p with base. rewrite Hz, (proj2 (Z.eqb_neq _ _)) by lia. exists bp, 0, ((bp, n1) :: L2). split_and!; try done; [|cbn; split_and!; [lia|lia|done]|set_solver|exists (bp, n1); split; [set_solver|cbn; lia]].
    cbn [app chain fst snd]. rewrite !hget_insert, decide_True, decide_False by lia. split_and!; [done|done|]. apply (chain_last m bp L2 base 0 bp 0); [|done].
    apply not_elem_of_cons. split; [lia|]. intros Hin. destruct (ascending_NoDup _ _ Ha2) as [_ H]. specialize (H _ Hin). lia.
  - destruct b as [q sp]. assert (Ep : p = q) by (unfold p; by rewrite last_addr_snoc). rewrite Ep in *. clear p Ep.
    assert (Hq : q ∉ base :: M1.*1).
    { destruct (ascending_NoDup _ _ Ha1) as [Hnd Hge]. rewrite fmap_app in Hnd, Hge. apply not_elem_of_cons. split; [specialize (Hge q ltac:(set_solver)); lia|].
      intros Hin. apply NoDup_app in Hnd as (_ & Hnd & _). apply (Hnd q Hin). set_solver. }
    assert (Hsp : (hget m q).2 = sp) by (apply links_app in Hc1 as [_ (_ & H & _)]; done).
    destruct (ascending_bounds _ _ (q, sp) Ha1 ltac:(set_solver)) as [Hq1 Hq2]. cbn in Hq1, Hq2. pose proof (Hle (q, sp) ltac:(set_solver)) as Hqle. cbn in Hqle.
    assert (Hq2' : forall b, b ∈ L2 ++ [(base, 0)] -> q <> b.1).
    { intros b [Hin|Hin]%elem_of_app; [destruct (ascending_bounds _ _ _ Ha2 Hin); lia|]. apply list_elem_of_singleton in Hin as ->. cbn. lia. }
    apply ascending_app in Ha1 as [HaM HaQ]. cbn in HaQ. rewrite Hsp. destruct (Z.eqb_spec (q + sp) bp) as [E|E].
    + unfold u32. rewrite Z.mod_small by lia. exists (hget m bp).1, (sp + n1), (M1 ++ (q, sp + n1) :: L2). split_and!; try done.
      * rewrite <- app_assoc. cbn [app]. change ((q, sp + n1) :: L2 ++ [(base, 0)]) with ([(q, sp + n1)] ++ L2 ++ [(base, 0)]). rewrite app_assoc.
        apply links_app. split; [by apply (chain_last m base M1 q sp)|]. rewrite last_addr_snoc. cbn [fst]. apply (chain_start m _ bp q); [by rewrite hget_insert, decide_True| |done].
        intros b Hin. rewrite hget_insert, decide_False; [done|by apply Hq2'].
      * apply ascending_app. split; [done|]. cbn. split_and!; [lia|lia|]. by replace (q + (sp + n1)) with (bp + n1) by lia.
      * rewrite !cells_app, cells_cons, <- !app_assoc. f_equal. rewrite cells_cons. cbn [cells fmap list_fmap concat fst snd app]. rewrite app_nil_r, <- E, !app_assoc, seqZ_join by lia. done.
      * rewrite fmap_app. set_solver.
      * exists (q, sp + n1). split; [set_solver|cbn; lia].
      * rewrite !length_app. cbn [length]. lia.
    + exists bp, sp, (M1 ++ (q, sp) :: (bp, n1) :: L2). split_and!; try done.
      * rewrite <- app_assoc. cbn [app]. change ((q, sp) :: (bp, n1) :: L2 ++ [(base, 0)]) with ([(q, sp)] ++ (bp, n1) :: L2 ++ [(base, 0)]). rewrite app_assoc.
        apply links_app. split; [by apply (chain_last m base M1 q sp)|]. rewrite last_addr_snoc. cbn [chain fst snd]. rewrite !hget_insert, decide_True, decide_False by lia.
        split_and!; [done|done|]. apply (chain_start m _ bp bp); [by rewrite hget_insert, decide_False by lia| |done].
        intros b Hin. rewrite hget_insert, decide_False; [done|by apply Hq2'].
      * apply ascending_app. split; [done|]. cbn. split_and!; try done; lia.
      * rewrite !cells_app, !cells_cons, <- !app_assoc. by f_equal.
      * rewrite fmap_app. set_solver.
      * exists (bp, n1). split; [set_solver|cbn; lia].
      * rewrite !length_app. cbn [length]. lia.
Qed.

Lemma wf_length m F A H : wf m F A H -> (length F <= size m)%nat.
Proof.
  intros [Hc Ha _ _ _ _]. destruct (ascending_NoDup _ _ Ha) as [Hn _]. rewrite <- (length_fmap fst F), <- size_dom, <- (size_list_to_set (C := gset Z)) by done.
  apply subseteq_size. intros a Hin%elem_of_list_to_set. apply list_elem_of_fmap in Hin as (b & -> & Hb).
  assert (Hs : (hget m b.1).2 = b.2).
  { apply list_elem_of_split in Hb as (l1 & l2 & ->). rewrite <- app_assoc in Hc. apply links_app in Hc as [_ (_ & H' & _)]. done. }
  destruct (ascending_bounds _ _ _ Ha Hb). apply elem_of_dom. unfold hget in Hs. destruct (m !! b.1); [done|]. cbn in Hs. lia.
Qed.

Lemma wf_base_size m F A H : wf m F A H -> (hget m base).2 = 0.
Proof. intros [Hc _ _ _ _ _]. apply links_app in Hc as [_ (_ & H' & _)]. done. Qed.

Lemma elem_of_addr F a : ascending (base + 1) F -> a ∈ F.*1 -> a ∈ cells F.
Proof. intros Ha (b & -> & Hb)%list_elem_of_fmap. apply elem_of_cells. exists b. destruct (ascending_bounds _ _ _ Ha Hb). split; [done|lia]. Qed.

(** What a client sees of a step: the units of its blocks keep their contents. *)
Definition keeps (A : list (Z * Z)) (m m' : gmap Z header) : Prop := forall c, c ∈ cells A -> m' !! c = m !! c.

Lemma keeps_insert A m m' a h : keeps A m m' -> a ∉ cells A -> keeps A m (<[a := h]> m').
Proof. intros Hk Ha c Hc. rewrite lookup_insert_ne by (intros ->; done). by apply Hk. Qed.

Lemma nodup_mid {X} (x p : X) l1 l2 : NoDup (x :: l1 ++ p :: l2) -> p ∉ x :: l1 /\ p ∉ l2.
Proof.
  intros H. change (x :: l1 ++ p :: l2) with ((x :: l1) ++ p :: l2) in H. apply NoDup_app in H as (_ & H1 & [H2 _]%NoDup_cons). split; [|done].
  intros Hp. by apply (H1 p Hp), elem_of_cons; left.
Qed.

(** Units that are in no allocated block. *)
Lemma wf_unallocated m F A H c : wf m F A H -> c = base \/ c ∈ cells F -> c ∉ cells A.
Proof.
  intros Hw Hc Hin. destruct (wf_disjoint _ _ _ _ Hw) as [Hn Hr]. destruct Hc as [->|Hc]; [destruct (Hr base); [by right|lia]|].
  apply NoDup_app in Hn as (_ & Hn & _). by apply (Hn c).
Qed.

Lemma wf_alloc_keeps m m' F A H b : wf m F A H -> keeps A m m' -> b ∈ A -> (hget m' b.1).2 = b.2 /\ 1 <= b.2.
Proof.
  intros Hw Hk Hb. destruct (wf_alloc _ _ _ _ Hw b Hb) as [H1 H2]. split; [|done]. unfold hget. rewrite Hk; [done|]. apply elem_of_cells. exists b. split; [done|lia].
Qed.

Lemma free_ok s F A H bp n :
  wf (hp_mem s) F ((bp, n) :: A) H -> freep s ∈ base :: F.*1 ->
  exists s' F', free s (bp + 1) = Some s' /\ wf (hp_mem s') F' A H /\ freep s' ∈ base :: F'.*1 /\ keeps A (hp_mem s) (hp_mem s') /\
    (exists b, b ∈ F' /\ n <= b.2) /\ (length F' <= S (length F))%nat.
Proof.
  intros Hw Hin. destruct (wf_disjoint _ _ _ _ Hw) as [Hnd Hrange]. pose proof Hw as [Hc Ha Hal Hce Hnh Hr].
  destruct (Hal (bp, n) ltac:(set_solver)) as [Hn Hn1]. cbn in Hn, Hn1.
  assert (Hbp : base < bp) by (apply Hrange; right; apply elem_of_cells; exists (bp, n); split; [set_solver|cbn; lia]).
  assert (Hbn : bp + n <= 2 ^ 32).
  { assert (base < bp + n - 1 < 2 ^ 32); [|lia]. apply Hrange. right. apply elem_of_cells. exists (bp, n). split; [set_solver|cbn; lia]. }
  destruct (ascending_split _ _ bp Ha) as (L1 & L2 & -> & H1 & H2).
  assert (Hd1 : forall b, b ∈ L1 -> b.1 + b.2 <= bp).
  { intros b Hb. specialize (H1 b Hb). destruct (wf_apart _ _ _ _ (bp, n) b Hw ltac:(set_solver) ltac:(set_solver)) as [H'|H']; cbn in H'; lia. }
  assert (Hd2 : forall b, b ∈ L2 -> bp + n <= b.1).
  { intros b Hb. specialize (H2 b Hb). destruct (wf_apart _ _ _ _ (bp, n) b Hw ltac:(set_solver) ltac:(set_solver)) as [H'|H']; cbn in H'; [done|].
    destruct (ascending_bounds _ _ b Ha ltac:(set_solver)). lia. }
  assert (Hf : free_find (ring_fuel s) s bp (freep s) = Some (last_addr base L1)).
  { pose proof (find_block s bp L1 L2 Hbp Hc Ha H1 (fun b Hb => ltac:(specialize (Hd2 b Hb); lia)) Hin) as E. pose proof (wf_length _ _ _ _ Hw) as Hl.
    unfold ring_fuel. replace (2 * size (hp_mem s) + 3)%nat with (2 * length (L1 ++ L2) + 3 + 2 * (size (hp_mem s) - length (L1 ++ L2)))%nat by lia. by apply free_find_more. }
  unfold free. replace (bp + 1 - 1) with bp by lia. rewrite Hf. set (p := last_addr base L1) in *. destruct (free_at_mem s bp p) as [Em Ef].
  exists (free_at s bp p). rewrite Em, Ef. clear Em Ef Hf. set (m := hp_mem s) in *. rewrite <- app_assoc in Hc. apply links_app in Hc as [Hc1 Hc2]. fold p in Hc2.
  pose proof Ha as Ha'. apply ascending_app in Ha' as [Ha1 Ha2].
  assert (Ha2' : ascending (bp + n) L2) by (destruct L2 as [|c L2]; [done|]; cbn in *; split; [apply (Hd2 c); set_solver|by apply Ha2]).
  destruct (join_right m p bp n L2 Hc2 Hn Hn1 Hbp Ha2') as (v & n1 & L2' & E1 & Hcr & Hcells & Ha3 & Hle & Hll).
  { intros c Hc'. apply (Hrange c). left. rewrite cells_app. apply elem_of_app. by right. }
  set (m1 := mem_right m bp p) in *. assert (Hmax : bp + n1 <= 2 ^ 32).
  { assert (bp + n1 - 1 ∈ seqZ bp n ++ cells L2) as Hx by (rewrite Hcells; apply elem_of_app; left; apply elem_of_seqZ; lia).
    assert (base < bp + n1 - 1 < 2 ^ 32); [|lia]. apply Hrange. rewrite cells_app, cells_cons.
    apply elem_of_app in Hx as [Hx|Hx]; [right|left]; apply elem_of_app; [by left|by right]. }
  assert (Hbl : bp ∉ base :: L1.*1) by (apply not_elem_of_cons; split; [lia|]; intros (b & E & Hb)%list_elem_of_fmap; specialize (H1 b Hb); lia).
  destruct (join_left m1 L1 bp n1 L2') as (v' & k & F' & E2 & Hcl & HaF & HcF & Hp & (bb & Hbb & Hbb2) & Hlf); try done.
  { rewrite E1. by apply chain_frame. }
  { by rewrite E1, hget_insert, decide_True. }
  { rewrite E1, hget_insert, decide_False by lia. exact (wf_base_size _ _ _ _ Hw). }
  { lia. }
  fold p in E2, Hcl, Hp. assert (Hk : keeps A m (mem_left m1 bp p)).
  { rewrite E2, E1. apply keeps_insert; [apply keeps_insert; [done|]|].
    - rewrite cells_cons in Hnd. apply NoDup_app in Hnd as (_ & _ & Hnd). apply NoDup_app in Hnd as (_ & Hnd & _). apply Hnd. apply elem_of_seqZ. cbn. lia.
    - intros Hpa. apply (wf_unallocated _ _ _ _ p Hw); [|rewrite cells_cons; apply elem_of_app; by right].
      destruct (last_addr_in base L1) as [[Ep _]|Ep]; [by left|right]. apply elem_of_addr; [done|]. rewrite fmap_app. apply elem_of_app. by left. }
  exists F'. split; [done|]. split; [|split_and!; try done; [exists bb; split; [done|lia]|rewrite length_app; lia]]. split; try done.
  - intros b Hb. destruct (Hal b ltac:(set_solver)) as [Hs1 Hs2]. split; [|done]. unfold hget. rewrite Hk; [done|]. apply elem_of_cells. exists b. split; [done|lia].
  - rewrite <- Hce, !cells_app, cells_cons, HcF. cbn [fst snd]. rewrite <- !app_assoc. f_equiv. rewrite !app_assoc, <- Hcells. f_equiv. apply Permutation_app_comm.
Qed.

(** ** malloc *)

Lemma chain_same m x y l : (hget m y).1 = (hget m x).1 -> chain m x l -> chain m y l.
Proof. intros H. by apply chain_start. Qed.

(** Take the block [p] out of the ring. *)
Lemma chain_remove m L1 p sp L2 :
  let prevp := last_addr base L1 in
  NoDup (base :: L1.*1 ++ p :: L2.*1) -> chain m base ((L1 ++ (p, sp) :: L2) ++ [(base, 0)]) ->
  chain (<[prevp := ((hget m p).1, (hget m prevp).2)]> m) base ((L1 ++ L2) ++ [(base, 0)]).
Proof.
  intros prevp [Hb Hnd]%NoDup_cons Hc. apply NoDup_app in Hnd as (Hn1 & Hn12 & [Hp Hn2]%NoDup_cons).
  rewrite <- app_assoc in Hc. apply links_app in Hc as [Hc1 (_ & _ & Hc2)]. cbn [fst] in Hc2. rewrite <- app_assoc.
  destruct L1 as [|[q k] M _] using rev_ind.
  - change prevp with base. assert (Hz : (hget m base).2 = 0) by (apply links_app in Hc2 as [_ (_ & H & _)]; done). rewrite Hz. cbn [app].
    apply (chain_same _ p); [rewrite !hget_insert, decide_True, decide_False by set_solver; done|]. apply (chain_last m p L2 base 0); [set_solver|done].
  - assert (Eq : prevp = q) by (unfold prevp; by rewrite last_addr_snoc). rewrite Eq. pose proof Hc1 as (_ & _ & Hk & _)%links_app. cbn in Hk. rewrite Hk.
    rewrite fmap_app in *. cbn [fmap list_fmap fst] in *. assert (Hq : q ∉ base :: M.*1) by (apply NoDup_app in Hn1 as (_ & Hn1 & _); set_solver).
    assert (Hq2 : q ∉ p :: (L2 ++ [(base, 0)]).*1) by (rewrite fmap_app; cbn; set_solver).
    apply links_app. split; [by apply (chain_last m base M q k)|]. rewrite last_addr_snoc. cbn [fst].
    apply (chain_same _ p); [rewrite !hget_insert, decide_True, decide_False by set_solver; done|]. by apply chain_frame.
Qed.

(** Make the block [p] shorter. *)
Lemma chain_shrink m L1 p sp L2 k :
  NoDup (base :: L1.*1 ++ p :: L2.*1) -> chain m base ((L1 ++ (p, sp) :: L2) ++ [(base, 0)]) ->
  chain (<[p := ((hget m p).1, k)]> m) base ((L1 ++ (p, k) :: L2) ++ [(base, 0)]).
Proof.
  intros [Hb Hnd]%NoDup_cons Hc. apply NoDup_app in Hnd as (Hn1 & Hn12 & [Hp Hn2]%NoDup_cons). rewrite <- app_assoc in *. cbn [app] in *.
  change ((p, ?x) :: ?l) with ([(p, x)] ++ l) in *. rewrite app_assoc in *. apply links_app in Hc as [Hc1 Hc2]. rewrite last_addr_snoc in Hc2. apply links_app. rewrite last_addr_snoc. cbn [fst] in *.
  split; [apply (chain_last m base L1 p sp); set_solver|]. apply (chain_start m _ p p); [by rewrite hget_insert, decide_True| |done].
  intros b Hin. rewrite hget_insert, decide_False; [done|]. apply elem_of_app in Hin as [Hin|Hin]; [intros ->; apply Hp, list_elem_of_fmap; by exists b|].
  apply list_elem_of_singleton in Hin as ->. cbn. set_solver.
Qed.

Lemma wf_NoDup m F A H : wf m F A H -> NoDup (base :: F.*1).
Proof.
  intros Hw. destruct (ascending_NoDup _ _ (wf_asc _ _ _ _ Hw)) as [Hn Hg]. constructor; [intros Hin; specialize (Hg _ Hin); lia|done].
Qed.

Lemma take_block_ok s F A H L1 L2 p sp nunits :
  wf (hp_mem s) F A H -> F = L1 ++ (p, sp) :: L2 -> 1 <= nunits <= sp ->
  exists s' a F', take_block s nunits (last_addr base L1) p = (s', a + 1) /\ wf (hp_mem s') F' ((a, nunits) :: A) H /\ freep s' ∈ base :: F'.*1 /\
    keeps A (hp_mem s) (hp_mem s').
Proof.
  intros Hw -> Hn. pose proof Hw as [Hc Ha Hal Hce Hnh Hr]. pose proof (wf_NoDup _ _ _ _ Hw) as Hnd. rewrite fmap_app in Hnd. cbn [fmap list_fmap fst] in Hnd.
  set (prevp := last_addr base L1). assert (Hprev : prevp ∈ base :: L1.*1) by (unfold prevp; destruct (last_addr_in base L1) as [[-> _]|]; set_solver).
  destruct (ascending_bounds _ _ (p, sp) Ha ltac:(set_solver)) as [Hp1 Hp2]. cbn in Hp1, Hp2. pose proof Ha as Ha'. apply ascending_app in Ha' as [Ha1 (Ha2 & _ & Ha4)]. cbn [fst snd] in Ha2, Ha4.
  assert (Hin : forall c, p <= c < p + sp -> c ∈ cells (L1 ++ (p, sp) :: L2)) by (intros c Hc'; apply elem_of_cells; exists (p, sp); split; [set_solver|done]).
  assert (Hsp : (hget (hp_mem s) p).2 = sp) by (rewrite <- app_assoc in Hc; apply links_app in Hc as [_ (_ & H' & _)]; done).
  unfold take_block, hsize, hptr. rewrite Hsp. destruct (Z.eqb_spec sp nunits) as [->|Hne].
  - exists (set_freep prevp (set_hdr prevp (hget (hp_mem s) p).1 (hget (hp_mem s) prevp).2 s)), p, (L1 ++ L2). cbn [hp_mem freep set_freep set_hdr].
    set (m' := <[prevp := _]> (hp_mem s)).
    assert (Hk : keeps A (hp_mem s) m').
    { apply keeps_insert; [done|]. apply (wf_unallocated _ _ _ _ _ Hw). apply elem_of_cons in Hprev as [->|Hprev]; [by left|right]. apply elem_of_addr; [done|]. rewrite fmap_app. set_solver. }
    split; [done|]. split; [|split; [rewrite fmap_app; set_solver|done]]. split; try done.
    + by apply (chain_remove _ L1 p nunits L2).
    + apply ascending_app. split; [done|]. by eapply ascending_weaken; [|exact Ha4]; lia.
    + intros b [->|Hb]%elem_of_cons; [|by eapply wf_alloc_keeps]. cbn. split; [|lia]. unfold m'. rewrite hget_insert, decide_False; [done|].
      intros E. apply (proj1 (nodup_mid _ _ _ _ Hnd)). by rewrite <- E.
    + rewrite <- Hce, !cells_app, !cells_cons. cbn [fst snd]. solve_Permutation.
  - set (a := p + (sp - nunits)). assert (Ea : p < a < p + sp) by (unfold a; lia).
    assert (Hcp : NoDup (cells L1 ++ seqZ p sp ++ cells L2)) by (destruct (wf_disjoint _ _ _ _ Hw) as [Hx _]; rewrite cells_app, cells_cons in Hx; by apply NoDup_app in Hx as [Hx _]).
    assert (HaF : forall k, a ∉ base :: ((L1 ++ (p, k) :: L2) ++ [(base, 0)]).*1).
    { intros k Hx. rewrite !fmap_app in Hx. cbn [fmap list_fmap fst] in Hx. apply NoDup_app in Hcp as (_ & Hcp1 & Hcp2). apply NoDup_app in Hcp2 as (_ & Hcp2 & _).
      rewrite elem_of_cons, !elem_of_app, elem_of_cons, list_elem_of_singleton in Hx. destruct Hx as [Hx|[[Hx|[Hx|Hx]]|Hx]]; try lia.
      - apply (Hcp1 a); [by apply elem_of_addr|]. apply elem_of_app. left. apply elem_of_seqZ. lia.
      - apply (Hcp2 a); [apply elem_of_seqZ; lia|]. apply elem_of_addr; [|done]. by eapply ascending_weaken; [|exact Ha4]; lia. }
    assert (Hsm : sp < 2 ^ 32) by (destruct (wf_disjoint _ _ _ _ Hw) as [_ Hx]; assert (Hy : base < p + sp - 1 < 2 ^ 32) by (apply Hx; left; apply Hin; lia); lia).
    assert (Eu : u32 (sp - nunits) = sp - nunits) by (unfold u32; apply Z.mod_small; lia). cbn [hp_mem set_hdr set_freep freep]. rewrite Eu, hget_insert, decide_True by done. cbn [fst snd].
    fold a. set (m1 := <[p := _]> (hp_mem s)). eexists _, a, (L1 ++ (p, sp - nunits) :: L2). split; [done|]. cbn [hp_mem set_hdr set_freep freep]. fold m1. set (m2 := <[a := _]> m1).
    assert (Hk : keeps A (hp_mem s) m2).
    { apply keeps_insert; [apply keeps_insert; [done|]|]; apply (wf_unallocated _ _ _ _ _ Hw); right; apply Hin; lia. }
    split; [|split; [rewrite fmap_app; set_solver|done]]. split; try done.
    + apply chain_frame; [apply HaF|]. by apply (chain_shrink _ L1 p sp L2).
    + apply ascending_app. split; [done|]. cbn [ascending fst snd]. split_and!; [done|lia|]. by eapply ascending_weaken; [|exact Ha4]; lia.
    + intros b [->|Hb]%elem_of_cons; [|by eapply wf_alloc_keeps]. cbn. split; [|lia]. unfold m2. by rewrite hget_insert, decide_True.
    + rewrite <- Hce, !cells_app, !cells_cons. cbn [fst snd]. replace sp with (sp - nunits + nunits) at 2 by lia. rewrite <- seqZ_join by lia. fold a. solve_Permutation.
Qed.

(** The ring from any of its blocks on. *)
Lemma ring_from m F A H x : wf m F A H -> x ∈ base :: F.*1 ->
  exists R b, chain m x (R ++ [b]) /\ b.1 = x /\ x ∉ R.*1 /\ (forall c, c ∈ R ++ [b] <-> c = (base, 0) \/ c ∈ F) /\ length R = length F.
Proof.
  intros Hw Hx. pose proof (wf_chain _ _ _ _ Hw) as Hc. pose proof (wf_NoDup _ _ _ _ Hw) as Hn. apply elem_of_cons in Hx as [->|Hx].
  - exists F, (base, 0). split_and!; try done; [by apply NoDup_cons in Hn as [Hn _]|]. intros c. rewrite elem_of_app, list_elem_of_singleton. tauto.
  - apply list_elem_of_fmap in Hx as ([a n] & -> & Hin). apply list_elem_of_split in Hin as (L1 & L2 & ->). exists (L2 ++ (base, 0) :: L1), (a, n). cbn [fst].
    rewrite fmap_app in Hn. cbn [fmap list_fmap fst] in Hn. destruct (nodup_mid _ _ _ _ Hn) as [Hn1 Hn2]. pose proof Hc as Hc'. rewrite <- app_assoc in Hc. apply links_app in Hc as [Hc1 (Hp & Hs & Hc2)]. cbn [fst snd] in *.
    split_and!.
    + rewrite <- app_assoc. cbn [app]. change ((base, 0) :: L1 ++ [(a, n)]) with ([(base, 0)] ++ L1 ++ [(a, n)]). rewrite app_assoc. apply links_app. split; [done|]. rewrite last_addr_snoc.
      cbn [fst]. apply links_app. split; [done|]. cbn. by rewrite Hp, Hs.
    + done.
    + rewrite fmap_app. cbn [fmap list_fmap fst]. set_solver.
    + intros c. set_solver.
    + rewrite !length_app. cbn [length]. lia.
Qed.

(** Walking along the ring: the first block that is large enough is taken, with
    the block before it; or all are too small, and the walk is back at [freep]. *)
Lemma malloc_walk s sb nunits b : forall R x fuel,
  chain (hp_mem s) x (R ++ [b]) -> b.1 = freep s -> freep s ∉ R.*1 ->
  (exists y c, c ∈ R ++ [b] /\ nunits <= c.2 /\ (hget (hp_mem s) y).1 = c.1 /\ y ∈ x :: R.*1 /\
     malloc_loop (length (R ++ [b]) + fuel) s sb nunits x (hptr s x) = Some (take_block s nunits y c.1, sb)) \/
  ((forall c, c ∈ R ++ [b] -> c.2 < nunits) /\
     malloc_loop (length (R ++ [b]) + fuel) s sb nunits x (hptr s x) =
       match morecore s nunits sb with
       | None => None
       | Some (None, sb) => Some (s, 0, sb)
       | Some (Some s, sb) => malloc_loop fuel s sb nunits (freep s) (hptr s (freep s))
       end).
Proof.
  induction R as [|c R IH]; intros x fuel Hc Hb Hn; cbn [app length Nat.add malloc_loop chain] in *;
    destruct Hc as (Hp & Hs & Hc); fold (hptr s x) in Hp.
  - fold (hsize s b.1) in Hs. rewrite Hp, Hs. destruct (Z.leb_spec nunits b.2) as [Hle|Hlt]; [left; exists x, b; split_and!; try done; set_solver|]. right. rewrite Hb, Z.eqb_refl. split; [|done].
    intros c Hin. apply list_elem_of_singleton in Hin as ->. done.
  - cbn [fmap list_fmap] in Hn. apply not_elem_of_cons in Hn as [Hn1 Hn2]. fold (hsize s c.1) in Hs. rewrite Hp, Hs. destruct (Z.leb_spec nunits c.2) as [Hle|Hlt]; [left; exists x, c; split_and!; try done; set_solver|].
    rewrite (proj2 (Z.eqb_neq _ _)) by done. destruct (IH c.1 fuel Hc Hb Hn2) as [(y & d & H1 & H2 & H3 & H4 & H5)|[H1 H2]].
    + left. exists y, d. split_and!; try done; set_solver.
    + right. split; [|done]. intros d [->|Hd]%elem_of_cons; [done|by apply H1].
Qed.

Lemma addr_inj (F : list (Z * Z)) c d : NoDup (F.*1) -> c ∈ F -> d ∈ F -> c.1 = d.1 -> c = d.
Proof.
  intros Hn [i Hi]%list_elem_of_lookup_1 [j Hj]%list_elem_of_lookup_1 E. enough (i = j) by congruence.
  apply (NoDup_lookup _ _ _ c.1 Hn); rewrite list_lookup_fmap; [by rewrite Hi|by rewrite Hj, E].
Qed.

Lemma ring_pred m F A H y c : wf m F A H -> y ∈ base :: F.*1 -> (hget m y).1 = c.1 -> c ∈ F -> exists L1 L2, F = L1 ++ c :: L2 /\ y = last_addr base L1.
Proof.
  intros Hw Hy Hp Hc. pose proof (wf_NoDup _ _ _ _ Hw) as [Hb Hn]%NoDup_cons. pose proof (wf_chain _ _ _ _ Hw) as Hch. apply elem_of_cons in Hy as [->|Hy].
  - destruct F as [|d F]; [by apply elem_of_nil in Hc|]. cbn in Hch. destruct Hch as (Hd & _). rewrite (addr_inj (d :: F) c d Hn Hc) by (set_solver || congruence). by exists [], F.
  - apply list_elem_of_fmap in Hy as ([a n] & -> & Hin). apply list_elem_of_split in Hin as (l1 & l2 & ->). cbn [fst] in *. rewrite <- app_assoc in Hch. apply links_app in Hch as [_ (_ & _ & Hch)].
    destruct l2 as [|d l2]; cbn in Hch; destruct Hch as (Hd & _).
    + exfalso. apply Hb, list_elem_of_fmap. exists c. split; [congruence|done].
    + exists (l1 ++ [(a, n)]), l2. rewrite last_addr_snoc, <- app_assoc. split; [|done]. cbn [app]. rewrite (addr_inj _ c d Hn Hc); [done| |congruence]. set_solver.
Qed.

(** New memory from sbrk. *)
Definition fresh_memory (H : list (Z * Z)) (hp nu : Z) : Prop := forall c, hp <= c < hp + nu -> base < c < 2 ^ 32 /\ c ∉ cells H.

Definition grown (nunits : Z) (x : option Z) (rest : list (option Z)) (H : list (Z * Z)) : list (Z * Z) :=
  match rest, x with [], Some hp => (hp, morecore_size nunits) :: H | _, _ => H end.

Lemma morecore_size_ge nu : nu <= morecore_size nu /\ 4096 <= morecore_size nu.
Proof. unfold morecore_size. destruct (Z.ltb_spec nu 4096); lia. Qed.

Lemma wf_grow m F A H hp nu v : wf m F A H -> 1 <= nu -> fresh_memory H hp nu -> wf (<[hp := (v, nu)]> m) F ((hp, nu) :: A) ((hp, nu) :: H) /\ keeps A m (<[hp := (v, nu)]> m).
Proof.
  intros Hw Hnu Hf. pose proof Hw as [Hc Ha Hal Hce Hn Hr]. destruct (Hf hp ltac:(lia)) as [Hb Hh]. rewrite cells_app in Hce.
  assert (HhA : hp ∉ cells F /\ hp ∉ cells A) by (rewrite <- Hce in Hh; by apply not_elem_of_app in Hh).
  assert (Hk : keeps A m (<[hp := (v, nu)]> m)) by (apply keeps_insert; [done|apply HhA]). split; [|done]. split; try done.
  - apply chain_frame; [|done]. rewrite fmap_app. cbn [fmap list_fmap fst]. rewrite elem_of_cons, elem_of_app, list_elem_of_singleton. intros [E|[E|E]]; [lia| |lia].
    by apply (proj1 HhA), elem_of_addr.
  - intros b [->|Hb']%elem_of_cons; [|by eapply wf_alloc_keeps]. cbn. by rewrite hget_insert, decide_True.
  - rewrite cells_app, !cells_cons, <- Hce. cbn [fst snd]. solve_Permutation.
  - rewrite cells_cons. apply NoDup_app. split; [apply NoDup_seqZ|]. split; [|done]. intros c Hc'%elem_of_seqZ. by apply Hf.
  - intros c. rewrite cells_cons, elem_of_app, elem_of_seqZ. intros [Hc'|Hc']; [by apply Hf|by apply Hr].
Qed.

Definition taken (A H : list (Z * Z)) (m : gmap Z header) (nunits : Z) (s' : heap) (r : Z) : Prop :=
  exists F', wf (hp_mem s') F' ((r - 1, nunits) :: A) H /\ freep s' ∈ base :: F'.*1 /\ keeps A m (hp_mem s').

Lemma malloc_found s F A H nunits sb R b y c fuel :
  wf (hp_mem s) F A H -> (forall d, d ∈ R ++ [b] <-> d = (base, 0) \/ d ∈ F) -> freep s ∈ base :: F.*1 -> 1 <= nunits ->
  c ∈ R ++ [b] -> nunits <= c.2 -> (hget (hp_mem s) y).1 = c.1 -> y ∈ freep s :: R.*1 ->
  malloc_loop fuel s sb nunits (freep s) (hptr s (freep s)) = Some (take_block s nunits y c.1, sb) ->
  exists s' r, malloc_loop fuel s sb nunits (freep s) (hptr s (freep s)) = Some (s', r, sb) /\ taken A H (hp_mem s) nunits s' r.
Proof.
  intros Hw HR Hfp Hn Hc Hcn Hp Hy ->. apply HR in Hc as [->|Hc]; [cbn in Hcn; lia|].
  assert (Hy' : y ∈ base :: F.*1).
  { apply elem_of_cons in Hy as [->|Hy]; [done|]. apply list_elem_of_fmap in Hy as (d & -> & Hd). destruct (proj1 (HR d)) as [->|Hd']; [set_solver|set_solver|].
    apply elem_of_cons. right. apply list_elem_of_fmap. by exists d. }
  destruct (ring_pred _ _ _ _ y c Hw Hy' Hp Hc) as (L1 & L2 & EF & ->). destruct c as [p sp].
  destruct (take_block_ok s F A H L1 L2 p sp nunits Hw EF (conj Hn Hcn)) as (s' & a & F' & E & Hw' & Hf' & Hk). cbn [fst]. rewrite E. exists s', (a + 1). split; [done|].
  exists F'. replace (a + 1 - 1) with a by lia. done.
Qed.

Lemma malloc_loop_ok s F A H nunits x fuel :
  wf (hp_mem s) F A H -> freep s ∈ base :: F.*1 -> 1 <= nunits -> (forall hp, x = Some hp -> fresh_memory H hp (morecore_size nunits)) ->
  exists s' r rest, malloc_loop (2 * length F + 4 + fuel) s [x] nunits (freep s) (hptr s (freep s)) = Some (s', r, rest) /\
    (s' = s /\ r = 0 /\ x = None /\ rest = [] \/ taken A (grown nunits x rest H) (hp_mem s) nunits s' r).
Proof.
  intros Hw Hf Hn Hx. destruct (ring_from _ _ _ _ _ Hw Hf) as (R & b & Hc & Hb & HnR & HR & Hlen).
  assert (Hl : length (R ++ [b]) = S (length F)) by (rewrite length_app; cbn; lia).
  replace (2 * length F + 4 + fuel)%nat with (length (R ++ [b]) + (length F + 3 + fuel))%nat by lia.
  destruct (malloc_walk s [x] nunits b R (freep s) (length F + 3 + fuel) Hc Hb HnR) as [(y & c & H1 & H2 & H3 & H4 & H5)|[H1 ->]].
  { destruct (malloc_found s F A H nunits [x] R b y c _ Hw HR Hf Hn H1 H2 H3 H4 H5) as (s' & r & E & Ht). exists s', r, [x]. split; [done|by right]. }
  unfold morecore. cbn [head default tail]. destruct x as [hp|]; [|exists s, 0, []; split; [done|by left]]. cbn [id]. destruct (morecore_size_ge nunits) as [Hge _].
  destruct (wf_grow _ _ _ _ hp (morecore_size nunits) (hptr s hp) Hw ltac:(lia) (Hx hp eq_refl)) as [Hw1 Hk1]. set (s1 := set_hdr hp (hptr s hp) (morecore_size nunits) s).
  destruct (free_ok s1 F A _ hp (morecore_size nunits) Hw1 Hf) as (s2 & F2 & -> & Hw2 & Hf2 & Hk2 & (d & Hd & Hdn) & Hl2).
  destruct (ring_from _ _ _ _ _ Hw2 Hf2) as (R2 & b2 & Hc2 & Hb2 & HnR2 & HR2 & Hlen2).
  assert (Hl3 : length (R2 ++ [b2]) = S (length F2)) by (rewrite length_app; cbn; lia).
  replace (length F + 3 + fuel)%nat with (length (R2 ++ [b2]) + (length F + 2 - length F2 + fuel))%nat by lia.
  destruct (malloc_walk s2 [] nunits b2 R2 (freep s2) (length F + 2 - length F2 + fuel) Hc2 Hb2 HnR2) as [(y & c & I1 & I2 & I3 & I4 & I5)|[I1 _]].
  - destruct (malloc_found s2 F2 A _ nunits [] R2 b2 y c _ Hw2 HR2 Hf2 Hn I1 I2 I3 I4 I5) as (s' & r & E & F' & Ht1 & Ht2 & Ht3). exists s', r, []. split; [done|]. right.
    exists F'. split_and!; try done. intros u Hu. rewrite Ht3, Hk2 by done. by apply Hk1.
  - exfalso. specialize (I1 d). rewrite HR2 in I1. specialize (I1 (or_intror Hd)). lia.
Qed.
End Ring.

(** * Histories *)

Lemma cells_perm l l' : l ≡ₚ l' -> cells l ≡ₚ cells l'.
Proof. induction 1 as [|b l l' _ IH|b c l|l l' l'' _ IH _ IH']; rewrite ?cells_cons; [done|by rewrite IH|solve_Permutation|by rewrite IH]. Qed.

Lemma wf_perm base m F A A' H : A ≡ₚ A' -> wf base m F A H -> wf base m F A' H.
Proof.
  intros HA [Hc Ha Hal Hce Hn Hr]. split; try done; [intros b; rewrite <- HA; apply Hal|]. by rewrite cells_app, <- (cells_perm _ _ HA), <- cells_app.
Qed.

(** The contents of an allocated block, without its header, change as the program
    likes. *)
Lemma wf_write base m F A H a n c h : 0 < base -> wf base m F A H -> (a, n) ∈ A -> a < c < a + n -> wf base (<[c := h]> m) F A H.
Proof.
  intros Hb0 Hw Hin Hc. pose proof Hw as [Hch Ha Hal Hce Hn Hr]. assert (HcA : c ∈ cells A) by (apply elem_of_cells; exists (a, n); split; [done|cbn; lia]).
  assert (HcF : c ∉ base :: F.*1).
  { intros Hx. apply (wf_unallocated base Hb0 _ _ _ _ c Hw); [|done]. apply elem_of_cons in Hx as [->|Hx]; [by left|right]. by apply (elem_of_addr base). }
  split; try done.
  - apply chain_frame; [|done]. rewrite fmap_app. cbn [fmap list_fmap fst]. set_solver.
  - intros b Hb. destruct (Hal b Hb) as [H1 H2]. split; [|done]. rewrite hget_insert, decide_False; [done|]. intros E.
    destruct (wf_disjoint _ Hb0 _ _ _ _ Hw) as [Hnd _]. apply NoDup_app in Hnd as (_ & _ & Hnd). apply list_elem_of_split in Hin as (l1 & l2 & ->).
    rewrite cells_app, cells_cons in Hnd. apply NoDup_app in Hnd as (_ & Hn1 & Hnd). apply NoDup_app in Hnd as (_ & Hn2 & _). cbn [fst snd] in *.
    apply elem_of_app in Hb as [Hb|[->|Hb]%elem_of_cons]; [| |].
    + apply (Hn1 c); [apply elem_of_cells; exists b; split; [done|lia]|]. apply elem_of_app. left. apply elem_of_seqZ. lia.
    + cbn in E. lia.
    + apply (Hn2 c); [apply elem_of_seqZ; lia|]. apply elem_of_cells. exists b. split; [done|lia].
Qed.

(** sbrk takes an int. *)
Definition MAXREQ : Z := 2 ^ 31 - 48.

(** The allocated blocks and the memory obtained from sbrk after some calls of
    malloc and free, and writes of the program into its blocks. *)
Inductive hist (base : Z) : heap -> list (Z * Z) -> list (Z * Z) -> Prop :=
| h_start m : hist base (mk_heap m 0) [] []
| h_malloc s A H nbytes x s' r rest :
    hist base s A H -> 0 <= nbytes <= MAXREQ -> (forall hp, x = Some hp -> fresh_memory base H hp (morecore_size (malloc_units nbytes))) ->
    malloc base s nbytes [x] = Some (s', r, rest) ->
    hist base s' (if r =? 0 then A else (r - 1, malloc_units nbytes) :: A) (grown (malloc_units nbytes) x rest H)
| h_free s A1 b A2 H s' : hist base s (A1 ++ b :: A2) H -> free s (b.1 + 1) = Some s' -> hist base s' (A1 ++ A2) H
| h_write s A H a n c h : hist base s A H -> (a, n) ∈ A -> a < c < a + n -> hist base (mk_heap (<[c := h]> (hp_mem s)) (freep s)) A H.

Definition heap_inv (base : Z) (s : heap) (A H : list (Z * Z)) : Prop :=
  freep s = 0 /\ A = [] /\ H = [] \/ exists F, wf base (hp_mem s) F A H /\ freep s ∈ base :: F.*1.

Lemma malloc_units_ok nbytes : 0 <= nbytes <= MAXREQ -> 1 <= malloc_units nbytes /\ nbytes <= HDR * (malloc_units nbytes - 1).
Proof. unfold malloc_units, MAXREQ, HDR, u32. intros H. rewrite Z.mod_small by div_lia. div_lia. Qed.

Lemma wf_freep base m F A H p : 0 < base -> wf base m F A H -> p ∈ base :: F.*1 -> p <> 0.
Proof. intros Hb Hw [->|Hp]%elem_of_cons; [lia|]. destruct (ascending_NoDup _ _ (wf_asc _ _ _ _ _ Hw)) as [_ H']. specialize (H' p Hp). lia. Qed.

Lemma malloc_init_ok base s A H : 0 < base -> heap_inv base s A H ->
  exists F, wf base (hp_mem (malloc_init base s)) F A H /\ freep (malloc_init base s) ∈ base :: F.*1 /\ keeps A (hp_mem s) (hp_mem (malloc_init base s)).
Proof.
  intros Hb [(Hf & -> & ->)|(F & Hw & Hf)]; unfold malloc_init.
  - rewrite Hf. cbn [Z.eqb hp_mem set_freep set_hdr freep]. exists []. split; [|split; [set_solver|]].
    + split; try done; [|set_solver|constructor|set_solver]. cbn [app chain fst snd]. by rewrite !hget_insert, !decide_True.
    + intros c Hc. by apply elem_of_nil in Hc.
  - rewrite (proj2 (Z.eqb_neq _ _) (wf_freep _ _ _ _ _ _ Hb Hw Hf)). by exists F.
Qed.

Lemma malloc_ok base s A H nbytes x :
  0 < base -> heap_inv base s A H -> 0 <= nbytes <= MAXREQ -> (forall hp, x = Some hp -> fresh_memory base H hp (morecore_size (malloc_units nbytes))) ->
  exists s' r rest, malloc base s nbytes [x] = Some (s', r, rest) /\
    (r = 0 /\ x = None /\ rest = [] /\ heap_inv base s' A H /\ keeps A (hp_mem s) (hp_mem s') \/
     r <> 0 /\ taken base A (grown (malloc_units nbytes) x rest H) (hp_mem s) (malloc_units nbytes) s' r).
Proof.
  intros Hb Hi Hn Hx. destruct (malloc_init_ok base s A H Hb Hi) as (F & Hw & Hf & Hk). destruct (malloc_units_ok nbytes Hn) as [Hu _].
  unfold malloc. set (s1 := malloc_init base s) in *. pose proof (wf_length _ _ _ _ _ Hw) as Hl. unfold ring_fuel.
  replace (2 * (2 * size (hp_mem s1) + 3) + 4)%nat with (2 * length F + 4 + (4 * size (hp_mem s1) - 2 * length F + 6))%nat by lia.
  destruct (malloc_loop_ok base Hb s1 F A H (malloc_units nbytes) x (4 * size (hp_mem s1) - 2 * length F + 6) Hw Hf Hu Hx) as (s' & r & rest & -> & Hr).
  exists s', r, rest. split; [done|]. destruct Hr as [(-> & -> & -> & ->)|(F' & Hw' & Hf' & Hk')].
  - left. split_and!; try done. right. by exists F.
  - right. split.
    + destruct (wf_disjoint _ Hb _ _ _ _ Hw') as [_ Hr]. specialize (Hr (r - 1)). rewrite cells_cons, elem_of_app, elem_of_seqZ in Hr. cbn in Hr. specialize (Hr ltac:(right; left; lia)). lia.
    + exists F'. split_and!; try done. intros c Hc. rewrite Hk' by done. by apply Hk.
Qed.

Lemma heap_inv_free base s A1 b A2 H : 0 < base -> heap_inv base s (A1 ++ b :: A2) H ->
  exists s', free s (b.1 + 1) = Some s' /\ heap_inv base s' (A1 ++ A2) H /\ keeps (A1 ++ A2) (hp_mem s) (hp_mem s').
Proof.
  intros Hb [(_ & E & _)|(F & Hw & Hf)]; [by destruct A1|]. destruct b as [bp n]. apply (wf_perm _ _ _ _ ((bp, n) :: A1 ++ A2)) in Hw; [|solve_Permutation].
  destruct (free_ok base Hb s F (A1 ++ A2) H bp n Hw Hf) as (s' & F' & E & Hw' & Hf' & Hk & _). exists s'. split; [done|]. split; [|done]. right. by exists F'.
Qed.

Lemma hist_inv base s A H : 0 < base -> hist base s A H -> heap_inv base s A H.
Proof.
  intros Hb. induction 1 as [m|s A H nbytes x s' r rest _ IH Hn Hx E|s A1 b A2 H s' _ IH E|s A H a n c h _ IH Hin Hc].
  - by left.
  - destruct (malloc_ok base s A H nbytes x Hb IH Hn Hx) as (s1 & r1 & rest1 & E1 & Hr). rewrite E in E1. injection E1 as <- <- <-.
    destruct Hr as [(-> & -> & -> & Hi & _)|(Hr & F & Hw & Hf & _)]; [done|]. rewrite (proj2 (Z.eqb_neq _ _)) by done. right. by exists F.
  - destruct (heap_inv_free base s A1 b A2 H Hb IH) as (s1 & E1 & Hi & _). congruence.
  - destruct IH as [(_ & -> & _)|(F & Hw & Hf)]; [by apply elem_of_nil in Hin|]. right. exists F. split; [by eapply wf_write|done].
Qed.

(** C11: In every history of malloc and free, with the program writing into its
    blocks, both calls return.  malloc fails only if sbrk does; otherwise it
    returns a block of at least the size asked for, inside of the memory that
    sbrk gave and apart from all blocks in use, whose contents it leaves alone.
    Free and used blocks together are all the memory sbrk gave, so that nothing
    is lost; free gives its block back and leaves all others alone. *)
Theorem malloc_free_safe base s A H nbytes x :
  0 < base -> hist base s A H -> 0 <= nbytes <= MAXREQ -> (forall hp, x = Some hp -> fresh_memory base H hp (morecore_size (malloc_units nbytes))) ->
  (exists s' r rest, malloc base s nbytes [x] = Some (s', r, rest) /\ keeps A (hp_mem s) (hp_mem s') /\
     (r = 0 /\ x = None \/
      exists n F, nbytes <= HDR * (n - 1) /\ NoDup (cells ((r - 1, n) :: A)) /\ chain (hp_mem s') base (F ++ [(base, 0)]) /\
        cells (F ++ (r - 1, n) :: A) ≡ₚ cells (grown (malloc_units nbytes) x rest H))) /\
  (forall A1 b A2, A = A1 ++ b :: A2 -> exists s' F, free s (b.1 + 1) = Some s' /\ keeps (A1 ++ A2) (hp_mem s) (hp_mem s') /\
     chain (hp_mem s') base (F ++ [(base, 0)]) /\ cells (F ++ A1 ++ A2) ≡ₚ cells H).
Proof.
  intros Hb Hh Hn Hx. pose proof (hist_inv base s A H Hb Hh) as Hi. split.
  - destruct (malloc_ok base s A H nbytes x Hb Hi Hn Hx) as (s' & r & rest & E & [(-> & -> & -> & _ & Hk)|(Hr & F & Hw & Hf & Hk)]).
    + exists s', 0, []. split_and!; try done. by left.
    + exists s', r, rest. split_and!; try done. right. exists (malloc_units nbytes), F. destruct (wf_disjoint _ Hb _ _ _ _ Hw) as [Hnd _]. apply NoDup_app in Hnd as (_ & _ & Hnd).
      split_and!; [apply malloc_units_ok; done|done|apply Hw|apply Hw].
  - intros A1 b A2 ->. destruct (heap_inv_free base s A1 b A2 H Hb Hi) as (s' & E & Hi' & Hk). destruct Hi as [(_ & E0 & _)|(F0 & Hw0 & Hf0)]; [by destruct A1|].
    destruct Hi' as [(Hf' & E1 & E2)|(F & Hw & Hf)]; [exfalso|exists s', F; split_and!; try done; apply Hw].
    subst H. pose proof (wf_cells _ _ _ _ _ Hw0) as Hc. apply Permutation_nil_r in Hc. destruct (wf_alloc _ _ _ _ _ Hw0 b ltac:(set_solver)) as [_ Hb1].
    assert (b.1 ∈ cells (F0 ++ A1 ++ b :: A2)) as Hin by (apply elem_of_cells; exists b; split; [set_solver|lia]). rewrite Hc in Hin. by apply elem_of_nil in Hin.
Qed.

(** [malloc_free_safe] on the first call of a program, of 100 bytes. *)
Lemma malloc_free_safe_witness :
  exists s' r rest, malloc 256 (mk_heap ∅ 0) 100 [Some 4096] = Some (s', r, rest) /\ keeps [] ∅ (hp_mem s').
Proof.
  destruct (malloc_free_safe 256 (mk_heap ∅ 0) [] [] 100 (Some 4096)) as [(s' & r & rest & E & Hk & _) _].
  - lia.
  - apply h_start.
  - unfold MAXREQ. lia.
  - intros hp [= <-] c Hc. change (morecore_size (malloc_units 100)) with 4096 in Hc. split; [lia|set_solver].
  - by exists s', r, rest.
Defined.
