(* ===== verification/Mkfs.v ===== *)
(** The tool that makes the first file system (mkfs/mkfs.c).  It runs on the
    host, which is little-endian; the image is a file of blocks that grows when
    a block behind its end is written, and in which reading behind the end
    fails.  A struct dinode is the part of an [inode] that is on the disk.  A
    failed assert() and die() end the program. *)
From S2P Require Import Prelude State Locks Kstring Kalloc Vm PageTable VmSpec Uvm UvmCopy Copy Sched Sleeplock Bio BioList BioSpec BlockLayer Log LogSpec Txn Boot Uart Kprintf Either Fs FsTxn FsAlloc FsRead FsInode FsFile Pipe Console File FsWrite.

Definition NINODES : Z := 200.
Definition nbitmap : Z := FSSIZE / BPB + 1.
Definition ninodeblocks : Z := NINODES / IPB + 1.
Definition nlog : Z := LOGSIZE.
Definition nmeta : Z := 2 + nlog + ninodeblocks + nbitmap.
Definition nblocks : Z := FSSIZE - nmeta.

(** Convert to riscv byte order: the bytes of the result, lowest first. *)
Definition xshort (x : Z) : Z := load16 (store_list [u8 x; u8 (Z.shiftr x 8)] ∅ 0) 0.
Definition xint (x : Z) : Z :=
  load32 (store_list [u8 x; u8 (Z.shiftr x 8); u8 (Z.shiftr x 16); u8 (Z.shiftr x 24)] ∅ 0) 0.

(** The superblock that main() fills in before anything else. *)
Definition sb : superblock :=
  mk_superblock FSMAGIC (xint FSSIZE) (xint nblocks) (xint NINODES) (xint nlog) (xint 2) (xint (2 + nlog))
    (xint (2 + nlog + ninodeblocks)).
(** memmove(buf, &sb, sizeof(sb)) *)
Definition sb_bytes (b : superblock) (buf : bytes) : bytes :=
  store_addrs [sb_magic b; sb_size b; sb_nblocks b; sb_ninodes b; sb_nlog b; sb_logstart b; sb_inodestart b; sb_bmapstart b] buf 0.

(** The file of the image and the two counters. *)
Record image : Type := mk_image {
  im_blocks : gmap Z bytes ;
  im_len : Z ;
  freeinode : Z ;
  freeblock : Z
}.
Definition set_freeinode (n : Z) (s : image) : image := mk_image (im_blocks s) (im_len s) n (freeblock s).
Definition set_freeblock (n : Z) (s : image) : image := mk_image (im_blocks s) (im_len s) (freeinode s) n.

Definition MK (A : Type) : Type := M unit image A.

(** The block at which the file is positioned by lseek(fsfd, sec * BSIZE, 0),
    where [sec] is an unsigned int. *)
Definition sector (sec : Z) : Z := u32 (sec * BSIZE) / BSIZE.

Definition wsect (sec : Z) (buf : bytes) : MK unit :=
  modify (fun s => mk_image (<[sector sec := buf]> (im_blocks s)) (Z.max (im_len s) (sector sec + 1)) (freeinode s) (freeblock s)).

Definition rsect (sec : Z) : MK bytes :=
  len <- gets im_len ;;
  if len <=? sector sec then panic "read"
  else gets (fun s => default ∅ (im_blocks s !! sector sec)).

Definition winode (inum : Z) (ip : inode) : MK unit :=
  let bn := IBLOCK inum sb in
  buf <- rsect bn ;;
  wsect bn (dinode_store buf (dinode_off inum) ip).

Definition rinode (inum : Z) : MK inode :=
  let bn := IBLOCK inum sb in
  buf <- rsect bn ;;
  ret (dinode_load buf (dinode_off inum) inode0).

Definition ialloc (type : Z) : MK Z :=
  inum <- gets freeinode ;;
  modify (set_freeinode (u32 (inum + 1))) ;;;
  let din := inode0 in
  let din := set_i_type (i16 (xshort type)) din in
  let din := set_i_nlink (i16 (xshort 1)) din in
  let din := set_i_size (xint 0) din in
  winode inum din ;;;
  ret inum.

(** for(i = 0; i < used; i++) buf[i/8] = buf[i/8] | (0x1 << (i%8)) *)
Fixpoint mark_used (n : nat) (i : Z) (buf : bytes) : bytes :=
  match n with O => buf | S n => mark_used n (i + 1) (mark_bit buf i) end.

Definition balloc (used : Z) : MK unit :=
  if BPB <=? used then panic "used < BPB"
  else wsect (sb_bmapstart sb) (mark_used (Z.to_nat used) 0 ∅).

(** freeblock++ *)
Definition next_block : MK Z :=
  b <- gets freeblock ;; modify (set_freeblock (u32 (b + 1))) ;;; ret b.

(** din.addrs[k], allocated if it is 0 *)
Definition need_addr (din : inode) (k : Z) : MK inode :=
  if xint (iaddr din k) =? 0 then b <- next_block ;; ret (with_addr din k (xint b)) else ret din.

(** The block number [fbn] of the file, allocated where it is missing. *)
Definition file_block (din : inode) (fbn : Z) : MK (inode * Z) :=
  if fbn <? NDIRECT then
    din <- need_addr din fbn ;;
    ret (din, xint (iaddr din fbn))
  else
    din <- need_addr din NDIRECT ;;
    indirect <- rsect (xint (iaddr din NDIRECT)) ;;
    let o := 4 * (fbn - NDIRECT) in
    indirect <- (if load32 indirect o =? 0 then
                   b <- next_block ;;
                   let indirect := store32 indirect o (xint b) in
                   wsect (xint (iaddr din NDIRECT)) indirect ;;;
                   ret indirect
                 else ret indirect) ;;
    ret (din, xint (load32 indirect o)).

(** The loop of iappend; [p] is what is left to append. *)
Fixpoint iappend_loop (fuel : nat) (din : inode) (off : Z) (p : list Z) : MK (inode * Z) :=
  match p, fuel with
  | [], _ => ret (din, off)
  | _, O => fun _ => Diverge
  | _, S fuel =>
      let fbn := off / BSIZE in
      if MAXFILE <=? fbn then panic "fbn < MAXFILE"
      else
        r <- file_block din fbn ;;
        let '(din, x) := r in
        let n1 := Z.min (Z.of_nat (length p)) ((fbn + 1) * BSIZE - off) in
        buf <- rsect x ;;
        wsect x (store_list (take (Z.to_nat n1) p) buf (off - fbn * BSIZE)) ;;;
        iappend_loop fuel din (u32 (off + n1)) (drop (Z.to_nat n1) p)
  end.

Definition iappend (inum : Z) (p : list Z) : MK unit :=
  din <- rinode inum ;;
  r <- iappend_loop (length p) din (xint (i_size din)) p ;;
  let '(din, off) := r in
  winode inum (set_i_size (xint off) din).

(** A struct dirent: the number and the name, filled up with NULs. *)
Definition dirent (inum : Z) (name : list Z) : list Z :=
  let n := xshort inum in [u8 n; u8 (n / 256)] ++ take (Z.to_nat DIRSIZ) (name ++ replicate (Z.to_nat DIRSIZ) 0).

Definition SLASH : Z := 47.
Definition UNDERSCORE : Z := 95.

(** argv[i] without a leading user/ *)
Definition shortname (arg : list Z) : list Z :=
  if decide (take 5 arg = chars "user/") then drop 5 arg else arg.
(** Skip leading _ in name. *)
Definition skip_underscore (name : list Z) : list Z :=
  match name with c :: name' => if c =? UNDERSCORE then name' else name | [] => [] end.

Section Host.
(** The files of the host: for the name of a file that can be opened, what the
    calls of read() with a buffer of BSIZE bytes return until the end. *)
Context (host : list Z -> option (list (list Z))).

Fixpoint append_chunks (inum : Z) (chunks : list (list Z)) : MK unit :=
  match chunks with
  | [] => ret tt
  | c :: chunks => iappend inum c ;;; append_chunks inum chunks
  end.

Definition add_file (rootino : Z) (arg : list Z) : MK unit :=
  let name := shortname arg in
  if bool_decide (SLASH ∈ name) then panic "index(shortname, '/') == 0"
  else match host arg with
  | None => panic "open"
  | Some chunks =>
      let name := skip_underscore name in
      if DIRSIZ <? Z.of_nat (length name) then panic "strlen(shortname) <= DIRSIZ"
      else
        inum <- ialloc T_FILE ;;
        iappend rootino (dirent inum name) ;;;
        append_chunks inum chunks
  end.

Fixpoint add_files (rootino : Z) (args : list (list Z)) : MK unit :=
  match args with
  | [] => ret tt
  | a :: args => add_file rootino a ;;; add_files rootino args
  end.

(** The image that main() starts with, after open(O_TRUNC): an empty file. *)
Definition image0 : image := mk_image ∅ 0 1 0.

(** argv[2], argv[3], ... are [args]; opening the image succeeds. *)
Definition main (args : list (list Z)) : MK unit :=
  modify (set_freeblock nmeta) ;;;
  for_loop (Z.to_nat FSSIZE) 0 (fun i => wsect i ∅ ;;; ret (@None unit)) ;;;
  wsect 1 (sb_bytes sb ∅) ;;;
  rootino <- ialloc T_DIR ;;
  if negb (rootino =? ROOTINO) then panic "rootino == ROOTINO"
  else
    iappend rootino (dirent rootino (chars ".")) ;;;
    iappend rootino (dirent rootino (chars "..")) ;;;
    add_files rootino args ;;;
    din <- rinode rootino ;;
    let off := xint (i_size din) in
    let off := u32 ((off / BSIZE + 1) * BSIZE) in
    winode rootino (set_i_size (xint off) din) ;;;
    used <- gets freeblock ;;
    balloc (i32 used).
End Host.
