(* ===== verification/MkfsFiles.v ===== *)
(** The files in the image under construction: which blocks belong to them, what
    appending does, and the state in which mkfs leaves the image after each
    file. *)
From S2P Require Import Prelude State Locks Kstring Kalloc Vm PageTable VmSpec Uvm UvmCopy Copy Sched Sleeplock Bio BioList BioSpec BlockLayer Log LogSpec Txn Boot Uart Kprintf Either Fs FsTxn FsAlloc FsRead FsInode FsFile FsPath Pipe Console File FsWrite FsDir Mkfs.

(** * The host's integers and the blocks of the image *)

Ltac closed_tests :=
  repeat match goal with
  | |- context [ Z.eqb ?a ?b ] => let r := eval vm_compute in (Z.eqb a b) in change (Z.eqb a b) with r
  end; cbv iota.

Lemma xint_id x : 0 <= x < 2 ^ 32 -> xint x = x.
Proof.
  intros Hx. unfold xint, load32. cbn [le_load store_list]. rewrite !load8_store8. closed_tests.
  rewrite !Z.shiftr_div_pow2 by lia. unfold u8. change (2 ^ 8) with 256. change (2 ^ 16) with 65536 in *. change (2 ^ 24) with 16777216. div_lia.
Qed.
Lemma xshort_id x : 0 <= x < 2 ^ 16 -> xshort x = x.
Proof.
  intros Hx. unfold xshort, load16. cbn [le_load store_list]. rewrite !load8_store8. closed_tests.
  rewrite !Z.shiftr_div_pow2 by lia. unfold u8. change (2 ^ 8) with 256. change (2 ^ 16) with 65536 in *. change (2 ^ 24) with 16777216. div_lia.
Qed.

Lemma sb_val : sb = mk_superblock FSMAGIC 2000 1954 200 30 2 32 45.
Proof. vm_compute. reflexivity. Qed.
Lemma nmeta_val : nmeta = 46.
Proof. reflexivity. Qed.

Lemma sector_id sec : 0 <= sec < 2 ^ 22 -> sector sec = sec.
Proof. intros H. unfold sector, BSIZE. rewrite u32_small by lia. by rewrite Z.div_mul. Qed.

Definition view (s : image) : blocks := fun b => default ∅ (im_blocks s !! b).

Lemma rsect_ok s sec : im_len s = FSSIZE -> 0 <= sec < FSSIZE -> rsect sec s = Ok (view s sec) s.
Proof.
  intros Hl Hs. unfold rsect. krun. rewrite sector_id by (unfold FSSIZE in *; lia).
  rewrite Hl, (proj2 (Z.leb_gt _ _)) by lia. done.
Qed.

(** The image after a write. *)
Definition wrote (s : image) (sec : Z) (d : bytes) (s' : image) : Prop :=
  (forall b, view s' b = vupd (view s) sec d b) /\ im_len s' = im_len s /\ freeinode s' = freeinode s /\ freeblock s' = freeblock s.

Lemma wsect_ok s sec d : im_len s = FSSIZE -> 0 <= sec < FSSIZE -> exists s', wsect sec d s = Ok tt s' /\ wrote s sec d s'.
Proof.
  intros Hl Hs. unfold wsect. rewrite sector_id by (unfold FSSIZE in *; lia). eexists. split; [done|]. cbv [modify].
  split_and!; cbn; [|lia|done..]. intros b. unfold view, vupd. cbn. destruct (Z.eqb_spec b sec) as [->|Hne].
  - by rewrite lookup_insert_eq.
  - by rewrite lookup_insert_ne.
Qed.

(** * Which block belongs to which file *)

Definition own_file (F : list inode) (V : blocks) (b : Z) : Prop :=
  exists i x k, F !! i = Some x /\ 0 <= k <= MAXFILE /\ saddr V x k = b.

(** The blocks from [nmeta] to [fb] belong to one slot of one file each, those
    from [fb] on are empty. *)
Record layout (V : blocks) (F : list inode) (fb : Z) : Prop := {
  ly_len : forall i x, F !! i = Some x -> length (i_addrs x) = Z.to_nat (NDIRECT + 1);
  ly_fb : nmeta <= fb <= FSSIZE;
  ly_slot : forall i x k, F !! i = Some x -> 0 <= k <= MAXFILE -> saddr V x k <> 0 -> nmeta <= saddr V x k < fb;
  ly_inj : forall i j x y k l, F !! i = Some x -> F !! j = Some y -> 0 <= k <= MAXFILE -> 0 <= l <= MAXFILE ->
    saddr V x k <> 0 -> saddr V x k = saddr V y l -> i = j /\ k = l;
  ly_own : forall b, nmeta <= b < fb -> own_file F V b;
  ly_zero : forall b, fb <= b < FSSIZE -> zero_block (V b)
}.

Lemma saddr_ext V V' x l :
  (iaddr x NDIRECT <> 0 -> V' (iaddr x NDIRECT) = V (iaddr x NDIRECT)) -> saddr V' x l = saddr V x l.
Proof.
  intros H. unfold saddr, baddr. destruct (l =? MAXFILE), (l <? NDIRECT); try done.
  destruct (Z.eqb_spec (iaddr x NDIRECT) 0); [done|]. by rewrite H.
Qed.

Lemma lookup_insert_cases (F : list inode) i x' j y :
  <[i := x']> F !! j = Some y -> (i = j /\ y = x' /\ (j < length F)%nat) \/ (i <> j /\ F !! j = Some y).
Proof. intros H%list_lookup_insert_Some. naive_solver. Qed.

(** A slot gets the first free block. *)
Lemma layout_slot V F fb V' i x x' k :
  layout V F fb -> F !! i = Some x -> 0 <= k <= MAXFILE -> saddr V x k = 0 -> fb < FSSIZE ->
  length (i_addrs x') = Z.to_nat (NDIRECT + 1) ->
  (forall j, 0 <= j <= MAXFILE -> saddr V' x' j = if j =? k then fb else saddr V x j) ->
  (forall j y l, j <> i -> F !! j = Some y -> 0 <= l <= MAXFILE -> saddr V' y l = saddr V y l) ->
  (forall b, fb < b -> V' b = V b) ->
  layout V' (<[i := x']> F) (fb + 1).
Proof.
  intros [H1 H2 H3 H4 H5 H6] Hx Hk H0 Hfb Hlen Hs Ho Hz. assert (Hi := lookup_lt_Some _ _ _ Hx).
  assert (Hnm : 0 < nmeta) by (rewrite nmeta_val; lia).
  assert (Hall : forall j y l, <[i := x']> F !! j = Some y -> 0 <= l <= MAXFILE ->
    exists z, F !! j = Some z /\ saddr V' y l = if decide (j = i /\ l = k) then fb else saddr V z l).
  { intros j y l [(-> & -> & _)|[Hne Hy]]%lookup_insert_cases Hl.
    - exists x. split; [done|]. rewrite Hs by done. destruct (Z.eqb_spec l k); [by rewrite decide_True by done|].
      rewrite decide_False by tauto. done.
    - exists y. split; [done|]. rewrite decide_False by (intros [-> _]; done). apply (Ho j); done. }
  split.
  - intros j y [(-> & -> & _)|[Hne Hy]]%lookup_insert_cases; [done|by eapply H1].
  - lia.
  - intros j y l Hy Hl Hne. destruct (Hall j y l Hy Hl) as (z & Hz' & E). rewrite E in *.
    destruct (decide _); [lia|]. specialize (H3 j z l Hz' Hl Hne). lia.
  - intros j j' y y' l l' Hy Hy' Hl Hl' Hne. destruct (Hall j y l Hy Hl) as (z & Hz1 & E), (Hall j' y' l' Hy' Hl') as (z' & Hz2 & E').
    rewrite E, E' in *. destruct (decide (j = i /\ l = k)) as [[-> ->]|], (decide (j' = i /\ l' = k)) as [[-> ->]|]; intros Eq; try done.
    + exfalso. assert (saddr V z' l' <> 0) by lia. specialize (H3 j' z' l' Hz2 Hl' ltac:(done)). lia.
    + exfalso. specialize (H3 j z l Hz1 Hl Hne). lia.
    + by eapply H4.
  - intros b Hb. destruct (Z.eqb_spec b fb) as [->|Hne].
    + exists i, x', k. rewrite list_lookup_insert_eq by done. split_and!; [done|lia|lia|]. rewrite Hs, Z.eqb_refl by done. done.
    + destruct (H5 b ltac:(lia)) as (j & y & l & Hy & Hl & E). destruct (decide (i = j)) as [->|Hij].
      * exists j, x', l. rewrite list_lookup_insert_eq by done. simplify_eq. split_and!; [done|lia|lia|]. rewrite Hs by done.
        destruct (Z.eqb_spec l k); [subst; lia|done].
      * exists j, y, l. rewrite list_lookup_insert_ne by done. split_and!; [done|lia|lia|]. rewrite (Ho j); [done|congruence|done|lia].
  - intros b Hb. rewrite Hz by lia. apply H6. lia.
Qed.

(** * Allocating the blocks of a file *)

(** The blocks and bytes of the other files. *)
Definition keeps_files (V V' : blocks) (F : list inode) (i : nat) : Prop :=
  forall j y, j <> i -> F !! j = Some y ->
    (forall l, saddr V' y l = saddr V y l) /\
    (forall o, 0 <= o < MAXFILE * BSIZE -> fbyte0 V' y o = fbyte0 V y o).

(** File [i] may have got blocks, with no effect on its contents. *)
Record alloced (V : blocks) (F : list inode) (i : nat) (x : inode) (V' : blocks) (x' : inode) (fb' : Z) : Prop := {
  al_layout : layout V' (<[i := x']> F) fb';
  al_bytes : forall o, 0 <= o < MAXFILE * BSIZE -> fbyte0 V' x' o = fbyte0 V x o;
  al_rest : keeps_files V V' F i;
  al_low : forall b, b < nmeta -> V' b = V b;
  al_inode : x' = set_i_addrs (i_addrs x') x
}.

Lemma alloced_refl V F fb i x : layout V F fb -> F !! i = Some x -> alloced V F i x V x fb.
Proof. intros Hl Hx. split; [by rewrite list_insert_id|done|by intros ? ?|done|by destruct x]. Qed.

Lemma alloced_trans V F i x V1 x1 fb1 V2 x2 fb2 :
  alloced V F i x V1 x1 fb1 -> alloced V1 (<[i := x1]> F) i x1 V2 x2 fb2 -> alloced V F i x V2 x2 fb2.
Proof.
  intros [A1 A2 A3 A4 A5] [B1 B2 B3 B4 B5]. split.
  - by rewrite list_insert_insert_eq in B1.
  - intros o Ho. by rewrite B2, A2.
  - intros j y Hj Hy. destruct (A3 j y Hj Hy) as [H1 H2], (B3 j y Hj) as [H3 H4]; [by rewrite list_lookup_insert_ne|].
    split; [intros l; by rewrite H3, H1|intros o Ho; by rewrite H4, H2].
  - intros b Hb. by rewrite B4, A4.
  - rewrite B5, A5. done.
Qed.

Lemma slot_nonzero V F fb i x : layout V F fb -> F !! i = Some x -> iaddr x NDIRECT <> 0 -> nmeta <= iaddr x NDIRECT < fb.
Proof.
  intros Hl Hx Hne. rewrite (ind_slot V x) in *. apply (ly_slot _ _ _ Hl i x MAXFILE); [done|rewrite MAXFILE_val; lia|done].
Qed.

(** A data block of a file is not the indirect block of one. *)
Lemma data_not_ind V F fb i j x y bn :
  layout V F fb -> F !! i = Some x -> F !! j = Some y -> 0 <= bn < MAXFILE -> baddr V y bn <> 0 -> baddr V y bn <> iaddr x NDIRECT.
Proof.
  intros Hl Hx Hy Hbn Hne E. rewrite (ind_slot V x) in E. rewrite baddr_slot in * by lia.
  destruct (ly_inj _ _ _ Hl j i y x bn MAXFILE) as [_ ->]; (done || lia).
Qed.

Lemma bn_range o : 0 <= o < MAXFILE * BSIZE -> 0 <= o / BSIZE < MAXFILE.
Proof. rewrite MAXFILE_val. unfold BSIZE. intros. div_lia. Qed.

Lemma alloced_slot V F fb i x k V' x' :
  layout V F fb -> F !! i = Some x -> 0 <= k <= MAXFILE -> saddr V x k = 0 -> fb < FSSIZE ->
  x' = set_i_addrs (i_addrs x') x -> length (i_addrs x') = Z.to_nat (NDIRECT + 1) ->
  (forall j, 0 <= j <= MAXFILE -> saddr V' x' j = if j =? k then fb else saddr V x j) ->
  (forall b, V' b = V b \/ b = iaddr x NDIRECT /\ b <> 0) ->
  alloced V F i x V' x' (fb + 1).
Proof.
  intros Hl Hx Hk H0 Hfb Ex Hlen Hs HV. assert (Hnm : 0 < nmeta) by (rewrite nmeta_val; lia).
  assert (Hind := fun H => slot_nonzero V F fb i x Hl Hx H). assert (Hf := ly_fb _ _ _ Hl).
  assert (Hsame : forall b, b <> iaddr x NDIRECT \/ b = 0 -> V' b = V b) by (intros b Hb; destruct (HV b) as [|[-> ?]]; [done|tauto]).
  assert (Hrest : keeps_files V V' F i).
  { intros j y Hj Hy. assert (Es : forall l, saddr V' y l = saddr V y l).
    { intros l. apply saddr_ext. intros Hne. apply Hsame. left. intros E. rewrite (ind_slot V y), (ind_slot V x) in *.
      destruct (ly_inj _ _ _ Hl j i y x MAXFILE MAXFILE) as [-> _]; (done || rewrite MAXFILE_val; lia). }
    split; [done|]. intros o Ho. apply bn_range in Ho. unfold fbyte0, fbyte. rewrite !baddr_slot, Es by lia.
    rewrite <- baddr_slot by lia. destruct (Z.eqb_spec (baddr V y (o / BSIZE)) 0) as [|Hne]; [done|].
    rewrite Hsame; [done|]. left. by apply (data_not_ind V F fb i j). }
  split; [|intros o Ho|done|intros b Hb|done].
  - apply (layout_slot V F fb V' i x x' k); try done.
    + intros j y l Hj Hy _. by apply (Hrest j y).
    + intros b Hb. apply Hsame. destruct (Z.eqb_spec (iaddr x NDIRECT) 0) as [E|E]; [lia|]. specialize (Hind E). lia.
  - apply bn_range in Ho. unfold fbyte0, fbyte. rewrite !baddr_slot, Hs by lia. destruct (Z.eqb_spec (o / BSIZE) k) as [->|Hne].
    + rewrite H0, (proj2 (Z.eqb_neq fb 0)) by lia. cbn [Z.eqb]. rewrite Hsame.
      * apply (ly_zero _ _ _ Hl fb ltac:(lia)). apply Z.mod_pos_bound. done.
      * destruct (Z.eqb_spec (iaddr x NDIRECT) 0) as [E|E]; [lia|]. specialize (Hind E). lia.
    + destruct (Z.eqb_spec (saddr V x (o / BSIZE)) 0) as [|Hne']; [done|]. rewrite Hsame; [done|]. left.
      rewrite <- baddr_slot in * by lia. by apply (data_not_ind V F fb i i).
  - apply Hsame. destruct (Z.eqb_spec (iaddr x NDIRECT) 0) as [E|E]; [lia|]. specialize (Hind E). lia.
Qed.

Definition same_meta (s s' : image) : Prop := im_len s' = im_len s /\ freeinode s' = freeinode s.

Lemma xint_addr V F fb i x k : layout V F fb -> F !! i = Some x -> 0 <= k <= NDIRECT -> xint (iaddr x k) = iaddr x k.
Proof.
  intros Hl Hx Hk. apply xint_id. destruct (Z.eqb_spec (iaddr x k) 0) as [->|Hne]; [lia|].
  rewrite <- (saddr_slot V) in * by done. assert (Hf := ly_fb _ _ _ Hl). rewrite nmeta_val in *. unfold FSSIZE in *.
  destruct (ly_slot _ _ _ Hl i x (slot_of k)); [done| |done|rewrite nmeta_val in *; lia].
  unfold slot_of. rewrite MAXFILE_val. unfold NDIRECT in *. destruct (k =? 12); lia.
Qed.

Lemma next_block_ok s : 0 <= freeblock s < FSSIZE ->
  next_block s = Ok (freeblock s) (set_freeblock (freeblock s + 1) s).
Proof. intros H. unfold next_block. krun. rewrite u32_small by (unfold FSSIZE in *; lia). done. Qed.

(** A new address in the inode. *)
Lemma with_addr_alloc V F fb i x k :
  layout V F fb -> F !! i = Some x -> 0 <= k <= NDIRECT -> iaddr x k = 0 -> fb < FSSIZE ->
  alloced V F i x V (with_addr x k fb) (fb + 1) /\
  forall l, 0 <= l <= MAXFILE -> saddr V (with_addr x k fb) l = if l =? slot_of k then fb else saddr V x l.
Proof.
  intros Hl Hx Hk H0 Hfb. assert (Hlen := ly_len _ _ _ Hl i x Hx). assert (Hf := ly_fb _ _ _ Hl).
  assert (Hs : forall l, 0 <= l <= MAXFILE -> saddr V (with_addr x k fb) l = if l =? slot_of k then fb else saddr V x l).
  { intros l Hr. unfold saddr, baddr, slot_of. rewrite nmeta_val in Hf. rewrite MAXFILE_val in *.
    rewrite !iaddr_with by (done || unfold NDIRECT in *; lia). unfold NDIRECT in *.
    destruct (Z.eqb_spec k 12) as [->|Hk'].
    - destruct (Z.eqb_spec l 268) as [->|]; [done|]. destruct (Z.ltb_spec l 12).
      + by rewrite (proj2 (Z.eqb_neq l 12)) by lia.
      + rewrite H0, Z.eqb_refl. cbn [Z.eqb]. rewrite (proj2 (Z.eqb_neq fb 0)) by lia.
        apply zero_load32; [apply (ly_zero _ _ _ Hl); lia|lia|unfold BSIZE; lia].
    - rewrite (proj2 (Z.eqb_neq 12 k)) by lia. destruct (Z.eqb_spec l 268) as [->|]; [by rewrite (proj2 (Z.eqb_neq 268 k)) by lia|].
      destruct (Z.ltb_spec l 12); [done|]. by rewrite (proj2 (Z.eqb_neq l k)) by lia. }
  split; [|done]. apply (alloced_slot V F fb i x (slot_of k)); try done.
  - unfold slot_of. rewrite MAXFILE_val. unfold NDIRECT in *. destruct (k =? 12); lia.
  - by rewrite saddr_slot.
  - unfold with_addr. cbn [i_addrs set_i_addrs]. by rewrite length_insert.
  - intros b. by left.
Qed.

Lemma need_addr_spec s F i x k :
  im_len s = FSSIZE -> layout (view s) F (freeblock s) -> F !! i = Some x -> 0 <= k <= NDIRECT ->
  (iaddr x k = 0 -> freeblock s < FSSIZE) ->
  exists x' s', need_addr x k s = Ok x' s' /\ same_meta s s' /\ view s' = view s /\
    freeblock s' = freeblock s + (if iaddr x k =? 0 then 1 else 0) /\
    alloced (view s) F i x (view s) x' (freeblock s') /\ iaddr x' k <> 0 /\
    forall l, 0 <= l <= MAXFILE -> l <> slot_of k -> saddr (view s) x' l = saddr (view s) x l.
Proof.
  intros Hlen Hl Hx Hk Hfb. unfold need_addr. rewrite (xint_addr (view s) F (freeblock s) i x k) by done.
  assert (Hf := ly_fb _ _ _ Hl). rewrite nmeta_val in Hf.
  destruct (Z.eqb_spec (iaddr x k) 0) as [E|E].
  - specialize (Hfb E). rewrite (bind_Ok _ _ _ _ _ (next_block_ok s ltac:(lia))). unfold FSSIZE in *. rewrite xint_id by lia.
    destruct (with_addr_alloc (view s) F (freeblock s) i x k) as [Ha Hs]; [done..|].
    eexists _, _. split; [done|]. split_and!; [done..| |].
    + rewrite iaddr_with, Z.eqb_refl; [lia|by eapply ly_len|done|lia].
    + intros l Hr Hne. rewrite Hs by done. by rewrite (proj2 (Z.eqb_neq _ _)).
  - exists x, s. split_and!; [done|done|done|lia|by apply alloced_refl|done|done].
Qed.

Lemma baddr_entry V x bn : NDIRECT <= bn -> iaddr x NDIRECT <> 0 ->
  baddr V x bn = load32 (V (iaddr x NDIRECT)) (4 * (bn - NDIRECT)).
Proof. intros Hbn Hne. unfold baddr. by rewrite (proj2 (Z.ltb_ge _ _)), (proj2 (Z.eqb_neq _ _)). Qed.

(** A new address in the indirect block. *)
Lemma entry_alloc V F fb i x bn V' :
  let ind := iaddr x NDIRECT in
  layout V F fb -> F !! i = Some x -> ind <> 0 -> NDIRECT <= bn < MAXFILE -> baddr V x bn = 0 -> fb < FSSIZE ->
  (forall b, V' b = vupd V ind (store32 (V ind) (4 * (bn - NDIRECT)) fb) b) ->
  alloced V F i x V' x (fb + 1) /\
  forall l, 0 <= l <= MAXFILE -> saddr V' x l = if l =? bn then fb else saddr V x l.
Proof.
  intros ind Hl Hx Hind Hbn H0 Hfb HV. assert (Hlen := ly_len _ _ _ Hl i x Hx). assert (Hf := ly_fb _ _ _ Hl).
  rewrite nmeta_val in Hf. unfold FSSIZE in *.
  assert (Hs : forall l, 0 <= l <= MAXFILE -> saddr V' x l = if l =? bn then fb else saddr V x l).
  { intros l Hr. unfold saddr. destruct (Z.eqb_spec l MAXFILE) as [->|Hne]; [by rewrite (proj2 (Z.eqb_neq MAXFILE bn)) by lia|].
    destruct (Z.ltb_spec l NDIRECT) as [Hlt|Hge].
    { unfold baddr. rewrite (proj2 (Z.ltb_lt _ _)) by done. by rewrite (proj2 (Z.eqb_neq l bn)) by lia. }
    rewrite !baddr_entry by done. fold ind. rewrite HV, vupd_eq. unfold load32, store32.
    destruct (Z.eqb_spec l bn) as [->|Hne']; [|by rewrite le_load_store_disj by lia].
    rewrite le_load_store_same. apply Z.mod_small. change (256 ^ Z.of_nat 4) with (2 ^ 32). lia. }
  split; [|done]. apply (alloced_slot V F fb i x bn); try done.
  - unfold NDIRECT in *. lia.
  - by rewrite <- baddr_slot by lia.
  - by destruct x.
  - intros b. rewrite HV. destruct (Z.eqb_spec b ind) as [->|Hne]; [by right|left]. by rewrite vupd_ne.
Qed.

(** The blocks that the access to block [fbn] allocates. *)
Definition fresh (V : blocks) (x : inode) (fbn : Z) : Z :=
  (if baddr V x fbn =? 0 then 1 else 0) + (if (NDIRECT <=? fbn) && (iaddr x NDIRECT =? 0) then 1 else 0).

Record blocked (s : image) (F : list inode) (i : nat) (x : inode) (fbn : Z) (s' : image) (x' : inode) : Prop := {
  bk_meta : same_meta s s';
  bk_count : freeblock s' = freeblock s + fresh (view s) x fbn;
  bk_alloc : alloced (view s) F i x (view s') x' (freeblock s');
  bk_slots : forall l, 0 <= l <= MAXFILE -> saddr (view s') x' l <> 0 <->
    saddr (view s) x l <> 0 \/ l = fbn \/ l = MAXFILE /\ NDIRECT <= fbn
}.

Lemma file_block_direct s F i x fbn :
  im_len s = FSSIZE -> layout (view s) F (freeblock s) -> F !! i = Some x -> 0 <= fbn < NDIRECT ->
  freeblock s + fresh (view s) x fbn <= FSSIZE ->
  exists x' s', file_block x fbn s = Ok (x', baddr (view s') x' fbn) s' /\ blocked s F i x fbn s' x'.
Proof.
  intros Hlen Hl Hx Hbn Hfb. unfold file_block. rewrite (proj2 (Z.ltb_lt _ _)) by lia. unfold fresh, baddr in *.
  rewrite (proj2 (Z.ltb_lt fbn NDIRECT)), (proj2 (Z.leb_gt NDIRECT fbn)) in * by lia. cbn [andb] in Hfb.
  destruct (need_addr_spec s F i x fbn) as (x' & s' & E & Hm & Ev & Ef & Ha & Hne & Hs); [done..|lia| |].
  { intros E. rewrite E in Hfb. cbn in Hfb. lia. }
  assert (Hx' : <[i := x']> F !! i = Some x') by (apply list_lookup_insert_eq; by eapply lookup_lt_Some).
  exists x', s'. rewrite (bind_Ok _ _ _ _ _ E). unfold ret.
  rewrite (xint_addr _ _ _ i x' fbn (al_layout _ _ _ _ _ _ _ Ha) Hx') by lia. split; [done|].
  assert (Es : slot_of fbn = fbn) by (unfold slot_of; rewrite (proj2 (Z.eqb_neq _ _)) by lia; done).
  split; [done| |by rewrite Ev|].
  - unfold fresh, baddr. rewrite (proj2 (Z.ltb_lt _ _)), (proj2 (Z.leb_gt _ _)) by lia. cbn [andb]. rewrite Ef. lia.
  - intros l Hr. rewrite Ev. destruct (Z.eqb_spec l fbn) as [->|Hl'].
    + rewrite <- Es, saddr_slot, Es by lia. split; [|done]. intros _. right. by left.
    + rewrite Hs by (done || by rewrite Es). split; [by left|]. intros [|[|[_ ?]]]; [done|done|lia].
Qed.

(** The part of [file_block] that needs the entry of the indirect block. *)
Definition need_entry (ind o : Z) (indirect : bytes) : MK bytes :=
  if load32 indirect o =? 0 then
    b <- next_block ;;
    let indirect := store32 indirect o (xint b) in
    wsect ind indirect ;;;
    ret indirect
  else ret indirect.

Lemma need_entry_spec s F i x fbn :
  let ind := iaddr x NDIRECT in
  let o := 4 * (fbn - NDIRECT) in
  im_len s = FSSIZE -> layout (view s) F (freeblock s) -> F !! i = Some x -> NDIRECT <= fbn < MAXFILE -> ind <> 0 ->
  freeblock s + fresh (view s) x fbn <= FSSIZE ->
  exists d s', need_entry ind o (view s ind) s = Ok d s' /\ load32 d o = baddr (view s') x fbn /\ blocked s F i x fbn s' x.
Proof.
  cbv zeta. intros Hlen Hl Hx Hbn Hind Hfb. assert (Hf := ly_fb _ _ _ Hl). rewrite nmeta_val in Hf.
  assert (Hi := slot_nonzero _ _ _ _ _ Hl Hx Hind). rewrite nmeta_val in Hi. unfold need_entry.
  assert (Efr : fresh (view s) x fbn = if baddr (view s) x fbn =? 0 then 1 else 0)
    by (unfold fresh; rewrite (proj2 (Z.eqb_neq _ 0) Hind), andb_false_r; lia).
  rewrite <- (baddr_entry (view s)) by (done || lia). destruct (Z.eqb_spec (baddr (view s) x fbn) 0) as [E|E].
  - rewrite (bind_Ok _ _ _ _ _ (next_block_ok s ltac:(lia))). cbv zeta. rewrite (xint_id (freeblock s)) by (unfold FSSIZE in *; lia).
    destruct (wsect_ok (set_freeblock (freeblock s + 1) s) (iaddr x NDIRECT)
      (store32 (view s (iaddr x NDIRECT)) (4 * (fbn - NDIRECT)) (freeblock s))) as (s' & Ew & HV & Em1 & Em2 & Em3); [done|lia|].
    rewrite (bind_Ok _ _ _ _ _ Ew). eexists _, s'. split; [done|]. split.
    { rewrite baddr_entry, HV, vupd_eq by (done || lia). done. }
    destruct (entry_alloc (view s) F (freeblock s) i x fbn (view s')) as [Ha Hs]; [done..|lia|exact HV|].
    split; [done|by rewrite Efr, Em3|by rewrite Em3|]. intros l Hr. rewrite Hs by done.
    destruct (Z.eqb_spec l fbn) as [->|Hne]; [split; [tauto|lia]|]. split; [by left|].
    intros [|[|[-> _]]]; [done|done|]. by rewrite <- ind_slot.
  - exists (view s (iaddr x NDIRECT)), s. split_and!; [done|by rewrite baddr_entry by (done || lia)|]. split; [done|lia|by apply alloced_refl|].
    intros l Hr. split; [by left|]. intros [|[->|[-> _]]]; [done|by rewrite <- baddr_slot by lia|by rewrite <- ind_slot].
Qed.

Lemma blocked_trans s F i x fbn s1 x1 s2 x2 :
  im_len s = FSSIZE -> NDIRECT <= fbn < MAXFILE -> same_meta s s1 -> view s1 = view s -> alloced (view s) F i x (view s) x1 (freeblock s1) ->
  freeblock s1 = freeblock s + (if iaddr x NDIRECT =? 0 then 1 else 0) -> iaddr x1 NDIRECT <> 0 ->
  (forall l, 0 <= l <= MAXFILE -> l <> MAXFILE -> saddr (view s) x1 l = saddr (view s) x l) ->
  blocked s1 (<[i := x1]> F) i x1 fbn s2 x2 -> blocked s F i x fbn s2 x2.
Proof.
  intros Hlen Hbn [Hm1 Hm1'] Ev Ha Ef Hne Hs [[Hm2 Hm2'] Hc Ha2 Hs2]. rewrite Ev in *. assert (0 <= fbn) by (unfold NDIRECT in *; lia). split.
  - split; congruence.
  - rewrite Hc, Ef. unfold fresh. rewrite (proj2 (Z.eqb_neq _ 0) Hne), andb_false_r, (proj2 (Z.leb_le _ _)) by lia. cbn [andb].
    rewrite !baddr_slot, Hs by lia. lia.
  - by eapply alloced_trans.
  - intros l Hr. rewrite Hs2 by done. destruct (Z.eqb_spec l MAXFILE) as [->|Hl].
    + rewrite <- !ind_slot. split; [|by left]. intros _. right; right. lia.
    + by rewrite Hs.
Qed.

Lemma file_block_spec s F i x fbn :
  im_len s = FSSIZE -> layout (view s) F (freeblock s) -> F !! i = Some x -> 0 <= fbn < MAXFILE ->
  freeblock s + fresh (view s) x fbn <= FSSIZE ->
  exists x' s', file_block x fbn s = Ok (x', baddr (view s') x' fbn) s' /\ blocked s F i x fbn s' x'.
Proof.
  intros Hlen Hl Hx Hbn Hfb. destruct (Z.ltb_spec fbn NDIRECT); [apply file_block_direct; (done || lia)|].
  assert (Hnf : 0 <= (if baddr (view s) x fbn =? 0 then 1 else 0)) by by destruct (baddr _ _ _ =? 0).
  unfold file_block. rewrite (proj2 (Z.ltb_ge _ _)) by done.
  destruct (need_addr_spec s F i x NDIRECT) as (x1 & s1 & E1 & Hm & Ev & Ef & Ha & Hne & Hs); [done..|unfold NDIRECT; lia| |].
  { intros E. unfold fresh in Hfb. rewrite E, (proj2 (Z.leb_le _ _)) in Hfb by done. cbn in Hfb. lia. }
  rewrite (bind_Ok _ _ _ _ _ E1). assert (Hx1 : <[i := x1]> F !! i = Some x1) by (apply list_lookup_insert_eq; by eapply lookup_lt_Some).
  assert (Hl1 : layout (view s1) (<[i := x1]> F) (freeblock s1)) by (rewrite Ev; apply Ha).
  assert (Hlen1 : im_len s1 = FSSIZE) by (rewrite (proj1 Hm); done).
  assert (Hf1 := ly_fb _ _ _ Hl1). assert (Hi := slot_nonzero _ _ _ _ _ Hl1 Hx1 Hne). rewrite nmeta_val in *.
  assert (Hs' : forall l, 0 <= l <= MAXFILE -> l <> MAXFILE -> saddr (view s) x1 l = saddr (view s) x l) by exact Hs.
  rewrite (xint_addr _ _ _ _ _ _ Hl1 Hx1) by (unfold NDIRECT; lia).
  rewrite (bind_Ok _ _ _ _ _ (rsect_ok s1 (iaddr x1 NDIRECT) Hlen1 ltac:(lia))). cbv zeta.
  destruct (need_entry_spec s1 (<[i := x1]> F) i x1 fbn) as (d & s' & Ed & Eb & Hb); [done|done|done|lia|done| |].
  { rewrite Ef, Ev. unfold fresh in *. rewrite (proj2 (Z.eqb_neq _ 0) Hne), andb_false_r.
    rewrite (proj2 (Z.leb_le _ _)) in Hfb by lia. cbn [andb] in Hfb. rewrite !baddr_slot, Hs' in * by lia. lia. }
  fold (need_entry (iaddr x1 NDIRECT) (4 * (fbn - NDIRECT)) (view s1 (iaddr x1 NDIRECT))).
  rewrite (bind_Ok _ _ _ _ _ Ed). assert (Hb' := Hb). destruct Hb' as [_ _ [Hl' _ _ _ _] Hsl].
  assert (Hf' := ly_fb _ _ _ Hl'). exists x1, s'. split; [|apply (blocked_trans s F i x fbn s1 x1); (done || lia)].
  unfold ret. rewrite Eb, xint_id; [done|].
  assert (Hnz : saddr (view s') x1 fbn <> 0) by (apply Hsl; [lia|tauto]).
  assert (Hx1' : <[i := x1]> (<[i := x1]> F) !! i = Some x1) by (rewrite list_insert_insert_eq; done).
  assert (Hr := ly_slot _ _ _ Hl' i x1 fbn Hx1' ltac:(lia) Hnz). rewrite baddr_slot by lia. rewrite nmeta_val in *. unfold FSSIZE in *. lia.
Qed.

(** * Appending to a file *)

(** The file consists of the bytes [c], with zeros behind them. *)
Definition contents (V : blocks) (x : inode) (c : list Z) : Prop :=
  forall o, 0 <= o < MAXFILE * BSIZE -> fbyte0 V x o = default 0 (c !! Z.to_nat o).
(** The file has exactly the blocks that [n] bytes need; [fblocks n] of them. *)
Definition mapped_to (V : blocks) (x : inode) (n : Z) : Prop :=
  (forall bn, 0 <= bn < MAXFILE -> saddr V x bn <> 0 <-> bn * BSIZE < n) /\
  (saddr V x MAXFILE <> 0 <-> NDIRECT * BSIZE < n).
Definition fblocks (n : Z) : Z := (n + BSIZE - 1) / BSIZE + (if NDIRECT * BSIZE <? n then 1 else 0).

Lemma data_write V F fb i x bn d V' :
  layout V F fb -> F !! i = Some x -> 0 <= bn < MAXFILE -> baddr V x bn <> 0 ->
  (forall b, V' b = vupd V (baddr V x bn) d b) ->
  layout V' F fb /\ keeps_files V V' F i /\ (forall l, saddr V' x l = saddr V x l) /\
  (forall o, 0 <= o < MAXFILE * BSIZE -> fbyte0 V' x o = if o / BSIZE =? bn then load8 d (o mod BSIZE) else fbyte0 V x o) /\
  (forall b, b < nmeta -> V' b = V b).
Proof.
  intros Hl Hx Hbn Hne HV. assert (Hbs : 0 <= bn <= MAXFILE) by lia.
  assert (Hr := ly_slot _ _ _ Hl i x bn Hx Hbs). rewrite <- baddr_slot in Hr by lia. specialize (Hr Hne).
  assert (Hs : forall j y, F !! j = Some y -> forall l, saddr V' y l = saddr V y l).
  { intros j y Hy l. apply saddr_ext. intros _. rewrite HV, vupd_ne; [done|]. intros E. symmetry in E. by eapply (data_not_ind V F fb j i). }
  assert (Hby : forall j y o, F !! j = Some y -> 0 <= o < MAXFILE * BSIZE ->
    fbyte0 V' y o = if decide (j = i /\ o / BSIZE = bn) then load8 d (o mod BSIZE) else fbyte0 V y o).
  { intros j y o Hy Ho. apply bn_range in Ho. unfold fbyte0, fbyte. rewrite !baddr_slot, (Hs j) by (done || lia). rewrite baddr_slot in HV by lia.
    destruct (decide _) as [[-> E]|Hnot]; [simplify_eq|].
    - rewrite HV, <- baddr_slot, (proj2 (Z.eqb_neq _ _)) by (done || lia). by rewrite vupd_eq.
    - destruct (Z.eqb_spec (saddr V y (o / BSIZE)) 0) as [|Hn]; [done|]. rewrite HV, vupd_ne; [done|]. intros E. apply Hnot.
      apply (ly_inj _ _ _ Hl j i y x (o / BSIZE) bn); (done || lia). }
  split_and!.
  - destruct Hl as [H1 H2 H3 H4 H5 H6]. split; [done|done| | | |].
    + intros j y k Hy. rewrite (Hs j) by done. by apply (H3 j).
    + intros j j' y y' k k' Hy Hy'. rewrite (Hs j), (Hs j') by done. by apply H4.
    + intros b Hb. destruct (H5 b Hb) as (j & y & k & Hy & Hk & E). exists j, y, k. by rewrite (Hs j).
    + intros b Hb. rewrite HV, vupd_ne by lia. by apply H6.
  - intros j y Hj Hy. split; [by apply (Hs j)|]. intros o Ho. rewrite (Hby j) by done. by rewrite decide_False by tauto.
  - by apply (Hs i).
  - intros o Ho. rewrite (Hby i) by done. destruct (Z.eqb_spec (o / BSIZE) bn); [by rewrite decide_True|by rewrite decide_False by tauto].
  - intros b Hb. rewrite HV, vupd_ne by lia. done.
Qed.

Lemma lookup_app_default (c q : list Z) k :
  default 0 ((c ++ q) !! k) = if decide (k < length c)%nat then default 0 (c !! k) else default 0 (q !! (k - length c)%nat).
Proof. destruct (decide _); [by rewrite lookup_app_l|by rewrite lookup_app_r by lia]. Qed.

Lemma contents_app V x c q d V' :
  let n := Z.of_nat (length c) in
  let bn := n / BSIZE in
  bn < MAXFILE -> baddr V x bn <> 0 -> contents V x c -> Z.of_nat (length q) <= (bn + 1) * BSIZE - n ->
  d = store_list q (V (baddr V x bn)) (n - bn * BSIZE) ->
  (forall o, 0 <= o < MAXFILE * BSIZE -> fbyte0 V' x o = if o / BSIZE =? bn then load8 d (o mod BSIZE) else fbyte0 V x o) ->
  contents V' x (c ++ q).
Proof.
  intros n bn Hbn Hne Hc Hq -> Hby o Ho. rewrite Hby by done. rewrite lookup_app_default.
  assert (Hb : BSIZE = 1024) by done. assert (En : n = Z.of_nat (length c)) by done. assert (Ebn : bn = n / 1024) by done. clearbody n bn.
  destruct (Z.eqb_spec (o / BSIZE) bn) as [E|E].
  - rewrite load8_store_list. assert (Eo : o mod BSIZE = o - bn * BSIZE) by (rewrite <- E, Hb; div_lia). rewrite Eo.
    destruct (decide (Z.to_nat o < length c)%nat) as [Hlt|Hge].
    + rewrite (proj2 (Z.leb_gt _ _)) by lia. cbn [andb]. rewrite <- Hc by done. unfold fbyte0, fbyte. rewrite E, Eo.
      by rewrite (proj2 (Z.eqb_neq _ _)).
    + rewrite (proj2 (Z.leb_le _ _)) by lia. cbn [andb]. destruct (Z.ltb_spec (o - bn * BSIZE) (n - bn * BSIZE + Z.of_nat (length q))).
      * do 2 f_equal. lia.
      * rewrite (lookup_ge_None_2 q) by lia. cbn. transitivity (fbyte0 V x o).
        { unfold fbyte0, fbyte. rewrite E, Eo. by rewrite (proj2 (Z.eqb_neq _ _)). }
        rewrite Hc by done. by rewrite lookup_ge_None_2 by lia.
  - rewrite Hc by done. destruct (decide _) as [|Hge]; [done|]. rewrite !lookup_ge_None_2; [done| |lia].
    rewrite Hb in *. assert (n <= o) by lia. subst bn.
    assert (n / 1024 <= o / 1024) by (apply Z.div_le_mono; lia). assert ((n / 1024 + 1) * 1024 <= o) by div_lia. lia.
Qed.

Lemma fresh_count V x n m :
  mapped_to V x n -> 0 <= n -> n / BSIZE < MAXFILE -> 0 < m <= (n / BSIZE + 1) * BSIZE - n ->
  fresh V x (n / BSIZE) = fblocks (n + m) - fblocks n.
Proof.
  intros [H1 H2] Hn Hf Hm. assert (Hbn : 0 <= n / BSIZE) by (unfold BSIZE; div_lia). specialize (H1 (n / BSIZE) ltac:(lia)).
  unfold fresh, fblocks. rewrite (ind_slot V x), baddr_slot by lia. unfold NDIRECT, BSIZE in *.
  destruct (Z.eqb_spec (saddr V x (n / 1024)) 0) as [E1|E1], (Z.eqb_spec (saddr V x MAXFILE) 0) as [E2|E2],
    (Z.leb_spec 12 (n / 1024)), (Z.ltb_spec (12 * 1024) (n + m)), (Z.ltb_spec (12 * 1024) n); cbn [andb]; div_lia.
Qed.

(** [p] was appended to file [i], whose inode is [x] and whose bytes are [c]. *)
Record appended (s : image) (F : list inode) (i : nat) (x : inode) (c p : list Z) (s' : image) (x' : inode) : Prop := {
  ap_meta : same_meta s s';
  ap_count : freeblock s' = freeblock s + fblocks (Z.of_nat (length (c ++ p))) - fblocks (Z.of_nat (length c));
  ap_layout : layout (view s') (<[i := x']> F) (freeblock s');
  ap_mapped : mapped_to (view s') x' (Z.of_nat (length (c ++ p)));
  ap_contents : contents (view s') x' (c ++ p);
  ap_rest : keeps_files (view s) (view s') F i;
  ap_low : forall b, b < nmeta -> view s' b = view s b;
  ap_inode : x' = set_i_addrs (i_addrs x') x
}.

Lemma appended_trans s F i x c p1 s1 x1 p2 s2 x2 :
  appended s F i x c p1 s1 x1 -> appended s1 (<[i := x1]> F) i x1 (c ++ p1) p2 s2 x2 -> appended s F i x c (p1 ++ p2) s2 x2.
Proof.
  intros [[A1 A1'] A2 A3 A4 A5 A6 A7 A8] [[B1 B1'] B2 B3 B4 B5 B6 B7 B8]. rewrite <- app_assoc in *. split; [split; congruence|lia| |done|done| | |].
  - by rewrite list_insert_insert_eq in B3.
  - intros j y Hj Hy. destruct (A6 j y Hj Hy) as [H1 H2], (B6 j y Hj) as [H3 H4]; [by rewrite list_lookup_insert_ne|].
    split; [intros l; by rewrite H3, H1|intros o Ho; by rewrite H4, H2].
  - intros b Hb. by rewrite B7, A7.
  - rewrite B8, A8. done.
Qed.

(** One round of the loop. *)
Lemma append_step s F i x c p :
  let n := Z.of_nat (length c) in
  let fbn := n / BSIZE in
  let m := Z.min (Z.of_nat (length p)) ((fbn + 1) * BSIZE - n) in
  im_len s = FSSIZE -> layout (view s) F (freeblock s) -> F !! i = Some x -> mapped_to (view s) x n -> contents (view s) x c ->
  fbn < MAXFILE -> p <> [] -> freeblock s + fblocks (n + m) - fblocks n <= FSSIZE ->
  exists x' s1 s', file_block x fbn s = Ok (x', baddr (view s1) x' fbn) s1 /\
    rsect (baddr (view s1) x' fbn) s1 = Ok (view s1 (baddr (view s1) x' fbn)) s1 /\
    wsect (baddr (view s1) x' fbn) (store_list (take (Z.to_nat m) p) (view s1 (baddr (view s1) x' fbn)) (n - fbn * BSIZE)) s1 = Ok tt s' /\
    appended s F i x c (take (Z.to_nat m) p) s' x'.
Proof.
  cbv zeta. intros Hlen Hl Hx Hmap Hc Hbn Hp Hfb. set (n := Z.of_nat (length c)) in *. set (fbn := n / BSIZE) in *.
  set (m := Z.min _ _) in *. assert (Hn : 0 <= n) by lia. assert (Hfbn : 0 <= fbn) by (unfold fbn, BSIZE; div_lia).
  assert (Hm : 0 < m <= (fbn + 1) * BSIZE - n /\ m <= Z.of_nat (length p)).
  { assert (n < (fbn + 1) * BSIZE) by (unfold fbn, BSIZE; div_lia). destruct p; [done|]. cbn [length] in *. lia. }
  assert (Hfr := fresh_count (view s) x n m Hmap Hn Hbn (proj1 Hm)). fold fbn in Hfr.
  destruct (file_block_spec s F i x fbn) as (x' & s1 & E1 & [[Hm1 Hm1'] Hcnt [Hl1 Hby1 Hr1 Hlow1 Hx1] Hsl]); [done..|lia|lia|].
  exists x', s1. assert (Hx' : <[i := x']> F !! i = Some x') by (apply list_lookup_insert_eq; by eapply lookup_lt_Some).
  assert (Hnz : baddr (view s1) x' fbn <> 0) by (rewrite baddr_slot by lia; apply Hsl; [lia|tauto]).
  assert (Hrg := ly_slot _ _ _ Hl1 i x' fbn Hx' ltac:(lia)). rewrite <- baddr_slot in Hrg by lia. specialize (Hrg Hnz).
  assert (Hf1 := ly_fb _ _ _ Hl1). rewrite nmeta_val in *.
  assert (Hlen1 : im_len s1 = FSSIZE) by congruence.
  destruct (wsect_ok s1 (baddr (view s1) x' fbn) (store_list (take (Z.to_nat m) p) (view s1 (baddr (view s1) x' fbn)) (n - fbn * BSIZE)))
    as (s' & Ew & HV & Em1 & Em2 & Em3); [done|lia|].
  exists s'. split; [done|]. split; [by rewrite rsect_ok by (done || lia)|]. split; [done|].
  destruct (data_write _ _ _ i x' fbn _ _ Hl1 Hx' ltac:(lia) Hnz HV) as (Hl2 & Hr2 & Hs2 & Hby2 & Hlow2).
  assert (Ht : Z.of_nat (length (take (Z.to_nat m) p)) = m) by (rewrite length_take; lia).
  split; [split; congruence| |by rewrite Em3| | | | |done].
  - rewrite length_app, Nat2Z.inj_add, Ht. fold n. lia.
  - rewrite length_app, Nat2Z.inj_add, Ht. fold n. destruct Hmap as [M1 M2]. unfold mapped_to, fbn, NDIRECT, BSIZE in *. split.
    + intros bn Hb. rewrite Hs2, Hsl, M1 by lia. rewrite MAXFILE_val in *. div_lia.
    + rewrite Hs2, Hsl, M2 by (rewrite MAXFILE_val; lia). rewrite MAXFILE_val in *. div_lia.
  - apply (contents_app (view s1) x' c _ _ (view s')) with (2 := Hnz) (5 := eq_refl); [done| |fold n; fold fbn; lia|exact Hby2].
    intros o Ho. rewrite Hby1 by done. by apply Hc.
  - intros j y Hj Hy. destruct (Hr1 j y Hj Hy) as [H1 H2], (Hr2 j y Hj) as [H3 H4]; [by rewrite list_lookup_insert_ne|].
    split; [intros l; by rewrite H3, H1|intros o Ho; by rewrite H4, H2].
  - intros b Hb. rewrite Hlow2, Hlow1 by (rewrite ?nmeta_val in *; lia). done.
Qed.

Lemma fblocks_mono n m : n <= m -> fblocks n <= fblocks m.
Proof.
  intros H. unfold fblocks, NDIRECT, BSIZE. destruct (Z.ltb_spec (12 * 1024) n), (Z.ltb_spec (12 * 1024) m); div_lia.
Qed.

Lemma iappend_loop_spec fuel : forall s F i x c p,
  im_len s = FSSIZE -> layout (view s) F (freeblock s) -> F !! i = Some x ->
  mapped_to (view s) x (Z.of_nat (length c)) -> contents (view s) x c ->
  Z.of_nat (length (c ++ p)) <= MAXFILE * BSIZE ->
  freeblock s + fblocks (Z.of_nat (length (c ++ p))) - fblocks (Z.of_nat (length c)) <= FSSIZE -> (length p <= fuel)%nat ->
  exists x' s', iappend_loop fuel x (Z.of_nat (length c)) p s = Ok (x', Z.of_nat (length (c ++ p))) s' /\ appended s F i x c p s' x'.
Proof.
  induction fuel as [|fuel IH]; intros s F i x c p Hlen Hl Hx Hm Hc Hsz Hfb Hp.
  - destruct p; [|cbn in Hp; lia]. exists x, s. rewrite app_nil_r in *. split; [done|]. rewrite app_nil_r || idtac.
    split; rewrite ?app_nil_r; [done|lia|by rewrite list_insert_id|done|done|by intros ? ?|done|by destruct x].
  - destruct p as [|a p'] eqn:Ep.
    { exists x, s. rewrite app_nil_r in *. split; [done|].
      split; rewrite ?app_nil_r; [done|lia|by rewrite list_insert_id|done|done|by intros ? ?|done|by destruct x]. }
    cbn [iappend_loop]. rewrite <- Ep in *. assert (Hne : p <> []) by (by subst). clear Ep a p'.
    set (n := Z.of_nat (length c)) in *. set (fbn := n / BSIZE). set (m := Z.min (Z.of_nat (length p)) ((fbn + 1) * BSIZE - n)).
    rewrite length_app, Nat2Z.inj_add in Hsz, Hfb. fold n in Hsz, Hfb.
    assert (Hmb : 0 < m <= Z.of_nat (length p) /\ m <= (fbn + 1) * BSIZE - n).
    { assert (n < (fbn + 1) * BSIZE) by (unfold fbn, BSIZE; div_lia). destruct p; [done|]. cbn [length] in *. lia. }
    assert (Hfbn : fbn < MAXFILE) by (rewrite MAXFILE_val in *; unfold fbn, BSIZE in *; div_lia).
    rewrite (proj2 (Z.leb_gt _ _)) by done. assert (Hmono := fblocks_mono (n + m) (n + Z.of_nat (length p)) ltac:(lia)).
    destruct (append_step s F i x c p) as (x1 & s1 & s2 & E1 & E2 & E3 & Ha); [done..|fold n fbn m; lia|]. fold n fbn m in E1, E2, E3, Ha.
    rewrite (bind_Ok _ _ _ _ _ E1), (bind_Ok _ _ _ _ _ E2), (bind_Ok _ _ _ _ _ E3).
    assert (Ht : Z.of_nat (length (c ++ take (Z.to_nat m) p)) = n + m) by (rewrite length_app, length_take; lia).
    assert (Hn : 0 <= n + m < 2 ^ 32) by (rewrite MAXFILE_val in *; unfold BSIZE in *; lia).
    rewrite (u32_small (n + m)) by done. assert (Ha' := Ha). destruct Ha' as [[M1 M1'] M2 M3 M4 M5 M6 M7 M8]. rewrite Ht in *.
    assert (Eapp : (c ++ take (Z.to_nat m) p) ++ drop (Z.to_nat m) p = c ++ p) by (rewrite <- app_assoc; by rewrite take_drop).
    destruct (IH s2 (<[i := x1]> F) i x1 (c ++ take (Z.to_nat m) p) (drop (Z.to_nat m) p)) as (x' & s' & E & Hf).
    + congruence.
    + done.
    + apply list_lookup_insert_eq. by eapply lookup_lt_Some.
    + by rewrite Ht.
    + done.
    + rewrite Eapp, length_app, Nat2Z.inj_add. lia.
    + rewrite Eapp, Ht, length_app, Nat2Z.inj_add. fold n. fold n in M2. lia.
    + rewrite length_drop. lia.
    + exists x', s'. rewrite Ht, Eapp in E. split; [done|]. rewrite <- (take_drop (Z.to_nat m) p). by eapply appended_trans.
Qed.

(** * Inodes on the disk *)

Lemma iblock_val inum : 0 <= inum < NINODES -> IBLOCK inum sb = inum / 16 + 32 /\ 32 <= IBLOCK inum sb < 45.
Proof.
  intros H. unfold IBLOCK. rewrite sb_val. cbn [sb_inodestart]. change IPB with 16. unfold NINODES in H.
  rewrite u32_small by div_lia. div_lia.
Qed.

Lemma rinode_ok s inum : im_len s = FSSIZE -> 0 <= inum < NINODES ->
  rinode inum s = Ok (dinode_at (view s) sb inum inode0) s.
Proof.
  intros Hlen Hi. destruct (iblock_val inum Hi) as [_ Hb]. unfold rinode.
  rewrite (bind_Ok _ _ _ _ _ (rsect_ok s (IBLOCK inum sb) Hlen ltac:(unfold FSSIZE; lia))). done.
Qed.

(** The inode [x] was written as number [inum]. *)
Record inode_written (s : image) (inum : Z) (x : inode) (s' : image) : Prop := {
  iw_meta : same_meta s s';
  iw_fb : freeblock s' = freeblock s;
  iw_block : forall b, b < 32 \/ 45 <= b -> view s' b = view s b;
  iw_at : dinode_at (view s') sb inum inode0 = with_fields x inode0;
  iw_others : forall j, 0 <= j < NINODES -> j <> inum -> dinode_at (view s') sb j inode0 = dinode_at (view s) sb j inode0
}.

Lemma winode_ok s inum x : im_len s = FSSIZE -> 0 <= inum < NINODES -> fields_ok x ->
  exists s', winode inum x s = Ok tt s' /\ inode_written s inum x s'.
Proof.
  intros Hlen Hi Hx. destruct (iblock_val inum Hi) as [Ei Hb]. unfold winode.
  rewrite (bind_Ok _ _ _ _ _ (rsect_ok s (IBLOCK inum sb) Hlen ltac:(unfold FSSIZE; lia))).
  destruct (wsect_ok s (IBLOCK inum sb) (dinode_store (view s (IBLOCK inum sb)) (dinode_off inum) x) Hlen ltac:(unfold FSSIZE; lia))
    as (s' & E & HV & E1 & E2 & E3).
  exists s'. split; [done|]. split; [done|done| | |].
  - intros b Hr. rewrite HV, vupd_ne by lia. done.
  - unfold dinode_at. rewrite HV, vupd_eq. by apply dinode_load_store.
  - intros j Hj Hne. unfold dinode_at. rewrite HV. destruct (iblock_val j Hj) as [Ej _]. destruct (Z.eqb_spec (IBLOCK j sb) (IBLOCK inum sb)) as [Eb|Eb].
    + rewrite Eb, vupd_eq. apply dinode_load_ext. intros a Ha. apply load8_dinode_store; [apply Hx|].
      unfold dinode_off in *. change IPB with 16 in *. div_lia.
    + by rewrite vupd_ne.
Qed.

(** Only the blocks from [nmeta] on matter for the files. *)
Lemma layout_high V V' F fb :
  (forall b, nmeta <= b -> V' b = V b) -> layout V F fb ->
  layout V' F fb /\ forall i x, F !! i = Some x -> (forall l, saddr V' x l = saddr V x l) /\
    forall o, 0 <= o < MAXFILE * BSIZE -> fbyte0 V' x o = fbyte0 V x o.
Proof.
  intros HV Hl. assert (Hs : forall i x, F !! i = Some x -> forall l, saddr V' x l = saddr V x l).
  { intros i x Hx l. apply saddr_ext. intros Hne. apply HV. by apply (slot_nonzero V F fb i). }
  split.
  - destruct Hl as [H1 H2 H3 H4 H5 H6]. split; [done|done| | | |].
    + intros j y k Hy. rewrite (Hs j) by done. by apply (H3 j).
    + intros j j' y y' k k' Hy Hy'. rewrite (Hs j), (Hs j') by done. by apply H4.
    + intros b Hb. destruct (H5 b Hb) as (j & y & k & Hy & Hk & E). exists j, y, k. by rewrite (Hs j).
    + intros b Hb. rewrite HV by lia. by apply H6.
  - intros i x Hx. split; [by apply (Hs i)|]. intros o Ho. apply bn_range in Ho. unfold fbyte0, fbyte. rewrite !baddr_slot, (Hs i) by (done || lia).
    destruct (Z.eqb_spec (saddr V x (o / BSIZE)) 0) as [|Hne]; [done|]. rewrite HV; [done|]. apply (ly_slot _ _ _ Hl i x); (done || lia).
Qed.

(** * The file system under construction *)

Definition file_is (V : blocks) (x : inode) (c : list Z) : Prop :=
  i_size x = Z.of_nat (length c) /\ mapped_to V x (Z.of_nat (length c)) /\ contents V x c.

Definition zsum (l : list Z) : Z := foldr Z.add 0 l.
Definition needed (C : list (list Z)) : Z := zsum ((fun c => fblocks (Z.of_nat (length c))) <$> C).

Lemma needed_app C D : needed (C ++ D) = needed C + needed D.
Proof. unfold needed, zsum. rewrite fmap_app. induction C as [|c C IH]; cbn [fmap list_fmap app foldr] in *; lia. Qed.
Lemma needed_insert C : forall i c c', C !! i = Some c ->
  needed (<[i := c']> C) = needed C + fblocks (Z.of_nat (length c')) - fblocks (Z.of_nat (length c)).
Proof.
  unfold needed, zsum. induction C as [|d C IH]; intros [|i] c c' Hc; [done|done|injection Hc as ->; cbn [fmap list_fmap foldr insert list_insert]; lia|].
  change (<[S i := c']> (d :: C)) with (d :: <[i := c']> C). rewrite !fmap_cons. cbn [foldr]. rewrite (IH i c c' Hc). lia.
Qed.

(** The inodes of the files 1, 2, ... are [F], their contents are [C]. *)
Record fsstate (s : image) (F : list inode) (C : list (list Z)) : Prop := {
  fs_len : im_len s = FSSIZE;
  fs_ninodes : freeinode s = Z.of_nat (length F) + 1 /\ Z.of_nat (length F) < NINODES;
  fs_layout : layout (view s) F (freeblock s);
  fs_disk : forall i x, F !! i = Some x -> dinode_at (view s) sb (Z.of_nat i + 1) inode0 = x /\ fields_ok x;
  fs_unused : forall j, 0 <= j < NINODES -> j = 0 \/ Z.of_nat (length F) < j -> i_type (dinode_at (view s) sb j inode0) = 0;
  fs_type : forall i x, F !! i = Some x -> i_type x = (if (i =? 0)%nat then T_DIR else T_FILE) /\ i_nlink x = 1;
  fs_files : Forall2 (file_is (view s)) F C;
  fs_count : freeblock s = nmeta + needed C;
  fs_sb : view s 1 = sb_bytes sb ∅;
  fs_log : forall b, b = 0 \/ 2 <= b < 32 -> view s b = ∅
}.

Lemma saddr_addrs V x x' l : i_addrs x' = i_addrs x -> saddr V x' l = saddr V x l.
Proof. intros E. unfold saddr, baddr, iaddr. by rewrite E. Qed.
Lemma fbyte0_addrs V x x' o : i_addrs x' = i_addrs x -> fbyte0 V x' o = fbyte0 V x o.
Proof. intros E. unfold fbyte0, fbyte, baddr, iaddr. by rewrite E. Qed.

Lemma layout_addrs V F fb i x x' :
  layout V F fb -> F !! i = Some x -> i_addrs x' = i_addrs x -> layout V (<[i := x']> F) fb.
Proof.
  intros [H1 H2 H3 H4 H5 H6] Hx E. assert (Hall : forall j y, <[i := x']> F !! j = Some y -> exists z, F !! j = Some z /\ i_addrs y = i_addrs z).
  { intros j y [(-> & -> & _)|[_ Hy]]%lookup_insert_cases; eauto. }
  split; [|done| | | |done].
  - intros j y Hy. destruct (Hall j y Hy) as (z & Hz & ->). by eapply H1.
  - intros j y k Hy. destruct (Hall j y Hy) as (z & Hz & Ez). rewrite (saddr_addrs V z y) by done. by apply (H3 j).
  - intros j j' y y' k k' Hy Hy'. destruct (Hall j y Hy) as (z & Hz & Ez), (Hall j' y' Hy') as (z' & Hz' & Ez').
    rewrite (saddr_addrs V z y), (saddr_addrs V z' y') by done. by apply H4.
  - intros b Hb. destruct (H5 b Hb) as (j & y & k & Hy & Hk & Es). destruct (decide (i = j)) as [->|Hne].
    + assert (y = x) as -> by congruence. exists j, x', k. rewrite list_lookup_insert_eq by (by eapply lookup_lt_Some). by rewrite (saddr_addrs V x).
    + exists j, y, k. by rewrite list_lookup_insert_ne.
Qed.

Lemma layout_fields V F fb i x : layout V F fb -> F !! i = Some x -> Forall (fun a => 0 <= a < 2 ^ 32) (i_addrs x).
Proof.
  intros Hl Hx. apply Forall_lookup. intros k a Ha. assert (Hk := lookup_lt_Some _ _ _ Ha).
  rewrite (ly_len _ _ _ Hl i x Hx) in Hk. change (Z.to_nat (NDIRECT + 1)) with 13%nat in Hk.
  assert (E : iaddr x (Z.of_nat k) = a) by (unfold iaddr; rewrite Nat2Z.id, Ha; done).
  rewrite <- (saddr_slot V) in E by (unfold NDIRECT; lia). destruct (Z.eqb_spec a 0) as [->|Hne]; [lia|]. rewrite <- E in *.
  assert (Hf := ly_fb _ _ _ Hl). rewrite nmeta_val in *. unfold FSSIZE in *.
  destruct (ly_slot _ _ _ Hl i x (slot_of (Z.of_nat k)) Hx) as [H1 H2]; [|done|rewrite nmeta_val in *; lia].
  unfold slot_of. rewrite MAXFILE_val. unfold NDIRECT. destruct (_ =? _) eqn:?; lia.
Qed.

Lemma file_is_high V V' F fb i x c :
  (forall b, nmeta <= b -> V' b = V b) -> layout V F fb -> F !! i = Some x -> file_is V x c -> file_is V' x c.
Proof.
  intros HV Hl Hx (H1 & [H2 H3] & H4). destruct (layout_high V V' F fb HV Hl) as [_ H]. destruct (H i x Hx) as [Hs Hb].
  split; [done|]. split; [split|].
  - intros bn Hbn. by rewrite Hs, H2.
  - by rewrite Hs, H3.
  - intros o Ho. by rewrite Hb, H4.
Qed.

(** Appending changes the files as [fsstate] describes them in one place. *)
Lemma appended_file s F C i x c p s1 x1 j y d :
  fsstate s F C -> F !! i = Some x -> appended s F i x c p s1 x1 -> j <> i -> F !! j = Some y -> C !! j = Some d ->
  file_is (view s1) y d.
Proof.
  intros Hs Hx Ha Hj Hy Hd. destruct (Forall2_lookup_lr _ _ _ _ _ _ (fs_files _ _ _ Hs) Hy Hd) as (H1 & [H2 H3] & H4).
  destruct (ap_rest _ _ _ _ _ _ _ _ Ha j y Hj Hy) as [Hsl Hb]. split; [done|]. split; [split|].
  - intros bn Hbn. by rewrite Hsl, H2.
  - by rewrite Hsl, H3.
  - intros o Ho. by rewrite Hb, H4.
Qed.

Lemma dinode_low V V' j : (forall b, b < nmeta -> V' b = V b) -> 0 <= j < NINODES -> dinode_at V' sb j inode0 = dinode_at V sb j inode0.
Proof. intros HV Hj. unfold dinode_at. destruct (iblock_val j Hj). rewrite HV; [done|]. rewrite nmeta_val. lia. Qed.

Lemma append_fields s F C i x c p s1 x1 n :
  fsstate s F C -> F !! i = Some x -> appended s F i x c p s1 x1 -> 0 <= n < 2 ^ 32 ->
  fields_ok (set_i_size n x1) /\ with_fields (set_i_size n x1) inode0 = set_i_size n x1.
Proof.
  intros Hs Hx Ha Hn. destruct (fs_disk _ _ _ Hs i x Hx) as [Ed [K1 K2 K3 K4 K5 K6 K7]].
  assert (Hx1 : <[i := x1]> F !! i = Some x1) by (apply list_lookup_insert_eq; by eapply lookup_lt_Some).
  assert (Hl := ap_layout _ _ _ _ _ _ _ _ Ha). assert (Ei := ap_inode _ _ _ _ _ _ _ _ Ha).
  assert (Hlen := ly_len _ _ _ Hl i x1 Hx1). assert (Hf := layout_fields _ _ _ _ _ Hl Hx1). split.
  - rewrite Ei. split; cbn [i_type i_major i_minor i_nlink i_size i_addrs set_i_addrs set_i_size]; done.
  - rewrite Ei, <- Ed. done.
Qed.

Lemma append_files s F C i x c p s1 x1 V :
  let n := Z.of_nat (length (c ++ p)) in
  fsstate s F C -> F !! i = Some x -> C !! i = Some c -> appended s F i x c p s1 x1 -> (forall b, nmeta <= b -> V b = view s1 b) ->
  Forall2 (file_is V) (<[i := set_i_size n x1]> F) (<[i := c ++ p]> C).
Proof.
  intros n Hs Hx Hc Ha HV. assert (Hlen := Forall2_length _ _ _ (fs_files _ _ _ Hs)). assert (Hi := lookup_lt_Some _ _ _ Hc).
  assert (Hx1 : <[i := x1]> F !! i = Some x1) by (apply list_lookup_insert_eq; lia). assert (Hl := ap_layout _ _ _ _ _ _ _ _ Ha).
  destruct (layout_high _ _ _ _ HV Hl) as [_ Hf]. destruct (Hf i x1 Hx1) as [Hsl Hby].
  destruct (ap_mapped _ _ _ _ _ _ _ _ Ha) as [M1 M2]. fold n in M1, M2.
  apply Forall2_same_length_lookup_2; [by rewrite !length_insert|]. intros j y d Hy Hd.
  apply lookup_insert_cases in Hy as [(<- & -> & _)|[Hne Hy]].
  - rewrite list_lookup_insert_eq in Hd by done. injection Hd as <-. split; [done|]. fold n. split; [split|].
    + intros bn Hb. rewrite (saddr_addrs _ x1), Hsl by done. by apply M1.
    + by rewrite (saddr_addrs _ x1), Hsl.
    + intros o Ho. rewrite (fbyte0_addrs _ x1), Hby by done. by apply (ap_contents _ _ _ _ _ _ _ _ Ha).
  - rewrite list_lookup_insert_ne in Hd by done. apply (file_is_high (view s1) _ (<[i := x1]> F) (freeblock s1) j); [done|done| |].
    + by rewrite list_lookup_insert_ne.
    + eapply (appended_file s F C i x); done.
Qed.

Lemma iappend_spec s F C i c p :
  fsstate s F C -> C !! i = Some c -> Z.of_nat (length (c ++ p)) <= MAXFILE * BSIZE ->
  freeblock s + fblocks (Z.of_nat (length (c ++ p))) - fblocks (Z.of_nat (length c)) <= FSSIZE ->
  exists s' F', iappend (Z.of_nat i + 1) p s = Ok tt s' /\ fsstate s' F' (<[i := c ++ p]> C) /\ length F' = length F.
Proof.
  intros Hs Hc Hsz Hfb. assert (Hs' := Hs). destruct Hs' as [H1 [H2 H2'] H3 H4 H5 H6 H7 H8 H9 H10].
  assert (Hlen := Forall2_length _ _ _ H7). assert (Hi := lookup_lt_Some _ _ _ Hc).
  destruct (lookup_lt_is_Some_2 F i ltac:(lia)) as [x Hx]. destruct (H4 i x Hx) as [Ed Hfx].
  destruct (Forall2_lookup_lr _ _ _ _ _ _ H7 Hx Hc) as (Esz & Hm & Hct).
  unfold iappend. rewrite (bind_Ok _ _ _ _ _ (rinode_ok s (Z.of_nat i + 1) H1 ltac:(lia))), Ed.
  rewrite Esz, xint_id by (rewrite length_app in Hsz; rewrite MAXFILE_val in Hsz; unfold BSIZE in Hsz; lia).
  destruct (iappend_loop_spec (length p) s F i x c p) as (x1 & s1 & E1 & Ha); [done..|].
  rewrite (bind_Ok _ _ _ _ _ E1). set (n := Z.of_nat (length (c ++ p))) in *.
  assert (Hn : 0 <= n < 2 ^ 32) by (rewrite MAXFILE_val in Hsz; unfold BSIZE in Hsz; lia).
  rewrite xint_id by done. destruct (append_fields s F C i x c p s1 x1 n) as [Hf Hw]; [done..|].
  assert (Ha' := Ha). destruct Ha' as [[A1 A1'] A2 A3 A4 A5 A6 A7 A8]. fold n in A2, A4.
  destruct (winode_ok s1 (Z.of_nat i + 1) (set_i_size n x1)) as (s' & E' & [[B1 B1'] B2 B3 B4 B5]); [congruence|lia|done|].
  rewrite Hw in B4. assert (Hx1 : <[i := x1]> F !! i = Some x1) by (apply list_lookup_insert_eq; lia).
  assert (Hhigh : forall b, nmeta <= b -> view s' b = view s1 b) by (intros b Hb; apply B3; rewrite nmeta_val in Hb; lia).
  destruct (layout_high _ _ _ _ Hhigh A3) as [Hl' _].
  exists s', (<[i := set_i_size n x1]> F). split; [done|]. split; [|by rewrite length_insert].
  split.
  - congruence.
  - rewrite length_insert. split; [congruence|done].
  - rewrite B2, <- (list_insert_insert_eq F i (set_i_size n x1) x1). by apply (layout_addrs _ _ _ i x1).
  - intros j y [(<- & -> & _)|[Hne Hy]]%lookup_insert_cases; [done|]. destruct (H4 j y Hy) as [<- ?]. split; [|done].
    assert (Hj := lookup_lt_Some _ _ _ Hy). rewrite B5 by lia. by apply dinode_low; [|lia].
  - intros j Hj Hu. rewrite length_insert in Hu. rewrite B5 by lia. rewrite (dinode_low (view s)) by done. by apply H5.
  - intros j y [(<- & -> & _)|[Hne Hy]]%lookup_insert_cases; [|by apply H6]. rewrite A8. cbn. by apply H6.
  - by apply (append_files s F C i x c p s1 x1).
  - rewrite B2, A2, H8, (needed_insert C i c) by done. fold n. lia.
  - rewrite B3, A7 by (rewrite ?nmeta_val; lia). done.
  - intros b Hb. rewrite B3, A7 by (rewrite ?nmeta_val; lia). by apply H10.
Qed.

Lemma iaddr_zero x k : i_addrs x = replicate (Z.to_nat (NDIRECT + 1)) 0 -> iaddr x k = 0.
Proof. intros E. unfold iaddr. rewrite E. destruct (_ !! _) eqn:H; [|done]. by apply lookup_replicate in H as [-> _]. Qed.
Lemma saddr_zero V x k : i_addrs x = replicate (Z.to_nat (NDIRECT + 1)) 0 -> saddr V x k = 0.
Proof.
  intros E. unfold saddr, baddr. rewrite !(iaddr_zero x) by done. cbn. by destruct (k =? MAXFILE), (k <? NDIRECT).
Qed.

Lemma lookup_snoc_cases {A} (l : list A) a j b : (l ++ [a]) !! j = Some b -> l !! j = Some b \/ j = length l /\ b = a.
Proof. intros [?|[? H]]%lookup_app_Some; [by left|]. right. apply list_lookup_singleton_Some in H as [? ->]. split; [lia|done]. Qed.

Lemma layout_snoc V F fb x : layout V F fb -> i_addrs x = replicate (Z.to_nat (NDIRECT + 1)) 0 -> layout V (F ++ [x]) fb.
Proof.
  intros [H1 H2 H3 H4 H5 H6] E. assert (Hs := fun k => saddr_zero V x k E). split; [|done| | | |done].
  - intros i y [Hy|[_ ->]]%lookup_snoc_cases; [by eapply H1|]. rewrite E. apply length_replicate.
  - intros i y k [Hy|[_ ->]]%lookup_snoc_cases; [by apply (H3 i)|]. by rewrite Hs.
  - intros i j y z k l [Hy|[_ ->]]%lookup_snoc_cases [Hz|[_ ->]]%lookup_snoc_cases; try (rewrite ?Hs; congruence).
    by apply H4.
  - intros b Hb. destruct (H5 b Hb) as (i & y & k & Hy & Hk & Es). exists i, y, k. split; [by apply lookup_app_l_Some|done].
Qed.

Lemma file_is_empty V x : i_addrs x = replicate (Z.to_nat (NDIRECT + 1)) 0 -> i_size x = 0 -> file_is V x [].
Proof.
  intros E Es. split; [done|]. split; [split|].
  - intros bn Hb. rewrite saddr_zero by done. change (Z.of_nat (length [])) with 0. unfold BSIZE. lia.
  - rewrite saddr_zero by done. change (Z.of_nat (length [])) with 0. unfold NDIRECT, BSIZE. lia.
  - intros o Ho. apply bn_range in Ho. unfold fbyte0. rewrite baddr_slot, saddr_zero by (done || lia). done.
Qed.

Definition new_type (F : list inode) : Z := match F with [] => T_DIR | _ => T_FILE end.
Definition new_inode (type : Z) : inode := set_i_size 0 (set_i_nlink 1 (set_i_type type inode0)).

Lemma new_inode_ok type : type = T_DIR \/ type = T_FILE ->
  fields_ok (new_inode type) /\ set_i_size (xint 0) (set_i_nlink (i16 (xshort 1)) (set_i_type (i16 (xshort type)) inode0)) = new_inode type.
Proof.
  intros H. split; [|destruct H as [->| ->]; vm_compute; reflexivity].
  split; cbn [new_inode i_type i_major i_minor i_nlink i_size i_addrs set_i_type set_i_nlink set_i_size inode0];
    try (unfold T_DIR, T_FILE in *; lia); [done|]. apply Forall_replicate. lia.
Qed.

Lemma ialloc_spec s F C :
  fsstate s F C -> Z.of_nat (length F) + 1 < NINODES ->
  exists s' F', ialloc (new_type F) s = Ok (Z.of_nat (length F) + 1) s' /\ fsstate s' F' (C ++ [[]]) /\ length F' = S (length F).
Proof.
  intros [H1 [H2 H2'] H3 H4 H5 H6 H7 H8 H9 H10] Hn. set (x := new_inode (new_type F)).
  destruct (new_inode_ok (new_type F)) as [Hf Ex]; [destruct F; auto|]. unfold NINODES in *. unfold ialloc. krun. rewrite H2, Ex.
  rewrite u32_small by lia. set (s1 := set_freeinode _ s).
  destruct (winode_ok s1 (Z.of_nat (length F) + 1) x) as (s' & E & [[B1 B1'] B2 B3 B4 B5]); [done|unfold NINODES; lia|done|].
  rewrite (bind_Ok _ _ _ _ _ E). unfold NINODES in *.
  assert (Hx : i_addrs x = replicate (Z.to_nat (NDIRECT + 1)) 0) by done. assert (Hxs : i_size x = 0) by done.
  assert (Hxt : i_type x = new_type F /\ i_nlink x = 1) by done. replace (with_fields x inode0) with x in B4 by done. fold x in Hf. clearbody x.
  assert (Hhigh : forall b, nmeta <= b -> view s' b = view s b) by (intros b Hb; rewrite B3; [done|rewrite nmeta_val in Hb; lia]).
  destruct (layout_high _ _ _ _ Hhigh H3) as [Hl _].
  exists s', (F ++ [x]). split; [done|]. split; [|rewrite length_app; cbn; lia]. split.
  - by rewrite B1.
  - rewrite B1', length_app. cbn. unfold NINODES. lia.
  - rewrite B2. by apply layout_snoc.
  - intros i y [Hy|[-> ->]]%lookup_snoc_cases; [|done]. assert (Hi := lookup_lt_Some _ _ _ Hy).
    destruct (H4 i y Hy) as [<- ?]. split; [|done]. by rewrite B5 by (unfold NINODES; lia).
  - intros j Hj Hu. rewrite length_app in Hu. cbn in Hu. unfold NINODES in *. rewrite B5 by lia. apply H5; lia.
  - intros i y [Hy|[-> ->]]%lookup_snoc_cases; [by apply H6|]. destruct F; done.
  - apply Forall2_app; [|by constructor; [by apply file_is_empty|]]. apply Forall2_same_length_lookup_2; [by eapply Forall2_length|].
    intros j y d Hy Hd. apply (file_is_high (view s) _ F (freeblock s) j); [done..|]. by eapply Forall2_lookup_lr.
  - rewrite B2, needed_app. change (needed [[]]) with 0. cbn. lia.
  - rewrite B3 by lia. done.
  - intros b Hb. rewrite B3 by lia. by apply H10.
Qed.

(** * Adding the files *)

Lemma append_chunks_spec chunks : forall s F C i c,
  let c' := c ++ concat chunks in
  fsstate s F C -> C !! i = Some c -> Z.of_nat (length c') <= MAXFILE * BSIZE ->
  freeblock s + fblocks (Z.of_nat (length c')) - fblocks (Z.of_nat (length c)) <= FSSIZE ->
  exists s' F', append_chunks (Z.of_nat i + 1) chunks s = Ok tt s' /\ fsstate s' F' (<[i := c']> C) /\ length F' = length F.
Proof.
  induction chunks as [|p chunks IH]; cbn [concat append_chunks]; intros s F C i c Hs Hc Hsz Hfb.
  { rewrite app_nil_r, list_insert_id by done. by exists s, F. }
  assert (Hle : (length (c ++ p) <= length (c ++ p ++ concat chunks))%nat) by (rewrite !length_app; lia).
  assert (Hmono := fblocks_mono (Z.of_nat (length (c ++ p))) (Z.of_nat (length (c ++ p ++ concat chunks))) ltac:(lia)).
  destruct (iappend_spec s F C i c p) as (s1 & F1 & E1 & Hs1 & Hl1); [done|done|lia|lia|].
  rewrite (bind_Ok _ _ _ _ _ E1).
  assert (Hc1 : <[i := c ++ p]> C !! i = Some (c ++ p)) by (apply list_lookup_insert_eq; by eapply lookup_lt_Some).
  assert (Hcnt := fs_count _ _ _ Hs1). rewrite (needed_insert C i c) in Hcnt by done. assert (Hcnt0 := fs_count _ _ _ Hs).
  destruct (IH s1 F1 _ i (c ++ p) Hs1 Hc1) as (s' & F' & E' & Hs' & Hl'); [by rewrite <- app_assoc|rewrite <- app_assoc; lia|].
  exists s', F'. rewrite list_insert_insert_eq, <- app_assoc in Hs'. split_and!; [done|done|lia].
Qed.

(** The host has the file [f], a name and its contents, for the argument [arg];
    an argument contains no NUL. *)
Record packs (host : list Z -> option (list (list Z))) (arg : list Z) (f : list Z * list Z) : Prop := {
  pk_slash : SLASH ∉ shortname arg;
  pk_name : skip_underscore (shortname arg) = f.1;
  pk_len : Z.of_nat (length f.1) <= DIRSIZ;
  pk_chars : 0 ∉ f.1;
  pk_data : exists chunks, host arg = Some chunks /\ concat chunks = f.2;
  pk_size : Z.of_nat (length f.2) <= MAXFILE * BSIZE
}.

Lemma length_dirent inum name : length (dirent inum name) = 16%nat.
Proof.
  unfold dirent. rewrite length_app, length_take, length_app, length_replicate. change (Z.to_nat DIRSIZ) with 14%nat. cbn [length]. lia.
Qed.

Lemma fblocks_nonneg n : 0 <= n -> 0 <= fblocks n.
Proof. intros Hn. unfold fblocks, BSIZE. destruct (_ <? _); div_lia. Qed.
Lemma needed_cons c C : needed (c :: C) = fblocks (Z.of_nat (length c)) + needed C.
Proof. done. Qed.

Lemma add_file_spec host s F d C arg f :
  let d' := d ++ dirent (Z.of_nat (length F) + 1) f.1 in
  fsstate s F (d :: C) -> packs host arg f -> Z.of_nat (length F) + 1 < NINODES -> Z.of_nat (length d') <= MAXFILE * BSIZE ->
  nmeta + needed (d' :: C ++ [f.2]) <= FSSIZE ->
  exists s' F', add_file host ROOTINO arg s = Ok tt s' /\ fsstate s' F' (d' :: C ++ [f.2]) /\ length F' = S (length F).
Proof.
  cbv zeta. intros Hs [P1 P2 P3 P4 (chunks & P5 & P6) P7] Hn Hd Hfb. set (e := dirent _ f.1) in *.
  assert (Hlen := Forall2_length _ _ _ (fs_files _ _ _ Hs)). rewrite needed_cons, needed_app in Hfb. rewrite (needed_cons f.2 []) in Hfb. change (needed []) with 0 in Hfb.
  assert (H0 := fblocks_nonneg (Z.of_nat (length f.2)) ltac:(lia)).
  unfold add_file. rewrite bool_decide_eq_false_2 by done. rewrite P5, P2, (proj2 (Z.ltb_ge _ _)) by done.
  destruct (ialloc_spec s F (d :: C) Hs Hn) as (s1 & F1 & E1 & Hs1 & Hl1).
  assert (Et : new_type F = T_FILE) by (destruct F; [done|done]). rewrite Et in E1. rewrite (bind_Ok _ _ _ _ _ E1). fold e.
  assert (Hc1 := fs_count _ _ _ Hs1). rewrite <- app_comm_cons, needed_cons, needed_app in Hc1. change (needed [[]]) with 0 in Hc1.
  destruct (iappend_spec s1 F1 (d :: C ++ [[]]) 0 d e) as (s2 & F2 & E2 & Hs2 & Hl2); [done|done|done|lia|].
  change (Z.of_nat 0 + 1) with ROOTINO in E2. rewrite (bind_Ok _ _ _ _ _ E2).
  cbn [insert list_insert] in Hs2. assert (Hc2 := fs_count _ _ _ Hs2). rewrite needed_cons, needed_app in Hc2. change (needed [[]]) with 0 in Hc2.
  destruct (append_chunks_spec chunks s2 F2 ((d ++ e) :: C ++ [[]]) (length F) []) as (s3 & F3 & E3 & Hs3 & Hl3); [done| |by rewrite app_nil_l, P6| |].
  { rewrite Hlen. change (((d ++ e) :: C ++ [[]]) !! length (d :: C)) with ((C ++ [[]]) !! length C). by rewrite lookup_app_r, Nat.sub_diag by lia. }
  - rewrite app_nil_l, P6. cbn [length]. change (fblocks (Z.of_nat 0)) with 0. lia.
  - exists s3, F3. split; [done|]. split; [|lia]. rewrite app_nil_l, P6 in Hs3.
    replace (<[length F := f.2]> ((d ++ e) :: C ++ [[]])) with ((d ++ e) :: C ++ [f.2]) in Hs3; [done|].
    rewrite Hlen. change (<[length (d :: C) := f.2]> ((d ++ e) :: C ++ [[]])) with ((d ++ e) :: <[length C := f.2]> (C ++ [[]])). f_equal. symmetry. rewrite insert_app_r_alt by lia. by rewrite Nat.sub_diag.
Qed.

(** Directory entries for the files, numbered from [k] on. *)
Fixpoint number (k : Z) (files : list (list Z * list Z)) : list (Z * list Z) :=
  match files with [] => [] | f :: files => (k, f.1) :: number (k + 1) files end.
Definition dir_bytes (es : list (Z * list Z)) : list Z := concat ((fun e => dirent e.1 e.2) <$> es).

Lemma dir_bytes_cons e es : dir_bytes (e :: es) = dirent e.1 e.2 ++ dir_bytes es.
Proof. done. Qed.
Lemma length_dir_bytes es : length (dir_bytes es) = (16 * length es)%nat.
Proof.
  induction es as [|e es IH]; [done|]. rewrite dir_bytes_cons. cbn [length]. rewrite length_app, IH, length_dirent. lia.
Qed.
Lemma length_number fs : forall k, length (number k fs) = length fs.
Proof. induction fs as [|f fs IH]; intros k; cbn; [done|by rewrite IH]. Qed.

Lemma needed_nonneg C : 0 <= needed C.
Proof. induction C as [|c C IH]; [done|]. rewrite needed_cons. pose proof (fblocks_nonneg (Z.of_nat (length c))). lia. Qed.

Lemma add_files_spec host args : forall fs s F d C,
  let d' := d ++ dir_bytes (number (Z.of_nat (length F) + 1) fs) in
  Forall2 (packs host) args fs -> fsstate s F (d :: C) -> Z.of_nat (length F + length fs) < NINODES ->
  Z.of_nat (length d') <= MAXFILE * BSIZE -> nmeta + needed (d' :: C ++ fs.*2) <= FSSIZE ->
  exists s' F', add_files host ROOTINO args s = Ok tt s' /\ fsstate s' F' (d' :: C ++ fs.*2) /\ length F' = (length F + length fs)%nat.
Proof.
  induction args as [|a args IH]; intros fs s F d C d' Hp Hs Hn Hd Hfb.
  { apply Forall2_nil_inv_l in Hp as ->. cbn in *. unfold d', dir_bytes. cbn. rewrite !app_nil_r. exists s, F. split_and!; [done|done|lia]. }
  apply Forall2_cons_inv_l in Hp as (f & fs' & Hf & Hp & ->). unfold d' in *. cbn [number length add_files] in *.
  set (k := Z.of_nat (length F) + 1) in *. rewrite dir_bytes_cons in *. rewrite fmap_cons in *. cbn [fst snd] in *.
  set (e := dirent k f.1) in *. set (r := dir_bytes (number (k + 1) fs')) in *.
  assert (Hmono := fblocks_mono (Z.of_nat (length (d ++ e))) (Z.of_nat (length (d ++ e ++ r))) ltac:(rewrite !length_app; lia)).
  assert (Hnn := needed_nonneg fs'.*2). rewrite needed_cons, needed_app, needed_cons in Hfb.
  destruct (add_file_spec host s F d C a f) as (s1 & F1 & E1 & Hs1 & Hl1); [done|done|lia| | |].
  - fold k e. rewrite !length_app in *. lia.
  - fold k e. rewrite needed_cons, needed_app, needed_cons. change (needed []) with 0. lia.
  - fold k e in Hs1. rewrite (bind_Ok _ _ _ _ _ E1).
    assert (Ek : Z.of_nat (length F1) + 1 = k + 1) by lia.
    destruct (IH fs' s1 F1 (d ++ e) (C ++ [f.2])) as (s' & F' & E' & Hs' & Hl'); [done|done|lia| | |].
    + rewrite Ek. fold r. by rewrite <- app_assoc.
    + rewrite Ek. fold r. rewrite needed_cons, !needed_app, (needed_cons f.2), <- app_assoc. change (needed []) with 0. lia.
    + exists s', F'. split; [done|]. split; [|lia]. rewrite Ek in Hs'. fold r in Hs'. rewrite <- !app_assoc in Hs'. done.
Qed.

(** * The empty file system *)

Lemma type_empty V j : (forall b, 32 <= b < 45 -> V b = ∅) -> 0 <= j < NINODES -> i_type (dinode_at V sb j inode0) = 0.
Proof. intros HV Hj. destruct (iblock_val j Hj). unfold dinode_at. rewrite HV by lia. reflexivity. Qed.

Lemma zero_empty : zero_block ∅.
Proof. intros i Hi. reflexivity. Qed.

Lemma image_init_spec :
  exists s1 s, (modify (set_freeblock nmeta) ;;;
    for_loop (Z.to_nat FSSIZE) 0 (fun i => wsect i ∅ ;;; ret (@None unit))) image0 = Ok None s1 /\
    wsect 1 (sb_bytes sb ∅) s1 = Ok tt s /\ fsstate s [] [].
Proof.
  rewrite bind_modify.
  destruct (for_loop_inv (A := unit) (C := unit) (Z.to_nat FSSIZE) 0 (fun i => wsect i ∅ ;;; ret None)
    (fun j s => im_len s = j /\ freeinode s = 1 /\ freeblock s = nmeta /\ forall b, view s b = ∅) (set_freeblock nmeta image0)) as (s1 & E & Hl & Hi & Hb & HV).
  { intros j s Hj (H1 & H2 & H3 & H4). rewrite Z2Nat.id in Hj by done. unfold FSSIZE in Hj. unfold wsect. rewrite bind_modify, sector_id by lia.
    eexists. split; [done|]. cbn. split_and!; [lia|done|done|]. intros b. unfold view. cbn. destruct (Z.eqb_spec b j) as [->|Hne].
    - by rewrite lookup_insert_eq.
    - rewrite lookup_insert_ne by done. apply H4. }
  { split_and!; done. }
  rewrite Z2Nat.id in Hl by done. destruct (wsect_ok s1 1 (sb_bytes sb ∅)) as (s & Ew & HW & E1 & E2 & E3); [lia|unfold FSSIZE; lia|].
  exists s1, s. split; [done|]. split; [done|].
  assert (Hvs : forall b, b <> 1 -> view s b = ∅) by (intros b Hne; by rewrite HW, vupd_ne).
  split; try done.
  - lia.
  - rewrite E2, Hi. done.
  - rewrite E3, Hb. split; [done|rewrite nmeta_val; unfold FSSIZE; lia|done|done|intros b Hr; lia|]. intros b Hr.
    rewrite Hvs by (rewrite nmeta_val in Hr; lia). apply zero_empty.
  - intros j Hj _. apply type_empty; [|done]. intros b Hr. apply Hvs. lia.
  - rewrite E3, Hb. done.
  - intros b Hr. apply Hvs. lia.
Qed.
