(* ===== verification/MkfsSpec.v ===== *)
(** The image that mkfs makes: it is a file system as the kernel expects it,
    with the files of the host in its root directory. *)
From S2P Require Import Prelude State Locks Kstring Kalloc Vm PageTable VmSpec Uvm UvmCopy Copy Sched Sleeplock Bio BioList BioSpec BlockLayer Log LogSpec Txn Boot Uart Kprintf Either Fs FsTxn FsAlloc FsRead FsInode FsFile FsPath Pipe Console File FsWrite FsDir Mkfs MkfsFiles.

(** * What the kernel finds *)

Definition entries (files : list (list Z * list Z)) : list (Z * list Z) :=
  (ROOTINO, chars ".") :: (ROOTINO, chars "..") :: number 2 files.
Definition inode_no (V : blocks) (j : Z) : inode := dinode_at V sb j inode0.
Definition used_blocks (files : list (list Z * list Z)) : Z := nmeta + needed (dir_bytes (entries files) :: files.*2).

(** The blocks [V] are a file system with [files] in its root directory: what the
    theorems on kernel/fs.c require of it holds. *)
Record made (V : blocks) (files : list (list Z * list Z)) : Prop := {
  md_sb : sb_of_bytes (V 1) = sb;
  md_log : i32 (load32 (V (sb_logstart sb)) 0) = 0;
  md_bitmap : bitmap_ok 2 nlog sb [];
  md_inodes : inodes_ok 2 nlog sb [];
  md_free : forall b, 0 <= b < sb_size sb -> free_block V sb b = (used_blocks files <=? b);
  md_data : free_ok 2 nlog V sb [];
  md_root : i_type (inode_no V ROOTINO) = T_DIR /\ i_nlink (inode_no V ROOTINO) = 1 /\
    i_size (inode_no V ROOTINO) = (Z.of_nat (16 * length (entries files)) / BSIZE + 1) * BSIZE;
  md_entries : forall k e, entries files !! k = Some e ->
    dent_inum V (inode_no V ROOTINO) (Z.of_nat k) = e.1 /\ dent_name V (inode_no V ROOTINO) (Z.of_nat k) = e.2;
  md_end : forall k, Z.of_nat (length (entries files)) <= k -> 16 * k < i_size (inode_no V ROOTINO) ->
    dent_inum V (inode_no V ROOTINO) k = 0;
  md_files : forall k f, files !! k = Some f ->
    let x := inode_no V (Z.of_nat k + 2) in
    i_type x = T_FILE /\ i_nlink x = 1 /\ i_size x = Z.of_nat (length f.2) /\
    forall o, 0 <= o < i_size x -> fbyte V x o = default 0 (f.2 !! Z.to_nat o);
  md_wf : forall j, 1 <= j <= Z.of_nat (length files) + 1 ->
    (j = ROOTINO -> Z.of_nat (16 * length (entries files)) mod BSIZE <> 0) -> file_wf 2 nlog sb V (inode_no V j) [];
  md_unused : forall j, 0 <= j < NINODES -> j = 0 \/ Z.of_nat (length files) + 1 < j -> i_type (inode_no V j) = 0;
  md_slots : forall j k, 1 <= j <= Z.of_nat (length files) + 1 -> 0 <= k <= MAXFILE -> saddr V (inode_no V j) k <> 0 ->
    nmeta <= saddr V (inode_no V j) k < used_blocks files;
  md_owner : forall b, nmeta <= b < sb_size sb -> free_block V sb b = false ->
    exists j k, 1 <= j <= Z.of_nat (length files) + 1 /\ 0 <= k <= MAXFILE /\ saddr V (inode_no V j) k = b /\
      forall j' k', 1 <= j' <= Z.of_nat (length files) + 1 -> 0 <= k' <= MAXFILE -> saddr V (inode_no V j') k' = b -> j' = j /\ k' = k
}.

(** * The bitmap *)

Lemma bit_mark_used n : forall i d j, 0 <= i -> 0 <= j ->
  bit_set (mark_used n i d) j = (i <=? j) && (j <? i + Z.of_nat n) || bit_set d j.
Proof.
  induction n as [|n IH]; intros i d j Hi Hj; cbn [mark_used].
  - destruct (Z.leb_spec i j), (Z.ltb_spec j (i + Z.of_nat 0)); try lia; done.
  - rewrite IH, bit_set_mark by lia.
    destruct (Z.leb_spec (i + 1) j), (Z.ltb_spec j (i + 1 + Z.of_nat n)), (Z.leb_spec i j), (Z.ltb_spec j (i + Z.of_nat (S n))),
      (Z.eqb_spec i j); try lia; done.
Qed.

Lemma bblock_val b : 0 <= b < FSSIZE -> BBLOCK b sb = 45.
Proof. intros H. unfold BBLOCK. rewrite sb_val. cbn [sb_bmapstart]. unfold BPB, BSIZE, FSSIZE in *. rewrite Z.div_small by lia. done. Qed.

Lemma free_used_blocks V used b :
  V 45 = mark_used (Z.to_nat used) 0 ∅ -> 0 <= used -> 0 <= b < FSSIZE -> free_block V sb b = (used <=? b).
Proof.
  intros E Hu Hb. unfold free_block. rewrite bblock_val, E by done. unfold FSSIZE, BPB, BSIZE in *. rewrite Z.mod_small by lia.
  rewrite bit_mark_used by lia. unfold bit_set. rewrite Z2Nat.id by done. change (load8 ∅ (b / 8)) with 0. rewrite Z.testbit_0_l, orb_false_r.
  rewrite (proj2 (Z.leb_le _ _)) by lia. cbn [andb]. rewrite Z.add_0_l. destruct (Z.ltb_spec b used), (Z.leb_spec used b); (lia || done).
Qed.

Lemma geometry : bitmap_ok 2 nlog sb [] /\ inodes_ok 2 nlog sb [].
Proof.
  assert (Hl : forall b, 32 <= b < 46 -> home 2 nlog b) by (intros b Hb; unfold home, inlog; change nlog with 30; lia).
  assert (Hsz : sb_size sb = FSSIZE) by reflexivity. assert (Hni : sb_ninodes sb = NINODES) by reflexivity. split; split.
  - rewrite Hsz. unfold FSSIZE. lia.
  - by vm_compute.
  - by vm_compute.
  - intros b Hb. rewrite bblock_val by (by rewrite Hsz in Hb). split; [apply Hl; lia|apply not_elem_of_nil].
  - by vm_compute.
  - by vm_compute.
  - intros j Hj. rewrite Hni in Hj. destruct (iblock_val j Hj). split; [apply Hl; lia|apply not_elem_of_nil].
Qed.

(** * Directory entries *)

Lemma dir_bytes_lookup es : forall k e a, es !! k = Some e -> (a < 16)%nat -> dir_bytes es !! (16 * k + a)%nat = dirent e.1 e.2 !! a.
Proof.
  induction es as [|d es IH]; intros [|k] e a He Ha; [done|done| |]; rewrite dir_bytes_cons.
  - injection He as ->. rewrite lookup_app_l; [done|]. rewrite length_dirent. lia.
  - rewrite lookup_app_r; rewrite length_dirent; [|lia]. replace (16 * S k + a - 16)%nat with (16 * k + a)%nat by lia. by apply IH.
Qed.

Lemma lookup_two {A} (a b : A) l i : ([a; b] ++ l) !! S (S i) = l !! i.
Proof. done. Qed.

Lemma dent_of V x es k e :
  (forall o, 0 <= o < MAXFILE * BSIZE -> fbyte V x o = default 0 (dir_bytes es !! Z.to_nat o)) ->
  Z.of_nat (16 * length es) <= MAXFILE * BSIZE -> es !! k = Some e -> 0 <= e.1 < 2 ^ 16 -> 0 ∉ e.2 -> Z.of_nat (length e.2) <= DIRSIZ ->
  dent_inum V x (Z.of_nat k) = e.1 /\ dent_name V x (Z.of_nat k) = e.2.
Proof.
  intros Hb Hsz He Hi H0 Hn. assert (Hk := lookup_lt_Some _ _ _ He).
  assert (Hl : forall a, (a < 16)%nat -> load8 (dent V x (Z.of_nat k)) (Z.of_nat a) = default 0 (dirent e.1 e.2 !! a)).
  { intros a Ha. rewrite load8_dent, (proj2 (Z.leb_le _ _)), (proj2 (Z.ltb_lt _ _)) by lia. cbn [andb]. rewrite Hb by lia.
    rewrite <- (dir_bytes_lookup es k e a He Ha). do 2 f_equal. lia. }
  unfold dirent in Hl. rewrite xshort_id in Hl by done. split.
  - assert (L0 := Hl 0%nat ltac:(lia)). assert (L1 := Hl 1%nat ltac:(lia)). change (load8 (dent V x (Z.of_nat k)) 0 = u8 e.1) in L0.
    change (load8 (dent V x (Z.of_nat k)) (0 + 1) = u8 (e.1 / 256)) in L1. unfold dent_inum, load16. cbn [le_load]. rewrite L0, L1.
    unfold u8. change (2 ^ 8) with 256. change (2 ^ 16) with 65536 in Hi. div_lia.
  - unfold dent_name. rewrite (cstr_take _ _ _ e.2); [apply take_ge; lia| |].
    + intros i c Hi' Hc. change (Z.to_nat DIRSIZ) with 14%nat in *. replace (2 + Z.of_nat i) with (Z.of_nat (S (S i))) by lia.
      rewrite Hl, lookup_two by lia. rewrite lookup_take_lt, lookup_app_l, Hc by (lia || by eapply lookup_lt_Some).
      split; [done|]. intros ->. apply H0. by eapply list_elem_of_lookup_2.
    + change (Z.to_nat DIRSIZ) with 14%nat. destruct (decide (14 <= length e.2)%nat); [by left|right].
      replace (2 + Z.of_nat (length e.2)) with (Z.of_nat (S (S (length e.2)))) by lia. rewrite Hl, lookup_two by lia.
      change (Z.to_nat DIRSIZ) with 14%nat. rewrite lookup_take_lt, lookup_app_r, Nat.sub_diag by lia. done.
Qed.

(** * The finished image *)

Lemma data_block_of V F used i x k :
  layout V F used -> V 45 = mark_used (Z.to_nat used) 0 ∅ -> F !! i = Some x -> 0 <= k <= MAXFILE -> saddr V x k <> 0 ->
  data_block 2 nlog sb V [] (saddr V x k).
Proof.
  intros Hl Hb Hx Hk Hne. destruct (ly_slot _ _ _ Hl i x k Hx Hk Hne) as [H1 H2]. destruct (ly_fb _ _ _ Hl) as [H3 H4].
  assert (Hsz : sb_size sb = FSSIZE) by reflexivity. assert (Hni : sb_ninodes sb = NINODES) by reflexivity.
  rewrite nmeta_val in *. unfold FSSIZE in *. split.
  - rewrite Hsz. lia.
  - rewrite (free_used_blocks V used) by (done || unfold FSSIZE; lia). apply Z.leb_gt. lia.
  - unfold home, inlog. change nlog with 30. lia.
  - apply not_elem_of_nil.
  - intros b Hb'. rewrite Hsz in Hb'. rewrite bblock_val by (unfold FSSIZE; lia). lia.
  - intros j Hj. rewrite Hni in Hj. destruct (iblock_val j Hj). lia.
Qed.

Lemma wf_of V F used i x :
  layout V F used -> V 45 = mark_used (Z.to_nat used) 0 ∅ -> F !! i = Some x -> 0 <= i_size x <= MAXFILE * BSIZE ->
  (forall bn, 0 <= bn -> bn * BSIZE < i_size x -> saddr V x bn <> 0) -> file_wf 2 nlog sb V x [].
Proof.
  intros Hl Hb Hx Hsz Hm. split.
  - by eapply ly_len.
  - done.
  - intros bn H1 H2. rewrite baddr_slot; [by apply Hm|]. rewrite MAXFILE_val in *. unfold BSIZE in *. lia.
  - intros k Hk Hne. by eapply data_block_of.
  - intros k l Hk Hl' Hne E. by apply (ly_inj _ _ _ Hl i i x x k l).
Qed.

Lemma bytes_of V x c o : contents V x c -> V 0 = ∅ -> 0 <= o < MAXFILE * BSIZE -> fbyte V x o = default 0 (c !! Z.to_nat o).
Proof.
  intros Hc H0 Ho. rewrite <- Hc by done. unfold fbyte0. destruct (Z.eqb_spec (baddr V x (o / BSIZE)) 0) as [E|]; [|done].
  unfold fbyte. by rewrite E, H0.
Qed.

Lemma free_ok_of V used : nmeta <= used -> V 45 = mark_used (Z.to_nat used) 0 ∅ -> free_ok 2 nlog V sb [].
Proof.
  intros Hu Hb b Hr Hf. change (sb_size sb) with FSSIZE in *. rewrite nmeta_val in Hu.
  rewrite (free_used_blocks V used) in Hf by (done || lia). apply Z.leb_le in Hf. unfold FSSIZE in *. split_and!.
  - unfold home, inlog. change nlog with 30. lia.
  - apply not_elem_of_nil.
  - intros b' Hb'. rewrite bblock_val by (unfold FSSIZE; lia). lia.
Qed.

Lemma sb_bytes_read : sb_of_bytes (sb_bytes sb ∅) = sb.
Proof. rewrite sb_val. vm_compute. reflexivity. Qed.

Lemma number_lookup fs : forall j k e, number j fs !! k = Some e -> exists f, fs !! k = Some f /\ e = (j + Z.of_nat k, f.1).
Proof.
  induction fs as [|f fs IH]; intros j [|k] e He; [done|done|injection He as <-; exists f; split; [done|f_equal; lia]|].
  destruct (IH (j + 1) k e He) as (g & Hg & ->). exists g. split; [done|]. f_equal. lia.
Qed.

Definition name_ok (f : list Z * list Z) : Prop := 0 ∉ f.1 /\ Z.of_nat (length f.1) <= DIRSIZ /\ Z.of_nat (length f.2) <= MAXFILE * BSIZE.

Lemma entries_ok files k e : Forall name_ok files -> Z.of_nat (length files) + 1 < NINODES -> entries files !! k = Some e ->
  0 <= e.1 < 2 ^ 16 /\ 0 ∉ e.2 /\ Z.of_nat (length e.2) <= DIRSIZ.
Proof.
  intros Hf Hn He. destruct k as [|[|k]]; [injection He as <-..|].
  - split; [done|]. split; [|done]. change (0 ∉ [46]). by rewrite list_elem_of_singleton.
  - split; [done|]. split; [|done]. change (0 ∉ [46; 46]). rewrite !elem_of_cons, elem_of_nil. lia.
  - apply number_lookup in He as (f & Hk & ->). assert (Hl := lookup_lt_Some _ _ _ Hk). unfold NINODES in *.
    rewrite Forall_lookup in Hf. destruct (Hf k f Hk) as (H1 & H2 & _). split_and!; [cbn; lia|cbn; lia|done|done].
Qed.

Section Finish.
Context (s : image) (F : list inode) (files : list (list Z * list Z)) (V : blocks) (x0 : inode).
Let dir : list Z := dir_bytes (entries files).
Let used : Z := freeblock s.
Let off : Z := (Z.of_nat (length dir) / BSIZE + 1) * BSIZE.
Let G : list inode := <[0%nat := set_i_size off x0]> F.
Hypothesis Hs : fsstate s F (dir :: files.*2).
Hypothesis Hx0 : F !! 0%nat = Some x0.
Hypothesis Hok : Forall name_ok files.
Hypothesis Hn : Z.of_nat (length files) + 1 < NINODES.
Hypothesis HV : forall b, b < 32 \/ nmeta <= b -> V b = view s b.
Hypothesis Hbm : V 45 = mark_used (Z.to_nat used) 0 ∅.
Hypothesis Hroot : inode_no V ROOTINO = set_i_size off x0.
Hypothesis Hrest : forall j, 0 <= j < NINODES -> j <> ROOTINO -> inode_no V j = inode_no (view s) j.

Lemma fin_length : length G = S (length files).
Proof. unfold G. rewrite length_insert, (Forall2_length _ _ _ (fs_files _ _ _ Hs)). cbn. by rewrite length_fmap. Qed.

Lemma fin_dir : Z.of_nat (length dir) = 16 * (Z.of_nat (length files) + 2) /\ Z.of_nat (length dir) <= 3200.
Proof. unfold dir. rewrite length_dir_bytes. unfold entries. cbn [length]. rewrite length_number. unfold NINODES in Hn. lia. Qed.

Lemma fin_layout : layout V G used.
Proof.
  apply (layout_addrs V F used 0 x0); [|done|done].
  apply (layout_high (view s)); [|apply (fs_layout _ _ _ Hs)]. intros b Hb. apply HV. by right.
Qed.

Lemma fin_inode i x : G !! i = Some x -> inode_no V (Z.of_nat i + 1) = x.
Proof.
  intros Hx. assert (Hi := lookup_lt_Some _ _ _ Hx). rewrite fin_length in Hi.
  apply lookup_insert_cases in Hx as [(<- & -> & _)|[Hne Hx]]; [done|]. unfold NINODES, ROOTINO in *.
  rewrite Hrest by (unfold NINODES, ROOTINO; lia). by apply (fs_disk _ _ _ Hs).
Qed.

Lemma fin_index j : 1 <= j <= Z.of_nat (length files) + 1 -> exists i x, j = Z.of_nat i + 1 /\ G !! i = Some x /\ inode_no V j = x.
Proof.
  intros Hj. destruct (lookup_lt_is_Some_2 G (Z.to_nat (j - 1))) as [x Hx]; [rewrite fin_length; lia|].
  exists (Z.to_nat (j - 1)), x. assert (E : j = Z.of_nat (Z.to_nat (j - 1)) + 1) by lia. split_and!; [done|done|]. rewrite E. by apply fin_inode.
Qed.

Lemma fin_file i x c : G !! i = Some x -> (dir :: files.*2) !! i = Some c ->
  mapped_to V x (Z.of_nat (length c)) /\ contents V x c /\ i_size x = (if (i =? 0)%nat then off else Z.of_nat (length c)) /\
  i_type x = (if (i =? 0)%nat then T_DIR else T_FILE) /\ i_nlink x = 1.
Proof.
  intros Hx Hc. assert (Hl := fs_layout _ _ _ Hs). assert (Hh : forall b, nmeta <= b -> V b = view s b) by (intros b Hb; apply HV; by right).
  assert (Hfile : forall y, F !! i = Some y -> file_is V y c).
  { intros y Hy. apply (file_is_high (view s) V F used i); [done|done|done|]. by eapply Forall2_lookup_lr; [apply (fs_files _ _ _ Hs)|..]. }
  apply lookup_insert_cases in Hx as [(<- & -> & _)|[Hne Hx]].
  - destruct (Hfile x0 Hx0) as (H1 & [H2 H3] & H4), (fs_type _ _ _ Hs 0%nat x0 Hx0) as [H5 H6]. split_and!; [|done|done|done|done]. split.
    + intros bn Hb. rewrite (saddr_addrs V x0) by done. by apply H2.
    + by rewrite (saddr_addrs V x0).
  - destruct (Hfile x Hx) as (H1 & H2 & H3), (fs_type _ _ _ Hs i x Hx) as [H5 H6]. destruct i; [done|]. done.
Qed.

Lemma fin_block0 : V 0 = ∅.
Proof. rewrite HV by lia. apply (fs_log _ _ _ Hs). by left. Qed.

Lemma fin_root_bytes o : 0 <= o < MAXFILE * BSIZE -> fbyte V (inode_no V ROOTINO) o = default 0 (dir !! Z.to_nat o).
Proof.
  intros Ho. apply bytes_of; [|apply fin_block0|done].
  apply (fin_file 0); [|done]. rewrite Hroot. apply list_lookup_insert_eq. by eapply lookup_lt_Some.
Qed.

Lemma fin_content i x : G !! i = Some x -> exists c, (dir :: files.*2) !! i = Some c /\ Z.of_nat (length c) <= MAXFILE * BSIZE.
Proof.
  intros Hx. apply lookup_lt_Some in Hx. rewrite fin_length in Hx. rewrite MAXFILE_val. unfold BSIZE. destruct i as [|i].
  - exists dir. split; [done|]. destruct fin_dir. lia.
  - destruct (lookup_lt_is_Some_2 files i) as [f Hf]; [lia|]. exists f.2. split; [change (files.*2 !! i = Some f.2); by rewrite list_lookup_fmap, Hf|].
    rewrite Forall_lookup in Hok. apply (Hok i f Hf).
Qed.

Lemma fin_wf j : 1 <= j <= Z.of_nat (length files) + 1 -> (j = ROOTINO -> Z.of_nat (length dir) mod BSIZE <> 0) ->
  file_wf 2 nlog sb V (inode_no V j) [].
Proof.
  intros Hj Hr. destruct (fin_index j Hj) as (i & x & -> & Hx & ->). destruct (fin_content i x Hx) as (c & Hc & Hsz).
  destruct (fin_file i x c Hx Hc) as ([H1 H2] & H3 & H4 & _). apply (wf_of V G used i x); [apply fin_layout|done|done| |].
  - rewrite H4. destruct (Nat.eqb_spec i 0); [|lia]. destruct fin_dir. rewrite MAXFILE_val. unfold off, BSIZE in *. div_lia.
  - intros bn Hb Hlt. rewrite H4 in Hlt. destruct (Nat.eqb_spec i 0) as [->|Hne].
    + injection Hc as <-. specialize (Hr eq_refl). destruct fin_dir. rewrite H1; unfold off, BSIZE in *; rewrite ?MAXFILE_val; div_lia.
    + rewrite H1; [done|]. rewrite MAXFILE_val in *. unfold BSIZE in *. lia.
Qed.

Lemma fin_files k f : files !! k = Some f ->
  let x := inode_no V (Z.of_nat k + 2) in
  i_type x = T_FILE /\ i_nlink x = 1 /\ i_size x = Z.of_nat (length f.2) /\
  forall o, 0 <= o < i_size x -> fbyte V x o = default 0 (f.2 !! Z.to_nat o).
Proof.
  intros Hf x. assert (Hk := lookup_lt_Some _ _ _ Hf). destruct (lookup_lt_is_Some_2 G (S k)) as [y Hy]; [rewrite fin_length; lia|].
  assert (Ex : x = y) by (unfold x; replace (Z.of_nat k + 2) with (Z.of_nat (S k) + 1) by lia; by apply fin_inode). rewrite Ex.
  destruct (fin_content _ _ Hy) as (c & Hc & Hsz). destruct (fin_file _ _ _ Hy Hc) as (H1 & H2 & H3 & H4 & H5).
  assert (c = f.2) as -> by (change (files.*2 !! k = Some c) in Hc; rewrite list_lookup_fmap, Hf in Hc; by injection Hc as <-).
  cbn in H3, H4. split_and!; [done|done|done|]. intros o Ho. apply bytes_of; [done|apply fin_block0|lia].
Qed.

Lemma fin_owner b : nmeta <= b < sb_size sb -> free_block V sb b = false ->
  exists j k, 1 <= j <= Z.of_nat (length files) + 1 /\ 0 <= k <= MAXFILE /\ saddr V (inode_no V j) k = b /\
    forall j' k', 1 <= j' <= Z.of_nat (length files) + 1 -> 0 <= k' <= MAXFILE -> saddr V (inode_no V j') k' = b -> j' = j /\ k' = k.
Proof.
  change (sb_size sb) with FSSIZE. intros Hb Hf. assert (Hl := fin_layout). assert (Hu := ly_fb _ _ _ Hl). rewrite nmeta_val in *.
  rewrite (free_used_blocks V used) in Hf by (done || lia). apply Z.leb_gt in Hf.
  destruct (ly_own _ _ _ Hl b) as (i & x & k & Hx & Hk & E); [rewrite nmeta_val; lia|].
  assert (Hi := lookup_lt_Some _ _ _ Hx). rewrite fin_length in Hi. exists (Z.of_nat i + 1), k.
  rewrite (fin_inode i x Hx). split_and!; [lia|lia|lia|lia|done|]. intros j' k' Hj' Hk' E'.
  destruct (fin_index j' Hj') as (i' & y & -> & Hy & Ey). rewrite Ey in E'.
  destruct (ly_inj _ _ _ Hl i i' x y k k') as [-> ->]; try done; congruence || lia.
Qed.

Lemma fin_made : made V files.
Proof.
  assert (Hl := fin_layout). assert (Hu := ly_fb _ _ _ Hl). destruct geometry as [Hg1 Hg2].
  assert (Hd : Z.of_nat (16 * length (entries files)) = Z.of_nat (length dir)) by (unfold dir; by rewrite length_dir_bytes).
  assert (Hx0' : G !! 0%nat = Some (set_i_size off x0)) by (apply list_lookup_insert_eq; by eapply lookup_lt_Some).
  destruct (fin_file 0 _ dir Hx0' eq_refl) as (_ & _ & H3 & H4 & H5). destruct fin_dir as [Hd1 Hd2].
  split; [|change (i32 (load32 (V 2) 0) = 0)|done|done| |apply (free_ok_of V used); [apply Hu|done]| | | |exact fin_files| | | |exact fin_owner].
  - rewrite HV, (fs_sb _ _ _ Hs) by lia. apply sb_bytes_read.
  - rewrite HV, (fs_log _ _ _ Hs) by lia. reflexivity.
  - intros b Hb. change (sb_size sb) with FSSIZE in Hb. rewrite nmeta_val in Hu. rewrite (free_used_blocks V used) by (done || lia).
    f_equal. apply (fs_count _ _ _ Hs).
  - rewrite Hroot, Hd. done.
  - intros k e He. destruct (entries_ok files k e Hok Hn He) as (E1 & E2 & E3).
    apply (dent_of V _ (entries files)); [apply fin_root_bytes| |done..]. rewrite MAXFILE_val. unfold BSIZE. lia.
  - intros k Hk Hlt. rewrite Hroot in Hlt. cbn [i_size set_i_size] in Hlt. unfold off, BSIZE in Hlt. unfold dent_inum, load16. cbn [le_load].
    assert (Hz : forall a, 0 <= a < 16 -> load8 (dent V (inode_no V ROOTINO) k) a = 0).
    { intros a Ha. rewrite load8_dent, (proj2 (Z.leb_le _ _)), (proj2 (Z.ltb_lt _ _)) by lia. cbn [andb].
      rewrite fin_root_bytes by (rewrite MAXFILE_val; unfold BSIZE; div_lia). rewrite lookup_ge_None_2; [done|]. lia. }
    by rewrite !Hz by lia.
  - intros j Hj Hr. apply fin_wf; [done|]. intros E. specialize (Hr E). by rewrite Hd in Hr.
  - intros j Hj Hu'. destruct (Z.eqb_spec j ROOTINO) as [->|Hne]; [unfold ROOTINO in *; lia|]. rewrite Hrest by done.
    apply (fs_unused _ _ _ Hs); [done|]. assert (Hlen := fin_length). unfold G in Hlen. rewrite length_insert in Hlen. lia.
  - intros j k Hj Hk Hne. destruct (fin_index j Hj) as (i & x & _ & Hx & Ex). rewrite Ex in *. unfold used_blocks. fold dir.
    rewrite <- (fs_count _ _ _ Hs). by apply (ly_slot _ _ _ Hl i).
Qed.
End Finish.

Lemma dir_entries files :
  (dirent ROOTINO (chars ".") ++ dirent ROOTINO (chars "..")) ++ dir_bytes (number 2 files) = dir_bytes (entries files).
Proof. unfold entries. by rewrite !dir_bytes_cons, <- app_assoc. Qed.

(** The image with all files, before its last touches. *)
Lemma main_files host args files :
  Forall2 (packs host) args files -> Z.of_nat (length files) + 1 < NINODES -> used_blocks files <= FSSIZE ->
  exists s F, fsstate s F (dir_bytes (entries files) :: files.*2) /\ main host args image0 =
    (din <- rinode ROOTINO ;;
     let off := xint (i_size din) in
     let off := u32 ((off / BSIZE + 1) * BSIZE) in
     winode ROOTINO (set_i_size (xint off) din) ;;;
     used <- gets freeblock ;;
     balloc (i32 used)) s.
Proof.
  intros Hp Hn Hu. destruct image_init_spec as (s1 & s2 & E1 & E2 & Hs2). rewrite bind_modify in E1. unfold main.
  rewrite bind_modify, (bind_Ok _ _ _ _ _ E1), (bind_Ok _ _ _ _ _ E2).
  destruct (ialloc_spec s2 [] [] Hs2 ltac:(done)) as (s3 & F3 & E3 & Hs3 & Hl3).
  change (new_type []) with T_DIR in E3. change (Z.of_nat (length []) + 1) with ROOTINO in E3. rewrite (bind_Ok _ _ _ _ _ E3).
  rewrite Z.eqb_refl. cbn [negb]. set (d1 := dirent ROOTINO (chars ".")). set (d2 := dirent ROOTINO (chars "..")).
  assert (L1 : length d1 = 16%nat) by apply length_dirent. assert (L2 : length d2 = 16%nat) by apply length_dirent.
  destruct (iappend_spec s3 F3 [[]] 0 [] d1 Hs3 eq_refl) as (s4 & F4 & E4 & Hs4 & Hl4).
  { rewrite app_nil_l, L1. done. }
  { change ([] ++ d1) with d1. rewrite (fs_count _ _ _ Hs3), L1. by vm_compute. }
  change (Z.of_nat 0 + 1) with ROOTINO in E4. rewrite (bind_Ok _ _ _ _ _ E4). change (<[0%nat:=[] ++ d1]> [[]]) with [d1] in Hs4.
  destruct (iappend_spec s4 F4 [d1] 0 d1 d2 Hs4 eq_refl) as (s5 & F5 & E5 & Hs5 & Hl5).
  { rewrite length_app, L1, L2. done. }
  { rewrite (fs_count _ _ _ Hs4), length_app, needed_cons, L1, L2. by vm_compute. }
  change (Z.of_nat 0 + 1) with ROOTINO in E5. rewrite (bind_Ok _ _ _ _ _ E5). change (<[0%nat:=d1 ++ d2]> [d1]) with [d1 ++ d2] in Hs5.
  assert (Hl5' : length F5 = 1%nat) by (rewrite Hl5, Hl4, Hl3; done).
  destruct (add_files_spec host args files s5 F5 (d1 ++ d2) []) as (s6 & F6 & E6 & Hs6 & Hl6); [done|done|lia| | |].
  - rewrite Hl5'. change (Z.of_nat 1 + 1) with 2. unfold d1, d2. rewrite dir_entries, length_dir_bytes. unfold entries. cbn [length]. rewrite length_number.
    rewrite MAXFILE_val. unfold NINODES, BSIZE in *. lia.
  - rewrite Hl5'. change (Z.of_nat 1 + 1) with 2. unfold d1, d2. rewrite dir_entries. exact Hu.
  - rewrite (bind_Ok _ _ _ _ _ E6). rewrite Hl5' in Hs6. change (Z.of_nat 1 + 1) with 2 in Hs6. unfold d1, d2 in Hs6. rewrite dir_entries in Hs6.
    by exists s6, F6.
Qed.

Lemma mkfs_made host args files :
  Forall2 (packs host) args files -> Z.of_nat (length files) + 1 < NINODES -> used_blocks files <= FSSIZE ->
  exists s, main host args image0 = Ok tt s /\ im_len s = FSSIZE /\ made (view s) files.
Proof.
  intros Hp Hn Hu. destruct (main_files host args files Hp Hn Hu) as (s & F & Hs & ->). assert (Hlen := fs_len _ _ _ Hs).
  assert (HF := Forall2_length _ _ _ (fs_files _ _ _ Hs)). cbn [length] in HF. destruct (lookup_lt_is_Some_2 F 0) as [x0 Hx0]; [lia|].
  destruct (fs_disk _ _ _ Hs 0%nat x0 Hx0) as [Ed Hf]. destruct (Forall2_lookup_lr _ _ _ _ _ _ (fs_files _ _ _ Hs) Hx0 eq_refl) as (Esz & _).
  rewrite (bind_Ok _ _ _ _ _ (rinode_ok s ROOTINO Hlen ltac:(done))). change (dinode_at (view s) sb ROOTINO inode0) with (dinode_at (view s) sb (Z.of_nat 0 + 1) inode0).
  rewrite Ed, Esz. set (dir := dir_bytes (entries files)) in *.
  assert (Hdir : Z.of_nat (length dir) <= 3200).
  { unfold dir. rewrite length_dir_bytes. unfold entries. cbn [length]. rewrite length_number. unfold NINODES in Hn. lia. }
  rewrite (xint_id (Z.of_nat (length dir))) by lia. cbv zeta. set (off := (Z.of_nat (length dir) / BSIZE + 1) * BSIZE).
  assert (Hoff : 0 <= off < 2 ^ 32) by (unfold off, BSIZE; div_lia). rewrite u32_small, xint_id by done.
  destruct (winode_ok s ROOTINO (set_i_size off x0) Hlen ltac:(done)) as (s1 & E1 & [[A1 A1'] A2 A3 A4 A5]).
  { destruct Hf. split; done. }
  rewrite (bind_Ok _ _ _ _ _ E1), bind_gets. assert (Hfb := ly_fb _ _ _ (fs_layout _ _ _ Hs)). rewrite nmeta_val in Hfb. unfold FSSIZE in Hfb.
  rewrite A2, i32_small by lia. unfold balloc. rewrite (proj2 (Z.leb_gt _ _)) by (unfold BPB, BSIZE; lia). change (sb_bmapstart sb) with 45.
  destruct (wsect_ok s1 45 (mark_used (Z.to_nat (freeblock s)) 0 ∅)) as (s2 & E2 & HW & B1 & B2 & B3); [congruence|done|].
  exists s2. split; [done|]. split; [congruence|].
  assert (Hno : forall j, 0 <= j < NINODES -> inode_no (view s2) j = inode_no (view s1) j).
  { intros j Hj. destruct (iblock_val j Hj). unfold inode_no, dinode_at. rewrite HW, vupd_ne by lia. done. }
  apply (fin_made s F files (view s2) x0); [done|done| |done| | | |].
  - apply Forall_lookup. intros k f Hk. destruct (Forall2_lookup_r _ _ _ _ _ Hp Hk) as (a & _ & [P1 P2 P3 P4 P5 P6]). done.
  - intros b Hb. rewrite nmeta_val in Hb. rewrite HW, vupd_ne, A3 by lia. done.
  - by rewrite HW, vupd_eq.
  - rewrite Hno by done. unfold inode_no. rewrite A4. rewrite <- Ed. done.
  - intros j Hj Hne. rewrite Hno by done. by apply A5.
Qed.

(** C13: mkfs turns the files of the host, however read() cuts them into pieces,
    into a file system as the kernel requires it: the superblock, an empty log, a
    bitmap in which exactly the blocks that belong to one slot of one inode (and
    the blocks before the data) are in use, a root directory with an entry for
    each file, and inodes with the contents of the files.  The directory is well
    formed unless its entries end with a block, where mkfs extends it by a block
    that it does not allocate. *)
Theorem mkfs_correct host args files :
  Forall2 (packs host) args files -> Z.of_nat (length files) + 1 < NINODES -> used_blocks files <= FSSIZE ->
  exists s, main host args image0 = Ok tt s /\ im_len s = FSSIZE /\ made (view s) files.
Proof. apply mkfs_made. Qed.

(** Two files, one of them read in two pieces. *)
Definition demo_host (arg : list Z) : option (list (list Z)) :=
  if decide (arg = chars "user/_cat") then Some [chars "ab"; chars "c"]
  else if decide (arg = chars "README") then Some [chars "xv6"] else None.
Definition demo_args : list (list Z) := [chars "user/_cat"; chars "README"].
Definition demo_files : list (list Z * list Z) := [(chars "cat", chars "abc"); (chars "README", chars "xv6")].

Lemma demo_packs : Forall2 (packs demo_host) demo_args demo_files.
Proof.
  constructor; [|constructor; [|constructor]].
  - split; try by vm_compute.
    + by apply (bool_decide_eq_false_1 _).
    + by apply (bool_decide_eq_false_1 _).
    + exists [chars "ab"; chars "c"]. split; reflexivity.
  - split; try by vm_compute.
    + by apply (bool_decide_eq_false_1 _).
    + by apply (bool_decide_eq_false_1 _).
    + exists [chars "xv6"]. split; reflexivity.
Qed.

Lemma mkfs_correct_witness :
  exists s, main demo_host demo_args image0 = Ok tt s /\ im_len s = FSSIZE /\ made (view s) demo_files.
Proof. apply (mkfs_correct demo_host demo_args demo_files); [exact demo_packs|by vm_compute|by vm_compute]. Defined.
