(* ===== verification/MkfsBoot.v ===== *)
(** The kernel on the image that mkfs makes: it mounts the file system, finds
    each file by its path and reads its contents. *)
From S2P Require Import Prelude State Locks Kstring Kalloc Vm PageTable VmSpec Uvm UvmCopy Copy Sched Sleeplock Bio BioList BioSpec BlockLayer Log LogSpec Txn Boot Crash Uart Kprintf Either Fs FsTxn FsAlloc FsRead FsInode FsFile FsPath Pipe Console File FsWrite FsDir Mkfs MkfsFiles MkfsSpec.

(** * The log does not matter *)

Section Ext.
Context (V V' : blocks) (files : list (list Z * list Z)).
Hypothesis Hm : made V files.
Hypothesis HV : forall b, b < 2 \/ 32 <= b -> V' b = V b.
Hypothesis Hn : Z.of_nat (length files) + 1 < NINODES.

Lemma ext_inode j : 0 <= j < NINODES -> inode_no V' j = inode_no V j.
Proof. intros Hj. destruct (iblock_val j Hj). unfold inode_no, dinode_at. by rewrite HV by lia. Qed.

Lemma ext_free b : 0 <= b < sb_size sb -> free_block V' sb b = free_block V sb b.
Proof. intros Hb. unfold free_block. rewrite bblock_val by exact Hb. by rewrite HV by lia. Qed.

Lemma ext_saddr j k : 1 <= j <= Z.of_nat (length files) + 1 -> saddr V' (inode_no V j) k = saddr V (inode_no V j) k.
Proof.
  intros Hj. apply saddr_ext. intros Hne. apply HV. right. rewrite (ind_slot V) in *.
  destruct (md_slots _ _ Hm j MAXFILE Hj) as [H1 _]; [rewrite MAXFILE_val; lia|done|]. rewrite nmeta_val in H1. lia.
Qed.

Lemma ext_fbyte j o : 1 <= j <= Z.of_nat (length files) + 1 -> 0 <= o < MAXFILE * BSIZE -> fbyte V' (inode_no V j) o = fbyte V (inode_no V j) o.
Proof.
  intros Hj Ho. apply bn_range in Ho. unfold fbyte. rewrite !baddr_slot, ext_saddr by lia. rewrite HV; [done|].
  destruct (Z.eqb_spec (saddr V (inode_no V j) (o / BSIZE)) 0) as [->|Hne]; [lia|].
  destruct (md_slots _ _ Hm j (o / BSIZE) Hj ltac:(lia) Hne) as [H1 _]. rewrite nmeta_val in H1. lia.
Qed.

Lemma ext_dent k : 0 <= k -> 16 * k < 4096 -> dent V' (inode_no V ROOTINO) k = dent V (inode_no V ROOTINO) k.
Proof.
  intros H1 H2. unfold dent. f_equal. apply list_fmap_ext. intros i a Ha. apply lookup_seqZ in Ha as [-> Ha].
  apply ext_fbyte; [unfold ROOTINO; lia|]. rewrite MAXFILE_val. unfold BSIZE. lia.
Qed.

Lemma ext_data b : data_block 2 nlog sb V [] b -> data_block 2 nlog sb V' [] b.
Proof. intros [H1 H2 H3 H4 H5 H6]. split; try done. rewrite ext_free by lia. done. Qed.

Lemma root_size : i_size (inode_no V ROOTINO) <= 4096 /\ Z.of_nat (length (entries files)) = Z.of_nat (length files) + 2.
Proof.
  destruct (md_root _ _ Hm) as (_ & _ & ->). unfold entries. cbn [length]. rewrite length_number. unfold NINODES, BSIZE in *. div_lia.
Qed.

Lemma made_ext : i32 (load32 (V' 2) 0) = 0 -> made V' files.
Proof.
  intros Hl. destruct root_size as [Hr1 Hr2]. assert (Hroot : inode_no V' ROOTINO = inode_no V ROOTINO) by (by apply ext_inode).
  assert (Hj : forall j, 1 <= j <= Z.of_nat (length files) + 1 -> inode_no V' j = inode_no V j) by (intros j Hj; apply ext_inode; lia).
  destruct Hm as [M1 M2 M3 M4 M5 M6 M7 M8 M9 M10 M11 M12 M13 M14]. split; [|exact Hl|exact M3|exact M4|..].
  - by rewrite HV by lia.
  - intros b Hb. rewrite ext_free by done. by apply M5.
  - intros b Hb Hf. rewrite ext_free in Hf by done. by apply M6.
  - by rewrite Hroot.
  - intros k e He. assert (Hk := lookup_lt_Some _ _ _ He). unfold dent_inum, dent_name. unfold NINODES in Hn.
    rewrite Hroot, ext_dent by lia. by apply M8.
  - intros k Hk Hlt. rewrite Hroot in *. unfold dent_inum. rewrite ext_dent by lia. by apply M9.
  - intros k f Hf x. assert (Hk := lookup_lt_Some _ _ _ Hf). assert (Ex : x = inode_no V (Z.of_nat k + 2)) by (apply Hj; lia). rewrite Ex.
    destruct (M10 k f Hf) as (A1 & A2 & A3 & A4). split_and!; [done..|]. intros o Ho. rewrite ext_fbyte; [by apply A4|lia|].
    destruct (M11 (Z.of_nat k + 2)) as [_ Hsz _ _ _]; [lia|unfold ROOTINO; lia|]. lia.
  - intros j Hr Hmod. rewrite Hj by done. destruct (M11 j Hr Hmod) as [A1 A2 A3 A4 A5]. split; [done|done| | |].
    + intros bn H1 H2. assert (bn < MAXFILE) by (rewrite MAXFILE_val in *; unfold BSIZE in *; lia).
      rewrite baddr_slot, ext_saddr, <- baddr_slot by done. by apply A3.
    + intros k Hk. rewrite ext_saddr by done. intros Hne. by apply ext_data, A4.
    + intros k l Hk Hk'. rewrite !ext_saddr by done. by apply A5.
  - intros j Hr Hu. rewrite ext_inode by done. by apply M12.
  - intros j k Hr Hk. rewrite Hj, ext_saddr by done. by apply M13.
  - intros b Hb Hf. rewrite ext_free in Hf by (rewrite nmeta_val in Hb; lia). destruct (M14 b Hb Hf) as (j & k & B1 & B2 & B3 & B4).
    exists j, k. split; [done|]. split; [done|]. rewrite Hj, ext_saddr by done. split; [done|]. intros j' k' Hj' Hk'.
    rewrite Hj, ext_saddr by done. by apply B4.
Qed.
End Ext.

(** * Mounting *)

Section Mount.
Context (pid : Z).
Abbreviation rep := (brep ROOTDEV pid).
#[local] Instance root_layer : BlockLayer ROOTDEV pid rep := bio_block_layer ROOTDEV pid.

Lemma root_geom : log_geom ROOTDEV 2 nlog.
Proof. exact demo_geom. Qed.

Lemma root_log : log_sb 2 nlog sb.
Proof. split; vm_compute; reflexivity. Qed.

Lemma sb_of_beq d d' : beq d d' -> sb_of_bytes d' = sb_of_bytes d.
Proof. intros E. unfold sb_of_bytes. f_equal; apply le_load_ext; intros i Hi; apply E; unfold BSIZE; lia. Qed.

(** readsb on a machine that has just booted. *)
Lemma readsb_boot t D V files :
  rep t D V [] ∅ -> made V files ->
  exists t', readsb ROOTDEV t = Ok tt t' /\ rep t' D V [] ∅ /\ k_sb t' = sb /\ k_itable t' = k_itable t /\ k_log t' = k_log t.
Proof.
  intros Hr Hm. unfold readsb. change (u32 ROOTDEV) with ROOTDEV.
  destruct (bl_bread t D V [] ∅ 1 Hr) as (b & t1 & E1 & O1 & _ & Hr1); [apply not_elem_of_nil|by vm_compute; lia|].
  rewrite (bind_Ok _ _ _ _ _ E1). unfold buf_data. rewrite bind_gets, bind_modify.
  destruct (bl_locked _ _ _ _ _ b 1 Hr1) as (_ & Hd & _); [by left|].
  assert (Esb : sb_of_bytes (b_data (get_buf b t1)) = sb) by (rewrite (sb_of_beq (V 1)); [apply (md_sb _ _ Hm)|by symmetry]).
  rewrite Esb. assert (Hr2 : rep (set_k_sb sb t1) D V [(b, 1)] ∅).
  { apply (bl_frame t1); [done..|]. destruct (bl_running _ _ _ _ _ Hr1) as [A1 A2 A3]. by split. }
  destruct (bl_brelse _ D V [] [] ∅ b 1 Hr2) as (t' & E' & O' & _ & Hr').
  { right. apply (bl_clean _ _ _ _ _ 1 Hr); [apply not_elem_of_nil|apply not_elem_of_empty]. }
  exists t'. destruct (bio_only_fields _ _ O1) as (_ & _ & L1 & _ & I1 & _), (bio_only_fields _ _ O') as (_ & _ & L2 & S2 & I2 & _).
  split_and!; [done|done|by rewrite S2|by rewrite I2|by rewrite L2].
Qed.

Lemma recovered_empty V : i32 (load32 (V 2) 0) = 0 -> recovered 2 V = V.
Proof. intros H. unfold recovered, hdr. by rewrite H. Qed.

Lemma fsinit_boot t V files :
  rebooted pid V t -> made V files -> Z.of_nat (length files) + 1 < NINODES ->
  exists t' D' V', fsinit ROOTDEV t = Ok tt t' /\ rep t' D' V' [] ∅ /\ made V' files /\ k_sb t' = sb /\ k_itable t' = k_itable t.
Proof.
  intros [Hrun Hb Hd Hl] Hm Hn. assert (Hr : rep t V V [] ∅).
  { eapply bl_ext; [by apply booted_brep|exact Hd|exact Hd]. }
  destruct (readsb_boot t V V files Hr Hm) as (t1 & E1 & Hr1 & Es1 & Ei1 & El1). unfold fsinit. rewrite (bind_Ok _ _ _ _ _ E1), bind_gets, Es1.
  change (negb (sb_magic sb =? FSMAGIC)) with false. cbv iota. rewrite (initlog_enter ROOTDEV 2 nlog sb t1 root_geom root_log).
  set (t2 := upd_log _ t1). assert (Hr2 : rep t2 V V [] ∅).
  { apply (bl_frame t1); [done..|]. destruct (bl_running _ _ _ _ _ Hr1) as [A1 A2 A3]. by split. }
  assert (Hlog : i32 (load32 (V 2) 0) = 0) by exact (md_log _ _ Hm).
  destruct (recover_spec ROOTDEV pid rep 2 nlog root_geom t2 V V Hr2) as (t' & D' & V1 & E & O & _ & Hr' & _ & Hh & He & _); [done..| | |].
  { unfold t2. cbn. by rewrite El1, Hl. }
  { split; [lia|]. unfold hdr. rewrite Hlog. apply (txn_nil ROOTDEV 2 nlog root_geom). }
  rewrite recovered_empty in He by done. set (V' := fun b => if decide (2 <= b < 32) then D' b else V b).
  exists t', D', V'. split; [done|]. split; [|split; [|split]].
  - eapply bl_ext; [exact Hr'|done|]. intros b. transitivity (D' b).
    { symmetry. apply (bl_clean _ _ _ _ _ b Hr'); [apply not_elem_of_nil|apply not_elem_of_empty]. }
    unfold V'. destruct (decide _); [done|]. apply He. unfold inlog. change nlog with 30. lia.
  - apply (made_ext V); [done| |done|].
    + intros b Hb'. unfold V'. by rewrite decide_False by lia.
    + unfold V'. rewrite decide_True by lia. apply Hh.
  - by rewrite (fo_sb _ _ (log_fs_only _ _ O)).
  - by rewrite (log_only_itable _ _ O).
Qed.

(** * Looking up a path *)

(** An entry of the inode table that is not in use, and what iget makes of it. *)
Definition idle (x : inode) : Prop := i_ref x = 0 /\ slk_locked (i_lock x) = false.
Definition fresh_entry (inum : Z) (x : inode) : inode := set_i_valid false (set_i_ref 1 (set_i_inum inum (set_i_dev ROOTDEV x))).

Lemma find_idle d inum l : forall i e, Forall idle l ->
  find_inode l i e d inum = (None, match e, l with None, _ :: _ => Some i | _, _ => e end).
Proof.
  induction l as [|x l IH]; intros i e Hl; [by destruct e|]. apply Forall_cons in Hl as [[Hx _] Hl]. cbn [find_inode]. rewrite Hx. cbn [Z.ltb Z.compare andb Z.eqb].
  rewrite IH by done. by destruct e.
Qed.

Lemma find_skip d inum pre l : forall i, Forall (fun y => entry_of d inum y = false /\ i_ref y <> 0) pre ->
  find_inode (pre ++ l) i None d inum = find_inode l (i + length pre) None d inum.
Proof.
  induction pre as [|y pre IH]; intros i Hp; [by rewrite Nat.add_0_r|]. apply Forall_cons in Hp as [[H1 H2] Hp]. cbn [app find_inode length].
  unfold entry_of in H1. rewrite H1, (proj2 (Z.eqb_neq _ _) H2), IH by done. f_equal. lia.
Qed.

Lemma alter_middle {A} (g : A -> A) pre x post : alter g (length pre) (pre ++ x :: post) = pre ++ g x :: post.
Proof. induction pre as [|y pre IH]; [done|]. cbn. by f_equal. Qed.

Lemma iget_idle s inum pre x post :
  k_itable s = pre ++ x :: post -> LkItable ∉ k_held s -> Forall (fun y => entry_of ROOTDEV inum y = false /\ i_ref y <> 0) pre ->
  idle x -> Forall idle post ->
  iget ROOTDEV inum s = Ok (length pre) (set_k_itable (pre ++ fresh_entry inum x :: post) s).
Proof.
  intros Ht Hl Hp Hx Hpost. unfold iget. rewrite (bind_Ok _ _ _ _ _ (acquire_Ok _ _ Hl)), bind_gets. cbn [k_itable set_k_held].
  rewrite Ht, find_skip, find_idle by (done || by constructor). rewrite Nat.add_0_l, !bind_modify, !upd_inode_comp, upd_inode_release by done.
  unfold upd_inode. rewrite Ht. do 2 f_equal. apply alter_middle.
Qed.

(** iunlockput of an inode that is linked and has no other reference. *)
Lemma iunlockput_last s D V x post :
  rep s D V [] ∅ -> k_itable s = x :: post -> i_lock x = mk_sleeplock true pid -> i_ref x = 1 -> i_nlink x <> 0 ->
  exists s' y, iunlockput 0 s = Ok tt s' /\ rep s' D V [] ∅ /\ k_itable s' = y :: post /\ idle y /\ k_sb s' = k_sb s.
Proof.
  intros Hr Ht Hlk Href Hnl. destruct (bl_running _ _ _ _ _ Hr) as [Hh Hlen (i & Hc & Hpid)].
  assert (Hg : get_inode 0 s = x) by (unfold get_inode; by rewrite Ht). unfold iunlockput, iunlock.
  assert (Ehs : holdingsleep (inode_lock 0) s = Ok true s).
  { rewrite (holdingsleep_Ok (inode_lock 0) s i Hh Hc). cbn [sl_get inode_lock]. by rewrite Hg, Hlk, Hpid, Z.eqb_refl. }
  assert (Ers := releasesleep_Ok (inode_lock 0) s i Hh Hc Hlen). set (s1 := set_k_procs _ _) in Ers.
  assert (Eiu : (h <- holdingsleep (inode_lock 0) ;; x <- gets (get_inode 0) ;;
     if negb h || (i_ref x <? 1) then panic "iunlock" else releasesleep (inode_lock 0)) s = Ok tt s1).
  { rewrite (bind_Ok _ _ _ _ _ Ehs), bind_gets, Hg, Href. exact Ers. }
  rewrite (bind_Ok _ _ _ _ _ Eiu). set (y := set_i_lock (mk_sleeplock false 0) x).
  assert (Et1 : k_itable s1 = y :: post) by (unfold s1; cbn; by rewrite Ht).
  assert (Hr1 : rep s1 D V [] ∅).
  { apply (bl_frame s); [done..|]. pose proof (bio_only_wake s (ChInode 0)) as Hw. rewrite Hc in Hw.
    destruct (running_bio _ _ pid Hw (bl_running _ _ _ _ _ Hr)) as [A1 A2 A3]. by split. }
  assert (Hg1 : get_inode 0 s1 = y) by (unfold get_inode; by rewrite Et1).
  assert (Hh1 : k_held s1 = []) by exact Hh. assert (Hs1 : k_sb s1 = k_sb s) by done. clearbody s1. unfold iput. erewrite (bind_Ok (acquire _)) by (apply acquire_Ok; rewrite Hh1; apply not_elem_of_nil).
  rewrite bind_gets. change (get_inode 0 (set_k_held (LkItable :: k_held s1) s1)) with (get_inode 0 s1). rewrite Hg1.
  change (i_nlink y) with (i_nlink x). rewrite (proj2 (Z.eqb_neq _ 0) Hnl), andb_false_r. cbn [when]. rewrite bind_ret, bind_modify.
  exists (set_k_itable (set_i_ref 0 y :: post) s1), (set_i_ref 0 y).
  split; [|split; [by apply (rep_itable ROOTDEV pid rep)|done]].
  erewrite release_Ok; [|by cbn; rewrite Hh1|apply not_elem_of_nil]. f_equal. unfold upd_inode. cbn [k_itable set_k_held]. rewrite Et1. cbn.
  rewrite Href. destruct s1; cbn in *. by subst.
Qed.

(** Inode [j] in memory, in the entry [y] of the table. *)
Definition mem_inode (V : blocks) (j : Z) (y : inode) : inode := set_i_valid true (dinode_at V sb j y).

Lemma file_ok_disk V x y L : i_size y = i_size x -> i_addrs y = i_addrs x -> file_ok V x L -> file_ok V y L.
Proof.
  intros Es Ea [H1 H2 H3]. assert (Ei : forall k, iaddr y k = iaddr x k) by (intros k; unfold iaddr; by rewrite Ea).
  assert (Eb : forall k, baddr V y k = baddr V x k) by (intros k; unfold baddr; by rewrite !Ei).
  split; [by rewrite Es|intros bn; rewrite Es, Eb; apply H2|rewrite Es, Ei; apply H3].
Qed.

Lemma mem_file_ok V files j y :
  made V files -> 1 <= j <= Z.of_nat (length files) + 1 -> (j = ROOTINO -> Z.of_nat (16 * length (entries files)) mod BSIZE <> 0) ->
  file_ok V (mem_inode V j y) [].
Proof. intros Hm Hj Hr. apply (file_ok_disk V (inode_no V j)); [done|done|]. eapply file_wf_ok, (md_wf _ _ Hm); done. Qed.

(** ilock of the entry that iget has just made. *)
Lemma ilock_fresh V t D j pre x post :
  rep t D V [] ∅ -> k_sb t = sb -> k_itable t = pre ++ fresh_entry j x :: post -> idle x -> i_type (inode_no V j) <> 0 ->
  exists t' y, ilock (Some (length pre)) t = Ok tt t' /\ rep t' D V [] ∅ /\ k_itable t' = pre ++ mem_inode V j y :: post /\ k_sb t' = sb /\
    i_dev y = ROOTDEV /\ i_inum y = j /\ i_ref y = 1 /\ i_lock y = mk_sleeplock true pid.
Proof.
  intros Hr Hsb Ht [_ Hlk] Hty. assert (Hx : k_itable t !! length pre = Some (fresh_entry j x)) by (rewrite Ht; by apply list_lookup_middle).
  destruct (ilock_reads ROOTDEV pid rep t D V [] ∅ (length pre) (fresh_entry j x)) as (t' & E & Hr' & Ei & Es); try done.
  - cbn [length]. rewrite size_empty. unfold bhead, NBUF, MAXOPBLOCKS. lia.
  - apply not_elem_of_nil.
  - rewrite Hsb in *. set (y := set_i_lock (mk_sleeplock true pid) (fresh_entry j x)) in *. change (i_inum (fresh_entry j x)) with j in *.
    exists t', y. rewrite E. change (i_type (set_i_valid true (dinode_at V sb j y))) with (i_type (inode_no V j)).
    rewrite (proj2 (Z.eqb_neq _ _)) by done. split; [done|]. split; [done|]. split; [|done]. rewrite Ei, Ht, alter_middle. done.
Qed.

Section Lookup.
Context `{Linker} (V : blocks) (files : list (list Z * list Z)) (k : nat) (f : list Z * list Z).
Hypothesis Hm : made V files.
Hypothesis Hn : Z.of_nat (length files) + 1 < NINODES.
Hypothesis Hdir : Z.of_nat (16 * length (entries files)) mod BSIZE <> 0.
Hypothesis Hnames : NoDup (entries files).*2.
Hypothesis Hf : files !! k = Some f.

Lemma entry_of_file : entries files !! S (S k) = Some (Z.of_nat k + 2, f.1).
Proof.
  change (number 2 files !! k = Some (Z.of_nat k + 2, f.1)). destruct (lookup_lt_is_Some_2 (number 2 files) k) as [e He].
  { rewrite length_number. by eapply lookup_lt_Some. }
  destruct (number_lookup _ _ _ _ He) as (g & Hg & ->). rewrite He. simplify_eq. do 2 f_equal. lia.
Qed.

(** The only entry with the name of the file is its own. *)
Lemma entry_unique j y : 0 <= j < i_size (mem_inode V ROOTINO y) / 16 -> is_entry V (mem_inode V ROOTINO y) f.1 j ->
  dent_inum V (mem_inode V ROOTINO y) j = Z.of_nat k + 2.
Proof.
  intros Hj [H0 Hname]. change (dent_inum V (inode_no V ROOTINO) j <> 0) in H0. change (dent_name V (inode_no V ROOTINO) j = f.1) in Hname.
  change (dent_inum V (inode_no V ROOTINO) j = Z.of_nat k + 2). change (i_size (mem_inode V ROOTINO y)) with (i_size (inode_no V ROOTINO)) in Hj.
  destruct (Z.ltb_spec j (Z.of_nat (length (entries files)))) as [Hlt|Hge].
  - destruct (lookup_lt_is_Some_2 (entries files) (Z.to_nat j)) as [e He]; [lia|]. destruct (md_entries _ _ Hm _ _ He) as [Ei En].
    rewrite Z2Nat.id in Ei, En by lia. assert (Z.to_nat j = S (S k)) as Ej.
    { eapply (NoDup_lookup _ _ _ f.1 Hnames); rewrite list_lookup_fmap; [by rewrite He; cbn; congruence|by rewrite entry_of_file]. }
    rewrite Ej, entry_of_file in He. injection He as <-. done.
  - exfalso. apply H0, (md_end _ _ Hm); [done|]. div_lia.
Qed.

Lemma root_lookup t D name y x1 post :
  rep t D V [] ∅ -> k_itable t = mem_inode V ROOTINO y :: x1 :: post -> i_dev y = ROOTDEV -> i_inum y = ROOTINO -> i_ref y = 1 ->
  idle x1 -> Forall idle post -> cstr (Z.to_nat DIRSIZ) name 0 = f.1 ->
  exists t' off, dirlookup 0 name t = Ok (Some (1%nat, off)) t' /\ rep t' D V [] ∅ /\
    k_itable t' = mem_inode V ROOTINO y :: fresh_entry (Z.of_nat k + 2) x1 :: post /\ k_sb t' = k_sb t.
Proof.
  intros Hr Ht Hdev Hinum Href Hx1 Hpost Hname. set (r := mem_inode V ROOTINO y) in *.
  assert (Hg : get_inode 0 t = r) by (unfold get_inode; by rewrite Ht). destruct (md_root _ _ Hm) as (Hty & _ & Hsz).
  pose proof (dirlookup_found ROOTDEV pid rep t D V [] ∅ 0 name 1 x1) as Hd. rewrite Hg, Hname in Hd.
  destruct Hd as (t' & [(j & ip & Hj & He & _ & E & Hr' & _ & _ & _ & t1 & O & Hr1 & Eg)|(Hno & _)]); try done.
  - cbn [length]. rewrite size_empty. unfold bhead, NBUF, MAXOPBLOCKS. lia.
  - apply (mem_file_ok V files); [done|unfold ROOTINO; lia|done].
  - change (i_size r) with (i_size (inode_no V ROOTINO)). rewrite Hsz. unfold BSIZE. div_lia.
  - by rewrite Ht.
  - apply Hx1.
  - destruct (bio_only_fields _ _ O) as (Eh & _ & _ & Es & Ei & _). destruct (bl_running _ _ _ _ _ Hr1) as [Hh _ _].
    assert (Eu : dent_inum V r j = Z.of_nat k + 2) by (by apply entry_unique). rewrite Eu in Eg.
    rewrite (iget_idle t1 _ [r] x1 post) in Eg; [|by rewrite Ei, Ht|rewrite Hh; apply not_elem_of_nil| |done|done].
    + injection Eg as <- <-. exists (set_k_itable (r :: fresh_entry (Z.of_nat k + 2) x1 :: post) t1), (16 * j). split_and!; [done|done|done|exact Es].
    + constructor; [|constructor]. change (i_ref r) with (i_ref y). split; [|lia]. unfold entry_of.
      change (i_inum r) with (i_inum y). rewrite Hinum, (proj2 (Z.eqb_neq ROOTINO _)) by (unfold ROOTINO; lia). apply andb_false_r.
  - exfalso. assert (Hk := lookup_lt_Some _ _ _ entry_of_file). destruct (md_entries _ _ Hm _ _ entry_of_file) as [Ei En].
    apply (Hno (Z.of_nat (S (S k)))).
    + change (i_size r) with (i_size (inode_no V ROOTINO)). rewrite Hsz. unfold BSIZE. div_lia.
    + split; [|exact En]. change (dent_inum V r (Z.of_nat (S (S k)))) with (dent_inum V (inode_no V ROOTINO) (Z.of_nat (S (S k)))). rewrite Ei. cbn. lia.
Qed.

Lemma path_file : SLASH ∉ f.1 -> f.1 <> [] -> path_elems (SLASH :: f.1) = [f.1].
Proof.
  intros Hs Hne. rewrite path_elems_slash by done. unfold path_elems.
  assert (E : split_slash f.1 = [f.1]).
  { clear -Hs. induction f.1 as [|c l IH]; [done|]. apply not_elem_of_cons in Hs as [Hc Hs]. cbn [split_slash].
    assert (Ec : is_slash c = false) by (apply Z.eqb_neq; unfold SLASH in Hc; congruence). rewrite Ec, IH by done. done. }
  rewrite E. by rewrite filter_cons_True.
Qed.

Lemma namei_file t D path x0 x1 post :
  rep t D V [] ∅ -> k_sb t = sb -> k_itable t = x0 :: x1 :: post -> Forall idle (x0 :: x1 :: post) ->
  string_at path 0 (SLASH :: f.1) -> SLASH ∉ f.1 -> f.1 <> [] -> Z.of_nat (length f.1) <= DIRSIZ ->
  exists t' y0, namei path t = Ok (Some 1%nat) t' /\ rep t' D V [] ∅ /\ k_itable t' = y0 :: fresh_entry (Z.of_nat k + 2) x1 :: post /\ k_sb t' = sb.
Proof.
  intros Hr Hsb Ht Hidle Hpath Hs Hne Hlen. apply Forall_cons in Hidle as [Hx0 Hidle]. assert (Hidle' := Hidle). apply Forall_cons in Hidle' as [Hx1 Hpost].
  assert (H47 : load8 path 0 = 47) by (by destruct (proj1 Hpath 0%nat SLASH eq_refl)).
  destruct (bl_running _ _ _ _ _ Hr) as [Hh _ _]. destruct (md_root _ _ Hm) as (Hty & Hnl & _). unfold namei, namex. rewrite H47. change (47 =? 47) with true. cbv iota.
  assert (E1 := iget_idle t ROOTINO [] x0 (x1 :: post) Ht ltac:(rewrite Hh; apply not_elem_of_nil) ltac:(constructor) Hx0 Hidle). cbn [length app] in E1.
  set (t1 := set_k_itable _ t) in E1. assert (Hr1 : rep t1 D V [] ∅) by (by apply (rep_itable ROOTDEV pid rep)).
  pose proof (skipelem_spec path 0 (SLASH :: f.1) ∅ Hpath) as Hsk. rewrite path_file in Hsk by done.
  destruct Hsk as (p & name & l & Ek & Hp & Hpl & Hl & Hnm). rewrite take_ge in Hnm by lia.
  assert (l = []) as -> by tauto. pose proof (skipelem_spec path p [] name Hp) as Hk2. change (skipelem path p name = None) in Hk2.
  destruct (ilock_fresh V t1 D ROOTINO [] x0 (x1 :: post)) as (t2 & y & E2 & Hr2 & Ht2 & Hs2 & Hy1 & Hy2 & Hy3 & Hy4); [done..|by rewrite Hty|].
  cbn [length app] in E2, Ht2. assert (Hg2 : get_inode 0 t2 = mem_inode V ROOTINO y) by (unfold get_inode; by rewrite Ht2).
  destruct (root_lookup t2 D name y x1 post) as (t3 & off & E3 & Hr3 & Ht3 & Hs3); [done..|].
  destruct (iunlockput_last t3 D V (mem_inode V ROOTINO y) (fresh_entry (Z.of_nat k + 2) x1 :: post)) as (t4 & y0 & E4 & Hr4 & Ht4 & _ & Hs4);
    [done|done|done|done|by change (i_nlink (inode_no V ROOTINO) <> 0); rewrite Hnl|].
  exists t4, y0. split; [|split; [done|split; [done|congruence]]].
  assert (El : namex_loop (2 + size path) 0 path 0 false ∅ t1 = Ok (Some 1%nat, name) t4).
  { change (2 + size path)%nat with (S (S (size path))). cbn [namex_loop]. rewrite Ek, (bind_Ok _ _ _ _ _ E2), bind_gets, Hg2.
    change (i_type (mem_inode V ROOTINO y)) with (i_type (inode_no V ROOTINO)). rewrite Hty. change (negb (T_DIR =? T_DIR)) with false. cbn [andb].
    rewrite (bind_Ok _ _ _ _ _ E3), (bind_Ok _ _ _ _ _ E4), Hk2. done. }
  erewrite bind_Ok; [|rewrite (bind_Ok _ _ _ _ _ E1); exact El]. done.
Qed.
End Lookup.
End Mount.

Lemma packs_slash host arg f : packs host arg f -> SLASH ∉ f.1.
Proof.
  intros [Hs <- _ _ _ _]. unfold skip_underscore. destruct (shortname arg) as [|c l]; [apply not_elem_of_nil|].
  destruct (c =? UNDERSCORE); [|done]. by apply not_elem_of_cons in Hs as [_ Hs].
Qed.

(** C3: from the host to a running kernel.  A machine whose disk is the image that
    mkfs made of [files] and that has just booted mounts it with fsinit (which
    reads the superblock and recovers the empty log); then namei finds each file
    under its path, ilock loads its inode, and readi returns the bytes that
    the host's file had, as many as were asked for and are there.  The names are
    different from each other and from . and .., and the directory does not end
    with a block. *)
Theorem mkfs_boots `{Linker} host args files im pid t k f path n :
  Forall2 (packs host) args files -> Z.of_nat (length files) + 1 < NINODES -> used_blocks files <= FSSIZE ->
  Z.of_nat (16 * length (entries files)) mod BSIZE <> 0 -> NoDup (entries files).*2 ->
  main host args image0 = Ok tt im -> rebooted pid (view im) t -> Forall idle (k_itable t) -> (2 <= length (k_itable t))%nat ->
  files !! k = Some f -> f.1 <> [] -> string_at path 0 (SLASH :: f.1) -> 0 <= n < 2 ^ 32 ->
  let m := Z.min n (Z.of_nat (length f.2)) in
  exists t1 ip t2 t3 b t4, fsinit ROOTDEV t = Ok tt t1 /\ namei path t1 = Ok (Some ip) t2 /\ ilock (Some ip) t2 = Ok tt t3 /\
    readi ip (Local ∅ 0) 0 n t3 = Ok (m, Local b m) t4 /\
    forall i, 0 <= i < m -> load8 b i = default 0 (f.2 !! Z.to_nat i).
Proof.
  intros Hp Hn Hu Hdir Hnd Hmain Hboot Hidle Hlen Hf Hne Hpath Hn0 m.
  destruct (mkfs_made host args files Hp Hn Hu) as (im' & E & _ & Hm). rewrite Hmain in E. injection E as <-.
  destruct (fsinit_boot pid t (view im) files Hboot Hm Hn) as (t1 & D & V & E1 & Hr1 & Hm1 & Hs1 & Hi1).
  destruct (k_itable t) as [|x0 [|x1 post]]; [cbn in Hlen; lia|cbn in Hlen; lia|].
  destruct (Forall2_lookup_r _ _ _ _ _ Hp Hf) as (a & _ & Hpk).
  destruct (namei_file pid V files k f Hm1 Hdir Hnd Hf t1 D path x0 x1 post) as (t2 & y0 & E2 & Hr2 & Ht2 & Hs2); [done..|by eapply packs_slash|done|by destruct Hpk|].
  destruct (md_files _ _ Hm1 k f Hf) as (Hty & _ & Hsz & Hby).
  apply Forall_cons in Hidle as [_ [Hx1 _]%Forall_cons].
  destruct (ilock_fresh pid V t2 D (Z.of_nat k + 2) [y0] x1 post) as (t3 & y & E3 & Hr3 & Ht3 & _ & Hy & _); [done..|by rewrite Hty|].
  assert (Hg : get_inode 1 t3 = mem_inode V (Z.of_nat k + 2) y) by (unfold get_inode; by rewrite Ht3).
  pose proof (readi_local ROOTDEV pid (brep ROOTDEV pid) t3 D V [] ∅ 1 0 n ∅ 0) as Hrd. rewrite Hg in Hrd.
  assert (Hk := lookup_lt_Some _ _ _ Hf). destruct Hrd as (b & t4 & E4 & _ & _ & Hb); [done| |done| |lia|done|].
  { cbn [length]. rewrite size_empty. unfold bhead, NBUF, MAXOPBLOCKS. lia. }
  { apply (mem_file_ok V files); [done|lia|unfold ROOTINO; lia]. }
  assert (Em : read_len (i_size (mem_inode V (Z.of_nat k + 2) y)) 0 n = m).
  { change (i_size (mem_inode V (Z.of_nat k + 2) y)) with (i_size (inode_no V (Z.of_nat k + 2))). rewrite Hsz. unfold read_len.
    rewrite (proj2 (Z.ltb_ge _ _)), (proj2 (Z.leb_gt _ _)) by lia. cbn [orb]. lia. }
  rewrite Em in *. exists t1, 1%nat, t2, t3, b, t4. split_and!; [done..|]. intros i Hi. rewrite Hb, !Z.add_0_l, Z.sub_0_r.
  rewrite (proj2 (Z.leb_le _ _)), (proj2 (Z.ltb_lt _ _)) by lia. cbn [andb]. rewrite <- Hby; [done|]. lia.
Qed.

(** The machine that boots from the image with two files. *)
Definition demo_image : image := match main demo_host demo_args image0 with Ok _ s => s | _ => image0 end.
Definition demo_cat : bytes := store_list (chars "/cat") ∅ 0.

Lemma demo_image_main : main demo_host demo_args image0 = Ok tt demo_image.
Proof. unfold demo_image. destruct (mkfs_made demo_host demo_args demo_files demo_packs) as (s & -> & _); by vm_compute. Qed.

Lemma mkfs_demo_rebooted im : rebooted 1 (view im) (demo_disk (im_blocks im)).
Proof. split; [apply demo_running|done| |done]. intros bn. reflexivity. Qed.

#[local] Existing Instance demo_linker.
Lemma mkfs_boots_witness :
  exists t1 ip t2 t3 b t4, fsinit ROOTDEV (demo_disk (im_blocks demo_image)) = Ok tt t1 /\ namei demo_cat t1 = Ok (Some ip) t2 /\
    ilock (Some ip) t2 = Ok tt t3 /\ readi ip (Local ∅ 0) 0 100 t3 = Ok (3, Local b 3) t4 /\
    forall i, 0 <= i < 3 -> load8 b i = default 0 (chars "abc" !! Z.to_nat i).
Proof.
  apply (mkfs_boots demo_host demo_args demo_files demo_image 1 (demo_disk (im_blocks demo_image)) 0 (chars "cat", chars "abc") demo_cat 100).
  - exact demo_packs.
  - by vm_compute.
  - by vm_compute.
  - by vm_compute.
  - apply (bool_decide_eq_true_1 _). by vm_compute.
  - exact demo_image_main.
  - apply mkfs_demo_rebooted.
  - apply Forall_replicate. done.
  - vm_compute. lia.
  - done.
  - done.
  - split; [|done]. intros i c Hi. do 4 (destruct i as [|i]; [injection Hi as <-; split; [reflexivity|by vm_compute]|]). discriminate Hi.
  - lia.
Defined.
